(* ===== verification/_CoqProject ===== *)
-Q . S2P
Prelude.v
Machine.v
CString.v
Kalloc.v
Vm.v
PageTable.v
UserMem.v
UserFree.v
UserCopy.v
UserFork.v
Concrete.v
Spinlock.v
Sleeplock.v
BlockCache.v
Bio.v
Virtio.v
VirtioInv.v
BioDisk.v
Log.v
DiskExamples.v
Pipe.v
PipeExamples.v
Printf.v
Uart.v
Console.v
ConsoleExamples.v
Proc.v
ProcInv.v
ProcMem.v
ProcExamples.v
Fs.v
FsBlocks.v
FsFile.v
FsWrite.v
FsDir.v
FsPath.v
FsInode.v
FsLink.v
FsExamples.v
MkFs.v
MkFsInv.v
MkFsImage.v
Kernel.v
File.v
Fork.v
Exec.v
Args.v
Sysproc.v
Sysfile.v
Syscall.v
Trap.v
SysInv.v
FileInv.v
ForkMem.v
ForkCorrect.v
SysExamples.v
Asm.v
AsmCorrect.v
Initcode.v
UserLib.v
UserPrintf.v
UMalloc.v
UMallocInv.v
Grep.v
Sh.v
ShParse.v
ShRun.v
Filters.v
Find.v
Pingpong.v
Primes.v
PrimesInv.v
PrimesCorrect.v
