(* ===== verification/Prelude.v ===== *)
(** * Verification of xv6 (RISC-V) with the system call lab

    The program is a small Unix: a kernel in C and assembly (src/kernel), the user library, the shell and user
    programs (src/user), and the host program that makes the disk image (src/mkfs).  Hardware enters the kernel
    through the trap code of trampoline.S and kernelvec.S, which call the handlers of trap.c; these dispatch system
    calls (syscall.c, sysproc.c, sysfile.c) and device interrupts.  System calls work on processes (proc.c), open files
    (file.c, pipe.c) and inodes (fs.c).  Inodes live on a write-ahead log (log.c), which lives on the buffer cache
    (bio.c), which lives on the disk driver (virtio_disk.c).  Processes live on page tables (vm.c), which live on the page
    allocator (kalloc.c).  The lab adds trace, sysinfo and the counters of free memory, processes and load.

    ** How the code is modelled

    - An integer is a [Z] in the range of its type; every operation that can wrap is written with [u8], [u32], [u64], [s32] and the like.
    - Memory is the finite map of its bytes ([Machine]); a pointer is an address.  Tables of structures that only the
      kernel sees (proc[], ftable, itable, bcache) are finite maps or lists of records, and a pointer into one is an index.
    - Kernel code is written in the monad [M S] of this file: a routine on the state [S] returns, panics, sleeps on a
      channel, or runs out of the fuel of one of its loops.  The context carries the locks this CPU holds and the bytes
      sent to the serial port.  acquire() and release() check the first of these, so a theorem that a routine
      returns also says that it takes no lock twice and releases only what it holds.
    - A routine that sleeps inside a loop is cut there: [Asleep] leaves the state other processes see, and what runs
      after the wakeup is a definition of its own ([pipewrite_from], [consoleread_from], [virtio_disk_rw_resume],
      [wait_round], [sys_sleep_loop], ...).  Concurrent components are step relations or step functions
      whose runs are arbitrary interleavings ([Spinlock], [Sleeplock], [Virtio], [Pipe], [Uart], [ProcInv], [Primes]).
    - What is not under src/ is a parameter: the kernel's placement in memory is the class [KernelImage]; the device's
      status register, what a read() returns at a time, what sbrk(), pipe() or the host's files give are arguments.
    - [BlockCache] is an interface: what bio.c promises to the log and the file system.  [Log] and the [Fs] files are
      proved against it, [Bio] implements it.

    ** Files

    Memory.  [Machine] has the constants of param.h, riscv.h and memlayout.h; [CString] is string.c; [Kalloc] is kalloc.c;
    [Vm] is vm.c.  [PageTable] represents Sv39 tables as finite maps; [UserMem], [UserFree], [UserCopy] and [UserFork] are the
    theorems on address spaces; [Concrete] fixes a memory to apply them to.

    Locks and disk.  [Spinlock] and [Sleeplock] are spinlock.c and sleeplock.c.  [Bio] is bio.c, [Virtio] is
    virtio_disk.c with the device as its environment, cut at every access to what the device also looks at; [VirtioInv] is the proof
    that they carry out block transfers; [BioDisk] relates the transfers of [Bio], which are completed at once, to the specification
    that the driver refines.  [Log] is log.c.  [DiskExamples] has concrete disks.

    Devices.  [Pipe] is pipe.c, [Printf] printf.c, [Uart] uart.c, [Console] console.c.

    Processes and files.  [Proc] is the part of proc.c on the table and memory, with [ProcInv] and [ProcMem]; [Fs] is fs.c,
    with [FsBlocks], [FsFile], [FsWrite], [FsDir], [FsPath], [FsInode] and [FsLink].  [Kernel] puts the state together; [File] is
    file.c, [Fork] has fork, exit and userinit, [Exec] is exec.c, [Args] and [Syscall] are syscall.c, [Sysproc] and [Sysfile] the
    system calls, [Trap] is trap.c.  [SysInv], [FileInv], [ForkMem] and [ForkCorrect] are the theorems on
    the whole kernel.  The [...Examples] files have the states at which the theorems are applied.

    Assembly.  [Asm] is trampoline.S, swtch.S, kernelvec.S, entry.S and start.c; [AsmCorrect] their theorems.  [Initcode] is
    user/initcode.S and its bytes in proc.c.

    Disk image.  [MkFs] is mkfs/mkfs.c; [MkFsInv] and [MkFsImage] show that the image is one the kernel can use.

    User programs.  [UserLib] is ulib.c, [UserPrintf] printf.c, [UMalloc] umalloc.c with [UMallocInv]; [Sh], [ShParse] and
    [ShRun] are sh.c; [Grep] is grep.c; [Filters] has wc.c, cat.c, xargs.c and the generator of grind.c; [Find] has find.c
    and ls.c; [Pingpong] is pingpong.c; [Primes], [PrimesInv] and [PrimesCorrect] are primes.c.

    ** What is proved

    - Crash safety: after a crash at any write of commit() or of recovery, recovery leaves either all blocks of the
      transaction or none ([commit_crash_safe], [recovery_crash_safe]); the reservation of log space has a gap
      ([log_reservation_gap]).
    - The disk driver refines a disk that performs each transfer at once - every run has the same calls, returns and data as one
      of that disk - and loses no interrupt or wakeup ([virtio_refines], [virtio_progress]); the cache returns the
      block asked for, when no other process runs in between ([bread_correct]).
    - Memory: allocation, copying and freeing of address spaces lose no page and free none twice ([uvmalloc_correct],
      [uvmcopy_correct], [uvmfree_correct], [allocproc_correct], [wait_correct]); copies to and from user memory move the bytes they say.
    - Processes and files: the invariants of the process table and of the reference counts of open files hold after
      every system call that runs to its end without sleeping ([table_invariant], [syscall_invariant]); fork() makes a copy of its caller ([fork_correct]).
    - Traps: all user registers survive a trap, a context switch and a kernel trap ([trap_roundtrip], [swtch_roundtrip],
      [kernelvec_roundtrip]).
    - File contents: writes and reads of files, directories and the freeing of files ([writei_correct],
      [writei_readi_roundtrip], [dirlink_correct], [iput_correct]); mkfs makes a disk that meets the
      kernel's expectations ([mkfs_correct]).
    - Concurrency: mutual exclusion of both kinds of locks, pipes and the transmit ring as queues, the console as a line
      editor ([mutual_exclusion], [sleeplock_exclusive], [pipe_fifo], [uart_fifo], [console_refines]).
    - User programs: malloc() and free() keep the heap tiled; the shell's parser accepts its grammar and its
      descriptors are as the command asks; grep prints the matching lines; find prints the paths with the name
      looked for, as deep as its descriptors and its stack reach; pingpong and the
      sieve end without deadlock with the right output in every schedule ([malloc_correct], [free_correct],
      [parsecmd_correct], [runcmd_plumbs], [grep_correct], [match_correct], [find_correct], [pingpong_correct], [primes_correct]).
    - Defects that the models show are stated as theorems or examples next to the code they concern.

    ** Bounds and fuel

    Loops over an array or a byte count recurse on the count.  A loop without such a bound takes fuel, and a theorem
    says that enough was given: the free list is followed for at most as many steps as there are pages between the end of the
    kernel and PHYSTOP; freewalk() and the Sv39 walk have three levels; a page-wise copy needs one turn per page; bget()
    and brelse() follow a list of NBUF buffers; namex() and the parser of the shell consume input at every turn; malloc() and free() pass each free block
    once; grep, wc and cat need one turn per byte at most, as read() returns at least one; the calls of find() below each
    other are bounded by the stack, and its theorem holds for every bound; the runs of the sieve
    have at most 1757708 steps, by a potential, and those of pingpong 19.  A string routine without a bound in C
    takes fuel as an argument, and any fuel beyond the length of the string gives the same result.

    ** Not modelled

    - Weak memory: memory is sequentially consistent, for the device too.
    - What a system call does on the state of the whole kernel after it slept: a call that sleeps ends in [Asleep] there.  The parts
      that follow a sleep are modelled and proved in their components (pipes, console, disk driver, wait, sleep locks).
    - The accessed and dirty bits of page-table entries, and the TLB, which sfence.vma flushes.
    - main.c, trapinit, plicinit, uartinit and the like, which program registers or initialise a lock; kvminithart.
    - usys.pl, linker scripts, Makefile and the grading scripts: they generate or check code and are not part of it.
    - usertests.c, grind.c apart from its generator, stressfs.c, forktest.c, sysinfotest.c and attacktest.c: tests of the
      kernel without a contract of their own; init.c, echo.c, kill.c and other programs of a few system calls.
    - The memory of a user program while it is in a system call, beyond the bytes the call reads and writes. *)

From stdpp Require Export base tactics gmap list strings.
From Stdlib Require Export ZArith Lia ZifyBool.
#[global] Open Scope Z_scope.

(** ** Machine integers

    A C unsigned integer of [w] bits is a [Z] in [0, 2^w); every operation of
    the source that can wrap is written with the reduction below. *)

Definition u8 (x : Z) : Z := x mod 2 ^ 8.
Definition u16 (x : Z) : Z := x mod 2 ^ 16.
Definition u32 (x : Z) : Z := x mod 2 ^ 32.
Definition u64 (x : Z) : Z := x mod 2 ^ 64.

(** A C [int]: the 32-bit two's complement value of [x]. *)
Definition s32 (x : Z) : Z :=
  let y := x mod 2 ^ 32 in if y <? 2 ^ 31 then y else y - 2 ^ 32.

(** A C [short]: the 16-bit two's complement value of [x]. *)
Definition s16 (x : Z) : Z :=
  let y := x mod 2 ^ 16 in if y <? 2 ^ 15 then y else y - 2 ^ 16.

(** ** Locks, sleep channels and observable events

    [lock] names every spinlock of the kernel, [chan] every address that is
    passed to sleep() and wakeup(). *)

Inductive lock : Type :=
| L_kmem | L_pid | L_wait | L_proc (i : nat) | L_ftable | L_itable | L_bcache
| L_log | L_pipe (pa : Z) | L_ticks | L_cons | L_uart_tx | L_vdisk | L_pr
| L_bufsleep (i : nat) | L_inodesleep (i : nat).

Inductive chan : Type :=
| Ch_proc (i : nat) | Ch_ticks | Ch_log | Ch_pipe_nread (pa : Z)
| Ch_pipe_nwrite (pa : Z) | Ch_cons_r | Ch_uart_tx_r | Ch_buf (i : nat)
| Ch_bufsleep (i : nat) | Ch_inodesleep (i : nat) | Ch_disk_free.

#[global] Instance lock_eq_dec : EqDecision lock.
Proof. solve_decision. Defined.
#[global] Instance chan_eq_dec : EqDecision chan.
Proof. solve_decision. Defined.

(** What a kernel routine does that its caller cannot undo: waking the
    sleepers of a channel, and sending a byte to the console. *)
Inductive event : Type :=
| EvWakeup (ch : chan)
| EvPutc (c : Z).

#[global] Instance event_eq_dec : EqDecision event.
Proof. solve_decision. Defined.

(** The context a routine runs in: the spinlocks this CPU holds (the newest
    first) and the events emitted so far (the newest first). *)
Record ctx : Type := Ctx { held : list lock; out : list event }.

(** ** The kernel monad

    A routine over component state [S] returns, panics, gives up the CPU in
    sleep(), or runs out of the fuel that bounds one of its loops. *)

Inductive res (S A : Type) : Type :=
| Ok (a : A) (c : ctx) (s : S)
| Panic (msg : string)
| Asleep (ch : chan) (c : ctx) (s : S)
| Diverge.
Arguments Ok {S A} a c s.
Arguments Panic {S A} msg.
Arguments Asleep {S A} ch c s.
Arguments Diverge {S A}.

Definition M (S A : Type) : Type := ctx -> S -> res S A.

Definition retM {S A} (a : A) : M S A := fun c s => Ok a c s.
Definition bindM {S A B} (m : M S A) (f : A -> M S B) : M S B := fun c s =>
  match m c s with
  | Ok a c' s' => f a c' s'
  | Panic msg => Panic msg
  | Asleep ch c' s' => Asleep ch c' s'
  | Diverge => Diverge
  end.
Definition panic {S A} (msg : string) : M S A := fun _ _ => Panic msg.
Definition diverge {S A} : M S A := fun _ _ => Diverge.
Definition getM {S} : M S S := fun c s => Ok s c s.
Definition getsM {S A} (f : S -> A) : M S A := fun c s => Ok (f s) c s.
Definition modifyM {S} (f : S -> S) : M S unit := fun c s => Ok tt c (f s).
Definition emit {S} (e : event) : M S unit := fun c s =>
  Ok tt (Ctx (held c) (e :: out c)) s.

Declare Scope kernel_scope.
Delimit Scope kernel_scope with kernel.
#[global] Open Scope kernel_scope.

Notation "x <-! m ;; k" := (bindM m (fun x => k))
  (at level 100, m at next level, right associativity) : kernel_scope.
Notation "m ;;! k" := (bindM m (fun _ => k))
  (at level 100, right associativity) : kernel_scope.

Definition whenM {S} (b : bool) (m : M S unit) : M S unit :=
  if b then m else retM tt.

(** acquire(lk) as seen by the CPU that runs it: it panics when this CPU
    already holds the lock, and otherwise returns holding it (the spin waits
    for the other CPUs).  release(lk) panics when this CPU does not hold it.
    [Spinlock] relates both to the code of spinlock.c. *)
Definition acquire {S} (lk : lock) : M S unit := fun c s =>
  if decide (lk ∈ held c) then Panic "acquire"
  else Ok tt (Ctx (lk :: held c) (out c)) s.

Fixpoint remove_lock (lk : lock) (l : list lock) : list lock :=
  match l with
  | [] => []
  | x :: l' => if decide (x = lk) then l' else x :: remove_lock lk l'
  end.

Definition release {S} (lk : lock) : M S unit := fun c s =>
  if decide (lk ∈ held c) then Ok tt (Ctx (remove_lock lk (held c)) (out c)) s
  else Panic "release".

(** sleep(chan, lk): lk is released, and the context switch panics when the
    CPU still holds another spinlock besides the process's own. *)
Definition sleep {S A} (ch : chan) (lk : lock) : M S A := fun c s =>
  if decide (lk ∈ held c) then
    match remove_lock lk (held c) with
    | [] => Asleep ch (Ctx [] (out c)) s
    | _ => Panic "sched locks"
    end
  else Panic "release".

(** sleep(ch, lk) up to the point where the process is off the CPU. *)
Definition goto_sleep {S} (lk : lock) : M S unit := fun c s =>
  if decide (lk ∈ held c) then
    match remove_lock lk (held c) with
    | [] => Ok tt (Ctx [] (out c)) s
    | _ => Panic "sched locks"
    end
  else Panic "release".

Definition wakeup_ev {S} (ch : chan) : M S unit := emit (EvWakeup ch).

(** Running a routine of a component inside a larger state. *)
Record lens (S T : Type) : Type := Lens { lget : S -> T; lput : T -> S -> S }.
Arguments Lens {S T} lget lput.
Arguments lget {S T} l s.
Arguments lput {S T} l t s.

Definition zoom {S T A} (l : lens S T) (m : M T A) : M S A := fun c s =>
  match m c (lget l s) with
  | Ok a c' t => Ok a c' (lput l t s)
  | Panic msg => Panic msg
  | Asleep ch c' t => Asleep ch c' (lput l t s)
  | Diverge => Diverge
  end.

(** A lens that reads back what it stored and stores nothing else. *)
Class LensOk {S T} (l : lens S T) : Prop := {
  lget_lput : forall t s, lget l (lput l t s) = t;
  lput_lput : forall t t' s, lput l t (lput l t' s) = lput l t s;
  lput_lget : forall s, lput l (lget l s) s = s;
}.

Definition getl {S T A} (l : lens S T) (f : T -> A) : M S A := getsM (fun s => f (lget l s)).
Definition modl {S T} (l : lens S T) (f : T -> T) : M S unit := modifyM (fun s => lput l (f (lget l s)) s).

(** ** Automation *)

Create HintDb xv6.
Create Rewrite HintDb xv6.

Ltac munfold :=
  unfold whenM, wakeup_ev, emit, modifyM, getsM, getM, panic, diverge, retM in *.

(** One step of symbolic execution of the monad in the goal. *)
Ltac mstep := unfold bindM at 1; cbn beta iota.

Lemma bind_Ok {S A B} (m : M S A) (f : A -> M S B) c s a c' s' :
  m c s = Ok a c' s' -> bindM m f c s = f a c' s'.
Proof. intros H. unfold bindM. by rewrite H. Qed.

Lemma bind_Panic {S A B} (m : M S A) (f : A -> M S B) c s msg :
  m c s = Panic msg -> bindM m f c s = Panic msg.
Proof. intros H. unfold bindM. by rewrite H. Qed.

Lemma bind_ret {S A B} (a : A) (f : A -> M S B) c s :
  bindM (retM a) f c s = f a c s.
Proof. done. Qed.

Lemma bind_gets {S A B} (g : S -> A) (f : A -> M S B) c s :
  bindM (getsM g) f c s = f (g s) c s.
Proof. done. Qed.

Lemma bind_get {S B} (f : S -> M S B) c s :
  bindM getM f c s = f s c s.
Proof. done. Qed.

Lemma bind_modify {S B} (g : S -> S) (f : unit -> M S B) c s :
  bindM (modifyM g) f c s = f tt c (g s).
Proof. done. Qed.

Lemma bind_assoc {S A B C} (m : M S A) (f : A -> M S B) (g : B -> M S C) c s :
  bindM (bindM m f) g c s = bindM m (fun a => bindM (f a) g) c s.
Proof. unfold bindM. by destruct (m c s). Qed.

(** Inversion of a run that returned. *)
Lemma bind_inv {S A B} (m : M S A) (f : A -> M S B) c s b c' s' :
  bindM m f c s = Ok b c' s' ->
  exists a c1 s1, m c s = Ok a c1 s1 /\ f a c1 s1 = Ok b c' s'.
Proof. unfold bindM. destruct (m c s); naive_solver. Qed.

Lemma acquire_free {S} lk c (s : S) :
  lk ∉ held c -> acquire lk c s = Ok tt (Ctx (lk :: held c) (out c)) s.
Proof. intros H. unfold acquire. by rewrite decide_False. Qed.

Lemma remove_lock_head lk l : remove_lock lk (lk :: l) = l.
Proof. simpl. by rewrite decide_True. Qed.

Lemma release_head {S} lk l o (s : S) :
  release lk (Ctx (lk :: l) o) s = Ok tt (Ctx l o) s.
Proof.
  unfold release. rewrite decide_True by set_solver.
  by simpl held; rewrite remove_lock_head.
Qed.

Lemma ctx_eta c : Ctx (held c) (out c) = c.
Proof. by destruct c. Qed.

Lemma bind_release {S B} lk l o (f : unit -> M S B) s :
  bindM (release lk) f (Ctx (lk :: l) o) s = f tt (Ctx l o) s.
Proof. unfold bindM. by rewrite release_head. Qed.

Lemma bind_emit {S B} e (f : unit -> M S B) c s :
  bindM (emit e) f c s = f tt (Ctx (held c) (e :: out c)) s.
Proof. done. Qed.

Lemma bind_acquire {S B} lk (f : unit -> M S B) c s : lk ∉ held c ->
  bindM (acquire lk) f c s = f tt (Ctx (lk :: held c) (out c)) s.
Proof. intros H. by rewrite (bind_Ok _ _ _ _ _ _ _ (acquire_free lk c s H)). Qed.

Lemma bind_goto_sleep {S B} lk o (f : unit -> M S B) s :
  bindM (goto_sleep lk) f (Ctx [lk] o) s = f tt (Ctx [] o) s.
Proof.
  unfold bindM, goto_sleep. cbn [held]. rewrite decide_True by set_solver. by rewrite remove_lock_head.
Qed.

Lemma bind_getl {S T A B} (l : lens S T) (g : T -> A) (f : A -> M S B) c s :
  bindM (getl l g) f c s = f (g (lget l s)) c s.
Proof. done. Qed.

Lemma bind_modl {S T B} (l : lens S T) (g : T -> T) (f : unit -> M S B) c s :
  bindM (modl l g) f c s = f tt c (lput l (g (lget l s)) s).
Proof. done. Qed.

#[export] Hint Rewrite @bind_goto_sleep @bind_getl @bind_modl @bind_ret @bind_gets @bind_get @bind_modify @bind_assoc
  @bind_release @bind_emit @release_head ctx_eta : xv6.

(** Runs the monadic primitives at the head of the goal. *)
Ltac mrun := repeat (progress (autorewrite with xv6; cbn [held out fst snd])).

(** Linear arithmetic with division and remainder by constants. *)
Ltac zlia := Z.to_euclidean_division_equations; lia.

(** ** Integers *)

Lemma u64_small x : 0 <= x < 2 ^ 64 -> u64 x = x.
Proof. apply Z.mod_small. Qed.
Lemma u32_small x : 0 <= x < 2 ^ 32 -> u32 x = x.
Proof. apply Z.mod_small. Qed.
Lemma u64_range x : 0 <= u64 x < 2 ^ 64.
Proof. apply Z.mod_pos_bound. lia. Qed.
Lemma u32_range x : 0 <= u32 x < 2 ^ 32.
Proof. apply Z.mod_pos_bound. lia. Qed.
Lemma u8_range x : 0 <= u8 x < 256.
Proof. apply (Z.mod_pos_bound x 256). lia. Qed.
Lemma u8_small x : 0 <= x < 256 -> u8 x = x.
Proof. apply Z.mod_small. Qed.

Lemma s32_id x : - 2 ^ 31 <= x < 2 ^ 31 -> s32 x = x.
Proof.
  intros Hx. unfold s32. destruct (decide (0 <= x)) as [|Hn].
  - rewrite Z.mod_small by lia. by rewrite (proj2 (Z.ltb_lt _ _)) by lia.
  - rewrite <- (Z.mod_add x 1), Z.mod_small by lia. rewrite (proj2 (Z.ltb_ge _ _)) by lia. lia.
Qed.
Lemma s32_range x : - 2 ^ 31 <= s32 x < 2 ^ 31.
Proof. unfold s32. pose proof (Z.mod_pos_bound x (2 ^ 32) ltac:(lia)). destruct (_ <? _) eqn:E; lia. Qed.

#[export] Hint Resolve u64_range u32_range u8_range : xv6.
