(* ===== verification/Machine.v ===== *)
(** The machine of types.h, riscv.h, memlayout.h and param.h: the constants and
    address arithmetic the kernel is written with, and physical memory as bytes
    with little-endian loads and stores of any width. *)

From S2P Require Import Prelude.

(** ** param.h *)

Definition NPROC : Z := 64.
Definition NCPU : Z := 8.
Definition NOFILE : Z := 16.
Definition NFILE : Z := 100.
Definition NINODE : Z := 50.
Definition NDEV : Z := 10.
Definition ROOTDEV : Z := 1.
Definition MAXARG : Z := 32.
Definition MAXOPBLOCKS : Z := 10.
Definition LOGSIZE : Z := MAXOPBLOCKS * 3.
Definition NBUF : Z := MAXOPBLOCKS * 3.
Definition FSSIZE : Z := 2000.
Definition MAXPATH : Z := 128.
Definition USERSTACK : Z := 1.

(** ** fcntl.h *)

Definition O_RDONLY : Z := 0x000.
Definition O_WRONLY : Z := 0x001.
Definition O_RDWR : Z := 0x002.
Definition O_CREATE : Z := 0x200.
Definition O_TRUNC : Z := 0x400.

(** ** riscv.h: pages and page-table entries *)

Definition PGSIZE : Z := 4096.
Definition PGSHIFT : Z := 12.
Definition PGROUNDUP (sz : Z) : Z := Z.land (u64 (sz + PGSIZE - 1)) (Z.lnot (PGSIZE - 1)).
Definition PGROUNDDOWN (a : Z) : Z := Z.land a (Z.lnot (PGSIZE - 1)).

Definition PTE_V : Z := Z.shiftl 1 0.
Definition PTE_R : Z := Z.shiftl 1 1.
Definition PTE_W : Z := Z.shiftl 1 2.
Definition PTE_X : Z := Z.shiftl 1 3.
Definition PTE_U : Z := Z.shiftl 1 4.

Definition PA2PTE (pa : Z) : Z := u64 (Z.shiftl (Z.shiftr pa 12) 10).
Definition PTE2PA (pte : Z) : Z := u64 (Z.shiftl (Z.shiftr pte 10) 12).
Definition PTE_FLAGS (pte : Z) : Z := Z.land pte 0x3FF.

Definition PXMASK : Z := 0x1FF.
Definition PXSHIFT (level : Z) : Z := PGSHIFT + 9 * level.
Definition PX (level va : Z) : Z := Z.land (Z.shiftr va (PXSHIFT level)) PXMASK.
Definition MAXVA : Z := Z.shiftl 1 (9 + 9 + 9 + 12 - 1).

(** ** memlayout.h *)

Definition UART0 : Z := 0x10000000.
Definition VIRTIO0 : Z := 0x10001000.
Definition PLIC : Z := 0x0c000000.
Definition KERNBASE : Z := 0x80000000.
Definition PHYSTOP : Z := KERNBASE + 128 * 1024 * 1024.
Definition TRAMPOLINE : Z := MAXVA - PGSIZE.
Definition KSTACK (p : Z) : Z := TRAMPOLINE - (p + 1) * 2 * PGSIZE.
Definition TRAPFRAME : Z := TRAMPOLINE - PGSIZE.

(** The build configuration: conf/lab.mk sets LAB=syscall, and the Makefile
    turns it into -DLAB_SYSCALL. *)
Definition LAB_SYSCALL : bool := true.

(** The symbols that kernel.ld defines: the linker script fixes where the
    kernel's text and data end, and that the trampoline is a page of its text. *)
Class KernelImage : Type := {
  kend : Z;
  etext : Z;
  trampoline : Z;
  kend_range : KERNBASE < kend <= PHYSTOP;
  etext_range : KERNBASE < etext <= kend;
  etext_aligned : etext mod PGSIZE = 0;
  trampoline_range : KERNBASE <= trampoline < etext;
  trampoline_aligned : trampoline mod PGSIZE = 0;
}.

(** ** Physical memory

    A cell holds a byte; a cell that was never written reads as zero. *)

Definition mem : Type := gmap Z Z.

Definition mget (m : gmap Z Z) (a : Z) : Z := u8 (default 0 (m !! a)).
Definition mset (m : gmap Z Z) (a v : Z) : gmap Z Z := <[a := u8 v]> m.

(** A little-endian load and store of [n] bytes. *)
Fixpoint loadn (n : nat) (m : gmap Z Z) (a : Z) : Z :=
  match n with
  | O => 0
  | S k => mget m a + 256 * loadn k m (a + 1)
  end.

Fixpoint storen (n : nat) (m : gmap Z Z) (a v : Z) : gmap Z Z :=
  match n with
  | O => m
  | S k => storen k (mset m a v) (a + 1) (v / 256)
  end.

Definition load64 (m : gmap Z Z) (a : Z) : Z := loadn 8 m a.
Definition store64 (m : gmap Z Z) (a v : Z) : gmap Z Z := storen 8 m a v.

(** The bytes of a C object, and writing a list of bytes. *)
Definition bytes_of (m : gmap Z Z) (a : Z) (n : nat) : list Z :=
  map (fun i => mget m (a + Z.of_nat i)) (seq 0 n).

Fixpoint put_bytes (m : gmap Z Z) (a : Z) (bs : list Z) : gmap Z Z :=
  match bs with
  | [] => m
  | b :: bs' => put_bytes (mset m a b) (a + 1) bs'
  end.

(** *** Reading back what was written *)

Lemma mget_range m a : 0 <= mget m a < 256.
Proof. apply u8_range. Qed.

Lemma mget_mset_eq m a v : mget (mset m a v) a = u8 v.
Proof.
  unfold mget, mset. rewrite lookup_insert_eq. simpl.
  unfold u8. by rewrite Z.mod_mod.
Qed.

Lemma mget_mset_ne m a b v : a <> b -> mget (mset m a v) b = mget m b.
Proof. intros H. unfold mget, mset. by rewrite lookup_insert_ne. Qed.

Lemma mget_storen_out n : forall m a v b,
  b < a \/ a + Z.of_nat n <= b -> mget (storen n m a v) b = mget m b.
Proof.
  induction n as [|n IH]; intros m a v b H; cbn [storen]; [done|].
  rewrite IH by lia. apply mget_mset_ne. lia.
Qed.

Lemma loadn_ext n : forall m m' a,
  (forall b, a <= b < a + Z.of_nat n -> mget m b = mget m' b) ->
  loadn n m a = loadn n m' a.
Proof.
  induction n as [|n IH]; intros m m' a H; cbn [loadn]; [done|].
  rewrite (H a) by lia. rewrite (IH m m'); [done|]. intros; apply H; lia.
Qed.

Lemma loadn_range n : forall m a, 0 <= loadn n m a < 256 ^ Z.of_nat n.
Proof.
  induction n as [|n IH]; intros m a; cbn [loadn]; [lia|].
  pose proof (mget_range m a). pose proof (IH m (a + 1)).
  replace (Z.of_nat (S n)) with (Z.of_nat n + 1) by lia.
  rewrite Z.pow_add_r by lia. lia.
Qed.

Lemma loadn_storen_eq n : forall m a v,
  loadn n (storen n m a v) a = v mod 256 ^ Z.of_nat n.
Proof.
  induction n as [|n IH]; intros m a v; cbn [loadn storen].
  - change (256 ^ Z.of_nat 0) with 1. by rewrite Z.mod_1_r.
  - rewrite IH. rewrite mget_storen_out by lia. rewrite mget_mset_eq. unfold u8.
    replace (Z.of_nat (S n)) with (1 + Z.of_nat n) by lia.
    rewrite Z.pow_add_r by lia.
    rewrite (Z.rem_mul_r v (256 ^ 1) (256 ^ Z.of_nat n)) by lia.
    change (256 ^ 1) with 256. change (2 ^ 8) with 256. lia.
Qed.

Lemma loadn_storen_out k n m a v b :
  b + Z.of_nat k <= a \/ a + Z.of_nat n <= b ->
  loadn k (storen n m a v) b = loadn k m b.
Proof. intros H. apply loadn_ext. intros x Hx. apply mget_storen_out. lia. Qed.

Lemma load64_range m a : 0 <= load64 m a < 2 ^ 64.
Proof. apply (loadn_range 8). Qed.

Lemma load64_store64_eq m a v : load64 (store64 m a v) a = u64 v.
Proof. apply (loadn_storen_eq 8). Qed.

Lemma load64_store64_out m a v b :
  b + 8 <= a \/ a + 8 <= b -> load64 (store64 m a v) b = load64 m b.
Proof. intros. apply loadn_storen_out. lia. Qed.

Lemma mget_store64_out m a v b :
  b < a \/ a + 8 <= b -> mget (store64 m a v) b = mget m b.
Proof. intros. apply mget_storen_out. lia. Qed.

Lemma load64_ext m m' a :
  (forall b, a <= b < a + 8 -> mget m b = mget m' b) -> load64 m a = load64 m' a.
Proof. intros H. apply loadn_ext. intros; apply H; lia. Qed.

Lemma mget_put_bytes_out bs : forall m a b,
  b < a \/ a + Z.of_nat (length bs) <= b -> mget (put_bytes m a bs) b = mget m b.
Proof.
  induction bs as [|x bs IH]; intros m a b H; cbn [put_bytes length] in *; [done|].
  rewrite IH by lia. apply mget_mset_ne. lia.
Qed.

Lemma mget_put_bytes_in bs : forall m a i,
  (i < length bs)%nat ->
  mget (put_bytes m a bs) (a + Z.of_nat i) = u8 (nth i bs 0).
Proof.
  induction bs as [|x bs IH]; intros m a i H; cbn [put_bytes length nth] in *; [lia|].
  destruct i as [|i].
  - rewrite mget_put_bytes_out by lia. replace (a + Z.of_nat 0) with a by lia.
    apply mget_mset_eq.
  - replace (a + Z.of_nat (S i)) with (a + 1 + Z.of_nat i) by lia. apply IH. lia.
Qed.

Lemma length_bytes_of m a n : length (bytes_of m a n) = n.
Proof. unfold bytes_of. by rewrite length_map, length_seq. Qed.

Lemma nth_bytes_of m a n i d :
  (i < n)%nat -> nth i (bytes_of m a n) d = mget m (a + Z.of_nat i).
Proof.
  intros H. unfold bytes_of.
  rewrite (nth_indep _ d (mget m (a + Z.of_nat 0))) by (rewrite length_map, length_seq; lia).
  rewrite (map_nth (fun i => mget m (a + Z.of_nat i))), seq_nth by lia. done.
Qed.

(** *** Page arithmetic *)

Lemma PTE_V_val : PTE_V = 1. Proof. done. Qed.
Lemma MAXVA_val : MAXVA = 2 ^ 38. Proof. done. Qed.
Lemma PHYSTOP_val : PHYSTOP = 0x88000000. Proof. done. Qed.

Lemma land_page_mask a : Z.land a (Z.lnot (PGSIZE - 1)) = a - a mod PGSIZE.
Proof.
  change (PGSIZE - 1) with (Z.ones 12). change PGSIZE with (2 ^ 12).
  rewrite <- Z.ldiff_land, Z.ldiff_ones_r by lia.
  rewrite Z.shiftl_mul_pow2, Z.shiftr_div_pow2 by lia.
  pose proof (Z.div_mod a (2 ^ 12)). lia.
Qed.

Lemma PGROUNDDOWN_spec a : PGROUNDDOWN a = a - a mod PGSIZE.
Proof. apply land_page_mask. Qed.

Lemma PGROUNDUP_spec sz : 0 <= sz < 2 ^ 64 - PGSIZE ->
  PGROUNDUP sz = (sz + PGSIZE - 1) / PGSIZE * PGSIZE.
Proof.
  intros H. unfold PGROUNDUP. rewrite u64_small by (unfold PGSIZE in *; lia).
  rewrite land_page_mask.
  pose proof (Z.div_mod (sz + PGSIZE - 1) PGSIZE). unfold PGSIZE in *. lia.
Qed.

Lemma PGROUNDUP_aligned sz : 0 <= sz < 2 ^ 64 - PGSIZE -> PGROUNDUP sz mod PGSIZE = 0.
Proof. intros H. rewrite PGROUNDUP_spec by done. apply Z.mod_mul. unfold PGSIZE. lia. Qed.

Lemma PGROUNDUP_bounds sz : 0 <= sz < 2 ^ 64 - PGSIZE ->
  sz <= PGROUNDUP sz < sz + PGSIZE.
Proof.
  intros H. rewrite PGROUNDUP_spec by done. unfold PGSIZE in *.
  pose proof (Z.div_mod (sz + 4096 - 1) 4096). 
  pose proof (Z.mod_pos_bound (sz + 4096 - 1) 4096). lia.
Qed.

Lemma PGROUNDUP_id a : 0 <= a < 2 ^ 64 - PGSIZE -> a mod PGSIZE = 0 -> PGROUNDUP a = a.
Proof.
  intros Ha Hm. pose proof (PGROUNDUP_bounds a Ha). pose proof (PGROUNDUP_aligned a Ha).
  unfold PGSIZE in *. zlia.
Qed.
