(* ===== verification/CString.v ===== *)
(** kernel/string.c: the byte and string routines, over physical memory.

    A pointer is an address, a routine that writes returns the new memory.  The
    loops are transcribed with their counters; C's [char] is unsigned on
    RISC-V, so a character is the byte itself. *)

From S2P Require Import Prelude Machine.

(** ** The routines *)

Fixpoint memset_loop (k : nat) (i : Z) (m : gmap Z Z) (dst c : Z) : gmap Z Z :=
  match k with
  | O => m
  | S k' => memset_loop k' (i + 1) (mset m (dst + i) c) dst c
  end.
Definition memset (m : gmap Z Z) (dst c n : Z) : gmap Z Z :=
  memset_loop (Z.to_nat n) 0 m dst c.

Fixpoint memcmp_loop (n : nat) (m : gmap Z Z) (s1 s2 : Z) : Z :=
  match n with
  | O => 0
  | S n' =>
      if mget m s1 =? mget m s2 then memcmp_loop n' m (s1 + 1) (s2 + 1)
      else mget m s1 - mget m s2
  end.
Definition memcmp (m : gmap Z Z) (v1 v2 n : Z) : Z := memcmp_loop (Z.to_nat n) m v1 v2.

(** [while(n-- > 0) *--d = *--s] and [while(n-- > 0) *d++ = *s++]. *)
Fixpoint copy_down (n : nat) (m : gmap Z Z) (d s : Z) : gmap Z Z :=
  match n with
  | O => m
  | S n' => copy_down n' (mset m (d - 1) (mget m (s - 1))) (d - 1) (s - 1)
  end.
Fixpoint copy_up (n : nat) (m : gmap Z Z) (d s : Z) : gmap Z Z :=
  match n with
  | O => m
  | S n' => copy_up n' (mset m d (mget m s)) (d + 1) (s + 1)
  end.
Definition memmove (m : gmap Z Z) (dst src n : Z) : gmap Z Z :=
  if n =? 0 then m
  else if (src <? dst) && (dst <? src + n)
       then copy_down (Z.to_nat n) m (dst + n) (src + n)
       else copy_up (Z.to_nat n) m dst src.
Definition memcpy (m : gmap Z Z) (dst src n : Z) : gmap Z Z := memmove m dst src n.

Fixpoint strncmp_loop (n : nat) (m : gmap Z Z) (p q : Z) : Z :=
  match n with
  | O => 0
  | S n' =>
      if negb (mget m p =? 0) && (mget m p =? mget m q)
      then strncmp_loop n' m (p + 1) (q + 1)
      else mget m p - mget m q
  end.
Definition strncmp (m : gmap Z Z) (p q n : Z) : Z := strncmp_loop (Z.to_nat n) m p q.

(** The second loop of strncpy: pad with NUL. *)
Fixpoint strncpy_pad (n : nat) (m : gmap Z Z) (s : Z) : gmap Z Z :=
  match n with
  | O => m
  | S n' => strncpy_pad n' (mset m s 0) (s + 1)
  end.
Fixpoint strncpy_loop (n : nat) (m : gmap Z Z) (s t : Z) : gmap Z Z :=
  match n with
  | O => m
  | S n' =>
      let ch := mget m t in
      let m' := mset m s ch in
      if ch =? 0 then strncpy_pad n' m' (s + 1) else strncpy_loop n' m' (s + 1) (t + 1)
  end.
Definition strncpy (m : gmap Z Z) (s t n : Z) : gmap Z Z := strncpy_loop (Z.to_nat n) m s t.

(** [while(--n > 0 && ( *s++ = *t++) != 0);  *s = 0]: [n] counts what the
    pre-decrement leaves. *)
Fixpoint safestrcpy_loop (n : nat) (m : gmap Z Z) (s t : Z) : gmap Z Z :=
  match n with
  | O => mset m s 0
  | S n' =>
      let ch := mget m t in
      let m' := mset m s ch in
      if ch =? 0 then mset m' (s + 1) 0 else safestrcpy_loop n' m' (s + 1) (t + 1)
  end.
Definition safestrcpy (m : gmap Z Z) (s t n : Z) : gmap Z Z :=
  if n <=? 0 then m else safestrcpy_loop (Z.to_nat (n - 1)) m s t.

(** strlen's loop is unbounded: [fuel] bounds it, and [None] means that no NUL
    was met within the bound. *)
Fixpoint strlen_loop (fuel : nat) (m : gmap Z Z) (s n : Z) : option Z :=
  match fuel with
  | O => None
  | S f => if mget m (s + n) =? 0 then Some n else strlen_loop f m s (n + 1)
  end.
Definition strlen (fuel : nat) (m : gmap Z Z) (s : Z) : option Z := strlen_loop fuel m s 0.

(** ** What they do *)

Lemma memset_loop_get k : forall i m dst c b,
  mget (memset_loop k i m dst c) b =
  if (dst + i <=? b) && (b <? dst + i + Z.of_nat k) then u8 c else mget m b.
Proof.
  induction k as [|k IH]; intros i m dst c b; cbn [memset_loop].
  - case_match eqn:E; [lia|done].
  - rewrite IH.
    destruct (decide (b = dst + i)) as [->|Hne].
    + rewrite mget_mset_eq. do 2 case_match; lia || done.
    + rewrite mget_mset_ne by lia. do 2 case_match; lia || done.
Qed.

(** memset fills exactly the n bytes at dst. *)
Lemma memset_get m dst c n b : 0 <= n ->
  mget (memset m dst c n) b = if (dst <=? b) && (b <? dst + n) then u8 c else mget m b.
Proof.
  intros Hn. unfold memset. rewrite memset_loop_get.
  by rewrite Z.add_0_r, Z2Nat.id by lia.
Qed.

Lemma copy_up_get n : forall m d s b, (d <= s \/ s + Z.of_nat n <= d) ->
  mget (copy_up n m d s) b =
  if (d <=? b) && (b <? d + Z.of_nat n) then mget m (s + (b - d)) else mget m b.
Proof.
  induction n as [|n IH]; intros m d s b H; cbn [copy_up].
  - case_match eqn:E; [lia|done].
  - rewrite IH by lia.
    destruct (decide (b = d)) as [->|Hne].
    + rewrite mget_mset_eq, u8_small by apply mget_range.
      do 2 case_match; try lia. f_equal; lia.
    + rewrite (mget_mset_ne _ d b) by lia.
      case_match eqn:E1; case_match eqn:E2; try lia.
      rewrite mget_mset_ne by lia. f_equal; lia.
Qed.

Lemma copy_down_get n : forall m d s b, (s <= d \/ d <= s - Z.of_nat n) ->
  mget (copy_down n m d s) b =
  if (d - Z.of_nat n <=? b) && (b <? d) then mget m (s + (b - d)) else mget m b.
Proof.
  induction n as [|n IH]; intros m d s b H; cbn [copy_down].
  - case_match eqn:E; [lia|done].
  - rewrite IH by lia.
    destruct (decide (b = d - 1)) as [->|Hne].
    + rewrite mget_mset_eq, u8_small by apply mget_range.
      do 2 case_match; try lia. f_equal; lia.
    + rewrite (mget_mset_ne _ (d - 1) b) by lia.
      case_match eqn:E1; case_match eqn:E2; try lia.
      rewrite mget_mset_ne by lia. f_equal; lia.
Qed.

Lemma memmove_get m dst src n b : 0 <= n ->
  mget (memmove m dst src n) b =
  if (dst <=? b) && (b <? dst + n) then mget m (src + (b - dst)) else mget m b.
Proof.
  intros Hn. unfold memmove. destruct (Z.eqb_spec n 0) as [->|Hnz].
  { case_match eqn:E; [lia|done]. }
  destruct ((src <? dst) && (dst <? src + n)) eqn:E.
  - rewrite copy_down_get by lia. rewrite Z2Nat.id by lia.
    replace (dst + n - n) with dst by lia.
    case_match; [f_equal; lia|done].
  - rewrite copy_up_get by lia. by rewrite Z2Nat.id by lia.
Qed.

(** memmove moves the n bytes at src to dst, whichever way the two ranges
    overlap: every destination byte is the source byte of the memory before
    the call, and no other byte changes. *)
Theorem memmove_correct m dst src n i b : 0 <= n ->
  (0 <= i < n -> mget (memmove m dst src n) (dst + i) = mget m (src + i)) /\
  (b < dst \/ dst + n <= b -> mget (memmove m dst src n) b = mget m b).
Proof.
  intros Hn. split; intros H; rewrite memmove_get by done; case_match; try lia.
  f_equal; lia.
Qed.

(** ** C strings

    [cstr n m p] is the string at [p], cut at its NUL or after [n] bytes. *)

Fixpoint cstr (n : nat) (m : gmap Z Z) (p : Z) : list Z :=
  match n with
  | O => []
  | S k => if mget m p =? 0 then [] else mget m p :: cstr k m (p + 1)
  end.

Lemma cstr_ext n : forall m m' p,
  (forall b, p <= b < p + Z.of_nat n -> mget m b = mget m' b) -> cstr n m p = cstr n m' p.
Proof.
  induction n as [|n IH]; intros m m' p H; cbn [cstr]; [done|].
  rewrite (H p) by lia. rewrite (IH m m'); [done|]. intros; apply H; lia.
Qed.

Lemma cstr_nonzero n : forall m p, Forall (fun c => 0 < c < 256) (cstr n m p).
Proof.
  induction n as [|n IH]; intros m p; cbn [cstr]; [constructor|].
  pose proof (mget_range m p). case_match; constructor; [lia|apply IH].
Qed.

Lemma strncmp_loop_zero n : forall m p q,
  strncmp_loop n m p q = 0 <-> cstr n m p = cstr n m q.
Proof.
  induction n as [|n IH]; intros m p q; cbn [strncmp_loop cstr]; [done|].
  destruct (Z.eqb_spec (mget m p) 0) as [Hp|Hp];
    destruct (Z.eqb_spec (mget m q) 0) as [Hq|Hq]; cbn [negb andb].
  - split; [done|lia].
  - split; [lia|done].
  - destruct (Z.eqb_spec (mget m p) (mget m q)) as [E|E]; split; try lia; done.
  - destruct (Z.eqb_spec (mget m p) (mget m q)) as [E|E].
    + rewrite IH, E. split; [congruence|]. by intros [= ->].
    + split; [lia|]. intros [= H _]. lia.
Qed.

(** strncmp returns zero exactly when the two strings agree up to their NULs or
    up to n characters. *)
Theorem strncmp_zero_iff m p q n :
  strncmp m p q n = 0 <-> cstr (Z.to_nat n) m p = cstr (Z.to_nat n) m q.
Proof. apply strncmp_loop_zero. Qed.

Lemma strncpy_pad_get n : forall m s b,
  mget (strncpy_pad n m s) b =
  if (s <=? b) && (b <? s + Z.of_nat n) then 0 else mget m b.
Proof.
  induction n as [|n IH]; intros m s b; cbn [strncpy_pad].
  - case_match eqn:E; [lia|done].
  - rewrite IH. destruct (decide (b = s)) as [->|Hne].
    + rewrite mget_mset_eq. change (u8 0) with 0. do 2 case_match; lia.
    + rewrite mget_mset_ne by lia. do 2 case_match; lia || done.
Qed.

(** Byte [i] of a string that is padded with NULs. *)
Definition padded (l : list Z) (i : Z) : Z := nth (Z.to_nat i) l 0.

Lemma padded_cons x l i : 0 <= i ->
  padded (x :: l) i = if i =? 0 then x else padded l (i - 1).
Proof.
  intros Hi. unfold padded. destruct (Z.eqb_spec i 0) as [->|Hne]; [done|].
  replace (Z.to_nat i) with (S (Z.to_nat (i - 1))) by lia. done.
Qed.

Lemma padded_nil i : padded [] i = 0.
Proof. unfold padded. by destruct (Z.to_nat i). Qed.

Lemma strncpy_loop_get n : forall m s t b,
  (s + Z.of_nat n <= t \/ t + Z.of_nat n <= s) ->
  mget (strncpy_loop n m s t) b =
  if (s <=? b) && (b <? s + Z.of_nat n) then padded (cstr n m t) (b - s) else mget m b.
Proof.
  induction n as [|n IH]; intros m s t b H; cbn [strncpy_loop cstr].
  - case_match eqn:E; [lia|done].
  - destruct (Z.eqb_spec (mget m t) 0) as [Ht|Ht].
    + rewrite strncpy_pad_get, padded_nil. destruct (decide (b = s)) as [->|Hne].
      * rewrite mget_mset_eq, Ht. change (u8 0) with 0. do 2 case_match; lia.
      * rewrite mget_mset_ne by lia. do 2 case_match; lia || done.
    + rewrite IH by lia.
      rewrite (cstr_ext n (mset m s (mget m t)) m (t + 1))
        by (intros; apply mget_mset_ne; lia).
      destruct (decide (b = s)) as [->|Hne].
      * rewrite mget_mset_eq, u8_small by apply mget_range.
        do 2 case_match; try lia. rewrite Z.sub_diag. done.
      * rewrite mget_mset_ne by lia.
        case_match eqn:E1; case_match eqn:E2; try lia.
        rewrite padded_cons by lia. case_match; [lia|]. f_equal; lia.
Qed.

(** strncpy writes the string followed by NULs into the n bytes of s, and
    nothing else. *)
Lemma strncpy_get m s t n b : 0 <= n -> (s + n <= t \/ t + n <= s) ->
  mget (strncpy m s t n) b =
  if (s <=? b) && (b <? s + n) then padded (cstr (Z.to_nat n) m t) (b - s) else mget m b.
Proof.
  intros Hn Hd. unfold strncpy. rewrite strncpy_loop_get by lia.
  by rewrite Z2Nat.id by lia.
Qed.

Lemma safestrcpy_loop_out n : forall m s t b,
  b < s \/ s + Z.of_nat n + 1 <= b -> mget (safestrcpy_loop n m s t) b = mget m b.
Proof.
  induction n as [|n IH]; intros m s t b H; cbn [safestrcpy_loop].
  - apply mget_mset_ne. lia.
  - case_match; [rewrite !mget_mset_ne by lia; done|].
    rewrite IH by lia. apply mget_mset_ne. lia.
Qed.

Lemma safestrcpy_loop_cstr n : forall m s t,
  (s + Z.of_nat n + 1 <= t \/ t + Z.of_nat n <= s) ->
  cstr (S n) (safestrcpy_loop n m s t) s = cstr n m t.
Proof.
  induction n as [|n IH]; intros m s t H; cbn [safestrcpy_loop cstr].
  - by rewrite mget_mset_eq.
  - destruct (Z.eqb_spec (mget m t) 0) as [Ht|Ht].
    + rewrite mget_mset_ne, mget_mset_eq, Ht by lia. done.
    + rewrite safestrcpy_loop_out by lia.
      rewrite mget_mset_eq, u8_small by apply mget_range.
      destruct (Z.eqb_spec (mget m t) 0); [done|]. f_equal.
      change (cstr (S n) (safestrcpy_loop n (mset m s (mget m t)) (s + 1) (t + 1)) (s + 1)
              = cstr n m (t + 1)).
      rewrite IH by lia. apply cstr_ext. intros; apply mget_mset_ne; lia.
Qed.

(** safestrcpy(s, t, n) leaves at s the first n-1 characters of the string at
    t, always terminated within the n bytes of s, and writes nothing outside
    them. *)
Theorem safestrcpy_correct m s t n b : 0 < n -> (s + n <= t \/ t + n <= s) ->
  cstr (Z.to_nat n) (safestrcpy m s t n) s = cstr (Z.to_nat (n - 1)) m t /\
  (b < s \/ s + n <= b -> mget (safestrcpy m s t n) b = mget m b).
Proof.
  intros Hn Hd. unfold safestrcpy. case_match; [lia|]. split.
  - replace (Z.to_nat n) with (S (Z.to_nat (n - 1))) by lia.
    apply safestrcpy_loop_cstr. lia.
  - intros Hb. apply safestrcpy_loop_out. lia.
Qed.
