(* ===== verification/Kalloc.v ===== *)
(** kernel/kalloc.c: the physical page allocator.

    The free list is threaded through the free pages themselves: [freelist] is
    the address of the first one, and the first eight bytes of a free page hold
    the address of the next.  [kmem_inv] says that the list so represented is
    [l]: a duplicate-free list of page-aligned addresses in [kend, PHYSTOP). *)

From S2P Require Import Prelude Machine CString.

(** Physical memory with the allocator's list head (struct kmem). *)
Record pmem : Type := PMem { pm_mem : gmap Z Z; freelist : Z }.

Section Kalloc.
Context `{KI : KernelImage}.

(** ** The code *)

Definition kfree (pa : Z) : M pmem unit :=
  if negb (pa mod PGSIZE =? 0) || (pa <? kend) || (PHYSTOP <=? pa) then panic "kfree"
  else
    (if LAB_SYSCALL then retM tt
     else modifyM (fun s => PMem (memset (pm_mem s) pa 1 PGSIZE) (freelist s))) ;;!
    acquire L_kmem ;;!
    modifyM (fun s => PMem (store64 (pm_mem s) pa (freelist s)) (freelist s)) ;;!
    modifyM (fun s => PMem (pm_mem s) pa) ;;!
    release L_kmem.

Definition kalloc : M pmem Z :=
  acquire L_kmem ;;!
  r <-! getsM freelist ;;
  (if r =? 0 then retM tt
   else modifyM (fun s => PMem (pm_mem s) (load64 (pm_mem s) r))) ;;!
  release L_kmem ;;!
  (if LAB_SYSCALL then retM tt
   else if r =? 0 then retM tt
   else modifyM (fun s => PMem (memset (pm_mem s) r 5 PGSIZE) (freelist s))) ;;!
  retM r.

(** [for(; p + PGSIZE <= pa_end; p += PGSIZE) kfree(p)], with [fuel] steps. *)
Fixpoint freerange_loop (fuel : nat) (p pa_end : Z) : M pmem unit :=
  if p + PGSIZE <=? pa_end then
    match fuel with
    | O => diverge
    | S f => kfree p ;;! freerange_loop f (p + PGSIZE) pa_end
    end
  else retM tt.
Definition freerange (pa_start pa_end : Z) : M pmem unit :=
  freerange_loop (Z.to_nat ((pa_end - pa_start) / PGSIZE)) (PGROUNDUP pa_start) pa_end.

Definition kinit : M pmem unit := freerange kend PHYSTOP.

(** The walk over the list: there are at most (PHYSTOP - kend) / PGSIZE free
    pages, which is the fuel. *)
Fixpoint kcollect_free_loop (fuel : nat) (r count : Z) : M pmem Z :=
  if r =? 0 then retM count
  else match fuel with
       | O => diverge
       | S f =>
           nxt <-! getsM (fun s => load64 (pm_mem s) r) ;;
           kcollect_free_loop f nxt (u64 (count + 1))
       end.
Definition kcollect_free : M pmem Z :=
  acquire L_kmem ;;!
  r <-! getsM freelist ;;
  count <-! kcollect_free_loop (Z.to_nat ((PHYSTOP - kend) / PGSIZE)) r 0 ;;
  release L_kmem ;;!
  retM (u64 (count * PGSIZE)).

(** ** The invariant *)

Definition page_ok (p : Z) : Prop := p mod PGSIZE = 0 /\ kend <= p < PHYSTOP.

Fixpoint flist (m : gmap Z Z) (p : Z) (l : list Z) : Prop :=
  match l with
  | [] => p = 0
  | x :: l' => p = x /\ flist m (load64 m x) l'
  end.

Definition kmem_inv (s : pmem) (l : list Z) : Prop :=
  flist (pm_mem s) (freelist s) l /\ NoDup l /\ Forall page_ok l.

Lemma page_ok_pos p : page_ok p -> 0 < p /\ p + PGSIZE <= PHYSTOP /\ p < 2 ^ 56.
Proof.
  intros [Ha Hr]. pose proof kend_range. unfold PHYSTOP, KERNBASE, PGSIZE in *. zlia.
Qed.

(** Two different pages are a page apart. *)
Lemma page_ok_apart p q : page_ok p -> page_ok q -> p <> q ->
  p + PGSIZE <= q \/ q + PGSIZE <= p.
Proof. intros [Ha _] [Hb _] Hne. unfold PGSIZE in *. zlia. Qed.

Lemma aligned_apart p q : p mod PGSIZE = 0 -> q mod PGSIZE = 0 -> p <> q ->
  p + PGSIZE <= q \/ q + PGSIZE <= p.
Proof. intros Ha Hb Hne. unfold PGSIZE in *. zlia. Qed.

Lemma flist_ext l : forall m m' p,
  (forall x b, x ∈ l -> x <= b < x + 8 -> mget m b = mget m' b) ->
  flist m p l -> flist m' p l.
Proof.
  induction l as [|x l IH]; intros m m' p He H; cbn [flist] in *; [done|].
  destruct H as [-> H]. split; [done|].
  rewrite <- (load64_ext m m' x) by (intros; apply (He x); set_solver).
  apply (IH m); [|done]. intros y b Hy. apply He. set_solver.
Qed.

(** A change of memory that spares the free pages keeps the invariant. *)
Lemma kmem_inv_ext s m' l :
  (forall x b, x ∈ l -> x <= b < x + PGSIZE -> mget (pm_mem s) b = mget m' b) ->
  kmem_inv s l -> kmem_inv (PMem m' (freelist s)) l.
Proof.
  intros He (Hf & Hn & Ho). split; [|done]. simpl.
  apply (flist_ext l (pm_mem s)); [|done].
  intros x b Hx Hb. apply (He x); [done|]. unfold PGSIZE. lia.
Qed.

(** The number of free pages is bounded by the number of pages of RAM. *)
Definition ram_pages : list Z :=
  map (fun i => PGROUNDUP kend + PGSIZE * Z.of_nat i)
      (seq 0 (Z.to_nat ((PHYSTOP - kend) / PGSIZE))).

Lemma kend_bound : 0 <= kend < 2 ^ 64 - PGSIZE.
Proof. pose proof kend_range. unfold PHYSTOP, KERNBASE, PGSIZE in *. lia. Qed.

Lemma kend_roundup :
  kend <= PGROUNDUP kend < kend + PGSIZE /\ PGROUNDUP kend mod PGSIZE = 0.
Proof.
  split; [apply PGROUNDUP_bounds | apply PGROUNDUP_aligned]; apply kend_bound.
Qed.

Lemma ram_pages_elem p : p ∈ ram_pages <-> page_ok p.
Proof.
  unfold ram_pages, page_ok. pose proof kend_roundup as [Hb Ha].
  pose proof kend_range. rewrite list_elem_of_In, in_map_iff.
  assert (PHYSTOP mod PGSIZE = 0) as Hp by done.
  split.
  - intros (i & <- & Hi%in_seq). unfold PGSIZE in *. zlia.
  - intros [Hm Hr]. exists (Z.to_nat ((p - PGROUNDUP kend) / PGSIZE)).
    rewrite in_seq. unfold PGSIZE in *. zlia.
Qed.

Lemma free_count_bound l : NoDup l -> Forall page_ok l ->
  Z.of_nat (length l) <= (PHYSTOP - kend) / PGSIZE.
Proof.
  intros Hn Ho.
  assert (length l <= length ram_pages)%nat as H.
  { apply NoDup_incl_length; [by apply NoDup_ListNoDup|].
    intros x Hx. apply list_elem_of_In, ram_pages_elem.
    rewrite Forall_forall in Ho. apply Ho. by apply list_elem_of_In. }
  unfold ram_pages in H. rewrite length_map, length_seq in H.
  pose proof kend_range. unfold PGSIZE in *. zlia.
Qed.

(** ** Behaviour of the operations *)

Lemma kalloc_run c s l : kmem_inv s l -> L_kmem ∉ held c ->
  kalloc c s = Ok (hd 0 l) c (PMem (pm_mem s) (hd 0 (tail l))) /\
  kmem_inv (PMem (pm_mem s) (hd 0 (tail l))) (tail l).
Proof.
  intros (Hf & Hn & Ho) Hc. unfold kalloc. mrun.
  rewrite (bind_Ok _ _ _ _ _ _ _ (acquire_free _ _ s Hc)). mrun.
  destruct l as [|x l]; cbn [flist hd tail] in *.
  - rewrite Hf, Z.eqb_refl. mrun. cbn [bindM]. mrun.
    destruct s as [m f]; simpl in *. subst f.
    by mrun.
  - destruct Hf as [-> Hf]. apply NoDup_cons in Hn as [_ Hn].
    apply Forall_cons in Ho as [Hx Ho]. pose proof (page_ok_pos _ Hx).
    destruct (Z.eqb_spec x 0); [lia|].
    assert (load64 (pm_mem s) x = hd 0 l) as Hl.
    { destruct l as [|y l]; cbn [flist] in Hf; [done|]. by destruct Hf. }
    split.
    + unfold bindM, modifyM. rewrite release_head, ctx_eta. by rewrite Hl.
    + split; [|done]. simpl. by rewrite <- Hl.
Qed.

Lemma kfree_run pa c s : page_ok pa -> L_kmem ∉ held c ->
  kfree pa c s = Ok tt c (PMem (store64 (pm_mem s) pa (freelist s)) pa).
Proof.
  intros [Ha Hr] Hc. unfold kfree.
  replace (negb (pa mod PGSIZE =? 0) || (pa <? kend) || (PHYSTOP <=? pa)) with false by lia.
  unfold LAB_SYSCALL. mrun. rewrite (bind_Ok _ _ _ _ _ _ _ (acquire_free _ _ s Hc)). mrun.
  done.
Qed.

Lemma freelist_range s l : kmem_inv s l -> 0 <= freelist s < 2 ^ 64.
Proof.
  intros (Hf & _ & Ho). destruct l as [|x l]; cbn [flist] in Hf; [lia|].
  destruct Hf as [-> _]. apply Forall_cons in Ho as [Hx _].
  pose proof (page_ok_pos _ Hx). lia.
Qed.

Lemma kfree_inv pa s l : kmem_inv s l -> page_ok pa -> pa ∉ l ->
  kmem_inv (PMem (store64 (pm_mem s) pa (freelist s)) pa) (pa :: l).
Proof.
  intros Hi Hp Hnot. pose proof (freelist_range _ _ Hi) as Hfr.
  destruct Hi as (Hf & Hn & Ho). split; [|split; by constructor].
  cbn [flist pm_mem freelist]. split; [done|].
  rewrite load64_store64_eq, u64_small by done.
  apply (flist_ext l (pm_mem s)); [|done].
  intros x b Hx Hb. symmetry. apply mget_store64_out.
  rewrite Forall_forall in Ho.
  destruct (page_ok_apart pa x Hp (Ho x Hx)); [set_solver| |]; unfold PGSIZE in *; lia.
Qed.

Lemma kcollect_free_loop_run l : forall fuel c s r count,
  flist (pm_mem s) r l -> Forall page_ok l -> (length l <= fuel)%nat ->
  0 <= count -> count + Z.of_nat (length l) < 2 ^ 64 ->
  kcollect_free_loop fuel r count c s = Ok (count + Z.of_nat (length l)) c s.
Proof.
  induction l as [|x l IH]; intros fuel c s r count Hf Ho Hl Hc Hb; cbn [flist length] in *.
  - subst r. destruct fuel; cbn [kcollect_free_loop Z.eqb]; by rewrite Z.add_0_r.
  - destruct Hf as [-> Hf]. apply Forall_cons in Ho as [Hx Ho].
    pose proof (page_ok_pos _ Hx).
    destruct fuel as [|fuel]; [lia|]. cbn [kcollect_free_loop].
    destruct (Z.eqb_spec x 0); [lia|]. mrun.
    rewrite u64_small by lia. rewrite IH by (done || lia). f_equal. lia.
Qed.

Lemma freerange_loop_run fuel : forall p c s l,
  kmem_inv s l -> L_kmem ∉ held c -> p mod PGSIZE = 0 -> kend <= p ->
  (forall x, x ∈ l -> x < p) -> (PHYSTOP - p) / PGSIZE <= Z.of_nat fuel ->
  exists s' l', freerange_loop fuel p PHYSTOP c s = Ok tt c s' /\ kmem_inv s' l' /\
    forall x, x ∈ l' <-> x ∈ l \/ (page_ok x /\ p <= x).
Proof.
  assert (PHYSTOP mod PGSIZE = 0) as Hstop by done.
  induction fuel as [|fuel IH]; intros p c s l Hi Hc Hp Hk Hlt Hf;
    cbn [freerange_loop]; destruct (Z.leb_spec (p + PGSIZE) PHYSTOP) as [Hle|Hgt].
  - exfalso. unfold PGSIZE in *. zlia.
  - exists s, l. split_and!; [done..|]. intros x. split; [tauto|].
    intros [?|[[_ ?] ?]]; [done|]. unfold PGSIZE in *. zlia.
  - assert (page_ok p) as Hok by (unfold page_ok, PGSIZE in *; lia).
    rewrite (bind_Ok _ _ _ _ _ _ _ (kfree_run p c s Hok Hc)).
    destruct (IH (p + PGSIZE) c (PMem (store64 (pm_mem s) p (freelist s)) p) (p :: l))
      as (s' & l' & Hr & Hi' & Hl'); try done.
    + apply kfree_inv; [done..|]. intros Hin. specialize (Hlt p Hin). lia.
    + unfold PGSIZE in *. zlia.
    + unfold PGSIZE in *. lia.
    + intros x [->|Hx]%elem_of_cons; [unfold PGSIZE; lia|].
      specialize (Hlt x Hx). unfold PGSIZE. lia.
    + unfold PGSIZE in *. zlia.
    + exists s', l'. split_and!; [done..|]. intros x. rewrite Hl', elem_of_cons.
      split; [intros [[->|?]|[? ?]]|intros [?|[Hx ?]]]; auto.
      * right. split; [done|lia].
      * right. unfold PGSIZE in *. split; [done|lia].
      * destruct (decide (x = p)) as [->|Hne]; [by left; left|].
        right. split; [done|]. destruct (page_ok_apart p x Hok Hx); [done|lia|lia].
  - exists s, l. split_and!; [done..|]. intros x. split; [tauto|].
    intros [?|[[Hm ?] ?]]; [done|]. unfold PGSIZE in *. zlia.
Qed.

(** kalloc pops the free list: it returns 0 and changes nothing exactly when
    no page is free, and otherwise returns a valid page that leaves the list,
    without touching memory and with the lock released. *)
Theorem kalloc_correct c s l : kmem_inv s l -> L_kmem ∉ held c ->
  (l = [] -> kalloc c s = Ok 0 c s) /\
  (forall p l', l = p :: l' ->
     exists s', kalloc c s = Ok p c s' /\ kmem_inv s' l' /\
       pm_mem s' = pm_mem s /\ page_ok p /\ p ∉ l').
Proof.
  intros Hi Hc. destruct (kalloc_run c s l Hi Hc) as [Hr Hi'].
  pose proof Hi as (Hf & Hn & Ho). split.
  - intros ->. rewrite Hr. simpl in *. destruct s; simpl in *. by subst.
  - intros p l' ->. exists (PMem (pm_mem s) (hd 0 l')). cbn [hd tail] in *.
    apply NoDup_cons in Hn as [Hn _]. apply Forall_cons in Ho as [Ho _].
    by split_and!.
Qed.

(** kfree pushes a valid page that is not free already; it changes only the
    first eight bytes of that page.  An address that is not a page of the
    allocator's range makes it panic. *)
Theorem kfree_correct pa c s l : kmem_inv s l -> L_kmem ∉ held c ->
  (page_ok pa -> pa ∉ l ->
     exists s', kfree pa c s = Ok tt c s' /\ kmem_inv s' (pa :: l) /\
       forall b, b < pa \/ pa + 8 <= b -> mget (pm_mem s') b = mget (pm_mem s) b) /\
  (~ page_ok pa -> kfree pa c s = Panic "kfree").
Proof.
  intros Hi Hc. split.
  - intros Hp Hnot. eexists. split_and!; [by apply kfree_run|by apply kfree_inv|].
    intros b Hb. simpl. by apply mget_store64_out.
  - intros Hn. unfold kfree, page_ok in *.
    replace (negb (pa mod PGSIZE =? 0) || (pa <? kend) || (PHYSTOP <=? pa)) with true by lia.
    done.
Qed.

(** kcollect_free terminates within its bound and returns the number of
    free bytes, leaving memory and the free list as they were. *)
Theorem kcollect_free_correct c s l : kmem_inv s l -> L_kmem ∉ held c ->
  kcollect_free c s = Ok (Z.of_nat (length l) * PGSIZE) c s.
Proof.
  intros (Hf & Hn & Ho) Hc. pose proof (free_count_bound l Hn Ho) as Hb.
  pose proof kend_range as Hk.
  assert ((PHYSTOP - kend) / PGSIZE <= 2 ^ 20) as Hk2.
  { unfold PHYSTOP, KERNBASE, PGSIZE in *. zlia. }
  unfold kcollect_free.
  rewrite (bind_Ok _ _ _ _ _ _ _ (acquire_free _ _ s Hc)). mrun.
  erewrite bind_Ok by (apply (kcollect_free_loop_run l); done || lia).
  unfold bindM. rewrite release_head, ctx_eta. unfold retM.
  rewrite u64_small; [done|]. unfold PGSIZE in *. lia.
Qed.

(** kinit, run on the empty list the kernel starts with, frees every whole
    page between the end of the kernel and PHYSTOP exactly once. *)
Theorem kinit_correct c s : freelist s = 0 -> L_kmem ∉ held c ->
  exists s' l, kinit c s = Ok tt c s' /\ kmem_inv s' l /\ NoDup l /\
    forall p, p ∈ l <-> page_ok p.
Proof.
  intros Hs Hc. pose proof kend_roundup as [Hb Ha].
  destruct (freerange_loop_run (Z.to_nat ((PHYSTOP - kend) / PGSIZE)) (PGROUNDUP kend) c s [])
    as (s' & l & Hr & Hi & Hl); try done.
  - split; [done|]. split; constructor.
  - lia.
  - intros x Hx. by apply elem_of_nil in Hx.
  - pose proof kend_range. unfold PGSIZE in *. zlia.
  - exists s', l. split_and!; [done..|by destruct Hi as (_ & ? & _)|].
    intros p. rewrite Hl, elem_of_nil. split; [by intros [[]|[? _]]|].
    intros Hp. right. split; [done|].
    destruct Hp as [Hp ?]. unfold PGSIZE in *. zlia.
Qed.
End Kalloc.
