(* ===== verification/Vm.v ===== *)
(** kernel/vm.c: page tables and user memory, over the state of [Kalloc].

    A page table is the address of its root page; its entries are the 64-bit
    words of physical memory.  A kernel buffer that is the source or the
    destination of a user copy is the list of its bytes. *)

From S2P Require Import Prelude Machine CString Kalloc.

(** [for(i = i0; i < i0 + k; i++) body(i)]. *)
Fixpoint forM {S} (k : nat) (i : Z) (body : Z -> M S unit) : M S unit :=
  match k with
  | O => retM tt
  | S k' => body i ;;! forM k' (i + 1) body
  end.

Definition memsetM (dst c n : Z) : M pmem unit :=
  modifyM (fun s => PMem (memset (pm_mem s) dst c n) (freelist s)).
Definition memmoveM (dst src n : Z) : M pmem unit :=
  modifyM (fun s => PMem (memmove (pm_mem s) dst src n) (freelist s)).
Definition loadM (a : Z) : M pmem Z := getsM (fun s => load64 (pm_mem s) a).
Definition storeM (a v : Z) : M pmem unit :=
  modifyM (fun s => PMem (store64 (pm_mem s) a v) (freelist s)).

(** [pte & bit] as a C condition. *)
Definition has (v bit : Z) : bool := negb (Z.land v bit =? 0).

Section Vm.
Context `{KI : KernelImage}.

(** ** Walking and mapping *)

Fixpoint walk_loop (level : nat) (pagetable va : Z) (alloc : bool) : M pmem Z :=
  match level with
  | O => retM (pagetable + 8 * PX 0 va)
  | S l =>
      let pte := pagetable + 8 * PX (Z.of_nat level) va in
      v <-! loadM pte ;;
      if has v PTE_V then walk_loop l (PTE2PA v) va alloc
      else if negb alloc then retM 0
      else
        p <-! kalloc ;;
        if p =? 0 then retM 0
        else
          memsetM p 0 PGSIZE ;;!
          storeM pte (Z.lor (PA2PTE p) PTE_V) ;;!
          walk_loop l p va alloc
  end.
Definition walk (pagetable va : Z) (alloc : bool) : M pmem Z :=
  if MAXVA <=? va then panic "walk" else walk_loop 2 pagetable va alloc.

Definition walkaddr (pagetable va : Z) : M pmem Z :=
  if MAXVA <=? va then retM 0
  else
    pte <-! walk pagetable va false ;;
    if pte =? 0 then retM 0
    else
      v <-! loadM pte ;;
      if negb (has v PTE_V) then retM 0
      else if negb (has v PTE_U) then retM 0
      else retM (PTE2PA v).

(** The loop of mappages; [fuel] bounds the pages that are still to map. *)
Fixpoint mappages_loop (fuel : nat) (pagetable a last pa perm : Z) : M pmem Z :=
  match fuel with
  | O => diverge
  | S f =>
      pte <-! walk pagetable a true ;;
      if pte =? 0 then retM (-1)
      else
        v <-! loadM pte ;;
        if has v PTE_V then panic "mappages: remap"
        else
          storeM pte (Z.lor (Z.lor (PA2PTE pa) perm) PTE_V) ;;!
          if a =? last then retM 0
          else mappages_loop f pagetable (u64 (a + PGSIZE)) last (u64 (pa + PGSIZE)) perm
  end.
Definition mappages (pagetable va size pa perm : Z) : M pmem Z :=
  if negb (va mod PGSIZE =? 0) then panic "mappages: va not aligned"
  else if negb (size mod PGSIZE =? 0) then panic "mappages: size not aligned"
  else if size =? 0 then panic "mappages: size"
  else mappages_loop (Z.to_nat (size / PGSIZE)) pagetable va (u64 (va + size - PGSIZE)) pa perm.

Definition kvmmap (kpgtbl va pa sz perm : Z) : M pmem unit :=
  r <-! mappages kpgtbl va sz pa perm ;;
  if negb (r =? 0) then panic "kvmmap" else retM tt.

(** proc.c: a kernel stack for each process. *)
Definition proc_mapstacks (kpgtbl : Z) : M pmem unit :=
  forM (Z.to_nat NPROC) 0 (fun p =>
    pa <-! kalloc ;;
    if pa =? 0 then panic "kalloc"
    else kvmmap kpgtbl (KSTACK p) pa PGSIZE (Z.lor PTE_R PTE_W)).

Definition kvmmake : M pmem Z :=
  kpgtbl <-! kalloc ;;
  memsetM kpgtbl 0 PGSIZE ;;!
  kvmmap kpgtbl UART0 UART0 PGSIZE (Z.lor PTE_R PTE_W) ;;!
  kvmmap kpgtbl VIRTIO0 VIRTIO0 PGSIZE (Z.lor PTE_R PTE_W) ;;!
  kvmmap kpgtbl PLIC PLIC 0x4000000 (Z.lor PTE_R PTE_W) ;;!
  kvmmap kpgtbl KERNBASE KERNBASE (etext - KERNBASE) (Z.lor PTE_R PTE_X) ;;!
  kvmmap kpgtbl etext etext (PHYSTOP - etext) (Z.lor PTE_R PTE_W) ;;!
  kvmmap kpgtbl TRAMPOLINE trampoline PGSIZE (Z.lor PTE_R PTE_X) ;;!
  proc_mapstacks kpgtbl ;;!
  retM kpgtbl.

(** ** Unmapping and freeing *)

Fixpoint uvmunmap_loop (fuel : nat) (pagetable a end_ : Z) (do_free : bool) : M pmem unit :=
  if a <? end_ then
    match fuel with
    | O => diverge
    | S f =>
        pte <-! walk pagetable a false ;;
        if pte =? 0 then panic "uvmunmap: walk"
        else
          v <-! loadM pte ;;
          if negb (has v PTE_V) then panic "uvmunmap: not mapped"
          else if PTE_FLAGS v =? PTE_V then panic "uvmunmap: not a leaf"
          else
            whenM do_free (kfree (PTE2PA v)) ;;!
            storeM pte 0 ;;!
            uvmunmap_loop f pagetable (u64 (a + PGSIZE)) end_ do_free
    end
  else retM tt.
Definition uvmunmap (pagetable va npages : Z) (do_free : bool) : M pmem unit :=
  if negb (va mod PGSIZE =? 0) then panic "uvmunmap: not aligned"
  else uvmunmap_loop (Z.to_nat npages) pagetable va (u64 (va + npages * PGSIZE)) do_free.

Definition uvmcreate : M pmem Z :=
  pagetable <-! kalloc ;;
  if pagetable =? 0 then retM 0
  else memsetM pagetable 0 PGSIZE ;;! retM pagetable.

Definition uvmfirst (pagetable : Z) (src : list Z) : M pmem unit :=
  if PGSIZE <=? Z.of_nat (length src) then panic "uvmfirst: more than a page"
  else
    mem <-! kalloc ;;
    memsetM mem 0 PGSIZE ;;!
    mappages pagetable 0 PGSIZE mem (Z.lor (Z.lor (Z.lor PTE_W PTE_R) PTE_X) PTE_U) ;;!
    modifyM (fun s => PMem (put_bytes (pm_mem s) mem src) (freelist s)).

Definition uvmdealloc (pagetable oldsz newsz : Z) : M pmem Z :=
  if oldsz <=? newsz then retM oldsz
  else
    (if PGROUNDUP newsz <? PGROUNDUP oldsz then
       let npages := (PGROUNDUP oldsz - PGROUNDUP newsz) / PGSIZE in
       uvmunmap pagetable (PGROUNDUP newsz) (u64 (s32 npages)) true
     else retM tt) ;;!
    retM newsz.

Fixpoint uvmalloc_loop (fuel : nat) (pagetable oldsz a newsz xperm : Z) : M pmem Z :=
  if a <? newsz then
    match fuel with
    | O => diverge
    | S f =>
        mem <-! kalloc ;;
        if mem =? 0 then
          uvmdealloc pagetable a oldsz ;;! retM 0
        else
          (if LAB_SYSCALL then retM tt else memsetM mem 0 PGSIZE) ;;!
          r <-! mappages pagetable a PGSIZE mem (Z.lor (Z.lor PTE_R PTE_U) xperm) ;;
          if negb (r =? 0) then
            kfree mem ;;! uvmdealloc pagetable a oldsz ;;! retM 0
          else uvmalloc_loop f pagetable oldsz (u64 (a + PGSIZE)) newsz xperm
    end
  else retM newsz.
Definition uvmalloc (pagetable oldsz newsz xperm : Z) : M pmem Z :=
  if newsz <? oldsz then retM oldsz
  else
    let oldsz := PGROUNDUP oldsz in
    uvmalloc_loop (Z.to_nat ((newsz - oldsz + PGSIZE - 1) / PGSIZE))
      pagetable oldsz oldsz newsz xperm.

(** Recursion over the levels of the table: [fuel] is their number. *)
Fixpoint freewalk (fuel : nat) (pagetable : Z) : M pmem unit :=
  match fuel with
  | O => diverge
  | S f =>
      forM 512 0 (fun i =>
        pte <-! loadM (pagetable + 8 * i) ;;
        if has pte PTE_V && (Z.land pte (Z.lor (Z.lor PTE_R PTE_W) PTE_X) =? 0) then
          freewalk f (PTE2PA pte) ;;!
          storeM (pagetable + 8 * i) 0
        else if has pte PTE_V then panic "freewalk: leaf"
        else retM tt) ;;!
      kfree pagetable
  end.

Definition uvmfree (pagetable sz : Z) : M pmem unit :=
  (if 0 <? sz then uvmunmap pagetable 0 (PGROUNDUP sz / PGSIZE) true else retM tt) ;;!
  freewalk 3 pagetable.

(** ** Copying an address space *)

Fixpoint uvmcopy_loop (fuel : nat) (old new i sz : Z) : M pmem Z :=
  if i <? sz then
    match fuel with
    | O => diverge
    | S f =>
        pte <-! walk old i false ;;
        if pte =? 0 then panic "uvmcopy: pte should exist"
        else
          v <-! loadM pte ;;
          if negb (has v PTE_V) then panic "uvmcopy: page not present"
          else
            let pa := PTE2PA v in
            let flags := PTE_FLAGS v in
            mem <-! kalloc ;;
            if mem =? 0 then
              uvmunmap new 0 (i / PGSIZE) true ;;! retM (-1)
            else
              memmoveM mem pa PGSIZE ;;!
              r <-! mappages new i PGSIZE mem flags ;;
              if negb (r =? 0) then
                kfree mem ;;!
                uvmunmap new 0 (i / PGSIZE) true ;;! retM (-1)
              else uvmcopy_loop f old new (u64 (i + PGSIZE)) sz
    end
  else retM 0.
Definition uvmcopy (old new sz : Z) : M pmem Z :=
  uvmcopy_loop (Z.to_nat ((sz + PGSIZE - 1) / PGSIZE)) old new 0 sz.

Definition uvmclear (pagetable va : Z) : M pmem unit :=
  pte <-! walk pagetable va false ;;
  if pte =? 0 then panic "uvmclear"
  else
    v <-! loadM pte ;;
    storeM pte (Z.land v (Z.lnot PTE_U)).

(** ** Copying between kernel and user memory

    Each turn of the loops below handles what lies in one page; the fuel is
    the number of bytes that are left. *)

Fixpoint copyout_loop (fuel : nat) (pagetable dstva : Z) (src : list Z) : M pmem Z :=
  match src with
  | [] => retM 0
  | _ =>
    match fuel with
    | O => diverge
    | S f =>
        let len := Z.of_nat (length src) in
        let va0 := PGROUNDDOWN dstva in
        if MAXVA <=? va0 then retM (-1)
        else
          pte <-! walk pagetable va0 false ;;
          if pte =? 0 then retM (-1)
          else
            v <-! loadM pte ;;
            if negb (has v PTE_W) then retM (-1)
            else
              pa0 <-! walkaddr pagetable va0 ;;
              if pa0 =? 0 then retM (-1)
              else
                let n := Z.min (PGSIZE - (dstva - va0)) len in
                modifyM (fun s =>
                  PMem (put_bytes (pm_mem s) (pa0 + (dstva - va0)) (take (Z.to_nat n) src))
                       (freelist s)) ;;!
                copyout_loop f pagetable (u64 (va0 + PGSIZE)) (drop (Z.to_nat n) src)
    end
  end.
Definition copyout (pagetable dstva : Z) (src : list Z) : M pmem Z :=
  copyout_loop (length src) pagetable dstva src.

(** copyin returns its result code and the bytes it stored at dst. *)
Fixpoint copyin_loop (fuel : nat) (pagetable srcva len : Z) (acc : list Z) :
    M pmem (Z * list Z) :=
  if len <=? 0 then retM (0, acc)
  else
    match fuel with
    | O => diverge
    | S f =>
        let va0 := PGROUNDDOWN srcva in
        pa0 <-! walkaddr pagetable va0 ;;
        if pa0 =? 0 then retM (-1, acc)
        else
          let n := Z.min (PGSIZE - (srcva - va0)) len in
          bs <-! getsM (fun s => bytes_of (pm_mem s) (pa0 + (srcva - va0)) (Z.to_nat n)) ;;
          copyin_loop f pagetable (u64 (va0 + PGSIZE)) (len - n) (acc ++ bs)
    end.
Definition copyin (pagetable srcva len : Z) : M pmem (Z * list Z) :=
  copyin_loop (Z.to_nat len) pagetable srcva len [].

(** The inner loop of copyinstr over one page: copies up to [n] bytes from
    [p], stops after a NUL; returns whether it met one and the bytes stored. *)
Fixpoint copyinstr_page (n : nat) (m : gmap Z Z) (p : Z) : bool * list Z :=
  match n with
  | O => (false, [])
  | S n' =>
      if mget m p =? 0 then (true, [0])
      else let '(got, bs) := copyinstr_page n' m (p + 1) in (got, mget m p :: bs)
  end.

Fixpoint copyinstr_loop (fuel : nat) (pagetable srcva max : Z) (acc : list Z) :
    M pmem (Z * list Z) :=
  if max <=? 0 then retM (-1, acc)
  else
    match fuel with
    | O => diverge
    | S f =>
        let va0 := PGROUNDDOWN srcva in
        pa0 <-! walkaddr pagetable va0 ;;
        if pa0 =? 0 then retM (-1, acc)
        else
          let n := Z.min (PGSIZE - (srcva - va0)) max in
          r <-! getsM (fun s =>
                 copyinstr_page (Z.to_nat n) (pm_mem s) (pa0 + (srcva - va0))) ;;
          if fst r then retM (0, acc ++ snd r)
          else copyinstr_loop f pagetable (u64 (va0 + PGSIZE)) (max - n) (acc ++ snd r)
    end.
Definition copyinstr (pagetable srcva max : Z) : M pmem (Z * list Z) :=
  copyinstr_loop (Z.to_nat max) pagetable srcva max [].
End Vm.
