(* ===== verification/PageTable.v ===== *)
(** Page tables as finite maps: the representation predicate of Sv39 tables in
    physical memory, and what walk, mappages and uvmunmap do to it.

    [T] gives the page-table page at every path of indices from the root
    ([[]] is the root itself, [[i]] and [[i; j]] the lower levels), and [L] the
    leaf entry of every mapped page, keyed by its virtual address. *)

From S2P Require Import Prelude Machine CString Kalloc Vm.

(** ** Arithmetic of addresses and entries *)

Lemma PX_div level va : 0 <= level -> PX level va = (va / 2 ^ (12 + 9 * level)) mod 512.
Proof.
  intros H. unfold PX, PXSHIFT, PXMASK, PGSHIFT.
  change 0x1FF with (Z.ones 9). rewrite Z.land_ones by lia.
  rewrite Z.shiftr_div_pow2 by lia. done.
Qed.

Lemma PX_range level va : 0 <= level -> 0 <= PX level va < 512.
Proof. intros H. rewrite PX_div by done. apply Z.mod_pos_bound. lia. Qed.

(** The virtual address of the page with the three given indices. *)
Definition va_of (i2 i1 i0 : Z) : Z := (i2 * 2 ^ 18 + i1 * 2 ^ 9 + i0) * PGSIZE.

Lemma va_of_PX va : 0 <= va < 2 ^ 39 ->
  va_of (PX 2 va) (PX 1 va) (PX 0 va) = va - va mod PGSIZE.
Proof.
  intros H. rewrite !PX_div by lia. unfold va_of, PGSIZE.
  change (12 + 9 * 2) with 30. change (12 + 9 * 1) with 21. change (12 + 9 * 0) with 12.
  change (2 ^ 30) with 1073741824. change (2 ^ 21) with 2097152.
  change (2 ^ 12) with 4096. change (2 ^ 18) with 262144. change (2 ^ 9) with 512.
  change (2 ^ 39) with 549755813888 in H. zlia.
Qed.

Lemma va_of_inj a b c a' b' c' :
  0 <= a < 512 -> 0 <= b < 512 -> 0 <= c < 512 ->
  0 <= a' < 512 -> 0 <= b' < 512 -> 0 <= c' < 512 ->
  va_of a b c = va_of a' b' c' -> a = a' /\ b = b' /\ c = c'.
Proof. unfold va_of, PGSIZE. lia. Qed.

Lemma lor_shift_add x f : 0 <= f < 1024 -> Z.lor (x * 1024) f = x * 1024 + f.
Proof.
  intros Hf. assert (Z.land (x * 1024) f = 0) as H0.
  { apply Z.bits_inj'. intros n Hn. rewrite Z.land_spec, Z.bits_0.
    change 1024 with (2 ^ 10). destruct (Z.lt_ge_cases n 10).
    - rewrite Z.mul_pow2_bits_low by lia. done.
    - rewrite (Z.bits_above_log2 f n); [by rewrite andb_false_r|lia|].
      destruct (decide (f = 0)) as [->|]; [simpl; lia|].
      apply Z.log2_lt_pow2; [lia|]. apply Z.lt_le_trans with (2 ^ 10); [lia|].
      apply Z.pow_le_mono_r; lia. }
  rewrite <- Z.lxor_lor by done. rewrite <- Z.add_nocarry_lxor by done. done.
Qed.

Lemma PA2PTE_page p : 0 <= p < 2 ^ 56 -> p mod PGSIZE = 0 -> PA2PTE p = p / PGSIZE * 1024.
Proof.
  intros H Ha. unfold PA2PTE. rewrite Z.shiftl_mul_pow2, Z.shiftr_div_pow2 by lia.
  change (2 ^ 12) with 4096. change (2 ^ 10) with 1024. unfold PGSIZE in *.
  rewrite u64_small; [done|]. change (2 ^ 56) with 72057594037927936 in H.
  change (2 ^ 64) with 18446744073709551616. zlia.
Qed.

Lemma lor_small f g : 0 <= f < 1024 -> 0 <= g < 1024 -> 0 <= Z.lor f g < 1024.
Proof.
  intros Hf Hg. split; [apply Z.lor_nonneg; lia|].
  destruct (decide (Z.lor f g = 0)) as [->|Hn]; [lia|].
  assert (0 < Z.lor f g) by (pose proof (proj2 (Z.lor_nonneg f g)); lia).
  apply (Z.log2_lt_pow2 _ 10); [done|]. rewrite Z.log2_lor by lia.
  apply Z.max_lub_lt.
  - destruct (decide (f = 0)) as [->|]; [done|]. apply Z.log2_lt_pow2; lia.
  - destruct (decide (g = 0)) as [->|]; [done|]. apply Z.log2_lt_pow2; lia.
Qed.

(** The entry that maps page [p] with flags [f], as the code writes it. *)
Definition mkpte (p f : Z) : Z := Z.lor (PA2PTE p) f.

Lemma mkpte_val p f : 0 <= p < 2 ^ 56 -> p mod PGSIZE = 0 -> 0 <= f < 1024 ->
  mkpte p f = p / PGSIZE * 1024 + f.
Proof. intros. unfold mkpte. rewrite PA2PTE_page by done. by apply lor_shift_add. Qed.

Lemma mkpte_range p f : 0 <= p < 2 ^ 56 -> p mod PGSIZE = 0 -> 0 <= f < 1024 ->
  0 <= mkpte p f < 2 ^ 64.
Proof.
  intros H Hm Hf. rewrite mkpte_val by done. unfold PGSIZE in *.
  change (2 ^ 56) with 72057594037927936 in H.
  change (2 ^ 64) with 18446744073709551616. zlia.
Qed.

Lemma PTE2PA_mkpte p f : 0 <= p < 2 ^ 56 -> p mod PGSIZE = 0 -> 0 <= f < 1024 ->
  PTE2PA (mkpte p f) = p.
Proof.
  intros Hp Ha Hf. rewrite mkpte_val by done. unfold PTE2PA.
  rewrite Z.shiftl_mul_pow2, Z.shiftr_div_pow2 by lia.
  change (2 ^ 12) with 4096. change (2 ^ 10) with 1024. unfold PGSIZE in *.
  replace ((p / 4096 * 1024 + f) / 1024) with (p / 4096) by zlia.
  rewrite u64_small; zlia.
Qed.

Lemma PTE_FLAGS_mkpte p f : 0 <= p < 2 ^ 56 -> p mod PGSIZE = 0 -> 0 <= f < 1024 ->
  PTE_FLAGS (mkpte p f) = f.
Proof.
  intros. unfold PTE_FLAGS. change 0x3FF with (Z.ones 10). rewrite Z.land_ones by lia.
  rewrite mkpte_val by done. change (2 ^ 10) with 1024. unfold PGSIZE in *. zlia.
Qed.

Lemma has_testbit v k : 0 <= k -> has v (Z.shiftl 1 k) = Z.testbit v k.
Proof.
  intros Hk. unfold has. rewrite Z.shiftl_1_l.
  destruct (Z.testbit v k) eqn:E.
  - destruct (Z.eqb_spec (Z.land v (2 ^ k)) 0) as [H|H]; [|done].
    exfalso. apply (f_equal (fun x => Z.testbit x k)) in H.
    rewrite Z.land_spec, Z.pow2_bits_true, E, Z.bits_0 in H by lia. done.
  - destruct (Z.eqb_spec (Z.land v (2 ^ k)) 0) as [H|H]; [done|].
    exfalso. apply H. apply Z.bits_inj'. intros n Hn. rewrite Z.land_spec, Z.bits_0.
    destruct (decide (n = k)) as [->|Hne]; [by rewrite E|].
    rewrite Z.pow2_bits_false by lia. by rewrite andb_false_r.
Qed.

Lemma has_lor v w k : 0 <= k ->
  has (Z.lor v w) (Z.shiftl 1 k) = has v (Z.shiftl 1 k) || has w (Z.shiftl 1 k).
Proof. intros. rewrite !has_testbit by done. apply Z.lor_spec. Qed.

Lemma has_flags v k : 0 <= k < 10 -> has (PTE_FLAGS v) (Z.shiftl 1 k) = has v (Z.shiftl 1 k).
Proof.
  intros. rewrite !has_testbit by lia. unfold PTE_FLAGS. change 0x3FF with (Z.ones 10).
  by rewrite Z.land_spec, Z.ones_spec_low, andb_true_r by lia.
Qed.

Lemma has_lor_V v : has (Z.lor v PTE_V) PTE_V = true.
Proof. unfold PTE_V. rewrite has_lor by lia. by rewrite orb_true_r. Qed.

Lemma has_0 b : has 0 b = false.
Proof. done. Qed.

(** ** The representation *)

Definition outside (b x : Z) : Prop := b < x \/ x + PGSIZE <= b.

Definition RWX : Z := Z.lor (Z.lor PTE_R PTE_W) PTE_X.

Section PageTable.
Context `{KI : KernelImage}.

Record pt_rep (m : gmap Z Z) (root : Z) (T : gmap (list Z) Z) (L : gmap Z Z) : Prop := {
  pr_root : T !! [] = Some root;
  pr_page : forall p x, T !! p = Some x ->
    (length p <= 2)%nat /\ Forall (fun i => 0 <= i < 512) p /\ page_ok x;
  pr_inj : forall p q x, T !! p = Some x -> T !! q = Some x -> p = q;
  pr_closed : forall p i x, T !! (p ++ [i]) = Some x -> is_Some (T !! p);
  pr_dir : forall p x i, T !! p = Some x -> (length p < 2)%nat -> 0 <= i < 512 ->
    load64 m (x + 8 * i) =
    match T !! (p ++ [i]) with Some y => mkpte y PTE_V | None => 0 end;
  pr_leaf : forall i2 i1 x i0, T !! [i2; i1] = Some x -> 0 <= i0 < 512 ->
    load64 m (x + 8 * i0) = default 0 (L !! va_of i2 i1 i0);
  pr_dom : forall va v, L !! va = Some v ->
    exists i2 i1 i0, va = va_of i2 i1 i0 /\ 0 <= i0 < 512 /\ is_Some (T !! [i2; i1]);
  pr_valid : forall va v, L !! va = Some v ->
    has v PTE_V = true /\ Z.land v RWX <> 0 /\ 0 <= v < 2 ^ 64;
}.

(** The allocator and one page table: no table page is free. *)
Record pt_inv (s : pmem) (fl : list Z) (root : Z) (T : gmap (list Z) Z) (L : gmap Z Z) : Prop := {
  pi_kmem : kmem_inv s fl;
  pi_rep : pt_rep (pm_mem s) root T L;
  pi_disj : forall q x, T !! q = Some x -> x ∉ fl;
}.

(** [T'] has the tables of [T] and the pages [used], taken from the free list. *)
Record grows (T : gmap (list Z) Z) (fl : list Z) (T' : gmap (list Z) Z)
    (fl' used : list Z) : Prop := {
  gr_fl : fl = used ++ fl';
  gr_sub : T ⊆ T';
  gr_new : forall q x, T' !! q = Some x -> T !! q = Some x \/ x ∈ used;
  gr_used : forall x, x ∈ used -> exists q, T' !! q = Some x;
  gr_size : size T' = (size T + length used)%nat;
}.

(** Only the pages that satisfy [P] change between [m] and [m']. *)
Definition changes_only (P : Z -> Prop) (m m' : gmap Z Z) : Prop :=
  forall b, (forall x, P x -> outside b x) -> mget m' b = mget m b.

Definition table_page (T : gmap (list Z) Z) (x : Z) : Prop := exists q, T !! q = Some x.

Lemma changes_only_refl P m : changes_only P m m.
Proof. done. Qed.

Lemma changes_only_trans (P Q R : Z -> Prop) m1 m2 m3 :
  (forall x, P x -> R x) -> (forall x, Q x -> R x) ->
  changes_only P m1 m2 -> changes_only Q m2 m3 -> changes_only R m1 m3.
Proof.
  intros HP HQ H1 H2 b Hb. rewrite H2, H1; auto.
Qed.

Lemma changes_only_mono (P Q : Z -> Prop) m m' :
  (forall x, P x -> Q x) -> changes_only P m m' -> changes_only Q m m'.
Proof. intros H Hc b Hb. apply Hc. auto. Qed.

Lemma grows_refl T fl : grows T fl T fl [].
Proof.
  split; [done|done|auto| |simpl; lia]. intros x Hx. by apply elem_of_nil in Hx.
Qed.

Lemma grows_trans T1 fl1 T2 fl2 T3 fl3 u1 u2 :
  grows T1 fl1 T2 fl2 u1 -> grows T2 fl2 T3 fl3 u2 -> grows T1 fl1 T3 fl3 (u1 ++ u2).
Proof.
  intros [E1 S1 N1 U1 Z1] [E2 S2 N2 U2 Z2]. split.
  - by rewrite E1, E2, app_assoc.
  - by transitivity T2.
  - intros q x Hx. destruct (N2 q x Hx) as [H|H]; [destruct (N1 q x H)|]; set_solver.
  - intros x [Hx|Hx]%elem_of_app; [|by apply U2].
    destruct (U1 x Hx) as [q Hq]. exists q. by apply (lookup_weaken _ _ _ _ Hq).
  - rewrite length_app. lia.
Qed.

(** *** Loads of entries *)

Lemma entry_bounds i : 0 <= i < 512 -> 0 <= 8 * i /\ 8 * i + 8 <= PGSIZE.
Proof. unfold PGSIZE. lia. Qed.

Lemma load_store_entry m x i v z j :
  page_ok x -> page_ok z -> 0 <= i < 512 -> 0 <= j < 512 ->
  load64 (store64 m (x + 8 * i) v) (z + 8 * j) =
  if decide (z = x /\ j = i) then u64 v else load64 m (z + 8 * j).
Proof.
  intros Hx Hz Hi Hj. pose proof (entry_bounds i Hi). pose proof (entry_bounds j Hj).
  case_decide as E; [destruct E as [-> ->]; apply load64_store64_eq|].
  apply load64_store64_out. destruct (decide (z = x)) as [->|Hne]; [lia|].
  destruct (page_ok_apart x z Hx Hz); [done|lia|lia].
Qed.

Lemma memset_page_out m y z b :
  page_ok y -> page_ok z -> y <> z -> z <= b < z + PGSIZE ->
  mget (memset m y 0 PGSIZE) b = mget m b.
Proof.
  intros Hy Hz Hne Hb. rewrite memset_get by done.
  case_match; [|done]. destruct (page_ok_apart y z Hy Hz); [done|lia|lia].
Qed.

Lemma loadn_memset_zero n : forall m y k a, y <= a -> a + Z.of_nat n <= y + k -> 0 <= k ->
  loadn n (memset m y 0 k) a = 0.
Proof.
  induction n as [|n IH]; intros m y k a H1 H2 H3; cbn [loadn]; [done|].
  rewrite IH by lia. rewrite memset_get by done.
  case_match; [done|lia].
Qed.

Lemma load_memset_entry m y z j : page_ok y -> page_ok z -> 0 <= j < 512 ->
  load64 (memset m y 0 PGSIZE) (z + 8 * j) = if decide (z = y) then 0 else load64 m (z + 8 * j).
Proof.
  intros Hy Hz Hj. pose proof (entry_bounds j Hj).
  case_decide as E.
  - subst. apply (loadn_memset_zero 8); lia || done.
  - apply load64_ext. intros b Hb. apply (memset_page_out m y z); done || lia.
Qed.

(** The representation only depends on the table pages. *)
Lemma pt_rep_ext m m' root T L :
  (forall q x b, T !! q = Some x -> x <= b < x + PGSIZE -> mget m b = mget m' b) ->
  pt_rep m root T L -> pt_rep m' root T L.
Proof.
  intros He R. pose proof (pr_page _ _ _ _ R) as Hp.
  assert (forall q x i, T !! q = Some x -> 0 <= i < 512 ->
            load64 m' (x + 8 * i) = load64 m (x + 8 * i)) as Hl.
  { intros q x i Hx Hi. pose proof (entry_bounds i Hi). symmetry.
    apply load64_ext. intros b Hb. apply (He q x); [done|lia]. }
  destruct R. split; try done.
  - intros p x i Hx Hlen Hi. rewrite (Hl p) by done. by apply pr_dir0.
  - intros i2 i1 x i0 Hx Hi. rewrite (Hl _ _ _ Hx) by done. by apply pr_leaf0.
Qed.

Lemma pt_rep_leaf_pages m root T L i2 i1 x i0 v :
  pt_rep m root T L -> T !! [i2; i1] = Some x -> 0 <= i0 < 512 ->
  0 <= v < 2 ^ 64 -> (has v PTE_V = true /\ Z.land v RWX <> 0) ->
  pt_rep (store64 m (x + 8 * i0) v) root T (<[va_of i2 i1 i0 := v]> L).
Proof.
  intros R Hx Hi Hv [HV HR]. pose proof (pr_page _ _ _ _ R) as Hp.
  pose proof (Hp _ _ Hx) as (_ & Hpx & Hox).
  apply Forall_cons in Hpx as [Hi2 Hpx]. apply Forall_cons in Hpx as [Hi1 _].
  split; try apply R.
  - intros p y i Hy Hlen Hj. destruct (Hp _ _ Hy) as (_ & _ & Hoy).
    rewrite load_store_entry by done. rewrite decide_False.
    { by apply (pr_dir _ _ _ _ R). }
    intros [-> _]. pose proof (pr_inj _ _ _ _ R _ _ _ Hx Hy) as E. subst p. simpl in Hlen. lia.
  - intros j2 j1 y j0 Hy Hj. destruct (Hp _ _ Hy) as (_ & Hpy & Hoy).
    apply Forall_cons in Hpy as [Hj2 Hpy]. apply Forall_cons in Hpy as [Hj1 _].
    rewrite load_store_entry by done. case_decide as E.
    + destruct E as [-> ->]. pose proof (pr_inj _ _ _ _ R _ _ _ Hx Hy) as E.
      injection E as -> ->. rewrite lookup_insert_eq. by rewrite u64_small.
    + rewrite lookup_insert_ne; [by apply (pr_leaf _ _ _ _ R)|].
      intros Ev. apply va_of_inj in Ev as (-> & -> & ->); try done. apply E.
      split; [congruence|done].
  - intros va w Hw. destruct (decide (va = va_of i2 i1 i0)) as [->|Hne].
    + exists i2, i1, i0. split; [done|]. split; [done|]. by rewrite Hx.
    + rewrite lookup_insert_ne in Hw by done. by apply (pr_dom _ _ _ _ R va w).
  - intros va w Hw. destruct (decide (va = va_of i2 i1 i0)) as [->|Hne].
    + rewrite lookup_insert_eq in Hw. injection Hw as <-. done.
    + rewrite lookup_insert_ne in Hw by done. by apply (pr_valid _ _ _ _ R va w).
Qed.

Lemma pt_rep_clear m root T L i2 i1 x i0 :
  pt_rep m root T L -> T !! [i2; i1] = Some x -> 0 <= i0 < 512 ->
  pt_rep (store64 m (x + 8 * i0) 0) root T (delete (va_of i2 i1 i0) L).
Proof.
  intros R Hx Hi. pose proof (pr_page _ _ _ _ R) as Hp.
  pose proof (Hp _ _ Hx) as (_ & Hpx & Hox).
  apply Forall_cons in Hpx as [Hi2 Hpx]. apply Forall_cons in Hpx as [Hi1 _].
  split; try apply R.
  - intros p y i Hy Hlen Hj. destruct (Hp _ _ Hy) as (_ & _ & Hoy).
    rewrite load_store_entry by done. rewrite decide_False.
    { by apply (pr_dir _ _ _ _ R). }
    intros [-> _]. pose proof (pr_inj _ _ _ _ R _ _ _ Hx Hy) as E. subst p. simpl in Hlen. lia.
  - intros j2 j1 y j0 Hy Hj. destruct (Hp _ _ Hy) as (_ & Hpy & Hoy).
    apply Forall_cons in Hpy as [Hj2 Hpy]. apply Forall_cons in Hpy as [Hj1 _].
    rewrite load_store_entry by done. case_decide as E.
    + destruct E as [-> ->]. pose proof (pr_inj _ _ _ _ R _ _ _ Hx Hy) as E.
      injection E as -> ->. by rewrite lookup_delete_eq.
    + rewrite lookup_delete_ne; [by apply (pr_leaf _ _ _ _ R)|].
      intros Ev. apply va_of_inj in Ev as (-> & -> & ->); try done. apply E.
      split; [congruence|done].
  - intros va w [Hne Hw]%lookup_delete_Some. by apply (pr_dom _ _ _ _ R va w).
  - intros va w [Hne Hw]%lookup_delete_Some. by apply (pr_valid _ _ _ _ R va w).
Qed.

(** *** Adding a table page *)

Lemma pt_rep_grow m root T L p x i y :
  pt_rep m root T L -> T !! p = Some x -> (length p < 2)%nat -> 0 <= i < 512 ->
  T !! (p ++ [i]) = None -> page_ok y -> (forall q, T !! q <> Some y) ->
  pt_rep (store64 (memset m y 0 PGSIZE) (x + 8 * i) (mkpte y PTE_V)) root
    (<[p ++ [i] := y]> T) L.
Proof.
  intros R Hx Hlen Hi Hnone Hoy Hfresh.
  pose proof (pr_page _ _ _ _ R) as Hp. pose proof (Hp _ _ Hx) as (_ & Hpx & Hox).
  assert (x <> y) as Hxy by (intros ->; by apply (Hfresh p)).
  pose proof (page_ok_pos _ Hoy) as Hyr.
  assert (0 <= mkpte y PTE_V < 2 ^ 64) as Hr.
  { apply mkpte_range; [lia|apply Hoy|done]. }
  assert (forall q, T !! ((p ++ [i]) ++ q) = None) as Hbelow.
  { induction q as [|j q IH] using rev_ind; [by rewrite app_nil_r|].
    destruct (T !! ((p ++ [i]) ++ q ++ [j])) eqn:E; [|done].
    rewrite app_assoc in E. destruct (pr_closed _ _ _ _ R _ _ _ E) as [w Hw]. congruence. }
  split.
  - rewrite lookup_insert_ne; [apply R|]. by destruct p.
  - intros q z [[<- <-]|[Hne Hz]]%lookup_insert_Some; [|by apply Hp].
    rewrite length_app. simpl. split; [lia|]. split; [|done].
    apply Forall_app. by split; [|constructor].
  - intros q q' z Hq Hq'. apply lookup_insert_Some in Hq, Hq'.
    destruct Hq as [[<- <-]|[Hne Hz]], Hq' as [[<- Hz']|[Hne' Hz']]; try done.
    + by apply Hfresh in Hz'.
    + subst. by apply Hfresh in Hz.
    + by apply (pr_inj _ _ _ _ R) with z.
  - intros q j z [[E <-]|[Hne Hz]]%lookup_insert_Some.
    + apply app_inj_tail in E as [-> ->]. destruct (decide (q ++ [j] = q)) as [Eq|Hq].
      * apply (f_equal length) in Eq. rewrite length_app in Eq. simpl in Eq. lia.
      * rewrite lookup_insert_ne by done. by rewrite Hx.
    + destruct (pr_closed _ _ _ _ R _ _ _ Hz) as [w Hw].
      destruct (decide (p ++ [i] = q)) as [->|Hq]; [by rewrite lookup_insert_eq|].
      rewrite lookup_insert_ne by done. by rewrite Hw.
  - intros q z j [[<- <-]|[Hne Hz]]%lookup_insert_Some Hql Hj.
    + rewrite load_store_entry by done. rewrite decide_False by (intros [? _]; congruence).
      rewrite load_memset_entry, decide_True by done.
      rewrite lookup_insert_ne; [by rewrite Hbelow|].
      intros E. apply (f_equal length) in E. rewrite !length_app in E. simpl in E. lia.
    + destruct (Hp _ _ Hz) as (_ & _ & Hoz).
      rewrite load_store_entry by done. case_decide as E.
      * destruct E as [-> ->]. rewrite (pr_inj _ _ _ _ R _ _ _ Hz Hx).
        rewrite lookup_insert_eq. by rewrite u64_small.
      * rewrite load_memset_entry by done. rewrite decide_False by (intros ->; by apply Hfresh in Hz).
        rewrite lookup_insert_ne; [by apply (pr_dir _ _ _ _ R)|].
        intros Eq. apply app_inj_tail in Eq as [-> ->]. apply E. split; [congruence|done].
  - intros i2 i1 z i0 [[E <-]|[Hne Hz]]%lookup_insert_Some Hj.
    + rewrite load_store_entry by done. rewrite decide_False by (intros [? _]; congruence).
      rewrite load_memset_entry, decide_True by done.
      destruct (L !! va_of i2 i1 i0) as [v|] eqn:EL; [|done]. exfalso.
      destruct (pr_dom _ _ _ _ R _ _ EL) as (j2 & j1 & j0 & Ev & Hj0 & [w Hw]).
      destruct (Hp _ _ Hw) as (_ & Hpw & _).
      apply Forall_cons in Hpw as [Hj2 Hpw]. apply Forall_cons in Hpw as [Hj1 _].
      assert (Forall (fun i => 0 <= i < 512) [i2; i1]) as Hpi.
      { rewrite <- E. apply Forall_app. by split; [|constructor]. }
      apply Forall_cons in Hpi as [Hi2 Hpi]. apply Forall_cons in Hpi as [Hi1 _].
      apply va_of_inj in Ev as (-> & -> & ->); try done.
      rewrite <- E in Hw. congruence.
    + destruct (Hp _ _ Hz) as (_ & _ & Hoz).
      rewrite load_store_entry by done. rewrite decide_False.
      * rewrite load_memset_entry by done. rewrite decide_False by (intros ->; by apply Hfresh in Hz).
        by apply (pr_leaf _ _ _ _ R).
      * intros [-> _]. pose proof (pr_inj _ _ _ _ R _ _ _ Hz Hx) as Eq. subst p. simpl in Hlen. lia.
  - intros va v Hv. destruct (pr_dom _ _ _ _ R _ _ Hv) as (i2 & i1 & i0 & -> & Hi0 & [w Hw]).
    exists i2, i1, i0. split; [done|]. split; [done|].
    destruct (decide (p ++ [i] = [i2; i1])) as [E|E]; [rewrite E, lookup_insert_eq; done|].
    rewrite lookup_insert_ne by done. by rewrite Hw.
  - apply R.
Qed.

(** ** walk *)

(** The entry that walk finds for [va]: its address, or 0. *)
Definition entry_addr (T : gmap (list Z) Z) (va : Z) : Z :=
  match T !! [PX 2 va; PX 1 va] with Some x => x + 8 * PX 0 va | None => 0 end.

Lemma loadM_run a c s : loadM a c s = Ok (load64 (pm_mem s) a) c s.
Proof. done. Qed.

Lemma mkpte_V_has y : has (mkpte y PTE_V) PTE_V = true.
Proof. apply has_lor_V. Qed.

Lemma walk_dir_step m root T L p x i :
  pt_rep m root T L -> T !! p = Some x -> (length p < 2)%nat -> 0 <= i < 512 ->
  match T !! (p ++ [i]) with
  | Some y => has (load64 m (x + 8 * i)) PTE_V = true /\ PTE2PA (load64 m (x + 8 * i)) = y
  | None => has (load64 m (x + 8 * i)) PTE_V = false
  end.
Proof.
  intros R Hx Hlen Hi. rewrite (pr_dir _ _ _ _ R p) by done.
  destruct (T !! (p ++ [i])) as [y|] eqn:E; [|done].
  destruct (pr_page _ _ _ _ R _ _ E) as (_ & _ & Hoy). pose proof (page_ok_pos _ Hoy).
  split; [apply mkpte_V_has|]. apply PTE2PA_mkpte; [lia|apply Hoy|done].
Qed.

Lemma walk_noalloc m root T L c s va :
  pm_mem s = m -> pt_rep m root T L -> 0 <= va < MAXVA ->
  walk root va false c s = Ok (entry_addr T va) c s.
Proof.
  intros Hm R Hva. subst m. unfold walk.
  destruct (Z.leb_spec MAXVA va); [lia|].
  pose proof (PX_range 2 va ltac:(lia)) as H2. pose proof (PX_range 1 va ltac:(lia)) as H1.
  unfold entry_addr. cbn [walk_loop]. unfold loadM. mrun.
  change (Z.of_nat 2) with 2. change (Z.of_nat 1) with 1.
  pose proof (walk_dir_step _ _ _ _ [] root (PX 2 va) R (pr_root _ _ _ _ R) ltac:(simpl; lia) H2)
    as Hd. cbn [app] in Hd.
  destruct (T !! [PX 2 va]) as [y|] eqn:E2.
  - destruct Hd as [-> Hpa]. mrun. rewrite Hpa.
    pose proof (walk_dir_step _ _ _ _ [PX 2 va] y (PX 1 va) R E2 ltac:(simpl; lia) H1) as Hd1.
    cbn [app] in Hd1.
    destruct (T !! [PX 2 va; PX 1 va]) as [z|] eqn:E1.
    + destruct Hd1 as [-> Hpa1]. by rewrite Hpa1.
    + rewrite Hd1. done.
  - rewrite Hd. destruct (T !! [PX 2 va; PX 1 va]) as [z|] eqn:E1; [|done].
    destruct (pr_closed _ _ _ _ R [PX 2 va] (PX 1 va) z E1) as [w Hw]. congruence.
Qed.

Lemma changes_only_store T x q i v m :
  T !! q = Some x -> 0 <= i < 512 ->
  changes_only (table_page T) m (store64 m (x + 8 * i) v).
Proof.
  intros Hq Hi b Hb. pose proof (entry_bounds i Hi).
  destruct (Hb x) as [H1|H1]; [by exists q| |]; apply mget_store64_out; lia.
Qed.

(** One level of walk with alloc set, below a table that is already there. *)
Lemma walk_alloc_level c s fl root T L p x i :
  pt_inv s fl root T L -> L_kmem ∉ held c ->
  T !! p = Some x -> (length p < 2)%nat -> 0 <= i < 512 -> T !! (p ++ [i]) = None ->
  (fl = [] /\ kalloc c s = Ok 0 c s) \/
  (exists y fl' s1,
     fl = y :: fl' /\ y <> 0 /\ kalloc c s = Ok y c s1 /\
     let m' := store64 (memset (pm_mem s1) y 0 PGSIZE) (x + 8 * i) (mkpte y PTE_V) in
     let T' := <[p ++ [i] := y]> T in
     pt_inv (PMem m' (freelist s1)) fl' root T' L /\ grows T fl T' fl' [y] /\
     changes_only (table_page T') (pm_mem s) m').
Proof.
  intros [Hk R Hd] Hc Hx Hlen Hi Hnone.
  destruct (kalloc_run c s fl Hk Hc) as [Hr Hk'].
  pose proof Hk as (Hf & Hn & Ho).
  destruct fl as [|y fl']; cbn [hd tail flist] in *.
  { left. split; [done|]. rewrite Hr. destruct s; simpl in *. by subst. }
  right. exists y, fl', (PMem (pm_mem s) (hd 0 fl')).
  apply NoDup_cons in Hn as [Hny Hn]. apply Forall_cons in Ho as [Hoy Ho].
  pose proof (page_ok_pos _ Hoy) as Hyr.
  assert (forall q, T !! q <> Some y) as Hfresh.
  { intros q Hq. apply (Hd q y Hq). set_solver. }
  destruct (pr_page _ _ _ _ R _ _ Hx) as (_ & _ & Hox).
  pose proof (entry_bounds i Hi) as Hie.
  split; [done|]. split; [lia|]. split; [done|]. cbn [pm_mem freelist].
  pose proof (pt_rep_grow _ _ _ _ p x i y R Hx Hlen Hi Hnone Hoy Hfresh) as R'.
  assert (x ∉ y :: fl') as Hxfl by (by apply (Hd p)).
  split; [split|split].
  - change (kmem_inv (PMem (store64 (memset (pm_mem s) y 0 PGSIZE) (x + 8 * i) (mkpte y PTE_V))
      (freelist (PMem (pm_mem s) (hd 0 fl')))) fl').
    apply kmem_inv_ext; [|done]. intros z b Hz Hb. cbn [pm_mem].
    rewrite Forall_forall in Ho. specialize (Ho z Hz).
    rewrite mget_store64_out.
    + symmetry. apply (memset_page_out _ _ z); try done. intros ->. set_solver.
    + destruct (page_ok_apart x z Hox Ho); [set_solver|lia|lia].
  - exact R'.
  - intros q z [[<- <-]|[Hne Hz]]%lookup_insert_Some; [done|].
    specialize (Hd q z Hz). set_solver.
  - split; [done|by apply insert_subseteq| | |].
    + intros q z [[<- <-]|[Hne Hz]]%lookup_insert_Some; [right; set_solver|by left].
    + intros z Hz%list_elem_of_singleton. subst. exists (p ++ [i]). apply lookup_insert_eq.
    + rewrite map_size_insert_None by done. simpl. lia.
  - intros b Hb. rewrite mget_store64_out.
    + rewrite memset_get by done. case_match; [|done].
      destruct (Hb y); [exists (p ++ [i]); apply lookup_insert_eq|lia|lia].
    + destruct (Hb x); [|lia|lia]. exists p. rewrite lookup_insert_ne; [done|].
      intros E. rewrite <- E in Hx. congruence.
Qed.

Lemma walk_alloc_step l c s fl root T L p x va :
  pt_inv s fl root T L -> L_kmem ∉ held c ->
  T !! p = Some x -> (length p < 2)%nat ->
  let i := PX (Z.of_nat (S l)) va in
  (walk_loop (S l) x va true c s = Ok 0 c s /\ fl = [] /\ T !! (p ++ [i]) = None) \/
  (exists y s1 T1 fl1 u,
     walk_loop (S l) x va true c s = walk_loop l y va true c s1 /\
     pt_inv s1 fl1 root T1 L /\ T1 !! (p ++ [i]) = Some y /\
     grows T fl T1 fl1 u /\ (length u <= 1)%nat /\
     changes_only (table_page T1) (pm_mem s) (pm_mem s1)).
Proof.
  intros Hinv Hc Hx Hlen i. assert (0 <= i < 512) as Hi by (apply PX_range; lia).
  cbn [walk_loop]. unfold loadM. mrun. fold i.
  pose proof (walk_dir_step _ _ _ _ p x i (pi_rep _ _ _ _ _ Hinv) Hx Hlen Hi) as Hd.
  destruct (T !! (p ++ [i])) as [y|] eqn:E.
  - destruct Hd as [-> ->]. right. exists y, s, T, fl, [].
    split_and!; try done; [apply grows_refl|simpl; lia].
  - rewrite Hd. cbn [negb].
    destruct (walk_alloc_level c s fl root T L p x i Hinv Hc Hx Hlen Hi E)
      as [[-> Hk]|(y & fl' & s1 & -> & Hy & Hk & Hinv' & Hg & Hch)].
    + left. by rewrite (bind_Ok _ _ _ _ _ _ _ Hk).
    + right. rewrite (bind_Ok _ _ _ _ _ _ _ Hk).
      destruct (Z.eqb_spec y 0); [done|]. unfold memsetM, storeM. mrun.
      eexists y, _, _, fl', [y]. split; [reflexivity|]. cbn [pm_mem freelist].
      split; [exact Hinv'|]. split; [apply lookup_insert_eq|].
      split; [done|]. split; [simpl; lia|done].
Qed.

Lemma walk_alloc_run c s fl root T L va :
  pt_inv s fl root T L -> L_kmem ∉ held c -> 0 <= va < MAXVA ->
  exists r s' T' fl' u,
    walk root va true c s = Ok r c s' /\ pt_inv s' fl' root T' L /\
    grows T fl T' fl' u /\ (length u <= 2)%nat /\
    changes_only (table_page T') (pm_mem s) (pm_mem s') /\
    ((r = 0 /\ fl' = [] /\ T' !! [PX 2 va; PX 1 va] = None) \/
     exists x, T' !! [PX 2 va; PX 1 va] = Some x /\ r = x + 8 * PX 0 va /\ r <> 0).
Proof.
  intros Hinv Hc Hva. unfold walk. destruct (Z.leb_spec MAXVA va); [lia|].
  pose proof (pr_root _ _ _ _ (pi_rep _ _ _ _ _ Hinv)) as Hroot.
  destruct (walk_alloc_step 1 c s fl root T L [] root va Hinv Hc Hroot)
    as [(Hr & Hfl & Hn)|(y & s1 & T1 & fl1 & u1 & Hr & Hinv1 & HT1 & Hg1 & Hu1 & Hc1)];
    [simpl; lia| |]; cbn [app] in *; change (Z.of_nat 2) with 2 in *.
  { exists 0, s, T, fl, []. split_and!; try done; [apply grows_refl|simpl; lia|].
    left. split_and!; [done..|]. destruct (T !! [PX 2 va; PX 1 va]) as [w|] eqn:E; [|done].
    destruct (pr_closed _ _ _ _ (pi_rep _ _ _ _ _ Hinv) [PX 2 va] (PX 1 va) w E). congruence. }
  destruct (walk_alloc_step 0 c s1 fl1 root T1 L [PX 2 va] y va Hinv1 Hc HT1)
    as [(Hr2 & Hfl & Hn)|(z & s2 & T2 & fl2 & u2 & Hr2 & Hinv2 & HT2 & Hg2 & Hu2 & Hc2)];
    [simpl; lia| |]; cbn [app] in *; change (Z.of_nat 1) with 1 in *.
  { exists 0, s1, T1, fl1, u1. rewrite Hr, Hr2. split_and!; try done; [lia|]. by left. }
  exists (z + 8 * PX 0 va), s2, T2, fl2, (u1 ++ u2). rewrite Hr, Hr2.
  split; [done|]. split; [done|]. split; [by apply (grows_trans _ _ T1 fl1)|].
  split; [rewrite length_app; lia|]. split.
  - apply (changes_only_trans (table_page T1) (table_page T2) _ _ (pm_mem s1)); try done.
    intros x [q Hq]. exists q. by apply (lookup_weaken _ _ _ _ Hq), Hg2.
  - right. exists z. split; [done|]. split; [done|].
    destruct (pr_page _ _ _ _ (pi_rep _ _ _ _ _ Hinv2) _ _ HT2) as (_ & _ & Hz).
    pose proof (page_ok_pos _ Hz). pose proof (PX_range 0 va). lia.
Qed.

(** ** mappages *)

(** The entry mappages writes. *)
Definition leaf_pte (pa perm : Z) : Z := Z.lor (Z.lor (PA2PTE pa) perm) PTE_V.

Lemma leaf_pte_mkpte pa perm : leaf_pte pa perm = mkpte pa (Z.lor perm PTE_V).
Proof. unfold leaf_pte, mkpte. by rewrite Z.lor_assoc. Qed.

(** [perm] is a set of flags that makes an entry a leaf. *)
Definition leaf_perm (perm : Z) : Prop := 0 <= perm < 1024 /\ Z.land perm RWX <> 0.

Definition phys_page (pa : Z) : Prop := 0 <= pa < 2 ^ 56 /\ pa mod PGSIZE = 0.

Lemma page_ok_phys p : page_ok p -> phys_page p.
Proof. intros H. pose proof (page_ok_pos _ H). split; [lia|apply H]. Qed.

Lemma land_RWX_flags v : Z.land v RWX = Z.land (PTE_FLAGS v) RWX.
Proof. unfold PTE_FLAGS. rewrite <- Z.land_assoc. done. Qed.

Lemma leaf_pte_ok pa perm : phys_page pa -> leaf_perm perm ->
  0 <= leaf_pte pa perm < 2 ^ 64 /\ has (leaf_pte pa perm) PTE_V = true /\
  Z.land (leaf_pte pa perm) RWX <> 0 /\ PTE2PA (leaf_pte pa perm) = pa /\
  PTE_FLAGS (leaf_pte pa perm) = Z.lor perm PTE_V.
Proof.
  intros [Hp Ha] [Hf HR].
  assert (0 <= Z.lor perm PTE_V < 1024) as Hf' by (apply lor_small; done).
  rewrite leaf_pte_mkpte. split; [by apply mkpte_range|].
  split. { rewrite <- leaf_pte_mkpte. apply has_lor_V. }
  rewrite PTE_FLAGS_mkpte, PTE2PA_mkpte by done. split; [|done].
  rewrite land_RWX_flags, PTE_FLAGS_mkpte by done.
  rewrite Z.land_lor_distr_l. change (Z.land PTE_V RWX) with 0. by rewrite Z.lor_0_r.
Qed.

(** [k] consecutive pages from [va], mapped to consecutive physical pages. *)
Fixpoint map_pages (L : gmap Z Z) (va pa perm : Z) (k : nat) : gmap Z Z :=
  match k with
  | O => L
  | S k' => map_pages (<[va := leaf_pte pa perm]> L) (va + PGSIZE) (pa + PGSIZE) perm k'
  end.

(** Storing at the entry of a mapped path updates the leaf map. *)
Lemma store_leaf c s fl root T L va v :
  pt_inv s fl root T L -> 0 <= va < MAXVA -> va mod PGSIZE = 0 ->
  forall x, T !! [PX 2 va; PX 1 va] = Some x ->
  0 <= v < 2 ^ 64 -> has v PTE_V = true -> Z.land v RWX <> 0 ->
  exists s', storeM (x + 8 * PX 0 va) v c s = Ok tt c s' /\
    pt_inv s' fl root T (<[va := v]> L) /\
    changes_only (table_page T) (pm_mem s) (pm_mem s').
Proof.
  intros [Hk R Hd] Hva Hal x Hx Hv HV HR.
  assert (0 <= PX 0 va < 512) as Hi by (apply PX_range; lia).
  assert (va_of (PX 2 va) (PX 1 va) (PX 0 va) = va) as Eva.
  { rewrite va_of_PX by (rewrite MAXVA_val in Hva; lia). lia. }
  eexists. split; [reflexivity|]. cbn [pm_mem]. split; [split|].
  - destruct (pr_page _ _ _ _ R _ _ Hx) as (_ & _ & Hox).
    apply kmem_inv_ext; [|done]. intros z b Hz Hb. symmetry. apply mget_store64_out.
    pose proof (entry_bounds _ Hi). pose proof Hk as (_ & _ & Ho).
    rewrite Forall_forall in Ho. specialize (Hd _ _ Hx).
    destruct (page_ok_apart x z Hox (Ho z Hz)); [set_solver|lia|lia].
  - cbn [pm_mem]. pose proof (pt_rep_leaf_pages _ _ _ _ _ _ x (PX 0 va) v R Hx Hi Hv) as R'.
    rewrite Eva in R'. by apply R'.
  - done.
  - by apply (changes_only_store T x [PX 2 va; PX 1 va]).
Qed.

Lemma leaf_load m root T L va x :
  pt_rep m root T L -> 0 <= va < MAXVA -> va mod PGSIZE = 0 ->
  T !! [PX 2 va; PX 1 va] = Some x ->
  load64 m (x + 8 * PX 0 va) = default 0 (L !! va).
Proof.
  intros R Hva Hal Hx. rewrite (pr_leaf _ _ _ _ R _ _ _ _ Hx) by (apply PX_range; lia).
  rewrite va_of_PX by (rewrite MAXVA_val in Hva; lia). by rewrite Hal, Z.sub_0_r.
Qed.

Lemma grows_table_mono T fl T' fl' u x : grows T fl T' fl' u -> table_page T x -> table_page T' x.
Proof. intros G [q Hq]. exists q. by apply (lookup_weaken _ _ _ _ Hq), G. Qed.

(** One turn of the loop of mappages on a page that is not mapped. *)
Lemma map_one_page c s fl root T L a pa perm :
  pt_inv s fl root T L -> L_kmem ∉ held c ->
  0 <= a < MAXVA -> a mod PGSIZE = 0 -> L !! a = None -> phys_page pa -> leaf_perm perm ->
  exists r s1 T' fl' u,
    walk root a true c s = Ok r c s1 /\ grows T fl T' fl' u /\ (length u <= 2)%nat /\
    ((r = 0 /\ fl' = [] /\ pt_inv s1 fl' root T' L /\
      changes_only (table_page T') (pm_mem s) (pm_mem s1)) \/
     (r <> 0 /\ load64 (pm_mem s1) r = 0 /\
      exists s2, storeM r (leaf_pte pa perm) c s1 = Ok tt c s2 /\
        pt_inv s2 fl' root T' (<[a := leaf_pte pa perm]> L) /\
        changes_only (table_page T') (pm_mem s) (pm_mem s2))).
Proof.
  intros Hinv Hc Ha Hal HL Hpa Hperm.
  destruct (walk_alloc_run c s fl root T L a Hinv Hc Ha)
    as (r & s1 & T' & fl' & u & Hr & Hinv1 & Hg & Hu & Hch & [(-> & -> & _)|(x & Hx & -> & Hne)]).
  { exists 0, s1, T', [], u. split_and!; try done. left. by split_and!. }
  exists (x + 8 * PX 0 a), s1, T', fl', u. split_and!; try done. right. split; [done|].
  split. { rewrite (leaf_load _ _ _ _ _ _ (pi_rep _ _ _ _ _ Hinv1) Ha Hal Hx). by rewrite HL. }
  destruct (leaf_pte_ok pa perm Hpa Hperm) as (Hv & HV & HR & _ & _).
  destruct (store_leaf c s1 fl' root T' L a _ Hinv1 Ha Hal x Hx Hv HV HR) as (s2 & Hs & Hi2 & Hc2).
  exists s2. split_and!; try done.
  by apply (changes_only_trans (table_page T') (table_page T') _ _ (pm_mem s1)).
Qed.

Lemma mappages_loop_run n : forall fuel c s fl root T L a pa perm,
  pt_inv s fl root T L -> L_kmem ∉ held c -> (0 < n)%nat -> (n <= fuel)%nat ->
  0 <= a -> a + Z.of_nat n * PGSIZE <= MAXVA -> a mod PGSIZE = 0 ->
  0 <= pa -> pa + Z.of_nat n * PGSIZE <= 2 ^ 56 -> pa mod PGSIZE = 0 -> leaf_perm perm ->
  (forall i, 0 <= i < Z.of_nat n -> L !! (a + i * PGSIZE) = None) ->
  exists r s' T' fl' u k,
    mappages_loop fuel root a (a + (Z.of_nat n - 1) * PGSIZE) pa perm c s = Ok r c s' /\
    pt_inv s' fl' root T' (map_pages L a pa perm k) /\ grows T fl T' fl' u /\
    changes_only (table_page T') (pm_mem s) (pm_mem s') /\
    (length u <= 2 * n)%nat /\
    ((r = 0 /\ k = n) \/ (r = -1 /\ (k < n)%nat /\ fl' = [])).
Proof.
  induction n as [|n IH]; intros fuel c s fl root T L a pa perm Hinv Hc Hn Hf Ha0 Ha Hal
    Hp0 Hp Hpal Hperm HL; [lia|].
  destruct fuel as [|fuel]; [lia|]. cbn [mappages_loop].
  assert (0 <= a < MAXVA) as Har by (unfold PGSIZE in *; lia).
  assert (phys_page pa) as Hpa by (split; unfold PGSIZE in *; lia).
  assert (L !! a = None) as HLa.
  { specialize (HL 0 ltac:(lia)). by rewrite Z.mul_0_l, Z.add_0_r in HL. }
  destruct (map_one_page c s fl root T L a pa perm Hinv Hc Har Hal HLa Hpa Hperm)
    as (r & s1 & T1 & fl1 & u1 & Hr & Hg & Hu & [(-> & -> & Hi1 & Hc1)|
        (Hr0 & Hld & s2 & Hst & Hi2 & Hc2)]).
  { exists (-1), s1, T1, [], u1, 0%nat. rewrite (bind_Ok _ _ _ _ _ _ _ Hr).
    split_and!; try done; [lia|]. right. split_and!; [done|lia|done]. }
  rewrite (bind_Ok _ _ _ _ _ _ _ Hr). destruct (Z.eqb_spec r 0); [done|].
  unfold loadM at 1. mrun. rewrite Hld, has_0.
  change (Z.lor (Z.lor (PA2PTE pa) perm) PTE_V) with (leaf_pte pa perm).
  rewrite (bind_Ok _ _ _ _ _ _ _ Hst).
  destruct (Z.eqb_spec a (a + (Z.of_nat (S n) - 1) * PGSIZE)) as [E|E].
  { assert (n = 0%nat) as -> by (unfold PGSIZE in *; lia).
    exists 0, s2, T1, fl1, u1, 1%nat. split_and!; try done. by left. }
  rewrite MAXVA_val in *. rewrite !u64_small by (unfold PGSIZE in *; lia).
  destruct (IH fuel c s2 fl1 root T1 (<[a := leaf_pte pa perm]> L) (a + PGSIZE) (pa + PGSIZE) perm)
    as (r' & s' & T' & fl' & u' & k & Hrun & Hi' & Hg' & Hch' & Hu' & Hcase); try done.
  1-4: unfold PGSIZE in *; lia.
  1: { unfold PGSIZE in *. zlia. }
  1-2: unfold PGSIZE in *; lia.
  1: { unfold PGSIZE in *. zlia. }
  1: { intros i Hi. rewrite lookup_insert_ne by (unfold PGSIZE; lia).
       rewrite <- (HL (i + 1)) by lia. f_equal. lia. }
  replace (a + PGSIZE + (Z.of_nat n - 1) * PGSIZE) with (a + (Z.of_nat (S n) - 1) * PGSIZE)
    in Hrun by lia.
  exists r', s', T', fl', (u1 ++ u'), (S k). rewrite Hrun. split; [done|].
  split; [done|]. split; [by apply (grows_trans _ _ T1 fl1)|]. split.
  { apply (changes_only_trans (table_page T1) (table_page T') _ _ (pm_mem s2)); try done.
    intros x. by apply (grows_table_mono _ _ _ _ _ _ Hg'). }
  split; [rewrite length_app; lia|].
  destruct Hcase as [[-> ->]|(-> & Hk & ->)]; [by left|right; split_and!; [done|lia|done]].
Qed.

Lemma mappages_run n c s fl root T L va pa perm :
  pt_inv s fl root T L -> L_kmem ∉ held c -> (0 < n)%nat ->
  0 <= va -> va + Z.of_nat n * PGSIZE <= MAXVA -> va mod PGSIZE = 0 ->
  0 <= pa -> pa + Z.of_nat n * PGSIZE <= 2 ^ 56 -> pa mod PGSIZE = 0 -> leaf_perm perm ->
  (forall i, 0 <= i < Z.of_nat n -> L !! (va + i * PGSIZE) = None) ->
  exists r s' T' fl' u k,
    mappages root va (Z.of_nat n * PGSIZE) pa perm c s = Ok r c s' /\
    pt_inv s' fl' root T' (map_pages L va pa perm k) /\ grows T fl T' fl' u /\
    changes_only (table_page T') (pm_mem s) (pm_mem s') /\
    (length u <= 2 * n)%nat /\
    ((r = 0 /\ k = n) \/ (r = -1 /\ (k < n)%nat /\ fl' = [])).
Proof.
  intros Hinv Hc Hn Hva0 Hva Hal Hp0 Hp Hpal Hperm HL. unfold mappages.
  rewrite Hal. cbn [Z.eqb negb]. rewrite Z.mod_mul by (unfold PGSIZE; lia).
  cbn [Z.eqb negb]. destruct (Z.eqb_spec (Z.of_nat n * PGSIZE) 0); [unfold PGSIZE in *; lia|].
  rewrite Z.div_mul by (unfold PGSIZE; lia). rewrite Nat2Z.id.
  rewrite MAXVA_val in Hva. rewrite u64_small by (unfold PGSIZE in *; lia).
  replace (va + Z.of_nat n * PGSIZE - PGSIZE) with (va + (Z.of_nat n - 1) * PGSIZE) by lia.
  by apply mappages_loop_run.
Qed.

(** Mapping one page: the form the callers use. *)
Lemma mappages_one c s fl root T L va pa perm :
  pt_inv s fl root T L -> L_kmem ∉ held c ->
  0 <= va -> va + PGSIZE <= MAXVA -> va mod PGSIZE = 0 -> L !! va = None ->
  phys_page pa -> leaf_perm perm ->
  exists r s' T' fl' u,
    mappages root va PGSIZE pa perm c s = Ok r c s' /\ grows T fl T' fl' u /\
    changes_only (table_page T') (pm_mem s) (pm_mem s') /\ (length u <= 2)%nat /\
    ((r = 0 /\ pt_inv s' fl' root T' (<[va := leaf_pte pa perm]> L)) \/
     (r = -1 /\ pt_inv s' fl' root T' L /\ fl' = [])).
Proof.
  intros Hinv Hc Hva0 Hva Hal HL [Hpr Hpal] Hperm.
  destruct (mappages_run 1 c s fl root T L va pa perm)
    as (r & s' & T' & fl' & u & k & Hr & Hi & Hg & Hch & Hu & Hcase); try done; try lia.
  - unfold PGSIZE in *. zlia.
  - intros i Hi. assert (i = 0) as -> by lia. by rewrite Z.mul_0_l, Z.add_0_r.
  - rewrite Z.mul_1_l in Hr. exists r, s', T', fl', u. split_and!; try done.
    destruct Hcase as [[-> ->]|(-> & Hk & ->)]; [by left|].
    right. destruct k; [done|lia].
Qed.
End PageTable.
