(* ===== verification/UserMem.v ===== *)
(** User address spaces: who owns the pages a user page table maps, and what
    uvmunmap, uvmdealloc, uvmalloc, freewalk and uvmfree do to them.

    Every leaf below TRAPFRAME maps a page that the address space owns: no two
    leaves share it, it is no page-table page and it is not free. *)

From S2P Require Import Prelude Machine CString Kalloc Vm PageTable.

(** ** Ranges of pages in the leaf map *)

Fixpoint unmap_pages (L : gmap Z Z) (va : Z) (n : nat) : gmap Z Z :=
  match n with
  | O => L
  | S k => unmap_pages (delete va L) (va + PGSIZE) k
  end.

(** The physical pages behind [n] pages of virtual memory. *)
Fixpoint leaf_pages (L : gmap Z Z) (va : Z) (n : nat) : list Z :=
  match n with
  | O => []
  | S k => PTE2PA (default 0 (L !! va)) :: leaf_pages L (va + PGSIZE) k
  end.

Definition in_range (va : Z) (n : nat) (x : Z) : Prop :=
  va <= x < va + Z.of_nat n * PGSIZE /\ (x - va) mod PGSIZE = 0.

#[global] Instance in_range_dec va n x : Decision (in_range va n x).
Proof. unfold in_range. apply _. Defined.

Lemma in_range_S va n x :
  in_range va (S n) x <-> x = va \/ in_range (va + PGSIZE) n x.
Proof. unfold in_range, PGSIZE. split; [intros [H1 H2]|intros [->|[H1 H2]]]; zlia. Qed.

Lemma lookup_unmap_pages n : forall L va x,
  unmap_pages L va n !! x = if decide (in_range va n x) then None else L !! x.
Proof.
  induction n as [|n IH]; intros L va x; cbn [unmap_pages].
  - rewrite decide_False; [done|]. unfold in_range. lia.
  - rewrite IH. destruct (decide (in_range va (S n) x)) as [H|H];
      rewrite in_range_S in H; case_decide as E; try tauto.
    + destruct H as [->|H]; [|tauto]. by rewrite lookup_delete_eq.
    + rewrite lookup_delete_ne; [done|]. intros ->. tauto.
Qed.

Lemma leaf_pages_ext n : forall L L' va,
  (forall x, in_range va n x -> L !! x = L' !! x) -> leaf_pages L va n = leaf_pages L' va n.
Proof.
  induction n as [|n IH]; intros L L' va H; cbn [leaf_pages]; [done|].
  rewrite (H va) by (apply in_range_S; by left). f_equal.
  apply IH. intros x Hx. apply H, in_range_S. by right.
Qed.

Lemma length_leaf_pages n : forall L va, length (leaf_pages L va n) = n.
Proof. induction n; intros; simpl; auto. Qed.

Section UserMem.
Context `{KI : KernelImage}.

Record as_inv (s : pmem) (fl : list Z) (root : Z) (T : gmap (list Z) Z) (L : gmap Z Z) : Prop := {
  ai_pt : pt_inv s fl root T L;
  ai_own : forall va v, L !! va = Some v -> va < TRAPFRAME ->
    page_ok (PTE2PA v) /\ ~ table_page T (PTE2PA v) /\ PTE2PA v ∉ fl;
  ai_inj : forall va v va' v', L !! va = Some v -> L !! va' = Some v' ->
    va < TRAPFRAME -> va' < TRAPFRAME -> PTE2PA v = PTE2PA v' -> va = va';
}.

(** Exactly the pages below [sz] are mapped. *)
Definition user_dom (L : gmap Z Z) (sz : Z) : Prop :=
  forall va, 0 <= va < TRAPFRAME -> va mod PGSIZE = 0 -> (is_Some (L !! va) <-> va < sz).

Definition leaf_page (L : gmap Z Z) (x : Z) : Prop :=
  exists va v, L !! va = Some v /\ va < TRAPFRAME /\ PTE2PA v = x.

Lemma TRAPFRAME_val : TRAPFRAME = 2 ^ 38 - 2 * PGSIZE.
Proof. done. Qed.

Lemma entry_mapped m root T L va v :
  pt_rep m root T L -> 0 <= va < MAXVA -> L !! va = Some v ->
  exists x, T !! [PX 2 va; PX 1 va] = Some x /\ entry_addr T va = x + 8 * PX 0 va /\
    entry_addr T va <> 0 /\ va mod PGSIZE = 0 /\ load64 m (x + 8 * PX 0 va) = v.
Proof.
  intros R Hva HL.
  destruct (pr_dom _ _ _ _ R _ _ HL) as (i2 & i1 & i0 & Ev & Hi0 & [x Hx]).
  destruct (pr_page _ _ _ _ R _ _ Hx) as (_ & Hp & Hox).
  apply Forall_cons in Hp as [Hi2 Hp]. apply Forall_cons in Hp as [Hi1 _].
  assert (va mod PGSIZE = 0) as Hal.
  { subst va. unfold va_of. apply Z.mod_mul. unfold PGSIZE. lia. }
  pose proof (va_of_PX va ltac:(rewrite MAXVA_val in Hva; lia)) as E.
  rewrite Hal, Z.sub_0_r in E. rewrite Ev in E at 4.
  apply va_of_inj in E as (E2 & E1 & E0); try done; try (apply PX_range; lia).
  exists x. rewrite E2, E1. split; [done|]. unfold entry_addr. rewrite E2, E1, Hx.
  pose proof (page_ok_pos _ Hox). pose proof (PX_range 0 va ltac:(lia)).
  split; [done|]. split; [lia|]. split; [done|].
  rewrite (leaf_load _ _ _ _ va x R Hva Hal) by (by rewrite E2, E1). by rewrite HL.
Qed.

Lemma leaf_not_bare m root T L va v : pt_rep m root T L -> L !! va = Some v ->
  PTE_FLAGS v <> PTE_V.
Proof.
  intros R HL E. destruct (pr_valid _ _ _ _ R _ _ HL) as (_ & HR & _).
  apply HR. rewrite land_RWX_flags, E. done.
Qed.

(** *** Unmapping one page *)

(** Clearing the entry of a mapped page. *)
Lemma clear_leaf c s fl root T L va v :
  pt_inv s fl root T L -> 0 <= va < MAXVA -> L !! va = Some v ->
  exists s', storeM (entry_addr T va) 0 c s = Ok tt c s' /\ freelist s' = freelist s /\
    pt_inv s' fl root T (delete va L) /\
    changes_only (table_page T) (pm_mem s) (pm_mem s').
Proof.
  intros [Hk R Hd] Hva HL.
  destruct (entry_mapped _ _ _ _ _ _ R Hva HL) as (x & Hx & -> & _ & Hal & _).
  assert (0 <= PX 0 va < 512) as Hi by (apply PX_range; lia).
  eexists. split; [reflexivity|]. split; [done|]. cbn [pm_mem]. split; [split|].
  - destruct (pr_page _ _ _ _ R _ _ Hx) as (_ & _ & Hox).
    apply kmem_inv_ext; [|done]. intros z b Hz Hb. symmetry. apply mget_store64_out.
    pose proof (entry_bounds _ Hi). pose proof Hk as (_ & _ & Ho).
    rewrite Forall_forall in Ho. specialize (Hd _ _ Hx).
    destruct (page_ok_apart x z Hox (Ho z Hz)); [set_solver|lia|lia].
  - cbn [pm_mem]. pose proof (pt_rep_clear _ _ _ _ _ _ x (PX 0 va) R Hx Hi) as R'.
    rewrite va_of_PX in R' by (rewrite MAXVA_val in Hva; lia).
    by rewrite Hal, Z.sub_0_r in R'.
  - done.
  - by apply (changes_only_store T x [PX 2 va; PX 1 va]).
Qed.

(** Freeing a page that is neither a table nor free. *)
Lemma kfree_pt c s fl root T L pa :
  pt_inv s fl root T L -> L_kmem ∉ held c -> page_ok pa ->
  ~ table_page T pa -> pa ∉ fl ->
  exists s', kfree pa c s = Ok tt c s' /\ pt_inv s' (pa :: fl) root T L /\
    changes_only (fun x => x = pa) (pm_mem s) (pm_mem s').
Proof.
  intros [Hk R Hd] Hc Hp Ht Hfl. eexists.
  split; [by apply kfree_run|]. split; [split|].
  - by apply kfree_inv.
  - cbn [pm_mem]. apply (pt_rep_ext (pm_mem s)); [|done].
    intros q x b Hx Hb. symmetry. apply mget_store64_out.
    destruct (pr_page _ _ _ _ R _ _ Hx) as (_ & _ & Hox).
    destruct (page_ok_apart pa x Hp Hox); unfold PGSIZE in *; try lia.
    intros ->. apply Ht. by exists q.
  - intros q x Hx. specialize (Hd q x Hx). intros [->|?]%elem_of_cons; [|done].
    apply Ht. by exists q.
  - intros b Hb. cbn [pm_mem]. apply mget_store64_out.
    destruct (Hb pa eq_refl); unfold PGSIZE in *; lia.
Qed.

(** Unmapping and freeing keeps the ownership of the other leaves. *)
Lemma as_inv_unmap_free s s' fl root T L va v :
  as_inv s fl root T L -> va < TRAPFRAME -> L !! va = Some v ->
  pt_inv s' (PTE2PA v :: fl) root T (delete va L) ->
  as_inv s' (PTE2PA v :: fl) root T (delete va L).
Proof.
  intros [Hpt Hown Hinj] Hva HL Hpt'. split; [done| |].
  - intros va' v' [Hne HL']%lookup_delete_Some Hva'.
    destruct (Hown va' v' HL' Hva') as (Hp & Ht & Hf). split_and!; [done..|].
    intros [E|?]%elem_of_cons; [|done]. apply Hne.
    by apply (Hinj va v va' v').
  - intros va1 v1 va2 v2 [_ H1]%lookup_delete_Some [_ H2]%lookup_delete_Some.
    by apply Hinj.
Qed.

Lemma uvmunmap_free_loop n : forall fuel c s fl root T L a,
  as_inv s fl root T L -> L_kmem ∉ held c -> (n <= fuel)%nat ->
  0 <= a -> a + Z.of_nat n * PGSIZE <= TRAPFRAME ->
  (forall x, in_range a n x -> is_Some (L !! x)) ->
  exists s',
    uvmunmap_loop fuel root a (a + Z.of_nat n * PGSIZE) true c s = Ok tt c s' /\
    as_inv s' (rev (leaf_pages L a n) ++ fl) root T (unmap_pages L a n) /\
    changes_only (fun x => table_page T x \/ x ∈ leaf_pages L a n) (pm_mem s) (pm_mem s').
Proof.
  induction n as [|n IH]; intros fuel c s fl root T L a Hinv Hc Hf Ha0 Ha HL.
  { exists s. rewrite Z.mul_0_l, Z.add_0_r. cbn [unmap_pages leaf_pages].
    split; [|by split]. destruct fuel; cbn [uvmunmap_loop]; by rewrite Z.ltb_irrefl. }
  destruct fuel as [|fuel]; [lia|]. cbn [uvmunmap_loop].
  destruct (Z.ltb_spec a (a + Z.of_nat (S n) * PGSIZE)); [|unfold PGSIZE in *; lia].
  assert (0 <= a < MAXVA) as Har by (rewrite MAXVA_val, TRAPFRAME_val in *; unfold PGSIZE in *; lia).
  assert (a < TRAPFRAME) as Hat by (unfold PGSIZE in *; lia).
  destruct (HL a) as [v Hv]; [apply in_range_S; by left|].
  pose proof (pi_rep _ _ _ _ _ (ai_pt _ _ _ _ _ Hinv)) as R.
  rewrite (bind_Ok _ _ _ _ _ _ _ (walk_noalloc _ _ _ _ c s a eq_refl R Har)).
  destruct (entry_mapped _ _ _ _ _ _ R Har Hv) as (x & Hx & Hea & Hne & Hal & Hld).
  destruct (Z.eqb_spec (entry_addr T a) 0); [done|].
  unfold loadM at 1. mrun. rewrite Hea, Hld, <- Hea.
  destruct (pr_valid _ _ _ _ R _ _ Hv) as (-> & _ & _). cbn [negb].
  destruct (Z.eqb_spec (PTE_FLAGS v) PTE_V) as [E|_]; [by apply (leaf_not_bare _ _ _ _ _ _ R Hv) in E|].
  cbn [whenM].
  destruct (ai_own _ _ _ _ _ Hinv _ _ Hv Hat) as (Hpo & Hpt & Hpf).
  destruct (kfree_pt c s fl root T L (PTE2PA v) (ai_pt _ _ _ _ _ Hinv) Hc Hpo Hpt Hpf)
    as (s1 & Hk & Hi1 & Hc1).
  rewrite (bind_Ok _ _ _ _ _ _ _ Hk).
  destruct (clear_leaf c s1 _ root T L a v Hi1 Har Hv) as (s2 & Hst & _ & Hi2 & Hc2).
  rewrite (bind_Ok _ _ _ _ _ _ _ Hst).
  rewrite TRAPFRAME_val in Ha. rewrite u64_small by (unfold PGSIZE in *; lia).
  replace (a + Z.of_nat (S n) * PGSIZE) with (a + PGSIZE + Z.of_nat n * PGSIZE) by lia.
  destruct (IH fuel c s2 (PTE2PA v :: fl) root T (delete a L) (a + PGSIZE))
    as (s' & Hrun & Hinv' & Hch'); try done.
  - by apply (as_inv_unmap_free s).
  - lia.
  - unfold PGSIZE in *; lia.
  - rewrite TRAPFRAME_val. unfold PGSIZE in *; lia.
  - intros y Hy. rewrite lookup_delete_ne; [apply HL, in_range_S; by right|].
    intros <-. unfold in_range, PGSIZE in Hy. lia.
  - assert (leaf_pages (delete a L) (a + PGSIZE) n = leaf_pages L (a + PGSIZE) n) as Elp.
    { apply leaf_pages_ext. intros y Hy. apply lookup_delete_ne. intros <-.
      unfold in_range, PGSIZE in Hy. lia. }
    rewrite Elp in *. exists s'. cbn [leaf_pages unmap_pages rev]. rewrite Hv. cbn [default].
    rewrite <- app_assoc. split; [done|]. split; [done|].
    apply (changes_only_trans (fun y => table_page T y \/ y = PTE2PA v)
      (fun y => table_page T y \/ y ∈ leaf_pages L (a + PGSIZE) n) _ _ (pm_mem s2)); try done.
    + set_solver.
    + set_solver.
    + apply (changes_only_trans (fun y => y = PTE2PA v) (table_page T) _ _ (pm_mem s1)); auto.
Qed.

Lemma uvmunmap_free_run n c s fl root T L a :
  as_inv s fl root T L -> L_kmem ∉ held c ->
  0 <= a -> a mod PGSIZE = 0 -> a + Z.of_nat n * PGSIZE <= TRAPFRAME ->
  (forall x, in_range a n x -> is_Some (L !! x)) ->
  exists s',
    uvmunmap root a (Z.of_nat n) true c s = Ok tt c s' /\
    as_inv s' (rev (leaf_pages L a n) ++ fl) root T (unmap_pages L a n) /\
    changes_only (fun x => table_page T x \/ x ∈ leaf_pages L a n) (pm_mem s) (pm_mem s').
Proof.
  intros Hinv Hc Ha0 Hal Ha HL. unfold uvmunmap. rewrite Hal. cbn [Z.eqb negb].
  rewrite Nat2Z.id. rewrite TRAPFRAME_val in Ha.
  rewrite u64_small by (unfold PGSIZE in *; lia).
  apply uvmunmap_free_loop; try done.
Qed.

(** Unmapping one page without freeing it (the trampoline and the trapframe). *)
Lemma uvmunmap_one_run c s fl root T L a v :
  pt_inv s fl root T L -> 0 <= a -> a + PGSIZE <= MAXVA -> a mod PGSIZE = 0 -> L !! a = Some v ->
  exists s', uvmunmap root a 1 false c s = Ok tt c s' /\
    pt_inv s' fl root T (delete a L) /\
    changes_only (table_page T) (pm_mem s) (pm_mem s').
Proof.
  intros Hinv Ha0 Ha Hal Hv. unfold uvmunmap. rewrite Hal. cbn [Z.eqb negb].
  change (Z.to_nat 1) with 1%nat. cbn [uvmunmap_loop]. rewrite Z.mul_1_l.
  rewrite MAXVA_val in Ha. rewrite u64_small by (unfold PGSIZE in *; lia).
  destruct (Z.ltb_spec a (a + PGSIZE)); [|unfold PGSIZE in *; lia].
  assert (0 <= a < MAXVA) as Har by (rewrite MAXVA_val; unfold PGSIZE in *; lia).
  pose proof (pi_rep _ _ _ _ _ Hinv) as R.
  rewrite (bind_Ok _ _ _ _ _ _ _ (walk_noalloc _ _ _ _ c s a eq_refl R Har)).
  destruct (entry_mapped _ _ _ _ _ _ R Har Hv) as (x & Hx & Hea & Hne & _ & Hld).
  destruct (Z.eqb_spec (entry_addr T a) 0); [done|].
  unfold loadM at 1. mrun. rewrite Hea, Hld, <- Hea.
  destruct (pr_valid _ _ _ _ R _ _ Hv) as (-> & _ & _). cbn [negb].
  destruct (Z.eqb_spec (PTE_FLAGS v) PTE_V) as [E|_]; [by apply (leaf_not_bare _ _ _ _ _ _ R Hv) in E|].
  cbn [whenM]. mrun.
  destruct (clear_leaf c s fl root T L a v Hinv Har Hv) as (s2 & Hst & _ & Hi2 & Hc2).
  rewrite (bind_Ok _ _ _ _ _ _ _ Hst).
  rewrite Z.ltb_irrefl. eauto.
Qed.

(** ** Shrinking and growing *)

Lemma in_range_user a n x : a mod PGSIZE = 0 -> in_range a n x -> x mod PGSIZE = 0.
Proof. unfold in_range, PGSIZE. zlia. Qed.

(** uvmdealloc between page-aligned sizes. *)
Lemma uvmdealloc_run c s fl root T L oldsz newsz :
  as_inv s fl root T L -> L_kmem ∉ held c ->
  0 <= newsz -> newsz < oldsz -> oldsz <= TRAPFRAME ->
  let lo := PGROUNDUP newsz in
  let n := Z.to_nat ((PGROUNDUP oldsz - lo) / PGSIZE) in
  (forall x, in_range lo n x -> is_Some (L !! x)) ->
  exists s',
    uvmdealloc root oldsz newsz c s = Ok newsz c s' /\
    as_inv s' (rev (leaf_pages L lo n) ++ fl) root T (unmap_pages L lo n) /\
    changes_only (fun x => table_page T x \/ x ∈ leaf_pages L lo n) (pm_mem s) (pm_mem s').
Proof.
  intros Hinv Hc Hn Hlt Hold lo n HL. unfold uvmdealloc.
  destruct (Z.leb_spec oldsz newsz); [lia|].
  assert (0 <= newsz < 2 ^ 64 - PGSIZE) as H1 by (rewrite TRAPFRAME_val in *; unfold PGSIZE in *; lia).
  assert (0 <= oldsz < 2 ^ 64 - PGSIZE) as H2 by (rewrite TRAPFRAME_val in *; unfold PGSIZE in *; lia).
  pose proof (PGROUNDUP_bounds _ H1) as B1. pose proof (PGROUNDUP_aligned _ H1) as A1.
  pose proof (PGROUNDUP_bounds _ H2) as B2. pose proof (PGROUNDUP_aligned _ H2) as A2.
  assert (PGROUNDUP oldsz <= TRAPFRAME) as Ht by (rewrite TRAPFRAME_val in *; unfold PGSIZE in *; zlia).
  change (PGROUNDUP newsz) with lo in B1, A1 |- *. destruct (Z.ltb_spec lo (PGROUNDUP oldsz)) as [Hlo|Hlo].
  - assert ((PGROUNDUP oldsz - lo) / PGSIZE = Z.of_nat n) as En by (unfold n, PGSIZE in *; zlia).
    assert (lo + Z.of_nat n * PGSIZE = PGROUNDUP oldsz) as Eh by (unfold PGSIZE in *; zlia).
    rewrite En. assert (u64 (s32 (Z.of_nat n)) = Z.of_nat n) as ->.
    { assert (0 <= Z.of_nat n < 2 ^ 31) by (rewrite TRAPFRAME_val in *; unfold PGSIZE in *; zlia).
      unfold s32. rewrite Z.mod_small by lia. case_match; [|lia]. apply u64_small. lia. }
    destruct (uvmunmap_free_run n c s fl root T L lo Hinv Hc) as (s' & Hr & Hi & Hch);
      [lia|done|lia|done|].
    exists s'. rewrite (bind_Ok _ _ _ _ _ _ _ Hr). by split.
  - assert (n = 0%nat) as -> by (unfold n, PGSIZE in *; zlia).
    exists s. by split.
Qed.

(** A free page that is taken away from the list keeps the invariant. *)
Lemma as_inv_take c s p fl root T L :
  as_inv s (p :: fl) root T L -> L_kmem ∉ held c ->
  exists s', kalloc c s = Ok p c s' /\ p <> 0 /\ pm_mem s' = pm_mem s /\
    as_inv s' fl root T L /\ page_ok p /\ ~ table_page T p /\ (p ∉ fl) /\
    (forall va v, L !! va = Some v -> va < TRAPFRAME -> PTE2PA v <> p).
Proof.
  intros [[Hk R Hd] Hown Hinj] Hc.
  destruct (kalloc_run c s _ Hk Hc) as [Hr Hk']. cbn [hd tail] in *.
  pose proof Hk as (_ & Hn & Ho). apply NoDup_cons in Hn as [Hn _].
  apply Forall_cons in Ho as [Hpo _]. pose proof (page_ok_pos _ Hpo).
  eexists. split; [done|]. split; [lia|]. split; [done|]. split.
  { split; [split; [done|done|]| |done].
    - intros q x Hx. specialize (Hd q x Hx). set_solver.
    - intros va v Hv Hva. destruct (Hown va v Hv Hva) as (? & ? & ?). set_solver. }
  split; [done|]. split; [|split; [done|]].
  - intros [q Hq]. specialize (Hd q p Hq). set_solver.
  - intros va v Hv Hva E. destruct (Hown va v Hv Hva) as (_ & _ & ?). set_solver.
Qed.

Lemma kalloc_empty c s root T L :
  as_inv s [] root T L -> L_kmem ∉ held c -> kalloc c s = Ok 0 c s.
Proof.
  intros [[Hk _ _] _ _] Hc. destruct (kalloc_run c s _ Hk Hc) as [Hr _].
  rewrite Hr. destruct Hk as (Hf & _). cbn in *. destruct s; simpl in *. by subst.
Qed.

(** Growing the tables keeps the ownership of the leaves. *)
Lemma as_inv_grows s s' fl root T L fl' T' u :
  as_inv s fl root T L -> grows T fl T' fl' u -> pt_inv s' fl' root T' L ->
  as_inv s' fl' root T' L.
Proof.
  intros [_ Hown Hinj] G Hpt. split; [done| |done].
  intros va v Hv Hva. destruct (Hown va v Hv Hva) as (Hp & Ht & Hf).
  rewrite (gr_fl _ _ _ _ _ G) in Hf. split; [done|]. split; [|set_solver].
  intros [q Hq]. destruct (gr_new _ _ _ _ _ G _ _ Hq) as [H|H]; [|set_solver].
  apply Ht. by exists q.
Qed.

Lemma as_inv_map s s' fl root T L fl' T' u va pa perm :
  as_inv s fl root T L -> grows T fl T' fl' u ->
  pt_inv s' fl' root T' (<[va := leaf_pte pa perm]> L) ->
  page_ok pa -> leaf_perm perm -> ~ table_page T pa -> pa ∉ fl ->
  (forall va v, L !! va = Some v -> va < TRAPFRAME -> PTE2PA v <> pa) ->
  as_inv s' fl' root T' (<[va := leaf_pte pa perm]> L).
Proof.
  intros [_ Hown Hinj] G Hpt Hpo Hpe Hnt Hnf Hnl.
  destruct (leaf_pte_ok pa perm (page_ok_phys _ Hpo) Hpe) as (_ & _ & _ & Epa & _).
  assert (forall x, ~ table_page T x -> x ∉ fl -> ~ table_page T' x /\ x ∉ fl') as Hstep.
  { intros x Ht Hf. rewrite (gr_fl _ _ _ _ _ G) in Hf. split; [|set_solver].
    intros [q Hq]. destruct (gr_new _ _ _ _ _ G _ _ Hq); [|set_solver].
    apply Ht. by exists q. }
  split; [done| |].
  - intros va' v [[-> <-]|[_ Hv]]%lookup_insert_Some Hva.
    + rewrite Epa. split; [done|]. by apply Hstep.
    + destruct (Hown va' v Hv Hva) as (? & ? & ?). split; [done|]. by apply Hstep.
  - intros va1 v1 va2 v2 H1 H2 Hl1 Hl2 E. apply lookup_insert_Some in H1, H2.
    destruct H1 as [[<- <-]|[N1 H1]], H2 as [[<- <-]|[N2 H2]]; [done|..].
    + rewrite Epa in E. by destruct (Hnl va2 v2 H2 Hl2).
    + rewrite Epa in E. by destruct (Hnl va1 v1 H1 Hl1).
    + by apply (Hinj va1 v1 va2 v2).
Qed.

(** All pages are somewhere: free, in a page table, or mapped. *)
Definition page_count (fl : list Z) (T : gmap (list Z) Z) (L : gmap Z Z) : nat :=
  (length fl + size T + size L)%nat.

(** One turn of the loop of uvmalloc: take a page and map it at [a]. *)
Lemma alloc_one_page c s p fl root T L a perm :
  as_inv s (p :: fl) root T L -> L_kmem ∉ held c ->
  0 <= a -> a + PGSIZE <= MAXVA -> a mod PGSIZE = 0 -> L !! a = None -> leaf_perm perm ->
  exists r s1 s2 T' fl',
    kalloc c s = Ok p c s1 /\ p <> 0 /\ mappages root a PGSIZE p perm c s1 = Ok r c s2 /\
    T ⊆ T' /\ changes_only (fun x => table_page T' x) (pm_mem s) (pm_mem s2) /\
    (forall x, table_page T' x -> table_page T x \/ x ∈ fl) /\ (forall x, x ∈ fl' -> x ∈ fl) /\
    (length fl <= length fl' + 2)%nat /\
    ((r = 0 /\ as_inv s2 fl' root T' (<[a := leaf_pte p perm]> L) /\
      page_count fl' T' (<[a := leaf_pte p perm]> L) = page_count (p :: fl) T L) \/
     (r = -1 /\ fl' = [] /\ exists s3, kfree p c s2 = Ok tt c s3 /\ as_inv s3 [p] root T' L /\
      changes_only (fun x => table_page T' x \/ x = p) (pm_mem s) (pm_mem s3) /\
      page_count [p] T' L = page_count (p :: fl) T L)).
Proof.
  intros Hinv Hc Ha0 Ha Hal HL Hpe.
  destruct (as_inv_take c s p fl root T L Hinv Hc)
    as (s1 & Hk & Hp0 & Em & Hinv1 & Hpo & Hnt & Hnf & Hnl).
  destruct (mappages_one c s1 fl root T L a p perm (ai_pt _ _ _ _ _ Hinv1) Hc Ha0 Ha Hal HL
    (page_ok_phys _ Hpo) Hpe) as (r & s2 & T' & fl' & u & Hm & G & Hch & Hu & Hcase).
  rewrite Em in Hch. exists r, s1, s2, T', fl'.
  assert (size T' + length fl' = size T + length fl)%nat as Esz.
  { pose proof (gr_fl _ _ _ _ _ G) as E. pose proof (gr_size _ _ _ _ _ G).
    apply (f_equal length) in E. rewrite length_app in E. lia. }
  assert (forall x, table_page T' x -> table_page T x \/ x ∈ fl) as Hnew.
  { intros x [q Hq]. destruct (gr_new _ _ _ _ _ G _ _ Hq) as [H|H]; [left; by exists q|].
    right. rewrite (gr_fl _ _ _ _ _ G). set_solver. }
  split_and!; try done; [apply G|intros x Hx; rewrite (gr_fl _ _ _ _ _ G); set_solver| |].
  { rewrite (gr_fl _ _ _ _ _ G), length_app. lia. }
  destruct Hcase as [[-> Hpt]|(-> & Hpt & ->)].
  - left. split; [done|]. split.
    + by apply (as_inv_map s1 _ fl root T L _ _ u).
    + unfold page_count. rewrite map_size_insert_None by done. simpl. lia.
  - right. do 2 (split; [done|]).
    pose proof (as_inv_grows _ _ _ _ _ _ _ _ _ Hinv1 G Hpt) as Hinv2.
    assert (~ table_page T' p) as Hnt' by (intros H; destruct (Hnew p H); done).
    destruct (kfree_pt c s2 [] root T' L p Hpt Hc Hpo Hnt') as (s3 & Hf & Hpt3 & Hc3);
      [apply not_elem_of_nil|].
    exists s3. split; [done|]. split; [|split].
    + split; [done| |apply Hinv2]. intros va v Hv Hva.
      destruct (ai_own _ _ _ _ _ Hinv2 va v Hv Hva) as (? & ? & _).
      split_and!; [done..|]. intros E%list_elem_of_singleton. by apply (Hnl va v).
    + apply (changes_only_trans (table_page T') (fun x => x = p) _ _ (pm_mem s2)); auto.
    + unfold page_count. simpl in *. lia.
Qed.

(** *** The loop of uvmalloc

    [alloc_rel] relates the state in which uvmalloc started to the one after it
    mapped [k] pages from [old] on. *)
Record alloc_rel (root old perm : Z) (s0 : pmem) (fl0 : list Z) (T0 : gmap (list Z) Z)
    (L0 : gmap Z Z) (k : nat) (s : pmem) (fl : list Z) (T : gmap (list Z) Z) (L : gmap Z Z) : Prop := {
  ar_inv : as_inv s fl root T L;
  ar_sub : T0 ⊆ T;
  ar_tab : forall x, table_page T x -> table_page T0 x \/ x ∈ fl0;
  ar_fl : forall x, x ∈ fl -> x ∈ fl0;
  ar_new : forall x, in_range old k x -> exists p, L !! x = Some (leaf_pte p perm) /\ page_ok p /\ p ∈ fl0;
  ar_old : forall x, ~ in_range old k x -> L !! x = L0 !! x;
  ar_none : forall x, in_range old k x -> L0 !! x = None;
  ar_count : page_count fl T L = page_count fl0 T0 L0;
  ar_mem : changes_only (fun x => table_page T0 x \/ x ∈ fl0) (pm_mem s0) (pm_mem s);
}.

Lemma leaf_pages_elem L va n y : y ∈ leaf_pages L va n ->
  exists x, in_range va n x /\ y = PTE2PA (default 0 (L !! x)).
Proof.
  revert va. induction n as [|n IH]; intros va; cbn [leaf_pages]; [by intros ?%elem_of_nil|].
  intros [->|H]%elem_of_cons.
  - exists va. split; [apply in_range_S; by left|done].
  - destruct (IH _ H) as (x & Hx & ->). exists x. split; [apply in_range_S; by right|done].
Qed.

Lemma size_unmap_pages n : forall L va, (forall x, in_range va n x -> is_Some (L !! x)) ->
  (size (unmap_pages L va n) + n = size L)%nat.
Proof.
  induction n as [|n IH]; intros L va H; cbn [unmap_pages]; [lia|].
  destruct (H va) as [v Hv]; [apply in_range_S; by left|].
  specialize (IH (delete va L) (va + PGSIZE)).
  rewrite map_size_delete, Hv in IH.
  assert (size L <> 0)%nat.
  { intros E%map_size_empty_inv. subst. by rewrite lookup_empty in Hv. }
  enough (size (unmap_pages (delete va L) (va + PGSIZE) n) + n = pred (size L))%nat by lia.
  apply IH. intros x Hx. rewrite lookup_delete_ne; [apply H, in_range_S; by right|].
  intros <-. unfold in_range, PGSIZE in Hx. lia.
Qed.

(** The pages of a range that holds all the mappings are the mapped pages. *)
Lemma leaf_pages_leaf_page L va n : va + Z.of_nat n * PGSIZE <= TRAPFRAME ->
  (forall x, is_Some (L !! x) <-> in_range va n x) ->
  forall y, y ∈ leaf_pages L va n <-> leaf_page L y.
Proof.
  intros Hb Hdom y. split.
  - intros (x & Hx & ->)%leaf_pages_elem. destruct (proj2 (Hdom x) Hx) as [v Hv].
    exists x, v. rewrite Hv. split_and!; try done. unfold in_range in Hx. lia.
  - intros (x & v & Hv & _ & <-). assert (in_range va n x) as Hx by (apply Hdom; by exists v).
    clear Hb Hdom. revert va Hx. induction n as [|n IH]; intros va Hx; [unfold in_range in Hx; lia|].
    cbn [leaf_pages]. apply in_range_S in Hx as [->|Hx]; apply elem_of_cons; [left; by rewrite Hv|right; auto].
Qed.

(** The failure path: what was mapped is unmapped and freed again. *)
Lemma alloc_undo root old perm s0 fl0 T0 L0 k c s fl T L :
  alloc_rel root old perm s0 fl0 T0 L0 k s fl T L -> L_kmem ∉ held c -> leaf_perm perm ->
  0 <= old -> old mod PGSIZE = 0 -> old + Z.of_nat k * PGSIZE <= TRAPFRAME ->
  exists r s' fl',
    uvmdealloc root (old + Z.of_nat k * PGSIZE) old c s = Ok r c s' /\
    alloc_rel root old perm s0 fl0 T0 L0 0 s' fl' T L0.
Proof.
  intros A Hc Hpe Hold Hal Hk. destruct (decide (k = 0%nat)) as [->|Hk0].
  { eexists _, s, fl. unfold uvmdealloc. rewrite Z.mul_0_l, Z.add_0_r.
    destruct (Z.leb_spec old old); [|lia]. split; [reflexivity|].
    assert (L = L0) as <-; [|done]. apply map_eq. intros x. apply (ar_old _ _ _ _ _ _ _ _ _ _ _ _ A).
    unfold in_range. lia. }
  rewrite TRAPFRAME_val in Hk.
  assert (PGROUNDUP old = old) as E1 by (apply PGROUNDUP_id; [unfold PGSIZE in *; lia|done]).
  assert (PGROUNDUP (old + Z.of_nat k * PGSIZE) = old + Z.of_nat k * PGSIZE) as E2.
  { apply PGROUNDUP_id; unfold PGSIZE in *; zlia. }
  assert (Z.to_nat ((old + Z.of_nat k * PGSIZE - old) / PGSIZE) = k) as En by (unfold PGSIZE; zlia).
  pose proof (uvmdealloc_run c s fl root T L (old + Z.of_nat k * PGSIZE) old
    (ar_inv _ _ _ _ _ _ _ _ _ _ _ _ A) Hc Hold) as Hrun. cbn zeta in Hrun.
  rewrite E1, E2, En in Hrun. destruct Hrun as (s' & Hr & Hi & Hch).
  { unfold PGSIZE in *; lia. }
  { rewrite TRAPFRAME_val. lia. }
  { intros x Hx. destruct (ar_new _ _ _ _ _ _ _ _ _ _ _ _ A x Hx) as (p & -> & _). done. }
  assert (unmap_pages L old k = L0) as EL.
  { apply map_eq. intros x. rewrite lookup_unmap_pages. case_decide as E.
    - symmetry. by apply (ar_none _ _ _ _ _ _ _ _ _ _ _ _ A).
    - by apply (ar_old _ _ _ _ _ _ _ _ _ _ _ _ A). }
  assert (forall y, y ∈ leaf_pages L old k -> y ∈ fl0) as Hlp.
  { intros y Hy. destruct (leaf_pages_elem _ _ _ _ Hy) as (x & Hx & ->).
    destruct (ar_new _ _ _ _ _ _ _ _ _ _ _ _ A x Hx) as (p & -> & Hpo & Hp). cbn [from_option id].
    by destruct (leaf_pte_ok p perm (page_ok_phys _ Hpo) Hpe) as (_ & _ & _ & -> & _). }
  rewrite EL in Hi. eexists _, s', _. split; [exact Hr|].
  assert (forall x, ~ in_range old 0 x) as Hir by (unfold in_range; lia).
  split; [exact Hi|apply A|apply A| | |done| | |].
  - intros x [Hx%list_elem_of_In|Hx]%elem_of_app; [|by apply A].
    apply Hlp. apply list_elem_of_In. by apply in_rev.
  - intros x Hx. by apply Hir in Hx.
  - intros x Hx. by apply Hir in Hx.
  - rewrite <- (ar_count _ _ _ _ _ _ _ _ _ _ _ _ A). unfold page_count.
    rewrite length_app, length_rev, length_leaf_pages.
    pose proof (size_unmap_pages k L old) as Hsz. rewrite EL in Hsz.
    enough (size L0 + k = size L)%nat by lia. apply Hsz.
    intros x Hx. destruct (ar_new _ _ _ _ _ _ _ _ _ _ _ _ A x Hx) as (p & -> & _). done.
  - apply (changes_only_trans (fun x => table_page T0 x \/ x ∈ fl0)
      (fun x => table_page T x \/ x ∈ leaf_pages L old k) _ _ (pm_mem s)); try done.
    + intros x [Hx|Hx]; [by apply A|right; by apply Hlp].
    + apply A.
Qed.

(** Moving the relation along a step that keeps the leaves. *)
Lemma alloc_rel_same root old perm s0 fl0 T0 L0 k s fl T L s' fl' T' :
  alloc_rel root old perm s0 fl0 T0 L0 k s fl T L -> as_inv s' fl' root T' L -> T ⊆ T' ->
  (forall x, table_page T' x -> table_page T0 x \/ x ∈ fl0) -> (forall x, x ∈ fl' -> x ∈ fl) ->
  page_count fl' T' L = page_count fl T L ->
  changes_only (fun x => table_page T0 x \/ x ∈ fl0) (pm_mem s) (pm_mem s') ->
  alloc_rel root old perm s0 fl0 T0 L0 k s' fl' T' L.
Proof.
  intros A Hi Hs Ht Hf Hn Hch. split; try apply A; try done.
  - etrans; [apply A|done].
  - intros x Hx. by apply A, Hf.
  - rewrite Hn. apply A.
  - apply (changes_only_trans (fun x => table_page T0 x \/ x ∈ fl0)
      (fun x => table_page T0 x \/ x ∈ fl0) _ _ (pm_mem s)); try done. apply A.
Qed.

(** One more page mapped. *)
Lemma alloc_rel_step root old perm s0 fl0 T0 L0 k s p fl T L s' fl' T' :
  let a := old + Z.of_nat k * PGSIZE in
  alloc_rel root old perm s0 fl0 T0 L0 k s (p :: fl) T L -> page_ok p -> p ∈ fl0 -> L0 !! a = None ->
  as_inv s' fl' root T' (<[a := leaf_pte p perm]> L) -> T ⊆ T' ->
  (forall x, table_page T' x -> table_page T0 x \/ x ∈ fl0) -> (forall x, x ∈ fl' -> x ∈ fl) ->
  page_count fl' T' (<[a := leaf_pte p perm]> L) = page_count (p :: fl) T L ->
  changes_only (fun x => table_page T' x) (pm_mem s) (pm_mem s') ->
  alloc_rel root old perm s0 fl0 T0 L0 (S k) s' fl' T' (<[a := leaf_pte p perm]> L).
Proof.
  intros a A Hpo Hp HL0 Hi Hs Ht Hf Hn Hch.
  assert (forall x, in_range old (S k) x <-> x = a \/ in_range old k x) as Hir.
  { intros x. unfold in_range, a, PGSIZE. split.
    - intros [H1 H2]. destruct (decide (x = old + Z.of_nat k * 4096)); [by left|right]. zlia.
    - intros [->|H]; zlia. }
  assert (~ in_range old k a) as Hna by (unfold in_range, a; lia).
  split; try done.
  - etrans; [apply A|done].
  - intros x Hx. apply A. set_solver.
  - intros x [->|Hx]%Hir.
    + exists p. by rewrite lookup_insert_eq.
    + rewrite lookup_insert_ne by (intros <-; done). by apply A.
  - intros x Hx. rewrite lookup_insert_ne; [apply A|]; intros ?; subst; apply Hx, Hir; auto.
  - intros x [->|Hx]%Hir; [done|by apply A].
  - rewrite Hn. apply A.
  - apply (changes_only_trans (fun x => table_page T0 x \/ x ∈ fl0)
      (fun x => table_page T' x) _ _ (pm_mem s)); try done. apply A.
Qed.

Lemma uvmalloc_loop_run n : forall fuel root old xperm s0 fl0 T0 L0 k c s fl T L newsz,
  let perm := Z.lor (Z.lor PTE_R PTE_U) xperm in
  alloc_rel root old perm s0 fl0 T0 L0 k s fl T L -> L_kmem ∉ held c -> leaf_perm perm ->
  0 <= old -> old mod PGSIZE = 0 -> newsz <= TRAPFRAME -> (n <= fuel)%nat ->
  old + (Z.of_nat k + Z.of_nat n - 1) * PGSIZE < newsz <= old + (Z.of_nat k + Z.of_nat n) * PGSIZE \/
  (n = 0%nat /\ newsz <= old + Z.of_nat k * PGSIZE) ->
  (forall x, in_range (old + Z.of_nat k * PGSIZE) n x -> L0 !! x = None) ->
  (length fl0 <= length fl + 3 * k)%nat ->
  exists r s' fl' T' L' k',
    uvmalloc_loop fuel root old (old + Z.of_nat k * PGSIZE) newsz xperm c s = Ok r c s' /\
    alloc_rel root old perm s0 fl0 T0 L0 k' s' fl' T' L' /\
    ((r = newsz /\ k' = (k + n)%nat) \/ (r = 0 /\ k' = 0%nat /\ (length fl0 <= 3 * (k + n))%nat)).
Proof.
  induction n as [|n IH]; intros fuel root old xperm s0 fl0 T0 L0 k c s fl T L newsz perm
    A Hc Hpe Hold Hal Hns Hf Hsz Hnone Hln.
  { exists newsz, s, fl, T, L, k.
    assert (newsz <= old + Z.of_nat k * PGSIZE) as Hle by (unfold PGSIZE in *; lia).
    split; [|split; [done|left; split; [done|lia]]].
    destruct fuel; cbn [uvmalloc_loop];
      destruct (Z.ltb_spec (old + Z.of_nat k * PGSIZE) newsz); done || lia. }
  destruct fuel as [|fuel]; [lia|]. cbn [uvmalloc_loop].
  set (a := old + Z.of_nat k * PGSIZE) in *.
  assert (a < newsz) as Ha by (unfold a, PGSIZE in *; lia).
  destruct (Z.ltb_spec a newsz); [|lia].
  assert (a mod PGSIZE = 0) as Haa by (unfold a, PGSIZE in *; zlia).
  assert (a + PGSIZE <= TRAPFRAME) as Hat by (rewrite TRAPFRAME_val in *; unfold PGSIZE in *; zlia).
  assert (L !! a = None) as HLa.
  { rewrite (ar_old _ _ _ _ _ _ _ _ _ _ _ _ A); [apply Hnone, in_range_S; by left|].
    unfold in_range, a. lia. }
  destruct fl as [|p fl].
  { rewrite (bind_Ok _ _ _ _ _ _ _ (kalloc_empty c s root T L (ar_inv _ _ _ _ _ _ _ _ _ _ _ _ A) Hc)).
    cbn [Z.eqb].
    destruct (alloc_undo _ _ _ _ _ _ _ _ c _ _ _ _ A Hc Hpe Hold Hal) as (r & s' & fl' & Hr & A').
    { unfold a, PGSIZE in *. lia. }
    rewrite (bind_Ok _ _ _ _ _ _ _ Hr). exists 0, s', fl', T, L0, 0%nat.
    split; [done|]. split; [done|]. right. split_and!; [done..|]. simpl in Hln. lia. }
  destruct (alloc_one_page c s p fl root T L a perm (ar_inv _ _ _ _ _ _ _ _ _ _ _ _ A) Hc)
    as (r & s1 & s2 & T' & fl' & Hk & Hp0 & Hm & Hsub & Hch & Htab & Hflx & Hlen & Hcase); try done.
  { unfold a, PGSIZE in *. lia. }
  { rewrite MAXVA_val. rewrite TRAPFRAME_val in Hat. unfold PGSIZE in *. lia. }
  assert (p ∈ fl0) as Hpfl by (apply A; set_solver).
  assert (forall x, table_page T' x -> table_page T0 x \/ x ∈ fl0) as Htab'.
  { intros x [Hx|Hx]%Htab; [by apply A|]. right. apply A. set_solver. }
  assert (page_ok p) as Hpo.
  { pose proof (pi_kmem _ _ _ _ _ (ai_pt _ _ _ _ _ (ar_inv _ _ _ _ _ _ _ _ _ _ _ _ A))) as (_ & _ & Ho).
    by apply Forall_cons in Ho as [? _]. }
  rewrite (bind_Ok _ _ _ _ _ _ _ Hk). destruct (Z.eqb_spec p 0); [done|].
  unfold LAB_SYSCALL. mrun. change (Z.lor (Z.lor PTE_R PTE_U) xperm) with perm.
  rewrite (bind_Ok _ _ _ _ _ _ _ Hm).
  destruct Hcase as [(-> & Hinv & Hcnt)|(-> & -> & s3 & Hkf & Hinv & Hch3 & Hcnt)]; cbn [Z.eqb negb].
  - assert (alloc_rel root old perm s0 fl0 T0 L0 (S k) s2 fl' T' (<[a := leaf_pte p perm]> L)) as A'.
    { apply (alloc_rel_step _ _ _ _ _ _ _ _ s p fl T L); try done. apply Hnone, in_range_S; by left. }
    assert (u64 (a + PGSIZE) = old + Z.of_nat (S k) * PGSIZE) as Ea.
    { rewrite TRAPFRAME_val in Hat. rewrite u64_small; unfold a, PGSIZE in *; lia. }
    rewrite Ea. destruct (IH fuel root old xperm s0 fl0 T0 L0 (S k) c s2 fl' T' _ newsz A')
      as (r & s' & fl2 & T2 & L2 & k2 & Hrun & A2 & Hres); try done;
      try (unfold PGSIZE in *; simpl in *; lia).
    { intros x Hx. apply Hnone, in_range_S. right. unfold a.
      replace (old + Z.of_nat k * PGSIZE + PGSIZE) with (old + Z.of_nat (S k) * PGSIZE) by lia. done. }
    exists r, s', fl2, T2, L2, k2. split_and!; [done..|]. destruct Hres as [[-> ->]|(-> & -> & ?)];
      [left; split; [done|lia]|right; split_and!; [done..|lia]].
  - rewrite (bind_Ok _ _ _ _ _ _ _ Hkf).
    assert (alloc_rel root old perm s0 fl0 T0 L0 k s3 [p] T' L) as A'.
    { apply (alloc_rel_same _ _ _ _ _ _ _ _ s (p :: fl) T L); try done; [set_solver|].
      eapply changes_only_mono; [|exact Hch3]. intros x [Hx| ->]; [by apply Htab'|by right]. }
    destruct (alloc_undo _ _ _ _ _ _ _ _ c _ _ _ _ A' Hc Hpe Hold Hal) as (r & s' & fl2 & Hr & A2).
    { unfold a, PGSIZE in *. lia. }
    fold a in Hr. rewrite (bind_Ok _ _ _ _ _ _ _ Hr). exists 0, s', fl2, T', L0, 0%nat.
    split; [done|]. split; [done|]. right. split_and!; [done..|]. simpl in *. lia.
Qed.

(** C11: uvmalloc.  It grows an address space whose pages from PGROUNDUP(oldsz) to newsz are
    unmapped.  Either it returns newsz, and exactly the pages of that range are mapped, to
    distinct free pages, readable by the user and with the permissions asked for; or it returns
    0 and the mappings are what they were (the pages it had mapped are freed again).  With more
    than three free pages per page to map it cannot fail.  No page is lost, and memory outside
    the page tables and the free pages does not change. *)
Theorem uvmalloc_correct c s fl root T L oldsz newsz xperm :
  let perm := Z.lor (Z.lor PTE_R PTE_U) xperm in
  let lo := PGROUNDUP oldsz in
  let n := Z.to_nat ((newsz - lo + PGSIZE - 1) / PGSIZE) in
  as_inv s fl root T L -> L_kmem ∉ held c -> leaf_perm perm ->
  0 <= oldsz <= newsz -> newsz <= TRAPFRAME ->
  (forall x, in_range lo n x -> L !! x = None) ->
  exists r s' fl' T' L',
    uvmalloc root oldsz newsz xperm c s = Ok r c s' /\ as_inv s' fl' root T' L' /\
    page_count fl' T' L' = page_count fl T L /\
    changes_only (fun x => table_page T x \/ x ∈ fl) (pm_mem s) (pm_mem s') /\
    ((3 * n < length fl)%nat -> r = newsz) /\
    ((r = newsz /\
      forall x, if decide (in_range lo n x)
                then exists p, L' !! x = Some (leaf_pte p perm) /\ p ∈ fl
                else L' !! x = L !! x) \/
     (r = 0 /\ L' = L)).
Proof.
  intros perm lo n Hinv Hc Hpe Ho Hn HL. unfold uvmalloc.
  destruct (Z.ltb_spec newsz oldsz); [lia|].
  assert (0 <= oldsz < 2 ^ 64 - PGSIZE) as Hb by (rewrite TRAPFRAME_val in *; unfold PGSIZE in *; lia).
  pose proof (PGROUNDUP_bounds _ Hb) as Hlo. pose proof (PGROUNDUP_aligned _ Hb) as Hal. fold lo in Hlo, Hal.
  assert (forall x, ~ in_range lo 0 x) as Hir by (unfold in_range; lia).
  assert (alloc_rel root lo perm s fl T L 0 s fl T L) as A.
  { split; try done; intros x Hx; try (by left); by apply Hir in Hx. }
  destruct (uvmalloc_loop_run n n root lo xperm s fl T L 0 c s fl T L newsz A)
    as (r & s' & fl' & T' & L' & k' & Hrun & A' & Hres); try done; try lia.
  { unfold n. unfold PGSIZE in *. zlia. }
  { intros x Hx. apply HL. by rewrite Z.mul_0_l, Z.add_0_r in Hx. }
  rewrite Z.mul_0_l, Z.add_0_r in Hrun. exists r, s', fl', T', L'.
  split; [exact Hrun|]. split; [apply A'|]. split; [apply A'|]. split; [apply A'|].
  destruct Hres as [[-> ->]|(-> & -> & ?)].
  - split; [done|]. left. split; [done|]. intros x. case_decide as E.
    + destruct (ar_new _ _ _ _ _ _ _ _ _ _ _ _ A' x E) as (p & ? & _ & ?). by exists p.
    + by apply A'.
  - split; [lia|]. right. split; [done|]. apply map_eq. intros x. apply A'. apply Hir.
Qed.
End UserMem.
