(* ===== verification/UserFree.v ===== *)
(** Creating and tearing down an address space (kernel/vm.c: uvmcreate,
    freewalk, uvmfree).

    [freed f m x] lists, in the order of the recursion, the pages freewalk hands
    to kfree when it is called on a table of [f] levels at [x].  The lemma
    [freewalk_run] shows that the recursion returns exactly them to the free list;
    [freed_tables] identifies them with the table pages of the representation of
    [PageTable], so that uvmfree is shown to leak nothing. *)
From S2P Require Import Prelude Machine CString Kalloc Vm PageTable UserMem.
Local Open Scope Z_scope.

Fixpoint zseq (i : Z) (n : nat) : list Z :=
  match n with
  | O => []
  | S k => i :: zseq (i + 1) k
  end.

Lemma elem_of_zseq n : forall i j, j ∈ zseq i n <-> i <= j < i + Z.of_nat n.
Proof.
  induction n as [|n IH]; intros i j; cbn [zseq].
  - rewrite elem_of_nil. lia.
  - rewrite elem_of_cons, IH. lia.
Qed.

(** Entries of a page-table page. *)
Definition PTES : nat := Z.to_nat 512.

Lemma PTES_val : Z.of_nat PTES = 512.
Proof. done. Qed.
#[global] Opaque PTES.

Fixpoint freed (f : nat) (m : gmap Z Z) (x : Z) : list Z :=
  match f with
  | O => []
  | S g =>
      concat (map (fun i => let e := load64 m (x + 8 * i) in
                            if has e PTE_V then freed g m (PTE2PA e) else [])
                  (zseq 0 PTES)) ++ [x]
  end.

(** The pages below the entries [i .. i+n) of the table at [x]. *)
Definition below (g : nat) (m : gmap Z Z) (x i : Z) (n : nat) : list Z :=
  concat (map (fun i => let e := load64 m (x + 8 * i) in
                        if has e PTE_V then freed g m (PTE2PA e) else [])
              (zseq i n)).

(** Every valid entry of the table at [x] is a directory entry. *)
Fixpoint no_leaf (f : nat) (m : gmap Z Z) (x : Z) : Prop :=
  match f with
  | O => False
  | S g => forall i, 0 <= i < 512 -> let e := load64 m (x + 8 * i) in
      has e PTE_V = true -> Z.land e RWX = 0 /\ no_leaf g m (PTE2PA e)
  end.

Lemma freed_self f m x : (0 < f)%nat -> x ∈ freed f m x.
Proof. destruct f; [lia|]. intros _. cbn [freed]. apply elem_of_app. right. by apply list_elem_of_singleton. Qed.

Lemma elem_of_below g m x i n y :
  y ∈ below g m x i n <->
  exists j, i <= j < i + Z.of_nat n /\ has (load64 m (x + 8 * j)) PTE_V = true /\
    y ∈ freed g m (PTE2PA (load64 m (x + 8 * j))).
Proof.
  unfold below. rewrite list_elem_of_In, in_concat. split.
  - intros (l & Hl & Hy). apply in_map_iff in Hl as (j & <- & Hj).
    apply list_elem_of_In, elem_of_zseq in Hj. exists j. split; [done|].
    cbv zeta in Hy. destruct (has _ _); [|done]. split; [done|]. by apply list_elem_of_In.
  - intros (j & Hj & HV & Hy). exists (freed g m (PTE2PA (load64 m (x + 8 * j)))).
    split; [|by apply list_elem_of_In]. apply in_map_iff. exists j. cbv zeta. rewrite HV.
    split; [done|]. apply list_elem_of_In, elem_of_zseq. lia.
Qed.

(** Both depend only on the pages they list. *)
Lemma freed_ext f : forall m m' x, no_leaf f m x ->
  (forall y b, y ∈ freed f m x -> y <= b < y + PGSIZE -> mget m' b = mget m b) ->
  freed f m' x = freed f m x /\ no_leaf f m' x.
Proof.
  induction f as [|g IH]; intros m m' x Hnl He; [done|].
  assert (forall i, 0 <= i < 512 -> load64 m' (x + 8 * i) = load64 m (x + 8 * i)) as Hl.
  { intros i Hi. apply load64_ext. intros b Hb. apply (He x).
    - apply freed_self. lia.
    - pose proof (entry_bounds i Hi). lia. }
  assert (forall i, 0 <= i < 512 -> has (load64 m (x + 8 * i)) PTE_V = true ->
    freed g m' (PTE2PA (load64 m (x + 8 * i))) = freed g m (PTE2PA (load64 m (x + 8 * i))) /\
    no_leaf g m' (PTE2PA (load64 m (x + 8 * i)))) as Hs.
  { intros i Hi HV. apply IH; [by apply Hnl|]. intros y b Hy. apply He.
    cbn [freed]. apply elem_of_app. left. apply (elem_of_below g m x 0 PTES). rewrite PTES_val. by exists i. }
  split.
  - cbn [freed]. f_equal. f_equal. apply map_ext_in. intros i Hi%list_elem_of_In%elem_of_zseq.
    rewrite PTES_val in Hi.
    cbv zeta. rewrite Hl by lia. destruct (has _ PTE_V) eqn:E; [|done]. by apply Hs.
  - intros i Hi e HV. subst e. rewrite Hl in * by done. split; [by apply Hnl|]. by apply Hs.
Qed.

Lemma below_S g m x i n :
  below g m x i (S n) =
  (if has (load64 m (x + 8 * i)) PTE_V then freed g m (PTE2PA (load64 m (x + 8 * i))) else []) ++
  below g m x (i + 1) n.
Proof. done. Qed.

(** The entries [i .. i+n) hold no leaves, at any depth. *)
Definition dirs (g : nat) (m : gmap Z Z) (x i : Z) (n : nat) : Prop :=
  forall j, i <= j < i + Z.of_nat n -> has (load64 m (x + 8 * j)) PTE_V = true ->
    Z.land (load64 m (x + 8 * j)) RWX = 0 /\ no_leaf g m (PTE2PA (load64 m (x + 8 * j))).

Lemma below_ext g m m' x i n :
  (forall j, i <= j < i + Z.of_nat n -> load64 m' (x + 8 * j) = load64 m (x + 8 * j)) ->
  dirs g m x i n ->
  (forall y b, y ∈ below g m x i n -> y <= b < y + PGSIZE -> mget m' b = mget m b) ->
  below g m' x i n = below g m x i n /\ dirs g m' x i n.
Proof.
  intros Hl Hnl He.
  assert (forall j, i <= j < i + Z.of_nat n -> has (load64 m (x + 8 * j)) PTE_V = true ->
    freed g m' (PTE2PA (load64 m (x + 8 * j))) = freed g m (PTE2PA (load64 m (x + 8 * j))) /\
    no_leaf g m' (PTE2PA (load64 m (x + 8 * j)))) as Hs.
  { intros j Hj HV. apply freed_ext; [by apply Hnl|]. intros y b Hy. apply He.
    apply elem_of_below. by exists j. }
  split.
  - unfold below. f_equal. apply map_ext_in.
    intros j Hj%list_elem_of_In%elem_of_zseq. cbv zeta. rewrite Hl by lia.
    destruct (has _ PTE_V) eqn:E; [|done]. by apply Hs.
  - intros j Hj HV. rewrite Hl in * by done. split; [by apply Hnl|by apply Hs].
Qed.

Section UserFree.
Context `{KI : KernelImage}.

(** Pages that may be handed to kfree one after the other. *)
Definition freeable (l fl : list Z) : Prop :=
  NoDup l /\ Forall page_ok l /\ (forall y, y ∈ l -> y ∉ fl).

Lemma freeable_app l1 l2 fl : freeable (l1 ++ l2) fl -> freeable l1 fl /\ freeable l2 (rev l1 ++ fl).
Proof.
  intros (Hn & Ho & Hd). apply NoDup_app in Hn as (Hn1 & Hx & Hn2).
  apply Forall_app in Ho as [Ho1 Ho2]. split; (split; [done|split; [done|]]).
  - intros y Hy. apply Hd, elem_of_app. by left.
  - intros y Hy [H%list_elem_of_In%in_rev%list_elem_of_In|H]%elem_of_app; [by apply (Hx y)|].
    apply (Hd y); [apply elem_of_app; by right|done].
Qed.

Lemma kmem_inv_store s fl x i v : kmem_inv s fl -> page_ok x -> x ∉ fl -> 0 <= i < 512 ->
  kmem_inv (PMem (store64 (pm_mem s) (x + 8 * i) v) (freelist s)) fl.
Proof.
  intros Hk Hx Hn Hi. apply kmem_inv_ext; [|done]. intros y b Hy Hb.
  destruct Hk as (_ & _ & Ho). rewrite Forall_forall in Ho.
  pose proof (entry_bounds i Hi). symmetry. apply mget_store64_out.
  destruct (page_ok_apart x y Hx (Ho y Hy)) as [H1|H1]; [by intros ->|lia|lia].
Qed.

Definition frees (g : nat) : Prop := forall c s fl x,
  kmem_inv s fl -> L_kmem ∉ held c -> no_leaf g (pm_mem s) x ->
  freeable (freed g (pm_mem s) x) fl ->
  exists s', freewalk g x c s = Ok tt c s' /\ kmem_inv s' (rev (freed g (pm_mem s) x) ++ fl) /\
    changes_only (fun y => y ∈ freed g (pm_mem s) x) (pm_mem s) (pm_mem s').

Definition freewalk_body (g : nat) (x i : Z) : M pmem unit :=
  pte <-! loadM (x + 8 * i) ;;
  if has pte PTE_V && (Z.land pte (Z.lor (Z.lor PTE_R PTE_W) PTE_X) =? 0) then
    freewalk g (PTE2PA pte) ;;! storeM (x + 8 * i) 0
  else if has pte PTE_V then panic "freewalk: leaf"
  else retM tt.

Lemma freewalk_body_run g c s fl x i n :
  let l := if has (load64 (pm_mem s) (x + 8 * i)) PTE_V
           then freed g (pm_mem s) (PTE2PA (load64 (pm_mem s) (x + 8 * i))) else [] in
  frees g -> kmem_inv s fl -> L_kmem ∉ held c -> 0 <= i < 512 -> page_ok x -> x ∉ fl -> x ∉ l ->
  freeable l fl -> dirs g (pm_mem s) x i (S n) ->
  exists s', freewalk_body g x i c s = Ok tt c s' /\ kmem_inv s' (rev l ++ fl) /\
    changes_only (fun y => y = x \/ y ∈ l) (pm_mem s) (pm_mem s') /\
    (forall j, i < j < 512 -> load64 (pm_mem s') (x + 8 * j) = load64 (pm_mem s) (x + 8 * j)).
Proof.
  intros l HF Hk Hc Hi Hx Hxfl Hxl Hfr Hd. unfold freewalk_body, loadM, storeM. mrun.
  unfold l in *. clear l. set (e := load64 (pm_mem s) (x + 8 * i)) in *.
  destruct (has e PTE_V) eqn:EV; cbn [andb].
  2:{ exists s. by split_and!. }
  destruct (Hd i ltac:(lia) EV) as [HR Hnl]. fold e in HR, Hnl. unfold RWX in HR. rewrite HR.
  cbn [Z.eqb]. destruct (HF c s fl (PTE2PA e) Hk Hc Hnl Hfr) as (s1 & Hr1 & Hk1 & Hc1).
  rewrite (bind_Ok _ _ _ _ _ _ _ Hr1). eexists. split; [reflexivity|].
  pose proof (entry_bounds i Hi) as Hei. cbn [pm_mem].
  assert (forall j, 0 <= j < 512 -> load64 (pm_mem s1) (x + 8 * j) = load64 (pm_mem s) (x + 8 * j)) as Hj.
  { intros j Hj. apply load64_ext. intros b Hb. apply Hc1. intros y Hy.
    destruct Hfr as (_ & Ho & _). rewrite Forall_forall in Ho. pose proof (entry_bounds j Hj).
    unfold outside. destruct (page_ok_apart x y Hx (Ho y Hy)); [by intros ->|lia|lia]. }
  split_and!.
  - apply kmem_inv_store; try done. intros [H%list_elem_of_In%in_rev%list_elem_of_In|H]%elem_of_app; done.
  - intros b Hb. rewrite mget_store64_out.
    + apply Hc1. intros y Hy. apply Hb. by right.
    + destruct (Hb x) as [H|H]; [by left|lia|lia].
  - intros j Hij. rewrite load_store_entry by (done || lia). rewrite decide_False by lia.
    apply Hj. lia.
Qed.

Lemma freewalk_loop g : frees g -> forall n i c s fl x,
  kmem_inv s fl -> L_kmem ∉ held c -> 0 <= i -> i + Z.of_nat n <= 512 -> page_ok x -> x ∉ fl ->
  x ∉ below g (pm_mem s) x i n ->
  dirs g (pm_mem s) x i n -> freeable (below g (pm_mem s) x i n) fl ->
  exists s', forM n i (freewalk_body g x) c s = Ok tt c s' /\
    kmem_inv s' (rev (below g (pm_mem s) x i n) ++ fl) /\
    changes_only (fun y => y = x \/ y ∈ below g (pm_mem s) x i n) (pm_mem s) (pm_mem s').
Proof.
  intros HF. induction n as [|n IH]; intros i c s fl x Hk Hc Hi Hn Hx Hxfl Hxb Hnl Hfr.
  { exists s. by cbn [forM]. }
  cbn [forM]. rewrite below_S in *.
  set (l := if has (load64 (pm_mem s) (x + 8 * i)) PTE_V then _ else _) in *.
  set (bl := below g (pm_mem s) x (i + 1) n) in *.
  apply not_elem_of_app in Hxb as [Hxl Hxb]. pose proof Hfr as (Hnd & Ho & _).
  apply freeable_app in Hfr as [Hf1 Hf2].
  destruct (freewalk_body_run g c s fl x i n HF Hk Hc ltac:(lia) Hx Hxfl Hxl Hf1 Hnl)
    as (s1 & Hr1 & Hk1 & Hc1 & Hl1). fold l in Hk1, Hc1.
  rewrite (bind_Ok _ _ _ _ _ _ _ Hr1).
  assert (forall y, y ∈ bl -> y ∉ x :: l) as Hybl.
  { intros y Hy [->|Hyl]%elem_of_cons; [done|]. apply NoDup_app in Hnd as (_ & H & _). by apply (H y). }
  rewrite Forall_forall in Ho.
  destruct (below_ext g (pm_mem s) (pm_mem s1) x (i + 1) n) as [Eb Hd1].
  { intros j Hj. apply Hl1. lia. }
  { intros j Hj. apply Hnl. lia. }
  { intros y b Hy Hb. apply Hc1. intros z Hz.
    assert (page_ok z) as Hzo by (destruct Hz as [->|Hz]; [done|apply Ho, elem_of_app; by left]).
    assert (page_ok y) as Hyo by (apply Ho, elem_of_app; by right).
    unfold outside. destruct (page_ok_apart y z Hyo Hzo); [|lia|lia].
    intros ->. apply (Hybl z Hy), elem_of_cons. destruct Hz; auto. }
  fold bl in Eb. destruct (IH (i + 1) c s1 (rev l ++ fl) x) as (s2 & Hr2 & Hk2 & Hc2); try done; try lia.
  - intros [H%list_elem_of_In%in_rev%list_elem_of_In|H]%elem_of_app; done.
  - by rewrite Eb.
  - by rewrite Eb.
  - exists s2. rewrite Eb in *. split; [done|]. split.
    + by rewrite rev_app_distr, <- app_assoc.
    + apply (changes_only_trans (fun y => y = x \/ y ∈ l) (fun y => y = x \/ y ∈ bl) _ _ (pm_mem s1));
        try done; intros y [->|Hy]; [by left|right; apply elem_of_app; by left|by left|].
      right. apply elem_of_app. by right.
Qed.

Lemma freewalk_unfold g x c s :
  freewalk (S g) x c s = (forM PTES 0 (freewalk_body g x) ;;! kfree x) c s.
Proof. done. Qed.

Lemma freewalk_run g : frees g.
Proof.
  induction g as [|g IH]; intros c s fl x Hk Hc Hnl Hfr; [done|].
  change (freed (S g) (pm_mem s) x) with (below g (pm_mem s) x 0 PTES ++ [x]) in *.
  set (bl := below g (pm_mem s) x 0 PTES) in *.
  pose proof Hfr as (Hnd & Ho & _). apply freeable_app in Hfr as [Hf1 (_ & Hox & Hxd)].
  apply Forall_cons in Hox as [Hx _].
  assert (x ∉ rev bl ++ fl) as Hxn by (apply Hxd; by apply list_elem_of_singleton).
  apply not_elem_of_app in Hxn as Hxn'. destruct Hxn' as [Hxr Hxfl].
  assert (x ∉ bl) as Hxb.
  { intros H. apply Hxr. apply list_elem_of_In. apply -> in_rev. by apply list_elem_of_In. }
  assert (dirs g (pm_mem s) x 0 PTES) as Hd.
  { intros j Hj HV. rewrite PTES_val in Hj. by apply Hnl. }
  assert (0 + Z.of_nat PTES <= 512) as Hp by (rewrite PTES_val; lia).
  destruct (freewalk_loop g IH PTES 0 c s fl x) as (s1 & Hr1 & Hk1 & Hc1); try done.
  rewrite freewalk_unfold.
  rewrite (bind_Ok _ _ _ _ _ _ _ Hr1). rewrite kfree_run by done.
  eexists. split; [reflexivity|]. split.
  - rewrite rev_app_distr. by apply kfree_inv.
  - intros b Hb. cbn [pm_mem]. rewrite mget_store64_out.
    + apply Hc1. intros y [->|Hy]; apply Hb, elem_of_app; [right; by apply list_elem_of_singleton|by left].
    + destruct (Hb x) as [H|H]; [apply elem_of_app; right; by apply list_elem_of_singleton|lia|].
      unfold PGSIZE in H. lia.
Qed.

(** ** The pages of the recursion are the table pages *)

Lemma NoDup_below g m x : forall n i,
  (forall j, i <= j < i + Z.of_nat n -> has (load64 m (x + 8 * j)) PTE_V = true ->
     NoDup (freed g m (PTE2PA (load64 m (x + 8 * j))))) ->
  (forall j k y, i <= j < i + Z.of_nat n -> i <= k < i + Z.of_nat n ->
     has (load64 m (x + 8 * j)) PTE_V = true -> has (load64 m (x + 8 * k)) PTE_V = true ->
     y ∈ freed g m (PTE2PA (load64 m (x + 8 * j))) ->
     y ∈ freed g m (PTE2PA (load64 m (x + 8 * k))) -> j = k) ->
  NoDup (below g m x i n).
Proof.
  induction n as [|n IH]; intros i Hn Hd; [constructor|]. rewrite below_S. apply NoDup_app. split_and!.
  - destruct (has _ PTE_V) eqn:E; [apply Hn; [lia|done]|constructor].
  - intros y Hy (j & Hj & HV & Hy')%elem_of_below. destruct (has (load64 m (x + 8 * i)) PTE_V) eqn:E.
    + assert (i = j) as <- by (apply (Hd i j y); done || lia). lia.
    + by apply elem_of_nil in Hy.
  - apply IH; [intros j Hj; apply Hn; lia|]. intros j k y Hj Hk. apply Hd; lia.
Qed.

Lemma below_rep m x g (P : Z -> Z -> Prop) :
  (forall j, 0 <= j < 512 ->
    (has (load64 m (x + 8 * j)) PTE_V = false /\ forall y, ~ P j y) \/
    (has (load64 m (x + 8 * j)) PTE_V = true /\ NoDup (freed g m (PTE2PA (load64 m (x + 8 * j)))) /\
     forall y, y ∈ freed g m (PTE2PA (load64 m (x + 8 * j))) <-> P j y)) ->
  (forall j k y, P j y -> P k y -> j = k) ->
  NoDup (below g m x 0 PTES) /\
  forall y, y ∈ below g m x 0 PTES <-> exists j, 0 <= j < 512 /\ P j y.
Proof.
  intros H Hinj.
  assert (forall j, 0 <= j < 0 + Z.of_nat PTES -> has (load64 m (x + 8 * j)) PTE_V = true ->
    NoDup (freed g m (PTE2PA (load64 m (x + 8 * j)))) /\
     forall y, y ∈ freed g m (PTE2PA (load64 m (x + 8 * j))) <-> P j y) as H'.
  { intros j Hj HV. rewrite PTES_val in Hj. destruct (H j Hj) as [[E _]|[_ E]]; [congruence|done]. }
  split.
  - apply NoDup_below; [intros j Hj HV; by apply H'|].
    intros j k y Hj Hk HVj HVk Hy Hy'. apply (Hinj j k y); [by apply (H' j)|by apply (H' k)].
  - intros y. rewrite elem_of_below. split; intros (j & Hj & Hr).
    + rewrite PTES_val in Hj. exists j. split; [done|]. apply H'; [by rewrite PTES_val|apply Hr..].
    + exists j. rewrite PTES_val. split; [done|].
      destruct (H j Hj) as [[_ E]|(HV & _ & E)]; [by apply E in Hr|]. split; [done|by apply E].
Qed.

Lemma pt_rep_prefix m root T L p q z :
  pt_rep m root T L -> T !! (p ++ q) = Some z -> is_Some (T !! p).
Proof.
  intros R. revert z. induction q as [|k q IH] using rev_ind; intros z Hz.
  - rewrite app_nil_r in Hz. by exists z.
  - rewrite app_assoc in Hz. destruct (pr_closed _ _ _ _ R _ _ _ Hz) as [y Hy]. by apply (IH y).
Qed.

Lemma freed_rep m root T : pt_rep m root T ∅ -> forall g p x,
  T !! p = Some x -> (length p + S g = 3)%nat ->
  no_leaf (S g) m x /\ NoDup (freed (S g) m x) /\
  forall y, y ∈ freed (S g) m x <-> exists q, T !! (p ++ q) = Some y.
Proof.
  intros R. induction g as [|g IH]; intros p x Hp Hlen.
  - destruct p as [|i2 [|i1 [|]]]; cbn in Hlen; try lia.
    assert (forall j, 0 <= j < 512 -> has (load64 m (x + 8 * j)) PTE_V = false) as HF.
    { intros j Hj. rewrite (pr_leaf _ _ _ _ R i2 i1) by done. by rewrite lookup_empty. }
    destruct (below_rep m x 0 (fun _ _ => False)) as [_ Hb].
    { intros j Hj. left. split; [by apply HF|tauto]. }
    { done. }
    assert (below 0 m x 0 PTES = []) as E.
    { destruct (below 0 m x 0 PTES) as [|z l]; [done|].
      destruct (Hb z) as [(j & _ & []) _]. apply elem_of_cons. by left. }
    change (freed 1 m x) with (below 0 m x 0 PTES ++ [x]). rewrite E. split_and!.
    + intros j Hj e HV. unfold e in HV. by rewrite HF in HV.
    + apply NoDup_singleton.
    + intros y. rewrite app_nil_l, list_elem_of_singleton. split; [intros ->; exists []; by rewrite app_nil_r|].
      intros [q Hq]. destruct q as [|j q]; [rewrite app_nil_r in Hq; congruence|].
      destruct (pr_page _ _ _ _ R _ _ Hq) as [Hl _]. rewrite length_app in Hl. cbn in Hl. lia.
  - assert (length p < 2)%nat as Hl2 by lia.
    assert (forall j y, 0 <= j < 512 -> T !! (p ++ [j]) = Some y ->
      no_leaf (S g) m y /\ NoDup (freed (S g) m y) /\
      forall z, z ∈ freed (S g) m y <-> exists q, T !! (p ++ j :: q) = Some z) as Hsub.
    { intros j y Hj Hy. destruct (IH _ _ Hy) as (H1 & H2 & H3).
      { rewrite length_app. cbn. lia. }
      split_and!; [done..|]. intros z. rewrite H3. by setoid_rewrite <- app_assoc. }
    destruct (below_rep m x (S g) (fun j z => exists q, T !! (p ++ j :: q) = Some z)) as [Hnd Hb].
    { intros j Hj. pose proof (walk_dir_step m root T ∅ p x j R Hp Hl2 Hj) as Hw.
      destruct (T !! (p ++ [j])) as [y|] eqn:E.
      - right. destruct Hw as [HV ->]. split; [done|]. by destruct (Hsub j y Hj E) as (_ & ? & ?).
      - left. split; [done|]. intros z [q Hq].
        destruct (pt_rep_prefix m root T ∅ (p ++ [j]) q z R) as [? ?]; [|congruence].
        by rewrite <- app_assoc. }
    { intros j k y [q Hq] [q' Hq']. pose proof (pr_inj _ _ _ _ R _ _ _ Hq Hq') as E.
      apply app_inv_head in E. by injection E. }
    change (freed (S (S g)) m x) with (below (S g) m x 0 PTES ++ [x]). split_and!.
    + intros j Hj e HV. pose proof (walk_dir_step m root T ∅ p x j R Hp Hl2 Hj) as Hw.
      fold e in Hw.
      destruct (T !! (p ++ [j])) as [y|] eqn:E; [|congruence]. destruct Hw as [_ Hy]. split.
      * unfold e. rewrite (pr_dir _ _ _ _ R p x j Hp Hl2 Hj), E.
        destruct (pr_page _ _ _ _ R _ _ E) as (_ & _ & Hoy). pose proof (page_ok_pos _ Hoy).
        rewrite land_RWX_flags, PTE_FLAGS_mkpte; [done|lia|apply Hoy|done].
      * rewrite Hy. by apply (Hsub j).
    + apply NoDup_app. split_and!; [done| |apply NoDup_singleton].
      intros y Hy ->%list_elem_of_singleton. apply Hb in Hy as (j & _ & q & Hq).
      pose proof (pr_inj _ _ _ _ R _ _ _ Hp Hq) as E. apply (f_equal length) in E.
      rewrite length_app in E. cbn in E. lia.
    + intros y. rewrite elem_of_app, list_elem_of_singleton, Hb. split.
      * intros [(j & _ & q & Hq)| ->]; [by exists (j :: q)|exists []; by rewrite app_nil_r].
      * intros [[|j q] Hq]; [right; rewrite app_nil_r in Hq; congruence|left].
        exists j. split; [|by exists q]. destruct (pr_page _ _ _ _ R _ _ Hq) as (_ & Hf & _).
        apply Forall_app in Hf as [_ Hf]. by apply Forall_cons in Hf as [? _].
Qed.

Lemma freed_tables m root T : pt_rep m root T ∅ ->
  no_leaf 3 m root /\ NoDup (freed 3 m root) /\ forall y, y ∈ freed 3 m root <-> table_page T y.
Proof. intros R. by apply (freed_rep m root T R 2 [] root (pr_root _ _ _ _ R)). Qed.

Lemma uvmfree_run c s fl root T L sz :
  let n := Z.to_nat (PGROUNDUP sz / PGSIZE) in
  as_inv s fl root T L -> L_kmem ∉ held c -> 0 <= sz <= TRAPFRAME ->
  (forall va, is_Some (L !! va) <-> in_range 0 n va) ->
  exists s' fl',
    uvmfree root sz c s = Ok tt c s' /\ kmem_inv s' fl' /\
    (forall x, x ∈ fl' <-> x ∈ fl \/ table_page T x \/ leaf_page L x) /\
    changes_only (fun x => table_page T x \/ leaf_page L x) (pm_mem s) (pm_mem s').
Proof.
  intros n Hinv Hc Hsz Hdom.
  assert (0 <= sz < 2 ^ 64 - PGSIZE) as Hb by (rewrite TRAPFRAME_val in *; unfold PGSIZE in *; lia).
  pose proof (PGROUNDUP_bounds _ Hb) as Hr. pose proof (PGROUNDUP_aligned _ Hb) as Hal.
  assert (PGROUNDUP sz <= TRAPFRAME) as Hrt by (rewrite TRAPFRAME_val in *; unfold PGSIZE in *; zlia).
  assert (Z.of_nat n = PGROUNDUP sz / PGSIZE) as En by (unfold n, PGSIZE in *; zlia).
  destruct (uvmunmap_free_run n c s fl root T L 0 Hinv Hc) as (s1 & Hr1 & Hi1 & Hc1);
    [lia|done|unfold PGSIZE in *; zlia|by intros; apply Hdom|].
  assert (unmap_pages L 0 n = ∅) as EL.
  { apply map_eq. intros va. rewrite lookup_unmap_pages, lookup_empty. case_decide as E; [done|].
    destruct (L !! va) as [v|] eqn:Ev; [|done]. destruct E. apply Hdom. by exists v. }
  rewrite EL in Hi1. destruct (freed_tables _ _ _ (pi_rep _ _ _ _ _ (ai_pt _ _ _ _ _ Hi1))) as (Hnl & Hnd & Hel).
  destruct (freewalk_run 3 c s1 _ root (pi_kmem _ _ _ _ _ (ai_pt _ _ _ _ _ Hi1)) Hc Hnl)
    as (s2 & Hr2 & Hk2 & Hc2).
  { split; [done|]. split.
    - apply Forall_forall. intros y [q Hq]%Hel.
      by destruct (pr_page _ _ _ _ (pi_rep _ _ _ _ _ (ai_pt _ _ _ _ _ Hi1)) _ _ Hq) as (_ & _ & ?).
    - intros y [q Hq]%Hel. by apply (pi_disj _ _ _ _ _ (ai_pt _ _ _ _ _ Hi1) q). }
  assert (forall x, x ∈ leaf_pages L 0 n <-> leaf_page L x) as Hlp by
    (apply leaf_pages_leaf_page; [unfold PGSIZE in *; zlia|done]).
  eexists s2, _. split; [|split; [exact Hk2|split]].
  - unfold uvmfree. rewrite <- En. destruct (Z.ltb_spec 0 sz).
    + rewrite (bind_Ok _ _ _ _ _ _ _ Hr1). exact Hr2.
    + assert (n = 0%nat) as En0 by (unfold PGSIZE in *; zlia). rewrite En0 in Hr1. mrun.
      cbn in Hr1. injection Hr1 as <-. exact Hr2.
  - intros x. rewrite !elem_of_app, !list_elem_of_In, <- !in_rev, <- !list_elem_of_In, Hlp, Hel. tauto.
  - apply (changes_only_trans (fun x => table_page T x \/ x ∈ leaf_pages L 0 n)
      (fun y => y ∈ freed 3 (pm_mem s1) root) _ _ (pm_mem s1)); try done.
    + intros x. rewrite Hlp. auto.
    + intros x. rewrite Hel. auto.
Qed.

(** C12: uvmfree gives back everything an address space owns: called on a page table that maps
    exactly the pages of [0, sz), it frees each of those pages and each page of the table, once,
    and nothing else: the free list afterwards holds the pages it held before, the pages the
    table mapped and the pages of the table. *)
Theorem uvmfree_correct c s fl root T L sz :
  let n := Z.to_nat (PGROUNDUP sz / PGSIZE) in
  as_inv s fl root T L -> L_kmem ∉ held c -> 0 <= sz <= TRAPFRAME ->
  (forall va, is_Some (L !! va) <-> in_range 0 n va) ->
  exists s' fl',
    uvmfree root sz c s = Ok tt c s' /\ kmem_inv s' fl' /\
    (forall x, x ∈ fl' <-> x ∈ fl \/ table_page T x \/ leaf_page L x) /\
    changes_only (fun x => table_page T x \/ leaf_page L x) (pm_mem s) (pm_mem s').
Proof. apply uvmfree_run. Qed.

Lemma empty_table m p : page_ok p -> (forall i, 0 <= i < 512 -> load64 m (p + 8 * i) = 0) ->
  pt_rep m p {[ [] := p ]} ∅.
Proof.
  intros Hp Hz. split.
  - by rewrite lookup_singleton_eq.
  - intros q x [<- <-]%lookup_singleton_Some. split_and!; [cbn; lia|constructor|done].
  - by intros q q' x [<- <-]%lookup_singleton_Some [<- _]%lookup_singleton_Some.
  - intros q i x [E _]%lookup_singleton_Some. by destruct q.
  - intros q x i [<- <-]%lookup_singleton_Some _ Hi. rewrite Hz by done. by rewrite lookup_singleton_ne.
  - by intros i2 i1 x i0 [E _]%lookup_singleton_Some.
  - intros va v Hv. by rewrite lookup_empty in Hv.
  - intros va v Hv. by rewrite lookup_empty in Hv.
Qed.

(** uvmcreate returns 0 when there is no memory, and otherwise a page of its own that
    represents the empty page table. *)
Theorem uvmcreate_correct c s fl : kmem_inv s fl -> L_kmem ∉ held c ->
  match fl with
  | [] => uvmcreate c s = Ok 0 c s
  | p :: fl' => exists s', uvmcreate c s = Ok p c s' /\ p <> 0 /\
      as_inv s' fl' p {[ [] := p ]} ∅ /\ changes_only (fun x => x = p) (pm_mem s) (pm_mem s')
  end.
Proof.
  intros Hk Hc. destruct (kalloc_run c s fl Hk Hc) as [Hr Hk']. unfold uvmcreate.
  destruct fl as [|p fl]; cbn [hd tail] in *.
  { rewrite (bind_Ok _ _ _ _ _ _ _ Hr). destruct Hk as [Hf _]. cbn in Hf. mrun. destruct s. cbn in *. by subst. }
  destruct Hk as (_ & Hnd & Ho). apply Forall_cons in Ho as [Hp Ho]. apply NoDup_cons in Hnd as [Hn _].
  pose proof (page_ok_pos _ Hp). rewrite (bind_Ok _ _ _ _ _ _ _ Hr).
  destruct (Z.eqb_spec p 0); [lia|]. unfold memsetM. mrun. eexists. split; [reflexivity|]. split; [done|].
  assert (forall b, (b < p \/ p + PGSIZE <= b) ->
    mget (memset (pm_mem s) p 0 PGSIZE) b = mget (pm_mem s) b) as Hout.
  { intros b Hb. rewrite memset_get by done.
    destruct ((p <=? b) && (b <? p + PGSIZE)) eqn:E; [|done]. lia. }
  split.
  - split; [split| |intros va v va' v' Hv; by rewrite lookup_empty in Hv].
    + apply (kmem_inv_ext (PMem (pm_mem s) (hd 0 fl))); [|done]. intros x b Hx Hb. symmetry. apply Hout.
      rewrite Forall_forall in Ho. destruct (page_ok_apart p x Hp (Ho x Hx)); [by intros ->|lia|lia].
    + apply empty_table; [done|]. intros i Hi. cbn [pm_mem].
      rewrite load_memset_entry by done. by rewrite decide_True.
    + by intros q x [_ <-]%lookup_singleton_Some.
    + intros va v Hv. by rewrite lookup_empty in Hv.
  - intros b Hb. apply Hout. by apply Hb.
Qed.
End UserFree.
