(* ===== verification/UserCopy.v ===== *)
(** Copying between the kernel and user memory (kernel/vm.c: walkaddr, copyout,
    copyin, copyinstr).

    The reference definitions below move one byte at a time through a
    translation [tr] of user addresses; the loops of vm.c move what lies in one
    page at a time.  The theorems show that the two agree on every input: result
    code, bytes moved, and what is left behind when the copy stops half way. *)
From S2P Require Import Prelude Machine CString Kalloc Vm PageTable UserMem.
Local Open Scope Z_scope.

(** ** Byte-wise reference definitions *)

(** Where the byte at user address [va] lives, if the user may access it, with
    all of the permissions [perm]. *)
Definition uaddr (perm : Z) (L : gmap Z Z) (va : Z) : option Z :=
  if va <? MAXVA then
    match L !! PGROUNDDOWN va with
    | Some v => if (Z.land v perm =? perm) then Some (PTE2PA v + va mod PGSIZE) else None
    | None => None
    end
  else None.

(** Reads [n] bytes; [false] when an address did not translate. *)
Fixpoint read_user (m : gmap Z Z) (tr : Z -> option Z) (va : Z) (n : nat) : bool * list Z :=
  match n with
  | O => (true, [])
  | S k =>
      match tr va with
      | None => (false, [])
      | Some a => let '(ok, bs) := read_user m tr (va + 1) k in (ok, mget m a :: bs)
      end
  end.

Fixpoint write_user (m : gmap Z Z) (tr : Z -> option Z) (va : Z) (bs : list Z) : bool * gmap Z Z :=
  match bs with
  | [] => (true, m)
  | b :: bs' =>
      match tr va with
      | None => (false, m)
      | Some a => write_user (mset m a b) tr (va + 1) bs'
      end
  end.

(** Reads up to and including a NUL, at most [n] bytes; [true] when it met one. *)
Fixpoint str_user (m : gmap Z Z) (tr : Z -> option Z) (va : Z) (n : nat) : bool * list Z :=
  match n with
  | O => (false, [])
  | S k =>
      match tr va with
      | None => (false, [])
      | Some a =>
          if mget m a =? 0 then (true, [0])
          else let '(got, bs) := str_user m tr (va + 1) k in (got, mget m a :: bs)
      end
  end.

(** ** Their behaviour on a run of addresses that translate in a row *)

Definition straight (tr : Z -> option Z) (va a : Z) (n : nat) : Prop :=
  forall i, 0 <= i < Z.of_nat n -> tr (va + i) = Some (a + i).

Lemma straight_S tr va a n : straight tr va a (S n) ->
  tr va = Some a /\ straight tr (va + 1) (a + 1) n.
Proof.
  intros H. split.
  - specialize (H 0 ltac:(lia)). by rewrite !Z.add_0_r in H.
  - intros i Hi. specialize (H (i + 1) ltac:(lia)).
    replace (va + 1 + i) with (va + (i + 1)) by lia. rewrite H. f_equal. lia.
Qed.

Lemma bytes_of_S m a n : bytes_of m a (S n) = mget m a :: bytes_of m (a + 1) n.
Proof.
  unfold bytes_of. cbn [seq map]. rewrite Z.add_0_r. f_equal.
  rewrite <- seq_shift, map_map. apply map_ext. intros i. f_equal. lia.
Qed.

Lemma read_user_straight m tr n : forall va a k, straight tr va a n ->
  read_user m tr va (n + k) =
  let '(ok, bs) := read_user m tr (va + Z.of_nat n) k in (ok, bytes_of m a n ++ bs).
Proof.
  induction n as [|n IH]; intros va a k H.
  - cbn. rewrite Z.add_0_r. by destruct (read_user m tr va k).
  - apply straight_S in H as [E H]. cbn [read_user Nat.add]. rewrite E, (IH _ (a + 1)) by done.
    replace (va + 1 + Z.of_nat n) with (va + Z.of_nat (S n)) by lia.
    destruct (read_user m tr (va + Z.of_nat (S n)) k). by rewrite bytes_of_S.
Qed.

Lemma write_user_straight tr bs : forall m va a bs', straight tr va a (length bs) ->
  write_user m tr va (bs ++ bs') =
  write_user (put_bytes m a bs) tr (va + Z.of_nat (length bs)) bs'.
Proof.
  induction bs as [|b bs IH]; intros m va a bs' H.
  - cbn. by rewrite Z.add_0_r.
  - apply straight_S in H as [E H]. cbn [write_user app put_bytes length]. rewrite E, (IH _ _ (a + 1)) by done.
    by replace (va + 1 + Z.of_nat (length bs)) with (va + Z.of_nat (S (length bs))) by lia.
Qed.

Lemma str_user_straight m tr n : forall va a k, straight tr va a n ->
  str_user m tr va (n + k) =
  let '(got, bs) := copyinstr_page n m a in
  if got then (true, bs)
  else let '(got', bs') := str_user m tr (va + Z.of_nat n) k in (got', bs ++ bs').
Proof.
  induction n as [|n IH]; intros va a k H.
  - cbn. rewrite Z.add_0_r. by destruct (str_user m tr va k).
  - apply straight_S in H as [E H]. cbn [str_user Nat.add copyinstr_page]. rewrite E.
    destruct (mget m a =? 0); [done|]. rewrite (IH _ (a + 1)) by done.
    replace (va + 1 + Z.of_nat n) with (va + Z.of_nat (S n)) by lia.
    destruct (copyinstr_page n m (a + 1)) as [[] bs]; [done|].
    by destruct (str_user m tr (va + Z.of_nat (S n)) k).
Qed.

Lemma read_user_none m tr va n : tr va = None -> (0 < n)%nat -> read_user m tr va n = (false, []).
Proof. intros E Hn. destruct n; [lia|]. cbn. by rewrite E. Qed.

Lemma str_user_none m tr va n : tr va = None -> str_user m tr va n = (false, []).
Proof. intros E. destruct n; [done|]. cbn. by rewrite E. Qed.

(** ** Reading back *)

Lemma write_user_frame tr bs : forall m va x,
  (forall j, 0 <= j < Z.of_nat (length bs) -> tr (va + j) <> Some x) ->
  mget (snd (write_user m tr va bs)) x = mget m x.
Proof.
  induction bs as [|b bs IH]; intros m va x H; cbn [write_user]; [done|].
  destruct (tr va) as [a|] eqn:E; [|done]. rewrite IH.
  - apply mget_mset_ne. intros ->. apply (H 0); [cbn; lia|]. by rewrite Z.add_0_r.
  - intros j Hj. replace (va + 1 + j) with (va + (j + 1)) by lia. apply H. cbn. lia.
Qed.

Lemma write_read_user tr tr' bs : forall m va,
  (forall x y a, va <= x -> va <= y -> tr x = Some a -> tr y = Some a -> x = y) ->
  (forall x a, va <= x -> tr x = Some a -> tr' x = Some a) ->
  fst (write_user m tr va bs) = true ->
  read_user (snd (write_user m tr va bs)) tr' va (length bs) = (true, map u8 bs).
Proof.
  induction bs as [|b bs IH]; intros m va Hinj Hsub; cbn [write_user]; [done|].
  destruct (tr va) as [a|] eqn:E; [|done]. intros Hok. cbn [length read_user].
  rewrite (Hsub va a) by (done || lia). rewrite IH; [|intros x y z ? ?; apply Hinj; lia|intros x z ?; apply Hsub; lia|done].
  rewrite write_user_frame.
  - by rewrite mget_mset_eq.
  - intros j Hj Hx. assert (va = va + 1 + j); [|lia]. apply (Hinj _ _ a); done || lia.
Qed.

(** ** Translation is page-wise *)

Lemma page_split va : 0 <= va ->
  PGROUNDDOWN va = va - va mod PGSIZE /\ 0 <= va mod PGSIZE < PGSIZE /\
  PGROUNDDOWN va mod PGSIZE = 0 /\ 0 <= PGROUNDDOWN va.
Proof. intros H. rewrite PGROUNDDOWN_spec. unfold PGSIZE. zlia. Qed.

Lemma same_page va i : 0 <= va -> 0 <= i < PGSIZE - va mod PGSIZE ->
  PGROUNDDOWN (va + i) = PGROUNDDOWN va /\ (va + i) mod PGSIZE = va mod PGSIZE + i /\
  (va + i <? MAXVA) = (PGROUNDDOWN va <? MAXVA).
Proof.
  intros H Hi. rewrite !PGROUNDDOWN_spec, MAXVA_val. unfold PGSIZE in *.
  change (2 ^ 38) with 274877906944. split_and!; zlia.
Qed.

Lemma uaddr_page perm L va n : 0 <= va -> Z.of_nat n <= PGSIZE - va mod PGSIZE ->
  match uaddr perm L (PGROUNDDOWN va) with
  | Some pa => straight (uaddr perm L) va (pa + (va - PGROUNDDOWN va)) n
  | None => (0 < n)%nat -> uaddr perm L va = None
  end.
Proof.
  intros H Hn. destruct (page_split va H) as (E & Hr & Ha & H0). unfold straight, uaddr.
  rewrite (PGROUNDDOWN_spec (PGROUNDDOWN va)), Ha, Z.sub_0_r. destruct (PGROUNDDOWN va <? MAXVA) eqn:EM.
  - destruct (L !! PGROUNDDOWN va) as [v|] eqn:Ev; [destruct (_ =? _) eqn:Ep|].
    + intros i Hi. destruct (same_page va i H ltac:(lia)) as (F0 & F1 & F2).
      rewrite F0, F1, F2, EM, Ev, Ep. f_equal. lia.
    + intros _. destruct (same_page va 0 H ltac:(lia)) as (_ & _ & F2).
      rewrite Z.add_0_r in F2. by rewrite F2, EM.
    + intros _. destruct (same_page va 0 H ltac:(lia)) as (_ & _ & F2).
      rewrite Z.add_0_r in F2. by rewrite F2, EM.
  - intros _. destruct (same_page va 0 H ltac:(lia)) as (_ & _ & F2).
    rewrite Z.add_0_r in F2. by rewrite F2, EM.
Qed.

Lemma has_all v k : 0 <= k -> (Z.land v (Z.shiftl 1 k) =? Z.shiftl 1 k) = has v (Z.shiftl 1 k).
Proof.
  intros Hk. rewrite has_testbit by done. destruct (Z.eqb_spec (Z.land v (Z.shiftl 1 k)) (Z.shiftl 1 k)) as [E|E].
  - apply (f_equal (fun x => Z.testbit x k)) in E. rewrite Z.land_spec, Z.shiftl_1_l, Z.pow2_bits_true in E by lia.
    by rewrite andb_true_r in E.
  - destruct (Z.testbit v k) eqn:Et; [|done]. destruct E. rewrite Z.shiftl_1_l. apply Z.bits_inj'. intros n Hn.
    rewrite Z.land_spec. destruct (decide (n = k)) as [->|Hne]; [rewrite Et, Z.pow2_bits_true by lia; done|].
    rewrite Z.pow2_bits_false by lia. apply andb_false_r.
Qed.

Lemma has_both v a b : 0 <= a -> 0 <= b ->
  (Z.land v (Z.lor (Z.shiftl 1 a) (Z.shiftl 1 b)) =? Z.lor (Z.shiftl 1 a) (Z.shiftl 1 b)) =
  has v (Z.shiftl 1 a) && has v (Z.shiftl 1 b).
Proof.
  intros Ha Hb. rewrite !has_testbit by done. rewrite !Z.shiftl_1_l.
  destruct (Z.eqb_spec (Z.land v (Z.lor (2 ^ a) (2 ^ b))) (Z.lor (2 ^ a) (2 ^ b))) as [E|E].
  - pose proof (f_equal (fun x => Z.testbit x a) E) as Ea. pose proof (f_equal (fun x => Z.testbit x b) E) as Eb.
    cbv beta in Ea, Eb. rewrite Z.land_spec, Z.lor_spec, Z.pow2_bits_true in Ea, Eb by lia.
    rewrite orb_true_r in Eb. cbn in *. rewrite andb_true_r in Ea, Eb. by rewrite Ea, Eb.
  - destruct (Z.testbit v a) eqn:Ta, (Z.testbit v b) eqn:Tb; try done. destruct E.
    apply Z.bits_inj'. intros n Hn. rewrite Z.land_spec, Z.lor_spec.
    destruct (decide (n = a)) as [->|Hna]; [rewrite Ta; done|].
    destruct (decide (n = b)) as [->|Hnb]; [rewrite Tb; done|].
    rewrite !Z.pow2_bits_false by lia. apply andb_false_r.
Qed.

Section UserCopy.
Context `{KI : KernelImage}.

(** The pages a user may access are its own: the trampoline and the trap frame
    are mapped without PTE_U. *)
Definition user_own (L : gmap Z Z) : Prop :=
  forall va v, L !! va = Some v -> has v PTE_U = true -> va < TRAPFRAME.

Lemma load_entry m root T L va : pt_rep m root T L -> 0 <= va < MAXVA -> va mod PGSIZE = 0 ->
  (entry_addr T va = 0 /\ L !! va = None) \/
  (entry_addr T va <> 0 /\ load64 m (entry_addr T va) = default 0 (L !! va)).
Proof.
  intros R Hva Hal. destruct (L !! va) as [v|] eqn:E.
  - destruct (entry_mapped _ _ _ _ _ _ R Hva E) as (x & _ & Ea & Hn & _ & Hl). right.
    split; [done|]. by rewrite Ea.
  - unfold entry_addr. destruct (T !! [PX 2 va; PX 1 va]) as [x|] eqn:Ex; [|by left].
    right. split; [|rewrite (leaf_load _ _ _ _ _ _ R Hva Hal Ex); by rewrite E].
    destruct (pr_page _ _ _ _ R _ _ Ex) as (_ & _ & Ho). pose proof (page_ok_pos _ Ho).
    pose proof (PX_range 0 va ltac:(lia)). lia.
Qed.

Lemma walkaddr_run c s root T L va : pt_rep (pm_mem s) root T L -> 0 <= va -> va mod PGSIZE = 0 ->
  walkaddr root va c s = Ok (default 0 (uaddr PTE_U L va)) c s.
Proof.
  intros R H0 Hal. unfold walkaddr, uaddr.
  destruct (Z.leb_spec MAXVA va), (Z.ltb_spec va MAXVA); try lia; [done|].
  assert (PGROUNDDOWN va = va) as Ed by (rewrite PGROUNDDOWN_spec; lia). rewrite Ed, Hal.
  rewrite (bind_Ok _ _ _ _ _ _ _ (walk_noalloc _ _ _ _ c s va eq_refl R ltac:(lia))).
  destruct (load_entry _ _ _ _ va R ltac:(lia) Hal) as [(-> & ->)|(Hn & Hl)]; [done|].
  destruct (Z.eqb_spec (entry_addr T va) 0); [done|]. unfold loadM. mrun. rewrite Hl.
  destruct (L !! va) as [v|] eqn:Ev; cbn [from_option id]; [|done].
  destruct (pr_valid _ _ _ _ R _ _ Ev) as (-> & _). unfold PTE_U. rewrite has_all by lia. cbn [negb].
  destruct (has v _); cbn; by rewrite ?Z.add_0_r.
Qed.

(** Where a user byte lives: in a page of the process. *)
Lemma uaddr_own s fl root T L perm va a : as_inv s fl root T L -> user_own L ->
  Z.land perm PTE_U = PTE_U -> 0 <= va -> uaddr perm L va = Some a ->
  exists v, L !! PGROUNDDOWN va = Some v /\ a = PTE2PA v + va mod PGSIZE /\
    page_ok (PTE2PA v) /\ ~ table_page T (PTE2PA v) /\ (PTE2PA v ∉ fl).
Proof.
  intros Hi Hu Hp H0. unfold uaddr. destruct (va <? MAXVA); [|done].
  destruct (L !! PGROUNDDOWN va) as [v|] eqn:Ev; [|done].
  destruct (Z.eqb_spec (Z.land v perm) perm) as [Ep|]; [|done]. intros [= <-].
  exists v. split_and!; try done; apply (ai_own _ _ _ _ _ Hi _ _ Ev), (Hu _ _ Ev);
    unfold PTE_U in *; rewrite <- has_all by lia; rewrite <- Hp, Z.land_assoc, Ep; apply Z.eqb_refl.
Qed.

(** The next turn starts where this one ended, unless it was the last one. *)
Lemma next_page va len : 0 <= va < MAXVA -> 0 < len ->
  let n := Z.min (PGSIZE - (va - PGROUNDDOWN va)) len in
  0 < n <= len /\ n <= PGSIZE - va mod PGSIZE /\
  (len - n = 0 \/ u64 (PGROUNDDOWN va + PGSIZE) = va + n).
Proof.
  intros H Hl n. destruct (page_split va) as (E & Hr & _ & _); [lia|].
  unfold n. clear n. rewrite E. rewrite MAXVA_val in H. split; [lia|]. split; [lia|].
  destruct (Z.le_gt_cases len (PGSIZE - va mod PGSIZE)); [left; lia|right].
  rewrite u64_small; unfold PGSIZE in *; lia.
Qed.

Lemma uaddr_pos s fl root T L perm va a : as_inv s fl root T L -> user_own L ->
  Z.land perm PTE_U = PTE_U -> 0 <= va -> uaddr perm L va = Some a -> 0 < a /\ va < MAXVA.
Proof.
  intros Hi Hu Hp H0 Ha. split; [|unfold uaddr in Ha; by destruct (Z.ltb_spec va MAXVA)].
  destruct (uaddr_own _ _ _ _ _ _ _ _ Hi Hu Hp H0 Ha) as (v & _ & -> & Ho & _).
  pose proof (page_ok_pos _ Ho). destruct (page_split va H0) as (_ & ? & _). lia.
Qed.

Lemma PGROUNDDOWN_MAXVA va : 0 <= va -> PGROUNDDOWN va < MAXVA -> va < MAXVA.
Proof. rewrite PGROUNDDOWN_spec, MAXVA_val. unfold PGSIZE. zlia. Qed.

Lemma copyin_loop_run fuel : forall c s fl root T L va len acc,
  as_inv s fl root T L -> user_own L -> 0 <= va -> len <= Z.of_nat fuel ->
  copyin_loop fuel root va len acc c s =
  let '(ok, bs) := read_user (pm_mem s) (uaddr PTE_U L) va (Z.to_nat len) in
  Ok (if ok then 0 else -1, acc ++ bs) c s.
Proof.
  induction fuel as [|fuel IH]; intros c s fl root T L va len acc Hi Hu Hva Hf; cbn [copyin_loop];
    destruct (Z.leb_spec len 0);
    try (replace (Z.to_nat len) with 0%nat by lia; cbn; by rewrite app_nil_r); [lia|].
  destruct (page_split va Hva) as (E & Hr & Ha0 & H0).
  rewrite (bind_Ok _ _ _ _ _ _ _ (walkaddr_run c s root T L _ (pi_rep _ _ _ _ _ (ai_pt _ _ _ _ _ Hi)) H0 Ha0)).
  set (n := Z.min (PGSIZE - (va - PGROUNDDOWN va)) len) in *.
  pose proof (uaddr_page PTE_U L va (Z.to_nat n) Hva ltac:(lia)) as Hp.
  destruct (uaddr PTE_U L (PGROUNDDOWN va)) as [pa|] eqn:Eu; cbn [from_option id].
  - destruct (uaddr_pos s fl root T L PTE_U _ _ Hi Hu eq_refl H0 Eu) as [Hpa HM].
    apply PGROUNDDOWN_MAXVA in HM; [|done].
    destruct (next_page va len ltac:(lia) ltac:(lia)) as (Hn & _ & Hnext). fold n in Hn, Hnext.
    destruct (Z.eqb_spec pa 0); [lia|]. mrun.
    replace (Z.to_nat len) with (Z.to_nat n + Z.to_nat (len - n))%nat by lia.
    rewrite (read_user_straight _ _ _ _ _ _ Hp).
    assert (forall k, (let '(ok, bs) := read_user (pm_mem s) (uaddr PTE_U L) k (Z.to_nat (len - n)) in
        Ok (if ok then 0 else -1, (acc ++ bytes_of (pm_mem s) (pa + (va - PGROUNDDOWN va)) (Z.to_nat n)) ++ bs) c s) =
      (let '(ok, bs) := let '(ok, bs) := read_user (pm_mem s) (uaddr PTE_U L) k (Z.to_nat (len - n)) in
        (ok, bytes_of (pm_mem s) (pa + (va - PGROUNDDOWN va)) (Z.to_nat n) ++ bs) in
        Ok (if ok then 0 else -1, acc ++ bs) c s)) as Hassoc.
    { intros k. destruct (read_user _ _ k _). by rewrite app_assoc. }
    rewrite <- Hassoc. rewrite (IH c s fl root T L); try done; try lia; [|apply u64_range].
    destruct Hnext as [->|Hnext]; [done|]. rewrite Hnext. by rewrite Z2Nat.id by lia.
  - cbn [Z.eqb]. rewrite read_user_none by (apply Hp || idtac; lia). cbn. by rewrite app_nil_r.
Qed.

(** copyin.  On every source address and length, copyin behaves as reading the user bytes one
    by one through the page table: it returns 0 and all the bytes when every address is mapped
    for the user, and otherwise -1, having stored the bytes before the first page it could not
    read.  The state does not change. *)
Theorem copyin_correct c s fl root T L srcva len :
  as_inv s fl root T L -> user_own L -> 0 <= srcva ->
  copyin root srcva len c s =
  let '(ok, bs) := read_user (pm_mem s) (uaddr PTE_U L) srcva (Z.to_nat len) in
  Ok (if ok then 0 else -1, bs) c s.
Proof. intros. unfold copyin. apply (copyin_loop_run _ c s fl root T L); try done. lia. Qed.

Lemma copyinstr_loop_run fuel : forall c s fl root T L va max acc,
  as_inv s fl root T L -> user_own L -> 0 <= va -> max <= Z.of_nat fuel ->
  copyinstr_loop fuel root va max acc c s =
  let '(got, bs) := str_user (pm_mem s) (uaddr PTE_U L) va (Z.to_nat max) in
  Ok (if got then 0 else -1, acc ++ bs) c s.
Proof.
  induction fuel as [|fuel IH]; intros c s fl root T L va len acc Hi Hu Hva Hf; cbn [copyinstr_loop];
    destruct (Z.leb_spec len 0);
    try (replace (Z.to_nat len) with 0%nat by lia; cbn; by rewrite app_nil_r); [lia|].
  destruct (page_split va Hva) as (E & Hr & Ha0 & H0).
  rewrite (bind_Ok _ _ _ _ _ _ _ (walkaddr_run c s root T L _ (pi_rep _ _ _ _ _ (ai_pt _ _ _ _ _ Hi)) H0 Ha0)).
  set (n := Z.min (PGSIZE - (va - PGROUNDDOWN va)) len) in *.
  pose proof (uaddr_page PTE_U L va (Z.to_nat n) Hva ltac:(lia)) as Hp.
  destruct (uaddr PTE_U L (PGROUNDDOWN va)) as [pa|] eqn:Eu; cbn [from_option id].
  - destruct (uaddr_pos s fl root T L PTE_U _ _ Hi Hu eq_refl H0 Eu) as [Hpa HM].
    apply PGROUNDDOWN_MAXVA in HM; [|done].
    destruct (next_page va len ltac:(lia) ltac:(lia)) as (Hn & _ & Hnext). fold n in Hn, Hnext.
    destruct (Z.eqb_spec pa 0); [lia|]. mrun.
    replace (Z.to_nat len) with (Z.to_nat n + Z.to_nat (len - n))%nat by lia.
    rewrite (str_user_straight _ _ _ _ _ _ Hp).
    destruct (copyinstr_page (Z.to_nat n) (pm_mem s) (pa + (va - PGROUNDDOWN va))) as [[] bs];
      cbn [fst snd]; [done|].
    rewrite (IH c s fl root T L); try done; try lia; [|apply u64_range].
    destruct Hnext as [->|Hnext]; [change (Z.to_nat 0) with 0%nat; cbn [str_user]; by rewrite app_assoc|].
    rewrite Hnext, Z2Nat.id by lia. destruct (str_user _ _ (va + n) _). by rewrite app_assoc.
  - cbn [Z.eqb]. rewrite str_user_none by (apply Hp; lia). cbn. by rewrite app_nil_r.
Qed.

(** copyinstr.  On every source address and bound, copyinstr behaves as reading the user bytes
    one by one until a NUL: it returns 0 and the string with its NUL when it meets one among
    the first max bytes before an address that is not mapped for the user, and -1 otherwise. *)
Theorem copyinstr_correct c s fl root T L srcva max :
  as_inv s fl root T L -> user_own L -> 0 <= srcva ->
  copyinstr root srcva max c s =
  let '(got, bs) := str_user (pm_mem s) (uaddr PTE_U L) srcva (Z.to_nat max) in
  Ok (if got then 0 else -1, bs) c s.
Proof. intros. unfold copyinstr. apply (copyinstr_loop_run _ c s fl root T L); try done. lia. Qed.

(** Writing to a page of the process leaves the allocator and the tables alone. *)
Lemma as_inv_put s fl root T L v o bs : as_inv s fl root T L ->
  page_ok (PTE2PA v) -> ~ table_page T (PTE2PA v) -> PTE2PA v ∉ fl ->
  0 <= o -> o + Z.of_nat (length bs) <= PGSIZE ->
  as_inv (PMem (put_bytes (pm_mem s) (PTE2PA v + o) bs) (freelist s)) fl root T L.
Proof.
  intros [[Hk R Hd] Hown Hinj] Hp Ht Hf Ho Hb.
  assert (forall x b, page_ok x -> x <> PTE2PA v -> x <= b < x + PGSIZE ->
    mget (pm_mem s) b = mget (put_bytes (pm_mem s) (PTE2PA v + o) bs) b) as Hm.
  { intros x b Hx Hne Hbx. symmetry. apply mget_put_bytes_out.
    destruct (page_ok_apart x (PTE2PA v) Hx Hp Hne); lia. }
  split; [split|done|done].
  - apply kmem_inv_ext; [|done]. intros x b Hx. destruct Hk as (_ & _ & Hall).
    rewrite Forall_forall in Hall. apply Hm; [by apply Hall|by intros ->].
  - apply (pt_rep_ext (pm_mem s)); [|done]. intros q x b Hx. apply Hm; [by apply (pr_page _ _ _ _ R q)|].
    intros ->. apply Ht. by exists q.
  - done.
Qed.

Definition PTE_WU : Z := Z.lor PTE_W PTE_U.

Lemma uaddr_WU L va : uaddr PTE_WU L va =
  match L !! PGROUNDDOWN va with
  | Some v => if has v PTE_W then uaddr PTE_U L va else None
  | None => None
  end.
Proof.
  unfold uaddr, PTE_WU, PTE_W, PTE_U. destruct (va <? MAXVA); destruct (L !! PGROUNDDOWN va) as [v|]; try done.
  - rewrite has_both, has_all by lia. by destruct (has v (Z.shiftl 1 2)).
  - by destruct (has v _).
Qed.

Lemma uaddr_WU_page L va : 0 <= va ->
  uaddr PTE_WU L va = option_map (fun pa => pa + (va - PGROUNDDOWN va)) (uaddr PTE_WU L (PGROUNDDOWN va)).
Proof.
  intros H. destruct (page_split va H) as (_ & Hr & _).
  pose proof (uaddr_page PTE_WU L va 1 H ltac:(lia)) as Hp.
  destruct (uaddr PTE_WU L (PGROUNDDOWN va)) as [pa|]; cbn [option_map]; [|apply Hp; lia].
  specialize (Hp 0 ltac:(lia)). by rewrite !Z.add_0_r in Hp.
Qed.

(** One turn of the loop. *)
Lemma copyout_turn fuel c s fl root T L va src :
  let n := Z.to_nat (Z.min (PGSIZE - (va - PGROUNDDOWN va)) (Z.of_nat (length src))) in
  as_inv s fl root T L -> user_own L -> 0 <= va -> src <> [] ->
  copyout_loop (S fuel) root va src c s =
  match uaddr PTE_WU L va with
  | None => Ok (-1) c s
  | Some a => copyout_loop fuel root (u64 (PGROUNDDOWN va + PGSIZE)) (drop n src) c
                (PMem (put_bytes (pm_mem s) a (take n src)) (freelist s))
  end.
Proof.
  intros n Hi Hu Hva Hne. destruct src as [|b0 src0]; [done|]. cbn [copyout_loop].
  set (src := b0 :: src0) in *. clearbody src. fold n.
  destruct (page_split va Hva) as (E & Hr & Ha0 & H0).
  pose proof (pi_rep _ _ _ _ _ (ai_pt _ _ _ _ _ Hi)) as R.
  rewrite uaddr_WU_page by done. rewrite uaddr_WU, (PGROUNDDOWN_spec (PGROUNDDOWN va)), Ha0, Z.sub_0_r.
  destruct (Z.leb_spec MAXVA (PGROUNDDOWN va)).
  { unfold uaddr. destruct (Z.ltb_spec (PGROUNDDOWN va) MAXVA); [lia|].
    destruct (L !! PGROUNDDOWN va) as [v|]; [|done]. by destruct (has v PTE_W). }
  rewrite (bind_Ok _ _ _ _ _ _ _ (walk_noalloc _ _ _ _ c s (PGROUNDDOWN va) eq_refl R (conj H0 H))).
  destruct (load_entry _ _ _ _ _ R (conj H0 H) Ha0) as [(-> & ->)|(Hnz & Hl)]; [done|].
  destruct (Z.eqb_spec (entry_addr T (PGROUNDDOWN va)) 0); [done|]. unfold loadM. mrun. rewrite Hl.
  destruct (L !! PGROUNDDOWN va) as [v|] eqn:EL; cbn [from_option id]; [|done].
  destruct (has v PTE_W) eqn:EW; cbn [negb]; [|done].
  rewrite (bind_Ok _ _ _ _ _ _ _ (walkaddr_run c s root T L _ R H0 Ha0)).
  destruct (uaddr PTE_U L (PGROUNDDOWN va)) as [pa|] eqn:Eu; cbn [from_option id option_map]; [|done].
  destruct (uaddr_pos s fl root T L PTE_U _ _ Hi Hu eq_refl H0 Eu) as [Hpa _].
  destruct (Z.eqb_spec pa 0); [lia|]. mrun. done.
Qed.

Lemma copyout_loop_run fuel : forall c s fl root T L va src,
  as_inv s fl root T L -> user_own L -> 0 <= va -> (length src <= fuel)%nat ->
  let w := write_user (pm_mem s) (uaddr PTE_WU L) va src in
  copyout_loop fuel root va src c s = Ok (if fst w then 0 else -1) c (PMem (snd w) (freelist s)) /\
  as_inv (PMem (snd w) (freelist s)) fl root T L.
Proof.
  induction fuel as [|fuel IH]; intros c s fl root T L va src Hi Hu Hva Hf.
  { destruct src; [|cbn in Hf; lia]. by destruct s. }
  destruct (decide (src = [])) as [->|Hne]; [by destruct s|].
  assert (0 < length src)%nat as Hlen by (destruct src; [done|cbn; lia]).
  rewrite (copyout_turn fuel c s fl root T L va src Hi Hu Hva Hne). cbv zeta.
  set (n := Z.min (PGSIZE - (va - PGROUNDDOWN va)) (Z.of_nat (length src))) in *.
  destruct (uaddr PTE_WU L va) as [a|] eqn:Ea.
  2:{ destruct src; [done|]. cbn [write_user]. rewrite Ea. by destruct s. }
  destruct (uaddr_pos s fl root T L PTE_WU _ _ Hi Hu eq_refl Hva Ea) as [_ HM].
  destruct (next_page va (Z.of_nat (length src)) ltac:(lia) ltac:(lia)) as (Hn & Hn2 & Hnext). fold n in Hn, Hn2, Hnext.
  assert (length (take (Z.to_nat n) src) = Z.to_nat n) as Etk by (rewrite length_take; lia).
  assert (straight (uaddr PTE_WU L) va a (length (take (Z.to_nat n) src))) as Hst.
  { rewrite Etk. pose proof (uaddr_page PTE_WU L va (Z.to_nat n) Hva ltac:(lia)) as Hp.
    rewrite uaddr_WU_page in Ea by done. destruct (uaddr PTE_WU L (PGROUNDDOWN va)); [|done].
    cbn in Ea. by injection Ea as <-. }
  destruct (uaddr_own s fl root T L PTE_WU _ _ Hi Hu eq_refl Hva Ea) as (v & Ev & -> & Ho & Ht & Hnf).
  destruct (page_split va Hva) as (_ & Hr & _).
  pose proof (as_inv_put _ _ _ _ _ v (va mod PGSIZE) (take (Z.to_nat n) src) Hi Ho Ht Hnf ltac:(lia) ltac:(lia)) as Hi'.
  assert (write_user (pm_mem s) (uaddr PTE_WU L) va src =
    write_user (put_bytes (pm_mem s) (PTE2PA v + va mod PGSIZE) (take (Z.to_nat n) src)) (uaddr PTE_WU L)
      (u64 (PGROUNDDOWN va + PGSIZE)) (drop (Z.to_nat n) src)) as ->.
  { rewrite <- (take_drop (Z.to_nat n) src) at 1. rewrite (write_user_straight _ _ _ _ _ _ Hst), Etk.
    destruct Hnext as [Hz|Hnext].
    - rewrite (drop_ge src) by lia. done.
    - rewrite Hnext. by rewrite Z2Nat.id by lia. }
  apply (IH c _ fl root T L _ _ Hi' Hu (proj1 (u64_range _))). rewrite length_drop. lia.
Qed.

(** copyout.  On every destination and source, copyout behaves as storing the bytes one by one
    through the page table, at addresses mapped writable for the user: it returns 0 when all
    of them are, and otherwise -1, with the bytes before the first page it could not write
    stored.  The page tables and the free list stay intact. *)
Theorem copyout_correct c s fl root T L dstva src :
  as_inv s fl root T L -> user_own L -> 0 <= dstva ->
  let w := write_user (pm_mem s) (uaddr PTE_WU L) dstva src in
  copyout root dstva src c s = Ok (if fst w then 0 else -1) c (PMem (snd w) (freelist s)) /\
  as_inv (PMem (snd w) (freelist s)) fl root T L.
Proof. intros. by apply copyout_loop_run. Qed.

Lemma uaddr_inj s fl root T L perm : as_inv s fl root T L -> user_own L -> Z.land perm PTE_U = PTE_U ->
  forall x y a, 0 <= x -> 0 <= y -> uaddr perm L x = Some a -> uaddr perm L y = Some a -> x = y.
Proof.
  intros Hi Hu Hp x y a Hx Hy Ex Ey.
  destruct (page_split x Hx) as (Dx & Rx & _), (page_split y Hy) as (Dy & Ry & _).
  destruct (uaddr_own s fl root T L perm _ _ Hi Hu Hp Hx Ex) as (v & Ev & -> & [Ho _] & _).
  destruct (uaddr_own s fl root T L perm _ _ Hi Hu Hp Hy Ey) as (w & Ew & E & [Ho' _] & _).
  assert (PTE2PA v = PTE2PA w /\ x mod PGSIZE = y mod PGSIZE) as [Epa Eo] by (unfold PGSIZE in *; zlia).
  assert (forall z q, L !! PGROUNDDOWN z = Some q -> uaddr perm L z <> None -> PGROUNDDOWN z < TRAPFRAME) as Hown.
  { intros z q Hz. unfold uaddr. rewrite Hz. destruct (_ <? _); [|done].
    destruct (Z.eqb_spec (Z.land q perm) perm) as [Ep|]; [|done]. intros _. apply (Hu _ _ Hz).
    unfold PTE_U in *. rewrite <- has_all by lia. rewrite <- Hp, Z.land_assoc, Ep. apply Z.eqb_refl. }
  assert (PGROUNDDOWN x = PGROUNDDOWN y); [|lia].
  apply (ai_inj _ _ _ _ _ Hi _ v _ w); try done; [apply (Hown x v)|apply (Hown y w)]; congruence.
Qed.

(** C24: what copyout stored, copyin reads back: after a copyout that returned 0, copyin of as
    many bytes from the same user address returns 0 and the same bytes; and copyout changes no
    other byte of memory. *)
Theorem copyout_copyin_roundtrip c s fl root T L va src s' :
  as_inv s fl root T L -> user_own L -> 0 <= va -> copyout root va src c s = Ok 0 c s' ->
  copyin root va (Z.of_nat (length src)) c s' = Ok (0, map u8 src) c s' /\
  forall x, (forall i, 0 <= i < Z.of_nat (length src) -> uaddr PTE_WU L (va + i) <> Some x) ->
    mget (pm_mem s') x = mget (pm_mem s) x.
Proof.
  intros Hi Hu Hva Hout. destruct (copyout_loop_run (length src) c s fl root T L va src Hi Hu Hva ltac:(lia)) as [E Hi'].
  unfold copyout in Hout. rewrite E in Hout. destruct (fst _) eqn:Ew in Hout; [|done]. injection Hout as <-. split.
  - unfold copyin. rewrite (copyin_loop_run (Z.to_nat (Z.of_nat (length src))) c _ fl root T L va (Z.of_nat (length src)) [] Hi' Hu Hva ltac:(lia)), Nat2Z.id. cbn [pm_mem].
    rewrite write_read_user; [done| |intros x a _|done].
    + intros x y a Hx Hy. apply (uaddr_inj s fl root T L PTE_WU Hi Hu eq_refl); lia.
    + rewrite uaddr_WU. destruct (L !! _) as [v|]; [|done]. by destruct (has v PTE_W).
  - intros x Hx. by apply write_user_frame.
Qed.
End UserCopy.
