(* ===== verification/UserFork.v ===== *)
(** Copying an address space: uvmcopy() of kernel/vm.c, which fork() calls.

    Two page tables live in one memory: the parent's, which only is read, and the child's, which
    grows at the cost of the free list. *)
From S2P Require Import Prelude Machine CString Kalloc Vm PageTable UserMem.
Local Open Scope Z_scope.

Section UserFork.
Context `{KI : KernelImage}.

Lemma PTE_FLAGS_range v : 0 <= PTE_FLAGS v < 1024.
Proof.
  unfold PTE_FLAGS. change 0x3FF with (Z.ones 10). rewrite Z.land_ones by lia. change 1024 with (2 ^ 10). by apply Z.mod_pos_bound.
Qed.

Lemma PTE2PA_copied p v : page_ok p -> PTE2PA (leaf_pte p (PTE_FLAGS v)) = p.
Proof.
  intros Hp. rewrite leaf_pte_mkpte, PTE2PA_mkpte; [done|by apply page_ok_phys..|]. apply lor_small; [apply PTE_FLAGS_range|done].
Qed.

(** A byte of a page that does not change. *)
Lemma unchanged_byte (P : Z -> Prop) m m' p o : changes_only P m m' -> page_ok p -> 0 <= o < PGSIZE ->
  (forall x, P x -> page_ok x /\ x <> p) -> mget m' (p + o) = mget m (p + o).
Proof.
  intros Hch Hp Ho HP. apply Hch. intros x Hx. destruct (HP x Hx) as [Hx1 Hx2].
  destruct (page_ok_apart x p Hx1 Hp Hx2); unfold outside; lia.
Qed.

(** An address space whose tables are not touched, while the free list shrinks. *)
Lemma as_inv_frame s s' fl fl' root T L (P : Z -> Prop) :
  as_inv s fl root T L -> kmem_inv s' fl' -> (forall x, x ∈ fl' -> x ∈ fl) ->
  changes_only P (pm_mem s) (pm_mem s') -> (forall x, P x -> page_ok x /\ ~ table_page T x) ->
  as_inv s' fl' root T L.
Proof.
  intros [[Hk R Hd] Hown Hinj] Hk' Hfl Hch HP. split; [split; [done| |]| |done].
  - apply (pt_rep_ext (pm_mem s)); [|done]. intros q x b Hx Hb. symmetry. apply Hch. intros y Hy.
    destruct (HP y Hy) as [Hy1 Hy2]. destruct (pr_page _ _ _ _ R _ _ Hx) as (_ & _ & Hox).
    destruct (page_ok_apart y x Hy1 Hox); [|unfold outside; lia..]. intros ->. apply Hy2. by exists q.
  - intros q x Hx Hin. by apply (Hd q x Hx), Hfl.
  - intros va v Hv Hva. destruct (Hown va v Hv Hva) as (? & ? & Hn). split; [done|]. split; [done|]. intros Hin. by apply Hn, Hfl.
Qed.

(** [copy_rel] relates the state in which uvmcopy started to the one after it copied [k] pages of the
    parent's [Lo] to the child. *)
Record copy_rel (Lo : gmap Z Z) (new : Z) (s0 : pmem) (fl0 : list Z) (T0 : gmap (list Z) Z) (L0 : gmap Z Z)
    (k : nat) (s : pmem) (fl : list Z) (T : gmap (list Z) Z) (L : gmap Z Z) : Prop := {
  cr_inv : as_inv s fl new T L;
  cr_tab : forall x, table_page T x -> table_page T0 x \/ x ∈ fl0;
  cr_fl : forall x, x ∈ fl -> x ∈ fl0;
  cr_new : forall x, in_range 0 k x -> exists v p, Lo !! x = Some v /\ L !! x = Some (leaf_pte p (PTE_FLAGS v)) /\ page_ok p /\ p ∈ fl0 /\
    forall o, 0 <= o < PGSIZE -> mget (pm_mem s) (p + o) = mget (pm_mem s0) (PTE2PA v + o);
  cr_old : forall x, ~ in_range 0 k x -> L !! x = L0 !! x;
  cr_none : forall x, in_range 0 k x -> L0 !! x = None;
  cr_count : page_count fl T L = page_count fl0 T0 L0;
  cr_mem : changes_only (fun x => table_page T0 x \/ x ∈ fl0) (pm_mem s0) (pm_mem s);
}.

Section Copy.
(** The parent and the child as uvmcopy finds them. *)
Context (s0 : pmem) (fl0 : list Z) (old new : Z) (To T0 : gmap (list Z) Z) (Lo L0 : gmap Z Z).
Hypothesis Ho : as_inv s0 fl0 old To Lo.
Hypothesis Hn : as_inv s0 fl0 new T0 L0.
Hypothesis Hdisj : forall x, table_page T0 x -> ~ table_page To x /\ ~ leaf_page Lo x.

Lemma taken_ok x : table_page T0 x \/ x ∈ fl0 -> page_ok x /\ ~ table_page To x /\ ~ leaf_page Lo x.
Proof using Hn Hdisj Ho.
  intros [Hx|Hx].
  - destruct (Hdisj x Hx). destruct Hx as [q Hq]. split; [|done].
    by destruct (pr_page _ _ _ _ (pi_rep _ _ _ _ _ (ai_pt _ _ _ _ _ Hn)) _ _ Hq) as (_ & _ & ?).
  - pose proof (pi_kmem _ _ _ _ _ (ai_pt _ _ _ _ _ Ho)) as (_ & _ & Hok). rewrite Forall_forall in Hok. split; [by apply Hok|]. split.
    + intros [q Hq]. by apply (pi_disj _ _ _ _ _ (ai_pt _ _ _ _ _ Ho) q x).
    + intros (va & v & Hv & Hva & <-). by destruct (ai_own _ _ _ _ _ Ho va v Hv Hva) as (_ & _ & ?).
Qed.

(** The parent is as it was. *)
Lemma parent_keeps k s fl T L : copy_rel Lo new s0 fl0 T0 L0 k s fl T L -> as_inv s fl old To Lo.
Proof using Hn Hdisj Ho.
  intros A. apply (as_inv_frame s0 s fl0 fl old To Lo (fun x => table_page T0 x \/ x ∈ fl0)); try apply A; [done|].
  intros x Hx. by destruct (taken_ok x Hx) as (? & ? & _).
Qed.

Lemma parent_byte k s fl T L va v o : copy_rel Lo new s0 fl0 T0 L0 k s fl T L -> Lo !! va = Some v -> va < TRAPFRAME ->
  0 <= o < PGSIZE -> mget (pm_mem s) (PTE2PA v + o) = mget (pm_mem s0) (PTE2PA v + o).
Proof using Hn Hdisj Ho.
  intros A Hv Hva Hr. apply (unchanged_byte _ _ _ _ _ (cr_mem _ _ _ _ _ _ _ _ _ _ _ A)); [by apply (ai_own _ _ _ _ _ Ho va v)|done|].
  intros x Hx. destruct (taken_ok x Hx) as (Hpo & _ & Hl). split; [done|]. intros ->. apply Hl. by exists va, v.
Qed.

(** The failure path: the pages copied so far are freed again. *)
Lemma copy_undo k c s fl T L : copy_rel Lo new s0 fl0 T0 L0 k s fl T L -> L_kmem ∉ held c -> Z.of_nat k * PGSIZE <= TRAPFRAME ->
  exists s' fl', uvmunmap new 0 (Z.of_nat k) true c s = Ok tt c s' /\ copy_rel Lo new s0 fl0 T0 L0 0 s' fl' T L0.
Proof using Ho.
  intros A Hc Hk.
  destruct (uvmunmap_free_run k c s fl new T L 0 (cr_inv _ _ _ _ _ _ _ _ _ _ _ A) Hc) as (s' & Hr & Hi & Hch); try lia.
  { done. }
  { intros x Hx. destruct (cr_new _ _ _ _ _ _ _ _ _ _ _ A x Hx) as (v & p & _ & -> & _). done. }
  assert (unmap_pages L 0 k = L0) as EL.
  { apply map_eq. intros x. rewrite lookup_unmap_pages. case_decide as E.
    - symmetry. by apply (cr_none _ _ _ _ _ _ _ _ _ _ _ A). - by apply (cr_old _ _ _ _ _ _ _ _ _ _ _ A). }
  assert (forall y, y ∈ leaf_pages L 0 k -> y ∈ fl0) as Hlp.
  { intros y Hy. destruct (leaf_pages_elem _ _ _ _ Hy) as (x & Hx & ->).
    destruct (cr_new _ _ _ _ _ _ _ _ _ _ _ A x Hx) as (v & p & Hv & -> & Hpo & Hp & _). cbn [from_option id].
    by rewrite PTE2PA_copied. }
  rewrite EL in Hi. assert (forall x, ~ in_range 0 0 x) as Hir by (unfold in_range; lia).
  eexists s', _. split; [exact Hr|]. split; [exact Hi|apply A| | |done| | |].
  - intros x [Hx%list_elem_of_In|Hx]%elem_of_app; [|by apply A]. apply Hlp. apply list_elem_of_In. by apply in_rev.
  - intros x Hx. by apply Hir in Hx.
  - intros x Hx. by apply Hir in Hx.
  - rewrite <- (cr_count _ _ _ _ _ _ _ _ _ _ _ A). unfold page_count. rewrite length_app, length_rev, length_leaf_pages.
    pose proof (size_unmap_pages k L 0) as Hsz. rewrite EL in Hsz. enough (size L0 + k = size L)%nat by lia. apply Hsz.
    intros x Hx. destruct (cr_new _ _ _ _ _ _ _ _ _ _ _ A x Hx) as (v & p & _ & -> & _). done.
  - apply (changes_only_trans (fun x => table_page T0 x \/ x ∈ fl0)
      (fun x => table_page T x \/ x ∈ leaf_pages L 0 k) _ _ (pm_mem s)); try done.
    + intros x [Hx|Hx]; [by apply A|right; by apply Hlp].
    + apply A.
Qed.

(** The permissions of a mapped page, as uvmcopy passes them on. *)
Lemma flags_perm va v : Lo !! va = Some v -> leaf_perm (PTE_FLAGS v).
Proof using Ho.
  intros Hv. destruct (pr_valid _ _ _ _ (pi_rep _ _ _ _ _ (ai_pt _ _ _ _ _ Ho)) _ _ Hv) as (_ & HR & _). split.
  - apply PTE_FLAGS_range.
  - by rewrite <- land_RWX_flags.
Qed.

(** The page that was taken is filled with the parent's. *)
Lemma copy_fill k c s p fl T L v : let a := Z.of_nat k * PGSIZE in
  copy_rel Lo new s0 fl0 T0 L0 k s (p :: fl) T L -> L_kmem ∉ held c -> a < TRAPFRAME -> Lo !! a = Some v ->
  exists s1 s2, kalloc c s = Ok p c s1 /\ p <> 0 /\ memmoveM p (PTE2PA v) PGSIZE c s1 = Ok tt c s2 /\
    as_inv s2 fl new T L /\ page_ok p /\ ~ table_page T p /\ (p ∉ fl) /\ (forall va v, L !! va = Some v -> va < TRAPFRAME -> PTE2PA v <> p) /\
    (forall o, 0 <= o < PGSIZE -> mget (pm_mem s2) (p + o) = mget (pm_mem s0) (PTE2PA v + o)) /\
    changes_only (fun x => x = p) (pm_mem s) (pm_mem s2).
Proof using Hn Hdisj Ho.
  intros a A Hc Ha Hv.
  destruct (as_inv_take c s p fl new T L (cr_inv _ _ _ _ _ _ _ _ _ _ _ A) Hc) as (s1 & Hk & Hp0 & Em & Hi1 & Hpo & Hnt & Hnf & Hnl).
  exists s1, (PMem (memmove (pm_mem s1) p (PTE2PA v) PGSIZE) (freelist s1)).
  assert (changes_only (fun x => x = p) (pm_mem s1) (memmove (pm_mem s1) p (PTE2PA v) PGSIZE)) as Hch.
  { intros b Hb. apply (memmove_correct (pm_mem s1) p (PTE2PA v) PGSIZE 0 b); [unfold PGSIZE; lia|]. destruct (Hb p eq_refl); lia. }
  split; [done|]. split; [done|]. split; [reflexivity|]. split; [|split; [done|split; [done|split; [done|split; [done|split]]]]].
  - apply (as_inv_frame s1 _ fl fl new T L (fun x => x = p)); try done; [|intros x ->; by split].
    apply (kmem_inv_ext s1); [|apply Hi1]. intros z b Hz Hb. symmetry. apply Hch. intros x ->.
    pose proof (pi_kmem _ _ _ _ _ (ai_pt _ _ _ _ _ Hi1)) as (_ & _ & Hok). rewrite Forall_forall in Hok.
    destruct (page_ok_apart p z Hpo (Hok z Hz)); [by intros ->|unfold outside, PGSIZE in *; lia..].
  - intros o Hr. cbn [pm_mem]. rewrite (proj1 (memmove_correct (pm_mem s1) p (PTE2PA v) PGSIZE o 0 ltac:(unfold PGSIZE; lia))) by done.
    rewrite Em. by apply (parent_byte k s (p :: fl) T L a v o A).
  - cbn [pm_mem]. by rewrite <- Em.
Qed.

Lemma in_range_0S k x : in_range 0 (S k) x <-> x = Z.of_nat k * PGSIZE \/ in_range 0 k x.
Proof.
  unfold in_range, PGSIZE. split.
  - intros [H1 H2]. destruct (decide (x = Z.of_nat k * 4096)); [by left|right]. zlia.
  - intros [->|H]; zlia.
Qed.

(** One more page mapped. *)
Lemma copy_rel_step k s p fl T L v s2 s3 fl' T' : let a := Z.of_nat k * PGSIZE in
  copy_rel Lo new s0 fl0 T0 L0 k s (p :: fl) T L -> page_ok p -> Lo !! a = Some v -> a < TRAPFRAME -> L0 !! a = None ->
  (forall o, 0 <= o < PGSIZE -> mget (pm_mem s2) (p + o) = mget (pm_mem s0) (PTE2PA v + o)) ->
  changes_only (fun x => x = p) (pm_mem s) (pm_mem s2) ->
  as_inv s3 fl' new T' (<[a := leaf_pte p (PTE_FLAGS v)]> L) ->
  (forall x, table_page T' x -> table_page T x \/ x ∈ fl) -> (forall x, x ∈ fl' -> x ∈ fl) ->
  page_count fl' T' (<[a := leaf_pte p (PTE_FLAGS v)]> L) = page_count (p :: fl) T L ->
  changes_only (table_page T') (pm_mem s2) (pm_mem s3) ->
  copy_rel Lo new s0 fl0 T0 L0 (S k) s3 fl' T' (<[a := leaf_pte p (PTE_FLAGS v)]> L).
Proof using Hn Hdisj Ho.
  intros a A Hpo Hv Hat HL0 Hfill Hch2 Hi Ht Hf Hcnt Hch3.
  assert (~ in_range 0 k a) as Hna by (unfold in_range, a; lia).
  assert (p ∈ fl0) as Hp0 by (apply A; set_solver).
  assert (forall x, table_page T' x -> page_ok x) as Htok.
  { intros x [q Hq]. by destruct (pr_page _ _ _ _ (pi_rep _ _ _ _ _ (ai_pt _ _ _ _ _ Hi)) _ _ Hq) as (_ & _ & ?). }
  assert (forall x y w, in_range 0 (S k) x -> <[a := leaf_pte p (PTE_FLAGS v)]> L !! x = Some (leaf_pte y (PTE_FLAGS w)) -> page_ok y ->
    ~ table_page T' y) as Hleaf.
  { intros x y w Hx HLx Hy. destruct (ai_own _ _ _ _ _ Hi x _ HLx) as (_ & Hnt & _).
    { apply in_range_0S in Hx as [->|Hx]; [done|]. unfold in_range, a, PGSIZE in *. lia. }
    by rewrite (PTE2PA_copied y w Hy) in Hnt. }
  split; try done.
  - intros x [Hx|Hx]%Ht; [by apply A|right; apply A; set_solver].
  - intros x Hx. apply A. set_solver.
  - intros x Hx. pose proof Hx as Hx'. apply in_range_0S in Hx as [->|Hx].
    + exists v, p. rewrite lookup_insert_eq. split_and!; try done. intros o Hr. rewrite <- Hfill by done.
      apply (unchanged_byte _ _ _ _ _ Hch3); [done..|]. intros x Hxt. split; [by apply Htok|]. intros ->.
      apply (Hleaf a p v); try done; by rewrite lookup_insert_eq.
    + destruct (cr_new _ _ _ _ _ _ _ _ _ _ _ A x Hx) as (w & y & Hw & HLx & Hy & Hyf & Hb). exists w, y.
      assert (<[a := leaf_pte p (PTE_FLAGS v)]> L !! x = Some (leaf_pte y (PTE_FLAGS w))) as HLx' by (rewrite lookup_insert_ne by (intros <-; done); done).
      split_and!; try done. intros o Hr. rewrite <- Hb by done. etrans.
      * apply (unchanged_byte _ _ _ _ _ Hch3); [done..|]. intros z Hz. split; [by apply Htok|]. intros ->.
        by apply (Hleaf x y w Hx' HLx' Hy).
      * apply (unchanged_byte _ _ _ _ _ Hch2); [done..|]. intros z ->. split; [done|]. intros ->.
        destruct (ai_own _ _ _ _ _ (cr_inv _ _ _ _ _ _ _ _ _ _ _ A) x _ HLx) as (_ & _ & Hn').
        { unfold in_range, a, PGSIZE in *. lia. }
        rewrite (PTE2PA_copied y w Hy) in Hn'. set_solver.
  - intros x Hx. rewrite lookup_insert_ne; [apply A|]; intros ?; subst; apply Hx, in_range_0S; auto.
  - intros x [->|Hx]%in_range_0S; [done|by apply A].
  - rewrite Hcnt. apply A.
  - apply (changes_only_trans (fun x => table_page T0 x \/ x ∈ fl0) (fun x => x = p \/ table_page T' x) _ _ (pm_mem s)); try done.
    + intros x [->|[Hx|Hx]%Ht]; [by right|by apply A|right; apply A; set_solver].
    + apply A.
    + apply (changes_only_trans (fun x => x = p) (table_page T') _ _ (pm_mem s2)); auto.
Qed.

(** Tables were added but no page mapped: the page [p] that was taken is free again. *)
Lemma copy_rel_same k s p fl T L s' T' (P : Z -> Prop) :
  copy_rel Lo new s0 fl0 T0 L0 k s (p :: fl) T L -> Z.of_nat k * PGSIZE <= TRAPFRAME -> as_inv s' [p] new T' L ->
  page_count [p] T' L = page_count (p :: fl) T L ->
  (forall x, P x -> x = p \/ (table_page T' x /\ (table_page T x \/ x ∈ fl))) ->
  changes_only P (pm_mem s) (pm_mem s') ->
  (forall x, table_page T' x -> table_page T x \/ x ∈ fl) ->
  copy_rel Lo new s0 fl0 T0 L0 k s' [p] T' L.
Proof using Hn Hdisj Ho.
  intros A Hkt Hi Hcnt HP Hch Ht. assert (p ∈ fl0) as Hp0 by (apply A; set_solver).
  assert (forall x, table_page T' x -> table_page T0 x \/ x ∈ fl0) as Ht0.
  { intros x [Hx|Hx]%Ht; [by apply A|right; apply A; set_solver]. }
  split; try apply A; try done.
  - intros x ->%list_elem_of_singleton. done.
  - intros x Hx. destruct (cr_new _ _ _ _ _ _ _ _ _ _ _ A x Hx) as (w & y & Hw & HLx & Hy & Hyf & Hb). exists w, y.
    split_and!; try done. intros o Hr. rewrite <- Hb by done. apply (unchanged_byte _ _ _ _ _ Hch); [done..|].
    assert (x < TRAPFRAME) as Hxt by (unfold in_range, PGSIZE in *; lia).
    destruct (ai_own _ _ _ _ _ Hi x _ HLx Hxt) as (_ & Hn1 & Hn2).
    rewrite (PTE2PA_copied y w Hy) in Hn1, Hn2.
    intros z [->|[Hz _]]%HP.
    + split; [|set_solver]. pose proof (pi_kmem _ _ _ _ _ (ai_pt _ _ _ _ _ Hi)) as (_ & _ & Hok). by apply Forall_cons in Hok as [? _].
    + split; [|by intros ->]. destruct Hz as [q Hq]. by destruct (pr_page _ _ _ _ (pi_rep _ _ _ _ _ (ai_pt _ _ _ _ _ Hi)) _ _ Hq) as (_ & _ & ?).
  - rewrite Hcnt. apply A.
  - apply (changes_only_trans (fun x => table_page T0 x \/ x ∈ fl0) P _ _ (pm_mem s)); try done; [|apply A].
    intros x [->|[Hx _]]%HP; [by right|by apply Ht0].
Qed.

(** The loop from page [k] on. *)
Lemma uvmcopy_loop_run n : forall fuel k c s fl T L sz,
  copy_rel Lo new s0 fl0 T0 L0 k s fl T L -> L_kmem ∉ held c -> sz <= TRAPFRAME -> (n <= fuel)%nat ->
  (Z.of_nat k + Z.of_nat n - 1) * PGSIZE < sz <= (Z.of_nat k + Z.of_nat n) * PGSIZE \/ (n = 0%nat /\ sz <= Z.of_nat k * PGSIZE) ->
  (forall x, in_range (Z.of_nat k * PGSIZE) n x -> is_Some (Lo !! x) /\ L0 !! x = None) ->
  (length fl0 <= length fl + 3 * k)%nat ->
  exists r s' fl' T' L' k', uvmcopy_loop fuel old new (Z.of_nat k * PGSIZE) sz c s = Ok r c s' /\
    copy_rel Lo new s0 fl0 T0 L0 k' s' fl' T' L' /\
    ((r = 0 /\ k' = (k + n)%nat) \/ (r = -1 /\ k' = 0%nat /\ (length fl0 <= 3 * (k + n))%nat)).
Proof using Hn Hdisj Ho.
  induction n as [|n IH]; intros fuel k c s fl T L sz A Hc Hsz Hf Hb Hm Hln.
  { exists 0, s, fl, T, L, k. assert (sz <= Z.of_nat k * PGSIZE) as Hle by (unfold PGSIZE in *; lia).
    split; [|split; [done|left; split; [done|lia]]].
    destruct fuel; cbn [uvmcopy_loop]; destruct (Z.ltb_spec (Z.of_nat k * PGSIZE) sz); done || lia. }
  destruct fuel as [|fuel]; [lia|]. cbn [uvmcopy_loop]. set (a := Z.of_nat k * PGSIZE) in *.
  assert (a < sz) as Ha by (unfold a, PGSIZE in *; lia). destruct (Z.ltb_spec a sz); [|lia].
  assert (a mod PGSIZE = 0) as Haa by (unfold a, PGSIZE in *; zlia).
  assert (a + PGSIZE <= TRAPFRAME) as Hat by (rewrite TRAPFRAME_val in *; unfold PGSIZE in *; zlia).
  assert (0 <= a < MAXVA) as Har by (rewrite MAXVA_val; rewrite TRAPFRAME_val in Hat; unfold a, PGSIZE in *; lia).
  destruct (Hm a) as [[v Hv] HL0]; [apply in_range_S; by left|].
  assert (L !! a = None) as HLa.
  { rewrite (cr_old _ _ _ _ _ _ _ _ _ _ _ A); [done|]. unfold in_range, a. lia. }
  pose proof (pi_rep _ _ _ _ _ (ai_pt _ _ _ _ _ (parent_keeps _ _ _ _ _ A))) as R.
  rewrite (bind_Ok _ _ _ _ _ _ _ (walk_noalloc _ _ _ _ c s a eq_refl R Har)).
  destruct (entry_mapped _ _ _ _ _ _ R Har Hv) as (x & Hx & Hea & Hne & _ & Hld).
  destruct (Z.eqb_spec (entry_addr To a) 0); [done|]. unfold loadM at 1. mrun. rewrite Hea, Hld.
  destruct (pr_valid _ _ _ _ R _ _ Hv) as (-> & _ & _). cbn [negb].
  assert (a / PGSIZE = Z.of_nat k) as Ek by (unfold a; apply Z.div_mul; unfold PGSIZE; lia). rewrite Ek.
  destruct fl as [|p fl].
  { rewrite (bind_Ok _ _ _ _ _ _ _ (kalloc_empty c s new T L (cr_inv _ _ _ _ _ _ _ _ _ _ _ A) Hc)). cbn [Z.eqb].
    destruct (copy_undo k c s _ T L A Hc) as (s' & fl' & Hr & A'); [fold a; unfold PGSIZE in *; lia|].
    rewrite (bind_Ok _ _ _ _ _ _ _ Hr). exists (-1), s', fl', T, L0, 0%nat. split; [done|]. split; [done|]. right. split_and!; [done..|].
    simpl in Hln. lia. }
  destruct (copy_fill k c s p fl T L v A Hc ltac:(fold a; unfold PGSIZE in *; lia) Hv)
    as (s1 & s2 & Hk & Hp0 & Hmv & Hi2 & Hpo & Hnt & Hnf & Hnl & Hfill & Hch2).
  rewrite (bind_Ok _ _ _ _ _ _ _ Hk). destruct (Z.eqb_spec p 0); [done|]. rewrite (bind_Ok _ _ _ _ _ _ _ Hmv).
  destruct (mappages_one c s2 fl new T L a p (PTE_FLAGS v) (ai_pt _ _ _ _ _ Hi2) Hc ltac:(lia)) as (r & s3 & T' & fl' & u & Hmp & G & Hch3 & Hu & Hcase);
    [rewrite MAXVA_val; rewrite TRAPFRAME_val in Hat; unfold PGSIZE in *; lia|done|done|by apply page_ok_phys|by apply (flags_perm a)|].
  rewrite (bind_Ok _ _ _ _ _ _ _ Hmp).
  assert (forall y, table_page T' y -> table_page T y \/ y ∈ fl) as Htab.
  { intros y [q Hq]. destruct (gr_new _ _ _ _ _ G _ _ Hq) as [H'|H']; [left; by exists q|]. right. rewrite (gr_fl _ _ _ _ _ G). set_solver. }
  assert (forall y, y ∈ fl' -> y ∈ fl) as Hfl' by (intros y Hy; rewrite (gr_fl _ _ _ _ _ G); set_solver).
  assert (size T' + length fl' = size T + length fl)%nat as Esz.
  { pose proof (gr_fl _ _ _ _ _ G) as E. pose proof (gr_size _ _ _ _ _ G). apply (f_equal length) in E. rewrite length_app in E. lia. }
  assert (length fl <= length fl' + 2)%nat as Hlen by (rewrite (gr_fl _ _ _ _ _ G), length_app; lia).
  destruct Hcase as [[-> Hpt]|(-> & Hpt & ->)]; cbn [Z.eqb negb].
  - assert (copy_rel Lo new s0 fl0 T0 L0 (S k) s3 fl' T' (<[a := leaf_pte p (PTE_FLAGS v)]> L)) as A'.
    { apply (copy_rel_step k s p fl T L v s2 s3 fl' T'); try done; [unfold PGSIZE in *; lia| |].
      - apply (as_inv_map s2 _ fl new T L _ _ u); try done. by apply (flags_perm a).
      - unfold page_count. rewrite map_size_insert_None by done. simpl. lia. }
    assert (u64 (a + PGSIZE) = Z.of_nat (S k) * PGSIZE) as Ea.
    { rewrite TRAPFRAME_val in Hat. rewrite u64_small; unfold a, PGSIZE in *; lia. }
    rewrite Ea. destruct (IH fuel (S k) c s3 fl' T' _ sz A') as (r & s' & fl2 & T2 & L2 & k2 & Hrun & A2 & Hres); try done;
      try (unfold PGSIZE in *; simpl in *; lia).
    { intros y Hy. apply Hm, in_range_S. right. unfold a.
      replace (Z.of_nat k * PGSIZE + PGSIZE) with (Z.of_nat (S k) * PGSIZE) by lia. done. }
    exists r, s', fl2, T2, L2, k2. split_and!; [done..|].
    destruct Hres as [[-> ->]|(-> & -> & ?)]; [left; split; [done|lia]|right; split_and!; [done..|lia]].
  - pose proof (as_inv_grows _ _ _ _ _ _ _ _ _ Hi2 G Hpt) as Hi3.
    assert (~ table_page T' p) as Hnt' by (intros H'; destruct (Htab p H'); done).
    destruct (kfree_pt c s3 [] new T' L p Hpt Hc Hpo Hnt') as (s4 & Hkf & Hpt4 & Hch4); [apply not_elem_of_nil|].
    rewrite (bind_Ok _ _ _ _ _ _ _ Hkf).
    assert (copy_rel Lo new s0 fl0 T0 L0 k s4 [p] T' L) as A'.
    { apply (copy_rel_same k s p fl T L s4 T' (fun x => x = p \/ table_page T' x)); try done.
      - fold a. unfold PGSIZE in *. lia.
      - split; [done| |apply Hi3]. intros va w Hw Hva. destruct (ai_own _ _ _ _ _ Hi3 va w Hw Hva) as (? & ? & _).
        split_and!; [done..|]. intros E%list_elem_of_singleton. by apply (Hnl va w).
      - unfold page_count. simpl in *. lia.
      - intros y [->|Hy]; [by left|right; by split; [|apply Htab]].
      - apply (changes_only_trans (fun x => x = p) (fun x => x = p \/ table_page T' x) _ _ (pm_mem s2)); auto.
        apply (changes_only_trans (table_page T') (fun x => x = p) _ _ (pm_mem s3)); auto. }
    destruct (copy_undo k c s4 _ T' L A' Hc) as (s' & fl2 & Hr & A2); [fold a; unfold PGSIZE in *; lia|].
    rewrite (bind_Ok _ _ _ _ _ _ _ Hr). exists (-1), s', fl2, T', L0, 0%nat. split; [done|]. split; [done|]. right. split_and!; [done..|].
    simpl in *. lia.
Qed.
End Copy.

Lemma uvmcopy_run c s fl old To Lo new Tn Ln sz :
  let n := Z.to_nat ((sz + PGSIZE - 1) / PGSIZE) in
  as_inv s fl old To Lo -> as_inv s fl new Tn Ln ->
  (forall x, table_page Tn x -> ~ table_page To x /\ ~ leaf_page Lo x) ->
  L_kmem ∉ held c -> 0 <= sz <= TRAPFRAME ->
  (forall x, in_range 0 n x -> is_Some (Lo !! x) /\ Ln !! x = None) ->
  exists r s' fl' T' L' k, uvmcopy old new sz c s = Ok r c s' /\ copy_rel Lo new s fl Tn Ln k s' fl' T' L' /\ as_inv s' fl' old To Lo /\
    ((r = 0 /\ k = n) \/ (r = -1 /\ k = 0%nat /\ (length fl <= 3 * n)%nat)).
Proof.
  intros n Ho Hn Hd Hc Hsz Hm. assert (forall x, ~ in_range 0 0 x) as Hir by (unfold in_range; lia).
  assert (copy_rel Lo new s fl Tn Ln 0 s fl Tn Ln) as A.
  { split; try done; intros x Hx; try (by left); by apply Hir in Hx. }
  destruct (uvmcopy_loop_run s fl old new To Tn Lo Ln Ho Hn Hd n n 0 c s fl Tn Ln sz A Hc)
    as (r & s' & fl' & T' & L' & k & Hrun & A' & Hres); try done; try lia.
  { unfold n, PGSIZE in *. zlia. }
  exists r, s', fl', T', L', k. split; [exact Hrun|]. split; [done|]. split; [|done]. by apply (parent_keeps s fl old new To Tn Lo Ln Ho Hn Hd k s' fl' T' L').
Qed.

(** C13: uvmcopy.  The child's page table starts without user pages and on pages of its own.  Either uvmcopy returns 0 and
    the child maps exactly the parent's pages, each to a page of its own from the free list, with the parent's permissions and
    the parent's bytes; or it returns -1 and the child maps nothing more than before.  With more than three free pages per
    page it cannot fail.  In both cases the parent is as it was, no page is lost, and only free pages and the child's tables
    were written. *)
Theorem uvmcopy_correct c s fl old To Lo new Tn Ln sz :
  let n := Z.to_nat ((sz + PGSIZE - 1) / PGSIZE) in
  as_inv s fl old To Lo -> as_inv s fl new Tn Ln ->
  (forall x, table_page Tn x -> ~ table_page To x /\ ~ leaf_page Lo x) ->
  L_kmem ∉ held c -> 0 <= sz <= TRAPFRAME ->
  (forall x, in_range 0 n x -> is_Some (Lo !! x) /\ Ln !! x = None) ->
  exists r s' fl' T' L', uvmcopy old new sz c s = Ok r c s' /\ as_inv s' fl' old To Lo /\ as_inv s' fl' new T' L' /\
    page_count fl' T' L' = page_count fl Tn Ln /\
    changes_only (fun x => table_page Tn x \/ x ∈ fl) (pm_mem s) (pm_mem s') /\
    ((3 * n < length fl)%nat -> r = 0) /\
    ((r = 0 /\ forall x, if decide (in_range 0 n x)
                then exists v p, Lo !! x = Some v /\ L' !! x = Some (leaf_pte p (PTE_FLAGS v)) /\ PTE2PA (leaf_pte p (PTE_FLAGS v)) = p /\ p ∈ fl /\
                       forall o, 0 <= o < PGSIZE -> mget (pm_mem s') (p + o) = mget (pm_mem s) (PTE2PA v + o)
                else L' !! x = Ln !! x) \/
     (r = -1 /\ L' = Ln)).
Proof.
  intros n Ho Hn Hd Hc Hsz Hm. destruct (uvmcopy_run c s fl old To Lo new Tn Ln sz Ho Hn Hd Hc Hsz Hm) as (r & s' & fl' & T' & L' & k & Hr & A & Hp & Hres).
  exists r, s', fl', T', L'. split; [done|]. split; [done|]. split; [apply A|]. split; [apply A|]. split; [apply A|].
  destruct Hres as [[-> ->]|(-> & -> & ?)].
  - split; [done|]. left. split; [done|]. intros x. fold n. case_decide as E; [|by apply A].
    destruct (cr_new _ _ _ _ _ _ _ _ _ _ _ A x E) as (v & p & Hv & HL & Hpo & Hpf & Hb). exists v, p. rewrite PTE2PA_copied by done. done.
  - split; [unfold n; lia|]. right. split; [done|]. apply map_eq. intros x. apply A. unfold in_range. lia.
Qed.
End UserFork.
