(* ===== verification/Concrete.v ===== *)
(** A concrete kernel image and small concrete states.

    The theorems on memory hold for every placement of the kernel in physical
    memory; here one placement and a free list of eight pages are fixed, so
    that the theorems can be applied to states that are written out. *)
From S2P Require Import Prelude Machine CString Kalloc Vm PageTable UserMem UserFree UserCopy UserFork.
Local Open Scope Z_scope.

#[export] Instance demo_image : KernelImage.
Proof.
  refine {| kend := 0x80022000; etext := 0x80008000; trampoline := 0x80007000 |};
    abstract (vm_compute; repeat split; discriminate).
Defined.

Definition ctx0 : ctx := Ctx [] [].

Definition demo_fl : list Z :=
  [0x80030000; 0x80031000; 0x80032000; 0x80033000; 0x80034000; 0x80035000; 0x80036000; 0x80037000].
Fixpoint link (m : gmap Z Z) (l : list Z) : gmap Z Z :=
  match l with
  | [] => m
  | x :: l' => store64 (link m l') x (hd 0 l')
  end.
Definition demo_s : pmem := PMem (link ∅ demo_fl) (hd 0 demo_fl).
Definition demo_root : Z := 0x80040000.

Lemma demo_kmem : kmem_inv demo_s demo_fl.
Proof.
  split; [vm_compute; repeat split|]. split.
  - apply (bool_decide_unpack _). vm_compute. exact I.
  - repeat constructor; vm_compute; discriminate || done.
Qed.

Lemma link_get l b : (forall x, x ∈ l -> b < x \/ x + 8 <= b) -> mget (link ∅ l) b = 0.
Proof.
  induction l as [|x l IH]; intros H; cbn [link]; [done|].
  rewrite mget_store64_out by (apply H; set_solver). apply IH. set_solver.
Qed.

Lemma demo_as : as_inv demo_s demo_fl demo_root {[ [] := demo_root ]} ∅.
Proof.
  split; [split| |].
  - apply demo_kmem.
  - apply empty_table; [split; vm_compute; done || (split; done || discriminate)|]. intros i Hi.
    rewrite (load64_ext _ ∅); [done|]. intros b Hb. cbn [pm_mem demo_s].
    rewrite link_get; [done|]. intros x Hx. unfold demo_root in *.
    repeat (apply elem_of_cons in Hx as [->|Hx]; [lia|]). by apply elem_of_nil in Hx.
  - intros q x [_ <-]%lookup_singleton_Some. apply (bool_decide_unpack _). vm_compute. exact I.
  - intros va v Hv. by rewrite lookup_empty in Hv.
  - intros va v va' v' Hv. by rewrite lookup_empty in Hv.
Qed.

Definition state_of {S A} (d : S) (r : res S A) : S :=
  match r with
  | Ok _ _ s => s
  | _ => d
  end.

(** Two user pages at addresses 0 and PGSIZE, writable. *)
Definition demo_user : pmem := state_of demo_s (uvmalloc demo_root 0 (2 * PGSIZE) PTE_W ctx0 demo_s).

Lemma kalloc_correct_witness : exists s',
  kalloc ctx0 demo_s = Ok 0x80030000 ctx0 s' /\ kmem_inv s' (tail demo_fl).
Proof.
  destruct (kalloc_correct ctx0 demo_s demo_fl demo_kmem) as [_ H]; [apply not_elem_of_nil|].
  destruct (H 0x80030000 (tail demo_fl) eq_refl) as (s' & H1 & H2 & _). by exists s'.
Defined.

Lemma kfree_correct_witness : exists s',
  kfree demo_root ctx0 demo_s = Ok tt ctx0 s' /\ kmem_inv s' (demo_root :: demo_fl).
Proof.
  destruct (kfree_correct demo_root ctx0 demo_s demo_fl demo_kmem) as [H _]; [apply not_elem_of_nil|].
  destruct H as (s' & H1 & H2 & _).
  - split; vm_compute; [done|split; done || discriminate].
  - apply (bool_decide_unpack _). vm_compute. exact I.
  - by exists s'.
Defined.

Lemma kcollect_free_correct_witness : kcollect_free ctx0 demo_s = Ok (8 * 4096) ctx0 demo_s.
Proof. apply (kcollect_free_correct ctx0 demo_s demo_fl demo_kmem). apply not_elem_of_nil. Defined.

Lemma kinit_correct_witness : exists s' l,
  kinit ctx0 (PMem ∅ 0) = Ok tt ctx0 s' /\ kmem_inv s' l /\ 0x80022000 ∈ l.
Proof.
  destruct (kinit_correct ctx0 (PMem ∅ 0) eq_refl) as (s' & l & H1 & H2 & _ & H3); [apply not_elem_of_nil|].
  exists s', l. split; [done|]. split; [done|]. apply H3. split; vm_compute; [done|split; done || discriminate].
Defined.

Lemma demo_perm xperm : xperm = 0 \/ xperm = PTE_W \/ xperm = PTE_X ->
  leaf_perm (Z.lor (Z.lor PTE_R PTE_U) xperm).
Proof. intros [->|[->| ->]]; split; vm_compute; done || (split; done || discriminate). Qed.

Lemma uvmalloc_correct_witness : exists s' fl' T' L',
  uvmalloc demo_root 0 (2 * PGSIZE) PTE_W ctx0 demo_s = Ok (2 * PGSIZE) ctx0 s' /\
  as_inv s' fl' demo_root T' L' /\ is_Some (L' !! PGSIZE).
Proof.
  destruct (uvmalloc_correct ctx0 demo_s demo_fl demo_root _ ∅ 0 (2 * PGSIZE) PTE_W demo_as)
    as (r & s' & fl' & T' & L' & Hr & Hi & _ & _ & Hn & Hc).
  - apply not_elem_of_nil.
  - apply demo_perm. auto.
  - vm_compute. split; discriminate.
  - vm_compute. discriminate.
  - intros x _. apply lookup_empty.
  - rewrite Hn in * by (vm_compute; lia). exists s', fl', T', L'. split; [exact Hr|]. split; [exact Hi|].
    destruct Hc as [[_ H]|[H _]]; [|discriminate H]. specialize (H PGSIZE).
    destruct (decide _) as [_|E] in H; [destruct H as (p & -> & _); done|].
    destruct E. vm_compute. repeat split; discriminate || done.
Defined.

Definition demo_T : gmap (list Z) Z := {[ [] := demo_root ]}.

Lemma demo_user_rel : exists fl T L,
  alloc_rel demo_root 0 (Z.lor (Z.lor PTE_R PTE_U) PTE_W) demo_s demo_fl demo_T ∅ 2 demo_user fl T L.
Proof.
  destruct (uvmalloc_loop_run 2 2 demo_root 0 PTE_W demo_s demo_fl demo_T ∅ 0 ctx0
    demo_s demo_fl demo_T ∅ (2 * PGSIZE))
    as (r & s' & fl & T & L & k & Hr & A & Hk).
  - assert (forall x, ~ in_range 0 0 x) as Hir by (unfold in_range; lia).
    split; try done; [apply demo_as|by left|..]; intros x Hx; by apply Hir in Hx.
  - apply not_elem_of_nil.
  - apply demo_perm. auto.
  - done.
  - done.
  - vm_compute. discriminate.
  - lia.
  - left. vm_compute. split; discriminate || done.
  - intros x _. apply lookup_empty.
  - lia.
  - assert (uvmalloc demo_root 0 (2 * PGSIZE) PTE_W ctx0 demo_s =
      uvmalloc_loop 2 demo_root 0 (0 + Z.of_nat 0 * PGSIZE) (2 * PGSIZE) PTE_W ctx0 demo_s) as E by reflexivity.
    assert (demo_user = s') as -> by (unfold demo_user; rewrite E, Hr; reflexivity).
    destruct Hk as [[_ ->]|(_ & _ & Hl)]; [by exists fl, T, L|]. cbn in Hl. lia.
Qed.

Lemma demo_user_as : exists fl T L,
  as_inv demo_user fl demo_root T L /\ user_own L.
Proof.
  destruct demo_user_rel as (fl & T & L & A). exists fl, T, L. split; [apply A|]. intros va v Hv _.
  destruct (decide (in_range 0 2 va)) as [Hin|Hin].
  - rewrite TRAPFRAME_val. unfold in_range, PGSIZE in *. lia.
  - rewrite (ar_old _ _ _ _ _ _ _ _ _ _ _ _ A va Hin) in Hv. by rewrite lookup_empty in Hv.
Qed.

(** An empty page table on a page that [demo_user] does not use. *)
Definition demo_child : Z := 0x80050000.

Lemma demo_child_as fl T L :
  alloc_rel demo_root 0 (Z.lor (Z.lor PTE_R PTE_U) PTE_W) demo_s demo_fl demo_T ∅ 2 demo_user fl T L ->
  as_inv demo_user fl demo_child {[ [] := demo_child ]} ∅ /\ ~ table_page T demo_child /\ ~ leaf_page L demo_child.
Proof.
  intros A. assert (demo_child ∉ demo_fl) as Hfl by (apply (bool_decide_unpack _); vm_compute; exact I).
  assert (forall x, table_page demo_T x \/ x ∈ demo_fl -> x <> demo_child /\ outside (demo_child + 0) x /\ outside (demo_child + (PGSIZE - 1)) x /\ x mod PGSIZE = 0) as Hp.
  { unfold demo_T. intros x [[q [_ <-]%lookup_singleton_Some]|Hx]; [vm_compute; intuition (discriminate || lia)|].
    repeat (apply elem_of_cons in Hx as [->|Hx]; [vm_compute; intuition (discriminate || lia)|]). by apply elem_of_nil in Hx. }
  split; [split; [split| |]|split].
  - apply (ar_inv _ _ _ _ _ _ _ _ _ _ _ _ A).
  - apply empty_table; [split; vm_compute; done || (split; done || discriminate)|]. intros i Hi.
    rewrite (load64_ext _ ∅); [done|]. intros b Hb. rewrite (ar_mem _ _ _ _ _ _ _ _ _ _ _ _ A).
    + cbn [pm_mem demo_s]. rewrite link_get; [done|]. intros x Hx. destruct (Hp x (or_intror Hx)) as (_ & H1 & H2 & _).
      unfold outside, demo_child, PGSIZE in *. lia.
    + intros x Hx. destruct (Hp x Hx) as (_ & H1 & H2 & _). unfold outside, demo_child, PGSIZE in *. lia.
  - intros q x [_ <-]%lookup_singleton_Some Hin. by apply Hfl, A.
  - intros va v Hv. by rewrite lookup_empty in Hv.
  - intros va v va' v' Hv. by rewrite lookup_empty in Hv.
  - intros Ht. by destruct (Hp demo_child (ar_tab _ _ _ _ _ _ _ _ _ _ _ _ A _ Ht)).
  - intros (va & v & Hv & Hva & Hpa). destruct (decide (in_range 0 2 va)) as [Hin|Hin].
    + destruct (ar_new _ _ _ _ _ _ _ _ _ _ _ _ A va Hin) as (p & Hv' & Hpo & Hpf). rewrite Hv in Hv'. injection Hv' as ->.
      destruct (leaf_pte_ok p _ (page_ok_phys _ Hpo) (demo_perm PTE_W ltac:(auto))) as (_ & _ & _ & E & _). rewrite E in Hpa. by subst p.
    + rewrite (ar_old _ _ _ _ _ _ _ _ _ _ _ _ A va Hin) in Hv. by rewrite lookup_empty in Hv.
Qed.

(** A process of two pages is copied. *)
Lemma uvmcopy_correct_witness : exists r s', uvmcopy demo_root demo_child (2 * PGSIZE) ctx0 demo_user = Ok r ctx0 s'.
Proof.
  destruct demo_user_rel as (fl & T & L & A). destruct (demo_child_as fl T L A) as (Hc & Ht & Hl).
  destruct (uvmcopy_correct ctx0 demo_user fl demo_root T L demo_child {[ [] := demo_child ]} ∅ (2 * PGSIZE)) as (r & s' & fl' & T' & L' & Hr & _).
  - apply A.
  - exact Hc.
  - intros x [q [_ <-]%lookup_singleton_Some]. by split.
  - apply not_elem_of_nil.
  - vm_compute. split; discriminate.
  - intros x Hx. split; [|apply lookup_empty]. destruct (ar_new _ _ _ _ _ _ _ _ _ _ _ _ A x) as (p & -> & _); [exact Hx|done].
  - by exists r, s'.
Defined.

(** The value a run returned. *)
Definition answer {S A} (r : res S A) : option A :=
  match r with
  | Ok a _ _ => Some a
  | _ => None
  end.

Lemma answer_ok {S A} (r : res S A) a b c s : r = Ok b c s -> answer r = Some a -> r = Ok a c s.
Proof. intros -> [= ->]. done. Qed.

Definition answer_ctx {S A} (r : res S A) : option (A * ctx) :=
  match r with
  | Ok a c _ => Some (a, c)
  | _ => None
  end.

Lemma run_ok {S A} d (r : res S A) a c : answer_ctx r = Some (a, c) -> r = Ok a c (state_of d r).
Proof. destruct r; intros [= -> ->]. done. Qed.

Lemma copyin_correct_witness : exists L,
  copyin demo_root 5000 3 ctx0 demo_user =
    (let '(ok, bs) := read_user (pm_mem demo_user) (uaddr PTE_U L) 5000 3 in
     Ok (if ok then 0 else -1, bs) ctx0 demo_user) /\
  answer (copyin demo_root 5000 3 ctx0 demo_user) = Some (0, [0; 0; 0]).
Proof.
  destruct demo_user_as as (fl & T & L & Hi & Hu). exists L. split.
  - apply (copyin_correct ctx0 demo_user fl demo_root T L 5000 3 Hi Hu). lia.
  - vm_compute. reflexivity.
Defined.

Lemma copyinstr_correct_witness : exists L,
  copyinstr demo_root 8190 100 ctx0 demo_user =
    (let '(got, bs) := str_user (pm_mem demo_user) (uaddr PTE_U L) 8190 100 in
     Ok (if got then 0 else -1, bs) ctx0 demo_user) /\
  answer (copyinstr demo_root 8190 100 ctx0 demo_user) = Some (0, [0]).
Proof.
  destruct demo_user_as as (fl & T & L & Hi & Hu). exists L. split.
  - apply (copyinstr_correct ctx0 demo_user fl demo_root T L 8190 100 Hi Hu). lia.
  - vm_compute. reflexivity.
Defined.

Lemma copyout_correct_witness : exists fl T L s',
  copyout demo_root 4094 [1; 2; 3] ctx0 demo_user = Ok 0 ctx0 s' /\ as_inv s' fl demo_root T L.
Proof.
  destruct demo_user_as as (fl & T & L & Hi & Hu).
  destruct (copyout_correct ctx0 demo_user fl demo_root T L 4094 [1; 2; 3] Hi Hu ltac:(lia)) as [H1 H2].
  assert (answer (copyout demo_root 4094 [1; 2; 3] ctx0 demo_user) = Some 0) as Ha by (vm_compute; reflexivity).
  exists fl, T, L. eexists. split; [exact (answer_ok _ _ _ _ _ H1 Ha)|exact H2].
Defined.

Lemma copyout_copyin_roundtrip_witness : exists s',
  copyout demo_root 4094 [1; 2; 3] ctx0 demo_user = Ok 0 ctx0 s' /\
  copyin demo_root 4094 3 ctx0 s' = Ok (0, [1; 2; 3]) ctx0 s'.
Proof.
  destruct demo_user_as as (fl & T & L & Hi & Hu).
  assert (answer_ctx (copyout demo_root 4094 [1; 2; 3] ctx0 demo_user) = Some (0, ctx0)) as Ha
    by (vm_compute; reflexivity).
  eexists. split; [exact (run_ok demo_user _ _ _ Ha)|].
  apply (copyout_copyin_roundtrip ctx0 demo_user fl demo_root T L 4094 [1; 2; 3] _ Hi Hu ltac:(lia)
    (run_ok demo_user _ _ _ Ha)).
Defined.

Lemma uvmcreate_correct_witness : exists s',
  uvmcreate ctx0 demo_s = Ok 0x80030000 ctx0 s' /\
  as_inv s' (tail demo_fl) 0x80030000 {[ [] := 0x80030000 ]} ∅.
Proof.
  destruct (uvmcreate_correct ctx0 demo_s demo_fl demo_kmem) as (s' & H1 & _ & H2 & _);
    [apply not_elem_of_nil|]. by exists s'.
Defined.

Lemma uvmfree_correct_witness : exists s' fl',
  uvmfree demo_root 0 ctx0 demo_s = Ok tt ctx0 s' /\ kmem_inv s' fl' /\ demo_root ∈ fl'.
Proof.
  destruct (uvmfree_correct ctx0 demo_s demo_fl demo_root _ ∅ 0 demo_as)
    as (s' & fl' & H1 & H2 & H3 & _).
  - apply not_elem_of_nil.
  - vm_compute. split; discriminate.
  - intros va. rewrite lookup_empty. split; [by intros []|]. vm_compute. intros [[H1 H2] _]. destruct va; done.
  - exists s', fl'. split; [exact H1|]. split; [exact H2|]. apply H3. right. left. exists [].
    apply lookup_singleton_eq.
Defined.
