(* ===== verification/Spinlock.v ===== *)
(** Spinlocks (kernel/spinlock.c) on a machine with many CPUs.

    Every access to memory that another CPU can observe is a step of its own:
    the atomic swap of acquire(), the store of lk->cpu, the atomic store of
    release().  [step] interleaves the CPUs in any order.  The history variable
    [owned] lists the locks a CPU has acquired and not released; the invariant
    ties it to the words in memory, which gives mutual exclusion and shows that
    [acquire] and [release] of [Prelude], which the other files use, are what a
    CPU observes of this code. *)
From S2P Require Import Prelude.
From stdpp Require Import functions.
Local Open Scope Z_scope.

Record spinlock : Type := Spinlock { locked : Z; lk_cpu : option nat }.

(** struct cpu, with the SIE bit of sstatus. *)
Record cpu : Type := Cpu { noff : Z; intena : bool; sie : bool }.

Definition initlock : spinlock := Spinlock 0 None.

Definition holding (lk : spinlock) (me : nat) : bool :=
  negb (locked lk =? 0) && bool_decide (lk_cpu lk = Some me).

Definition push_off (c : cpu) : cpu :=
  let old := sie c in
  let ie := if noff c =? 0 then old else intena c in
  Cpu (noff c + 1) ie false.

Definition pop_off (c : cpu) : string + cpu :=
  if sie c then inl "pop_off - interruptible"
  else if noff c <? 1 then inl "pop_off"
  else
    let n := noff c - 1 in
    inr (Cpu n (intena c) (if (n =? 0) && intena c then true else sie c)).

(** Where a CPU is. *)
Inductive pc : Type :=
| Run                    (* outside acquire() and release() *)
| AcqSpin (lk : lock)    (* in the loop of acquire() *)
| AcqGot (lk : lock)     (* past the loop, lk->cpu not yet set *)
| RelClear (lk : lock)   (* lk->cpu cleared, lk->locked not yet *)
| RelPop (lk : lock)     (* lk->locked cleared, before pop_off() *)
| Stopped (msg : string).

Record machine : Type := Machine {
  locks : lock -> spinlock;
  cpus : nat -> cpu;
  pcs : nat -> pc;
  owned : nat -> list lock;    (* history: locks acquired and not released *)
  pushes : nat -> Z;           (* history: push_off()s of the CPU's own *)
}.

Definition set_cpu i c p m := Machine (locks m) (<[i := c]> (cpus m)) (<[i := p]> (pcs m)) (owned m) (pushes m).
Definition set_pc i p m := Machine (locks m) (cpus m) (<[i := p]> (pcs m)) (owned m) (pushes m).
Definition set_lock l x m := Machine (<[l := x]> (locks m)) (cpus m) (pcs m) (owned m) (pushes m).
Definition set_owned i o m := Machine (locks m) (cpus m) (pcs m) (<[i := o]> (owned m)) (pushes m).
Definition set_pushes i n m := Machine (locks m) (cpus m) (pcs m) (owned m) (<[i := n]> (pushes m)).

(** The functions of the source, cut where another CPU can act. *)
Definition acquire_enter (i : nat) (l : lock) (m : machine) : machine :=
  let c := push_off (cpus m i) in
  if holding (locks m l) i then set_cpu i c (Stopped "acquire") m
  else set_cpu i c (AcqSpin l) m.

(** One __sync_lock_test_and_set(&lk->locked, 1) and the test of its result. *)
Definition acquire_swap (i : nat) (l : lock) (m : machine) : machine :=
  let old := locked (locks m l) in
  let m := set_lock l (Spinlock 1 (lk_cpu (locks m l))) m in
  if negb (old =? 0) then m else set_pc i (AcqGot l) m.

Definition acquire_mark (i : nat) (l : lock) (m : machine) : machine :=
  set_owned i (l :: owned m i)
    (set_pc i Run (set_lock l (Spinlock (locked (locks m l)) (Some i)) m)).

Definition release_enter (i : nat) (l : lock) (m : machine) : machine :=
  if negb (holding (locks m l) i) then set_pc i (Stopped "release") m
  else
    set_owned i (remove_lock l (owned m i))
      (set_pc i (RelClear l) (set_lock l (Spinlock (locked (locks m l)) None) m)).

Definition release_store (i : nat) (l : lock) (m : machine) : machine :=
  set_pc i (RelPop l) (set_lock l (Spinlock 0 (lk_cpu (locks m l))) m).

Definition pop (i : nat) (m : machine) : machine :=
  match pop_off (cpus m i) with
  | inl msg => set_pc i (Stopped msg) m
  | inr c => set_cpu i c Run m
  end.

Inductive step : machine -> machine -> Prop :=
| step_acquire_enter m i l : pcs m i = Run -> step m (acquire_enter i l m)
| step_acquire_swap m i l : pcs m i = AcqSpin l -> step m (acquire_swap i l m)
| step_acquire_mark m i l : pcs m i = AcqGot l -> step m (acquire_mark i l m)
| step_release_enter m i l : pcs m i = Run -> step m (release_enter i l m)
| step_release_store m i l : pcs m i = RelClear l -> step m (release_store i l m)
| step_release_pop m i l : pcs m i = RelPop l -> step m (pop i m)
| step_push_off m i : pcs m i = Run ->
    step m (set_pushes i (pushes m i + 1) (set_cpu i (push_off (cpus m i)) Run m))
| step_pop_off m i : pcs m i = Run -> 0 < pushes m i ->
    step m (set_pushes i (pushes m i - 1) (pop i m))
| step_intr m i b : pcs m i = Run -> noff (cpus m i) = 0 ->
    (* intr_on() and intr_off(), outside every critical section *)
    step m (set_cpu i (Cpu 0 (intena (cpus m i)) b) Run m).

Definition machine0 (b : nat -> bool) : machine :=
  Machine (fun _ => initlock) (fun i => Cpu 0 false (b i)) (fun _ => Run) (fun _ => []) (fun _ => 0).

Inductive reachable : machine -> Prop :=
| reach_init b : reachable (machine0 b)
| reach_step m m' : reachable m -> step m m' -> reachable m'.

(** ** The invariant *)

(** The lock a CPU has in its hands inside acquire() or release(). *)
Definition in_hand (p : pc) (l : lock) : Prop := p = AcqGot l \/ p = RelClear l.

(** CPU [i] is inside the critical section of [l], or at its edge. *)
Definition owns (m : machine) (i : nat) (l : lock) : Prop :=
  l ∈ owned m i \/ in_hand (pcs m i) l.

Definition transit (p : pc) : Z :=
  match p with
  | AcqSpin _ | AcqGot _ | RelClear _ | RelPop _ => 1
  | Run => 0
  | Stopped _ => 0
  end.

Definition stopped (p : pc) : bool :=
  match p with
  | Stopped _ => true
  | _ => false
  end.

Record inv (m : machine) : Prop := {
  inv_word : forall l, locked (locks m l) = 0 \/ locked (locks m l) = 1;
  inv_free : forall l i, locked (locks m l) = 0 -> ~ owns m i l;
  inv_excl : forall l i j, owns m i l -> owns m j l -> i = j;
  inv_owned : forall l i, lk_cpu (locks m l) = Some i <-> l ∈ owned m i;
  inv_hand : forall l i, in_hand (pcs m i) l -> l ∉ owned m i;
  inv_nodup : forall i, NoDup (owned m i);
  inv_noff : forall i, stopped (pcs m i) = false ->
    noff (cpus m i) = Z.of_nat (length (owned m i)) + pushes m i + transit (pcs m i);
  inv_pushes : forall i, 0 <= pushes m i;
  inv_intr : forall i, stopped (pcs m i) = false -> 0 < noff (cpus m i) -> sie (cpus m i) = false;
}.

Lemma elem_remove_lock l x o : NoDup o -> x ∈ remove_lock l o <-> x ∈ o /\ x <> l.
Proof.
  induction 1 as [|y o Hy Hn IH]; cbn [remove_lock]; [set_solver|].
  case_decide as E; [subst|]; rewrite ?elem_of_cons, ?IH; naive_solver.
Qed.

Lemma NoDup_remove_lock l o : NoDup o -> NoDup (remove_lock l o).
Proof.
  induction 1 as [|y o Hy Hn IH]; cbn [remove_lock]; [constructor|].
  case_decide; [done|]. constructor; [|done]. rewrite elem_remove_lock by done. tauto.
Qed.

Lemma length_remove_lock l o : NoDup o -> l ∈ o ->
  Z.of_nat (length (remove_lock l o)) = Z.of_nat (length o) - 1.
Proof.
  induction 1 as [|y o Hy Hn IH]; cbn [remove_lock]; [by intros ?%elem_of_nil|].
  intros [->|Hl]%elem_of_cons; case_decide; cbn [length]; try done; try lia.
  rewrite Nat2Z.inj_succ, IH by done. lia.
Qed.

Lemma holding_owned m i l : inv m -> holding (locks m l) i = true <-> l ∈ owned m i.
Proof.
  intros I. unfold holding. rewrite andb_true_iff, bool_decide_eq_true, (inv_owned m I). split; [tauto|].
  intros H. split; [|done]. destruct (Z.eqb_spec (locked (locks m l)) 0) as [E|]; [|done].
  destruct (inv_free m I l i E). by left.
Qed.

(** A step that changes neither a lock nor who owns one. *)
Lemma inv_local m m' i : inv m ->
  locks m' = locks m -> owned m' = owned m ->
  (forall j, j <> i -> cpus m' j = cpus m j /\ pcs m' j = pcs m j /\ pushes m' j = pushes m j) ->
  (forall l, in_hand (pcs m' i) l <-> in_hand (pcs m i) l) -> 0 <= pushes m' i ->
  (stopped (pcs m' i) = false ->
     noff (cpus m' i) = Z.of_nat (length (owned m i)) + pushes m' i + transit (pcs m' i) /\
     (0 < noff (cpus m' i) -> sie (cpus m' i) = false)) ->
  inv m'.
Proof.
  intros I El Eo Hj Hh Hp Hn.
  assert (forall j l, owns m' j l <-> owns m j l) as How.
  { intros j l. unfold owns. rewrite Eo. destruct (decide (j = i)) as [->|Hne]; [by rewrite Hh|].
    destruct (Hj j Hne) as (_ & -> & _). done. }
  split; rewrite ?El, ?Eo.
  - apply I.
  - intros l j Hw Ho%How. by apply (inv_free m I l j).
  - intros l j k Ho%How Ho'%How. by apply (inv_excl m I l).
  - apply I.
  - intros l j H. apply (inv_hand m I). destruct (decide (j = i)) as [->|Hne]; [by apply Hh|].
    by destruct (Hj j Hne) as (_ & <- & _).
  - apply I.
  - intros j H. destruct (decide (j = i)) as [->|Hne]; [by apply Hn|].
    destruct (Hj j Hne) as (E1 & E2 & E3). rewrite E1, E2, E3 in *. by apply I.
  - intros j. destruct (decide (j = i)) as [->|Hne]; [done|]. destruct (Hj j Hne) as (_ & _ & ->). apply I.
  - intros j H. destruct (decide (j = i)) as [->|Hne]; [by apply Hn|].
    destruct (Hj j Hne) as (E1 & E2 & E3). rewrite E1, E2 in *. by apply I.
Qed.

(** A step of CPU [i] on lock [l] that leaves the CPU's private state alone. *)
Lemma inv_shared m m' i l : inv m ->
  (forall x, x <> l -> locks m' x = locks m x) ->
  (forall j, j <> i -> owned m' j = owned m j /\ pcs m' j = pcs m j) ->
  cpus m' = cpus m -> pushes m' = pushes m ->
  (forall x, x <> l -> (x ∈ owned m' i <-> x ∈ owned m i) /\ ~ in_hand (pcs m' i) x /\ ~ in_hand (pcs m i) x) ->
  (locked (locks m' l) = 0 \/ locked (locks m' l) = 1) ->
  (locked (locks m' l) = 0 -> ~ owns m' i l) ->
  (forall j, j <> i -> ~ owns m j l) ->
  (lk_cpu (locks m' l) = Some i <-> l ∈ owned m' i) ->
  (forall j, lk_cpu (locks m' l) = Some j -> j = i) ->
  (in_hand (pcs m' i) l -> l ∉ owned m' i) -> NoDup (owned m' i) ->
  stopped (pcs m' i) = false -> stopped (pcs m i) = false ->
  Z.of_nat (length (owned m' i)) + transit (pcs m' i) = Z.of_nat (length (owned m i)) + transit (pcs m i) ->
  inv m'.
Proof.
  intros I Hl Hj Ec Ep Hx Hw Hfree Hno Hcpu Hcpu' Hhand Hnd Hs Hs0 Hlen.
  assert (forall j x, (j <> i \/ x <> l) -> owns m' j x <-> owns m j x) as How.
  { intros j x Hjx. unfold owns. destruct (decide (j = i)) as [->|Hne].
    - destruct (Hx x) as (H1 & H2 & H3); [tauto|]. tauto.
    - destruct (Hj j Hne) as [-> ->]. done. }
  assert (forall j, owns m' j l -> j = i) as Hi.
  { intros j H. destruct (decide (j = i)) as [|Hne]; [done|]. apply How in H; [|by left]. by apply Hno in H. }
  split; rewrite ?Ec, ?Ep.
  - intros x. destruct (decide (x = l)) as [->|Hne]; [done|]. rewrite Hl by done. apply I.
  - intros x j H0 Ho. destruct (decide (x = l)) as [->|Hne].
    + pose proof (Hi j Ho) as ->. by apply Hfree.
    + rewrite Hl in H0 by done. apply (inv_free m I x j H0), How; auto.
  - intros x j k Ho Hk. destruct (decide (x = l)) as [->|Hne].
    + by rewrite (Hi j Ho), (Hi k Hk).
    + apply How in Ho; [|auto]. apply How in Hk; [|auto]. by apply (inv_excl m I x).
  - intros x j. destruct (decide (x = l)) as [->|Hne].
    + destruct (decide (j = i)) as [->|Hji]; [done|]. split; [by intros H%Hcpu'|].
      intros H. destruct (Hno j Hji). left. by destruct (Hj j Hji) as [<- _].
    + rewrite Hl by done. rewrite (inv_owned m I). destruct (decide (j = i)) as [->|Hji].
      * symmetry. by apply Hx.
      * destruct (Hj j Hji) as [-> _]. done.
  - intros x j H. destruct (decide (j = i)) as [->|Hji].
    + destruct (decide (x = l)) as [->|Hne]; [by apply Hhand|]. by destruct (Hx x Hne) as (_ & ? & _).
    + destruct (Hj j Hji) as [-> E]. rewrite E in H. by apply I.
  - intros j. destruct (decide (j = i)) as [->|Hji]; [done|]. destruct (Hj j Hji) as [-> _]. apply I.
  - intros j H. destruct (decide (j = i)) as [->|Hji].
    + rewrite (inv_noff m I i Hs0). lia.
    + destruct (Hj j Hji) as [-> E]. rewrite E in *. by apply I.
  - apply I.
  - intros j H. destruct (decide (j = i)) as [->|Hji]; [by apply I|].
    destruct (Hj j Hji) as [_ E]. rewrite E in H. by apply I.
Qed.

Ltac fn_simpl :=
  cbn [locks cpus pcs owned pushes set_cpu set_pc set_lock set_owned set_pushes];
  repeat (rewrite fn_lookup_insert || rewrite fn_lookup_insert_ne by done);
  cbn [locked lk_cpu].
Ltac no_hand := intros; unfold in_hand in *; intuition (congruence || done).

Lemma inv_acquire_enter m i l : inv m -> pcs m i = Run -> inv (acquire_enter i l m).
Proof.
  intros I Hp. unfold acquire_enter.
  destruct (holding (locks m l) i); (apply (inv_local m _ i I); try done; fn_simpl; try (by apply I)).
  - intros j Hne. by fn_simpl.
  - rewrite Hp. no_hand.
  - by intros.
  - intros j Hne. by fn_simpl.
  - rewrite Hp. no_hand.
  - intros _. unfold push_off. cbn [noff sie transit]. split; [|done].
    rewrite (inv_noff m I i) by (by rewrite Hp). rewrite Hp. cbn. lia.
Qed.

Lemma inv_push_off m i : inv m -> pcs m i = Run ->
  inv (set_pushes i (pushes m i + 1) (set_cpu i (push_off (cpus m i)) Run m)).
Proof.
  intros I Hp. pose proof (inv_pushes m I i). apply (inv_local m _ i I); try done; fn_simpl; try lia.
  - intros j Hne. by fn_simpl.
  - by rewrite Hp.
  - intros _. unfold push_off. cbn [noff sie transit]. split; [|done].
    rewrite (inv_noff m I i) by (by rewrite Hp). rewrite Hp. cbn. lia.
Qed.

(** pop_off() finds interrupts off and a positive depth. *)
Lemma pop_ok m i : inv m -> stopped (pcs m i) = false -> 0 < noff (cpus m i) ->
  pop i m = set_cpu i (Cpu (noff (cpus m i) - 1) (intena (cpus m i))
    ((noff (cpus m i) - 1 =? 0) && intena (cpus m i))) Run m.
Proof.
  intros I Hs Hn. unfold pop, pop_off. rewrite (inv_intr m I i Hs Hn).
  destruct (Z.ltb_spec (noff (cpus m i)) 1); [lia|].
  by destruct ((noff (cpus m i) - 1 =? 0) && intena (cpus m i)).
Qed.

Lemma pop_intr n b : 0 < n - 1 -> ((n - 1 =? 0) && b) = false.
Proof. intros H. destruct (Z.eqb_spec (n - 1) 0); [lia|done]. Qed.

Lemma inv_release_pop m i l : inv m -> pcs m i = RelPop l -> inv (pop i m).
Proof.
  intros I Hp. assert (stopped (pcs m i) = false) as Hs by (by rewrite Hp).
  pose proof (inv_noff m I i Hs) as En. pose proof (inv_pushes m I i). rewrite Hp in En. cbn [transit] in En.
  rewrite pop_ok by (done || lia). apply (inv_local m _ i I); try done; fn_simpl; try done.
  - intros j Hne. by fn_simpl.
  - rewrite Hp. no_hand.
  - intros _. cbn [noff sie transit]. split; [lia|]. apply pop_intr.
Qed.

Lemma inv_pop_off m i : inv m -> pcs m i = Run -> 0 < pushes m i ->
  inv (set_pushes i (pushes m i - 1) (pop i m)).
Proof.
  intros I Hp Hpos. assert (stopped (pcs m i) = false) as Hs by (by rewrite Hp).
  pose proof (inv_noff m I i Hs) as En. rewrite Hp in En. cbn [transit] in En.
  rewrite pop_ok by (done || lia). apply (inv_local m _ i I); try done; fn_simpl; try lia.
  - intros j Hne. by fn_simpl.
  - by rewrite Hp.
  - intros _. cbn [noff sie transit]. split; [lia|]. apply pop_intr.
Qed.

Lemma inv_intr_step m i b : inv m -> pcs m i = Run -> noff (cpus m i) = 0 ->
  inv (set_cpu i (Cpu 0 (intena (cpus m i)) b) Run m).
Proof.
  intros I Hp Hn. assert (stopped (pcs m i) = false) as Hs by (by rewrite Hp).
  pose proof (inv_noff m I i Hs) as En. rewrite Hp in En. cbn [transit] in En.
  apply (inv_local m _ i I); try done; fn_simpl; try (by apply I).
  - intros j Hne. by fn_simpl.
  - by rewrite Hp.
  - intros _. cbn [noff sie transit]. lia.
Qed.

Lemma inv_acquire_swap m i l : inv m -> pcs m i = AcqSpin l -> inv (acquire_swap i l m).
Proof.
  intros I Hp. assert (~ l ∈ owned m i \/ locked (locks m l) <> 0) as Hcase.
  { destruct (decide (locked (locks m l) = 0)) as [E|]; [left|by right]. intros H.
    apply (inv_free m I l i E). by left. }
  unfold acquire_swap. destruct (Z.eqb_spec (locked (locks m l)) 0) as [E|E]; cbn [negb].
  - assert (forall j, ~ owns m j l) as Hno by (intros j; by apply (inv_free m I)).
    apply (inv_shared m _ i l I); fn_simpl; try done; try (by rewrite Hp).
    + intros x Hne. by rewrite fn_lookup_insert_ne.
    + intros j Hne. by fn_simpl.
    + intros x Hne. rewrite Hp. split; [done|]. no_hand.
    + by right.
    + rewrite (inv_owned m I). done.
    + intros j Hj%(inv_owned m I). destruct (Hno j). by left.
    + intros _ Ho. destruct (Hno i). by left.
    + apply I.
  - assert (locks m l = Spinlock 1 (lk_cpu (locks m l))) as El.
    { destruct (inv_word m I l); [done|]. destruct (locks m l). cbn in *. by subst. }
    assert (forall x, (<[l := Spinlock 1 (lk_cpu (locks m l))]> (locks m)) x = locks m x) as Ex.
    { intros x. destruct (decide (l = x)) as [<-|]; [by rewrite fn_lookup_insert|by rewrite fn_lookup_insert_ne]. }
    split; cbn [locks cpus pcs owned pushes set_lock]; unfold owns; cbn [owned pcs set_lock];
      setoid_rewrite Ex || idtac; apply I.
Qed.

Lemma inv_acquire_mark m i l : inv m -> pcs m i = AcqGot l -> inv (acquire_mark i l m).
Proof.
  intros I Hp. assert (owns m i l) as Ho by (right; left; done).
  assert (l ∉ owned m i) as Hn by (apply (inv_hand m I); by left).
  assert (locked (locks m l) <> 0) as Hw by (intros E; by apply (inv_free m I l i E)).
  unfold acquire_mark. apply (inv_shared m _ i l I); fn_simpl; try done; try (by rewrite Hp).
  - intros x Hne. by rewrite fn_lookup_insert_ne.
  - intros j Hne. by fn_simpl.
  - intros x Hne. rewrite Hp. split; [set_solver|]. no_hand.
  - apply I.
  - intros j Hji Hj. by pose proof (inv_excl m I l j i Hj Ho).
  - cbn. set_solver.
  - cbn. naive_solver.
  - no_hand.
  - constructor; [done|apply I].
  - rewrite Hp. cbn. lia.
Qed.

Lemma inv_release_enter m i l : inv m -> pcs m i = Run -> inv (release_enter i l m).
Proof.
  intros I Hp. unfold release_enter. pose proof (holding_owned m i l I) as Hh.
  destruct (holding (locks m l) i) eqn:E; cbn [negb].
  - assert (l ∈ owned m i) as Ho by (by apply Hh). assert (owns m i l) as How by (by left).
    pose proof (inv_nodup m I i) as Hnd.
    apply (inv_shared m _ i l I); fn_simpl; try done; try (by rewrite Hp).
    + intros x Hne. by rewrite fn_lookup_insert_ne.
    + intros j Hne. by fn_simpl.
    + intros x Hne. rewrite Hp, elem_remove_lock by done. split; [naive_solver|]. no_hand.
    + apply I.
    + cbn. intros Hw. by destruct (inv_free m I l i Hw).
    + intros j Hji Hj. by pose proof (inv_excl m I l j i Hj How).
    + rewrite elem_remove_lock by done. cbn. naive_solver.
    + intros _. rewrite elem_remove_lock by done. tauto.
    + by apply NoDup_remove_lock.
    + rewrite Hp, length_remove_lock by done. cbn. lia.
  - apply (inv_local m _ i I); try done; fn_simpl; try done.
    + intros j Hne. by fn_simpl.
    + rewrite Hp. no_hand.
    + apply I.
Qed.

Lemma inv_release_store m i l : inv m -> pcs m i = RelClear l -> inv (release_store i l m).
Proof.
  intros I Hp. assert (owns m i l) as Ho by (right; right; done).
  assert (l ∉ owned m i) as Hn by (apply (inv_hand m I); by right).
  unfold release_store. apply (inv_shared m _ i l I); fn_simpl; try done; try (by rewrite Hp).
  - intros x Hne. by rewrite fn_lookup_insert_ne.
  - intros j Hne. by fn_simpl.
  - intros x Hne. rewrite Hp. split; [done|]. no_hand.
  - by left.
  - intros _ [H|H]; revert H; fn_simpl; [done|no_hand].
  - intros j Hji Hj. by pose proof (inv_excl m I l j i Hj Ho).
  - cbn. apply I.
  - cbn. intros j Hj%(inv_owned m I). symmetry. apply (inv_excl m I l i j Ho). by left.
  - apply I.
Qed.

Lemma inv_step m m' : inv m -> step m m' -> inv m'.
Proof.
  intros I Hs. destruct Hs as [m i l H|m i l H|m i l H|m i l H|m i l H|m i l H|m i H|m i H Hp|m i b H Hn].
  - by apply inv_acquire_enter.
  - by apply inv_acquire_swap.
  - by apply inv_acquire_mark.
  - by apply inv_release_enter.
  - by apply inv_release_store.
  - by apply (inv_release_pop m i l).
  - by apply inv_push_off.
  - by apply inv_pop_off.
  - by apply inv_intr_step.
Qed.

Lemma inv_reachable m : reachable m -> inv m.
Proof.
  induction 1 as [b|m m' _ IH Hs]; [|by apply (inv_step m)].
  assert (forall i l, ~ owns (machine0 b) i l) as Hno.
  { intros i l [H|[H|H]]; [by apply elem_of_nil in H|done|done]. }
  split.
  - intros l. by left.
  - intros l i _. apply Hno.
  - intros l i j H. by apply Hno in H.
  - intros l i. split; [done|]. by intros ?%elem_of_nil.
  - intros l i H. by destruct (Hno i l); right.
  - intros i. constructor.
  - done.
  - done.
  - cbn. lia.
Qed.

(** ** What the locks promise *)

(** C16: mutual exclusion.  In every interleaving of any number of CPUs that acquire and release
    locks, no two CPUs own the same lock at the same time, where a CPU owns a lock from the
    swap of acquire() that returned 0 until the store of release(); and a CPU that owns a
    lock has interrupts off. *)
Theorem mutual_exclusion m i j l : reachable m ->
  owns m i l -> owns m j l -> i = j /\ (stopped (pcs m i) = false -> sie (cpus m i) = false).
Proof.
  intros I%inv_reachable Hi Hj. split; [by apply (inv_excl m I l)|]. intros Hs.
  apply (inv_intr m I i Hs). rewrite (inv_noff m I i Hs). pose proof (inv_pushes m I i).
  destruct Hi as [Hi|Hi].
  - destruct (owned m i); [by apply elem_of_nil in Hi|]. cbn [length]. destruct (pcs m i); cbn; lia.
  - destruct Hi as [-> | ->]; cbn; lia.
Qed.

(** no spurious panics.  From every reachable state, acquire() panics exactly when this CPU
    already holds the lock and release() exactly when it does not, and the pop_off() at the end
    of release() does not panic. *)
Theorem lock_panics m i l : reachable m ->
  (pcs m i = Run -> pcs (acquire_enter i l m) i = Stopped "acquire" <-> l ∈ owned m i) /\
  (pcs m i = Run -> pcs (release_enter i l m) i = Stopped "release" <-> l ∉ owned m i) /\
  (pcs m i = RelPop l -> pcs (pop i m) i = Run).
Proof.
  intros I%inv_reachable. pose proof (holding_owned m i l I) as Hh. split_and!; intros Hp.
  - unfold acquire_enter. rewrite <- Hh. destruct (holding (locks m l) i); cbn [negb]; fn_simpl; intuition congruence.
  - unfold release_enter. rewrite <- Hh. destruct (holding (locks m l) i); cbn [negb]; fn_simpl; intuition congruence.
  - assert (stopped (pcs m i) = false) as Hs by (by rewrite Hp).
    pose proof (inv_noff m I i Hs) as En. pose proof (inv_pushes m I i). rewrite Hp in En. cbn [transit] in En.
    rewrite pop_ok by (done || lia). by fn_simpl.
Qed.

(** refinement.  What a CPU observes of spinlock.c is the contract the other components are
    proved against: read with the locks it owns, the entry of acquire() panics exactly when
    [Prelude.acquire] does, the completion of acquire() leaves it owning the locks
    [Prelude.acquire] leaves, and the same holds of release(). *)
Theorem spinlock_refines {S} m i l o (s : S) : reachable m ->
  (pcs m i = Run ->
     (pcs (acquire_enter i l m) i = Stopped "acquire" <->
      acquire l (Ctx (owned m i) o) s = Panic "acquire")) /\
  (pcs m i = AcqGot l ->
     acquire l (Ctx (owned m i) o) s = Ok tt (Ctx (owned (acquire_mark i l m) i) o) s) /\
  (pcs m i = Run ->
     release l (Ctx (owned m i) o) s =
     if holding (locks m l) i then Ok tt (Ctx (owned (release_enter i l m) i) o) s
     else Panic "release").
Proof.
  intros I%inv_reachable. pose proof (holding_owned m i l I) as Hh. split_and!; intros Hp.
  - unfold acquire_enter, acquire. cbn [held out]. destruct (holding (locks m l) i).
    + rewrite decide_True by (by apply Hh). fn_simpl. done.
    + rewrite decide_False by (intros ?%Hh; done). fn_simpl. done.
  - unfold acquire. cbn [held out]. rewrite decide_False by (apply (inv_hand m I); by left).
    unfold acquire_mark. by fn_simpl.
  - unfold release. cbn [held out]. unfold release_enter. destruct (holding (locks m l) i) eqn:E; cbn [negb].
    + rewrite decide_True by (by apply Hh). by fn_simpl.
    + rewrite decide_False; [done|]. intros ?%Hh. done.
Qed.

(** nesting.  push_off() and pop_off() are matched: from a depth of zero or more, a pop_off() after a
    push_off() succeeds, brings the depth back, and restores the interrupt state that was there before
    the outermost push_off(). *)
Theorem push_pop_nested c : 0 <= noff c -> (0 < noff c -> sie c = false) ->
  exists c', pop_off (push_off c) = inr c' /\ noff c' = noff c /\ sie c' = sie c /\
    (0 < noff c -> intena c' = intena c).
Proof.
  intros Hn Hs. unfold pop_off, push_off. cbn [noff sie intena].
  destruct (Z.ltb_spec (noff c + 1) 1); [lia|]. eexists. split; [reflexivity|]. cbn [noff sie intena].
  replace (noff c + 1 - 1) with (noff c) by lia. split; [done|].
  destruct (Z.eqb_spec (noff c) 0); cbn [andb].
  - split; [by destruct (sie c)|lia].
  - rewrite Hs by lia. done.
Qed.

Definition demo_machine : machine :=
  acquire_mark 0 L_kmem (acquire_swap 0 L_kmem (acquire_enter 0 L_kmem (machine0 (fun _ => true)))).

Lemma demo_reachable : reachable demo_machine.
Proof.
  set (m0 := machine0 (fun _ => true)). set (m1 := acquire_enter 0 L_kmem m0). set (m2 := acquire_swap 0 L_kmem m1).
  apply (reach_step m2); [apply (reach_step m1); [apply (reach_step m0)|]|].
  - apply reach_init.
  - by apply step_acquire_enter.
  - by apply step_acquire_swap.
  - by apply step_acquire_mark.
Qed.

Lemma mutual_exclusion_witness : sie (cpus demo_machine 0) = false.
Proof.
  apply (proj2 (mutual_exclusion demo_machine 0 0 L_kmem demo_reachable
    (or_introl (list_elem_of_here _ _)) (or_introl (list_elem_of_here _ _)))). reflexivity.
Defined.

Lemma lock_panics_witness : pcs (acquire_enter 0 L_kmem demo_machine) 0 = Stopped "acquire".
Proof.
  apply (proj1 (lock_panics demo_machine 0 L_kmem demo_reachable) eq_refl). apply list_elem_of_here.
Defined.

Lemma spinlock_refines_witness :
  release L_kmem (Ctx [L_kmem] []) tt = Ok tt (Ctx (owned (release_enter 0 L_kmem demo_machine) 0%nat) []) tt.
Proof.
  apply (proj2 (proj2 (spinlock_refines demo_machine 0 L_kmem [] tt demo_reachable)) eq_refl).
Defined.

Lemma push_pop_nested_witness : exists c', pop_off (push_off (Cpu 1 true false)) = inr c' /\ noff c' = 1.
Proof.
  destruct (push_pop_nested (Cpu 1 true false)) as (c' & H & Hn & _); [cbn; lia|done|]. by exists c'.
Defined.
