(* ===== verification/Sleeplock.v ===== *)
(** Sleep locks (kernel/sleeplock.c).

    Each operation runs under the spinlock inside the sleep lock, so it is one
    step for the other processes.  A process that finds the lock taken gives up
    the CPU; the loop of acquiresleep() has no local state, so when it is woken
    it goes through the same test again, which is a new run of the operation.

    [L] is the spinlock and [ch] the address of the sleep lock, [pid] is
    myproc()->pid. *)
From S2P Require Import Prelude.
Local Open Scope Z_scope.

Record sleeplock : Type := Sleeplock { sl_locked : Z; sl_pid : Z }.

Definition initsleeplock : sleeplock := Sleeplock 0 0.

Section Sleeplock.
Variables (L : lock) (ch : chan) (pid : Z).

Definition acquiresleep : M sleeplock unit :=
  acquire L ;;!
  lk <-! getM ;;
  if negb (sl_locked lk =? 0) then sleep ch L
  else
    modifyM (fun lk => Sleeplock 1 (sl_pid lk)) ;;!
    modifyM (fun lk => Sleeplock (sl_locked lk) pid) ;;!
    release L.

Definition releasesleep : M sleeplock unit :=
  acquire L ;;!
  modifyM (fun lk => Sleeplock 0 (sl_pid lk)) ;;!
  modifyM (fun lk => Sleeplock (sl_locked lk) 0) ;;!
  wakeup_ev ch ;;!
  release L.

Definition holdingsleep : M sleeplock bool :=
  acquire L ;;!
  lk <-! getM ;;
  let r := negb (sl_locked lk =? 0) && (sl_pid lk =? pid) in
  release L ;;!
  retM r.

(** ** What one call does *)

Lemma acquiresleep_free c s : L ∉ held c -> sl_locked s = 0 ->
  acquiresleep c s = Ok tt c (Sleeplock 1 pid).
Proof.
  intros Hc Hs. unfold acquiresleep.
  rewrite (bind_Ok _ _ _ _ _ _ _ (acquire_free _ _ s Hc)). mrun. rewrite Hs. cbn [Z.eqb negb]. by mrun.
Qed.

Lemma acquiresleep_taken c s : held c = [] -> sl_locked s <> 0 -> acquiresleep c s = Asleep ch c s.
Proof.
  intros Hc Hs. unfold acquiresleep.
  rewrite (bind_Ok _ _ _ _ _ _ _ (acquire_free L c s ltac:(rewrite Hc; apply not_elem_of_nil))). mrun.
  destruct (Z.eqb_spec (sl_locked s) 0); [done|]. cbn [negb]. unfold sleep. cbn [held out].
  rewrite decide_True by set_solver. rewrite remove_lock_head, Hc. destruct c. cbn in *. by subst.
Qed.

Lemma releasesleep_run c s : L ∉ held c ->
  releasesleep c s = Ok tt (Ctx (held c) (EvWakeup ch :: out c)) (Sleeplock 0 0).
Proof.
  intros Hc. unfold releasesleep.
  rewrite (bind_Ok _ _ _ _ _ _ _ (acquire_free _ _ s Hc)). unfold wakeup_ev. by mrun.
Qed.

Lemma holdingsleep_run c s : L ∉ held c ->
  holdingsleep c s = Ok (negb (sl_locked s =? 0) && (sl_pid s =? pid)) c s.
Proof.
  intros Hc. unfold holdingsleep.
  rewrite (bind_Ok _ _ _ _ _ _ _ (acquire_free _ _ s Hc)). mrun. done.
Qed.
End Sleeplock.

(** ** A lock and its users

    Processes call the operations in any order; a process calls releasesleep()
    only when it is past acquiresleep(), as every caller in the kernel does. *)

Record users : Type := Users {
  u_lock : sleeplock;
  u_in : gset Z;      (* past acquiresleep(), not yet in releasesleep() *)
  u_wait : gset Z;    (* asleep on the lock *)
}.

Section Users.
Variables (L : lock) (ch : chan).

(** wakeup(ch) makes every process that sleeps on [ch] runnable. *)
Definition woken (o : list event) (w : gset Z) : gset Z :=
  if decide (EvWakeup ch ∈ o) then ∅ else w.

Inductive ustep : users -> users -> Prop :=
| us_acquire u p c' lk' : p ∉ u_in u -> p ∉ u_wait u ->
    acquiresleep L ch p (Ctx [] []) (u_lock u) = Ok tt c' lk' ->
    ustep u (Users lk' ({[ p ]} ∪ u_in u) (woken (out c') (u_wait u)))
| us_block u p c' lk' : p ∉ u_in u -> p ∉ u_wait u ->
    acquiresleep L ch p (Ctx [] []) (u_lock u) = Asleep ch c' lk' ->
    ustep u (Users lk' (u_in u) ({[ p ]} ∪ woken (out c') (u_wait u)))
| us_release u p c' lk' : p ∈ u_in u ->
    releasesleep L ch (Ctx [] []) (u_lock u) = Ok tt c' lk' ->
    ustep u (Users lk' (u_in u ∖ {[ p ]}) (woken (out c') (u_wait u))).

Inductive users_reach : users -> Prop :=
| ur_init : users_reach (Users initsleeplock ∅ ∅)
| ur_step u u' : users_reach u -> ustep u u' -> users_reach u'.

Definition users_inv (u : users) : Prop :=
  (sl_locked (u_lock u) = 0 /\ u_in u = ∅ /\ u_wait u = ∅) \/
  (exists p, sl_locked (u_lock u) = 1 /\ sl_pid (u_lock u) = p /\ u_in u = {[ p ]}).

Lemma users_reach_inv u : users_reach u -> users_inv u.
Proof.
  assert (L ∉ held (Ctx [] [])) as HL by apply not_elem_of_nil.
  induction 1 as [|u u' _ IH Hs]; [by left|].
  destruct Hs as [u p c' lk' Hin Hw Hr|u p c' lk' Hin Hw Hr|u p c' lk' Hin Hr].
  - destruct IH as [(H0 & E1 & E2)|(q & H1 & E1 & E2)].
    + rewrite acquiresleep_free in Hr by done. injection Hr as <- <-. right. exists p.
      cbn. rewrite E1. split_and!; [done..|set_solver].
    + rewrite acquiresleep_taken in Hr by (done || lia). done.
  - destruct IH as [(H0 & E1 & E2)|(q & H1 & E1 & E2)].
    + rewrite acquiresleep_free in Hr by done. done.
    + rewrite acquiresleep_taken in Hr by (done || lia). injection Hr as <- <-. right. by exists q.
  - rewrite releasesleep_run in Hr by done. injection Hr as <- <-. left.
    destruct IH as [(H0 & E1 & E2)|(q & H1 & E1 & E2)].
    { rewrite E1 in Hin. by apply elem_of_empty in Hin. }
    cbn. rewrite E2 in *. apply elem_of_singleton in Hin as ->. split_and!; [done|set_solver|]. unfold woken. by rewrite decide_True by set_solver.
Qed.

(** C34: sleep locks.  Under any sequence of calls by any processes, at most one process is past
    acquiresleep() and holdingsleep() answers true for exactly that one; and no wakeup is lost:
    a process is asleep on the lock only while another one holds it. *)
Theorem sleeplock_exclusive u : users_reach u ->
  (forall p q, p ∈ u_in u -> q ∈ u_in u -> p = q) /\
  (forall p, 0 < p -> p ∈ u_in u <->
     holdingsleep L p (Ctx [] []) (u_lock u) = Ok true (Ctx [] []) (u_lock u)) /\
  (u_wait u <> ∅ -> exists p, p ∈ u_in u).
Proof.
  intros I%users_reach_inv.
  assert (L ∉ held (Ctx [] [])) as HL by apply not_elem_of_nil.
  destruct I as [(H0 & E1 & E2)|(q & H1 & E1 & E2)]; rewrite ?E1, ?E2; split_and!.
  - intros p q ?%elem_of_empty. done.
  - intros p Hp. rewrite holdingsleep_run, H0 by done. rewrite elem_of_empty. done.
  - done.
  - intros p p'. rewrite !elem_of_singleton. congruence.
  - intros p Hp. rewrite holdingsleep_run, H1, E1 by done. cbn [Z.eqb negb andb].
    rewrite elem_of_singleton. destruct (Z.eqb_spec q p) as [->|Hne]; [done|]. split; [by intros ->|done].
  - intros _. exists q. by apply elem_of_singleton.
Qed.
End Users.

Lemma sleeplock_exclusive_witness :
  holdingsleep (L_bufsleep 0) 7 (Ctx [] []) (Sleeplock 1 7) = Ok true (Ctx [] []) (Sleeplock 1 7).
Proof.
  assert (users_reach (L_bufsleep 0) (Ch_bufsleep 0) (Users (Sleeplock 1 7) ({[ 7 ]} ∪ ∅) ∅)) as Hu.
  { apply (ur_step _ _ (Users initsleeplock ∅ ∅)); [apply ur_init|].
    apply (us_acquire _ _ (Users initsleeplock ∅ ∅) 7 (Ctx [] [])); [set_solver..|]. reflexivity. }
  apply (proj1 (proj2 (sleeplock_exclusive (L_bufsleep 0) (Ch_bufsleep 0) _ Hu)) 7); [lia|set_solver].
Defined.
