(* ===== verification/BlockCache.v ===== *)
(** What the buffer cache promises to its clients.

    [BlockCache] lists the operations of bio.c that the logging layer and the
    file system call, and the laws they rely on.  The laws speak of an abstract
    state: the contents of every block as a reader of the cache sees them, the
    disk, the history of writes to it, and the buffers that are referenced.
    [Log] is proved against this interface; [Bio] implements it. *)
From S2P Require Import Prelude Machine.
From stdpp Require Import functions.
Local Open Scope Z_scope.

Definition BSIZE : Z := 1024.

(** A block is the finite map of its bytes, as memory in [Machine]. *)
Definition block : Type := gmap Z Z.

(** A referenced block: its buffer, the reference count, and whether the
    running process holds the buffer's sleep lock. *)
Record bref : Type := Ref { rf_buf : nat; rf_cnt : Z; rf_mine : bool }.

Record cstate : Type := CState {
  cs_view : Z -> block;
  cs_disk : gmap Z block;
  cs_writes : list (Z * block);
  cs_refs : gmap Z bref;
}.

Definition on_disk (d : gmap Z block) (bn : Z) : block := default ∅ (d !! bn).

Definition with_view (v : Z -> block) (a : cstate) : cstate := CState v (cs_disk a) (cs_writes a) (cs_refs a).
Definition with_refs (r : gmap Z bref) (a : cstate) : cstate := CState (cs_view a) (cs_disk a) (cs_writes a) r.
Definition with_write (bn : Z) (a : cstate) : cstate :=
  CState (cs_view a) (<[bn := cs_view a bn]> (cs_disk a)) ((bn, cs_view a bn) :: cs_writes a) (cs_refs a).

(** The locks the cache takes are free. *)
Definition cache_free (c : ctx) : Prop := (L_bcache ∉ held c) /\ forall i, L_bufsleep i ∉ held c.

Class BlockCache (S : Type) : Type := {
  bc_bread : Z -> Z -> M S nat;
  bc_bwrite : nat -> M S unit;
  bc_brelse : nat -> M S unit;
  bc_bpin : nat -> M S unit;
  bc_bunpin : nat -> M S unit;
  bc_data : S -> nat -> block;
  bc_blockno : S -> nat -> Z;
  bc_set_data : nat -> block -> M S unit;
  bc_nbuf : nat;

  (** [bc_rep s a]: [a] describes [s]. *)
  bc_rep : S -> cstate -> Prop;

  bc_ext : forall s a v, bc_rep s a -> (forall bn, v bn = cs_view a bn) -> bc_rep s (with_view v a);
  bc_cnt : forall s a bn i n b, bc_rep s a -> cs_refs a !! bn = Some (Ref i n b) -> 0 < n < 2 ^ 32;
  bc_clean : forall s a bn, bc_rep s a -> cs_refs a !! bn = None -> cs_view a bn = on_disk (cs_disk a) bn;
  bc_read : forall s a bn i n b, bc_rep s a -> cs_refs a !! bn = Some (Ref i n b) ->
    bc_data s i = cs_view a bn /\ bc_blockno s i = bn;
  bc_bread_hit : forall c s a bn i n, bc_rep s a -> cache_free c ->
    cs_refs a !! bn = Some (Ref i n false) -> n + 1 < 2 ^ 32 ->
    exists s', bc_bread ROOTDEV bn c s = Ok i c s' /\
      bc_rep s' (with_refs (<[bn := Ref i (n + 1) true]> (cs_refs a)) a);
  bc_bread_miss : forall c s a bn, bc_rep s a -> cache_free c ->
    cs_refs a !! bn = None -> (size (cs_refs a) < bc_nbuf)%nat ->
    exists i s', bc_bread ROOTDEV bn c s = Ok i c s' /\
      bc_rep s' (with_refs (<[bn := Ref i 1 true]> (cs_refs a)) a);
  bc_set_data_ok : forall c s a bn i n d, bc_rep s a -> cs_refs a !! bn = Some (Ref i n true) ->
    exists s', bc_set_data i d c s = Ok tt c s' /\ bc_rep s' (with_view (<[bn := d]> (cs_view a)) a);
  bc_bwrite_ok : forall c s a bn i n, bc_rep s a -> cache_free c -> cs_refs a !! bn = Some (Ref i n true) ->
    exists s', bc_bwrite i c s = Ok tt c s' /\ bc_rep s' (with_write bn a);
  bc_brelse_ok : forall c s a bn i n, bc_rep s a -> cache_free c -> cs_refs a !! bn = Some (Ref i n true) ->
    (n = 1 -> cs_view a bn = on_disk (cs_disk a) bn) ->
    exists c' s', bc_brelse i c s = Ok tt c' s' /\ held c' = held c /\
      bc_rep s' (with_refs (if n =? 1 then delete bn (cs_refs a)
                            else <[bn := Ref i (n - 1) false]> (cs_refs a)) a);
  bc_bpin_ok : forall c s a bn i n b, bc_rep s a -> L_bcache ∉ held c ->
    cs_refs a !! bn = Some (Ref i n b) -> n + 1 < 2 ^ 32 ->
    exists s', bc_bpin i c s = Ok tt c s' /\
      bc_rep s' (with_refs (<[bn := Ref i (n + 1) b]> (cs_refs a)) a);
  bc_bunpin_ok : forall c s a bn i n b, bc_rep s a -> L_bcache ∉ held c ->
    cs_refs a !! bn = Some (Ref i n b) -> 1 < n ->
    exists s', bc_bunpin i c s = Ok tt c s' /\
      bc_rep s' (with_refs (<[bn := Ref i (n - 1) b]> (cs_refs a)) a);
}.
