(* ===== verification/Bio.v ===== *)
(** The buffer cache (kernel/bio.c, kernel/buf.h).

    The state holds the NBUF buffers with their list pointers, the disk, and
    the list of blocks written to it, which the crash proofs of [Log] read.  Buffers
    are named by their index in bcache.buf; [HEAD] is bcache.head.

    A block is the finite map of its bytes, as memory in [Machine], so that
    fields inside a block are read and written with the same loads and stores.
    [virtio_disk_rw] is the effect of a completed transfer: the process sleeps in the driver meanwhile, and the
    model has no step of another process there ([BioDisk] relates it to the driver).

    The invariant [bio_inv] says that the two chains of pointers are one list of
    all buffers, that a block is cached at most once, that a held buffer is
    referenced, and that an unreferenced valid buffer equals the disk.  The
    lemmas [bread_run], [brelse_run], ... describe the operations against
    it in terms of [view], the contents of a block as a reader sees them. *)
From stdpp Require Import functions.
From S2P Require Import Prelude Machine Sleeplock BlockCache.
Local Open Scope Z_scope.

Record buf : Type := Buf {
  valid : Z;
  dev : Z;
  blockno : Z;
  b_lock : sleeplock;
  refcnt : Z;
  prev : nat;
  next : nat;
  data : block;
}.

#[global] Instance buf_inhabited : Inhabited buf :=
  populate (Buf 0 0 0 initsleeplock 0 0 0 ∅).

(** [me] is myproc()->pid. *)
Record bio : Type := Bio {
  bufs : gmap nat buf;
  disk : gmap Z block;
  dwrites : list (Z * block);
  me : Z;
}.

Definition nbuf : nat := Z.to_nat NBUF.
Definition HEAD : nat := nbuf.

Definition get_buf (s : bio) (i : nat) : buf := bufs s !!! i.
Definition put_bufs (m : gmap nat buf) (s : bio) : bio := Bio m (disk s) (dwrites s) (me s).
Definition upd (i : nat) (f : buf -> buf) (m : gmap nat buf) : gmap nat buf := <[i := f (m !!! i)]> m.
Definition updM (i : nat) (f : buf -> buf) : M bio unit :=
  modifyM (fun s => put_bufs (upd i f (bufs s)) s).

Definition set_valid v b := Buf v (dev b) (blockno b) (b_lock b) (refcnt b) (prev b) (next b) (data b).
Definition set_lock k b := Buf (valid b) (dev b) (blockno b) k (refcnt b) (prev b) (next b) (data b).
Definition set_refcnt r b := Buf (valid b) (dev b) (blockno b) (b_lock b) r (prev b) (next b) (data b).
Definition set_prev p b := Buf (valid b) (dev b) (blockno b) (b_lock b) (refcnt b) p (next b) (data b).
Definition set_next n b := Buf (valid b) (dev b) (blockno b) (b_lock b) (refcnt b) (prev b) n (data b).
Definition set_data d b := Buf (valid b) (dev b) (blockno b) (b_lock b) (refcnt b) (prev b) (next b) d.

(** bcache.head.next->prev = b; bcache.head.next = b; after b's own pointers. *)
Definition push_front (i : nat) (m : gmap nat buf) : gmap nat buf :=
  let m := upd i (set_next (next (m !!! HEAD))) m in
  let m := upd i (set_prev HEAD) m in
  let m := upd (next (m !!! HEAD)) (set_prev i) m in
  upd HEAD (set_next i) m.

Definition unlink (i : nat) (m : gmap nat buf) : gmap nat buf :=
  let m := upd (next (m !!! i)) (set_prev (prev (m !!! i))) m in
  upd (prev (m !!! i)) (set_next (next (m !!! i))) m.

Fixpoint binit_loop (k : nat) (i : nat) (m : gmap nat buf) : gmap nat buf :=
  match k with
  | O => m
  | S k' => binit_loop k' (S i) (push_front i (upd i (set_lock initsleeplock) m))
  end.
Definition binit : M bio unit :=
  modifyM (fun s =>
    put_bufs (binit_loop nbuf 0 (upd HEAD (set_next HEAD) (upd HEAD (set_prev HEAD) (bufs s)))) s).

(** The two scans of bget: from [i] along next or prev up to the head. *)
Fixpoint scan (fuel : nat) (step : buf -> nat) (p : buf -> bool) (m : gmap nat buf) (i : nat) :
    option (option nat) :=
  if decide (i = HEAD) then Some None
  else
    match fuel with
    | O => None
    | S f => if p (m !!! i) then Some (Some i) else scan f step p m (step (m !!! i))
    end.

Definition lock_lens (i : nat) : lens bio sleeplock :=
  Lens (fun s => b_lock (get_buf s i)) (fun k s => put_bufs (upd i (set_lock k) (bufs s)) s).

Definition buf_acquiresleep (i : nat) : M bio unit :=
  s <-! getM ;; zoom (lock_lens i) (acquiresleep (L_bufsleep i) (Ch_bufsleep i) (me s)).
Definition buf_releasesleep (i : nat) : M bio unit :=
  zoom (lock_lens i) (releasesleep (L_bufsleep i) (Ch_bufsleep i)).
Definition buf_holdingsleep (i : nat) : M bio bool :=
  s <-! getM ;; zoom (lock_lens i) (holdingsleep (L_bufsleep i) (me s)).

Definition bget (d bn : Z) : M bio nat :=
  acquire L_bcache ;;!
  s <-! getM ;;
  match scan nbuf next (fun b => (dev b =? d) && (blockno b =? bn)) (bufs s) (next (get_buf s HEAD)) with
  | None => diverge
  | Some (Some i) =>
      updM i (fun b => set_refcnt (u32 (refcnt b + 1)) b) ;;!
      release L_bcache ;;!
      buf_acquiresleep i ;;!
      retM i
  | Some None =>
      match scan nbuf prev (fun b => refcnt b =? 0) (bufs s) (prev (get_buf s HEAD)) with
      | None => diverge
      | Some (Some i) =>
          updM i (fun b => Buf 0 d bn (b_lock b) 1 (prev b) (next b) (data b)) ;;!
          release L_bcache ;;!
          buf_acquiresleep i ;;!
          retM i
      | Some None => panic "bget: no buffers"
      end
  end.

Definition virtio_disk_rw (i : nat) (write : bool) : M bio unit :=
  modifyM (fun s =>
    let b := get_buf s i in
    if write then
      Bio (bufs s) (<[blockno b := data b]> (disk s)) ((blockno b, data b) :: dwrites s) (me s)
    else
      put_bufs (upd i (set_data (default ∅ (disk s !! blockno b))) (bufs s)) s).

Definition bread (d bn : Z) : M bio nat :=
  i <-! bget d bn ;;
  s <-! getM ;;
  (if valid (get_buf s i) =? 0 then
     virtio_disk_rw i false ;;! updM i (set_valid 1)
   else retM tt) ;;!
  retM i.

Definition bwrite (i : nat) : M bio unit :=
  h <-! buf_holdingsleep i ;;
  if negb h then panic "bwrite" else virtio_disk_rw i true.

Definition brelse (i : nat) : M bio unit :=
  h <-! buf_holdingsleep i ;;
  if negb h then panic "brelse"
  else
    buf_releasesleep i ;;!
    acquire L_bcache ;;!
    updM i (fun b => set_refcnt (u32 (refcnt b - 1)) b) ;;!
    s <-! getM ;;
    whenM (refcnt (get_buf s i) =? 0)
      (modifyM (fun s => put_bufs (push_front i (unlink i (bufs s))) s)) ;;!
    release L_bcache.

Definition bpin (i : nat) : M bio unit :=
  acquire L_bcache ;;!
  updM i (fun b => set_refcnt (u32 (refcnt b + 1)) b) ;;!
  release L_bcache.

Definition bunpin (i : nat) : M bio unit :=
  acquire L_bcache ;;!
  updM i (fun b => set_refcnt (u32 (refcnt b - 1)) b) ;;!
  release L_bcache.

Lemma HEAD_nbuf : HEAD = nbuf.
Proof. done. Qed.
Lemma nbuf_val : nbuf = 30%nat.
Proof. done. Qed.
#[global] Opaque nbuf HEAD.

(** ** The list of buffers *)

(** Following [f] from [a] visits [l] and then [b]. *)
Fixpoint path (f : nat -> nat) (a : nat) (l : list nat) (b : nat) : Prop :=
  match l with
  | [] => f a = b
  | x :: l' => f a = x /\ path f x l' b
  end.

Lemma path_app f a l1 x l2 b : path f a (l1 ++ x :: l2) b <-> path f a l1 x /\ path f x l2 b.
Proof. revert a. induction l1 as [|y l1 IH]; intros a; cbn; [done|]. rewrite IH. tauto. Qed.

Lemma path_ext f g a l b : (forall x, x ∈ a :: l -> f x = g x) -> path f a l b -> path g a l b.
Proof.
  revert a. induction l as [|y l IH]; intros a H; cbn; [rewrite H by set_solver; done|].
  rewrite H by set_solver. intros [-> Hp]. split; [done|]. apply IH; [|done]. set_solver.
Qed.

(** Each element of [l] and then [b] is mapped to its predecessor, the first to [a]. *)
Fixpoint bpath (g : nat -> nat) (a : nat) (l : list nat) (b : nat) : Prop :=
  match l with
  | [] => g b = a
  | x :: l' => g x = a /\ bpath g x l' b
  end.

Lemma bpath_app g a l1 x l2 b : bpath g a (l1 ++ x :: l2) b <-> bpath g a l1 x /\ bpath g x l2 b.
Proof. revert a. induction l1 as [|y l1 IH]; intros a; cbn; [done|]. rewrite IH. tauto. Qed.

Lemma bpath_rev g a l b : bpath g a l b <-> path g b (rev l) a.
Proof.
  revert a. induction l as [|x l IH]; intros a; cbn; [done|]. rewrite path_app, <- IH. cbn. tauto.
Qed.

Lemma path_start f f' a a' l b : path f a l b -> f' a' = f a ->
  (forall x, x ∈ l -> f' x = f x) -> path f' a' l b.
Proof.
  intros Hp Ha Hx. destruct l as [|y l]; cbn in *; [congruence|]. destruct Hp as [Hy Hp].
  split; [congruence|]. apply (path_ext f); [|done]. intros x Hin. symmetry. by apply Hx.
Qed.

Lemma bpath_end g g' a l b b' : bpath g a l b -> g' b' = g b ->
  (forall x, x ∈ l -> g' x = g x) -> bpath g' a l b'.
Proof.
  revert a. induction l as [|y l IH]; intros a Hp Hb Hx; cbn in *; [congruence|]. destruct Hp as [Hy Hp].
  split; [rewrite Hx by set_solver; done|]. apply IH; [done|done|]. set_solver.
Qed.

Definition nx (m : gmap nat buf) (k : nat) : nat := next (m !!! k).
Definition pv (m : gmap nat buf) (k : nat) : nat := prev (m !!! k).

Record dll (m : gmap nat buf) (l : list nat) : Prop := {
  dl_nodup : NoDup (HEAD :: l);
  dl_next : path (nx m) HEAD l HEAD;
  dl_prev : bpath (pv m) HEAD l HEAD;
}.

Lemma upd_eq i f m : upd i f m !!! i = f (m !!! i).
Proof. unfold upd. apply lookup_total_insert_eq. Qed.
Lemma upd_ne i j f m : i <> j -> upd i f m !!! j = m !!! j.
Proof. intros H. unfold upd. by apply lookup_total_insert_ne. Qed.

Lemma nx_set_prev i v m k : nx (upd i (set_prev v) m) k = nx m k.
Proof. unfold nx. destruct (decide (i = k)) as [->|H]; [by rewrite upd_eq|by rewrite upd_ne]. Qed.
Lemma pv_set_next i v m k : pv (upd i (set_next v) m) k = pv m k.
Proof. unfold pv. destruct (decide (i = k)) as [->|H]; [by rewrite upd_eq|by rewrite upd_ne]. Qed.
Lemma nx_set_next i v m k : nx (upd i (set_next v) m) k = if decide (i = k) then v else nx m k.
Proof. unfold nx. case_decide; [subst; by rewrite upd_eq|by rewrite upd_ne]. Qed.
Lemma pv_set_prev i v m k : pv (upd i (set_prev v) m) k = if decide (i = k) then v else pv m k.
Proof. unfold pv. case_decide; [subst; by rewrite upd_eq|by rewrite upd_ne]. Qed.

Lemma nx_push_front i m k : i <> HEAD ->
  nx (push_front i m) k = if decide (k = HEAD) then i else if decide (k = i) then nx m HEAD else nx m k.
Proof.
  intros Hi. unfold push_front. fold (nx m HEAD). rewrite nx_set_next, nx_set_prev, nx_set_prev, nx_set_next.
  repeat case_decide; congruence.
Qed.

Lemma pv_push_front i m k : i <> HEAD ->
  pv (push_front i m) k =
  if decide (k = nx m HEAD) then i else if decide (k = i) then HEAD else pv m k.
Proof.
  intros Hi. unfold push_front. cbv zeta. rewrite pv_set_next, pv_set_prev.
  fold (nx (upd i (set_prev HEAD) (upd i (set_next (next (m !!! HEAD))) m)) HEAD).
  rewrite nx_set_prev, nx_set_next, pv_set_prev, pv_set_next. fold (nx m HEAD).
  rewrite (decide_False (P := i = HEAD)) by done. repeat case_decide; congruence.
Qed.

Lemma push_front_dll i m l : dll m l -> i ∉ HEAD :: l -> dll (push_front i m) (i :: l).
Proof.
  intros [Hn Hx Hp] Hi. apply not_elem_of_cons in Hi as [Hih Hil]. apply NoDup_cons in Hn as [Hh Hl].
  split.
  - apply NoDup_cons. split; [set_solver|]. by constructor.
  - split; [rewrite nx_push_front by done; by rewrite decide_True|].
    apply (path_start (nx m) _ HEAD); [done| |].
    + rewrite nx_push_front by done. rewrite decide_False by done. by rewrite decide_True.
    + intros x Hxl. rewrite nx_push_front by done. rewrite !decide_False; [done|by intros ->..].
  - assert (nx m HEAD <> i) as Hne by (destruct l; cbn in Hx; set_solver).
    split; [rewrite pv_push_front by done; by rewrite decide_False, decide_True by done|].
    destruct l as [|y l]; cbn [path bpath] in *.
    + rewrite pv_push_front by done. by rewrite decide_True.
    + destruct Hx as [Ey Hx], Hp as [_ Hp]. apply NoDup_cons in Hl as [Hyl Hl].
      split; [rewrite pv_push_front by done; by rewrite decide_True|].
      assert (forall x, x ∈ HEAD :: l -> pv (push_front i m) x = pv m x) as Hpv.
      { intros x Hxl. rewrite pv_push_front, Ey by done. apply elem_of_cons in Hxl.
        rewrite !decide_False; [done| |]; intros ->; destruct Hxl; set_solver. }
      apply (bpath_end (pv m) _ _ _ HEAD); [done|apply Hpv; set_solver|].
      intros x Hxl. apply Hpv. set_solver.
Qed.

Lemma unlink_nx i m k : nx m i <> i ->
  nx (unlink i m) k = if decide (pv m i = k) then nx m i else nx m k.
Proof.
  intros Hi. unfold unlink. cbv zeta. rewrite nx_set_next.
  fold (nx m i) (pv m i) (pv (upd (nx m i) (set_prev (pv m i)) m) i) (nx (upd (nx m i) (set_prev (pv m i)) m) i).
  rewrite pv_set_prev, !nx_set_prev. by rewrite (decide_False (P := nx m i = i)).
Qed.

Lemma unlink_pv i m k : pv (unlink i m) k = if decide (nx m i = k) then pv m i else pv m k.
Proof. unfold unlink. cbv zeta. by rewrite pv_set_next, pv_set_prev. Qed.

Lemma unlink_dll i m l1 l2 : dll m (l1 ++ i :: l2) -> dll (unlink i m) (l1 ++ l2).
Proof.
  intros [Hn Hx Hp]. apply path_app in Hx as [Hx1 Hx2]. apply bpath_app in Hp as [Hp1 Hp2].
  apply NoDup_cons in Hn as [Hh Hl]. apply NoDup_app in Hl as (Hl1 & Hl12 & Hl2).
  apply NoDup_cons in Hl2 as [Hi2 Hl2].
  assert (i <> HEAD) as Hih by (intros ->; set_solver).
  assert (nx m i <> i) as Hni by (destruct l2; cbn [path] in Hx2; [congruence|destruct Hx2; set_solver]).
  split.
  - apply NoDup_cons. split; [set_solver|]. apply NoDup_app. set_solver.
  - destruct l1 as [|p l1 _] using rev_ind; cbn [bpath] in Hp1.
    + apply (path_start (nx m) _ i); [done| |].
      * rewrite unlink_nx by done. rewrite Hp1. by rewrite decide_True.
      * intros x Hin. rewrite unlink_nx, Hp1 by done. rewrite decide_False; [done|set_solver].
    + apply bpath_app in Hp1 as [_ Hpi]. cbn [bpath] in Hpi. apply path_app in Hx1 as [Hx1 _].
      rewrite <- app_assoc. cbn [app]. apply path_app. apply NoDup_app in Hl1 as (Hl1 & Hlp & _). split.
      * apply (path_ext (nx m)); [|done]. intros x Hin. rewrite unlink_nx by done.
        rewrite decide_False; [done|]. rewrite Hpi. intros ->. set_solver.
      * apply (path_start (nx m) _ i); [done| |].
        { rewrite unlink_nx by done. by rewrite decide_True. }
        intros x Hin. rewrite unlink_nx by done. rewrite decide_False; [done|]. rewrite Hpi. set_solver.
  - destruct l2 as [|y l2]; cbn [path] in Hx2.
    + rewrite app_nil_r. apply (bpath_end (pv m) _ _ _ i); [done| |].
      * rewrite unlink_pv, Hx2. by rewrite decide_True.
      * intros x Hin. rewrite unlink_pv, Hx2. rewrite decide_False; [done|]. set_solver.
    + destruct Hx2 as [Ey Hx2], Hp2 as [_ Hp2]. apply NoDup_cons in Hl2 as [Hyl Hl2]. apply bpath_app. split.
      * apply (bpath_end (pv m) _ _ _ i); [done| |].
        { rewrite unlink_pv. by rewrite decide_True. }
        intros x Hin. rewrite unlink_pv, Ey. rewrite decide_False; [done|]. set_solver.
      * apply (bpath_end (pv m) _ _ _ HEAD); [done| |].
        { rewrite unlink_pv, Ey. rewrite decide_False; [done|]. set_solver. }
        intros x Hin. rewrite unlink_pv, Ey. rewrite decide_False; [done|]. set_solver.
Qed.

Lemma scan_path (st : buf -> nat) p m : forall l fuel a,
  path (fun k => st (m !!! k)) a l HEAD -> HEAD ∉ l -> (length l <= fuel)%nat ->
  scan fuel st p m (st (m !!! a)) = Some (List.find (fun i => p (m !!! i)) l).
Proof.
  induction l as [|x l IH]; intros fuel a Hp Hh Hf; cbn [path] in Hp.
  - rewrite Hp. destruct fuel; cbn [scan]; by rewrite decide_True.
  - destruct Hp as [Ex Hp]. apply not_elem_of_cons in Hh as [Hx Hh].
    destruct fuel as [|fuel]; [cbn in Hf; lia|]. cbn [scan List.find].
    rewrite Ex, decide_False by done. destruct (p (m !!! x)); [done|]. apply IH; try done. cbn in Hf. lia.
Qed.

(** ** The invariant *)

Record bio_inv (s : bio) (l : list nat) : Prop := {
  bi_dll : dll (bufs s) l;
  bi_all : forall i, i ∈ l <-> (i < nbuf)%nat;
  bi_some : forall i, (i < nbuf)%nat -> is_Some (bufs s !! i);
  bi_dev : forall i, (i < nbuf)%nat ->
    dev (get_buf s i) = ROOTDEV \/ (dev (get_buf s i) = 0 /\ valid (get_buf s i) = 0);
  bi_uniq : forall i j, (i < nbuf)%nat -> (j < nbuf)%nat -> dev (get_buf s i) = ROOTDEV ->
    dev (get_buf s j) = ROOTDEV -> blockno (get_buf s i) = blockno (get_buf s j) -> i = j;
  bi_ref : forall i, (i < nbuf)%nat -> 0 <= refcnt (get_buf s i) < 2 ^ 32;
  bi_lock : forall i, (i < nbuf)%nat -> sl_locked (b_lock (get_buf s i)) <> 0 -> 0 < refcnt (get_buf s i);
  bi_clean : forall i, (i < nbuf)%nat -> refcnt (get_buf s i) = 0 -> valid (get_buf s i) <> 0 ->
    data (get_buf s i) = default ∅ (disk s !! blockno (get_buf s i));
}.

(** Buffer [i] is the one that caches block [bn]. *)
Definition caches (s : bio) (i : nat) (bn : Z) : Prop :=
  (i < nbuf)%nat /\ dev (get_buf s i) = ROOTDEV /\ blockno (get_buf s i) = bn.

Definition lookup_buf (s : bio) (bn : Z) : option nat :=
  List.find (fun i => (dev (get_buf s i) =? ROOTDEV) && (blockno (get_buf s i) =? bn)) (seq 0 nbuf).

(** The contents of block [bn] as a reader of the cache sees them. *)
Definition view (s : bio) (bn : Z) : block :=
  match lookup_buf s bn with
  | Some i => if valid (get_buf s i) =? 0 then default ∅ (disk s !! bn) else data (get_buf s i)
  | None => default ∅ (disk s !! bn)
  end.

Lemma lookup_buf_Some s l bn i : bio_inv s l -> lookup_buf s bn = Some i <-> caches s i bn.
Proof.
  intros I. unfold lookup_buf, caches. split.
  - intros [Hin Hp]%List.find_some. apply in_seq in Hin. lia.
  - intros (Hi & Hd & Hb). destruct (List.find _ _) as [j|] eqn:E.
    + apply List.find_some in E as [Hin Hp]. apply in_seq in Hin. f_equal.
      apply (bi_uniq s l I); lia.
    + pose proof (List.find_none _ _ E i) as H. cbv beta in H. rewrite Hd, Hb, !Z.eqb_refl in H.
      specialize (H ltac:(apply in_seq; lia)). done.
Qed.

Lemma lookup_buf_None s bn : lookup_buf s bn = None <-> forall i, ~ caches s i bn.
Proof.
  unfold lookup_buf, caches. split.
  - intros E i (Hi & Hd & Hb). pose proof (List.find_none _ _ E i) as H. cbv beta in H. rewrite Hd, Hb, !Z.eqb_refl in H.
    specialize (H ltac:(apply in_seq; lia)). done.
  - intros H. destruct (List.find _ _) as [j|] eqn:E; [|done].
    apply List.find_some in E as [Hin Hp]. apply in_seq in Hin. destruct (H j). lia.
Qed.

Lemma view_caches s l bn i : bio_inv s l -> caches s i bn ->
  view s bn = if valid (get_buf s i) =? 0 then default ∅ (disk s !! bn) else data (get_buf s i).
Proof. intros I H. unfold view. by rewrite (proj2 (lookup_buf_Some s l bn i I) H). Qed.

Lemma view_uncached s bn : (forall i, ~ caches s i bn) -> view s bn = default ∅ (disk s !! bn).
Proof. intros H. unfold view. by rewrite (proj2 (lookup_buf_None s bn) H). Qed.

(** ** The sleep lock inside a buffer *)

Lemma put_bufs_id s : put_bufs (bufs s) s = s.
Proof. by destruct s. Qed.

Lemma buf_acquiresleep_run c s i : L_bufsleep i ∉ held c -> sl_locked (b_lock (get_buf s i)) = 0 ->
  buf_acquiresleep i c s = Ok tt c (put_bufs (upd i (set_lock (Sleeplock 1 (me s))) (bufs s)) s).
Proof.
  intros Hc Hl. unfold buf_acquiresleep. mrun. unfold zoom. cbn [lget lput lock_lens].
  by rewrite acquiresleep_free.
Qed.

Lemma buf_releasesleep_run c s i : L_bufsleep i ∉ held c ->
  buf_releasesleep i c s = Ok tt (Ctx (held c) (EvWakeup (Ch_bufsleep i) :: out c))
    (put_bufs (upd i (set_lock (Sleeplock 0 0)) (bufs s)) s).
Proof.
  intros Hc. unfold buf_releasesleep, zoom. cbn [lget lput lock_lens]. by rewrite releasesleep_run.
Qed.

(** The buffer is locked by the running process. *)
Definition mine (s : bio) (i : nat) : Prop := b_lock (get_buf s i) = Sleeplock 1 (me s).

Lemma buf_holdingsleep_run c s i : L_bufsleep i ∉ held c -> mine s i -> is_Some (bufs s !! i) ->
  buf_holdingsleep i c s = Ok true c s.
Proof.
  intros Hc Hm [b Hb]. unfold buf_holdingsleep. mrun. unfold zoom. cbn [lget lput lock_lens].
  rewrite holdingsleep_run by done. rewrite Hm. cbn [sl_locked sl_pid Z.eqb negb andb]. rewrite Z.eqb_refl.
  f_equal. unfold put_bufs, upd. rewrite <- Hm. unfold get_buf. rewrite (lookup_total_correct _ _ _ Hb).
  rewrite insert_id; [by destruct s|]. rewrite Hb. by destruct b.
Qed.

(** ** bget and bread *)

Lemma get_upd s i f : get_buf (put_bufs (upd i f (bufs s)) s) i = f (get_buf s i).
Proof. apply upd_eq. Qed.
Lemma get_upd_ne s i f j : i <> j -> get_buf (put_bufs (upd i f (bufs s)) s) j = get_buf s j.
Proof. apply upd_ne. Qed.

(** Changing one buffer but not its place in the list. *)
Lemma bio_inv_upd s l i f : bio_inv s l -> (i < nbuf)%nat ->
  (forall b, prev (f b) = prev b /\ next (f b) = next b) ->
  let b' := f (get_buf s i) in
  (dev b' = ROOTDEV \/ (dev b' = 0 /\ valid b' = 0)) ->
  (dev b' = ROOTDEV -> forall j, j <> i -> ~ caches s j (blockno b')) ->
  0 <= refcnt b' < 2 ^ 32 -> (sl_locked (b_lock b') <> 0 -> 0 < refcnt b') ->
  (refcnt b' = 0 -> valid b' <> 0 -> data b' = default ∅ (disk s !! blockno b')) ->
  bio_inv (put_bufs (upd i f (bufs s)) s) l.
Proof.
  intros I Hi Hf b' Hd Hu Hr Hl Hc.
  assert (forall j, get_buf (put_bufs (upd i f (bufs s)) s) j = if decide (i = j) then b' else get_buf s j) as Hg.
  { intros j. case_decide; [subst; apply get_upd|by apply get_upd_ne]. }
  split.
  - destruct (bi_dll _ _ I) as [Hn Hx Hp].
    assert (forall k, prev (upd i f (bufs s) !!! k) = prev (bufs s !!! k) /\
                      next (upd i f (bufs s) !!! k) = next (bufs s !!! k)) as Hk.
    { intros k. destruct (decide (i = k)) as [->|]; [rewrite upd_eq; apply Hf|by rewrite upd_ne]. }
    split; [done| |].
    + apply (path_ext (nx (bufs s))); [|done]. intros k _. symmetry. apply Hk.
    + apply (bpath_end (pv (bufs s)) _ _ _ HEAD); [done|apply Hk|]. intros k _. apply Hk.
  - apply I.
  - intros j Hj. cbn [bufs put_bufs]. unfold upd. destruct (decide (i = j)) as [->|Hne].
    + rewrite lookup_insert_eq. done.
    + rewrite lookup_insert_ne by done. by apply I.
  - intros j Hj. rewrite Hg. case_decide; [done|by apply I].
  - intros j k Hj Hk. rewrite !Hg. case_decide as E1; case_decide as E2; subst; try done.
    + intros H1 H2 H3. destruct (Hu H1 k); [done|]. by split_and!.
    + intros H1 H2 H3. destruct (Hu H2 j); [done|]. by split_and!.
    + by apply (bi_uniq s l I).
  - intros j Hj. rewrite Hg. case_decide; [done|by apply I].
  - intros j Hj. rewrite Hg. case_decide; [done|by apply I].
  - intros j Hj. rewrite Hg. cbn [disk put_bufs]. case_decide; [done|by apply I].
Qed.

Lemma view_eq s l s' l' bn : bio_inv s l -> bio_inv s' l' ->
  (default ∅ (disk s' !! bn) = default ∅ (disk s !! bn)) ->
  (forall i, caches s' i bn -> valid (get_buf s' i) <> 0 -> data (get_buf s' i) = view s bn) ->
  (forall i, caches s i bn -> valid (get_buf s i) <> 0 ->
     (caches s' i bn /\ valid (get_buf s' i) <> 0) \/ data (get_buf s i) = default ∅ (disk s !! bn)) ->
  view s' bn = view s bn.
Proof.
  intros I I' Hd H1 H2.
  assert (view s bn = default ∅ (disk s !! bn) \/ exists i, caches s i bn /\ valid (get_buf s i) <> 0 /\ view s bn = data (get_buf s i)) as Hv.
  { destruct (lookup_buf s bn) as [i|] eqn:E.
    - apply (lookup_buf_Some s l bn i I) in E as Hc. rewrite (view_caches s l bn i I Hc).
      destruct (Z.eqb_spec (valid (get_buf s i)) 0); [by left|right; by exists i].
    - left. apply view_uncached. by apply lookup_buf_None. }
  destruct (lookup_buf s' bn) as [i|] eqn:E.
  - apply (lookup_buf_Some s' l' bn i I') in E as Hc. rewrite (view_caches s' l' bn i I' Hc).
    destruct (Z.eqb_spec (valid (get_buf s' i)) 0) as [Hz|Hz]; [|by apply H1].
    rewrite Hd. destruct Hv as [->|(j & Hj & Hvj & ->)]; [done|].
    destruct (H2 j Hj Hvj) as [[Hj' Hvj']|H]; [|done].
    assert (i = j) as -> by (apply (bi_uniq s' l' I'); destruct Hc as (?&?&?), Hj' as (?&?&?); congruence). done.
  - rewrite view_uncached by (by apply lookup_buf_None). rewrite Hd.
    destruct Hv as [->|(j & Hj & Hvj & ->)]; [done|].
    destruct (H2 j Hj Hvj) as [[Hj' Hvj']|H]; [|done]. by destruct (proj1 (lookup_buf_None s' bn) E j).
Qed.

Lemma find_in_list s l bn i : bio_inv s l -> caches s i bn ->
  List.find (fun i => (dev (bufs s !!! i) =? ROOTDEV) && (blockno (bufs s !!! i) =? bn)) l = Some i.
Proof.
  intros I (Hi & Hd & Hb). destruct (List.find _ l) as [j|] eqn:E.
  - apply List.find_some in E as [Hin Hp]. f_equal. apply list_elem_of_In in Hin.
    apply (bi_all _ _ I) in Hin. unfold get_buf in *. apply (bi_uniq s l I); unfold get_buf; lia.
  - pose proof (List.find_none _ _ E i) as H. cbv beta in H. unfold get_buf in *. rewrite Hd, Hb, !Z.eqb_refl in H.
    specialize (H ltac:(apply list_elem_of_In, (bi_all _ _ I); done)). done.
Qed.

Lemma find_uncached s l bn : bio_inv s l -> (forall i, ~ caches s i bn) ->
  List.find (fun i => (dev (bufs s !!! i) =? ROOTDEV) && (blockno (bufs s !!! i) =? bn)) l = None.
Proof.
  intros I Hn. destruct (List.find _ l) as [j|] eqn:E; [|done].
  apply List.find_some in E as [Hin Hp]. apply list_elem_of_In, (bi_all _ _ I) in Hin.
  destruct (Hn j). unfold caches, get_buf. lia.
Qed.

Lemma length_lru s l : bio_inv s l -> (HEAD ∉ l) /\ (length l <= nbuf)%nat.
Proof.
  intros I. destruct (bi_dll _ _ I) as [Hn _ _]. apply NoDup_cons in Hn as [Hh Hl]. split; [done|].
  rewrite <- (length_seq nbuf 0). apply NoDup_incl_length; [by apply NoDup_ListNoDup|].
  intros i Hi. apply in_seq. apply list_elem_of_In, (bi_all _ _ I) in Hi. lia.
Qed.

Lemma scan_next s l p : bio_inv s l ->
  scan nbuf next p (bufs s) (next (get_buf s HEAD)) = Some (List.find (fun i => p (bufs s !!! i)) l).
Proof.
  intros I. destruct (length_lru s l I) as [Hh Hl]. apply (scan_path next p (bufs s) l nbuf HEAD); try done.
  apply (bi_dll _ _ I).
Qed.

Lemma scan_prev s l p : bio_inv s l ->
  scan nbuf prev p (bufs s) (prev (get_buf s HEAD)) = Some (List.find (fun i => p (bufs s !!! i)) (rev l)).
Proof.
  intros I. destruct (length_lru s l I) as [Hh Hl]. apply (scan_path prev p (bufs s) (rev l) nbuf HEAD).
  - apply bpath_rev. apply (bi_dll _ _ I).
  - intros H. apply Hh, list_elem_of_In, in_rev, list_elem_of_In, H.
  - by rewrite length_rev.
Qed.

Lemma upd_upd i f g m : upd i f (upd i g m) = upd i (fun b => f (g b)) m.
Proof. unfold upd. rewrite lookup_total_insert_eq. apply insert_insert_eq. Qed.

Lemma put_put m m' s : put_bufs m (put_bufs m' s) = put_bufs m s.
Proof. done. Qed.

(** Block [bn] can be read without waiting: it is cached and not locked, or
    there is an unreferenced buffer for it. *)
Definition readable (s : bio) (bn : Z) : Prop :=
  (exists i, caches s i bn /\ sl_locked (b_lock (get_buf s i)) = 0 /\ refcnt (get_buf s i) + 1 < 2 ^ 32) \/
  ((forall i, ~ caches s i bn) /\ exists j, (j < nbuf)%nat /\ refcnt (get_buf s j) = 0).

Definition refs (s : bio) (bn : Z) : Z :=
  match lookup_buf s bn with
  | Some i => refcnt (get_buf s i)
  | None => 0
  end.

(** What a completed bread() leaves. *)
Record read_at (s s' : bio) (i : nat) (bn : Z) : Prop := {
  ra_caches : caches s' i bn;
  ra_valid : valid (get_buf s' i) <> 0;
  ra_data : data (get_buf s' i) = view s bn;
  ra_mine : mine s' i;
  ra_ref : refcnt (get_buf s' i) = refs s bn + 1;
  ra_disk : disk s' = disk s;
  ra_writes : dwrites s' = dwrites s;
  ra_me : me s' = me s;
  ra_others : forall j, j <> i -> get_buf s' j = get_buf s j;
  ra_view : forall bn', view s' bn' = view s bn';
  ra_prev : caches s i bn \/ refcnt (get_buf s i) = 0;
}.

(** bget leaves the buffer locked and referenced, either the one that cached
    the block or the least recently used unreferenced one. *)
Lemma bget_hit c s l bn i : bio_inv s l -> L_bcache ∉ held c -> L_bufsleep i ∉ held c ->
  caches s i bn -> sl_locked (b_lock (get_buf s i)) = 0 ->
  bget ROOTDEV bn c s =
  Ok i c (put_bufs (upd i (fun b => set_lock (Sleeplock 1 (me s)) (set_refcnt (u32 (refcnt b + 1)) b)) (bufs s)) s).
Proof.
  intros I Hc1 Hc2 Hi Hl. unfold bget. rewrite bind_acquire by done. mrun.
  rewrite (scan_next s l _ I), (find_in_list s l bn i I Hi). unfold updM. mrun.
  erewrite bind_Ok by (apply buf_acquiresleep_run; [done|by rewrite get_upd]).
  cbn [bufs me put_bufs]. by rewrite upd_upd, put_put.
Qed.

Lemma bget_miss c s l bn : bio_inv s l -> L_bcache ∉ held c -> (forall i, L_bufsleep i ∉ held c) ->
  (forall i, ~ caches s i bn) ->
  bget ROOTDEV bn c s =
  match List.find (fun i => refcnt (get_buf s i) =? 0) (rev l) with
  | None => Panic "bget: no buffers"
  | Some i => Ok i c (put_bufs (upd i (fun b =>
      Buf 0 ROOTDEV bn (Sleeplock 1 (me s)) 1 (prev b) (next b) (data b)) (bufs s)) s)
  end.
Proof.
  intros I Hc1 Hc2 Hn. unfold bget. rewrite bind_acquire by done. mrun.
  rewrite (scan_next s l _ I), (find_uncached s l bn I Hn), (scan_prev s l _ I).
  change (fun i => refcnt (bufs s !!! i) =? 0) with (fun i => refcnt (get_buf s i) =? 0).
  destruct (List.find _ (rev l)) as [i|] eqn:E; [|done].
  apply List.find_some in E as [Hin Hr]. apply in_rev, list_elem_of_In, (bi_all _ _ I) in Hin.
  assert (sl_locked (b_lock (get_buf s i)) = 0) as Hl.
  { destruct (Z.eq_dec (sl_locked (b_lock (get_buf s i))) 0); [done|].
    pose proof (bi_lock _ _ I i Hin ltac:(done)). lia. }
  unfold updM. mrun.
  erewrite bind_Ok by (apply buf_acquiresleep_run; [done|by rewrite get_upd]).
  cbn [bufs me put_bufs]. by rewrite upd_upd, put_put.
Qed.

Lemma bread_of_bget c s d bn i s1 : bget d bn c s = Ok i c s1 ->
  bread d bn c s =
  Ok i c (if valid (get_buf s1 i) =? 0
          then put_bufs (upd i (fun b => set_valid 1 (set_data (default ∅ (disk s1 !! blockno (get_buf s1 i))) b)) (bufs s1)) s1
          else s1).
Proof.
  intros H. unfold bread. rewrite (bind_Ok _ _ _ _ _ _ _ H). mrun.
  destruct (valid (get_buf s1 i) =? 0); [|by mrun]. unfold virtio_disk_rw, updM. mrun. cbn [bufs put_bufs].
  by rewrite upd_upd.
Qed.

Lemma refs_caches s l bn i : bio_inv s l -> caches s i bn -> refs s bn = refcnt (get_buf s i).
Proof. intros I H. unfold refs. by rewrite (proj2 (lookup_buf_Some s l bn i I) H). Qed.

Lemma refs_uncached s bn : (forall i, ~ caches s i bn) -> refs s bn = 0.
Proof. intros H. unfold refs. by rewrite (proj2 (lookup_buf_None s bn) H). Qed.

(** A single composite update gives the state after bread(). *)
Lemma read_at_upd s l i bn F : bio_inv s l -> (i < nbuf)%nat ->
  (forall b, prev (F b) = prev b /\ next (F b) = next b) ->
  let b := get_buf s i in let b' := F b in
  dev b' = ROOTDEV -> blockno b' = bn -> valid b' <> 0 -> data b' = view s bn ->
  b_lock b' = Sleeplock 1 (me s) -> refcnt b' = refs s bn + 1 -> refs s bn + 1 < 2 ^ 32 ->
  (forall j, j <> i -> ~ caches s j bn) ->
  (caches s i bn \/ refcnt b = 0) ->
  let s' := put_bufs (upd i F (bufs s)) s in
  bio_inv s' l /\ read_at s s' i bn.
Proof.
  intros I Hi HF b b' Hd Hb Hv Hdt Hl Hr Hr2 Hu Hold s'.
  assert (0 <= refs s bn) as H0.
  { unfold refs. destruct (lookup_buf s bn) as [j|] eqn:E; [|lia].
    apply (lookup_buf_Some s l bn j I) in E as (Hj & _). pose proof (bi_ref _ _ I j Hj). lia. }
  assert (bio_inv s' l) as I'.
  { apply (bio_inv_upd s l i F I Hi HF); fold b b'; rewrite ?Hr, ?Hb; [by left|done|lia|lia|lia]. }
  split; [done|]. split; try done.
  - unfold caches, s'. by rewrite get_upd.
  - unfold s'. by rewrite get_upd.
  - unfold s'. by rewrite get_upd.
  - unfold mine, s'. by rewrite get_upd.
  - unfold s'. by rewrite get_upd.
  - intros j Hj. unfold s'. by rewrite get_upd_ne.
  - intros bn'. apply (view_eq s l s' l); try done.
    + intros j (Hj & Hjd & Hjb) Hjv. unfold s' in *. destruct (decide (i = j)) as [<-|Hne].
      * rewrite get_upd in *. rewrite <- Hjb. change (F (get_buf s i)) with b'. by rewrite Hb.
      * rewrite get_upd_ne in * by done. rewrite (view_caches s l bn' j I) by done.
        by destruct (Z.eqb_spec (valid (get_buf s j)) 0).
    + intros j (Hj & Hjd & Hjb) Hjv. unfold s', caches. destruct (decide (i = j)) as [<-|Hne].
      * rewrite !get_upd. destruct Hold as [(_ & _ & Hbn)|H]; [left|right].
        -- change (F (get_buf s i)) with b'. split_and!; try done. by rewrite Hb, <- Hbn, <- Hjb.
        -- rewrite <- Hjb. by apply I.
      * rewrite !get_upd_ne by done. left. by split_and!.
Qed.

(** bread() returns a locked buffer with the contents of the block, and
    changes neither what any block reads as nor the disk. *)
Lemma bread_run c s l bn : bio_inv s l -> L_bcache ∉ held c -> (forall i, L_bufsleep i ∉ held c) ->
  readable s bn ->
  exists i s', bread ROOTDEV bn c s = Ok i c s' /\ bio_inv s' l /\ read_at s s' i bn.
Proof.
  intros I Hc1 Hc2 [(i & Hi & Hl & Hr)|[Hn (j & Hj & Hjr)]].
  - rewrite (bread_of_bget _ _ _ _ _ _ (bget_hit c s l bn i I Hc1 (Hc2 i) Hi Hl)), get_upd.
    pose proof (refs_caches s l bn i I Hi) as Er. pose proof (bi_ref _ _ I i (proj1 Hi)) as Hrr.
    pose proof (view_caches s l bn i I Hi) as Ev.
    assert (forall j, j <> i -> ~ caches s j bn) as Hu.
    { intros j Hji Hj. apply Hji. destruct Hi as (?&?&?), Hj as (?&?&?). apply (bi_uniq s l I); congruence. }
    exists i. cbn [valid set_lock set_refcnt].
    destruct (Z.eqb_spec (valid (get_buf s i)) 0) as [Hz|Hz]; eexists; (split; [reflexivity|]).
    + cbn [bufs put_bufs disk]. rewrite upd_upd, put_put.
      apply read_at_upd; cbn; try done; rewrite ?Er, ?u32_small; try lia; try apply Hi; auto.
      * by destruct Hi as (_ & _ & ->).
    + apply read_at_upd; cbn; try done; rewrite ?Er, ?u32_small; try lia; try apply Hi; auto.
  - pose proof (bget_miss c s l bn I Hc1 Hc2 Hn) as Hg.
    destruct (List.find _ (rev l)) as [i|] eqn:E in Hg.
    2:{ pose proof (List.find_none _ _ E j) as H. cbv beta in H. rewrite Hjr in H.
        discriminate H. by apply -> in_rev; apply list_elem_of_In, (bi_all _ _ I). }
    apply List.find_some in E as [Hin Hr]. apply in_rev, list_elem_of_In, (bi_all _ _ I) in Hin.
    rewrite (bread_of_bget _ _ _ _ _ _ Hg), get_upd. cbn [valid Z.eqb blockno]. exists i.
    eexists. split; [reflexivity|]. cbn [bufs put_bufs disk]. rewrite upd_upd, put_put.
    apply read_at_upd; cbn; try done; rewrite ?(refs_uncached s bn Hn); try lia; auto.
    by rewrite view_uncached.
Qed.

(** ** The other operations *)

Definition erase (b : buf) : buf := set_prev 0 (set_next 0 b).

Lemma erase_fields b b' : erase b = erase b' ->
  valid b = valid b' /\ dev b = dev b' /\ blockno b = blockno b' /\ b_lock b = b_lock b' /\
  refcnt b = refcnt b' /\ data b = data b'.
Proof. destruct b, b'. cbn. intros [=]. by subst. Qed.

Lemma erase_upd_next i v m k : erase (upd i (set_next v) m !!! k) = erase (m !!! k).
Proof. destruct (decide (i = k)) as [->|H]; [by rewrite upd_eq|by rewrite upd_ne]. Qed.
Lemma erase_upd_prev i v m k : erase (upd i (set_prev v) m !!! k) = erase (m !!! k).
Proof. destruct (decide (i = k)) as [->|H]; [by rewrite upd_eq|by rewrite upd_ne]. Qed.
Lemma erase_unlink i m k : erase (unlink i m !!! k) = erase (m !!! k).
Proof. unfold unlink. cbv zeta. by rewrite erase_upd_next, erase_upd_prev. Qed.
Lemma erase_push_front i m k : erase (push_front i m !!! k) = erase (m !!! k).
Proof. unfold push_front. cbv zeta. by rewrite erase_upd_next, !erase_upd_prev, erase_upd_next. Qed.

Lemma upd_some i f m (k : nat) : is_Some (m !! k) -> is_Some (upd i f m !! k).
Proof. intros H. unfold upd. destruct (decide (i = k)) as [->|]; [by rewrite lookup_insert_eq|by rewrite lookup_insert_ne]. Qed.

(** Moving buffer [i] to the front of the list. *)
Lemma bio_inv_front s l i : bio_inv s l -> (i < nbuf)%nat ->
  exists l', bio_inv (put_bufs (push_front i (unlink i (bufs s))) s) l' /\ head l' = Some i.
Proof.
  intros I Hi. destruct (bi_dll _ _ I) as [Hn Hx Hp]. pose proof (bi_all _ _ I) as Hall.
  destruct (list_elem_of_split l i) as (l1 & l2 & ->); [by apply Hall|].
  exists (i :: l1 ++ l2). split; [|done].
  assert (forall k, erase (get_buf (put_bufs (push_front i (unlink i (bufs s))) s) k) = erase (get_buf s k)) as He.
  { intros k. unfold get_buf. cbn [bufs put_bufs]. by rewrite erase_push_front, erase_unlink. }
  split.
  - apply push_front_dll; [by apply unlink_dll|].
    apply NoDup_cons in Hn as [Hh Hl]. apply NoDup_app in Hl as (_ & H1 & H2). apply NoDup_cons in H2 as [H2 _].
    set_solver.
  - intros k. rewrite <- Hall. set_solver.
  - intros k Hk. cbn [bufs put_bufs]. unfold push_front, unlink. cbv zeta.
    repeat apply upd_some. by apply I.
  - intros k Hk. destruct (erase_fields _ _ (He k)) as (-> & -> & _). by apply I.
  - intros j k Hj Hk. destruct (erase_fields _ _ (He k)) as (_ & -> & -> & _).
    destruct (erase_fields _ _ (He j)) as (_ & -> & -> & _). by apply (bi_uniq _ _ I).
  - intros k Hk. destruct (erase_fields _ _ (He k)) as (_ & _ & _ & _ & -> & _). by apply I.
  - intros k Hk. destruct (erase_fields _ _ (He k)) as (_ & _ & _ & -> & -> & _). by apply I.
  - intros k Hk. destruct (erase_fields _ _ (He k)) as (-> & _ & -> & _ & -> & ->). by apply I.
Qed.

(** Buffers agree but for their place in the list and the fields that views do not read. *)
Lemma view_same s l s' l' bn : bio_inv s l -> bio_inv s' l' -> disk s' = disk s ->
  (forall k, valid (get_buf s' k) = valid (get_buf s k) /\ dev (get_buf s' k) = dev (get_buf s k) /\
     blockno (get_buf s' k) = blockno (get_buf s k) /\ data (get_buf s' k) = data (get_buf s k)) ->
  view s' bn = view s bn.
Proof.
  intros I I' Hd Hk. apply (view_eq s l s' l'); try done; [by rewrite Hd| |].
  - intros i (Hi & Hdv & Hb) Hv. destruct (Hk i) as (E1 & E2 & E3 & E4). rewrite E1, E2, E3, E4 in *.
    rewrite (view_caches s l bn i I) by done. by destruct (Z.eqb_spec (valid (get_buf s i)) 0).
  - intros i (Hi & Hdv & Hb) Hv. left. unfold caches. destruct (Hk i) as (-> & -> & -> & _). by split_and!.
Qed.

Record released (s s' : bio) (i : nat) : Prop := {
  rl_at : erase (get_buf s' i) =
    erase (set_lock (Sleeplock 0 0) (set_refcnt (refcnt (get_buf s i) - 1) (get_buf s i)));
  rl_others : forall j, j <> i -> erase (get_buf s' j) = erase (get_buf s j);
  rl_disk : disk s' = disk s;
  rl_writes : dwrites s' = dwrites s;
  rl_me : me s' = me s;
  rl_view : forall bn, view s' bn = view s bn;
}.

(** brelse() unlocks the buffer and drops one reference; with the last one the
    buffer becomes the most recently used.  A buffer that changed must still be
    referenced afterwards (log_write() pins it). *)
Lemma brelse_run c s l i bn : bio_inv s l -> L_bcache ∉ held c -> L_bufsleep i ∉ held c ->
  caches s i bn -> mine s i ->
  (refcnt (get_buf s i) = 1 -> valid (get_buf s i) <> 0 -> data (get_buf s i) = default ∅ (disk s !! bn)) ->
  exists s' l', brelse i c s = Ok tt (Ctx (held c) (EvWakeup (Ch_bufsleep i) :: out c)) s' /\
    bio_inv s' l' /\ released s s' i.
Proof.
  intros I Hc1 Hc2 (Hi & Hd & Hb) Hm Hcl. unfold brelse.
  rewrite (bind_Ok _ _ _ _ _ _ _ (buf_holdingsleep_run c s i Hc2 Hm (bi_some _ _ I i Hi))). cbn [negb].
  rewrite (bind_Ok _ _ _ _ _ _ _ (buf_releasesleep_run c s i Hc2)).
  rewrite bind_acquire by done. unfold updM. mrun. cbn [bufs put_bufs]. rewrite upd_upd, put_put, get_upd.
  assert (0 < refcnt (get_buf s i) < 2 ^ 32) as Hr.
  { pose proof (bi_ref _ _ I i Hi). pose proof (bi_lock _ _ I i Hi). rewrite Hm in *. cbn in *. lia. }
  set (F := fun b => set_refcnt _ _).
  assert (F (get_buf s i) = set_lock (Sleeplock 0 0) (set_refcnt (refcnt (get_buf s i) - 1) (get_buf s i))) as EF.
  { unfold F. cbn [refcnt set_lock]. by rewrite u32_small by lia. }
  assert (bio_inv (put_bufs (upd i F (bufs s)) s) l) as I1.
  { apply (bio_inv_upd s l i F I Hi); [done|..]; rewrite EF; cbn; try lia.
    - intros _ j Hj (H1 & H2 & H3). by apply Hj, (bi_uniq _ _ I).
    - intros H1 H2. rewrite Hb. apply Hcl; [lia|done]. }
  assert (forall s1 l1, bio_inv s1 l1 -> disk s1 = disk s -> dwrites s1 = dwrites s -> me s1 = me s ->
    (forall k, erase (get_buf s1 k) = erase (get_buf (put_bufs (upd i F (bufs s)) s) k)) -> released s s1 i) as Hrel.
  { intros s1 l1 I2 E1 E2 E3 He. split; try done.
    - by rewrite He, get_upd, EF.
    - intros j Hj. by rewrite He, get_upd_ne.
    - intros bn'. apply (view_same s l s1 l1); try done. intros k.
      destruct (erase_fields _ _ (He k)) as (-> & -> & -> & _ & _ & ->).
      destruct (decide (i = k)) as [<-|Hne]; [by rewrite get_upd, EF|by rewrite get_upd_ne]. }
  destruct (_ =? 0); unfold whenM; mrun.
  - destruct (bio_inv_front _ _ i I1 Hi) as (l' & I2 & _). eexists _, l'. split; [reflexivity|]. split; [exact I2|].
    apply (Hrel _ l'); try done. intros k. unfold get_buf. cbn [bufs put_bufs].
    by rewrite erase_push_front, erase_unlink.
  - eexists _, l. split; [reflexivity|]. split; [exact I1|]. by apply (Hrel _ l).
Qed.

Definition wrote (s : bio) (i : nat) : bio :=
  let b := get_buf s i in
  Bio (bufs s) (<[blockno b := data b]> (disk s)) ((blockno b, data b) :: dwrites s) (me s).

Lemma bwrite_run c s l i bn : bio_inv s l -> L_bufsleep i ∉ held c -> caches s i bn -> mine s i ->
  valid (get_buf s i) <> 0 ->
  bwrite i c s = Ok tt c (wrote s i) /\ bio_inv (wrote s i) l /\
  (forall bn', view (wrote s i) bn' = view s bn').
Proof.
  intros I Hc Hca Hm Hv. destruct Hca as (Hi & Hd & Hb). unfold bwrite.
  rewrite (bind_Ok _ _ _ _ _ _ _ (buf_holdingsleep_run c s i Hc Hm (bi_some _ _ I i Hi))). cbn [negb].
  split; [done|].
  assert (0 < refcnt (get_buf s i)) as Hr by (apply (bi_lock _ _ I i Hi); by rewrite Hm).
  assert (bio_inv (wrote s i) l) as I'.
  { split; try apply I. intros j Hj Hr0 Hv0. cbn [disk wrote]. change (get_buf (wrote s i) j) with (get_buf s j) in *.
    destruct (decide (i = j)) as [<-|Hne]; [lia|]. rewrite lookup_insert_ne; [by apply I|].
    intros E. apply Hne. apply (bi_uniq _ _ I); try done. destruct (bi_dev _ _ I j Hj) as [?|[_ ?]]; done. }
  split; [done|]. intros bn'. destruct (decide (bn' = bn)) as [->|Hne].
  - rewrite (view_caches _ l bn i I') by done. rewrite (view_caches s l bn i I) by done.
    change (get_buf (wrote s i) i) with (get_buf s i). by destruct (Z.eqb_spec (valid (get_buf s i)) 0).
  - unfold view. change (lookup_buf (wrote s i) bn') with (lookup_buf s bn').
    assert (disk (wrote s i) !! bn' = disk s !! bn') as E.
    { cbn [disk wrote]. rewrite lookup_insert_ne; [done|]. congruence. }
    destruct (lookup_buf s bn') as [j|]; [|by rewrite E]. change (get_buf (wrote s i) j) with (get_buf s j).
    by rewrite E.
Qed.

(** Changing the reference count of a buffer. *)
Definition recount (s : bio) (i : nat) (r : Z) : bio := put_bufs (upd i (set_refcnt r) (bufs s)) s.

Lemma recount_inv s l i r bn : bio_inv s l -> caches s i bn -> 0 <= r < 2 ^ 32 ->
  (sl_locked (b_lock (get_buf s i)) <> 0 -> 0 < r) ->
  (r = 0 -> valid (get_buf s i) <> 0 -> data (get_buf s i) = default ∅ (disk s !! bn)) ->
  bio_inv (recount s i r) l /\ forall bn', view (recount s i r) bn' = view s bn'.
Proof.
  intros I (Hi & Hd & Hb) Hr Hl Hc.
  assert (bio_inv (recount s i r) l) as I'.
  { apply (bio_inv_upd s l i _ I Hi); cbn; try done; [by left| |by rewrite Hb].
    intros _ j Hj (H1 & H2 & H3). by apply Hj, (bi_uniq _ _ I). }
  split; [done|]. intros bn'. apply (view_same s l _ l); try done. intros k. unfold recount.
  destruct (decide (i = k)) as [<-|Hne]; [by rewrite get_upd|by rewrite get_upd_ne].
Qed.

Lemma bpin_run c s i : L_bcache ∉ held c -> 0 <= refcnt (get_buf s i) < 2 ^ 32 - 1 ->
  bpin i c s = Ok tt c (recount s i (refcnt (get_buf s i) + 1)).
Proof.
  intros Hc Hr. unfold bpin, updM. rewrite bind_acquire by done. mrun. unfold recount, upd.
  fold (get_buf s i). by rewrite u32_small by lia.
Qed.

Lemma bunpin_run c s i : L_bcache ∉ held c -> 0 < refcnt (get_buf s i) < 2 ^ 32 ->
  bunpin i c s = Ok tt c (recount s i (refcnt (get_buf s i) - 1)).
Proof.
  intros Hc Hr. unfold bunpin, updM. rewrite bind_acquire by done. mrun. unfold recount, upd.
  fold (get_buf s i). by rewrite u32_small by lia.
Qed.

(** The caller of bread() changes the data of the buffer it holds. *)
Definition modify_buf (s : bio) (i : nat) (d : block) : bio := put_bufs (upd i (set_data d) (bufs s)) s.

Lemma modify_buf_inv s l i bn d : bio_inv s l -> caches s i bn -> mine s i -> valid (get_buf s i) <> 0 ->
  bio_inv (modify_buf s i d) l /\
  forall bn', view (modify_buf s i d) bn' = if decide (bn' = bn) then d else view s bn'.
Proof.
  intros I (Hi & Hd & Hb) Hm Hv.
  assert (0 < refcnt (get_buf s i)) as Hr by (apply (bi_lock _ _ I i Hi); by rewrite Hm).
  assert (bio_inv (modify_buf s i d) l) as I'.
  { apply (bio_inv_upd s l i _ I Hi); cbn; try done; [by left| |by apply I|lia].
    intros _ j Hj (H1 & H2 & H3). by apply Hj, (bi_uniq _ _ I). }
  split; [done|]. intros bn'. case_decide as E.
  - subst bn'. rewrite (view_caches _ l bn i I'); [|unfold caches, modify_buf; by rewrite get_upd].
    unfold modify_buf. rewrite get_upd. cbn. by destruct (Z.eqb_spec (valid (get_buf s i)) 0).
  - apply (view_eq s l _ l); try done.
    + intros j (Hj & Hjd & Hjb) Hjv. unfold modify_buf in *. destruct (decide (i = j)) as [<-|Hne].
      * rewrite get_upd in *. cbn in Hjb. congruence.
      * rewrite get_upd_ne in * by done. rewrite (view_caches s l bn' j I) by done.
        by destruct (Z.eqb_spec (valid (get_buf s j)) 0).
    + intros j (Hj & Hjd & Hjb) Hjv. left. unfold modify_buf, caches. destruct (decide (i = j)) as [<-|Hne].
      * congruence.
      * by rewrite get_upd_ne.
Qed.

(** ** The initial state *)

Lemma dll_set_lock i k m l : dll m l -> dll (upd i (set_lock k) m) l.
Proof.
  intros [Hn Hx Hp].
  assert (forall j, nx (upd i (set_lock k) m) j = nx m j /\ pv (upd i (set_lock k) m) j = pv m j) as E.
  { intros j. unfold nx, pv. destruct (decide (i = j)) as [->|]; [by rewrite upd_eq|by rewrite upd_ne]. }
  split; [done| |].
  - apply (path_ext (nx m)); [|done]. intros j _. symmetry. apply E.
  - apply (bpath_end (pv m) _ _ _ HEAD); [done|apply E|]. intros j _. apply E.
Qed.

(** The buffers that binit's loop has not touched are as they were; the others
    have their locks initialised and are linked in front of [l]. *)
Lemma binit_loop_run k : forall i m l, dll m l -> (forall j, j ∈ l -> (j < i)%nat) -> (i + k <= HEAD)%nat ->
  exists l', dll (binit_loop k i m) l' /\
    (forall j, j ∈ l' <-> j ∈ l \/ (i <= j < i + k)%nat) /\
    (forall j, (j < HEAD)%nat -> erase (binit_loop k i m !!! j) =
       if decide (i <= j < i + k)%nat then set_lock initsleeplock (erase (m !!! j)) else erase (m !!! j)) /\
    (forall j, (is_Some (m !! j) \/ (i <= j < i + k)%nat) -> is_Some (binit_loop k i m !! j)).
Proof.
  induction k as [|k IH]; intros i m l Hd Hl Hk; cbn [binit_loop].
  { exists l. split_and!; [done|intros j; split; [auto|intros [?|?]; [done|lia]]| |].
    - intros j Hj. rewrite decide_False by lia. done.
    - intros j [?|?]; [done|lia]. }
  assert (i ∉ HEAD :: l) as Hi.
  { apply not_elem_of_cons. split; [lia|]. intros H%Hl. lia. }
  pose proof (push_front_dll i _ l (dll_set_lock i initsleeplock m l Hd) Hi) as Hd1.
  destruct (IH (S i) _ _ Hd1) as (l' & H1 & H2 & H3 & H4); [|lia|].
  { intros j [->|Hj%Hl]%elem_of_cons; lia. }
  exists l'. split; [done|]. split; [|split].
  - intros j. rewrite H2, elem_of_cons. split; [intros [[->|?]|?]; auto; right; lia|].
    intros [?|?]; [auto|]. destruct (decide (j = i)); [auto|right; lia].
  - intros j Hj. rewrite (H3 j Hj), !erase_push_front. destruct (decide (j = i)) as [->|Hne].
    + rewrite decide_False by lia. rewrite decide_True by lia. by rewrite upd_eq.
    + rewrite !upd_ne by done. destruct (decide (S i <= j < S i + k)%nat).
      * rewrite decide_True by lia. done.
      * rewrite decide_False by lia. done.
  - intros j Hj. apply H4. destruct (decide (j = i)) as [->|Hne].
    + left. unfold push_front. cbv zeta. do 4 apply upd_some. unfold upd. by rewrite lookup_insert_eq.
    + destruct Hj as [Hj|Hj]; [left|right; lia]. unfold push_front. cbv zeta. by repeat apply upd_some.
Qed.

(** The cache as the kernel's loader leaves it: static data is zero. *)
Definition bio0 (d : gmap Z block) (pid : Z) : bio := Bio ∅ d [] pid.

(** binit links all NBUF buffers into one list, empty, unlocked and unreferenced: the
    invariant of the buffer cache holds, and every block reads as it is on disk. *)
Lemma binit_run c d pid : exists s l, binit c (bio0 d pid) = Ok tt c s /\ bio_inv s l /\ disk s = d /\
  (forall i, (i < nbuf)%nat -> refcnt (get_buf s i) = 0) /\
  forall bn, view s bn = default ∅ (d !! bn).
Proof.
  unfold binit. mrun. unfold modifyM. cbn [bufs bio0].
  set (m0 := upd HEAD (set_next HEAD) (upd HEAD (set_prev HEAD) ∅)).
  assert (dll m0 []) as Hd.
  { split; [apply NoDup_singleton| |]; cbn [path bpath]; unfold m0.
    - rewrite nx_set_next. by rewrite decide_True.
    - rewrite pv_set_next, pv_set_prev. by rewrite decide_True. }
  destruct (binit_loop_run nbuf 0 m0 [] Hd) as (l & H1 & H2 & H3 & H4).
  { intros j ?%elem_of_nil. done. }
  { rewrite HEAD_nbuf. lia. }
  eexists _, l. split; [reflexivity|].
  set (s := put_bufs _ _).
  assert (forall j, (j < nbuf)%nat -> erase (get_buf s j) = erase (Buf 0 0 0 initsleeplock 0 0 0 ∅)) as He.
  { intros j Hj. unfold get_buf, s. cbn [bufs put_bufs]. rewrite H3 by (rewrite HEAD_nbuf; lia). rewrite decide_True by lia.
    unfold m0. assert (HEAD <> j) by (rewrite HEAD_nbuf; lia). rewrite !upd_ne by done. done. }
  assert (forall j, (j < nbuf)%nat -> valid (get_buf s j) = 0 /\ dev (get_buf s j) = 0 /\
    refcnt (get_buf s j) = 0 /\ sl_locked (b_lock (get_buf s j)) = 0) as Hf.
  { intros j Hj. destruct (erase_fields _ _ (He j Hj)) as (-> & -> & _ & -> & -> & _). done. }
  assert (bio_inv s l) as I.
  { split.
    - done.
    - intros i. rewrite H2, elem_of_nil. split; [intros [[]|?]; lia|]. intros ?. right. lia.
    - intros i Hi. apply H4. right. lia.
    - intros i Hi. right. by destruct (Hf i Hi) as (-> & -> & _).
    - intros i j Hi _ E. destruct (Hf i Hi) as (_ & E' & _). rewrite E' in E. discriminate E.
    - intros i Hi. destruct (Hf i Hi) as (_ & _ & -> & _). lia.
    - intros i Hi Hl. destruct (Hf i Hi) as (_ & _ & _ & E). congruence.
    - intros i Hi _ Hv. destruct (Hf i Hi) as (E & _). congruence. }
  split; [exact I|]. split; [reflexivity|]. split; [intros i Hi; apply (Hf i Hi)|].
  intros bn. apply (view_uncached s bn). intros i (Hi & E & _). destruct (Hf i Hi) as (_ & E' & _). rewrite E' in E. discriminate E.
Qed.

(** C22: bread, run with no step of another process in between; where it waits for the disk, the transfer is the completed one of
    [virtio_disk_rw].  A block that is cached and unlocked, or for which an unreferenced buffer is left, is returned in a
    buffer locked by the caller, with the contents the block had for every reader, one reference
    more, and no other buffer and no view of any block changed.  With every buffer
    referenced and the block not cached, bread panics.  When another process has locked the buffer of the block, bread
    sleeps on that lock. *)
Theorem bread_correct c s l bn : bio_inv s l -> held c = [] ->
  (readable s bn -> exists i s', bread ROOTDEV bn c s = Ok i c s' /\ bio_inv s' l /\ read_at s s' i bn) /\
  ((forall i, ~ caches s i bn) -> (forall i, (i < nbuf)%nat -> refcnt (get_buf s i) <> 0) ->
     bread ROOTDEV bn c s = Panic "bget: no buffers") /\
  (forall i, caches s i bn -> sl_locked (b_lock (get_buf s i)) <> 0 ->
     exists s', bread ROOTDEV bn c s = Asleep (Ch_bufsleep i) c s').
Proof.
  intros I Hc. assert (forall x, x ∉ held c) as Hh by (rewrite Hc; apply not_elem_of_nil). split_and!.
  - intros Hr. by apply bread_run.
  - intros Hn Hr. unfold bread. apply bind_Panic. rewrite (bget_miss c s l) by done.
    destruct (List.find _ (rev l)) as [i|] eqn:E; [|done].
    apply List.find_some in E as [Hin Hz]. apply in_rev, list_elem_of_In, (bi_all _ _ I), Hr in Hin. lia.
  - intros i Hi Hl. unfold bread, bget. rewrite bind_assoc, bind_acquire by done. mrun.
    rewrite (scan_next s l _ I), (find_in_list s l bn i I Hi). unfold updM. mrun.
    unfold bindM at 1. unfold buf_acquiresleep. mrun. unfold zoom. cbn [lget lput lock_lens].
    rewrite get_upd. cbn [b_lock set_refcnt]. rewrite acquiresleep_taken by done. by eexists.
Qed.

(** ** The cache implements its interface *)

(** [R] lists exactly the referenced buffers. *)
Record refs_ok (s : bio) (R : gmap Z bref) : Prop := {
  ro_in : forall bn i n b, R !! bn = Some (Ref i n b) ->
    caches s i bn /\ refcnt (get_buf s i) = n /\ 0 < n /\ valid (get_buf s i) <> 0 /\
    (if b then mine s i else sl_locked (b_lock (get_buf s i)) = 0);
  ro_all : forall i, (i < nbuf)%nat -> refcnt (get_buf s i) <> 0 ->
    exists r, R !! blockno (get_buf s i) = Some r /\ rf_buf r = i;
}.

Lemma refs_ok_insert s s' R i bn n (b : bool) : refs_ok s R -> (i < nbuf)%nat -> me s' = me s ->
  (forall j, j <> i -> erase (get_buf s' j) = erase (get_buf s j)) ->
  caches s' i bn -> refcnt (get_buf s' i) = n -> 0 < n -> valid (get_buf s' i) <> 0 ->
  (if b then mine s' i else sl_locked (b_lock (get_buf s' i)) = 0) ->
  (R !! bn = None /\ refcnt (get_buf s i) = 0) \/ (exists m b', R !! bn = Some (Ref i m b')) ->
  refs_ok s' (<[bn := Ref i n b]> R).
Proof.
  intros [H1 H2] Hi Hme He Hc Hn Hpos Hv Hb Hold. split.
  - intros bn' j m b' [[-> [= <- <- <-]]|[Hne Hj]]%lookup_insert_Some; [done|].
    destruct (H1 _ _ _ _ Hj) as (Hcj & Hrj & Hmj & Hvj & Hbj).
    assert (j <> i) as Hji.
    { intros ->. destruct Hold as [[_ Hz]|(m' & b'' & Hm)]; [lia|].
      destruct (H1 _ _ _ _ Hm) as ((_ & _ & E1) & _), Hcj as (_ & _ & E2). congruence. }
    destruct (erase_fields _ _ (He j Hji)) as (E1 & E2 & E3 & E4 & E5 & E6).
    unfold caches, mine in *. rewrite E1, E2, E3, E4, E5, Hme. done.
  - intros j Hj Hr. destruct (decide (j = i)) as [->|Hji].
    + exists (Ref i n b). destruct Hc as (_ & _ & ->). by rewrite lookup_insert_eq.
    + destruct (erase_fields _ _ (He j Hji)) as (_ & _ & E3 & _ & E5 & _). rewrite E5 in Hr. rewrite E3.
      destruct (H2 j Hj Hr) as (r & Hrj & Hb'). exists r. rewrite lookup_insert_ne; [done|].
      intros E. rewrite <- E in Hrj. destruct Hold as [[Hno _]|(m' & b'' & Hm)]; [congruence|]. rewrite Hm in Hrj.
      injection Hrj as <-. cbn in Hb'. done.
Qed.

Lemma refs_ok_delete s s' R i bn n (b : bool) : refs_ok s R -> me s' = me s ->
  (forall j, j <> i -> erase (get_buf s' j) = erase (get_buf s j)) ->
  R !! bn = Some (Ref i n b) -> refcnt (get_buf s' i) = 0 ->
  refs_ok s' (delete bn R).
Proof.
  intros [H1 H2] Hme He Hbn Hz. destruct (H1 _ _ _ _ Hbn) as ((_ & _ & Ebn) & _). split.
  - intros bn' j m b' [Hne Hj]%lookup_delete_Some.
    destruct (H1 _ _ _ _ Hj) as (Hcj & Hrj & Hmj & Hvj & Hbj).
    assert (j <> i) as Hji by (intros ->; destruct Hcj as (_ & _ & E2); congruence).
    destruct (erase_fields _ _ (He j Hji)) as (E1 & E2 & E3 & E4 & E5 & E6).
    unfold caches, mine in *. rewrite E1, E2, E3, E4, E5, Hme. done.
  - intros j Hj Hr. assert (j <> i) as Hji by (intros ->; done).
    destruct (erase_fields _ _ (He j Hji)) as (_ & _ & E3 & _ & E5 & _). rewrite E5 in Hr. rewrite E3.
    destruct (H2 j Hj Hr) as (r & Hrj & Hb'). exists r. rewrite lookup_delete_ne; [done|].
    intros E. rewrite <- E, Hbn in Hrj. injection Hrj as <-. cbn in Hb'. done.
Qed.

(** Fewer references than buffers leave one unreferenced. *)
Lemma refs_free s R : refs_ok s R -> (size R < nbuf)%nat -> exists j, (j < nbuf)%nat /\ refcnt (get_buf s j) = 0.
Proof.
  intros [H1 H2] Hs.
  destruct (decide (Exists (fun j => refcnt (get_buf s j) = 0) (seq 0 nbuf))) as [H|H].
  - apply Exists_exists in H as (j & Hj & Hz). apply elem_of_seq in Hj. exists j. split; [lia|done].
  - exfalso. apply not_Exists_Forall in H; [|apply _]. rewrite Forall_forall in H.
    assert (length (seq 0 nbuf) <= length (map fst (map_to_list R)))%nat as Hlen.
    { rewrite <- (length_map (fun j => blockno (get_buf s j))).
      apply NoDup_incl_length.
      - apply NoDup_ListNoDup, NoDup_fmap_2_strong; [|apply NoDup_seq].
        intros i j Hi Hj E. apply elem_of_seq in Hi, Hj.
        destruct (H2 i ltac:(lia) (H i ltac:(apply elem_of_seq; lia))) as (r & Hr & <-).
        destruct (H2 j ltac:(lia) (H j ltac:(apply elem_of_seq; lia))) as (r' & Hr' & <-). congruence.
      - intros bn (j & <- & Hj)%in_map_iff. apply list_elem_of_In in Hj. apply elem_of_seq in Hj as Hj'.
        destruct (H2 j ltac:(lia) (H j Hj)) as (r & Hr & _).
        apply in_map_iff. exists (blockno (get_buf s j), r). split; [done|].
        apply list_elem_of_In. by apply elem_of_map_to_list. }
    rewrite length_seq, length_map, length_map_to_list in Hlen. lia.
Qed.

Definition bio_rep (s : bio) (a : cstate) : Prop :=
  (exists l, bio_inv s l) /\ (forall bn, cs_view a bn = view s bn) /\ cs_disk a = disk s /\
  cs_writes a = dwrites s /\ refs_ok s (cs_refs a).

Lemma bio_rep_ext s a v : bio_rep s a -> (forall bn, v bn = cs_view a bn) -> bio_rep s (with_view v a).
Proof. intros (I & Hv & Hd & Hw & Hr) H. split_and!; try done. intros bn. cbn. by rewrite H. Qed.

Lemma bio_rep_clean s a bn : bio_rep s a -> cs_refs a !! bn = None -> cs_view a bn = on_disk (cs_disk a) bn.
Proof.
  intros ((l & I) & Hv & Hd & _ & Hr) Hn. rewrite Hv, Hd. unfold on_disk.
  destruct (lookup_buf s bn) as [i|] eqn:E; [|by apply view_uncached, lookup_buf_None].
  apply (lookup_buf_Some s l bn i I) in E. rewrite (view_caches s l bn i I E).
  destruct (Z.eqb_spec (valid (get_buf s i)) 0); [done|]. destruct E as (Hi & _ & Eb).
  destruct (decide (refcnt (get_buf s i) = 0)) as [Hz|Hz].
  - rewrite (bi_clean _ _ I i Hi Hz) by done. by rewrite Eb.
  - destruct (ro_all _ _ Hr i Hi Hz) as (r & Hrb & _). rewrite Eb in Hrb. congruence.
Qed.

Lemma bio_rep_read s a bn i n b : bio_rep s a -> cs_refs a !! bn = Some (Ref i n b) ->
  data (get_buf s i) = cs_view a bn /\ blockno (get_buf s i) = bn.
Proof.
  intros ((l & I) & Hv & _ & _ & Hr) Hb. destruct (ro_in _ _ Hr _ _ _ _ Hb) as (Hc & _ & _ & Hval & _).
  rewrite Hv, (view_caches s l bn i I Hc). split; [|by destruct Hc as (_ & _ & ?)].
  by destruct (Z.eqb_spec (valid (get_buf s i)) 0).
Qed.

(** From what bread() leaves to the abstract state. *)
Lemma bio_rep_read_at s s' l a i bn n : bio_inv s' l -> bio_rep s a -> read_at s s' i bn ->
  refs s bn + 1 = n -> 0 < n ->
  (cs_refs a !! bn = None /\ refcnt (get_buf s i) = 0) \/ (exists m b', cs_refs a !! bn = Some (Ref i m b')) ->
  bio_rep s' (with_refs (<[bn := Ref i n true]> (cs_refs a)) a).
Proof.
  intros I' (_ & Hv & Hd & Hw & Hr) RA Hn Hpos Hold. split_and!; cbn.
  - by exists l.
  - intros bn'. by rewrite (ra_view _ _ _ _ RA).
  - by rewrite (ra_disk _ _ _ _ RA).
  - by rewrite (ra_writes _ _ _ _ RA).
  - apply (refs_ok_insert s s'); [done|apply (ra_caches _ _ _ _ RA)|apply RA| |apply RA| |done|apply RA|apply RA|done].
    + intros j Hj. by rewrite (ra_others _ _ _ _ RA j Hj).
    + rewrite (ra_ref _ _ _ _ RA). lia.
Qed.

Lemma bio_bread_hit c s a bn i n : bio_rep s a -> cache_free c ->
  cs_refs a !! bn = Some (Ref i n false) -> n + 1 < 2 ^ 32 ->
  exists s', bread ROOTDEV bn c s = Ok i c s' /\
    bio_rep s' (with_refs (<[bn := Ref i (n + 1) true]> (cs_refs a)) a).
Proof.
  intros Hrep [Hc1 Hc2] Hb Hn. pose proof Hrep as ((l & I) & Hv & Hd & Hw & Hr).
  destruct (ro_in _ _ Hr _ _ _ _ Hb) as (Hc & Hcnt & Hpos & Hval & Hul).
  destruct (bread_run c s l bn I Hc1 Hc2) as (j & s' & Hrun & I' & RA).
  { left. exists i. by rewrite Hcnt. }
  assert (j = i) as ->.
  { destruct (decide (j = i)) as [|Hne]; [done|]. pose proof (ra_others _ _ _ _ RA i ltac:(done)) as E.
    apply (bi_uniq _ _ I'); try apply (ra_caches _ _ _ _ RA); try apply Hc; try (rewrite E; apply Hc).
    rewrite E. destruct (ra_caches _ _ _ _ RA) as (_ & _ & ->). by destruct Hc as (_ & _ & ->). }
  exists s'. split; [done|]. apply (bio_rep_read_at s s' l); try done.
  - rewrite (refs_caches s l bn i I Hc). lia.
  - lia.
  - right. by eexists _, _.
Qed.

Lemma bio_bread_miss c s a bn : bio_rep s a -> cache_free c ->
  cs_refs a !! bn = None -> (size (cs_refs a) < nbuf)%nat ->
  exists i s', bread ROOTDEV bn c s = Ok i c s' /\
    bio_rep s' (with_refs (<[bn := Ref i 1 true]> (cs_refs a)) a).
Proof.
  intros Hrep [Hc1 Hc2] Hb Hn. pose proof Hrep as ((l & I) & Hv & Hd & Hw & Hr).
  assert (forall i, caches s i bn -> refcnt (get_buf s i) = 0) as Hz.
  { intros i (Hi & _ & Eb). destruct (decide (refcnt (get_buf s i) = 0)) as [|Hne]; [done|].
    destruct (ro_all _ _ Hr i Hi Hne) as (r & Hr' & _). congruence. }
  destruct (bread_run c s l bn I Hc1 Hc2) as (i & s' & Hrun & I' & RA).
  { destruct (lookup_buf s bn) as [i|] eqn:E.
    - apply (lookup_buf_Some s l bn i I) in E. left. exists i. rewrite (Hz i E). split; [done|]. split; [|lia].
      destruct (Z.eq_dec (sl_locked (b_lock (get_buf s i))) 0) as [|Hl]; [done|].
      pose proof (bi_lock _ _ I i (proj1 E) Hl). rewrite (Hz i E) in *. lia.
    - right. split; [by apply lookup_buf_None|]. by apply (refs_free s (cs_refs a)). }
  assert (refs s bn = 0) as Er.
  { unfold refs. destruct (lookup_buf s bn) as [j|] eqn:E; [|done]. apply Hz. by apply (lookup_buf_Some s l). }
  exists i, s'. split; [done|]. apply (bio_rep_read_at s s' l); try done; [lia|]. left. split; [done|].
  destruct (ra_prev _ _ _ _ RA) as [Hc|]; [by apply Hz|done].
Qed.

Lemma bio_set_data c s a bn i n d : bio_rep s a -> cs_refs a !! bn = Some (Ref i n true) ->
  exists s', updM i (set_data d) c s = Ok tt c s' /\ bio_rep s' (with_view (<[bn := d]> (cs_view a)) a).
Proof.
  intros ((l & I) & Hv & Hd & Hw & Hr) Hb.
  destruct (ro_in _ _ Hr _ _ _ _ Hb) as (Hc & Hcnt & Hpos & Hval & Hm).
  destruct (modify_buf_inv s l i bn d I Hc Hm Hval) as [I' Hv']. eexists. split; [reflexivity|].
  fold (modify_buf s i d). split_and!; cbn; try done.
  - by exists l.
  - intros bn'. rewrite Hv'. case_decide as E; [subst; by rewrite fn_lookup_insert|].
    rewrite fn_lookup_insert_ne by done. apply Hv.
  - rewrite <- (insert_id (cs_refs a) bn (Ref i n true)) by done.
    apply (refs_ok_insert s); try done; unfold modify_buf, caches, mine; rewrite ?get_upd; try done; try apply Hc.
    + intros j Hj. by rewrite get_upd_ne.
    + right. by eexists _, _.
Qed.

Lemma bio_bwrite c s a bn i n : bio_rep s a -> cache_free c -> cs_refs a !! bn = Some (Ref i n true) ->
  exists s', bwrite i c s = Ok tt c s' /\ bio_rep s' (with_write bn a).
Proof.
  intros Hrep [_ Hc2] Hb. pose proof Hrep as ((l & I) & Hv & Hd & Hw & Hr).
  destruct (ro_in _ _ Hr _ _ _ _ Hb) as (Hc & Hcnt & Hpos & Hval & Hm).
  destruct (bio_rep_read _ _ _ _ _ _ Hrep Hb) as [Hdat Hbno].
  destruct (bwrite_run c s l i bn I (Hc2 i) Hc Hm Hval) as (Hrun & I' & Hv').
  exists (wrote s i). split; [done|]. split_and!; cbn; try (by rewrite Hdat, Hbno, ?Hd, ?Hw).
  - by exists l.
  - intros bn'. by rewrite Hv'.
  - split; [apply Hr|apply Hr].
Qed.

Lemma bio_brelse c s a bn i n : bio_rep s a -> cache_free c -> cs_refs a !! bn = Some (Ref i n true) ->
  (n = 1 -> cs_view a bn = on_disk (cs_disk a) bn) ->
  exists c' s', brelse i c s = Ok tt c' s' /\ held c' = held c /\
    bio_rep s' (with_refs (if n =? 1 then delete bn (cs_refs a)
                           else <[bn := Ref i (n - 1) false]> (cs_refs a)) a).
Proof.
  intros Hrep [Hc1 Hc2] Hb Hcl. pose proof Hrep as ((l & I) & Hv & Hd & Hw & Hr).
  destruct (ro_in _ _ Hr _ _ _ _ Hb) as (Hc & Hcnt & Hpos & Hval & Hm).
  destruct (bio_rep_read _ _ _ _ _ _ Hrep Hb) as [Hdat Hbno].
  destruct (brelse_run c s l i bn I Hc1 (Hc2 i) Hc Hm) as (s' & l' & Hrun & I' & RL).
  { intros H1 _. rewrite Hdat, Hcl by congruence. by rewrite Hd. }
  eexists _, s'. split; [exact Hrun|]. split; [done|].
  destruct (erase_fields _ _ (rl_at _ _ _ RL)) as (E1 & E2 & E3 & E4 & E5 & E6). cbn in E1, E2, E3, E4, E5, E6.
  split_and!; cbn.
  - by exists l'.
  - intros bn'. by rewrite (rl_view _ _ _ RL).
  - by rewrite (rl_disk _ _ _ RL).
  - by rewrite (rl_writes _ _ _ RL).
  - destruct (Z.eqb_spec n 1) as [->|Hne].
    + apply (refs_ok_delete s s' _ i bn 1 true); try done; [apply RL|apply RL|lia].
    + apply (refs_ok_insert s s'); try done; [apply Hc|apply RL|apply RL| |lia|lia|congruence| |].
      * unfold caches. rewrite E2, E3. apply Hc.
      * by rewrite E4.
      * right. by eexists _, _.
Qed.

Lemma bio_recount s a bn i n b n' : bio_rep s a -> cs_refs a !! bn = Some (Ref i n b) ->
  0 < n' < 2 ^ 32 -> bio_rep (recount s i n') (with_refs (<[bn := Ref i n' b]> (cs_refs a)) a).
Proof.
  intros ((l & I) & Hv & Hd & Hw & Hr) Hb Hn.
  destruct (ro_in _ _ Hr _ _ _ _ Hb) as (Hc & Hcnt & Hpos & Hval & Hm).
  destruct (recount_inv s l i n' bn I Hc) as [I' Hv']; [lia|lia|lia|].
  split_and!; cbn; try done.
  - by exists l.
  - intros bn'. by rewrite Hv'.
  - apply (refs_ok_insert s); try done; unfold recount, caches, mine; rewrite ?get_upd; try done; try apply Hc; try lia.
    + intros j Hj. by rewrite get_upd_ne.
    + right. by eexists _, _.
Qed.

#[export] Instance bio_cache : BlockCache bio.
Proof.
  refine {| bc_bread := bread; bc_bwrite := bwrite; bc_brelse := brelse; bc_bpin := bpin; bc_bunpin := bunpin;
    bc_data s i := data (get_buf s i); bc_blockno s i := blockno (get_buf s i);
    bc_set_data i d := updM i (set_data d); bc_nbuf := nbuf; bc_rep := bio_rep |}.
  - exact bio_rep_ext.
  - intros s a bn i n b ((l & I) & _ & _ & _ & Hr) Hb.
    destruct (ro_in _ _ Hr _ _ _ _ Hb) as ((Hi & _) & <- & ? & _). pose proof (bi_ref _ _ I i Hi). lia.
  - exact bio_rep_clean.
  - exact bio_rep_read.
  - exact bio_bread_hit.
  - exact bio_bread_miss.
  - exact bio_set_data.
  - exact bio_bwrite.
  - exact bio_brelse.
  - intros c s a bn i n b Hrep Hc Hb Hn. pose proof Hrep as ((l & I) & _ & _ & _ & Hr).
    destruct (ro_in _ _ Hr _ _ _ _ Hb) as ((Hi & _) & Hcnt & ? & _).
    exists (recount s i (n + 1)). split; [rewrite bpin_run; [by rewrite Hcnt|done|lia]|].
    apply (bio_recount s a bn i n); done || lia.
  - intros c s a bn i n b Hrep Hc Hb Hn. pose proof Hrep as ((l & I) & _ & _ & _ & Hr).
    destruct (ro_in _ _ Hr _ _ _ _ Hb) as ((Hi & _) & Hcnt & ? & _). pose proof (bi_ref _ _ I i Hi).
    exists (recount s i (n - 1)). split; [rewrite bunpin_run; [by rewrite Hcnt|done|lia]|].
    apply (bio_recount s a bn i n); done || lia.
Defined.

(** After binit the interface describes a cache in which nothing is referenced. *)
Lemma binit_rep c d pid : exists s, binit c (bio0 d pid) = Ok tt c s /\
  bc_rep s (CState (on_disk d) d [] ∅).
Proof.
  destruct (binit_run c d pid) as (s & l & Hr & I & Hd & Hz & Hv). exists s. split; [done|].
  split; [by exists l|]. split; [intros bn; by rewrite Hv|]. split; [done|].
  split; [unfold binit, modifyM in Hr; by injection Hr as <-|].
  split; [intros bn i n b H; cbn in H; by rewrite lookup_empty in H|]. intros i Hi Hne. by rewrite Hz in Hne.
Qed.
