(* ===== verification/Virtio.v ===== *)
(** The disk driver of kernel/virtio_disk.c and the device it talks to.

    The driver and the device share the descriptor table and two rings in memory.  An address in a
    descriptor is one of the objects the driver points the device to: a command header of [disk.ops], the data of
    a buffer, or a status byte of [disk.info].  The device is an environment: it takes chain heads from the
    available ring in order, serves them in any order, reports them in the used ring and raises its interrupt, as
    the virtio specification says.  vdisk_lock does not stop it, so the code that runs under the lock is cut at every
    access to what the device reads or writes.  [VirtioInv] proves that driver and device together carry out block transfers. *)
From S2P Require Import Prelude Machine CString Kalloc Vm BlockCache.
Local Open Scope Z_scope.

Definition NUM : Z := 8.
Definition VRING_DESC_F_NEXT : Z := 1.
Definition VRING_DESC_F_WRITE : Z := 2.
Definition VIRTIO_BLK_T_IN : Z := 0.
Definition VIRTIO_BLK_T_OUT : Z := 1.


(** ** The shared memory *)

Inductive daddr : Type := A_null | A_req (i : Z) | A_data (b : nat) | A_status (i : Z).

Record virtq_desc : Type := Desc { d_addr : daddr; d_len : Z; d_flags : Z; d_next : Z }.
Record virtio_blk_req : Type := Req { r_type : Z; r_reserved : Z; r_sector : Z }.
Record vinfo : Type := Info { v_b : option nat; v_status : Z }.
(** The fields of struct buf that the driver uses. *)
Record vbuf : Type := VBuf { vb_blockno : Z; vb_data : block; vb_disk : Z }.

#[global] Instance desc_inhabited : Inhabited virtq_desc := populate (Desc A_null 0 0 0).
#[global] Instance req_inhabited : Inhabited virtio_blk_req := populate (Req 0 0 0).
#[global] Instance info_inhabited : Inhabited vinfo := populate (Info None 0).
#[global] Instance vbuf_inhabited : Inhabited vbuf := populate (VBuf 0 ∅ 0).

(** struct disk, the rings it points to, and the buffers. *)
(** The device's registers that the driver uses while it runs: whether queue 0 was notified and the interrupt status. *)
Record mmio : Type := Mmio { m_notify : bool; m_isr : Z }.

Record vdisk : Type := VDisk {
  v_desc : gmap Z virtq_desc;
  v_avail_idx : Z;
  v_avail : gmap Z Z;
  v_dused_idx : Z;  (* disk.used->idx *)
  v_used : gmap Z Z;  (* disk.used->ring[].id *)
  v_free : gmap Z Z;
  v_used_idx : Z;
  v_info : gmap Z vinfo;
  v_ops : gmap Z virtio_blk_req;
  v_bufs : gmap nat vbuf;
  v_mmio : mmio;
}.

Definition set_desc x s := VDisk x (v_avail_idx s) (v_avail s) (v_dused_idx s) (v_used s) (v_free s) (v_used_idx s) (v_info s) (v_ops s) (v_bufs s) (v_mmio s).
Definition set_avail_idx x s := VDisk (v_desc s) x (v_avail s) (v_dused_idx s) (v_used s) (v_free s) (v_used_idx s) (v_info s) (v_ops s) (v_bufs s) (v_mmio s).
Definition set_avail x s := VDisk (v_desc s) (v_avail_idx s) x (v_dused_idx s) (v_used s) (v_free s) (v_used_idx s) (v_info s) (v_ops s) (v_bufs s) (v_mmio s).
Definition set_free x s := VDisk (v_desc s) (v_avail_idx s) (v_avail s) (v_dused_idx s) (v_used s) x (v_used_idx s) (v_info s) (v_ops s) (v_bufs s) (v_mmio s).
Definition set_used_idx x s := VDisk (v_desc s) (v_avail_idx s) (v_avail s) (v_dused_idx s) (v_used s) (v_free s) x (v_info s) (v_ops s) (v_bufs s) (v_mmio s).
Definition set_info x s := VDisk (v_desc s) (v_avail_idx s) (v_avail s) (v_dused_idx s) (v_used s) (v_free s) (v_used_idx s) x (v_ops s) (v_bufs s) (v_mmio s).
Definition set_ops x s := VDisk (v_desc s) (v_avail_idx s) (v_avail s) (v_dused_idx s) (v_used s) (v_free s) (v_used_idx s) (v_info s) x (v_bufs s) (v_mmio s).
Definition set_bufs x s := VDisk (v_desc s) (v_avail_idx s) (v_avail s) (v_dused_idx s) (v_used s) (v_free s) (v_used_idx s) (v_info s) (v_ops s) x (v_mmio s).
Definition set_used i x s := VDisk (v_desc s) (v_avail_idx s) (v_avail s) i x (v_free s) (v_used_idx s) (v_info s) (v_ops s) (v_bufs s) (v_mmio s).
Definition set_mmio x s := VDisk (v_desc s) (v_avail_idx s) (v_avail s) (v_dused_idx s) (v_used s) (v_free s) (v_used_idx s) (v_info s) (v_ops s) (v_bufs s) x.

Definition put_desc (i : Z) (d : virtq_desc) : M vdisk unit := modifyM (fun s => set_desc (<[i := d]> (v_desc s)) s).
Definition put_info (i : Z) (f : vinfo -> vinfo) : M vdisk unit := modifyM (fun s => set_info (<[i := f (v_info s !!! i)]> (v_info s)) s).
Definition put_buf_disk (b : nat) (x : Z) : M vdisk unit :=
  modifyM (fun s => let v := v_bufs s !!! b in set_bufs (<[b := VBuf (vb_blockno v) (vb_data v) x]> (v_bufs s)) s).

(** ** The code *)

Fixpoint alloc_desc_scan (k : nat) (i : Z) : M vdisk Z :=
  match k with
  | O => retM (-1)
  | S k' =>
      f <-! getsM (fun s => v_free s !!! i) ;;
      if negb (f =? 0) then modifyM (fun s => set_free (<[i := 0]> (v_free s)) s) ;;! retM i
      else alloc_desc_scan k' (i + 1)
  end.
Definition alloc_desc : M vdisk Z := alloc_desc_scan (Z.to_nat NUM) 0.

Definition free_desc (i : Z) : M vdisk unit :=
  if NUM <=? i then panic "free_desc 1"
  else
    f <-! getsM (fun s => v_free s !!! i) ;;
    if negb (f =? 0) then panic "free_desc 2"
    else
      put_desc i (Desc A_null 0 0 0) ;;!
      modifyM (fun s => set_free (<[i := 1]> (v_free s)) s) ;;!
      wakeup_ev Ch_disk_free.

Fixpoint free_chain (fuel : nat) (i : Z) : M vdisk unit :=
  match fuel with
  | O => diverge
  | S f =>
      d <-! getsM (fun s => v_desc s !!! i) ;;
      free_desc i ;;!
      if negb (Z.land (d_flags d) VRING_DESC_F_NEXT =? 0) then free_chain f (d_next d) else retM tt
  end.

Fixpoint free_all_desc (l : list Z) : M vdisk unit :=
  match l with [] => retM tt | i :: l' => free_desc i ;;! free_all_desc l' end.

(** The loop of alloc3_desc with the descriptors it has so far. *)
Fixpoint alloc3_loop (k : nat) (idx : list Z) : M vdisk (option (list Z)) :=
  match k with
  | O => retM (Some idx)
  | S k' =>
      i <-! alloc_desc ;;
      if i <? 0 then free_all_desc idx ;;! retM None
      else alloc3_loop k' (idx ++ [i])
  end.
Definition alloc3_desc : M vdisk (option (list Z)) := alloc3_loop 3 [].

(** A write of QUEUE_NOTIFY and of INTERRUPT_ACK as the device takes them: it serves queue 0, and it drops the
    acknowledged bits of its interrupt status. *)
Definition queue_notify (q : Z) : M vdisk unit := modifyM (fun s => set_mmio (Mmio ((q =? 0) || m_notify (v_mmio s)) (m_isr (v_mmio s))) s).
Definition interrupt_ack (x : Z) : M vdisk unit := modifyM (fun s => set_mmio (Mmio (m_notify (v_mmio s)) (Z.ldiff (m_isr (v_mmio s)) x)) s).

(** virtio_disk_rw() between the allocation and the available ring: the request in the descriptors. *)
Definition rw_format (b : nat) (write : bool) (i0 i1 i2 : Z) : M vdisk unit :=
  blockno <-! getsM (fun s => vb_blockno (v_bufs s !!! b)) ;;
  let sector := u32 (blockno * (BSIZE / 512)) in
  modifyM (fun s => set_ops (<[i0 := Req (if write then VIRTIO_BLK_T_OUT else VIRTIO_BLK_T_IN) 0 sector]> (v_ops s)) s) ;;!
  put_desc i0 (Desc (A_req i0) 16 VRING_DESC_F_NEXT i1) ;;!
  put_desc i1 (Desc (A_data b) BSIZE (Z.lor (if write then 0 else VRING_DESC_F_WRITE) VRING_DESC_F_NEXT) i2) ;;!
  put_info i0 (fun x => Info (v_b x) 255) ;;!
  put_desc i2 (Desc (A_status i0) 1 VRING_DESC_F_WRITE 0) ;;!
  put_buf_disk b 1 ;;!
  put_info i0 (fun x => Info (Some b) (v_status x)).

(** Where a call of virtio_disk_rw() is.  The device runs beside the driver, so a call stops not only where it sleeps,
    for descriptors ([RwAlloc]) or for the transfer ([RwWait]), but also, with the lock held, before each of its accesses
    to what the device looks at: the entry of the available ring, the index of that ring, and the notification. *)
Inductive rw_pc : Type := RwAlloc | RwRing (i0 : Z) | RwIdx (i0 : Z) | RwNotify (i0 : Z) | RwWait (i0 : Z) | RwDone.

(** One attempt to allocate the descriptors, and the request in them. *)
Definition rw_alloc (b : nat) (write : bool) : M vdisk rw_pc :=
  r <-! alloc3_desc ;;
  match r with
  | Some [i0; i1; i2] => rw_format b write i0 i1 i2 ;;! retM (RwRing i0)
  | _ => goto_sleep L_vdisk ;;! retM RwAlloc
  end.

(** The loop that waits for the interrupt, and what follows it. *)
Definition rw_finish (b : nat) (i0 : Z) : M vdisk rw_pc :=
  x <-! getsM (fun s => vb_disk (v_bufs s !!! b)) ;;
  if x =? 1 then goto_sleep L_vdisk ;;! retM (RwWait i0)
  else
    put_info i0 (fun x => Info None (v_status x)) ;;!
    free_chain (Z.to_nat NUM) i0 ;;!
    release L_vdisk ;;!
    retM RwDone.

Definition virtio_disk_rw (b : nat) (write : bool) : M vdisk rw_pc := acquire L_vdisk ;;! rw_alloc b write.
(** The rest of the call, one segment at a time; a call that slept takes the lock again, as sleep() does. *)
Definition virtio_disk_rw_resume (pc : rw_pc) (b : nat) (write : bool) : M vdisk rw_pc :=
  match pc with
  | RwAlloc => acquire L_vdisk ;;! rw_alloc b write
  | RwRing i0 => modifyM (fun s => set_avail (<[v_avail_idx s mod NUM := i0]> (v_avail s)) s) ;;! retM (RwIdx i0)
  | RwIdx i0 => modifyM (fun s => set_avail_idx (u16 (v_avail_idx s + 1)) s) ;;! retM (RwNotify i0)
  | RwNotify i0 => queue_notify 0 ;;! rw_finish b i0
  | RwWait i0 => acquire L_vdisk ;;! rw_finish b i0
  | RwDone => retM RwDone
  end.

(** Where the handler is: before the write of INTERRUPT_ACK, before the test of its loop, in the body of the loop,
    or finished. *)
Inductive intr_pc : Type := IAck (status : Z) | IWhile | IEntry | IDone.

(** The body of the handler's loop. *)
Definition intr_entry : M vdisk unit :=
  s <-! getM ;;
  let id := v_used s !!! (v_used_idx s mod NUM) in
  if negb (v_status (v_info s !!! id) =? 0) then panic "virtio_disk_intr status"
  else
    match v_b (v_info s !!! id) with
    | None => panic "undefined"  (* a null pointer is dereferenced *)
    | Some b =>
        put_buf_disk b 0 ;;!
        wakeup_ev (Ch_buf b) ;;!
        modifyM (fun s => set_used_idx (u16 (v_used_idx s + 1)) s)
    end.

Definition virtio_disk_intr : M vdisk intr_pc :=
  acquire L_vdisk ;;!
  status <-! getsM (fun s => m_isr (v_mmio s)) ;;
  retM (IAck (Z.land status 0x3)).
(** The rest of the handler, one segment at a time; every test of the loop reads [used->idx] again. *)
Definition virtio_disk_intr_resume (pc : intr_pc) : M vdisk intr_pc :=
  match pc with
  | IAck status => interrupt_ack status ;;! retM IWhile
  | IWhile =>
      s <-! getM ;;
      if negb (v_used_idx s =? v_dused_idx s) then retM IEntry else release L_vdisk ;;! retM IDone
  | IEntry => intr_entry ;;! retM IWhile
  | IDone => retM IDone
  end.

(** ** Initialisation *)

Definition VIRTIO_MMIO_MAGIC_VALUE : Z := 0x000.
Definition VIRTIO_MMIO_VERSION : Z := 0x004.
Definition VIRTIO_MMIO_DEVICE_ID : Z := 0x008.
Definition VIRTIO_MMIO_VENDOR_ID : Z := 0x00c.
Definition VIRTIO_MMIO_DEVICE_FEATURES : Z := 0x010.
Definition VIRTIO_MMIO_DRIVER_FEATURES : Z := 0x020.
Definition VIRTIO_MMIO_QUEUE_SEL : Z := 0x030.
Definition VIRTIO_MMIO_QUEUE_NUM_MAX : Z := 0x034.
Definition VIRTIO_MMIO_QUEUE_NUM : Z := 0x038.
Definition VIRTIO_MMIO_QUEUE_READY : Z := 0x044.
Definition VIRTIO_MMIO_STATUS : Z := 0x070.
Definition VIRTIO_MMIO_QUEUE_DESC_LOW : Z := 0x080.
Definition VIRTIO_MMIO_QUEUE_DESC_HIGH : Z := 0x084.
Definition VIRTIO_MMIO_DRIVER_DESC_LOW : Z := 0x090.
Definition VIRTIO_MMIO_DRIVER_DESC_HIGH : Z := 0x094.
Definition VIRTIO_MMIO_DEVICE_DESC_LOW : Z := 0x0a0.
Definition VIRTIO_MMIO_DEVICE_DESC_HIGH : Z := 0x0a4.
Definition VIRTIO_CONFIG_S_ACKNOWLEDGE : Z := 1.
Definition VIRTIO_CONFIG_S_DRIVER : Z := 2.
Definition VIRTIO_CONFIG_S_DRIVER_OK : Z := 4.
Definition VIRTIO_CONFIG_S_FEATURES_OK : Z := 8.
Definition VIRTIO_BLK_F_RO : Z := 5.
Definition VIRTIO_BLK_F_SCSI : Z := 7.
Definition VIRTIO_BLK_F_CONFIG_WCE : Z := 11.
Definition VIRTIO_BLK_F_MQ : Z := 12.
Definition VIRTIO_F_ANY_LAYOUT : Z := 27.
Definition VIRTIO_RING_F_INDIRECT_DESC : Z := 28.
Definition VIRTIO_RING_F_EVENT_IDX : Z := 29.

(** The memory, the writes to the device's registers (the newest first), and the driver's state. *)
Record vboot : Type := VBoot { vb_mem : pmem; vb_regs : list (Z * Z); vb_disk_state : vdisk }.

Section Init.
Context `{KI : KernelImage}.
(** What the device's registers read as: [reg] for those that do not change, and the status register after the
    features were written. *)
Variable reg : Z -> Z.
Variable status_back : Z -> Z.

Definition write_reg (r v : Z) : M vboot unit := modifyM (fun s => VBoot (vb_mem s) ((r, u32 v) :: vb_regs s) (vb_disk_state s)).
Definition vmem_lens : lens vboot pmem := Lens vb_mem (fun m s => VBoot m (vb_regs s) (vb_disk_state s)).

(** [features &= ~(1 << bit)] *)
Definition feature_off (features bit : Z) : Z := Z.ldiff features (Z.shiftl 1 bit).

Definition init_features (f : Z) : Z :=
  feature_off (feature_off (feature_off (feature_off (feature_off (feature_off (feature_off f VIRTIO_BLK_F_RO) VIRTIO_BLK_F_SCSI)
    VIRTIO_BLK_F_CONFIG_WCE) VIRTIO_BLK_F_MQ) VIRTIO_F_ANY_LAYOUT) VIRTIO_RING_F_EVENT_IDX) VIRTIO_RING_F_INDIRECT_DESC.

(** The rings after memset, and all descriptors free; the rest is zeroed static memory. *)
Definition vdisk0 (bufs : gmap nat vbuf) : vdisk :=
  VDisk ∅ 0 ∅ 0 ∅ (list_to_map (map (fun i => (Z.of_nat i, 1)) (seq 0 (Z.to_nat NUM)))) 0 ∅ ∅ bufs (Mmio false 0).

Definition virtio_disk_init : M vboot unit :=
  if negb (reg VIRTIO_MMIO_MAGIC_VALUE =? 0x74726976) || negb (reg VIRTIO_MMIO_VERSION =? 2) ||
     negb (reg VIRTIO_MMIO_DEVICE_ID =? 2) || negb (reg VIRTIO_MMIO_VENDOR_ID =? 0x554d4551)
  then panic "could not find virtio disk"
  else
    let status := 0 in
    write_reg VIRTIO_MMIO_STATUS status ;;!
    let status := Z.lor status VIRTIO_CONFIG_S_ACKNOWLEDGE in
    write_reg VIRTIO_MMIO_STATUS status ;;!
    let status := Z.lor status VIRTIO_CONFIG_S_DRIVER in
    write_reg VIRTIO_MMIO_STATUS status ;;!
    write_reg VIRTIO_MMIO_DRIVER_FEATURES (init_features (reg VIRTIO_MMIO_DEVICE_FEATURES)) ;;!
    let status := Z.lor status VIRTIO_CONFIG_S_FEATURES_OK in
    write_reg VIRTIO_MMIO_STATUS status ;;!
    let status := status_back status in
    if Z.land status VIRTIO_CONFIG_S_FEATURES_OK =? 0 then panic "virtio disk FEATURES_OK unset"
    else
      write_reg VIRTIO_MMIO_QUEUE_SEL 0 ;;!
      if negb (reg VIRTIO_MMIO_QUEUE_READY =? 0) then panic "virtio disk should not be ready"
      else
        let max := reg VIRTIO_MMIO_QUEUE_NUM_MAX in
        if max =? 0 then panic "virtio disk has no queue 0"
        else if max <? NUM then panic "virtio disk max queue too short"
        else
          desc <-! zoom vmem_lens kalloc ;;
          avail <-! zoom vmem_lens kalloc ;;
          used <-! zoom vmem_lens kalloc ;;
          if (desc =? 0) || (avail =? 0) || (used =? 0) then panic "virtio disk kalloc"
          else
            zoom vmem_lens (memsetM desc 0 PGSIZE) ;;!
            zoom vmem_lens (memsetM avail 0 PGSIZE) ;;!
            zoom vmem_lens (memsetM used 0 PGSIZE) ;;!
            write_reg VIRTIO_MMIO_QUEUE_NUM NUM ;;!
            write_reg VIRTIO_MMIO_QUEUE_DESC_LOW desc ;;!
            write_reg VIRTIO_MMIO_QUEUE_DESC_HIGH (Z.shiftr desc 32) ;;!
            write_reg VIRTIO_MMIO_DRIVER_DESC_LOW avail ;;!
            write_reg VIRTIO_MMIO_DRIVER_DESC_HIGH (Z.shiftr avail 32) ;;!
            write_reg VIRTIO_MMIO_DEVICE_DESC_LOW used ;;!
            write_reg VIRTIO_MMIO_DEVICE_DESC_HIGH (Z.shiftr used 32) ;;!
            write_reg VIRTIO_MMIO_QUEUE_READY 1 ;;!
            modifyM (fun s => VBoot (vb_mem s) (vb_regs s) (vdisk0 (v_bufs (vb_disk_state s)))) ;;!
            write_reg VIRTIO_MMIO_STATUS (Z.lor status VIRTIO_CONFIG_S_DRIVER_OK).
End Init.

(** ** The device *)

(** The device's position in the available ring, the chains it works on, the contents of the disk by block, and whether
    it has reported a chain that it has not yet raised its interrupt for. *)
Record device : Type := Device { dev_last : Z; dev_pending : list Z; dev_disk : gmap Z block; dev_irq : bool }.

(** The device, once notified, takes the next chain from the available ring; it may wait for the next notification
    when the ring is empty. *)
Definition dev_fetch (s : vdisk) (d : device) : option device :=
  if negb (m_notify (v_mmio s)) || (dev_last d =? v_avail_idx s) then None
  else Some (Device (u16 (dev_last d + 1)) ((v_avail s !!! (dev_last d mod NUM)) :: dev_pending d) (dev_disk d) (dev_irq d)).

Definition dev_rest (s : vdisk) (d : device) : option vdisk :=
  if dev_last d =? v_avail_idx s then Some (set_mmio (Mmio false (m_isr (v_mmio s))) s) else None.

(** The device serves the chain with head [id]: a command header, the data and a status byte, the last two in the
    direction that the command and the flags agree on.  It does the transfer, stores 0 in the status byte and
    adds the chain to the used ring; the interrupt follows.  [None] is a chain the specification does not allow. *)
Definition dev_finish (id : Z) (s : vdisk) (d : device) : option (vdisk * device) :=
  let d0 := v_desc s !!! id in
  let d1 := v_desc s !!! d_next d0 in
  let d2 := v_desc s !!! d_next d1 in
  match d_addr d0, d_addr d1, d_addr d2 with
  | A_req r, A_data b, A_status k =>
      let q := v_ops s !!! r in
      if (d_flags d0 =? VRING_DESC_F_NEXT) && (d_len d0 =? 16) && (d_len d1 =? BSIZE) && (d_len d2 =? 1) &&
         (d_flags d2 =? VRING_DESC_F_WRITE) && (r_sector q mod 2 =? 0) then
        let bn := r_sector q / 2 in
        let v := v_bufs s !!! b in
        let done (s : vdisk) :=
          set_used (u16 (v_dused_idx s + 1)) (<[v_dused_idx s mod NUM := id]> (v_used s))
            (set_info (<[k := Info (v_b (v_info s !!! k)) 0]> (v_info s)) s) in
        let rest := filter (fun x => x <> id) (dev_pending d) in
        if (r_type q =? VIRTIO_BLK_T_OUT) && (d_flags d1 =? VRING_DESC_F_NEXT) then
          Some (done s, Device (dev_last d) rest (<[bn := vb_data v]> (dev_disk d)) true)
        else if (r_type q =? VIRTIO_BLK_T_IN) && (d_flags d1 =? Z.lor VRING_DESC_F_WRITE VRING_DESC_F_NEXT) then
          Some (done (set_bufs (<[b := VBuf (vb_blockno v) (on_disk (dev_disk d) bn) (vb_disk v)]> (v_bufs s)) s),
                Device (dev_last d) rest (dev_disk d) true)
        else None
      else None
  | _, _, _ => None
  end.

(** It raises the interrupt that is due. *)
Definition dev_raise (s : vdisk) (d : device) : option (vdisk * device) :=
  if dev_irq d then
    Some (set_mmio (Mmio (m_notify (v_mmio s)) (Z.lor (m_isr (v_mmio s)) 1)) s, Device (dev_last d) (dev_pending d) (dev_disk d) false)
  else None.

(** ** Driver and device together *)

Record thread : Type := Thread { th_write : bool; th_pc : rw_pc; th_asleep : bool }.

(** Who holds vdisk_lock between two segments. *)
Inductive holder : Type := ByCall (b : nat) | ByIntr (pc : intr_pc).
Definition has_lock (pc : rw_pc) : bool := match pc with RwRing _ | RwIdx _ | RwNotify _ => true | _ => false end.
Definition call_lock (b : nat) (pc : rw_pc) : option holder := if has_lock pc then Some (ByCall b) else None.
Definition intr_lock (pc : intr_pc) : option holder := match pc with IDone => None | _ => Some (ByIntr pc) end.
Definition locks (o : option holder) : list lock := match o with Some _ => [L_vdisk] | None => [] end.

(** The calls of virtio_disk_rw() that have not returned, by their buffer: its sleep lock admits one at a time. *)
Record vsys : Type := VSys { vs_disk : vdisk; vs_dev : device; vs_thr : gmap nat thread; vs_lock : option holder }.

Definition th_chan (b : nat) (t : thread) : option chan :=
  match th_pc t with RwAlloc => Some Ch_disk_free | RwWait _ => Some (Ch_buf b) | _ => None end.

(** The wakeups of a segment reach the calls that sleep. *)
Definition awaken (l : list event) (thr : gmap nat thread) : gmap nat thread :=
  map_imap (fun b t => Some match th_chan b t with
                            | Some ch => if decide (EvWakeup ch ∈ l) then Thread (th_write t) (th_pc t) false else t
                            | None => t
                            end) thr.
Definition park (b : nat) (w : bool) (pc : rw_pc) (thr : gmap nat thread) : gmap nat thread :=
  match pc with RwDone => delete b thr | _ => <[b := Thread w pc (negb (has_lock pc))]> thr end.

(** What the buffer cache sees: it sets a buffer that is in no call, it calls, and a call returns with the data of its
    buffer.  All other steps are silent. *)
Inductive vevent : Type := EPoke (b : nat) (bn : Z) (x : block) | ECall (b : nat) (w : bool) | EReturn (b : nat) (x : block).
Definition return_event (b : nat) (pc : rw_pc) (d : vdisk) : option vevent :=
  match pc with RwDone => Some (EReturn b (vb_data (v_bufs d !!! b))) | _ => None end.

(** A call that is awake runs its next segment, when it holds the lock or can take it. *)
Inductive call_goes (s : vsys) : option vevent -> vsys -> Prop :=
| cg_run b w pc pc' c d : vs_thr s !! b = Some (Thread w pc false) -> vs_lock s = call_lock b pc ->
    virtio_disk_rw_resume pc b w (Ctx (locks (vs_lock s)) []) (vs_disk s) = Ok pc' c d ->
    call_goes s (return_event b pc' d) (VSys d (vs_dev s) (park b w pc' (awaken (out c) (vs_thr s))) (call_lock b pc')).

(** The handler starts when an interrupt is pending and the lock is free, and runs its segments. *)
Inductive intr_goes (s : vsys) : vsys -> Prop :=
| ig_start pc c d : vs_lock s = None -> m_isr (v_mmio (vs_disk s)) <> 0 -> virtio_disk_intr (Ctx [] []) (vs_disk s) = Ok pc c d ->
    intr_goes s (VSys d (vs_dev s) (awaken (out c) (vs_thr s)) (intr_lock pc))
| ig_run pc pc' c d : vs_lock s = Some (ByIntr pc) -> virtio_disk_intr_resume pc (Ctx [L_vdisk] []) (vs_disk s) = Ok pc' c d ->
    intr_goes s (VSys d (vs_dev s) (awaken (out c) (vs_thr s)) (intr_lock pc')).

(** The device takes a request, serves one, or raises its interrupt; nothing keeps it from doing so inside the driver. *)
Inductive dev_goes (s : vsys) : vsys -> Prop :=
| dg_fetch e : dev_fetch (vs_disk s) (vs_dev s) = Some e -> dev_goes s (VSys (vs_disk s) e (vs_thr s) (vs_lock s))
| dg_finish id d e : id ∈ dev_pending (vs_dev s) -> dev_finish id (vs_disk s) (vs_dev s) = Some (d, e) -> dev_goes s (VSys d e (vs_thr s) (vs_lock s))
| dg_raise d e : dev_raise (vs_disk s) (vs_dev s) = Some (d, e) -> dev_goes s (VSys d e (vs_thr s) (vs_lock s)).

Inductive vstep (s : vsys) : option vevent -> vsys -> Prop :=
| vst_poke b bn x : vs_thr s !! b = None -> 0 <= bn < 2 ^ 31 ->
    vstep s (Some (EPoke b bn x))
      (VSys (set_bufs (<[b := VBuf bn x (vb_disk (v_bufs (vs_disk s) !!! b))]> (v_bufs (vs_disk s))) (vs_disk s)) (vs_dev s) (vs_thr s) (vs_lock s))
| vst_call b w pc c d : vs_thr s !! b = None -> vs_lock s = None -> virtio_disk_rw b w (Ctx [] []) (vs_disk s) = Ok pc c d ->
    vstep s (Some (ECall b w)) (VSys d (vs_dev s) (park b w pc (awaken (out c) (vs_thr s))) (call_lock b pc))
| vst_resume l s' : call_goes s l s' -> vstep s l s'
| vst_intr s' : intr_goes s s' -> vstep s None s'
| vst_dev s' : dev_goes s s' -> vstep s None s'
| vst_rest d : dev_rest (vs_disk s) (vs_dev s) = Some d -> vstep s None (VSys d (vs_dev s) (vs_thr s) (vs_lock s)).

Definition visible (l : option vevent) : list vevent := match l with Some e => [e] | None => [] end.

(** The runs from the state virtio_disk_init() leaves, with the events they show. *)
Inductive vruns (bufs : gmap nat vbuf) (dsk : gmap Z block) : list vevent -> vsys -> Prop :=
| vr_init : vruns bufs dsk [] (VSys (vdisk0 bufs) (Device 0 [] dsk false) ∅ None)
| vr_step tr s l s' : vruns bufs dsk tr s -> vstep s l s' -> vruns bufs dsk (tr ++ visible l) s'.
