(* ===== verification/VirtioInv.v ===== *)
(** Driver and device carry out block transfers.

    [vinv] says which descriptors belong to which call of virtio_disk_rw() and where each request is: in the
    available ring, in the device, in the used ring, or done.  Every step keeps it, none panics, and a run has the
    same events as a run of a disk that performs each requested transfer once and at once. *)
From S2P Require Import Prelude Machine CString Kalloc Vm BlockCache Virtio.
Local Open Scope Z_scope.

(** ** Allocating and freeing descriptors *)

Definition descs : list Z := map Z.of_nat (seq 0 (Z.to_nat NUM)).
Lemma elem_of_descs i : i ∈ descs <-> 0 <= i < NUM.
Proof.
  unfold descs. rewrite list_elem_of_fmap. split.
  - intros (x & -> & H%elem_of_seq). unfold NUM in *. lia.
  - intros H. exists (Z.to_nat i). split; [lia|]. apply elem_of_seq. unfold NUM in *. lia.
Qed.

Definition nfree (f : gmap Z Z) : nat := length (filter (fun i => f !!! i <> 0) descs).

Lemma nfree_ext f f' : (forall i, f' !!! i = f !!! i) -> nfree f' = nfree f.
Proof. intros H. unfold nfree. f_equal. apply list_filter_iff. intros i. by rewrite H. Qed.

(** At most the descriptors of [l] are free. *)
Lemma nfree_le f (l : list Z) : (forall i, 0 <= i < NUM -> f !!! i <> 0 -> i ∈ l) -> (nfree f <= length l)%nat.
Proof.
  intros H. unfold nfree. apply submseteq_length, NoDup_submseteq.
  - apply NoDup_filter. unfold descs. apply (NoDup_fmap_2 Z.of_nat), NoDup_seq.
  - intros i [Hf Hi%elem_of_descs]%list_elem_of_filter. by apply H.
Qed.

Definition zero (idx : list Z) (f : gmap Z Z) : gmap Z Z := foldl (fun f i => <[i := 0]> f) f idx.
Lemma zero_lookup idx : forall f i, zero idx f !!! i = if decide (i ∈ idx) then 0 else f !!! i.
Proof.
  induction idx as [|j idx IH]; intros f i; [done|]. unfold zero in *. cbn [foldl]. rewrite IH.
  destruct (decide (i ∈ idx)) as [Hin|Hin]; [rewrite decide_True by (by right); done|]. destruct (decide (i = j)) as [->|].
  - rewrite lookup_total_insert_eq, decide_True by (by left). done.
  - rewrite lookup_total_insert_ne by done. rewrite decide_False; [done|]. by intros [?|?]%elem_of_cons.
Qed.

Definition taken (idx : list Z) (s : vdisk) : vdisk := set_free (zero idx (v_free s)) s.

Lemma alloc_desc_run c s idx : 
  (exists i, 0 <= i < NUM /\ (i ∉ idx) /\ v_free s !!! i <> 0 /\ alloc_desc c (taken idx s) = Ok i c (taken (idx ++ [i]) s)) \/
  ((forall i, 0 <= i < NUM -> v_free s !!! i <> 0 -> i ∈ idx) /\ alloc_desc c (taken idx s) = Ok (-1) c (taken idx s)).
Proof.
  assert (forall k i, 0 <= i -> 
    (exists j, i <= j < i + Z.of_nat k /\ (j ∉ idx) /\ v_free s !!! j <> 0 /\ alloc_desc_scan k i c (taken idx s) = Ok j c (taken (idx ++ [j]) s)) \/
    ((forall j, i <= j < i + Z.of_nat k -> v_free s !!! j <> 0 -> j ∈ idx) /\ alloc_desc_scan k i c (taken idx s) = Ok (-1) c (taken idx s))) as H.
  { induction k as [|k IH]; intros i Hi; [right; split; [lia|done]|]. cbn [alloc_desc_scan]. rewrite bind_gets. cbn [taken set_free v_free].
    rewrite zero_lookup. destruct (decide (i ∈ idx)) as [Hin|Hin].
    - cbn [Z.eqb negb]. destruct (IH (i + 1) ltac:(lia)) as [(j & Hj & H)|[H1 H2]]; [left; exists j; split; [lia|done]|].
      right. split; [|done]. intros j Hj Hf. destruct (decide (j = i)) as [->|]; [done|]. apply H1; [lia|done].
    - destruct (Z.eqb_spec (v_free s !!! i) 0) as [E|E]; cbn [negb].
      + destruct (IH (i + 1) ltac:(lia)) as [(j & Hj & H)|[H1 H2]]; [left; exists j; split; [lia|done]|].
        right. split; [|done]. intros j Hj Hf. destruct (decide (j = i)) as [->|]; [done|]. apply H1; [lia|done].
      + left. exists i. split; [lia|]. split; [done|]. split; [done|]. rewrite bind_modify. unfold retM, taken, zero. rewrite foldl_app. done. }
  destruct (H (Z.to_nat NUM) 0 ltac:(lia)) as [(j & Hj & H')|[H1 H2]].
  - left. exists j. split; [unfold NUM in *; lia|done].
  - right. split; [|done]. intros i Hi. apply H1. unfold NUM in *. lia.
Qed.

Definition emitted (n : nat) (c : ctx) : ctx := Ctx (held c) (replicate n (EvWakeup Ch_disk_free) ++ out c).
Definition freed (i : Z) (s : vdisk) : vdisk := set_free (<[i := 1]> (v_free s)) (set_desc (<[i := Desc A_null 0 0 0]> (v_desc s)) s).

Lemma free_desc_run i c s : i < NUM -> v_free s !!! i = 0 -> free_desc i c s = Ok tt (emitted 1 c) (freed i s).
Proof.
  intros Hi Hf. unfold free_desc. destruct (Z.leb_spec NUM i); [lia|]. rewrite bind_gets, Hf. cbn [Z.eqb negb]. unfold put_desc. mrun. done.
Qed.

Definition freed_all (l : list Z) (s : vdisk) : vdisk := foldl (fun s i => freed i s) s l.

Lemma emitted_add n m c : emitted n (emitted m c) = emitted (n + m) c.
Proof. unfold emitted. cbn. by rewrite replicate_add, app_assoc. Qed.

Lemma free_all_run l : forall c s, NoDup l -> (forall i, i ∈ l -> i < NUM /\ v_free s !!! i = 0) ->
  free_all_desc l c s = Ok tt (emitted (length l) c) (freed_all l s).
Proof.
  induction l as [|i l IH]; intros c s Hnd H; [by destruct c|]. apply NoDup_cons in Hnd as [Hni Hnd]. cbn [free_all_desc].
  destruct (H i ltac:(by left)) as [Hi Hf]. rewrite (bind_Ok _ _ _ _ _ _ _ (free_desc_run i c s Hi Hf)). rewrite IH; [|done|].
  - rewrite emitted_add. cbn [length freed_all foldl]. by rewrite Nat.add_comm.
  - intros j Hj. destruct (H j ltac:(by right)) as [Hj' Hfj]. split; [done|]. cbn. by rewrite lookup_total_insert_ne by congruence.
Qed.

(** What freeing changes. *)
Record same_but (l : list Z) (s s' : vdisk) : Prop := {
  sb_desc : forall i, i ∉ l -> v_desc s' !!! i = v_desc s !!! i;
  sb_free : forall i, v_free s' !!! i = if decide (i ∈ l) then 1 else v_free s !!! i;
  sb_rest : v_avail_idx s' = v_avail_idx s /\ v_avail s' = v_avail s /\ v_dused_idx s' = v_dused_idx s /\ v_used s' = v_used s /\
    v_used_idx s' = v_used_idx s /\ v_info s' = v_info s /\ v_ops s' = v_ops s /\ v_bufs s' = v_bufs s /\ v_mmio s' = v_mmio s;
}.

Lemma freed_all_same l : forall s, same_but l s (freed_all l s).
Proof.
  induction l as [|i l IH]; intros s.
  - split; [done| |done]. intros i. by rewrite decide_False by apply not_elem_of_nil.
  - cbn [freed_all foldl]. destruct (IH (freed i s)) as [A B C]. split.
    + intros j [Hj1 Hj2]%not_elem_of_cons. fold (freed_all l (freed i s)). rewrite A by done. cbn. by rewrite lookup_total_insert_ne.
    + intros j. fold (freed_all l (freed i s)). rewrite B. cbn. destruct (decide (j ∈ l)) as [Hin|Hin]; [rewrite decide_True by (by right); done|].
      destruct (decide (j = i)) as [->|]; [rewrite lookup_total_insert_eq, decide_True by (by left); done|].
      rewrite lookup_total_insert_ne by done. rewrite decide_False; [done|]. by intros [?|?]%elem_of_cons.
    + exact C.
Qed.

(** alloc3_desc(): three free descriptors, or none taken and fewer than three free.  The flags are 0 or 1. *)
Lemma alloc3_run c s : (forall i, v_free s !!! i = 0 \/ v_free s !!! i = 1) ->
  (exists i0 i1 i2, NoDup [i0; i1; i2] /\ (forall i, i ∈ [i0; i1; i2] -> 0 <= i < NUM /\ v_free s !!! i = 1) /\
     alloc3_desc c s = Ok (Some [i0; i1; i2]) c (taken [i0; i1; i2] s)) \/
  (exists n l s', alloc3_desc c s = Ok None (emitted n c) s' /\ (nfree (v_free s) < 3)%nat /\
     (forall i, i ∈ l -> v_free s !!! i = 1) /\ same_but l s s').
Proof.
  intros Hbit.
  assert (forall k idx, NoDup idx -> (forall i, i ∈ idx -> 0 <= i < NUM /\ v_free s !!! i = 1) ->
    (exists l, length l = k /\ NoDup (idx ++ l) /\ (forall i, i ∈ idx ++ l -> 0 <= i < NUM /\ v_free s !!! i = 1) /\
       alloc3_loop k idx c (taken idx s) = Ok (Some (idx ++ l)) c (taken (idx ++ l) s)) \/
    ((nfree (v_free s) < length idx + k)%nat /\ exists n l s', alloc3_loop k idx c (taken idx s) = Ok None (emitted n c) s' /\
       (forall i, i ∈ l -> v_free s !!! i = 1) /\ same_but l s s')) as H.
  { induction k as [|k IH]; intros idx Hnd Hidx; cbn [alloc3_loop].
    { left. exists []. rewrite app_nil_r. done. }
    destruct (alloc_desc_run c s idx) as [(i & Hi & Hni & Hf & Hr)|[Hall Hr]]; rewrite (bind_Ok _ _ _ _ _ _ _ Hr).
    - destruct (Z.ltb_spec i 0); [lia|]. destruct (IH (idx ++ [i])) as [(l & Hl & Hnd' & Hl' & Hr')|(Hn & n & l & s' & Hr' & H')].
      + apply NoDup_app. split; [done|]. split; [|apply NoDup_singleton]. intros x Hx ->%list_elem_of_singleton. done.
      + intros j [Hj| ->%list_elem_of_singleton]%elem_of_app; [by apply Hidx|]. split; [done|]. by destruct (Hbit i).
      + left. exists (i :: l). rewrite <- app_assoc in *. cbn [app length] in *. split; [lia|done].
      + right. rewrite length_app in Hn. cbn in Hn. split; [lia|]. by exists n, l, s'.
    - destruct (Z.ltb_spec (-1) 0); [|lia]. right. split; [pose proof (nfree_le _ _ Hall); lia|]. exists (length idx), idx, (freed_all idx (taken idx s)).
      rewrite (bind_Ok _ _ _ _ _ _ _ (free_all_run idx c (taken idx s) Hnd ltac:(intros i Hi; cbn; rewrite zero_lookup, decide_True by done; split; [by apply Hidx|done]))).
      split; [done|]. split; [intros i Hi; by apply Hidx|]. destruct (freed_all_same idx (taken idx s)) as [A B C]. split; [exact A| |exact C].
      intros i. rewrite B. cbn. rewrite zero_lookup. by destruct (decide (i ∈ idx)). }
  destruct (H 3%nat []) as [(l & Hl & Hnd & Hl' & Hr)|(Hn & n & l & s' & Hr & Hl & Hs)]; [constructor|by intros i ?%elem_of_nil| |].
  - left. destruct l as [|i0 [|i1 [|i2 [|]]]]; try discriminate Hl. exists i0, i1, i2. split; [done|]. split; [done|]. unfold alloc3_desc. destruct s. exact Hr.
  - right. exists n, l, s'. split; [|done]. unfold alloc3_desc. destruct s. exact Hr.
Qed.

(** ** The invariant *)

(** Where a request is: laid out, in the available ring, in the device, in the used ring, or seen by the interrupt handler. *)
Inductive stage : Type := SNew | SQueued | SPending | SUsed | SDone.
#[global] Instance stage_eq_dec : EqDecision stage.
Proof. solve_decision. Defined.

Record chain : Type := Chain { c0 : Z; c1 : Z; c2 : Z; cst : stage }.
Definition ids (ch : chain) : list Z := [c0 ch; c1 ch; c2 ch].
Definition at_stage (x : stage) (ch : chain) : chain := Chain (c0 ch) (c1 ch) (c2 ch) x.

(** The device has carried out the transfer. *)
Definition performed (x : stage) : bool := match x with SUsed | SDone => true | _ => false end.

(** The request of buffer [b] as the driver lays it out. *)
Record chain_ok (s : vdisk) (b : nat) (w : bool) (ch : chain) : Prop := {
  co_nodup : NoDup (ids ch);
  co_range : forall i, i ∈ ids ch -> 0 <= i < NUM;
  co_d0 : v_desc s !!! c0 ch = Desc (A_req (c0 ch)) 16 VRING_DESC_F_NEXT (c1 ch);
  co_d1 : v_desc s !!! c1 ch = Desc (A_data b) BSIZE (Z.lor (if w then 0 else VRING_DESC_F_WRITE) VRING_DESC_F_NEXT) (c2 ch);
  co_d2 : v_desc s !!! c2 ch = Desc (A_status (c0 ch)) 1 VRING_DESC_F_WRITE 0;
  co_op : v_ops s !!! c0 ch = Req (if w then VIRTIO_BLK_T_OUT else VIRTIO_BLK_T_IN) 0 (vb_blockno (v_bufs s !!! b) * 2);
  co_info : v_info s !!! c0 ch = Info (Some b) (if performed (cst ch) then 0 else 255);
  co_disk : vb_disk (v_bufs s !!! b) = if decide (cst ch = SDone) then 0 else 1;
}.

(** The entries of a ring of NUM slots from index [lo] on, as a list; [hi] is the next index. *)
Record ring_rep (ring : gmap Z Z) (lo hi : Z) (l : list Z) : Prop := {
  rr_lo : 0 <= lo < 2 ^ 16;
  rr_hi : hi = u16 (lo + Z.of_nat (length l));
  rr_at : forall k i, l !! k = Some i -> ring !!! (u16 (lo + Z.of_nat k) mod NUM) = i;
}.

(** [l] lists the heads of the chains at a stage. *)
Definition heads (F : gmap nat chain) (x : stage) (l : list Z) : Prop :=
  NoDup l /\ forall i, i ∈ l <-> exists b ch, F !! b = Some ch /\ c0 ch = i /\ cst ch = x.

(** What the program counter of a call says of its request. *)
Definition thr_ok (d : vdisk) (o : option chain) (t : thread) : Prop :=
  match th_pc t with
  | RwAlloc => o = None /\ (th_asleep t = true -> (nfree (v_free d) < 3)%nat)
  | RwRing i0 => exists ch, o = Some ch /\ c0 ch = i0 /\ cst ch = SNew /\ th_asleep t = false
  | RwIdx i0 => exists ch, o = Some ch /\ c0 ch = i0 /\ cst ch = SNew /\ th_asleep t = false /\ v_avail d !!! (v_avail_idx d mod NUM) = i0
  | RwNotify i0 => exists ch, o = Some ch /\ c0 ch = i0 /\ cst ch <> SNew /\ cst ch <> SDone /\ th_asleep t = false
  | RwWait i0 => exists ch, o = Some ch /\ c0 ch = i0 /\ cst ch <> SNew /\ (th_asleep t = true -> cst ch <> SDone)
  | RwDone => False
  end.

(** And that of the handler of the used ring. *)
Definition intr_ok (U : list Z) (pc : intr_pc) : Prop := match pc with IEntry => U <> [] | IDone => False | _ => True end.

Record vinv (s : vsys) (F : gmap nat chain) (Q U : list Z) : Prop := {
  vi_bn : forall b, 0 <= vb_blockno (v_bufs (vs_disk s) !!! b) < 2 ^ 31;
  vi_thr : forall b t, vs_thr s !! b = Some t -> thr_ok (vs_disk s) (F !! b) t;
  vi_own : forall b ch, F !! b = Some ch -> exists t, vs_thr s !! b = Some t /\ chain_ok (vs_disk s) b (th_write t) ch;
  vi_disj : forall b b' ch ch' i, F !! b = Some ch -> F !! b' = Some ch' -> i ∈ ids ch -> i ∈ ids ch' -> b = b';
  vi_free : forall i, v_free (vs_disk s) !!! i = 0 \/ v_free (vs_disk s) !!! i = 1;
  vi_used : forall i, 0 <= i < NUM -> v_free (vs_disk s) !!! i = 0 <-> exists b ch, F !! b = Some ch /\ i ∈ ids ch;
  vi_avail : ring_rep (v_avail (vs_disk s)) (dev_last (vs_dev s)) (v_avail_idx (vs_disk s)) Q;
  vi_rused : ring_rep (v_used (vs_disk s)) (v_used_idx (vs_disk s)) (v_dused_idx (vs_disk s)) U;
  vi_Q : heads F SQueued Q;
  vi_P : heads F SPending (dev_pending (vs_dev s));
  vi_U : heads F SUsed U;
  vi_note : Q = [] \/ m_notify (v_mmio (vs_disk s)) = true \/ exists b t i0, vs_thr s !! b = Some t /\ th_pc t = RwNotify i0;
  vi_lock : forall b, vs_lock s = Some (ByCall b) <-> exists t, vs_thr s !! b = Some t /\ has_lock (th_pc t) = true;
  vi_entry : forall pc, vs_lock s = Some (ByIntr pc) -> intr_ok U pc;
  (** While the used ring has entries the driver has not seen, an interrupt is pending or due, or the handler still
      has to look at the ring. *)
  vi_raised : U = [] \/ Z.testbit (m_isr (v_mmio (vs_disk s))) 0 = true \/ dev_irq (vs_dev s) = true \/ exists pc, vs_lock s = Some (ByIntr pc);
}.

(** ** The specification: a disk that performs each requested transfer at once *)

Inductive areq : Type := Requested (w : bool) | Performed.
Record aspec : Type := ASpec { a_disk : gmap Z block; a_buf : nat -> Z * block; a_req : nat -> option areq }.

Inductive astep (a : aspec) : option vevent -> aspec -> Prop :=
| as_poke a' b bn x : a_req a b = None -> a_disk a' = a_disk a -> a_buf a' b = (bn, x) -> (forall y, y <> b -> a_buf a' y = a_buf a y) ->
    (forall y, a_req a' y = a_req a y) -> astep a (Some (EPoke b bn x)) a'
| as_call a' b w : a_req a b = None -> a_req a' b = Some (Requested w) -> a_disk a' = a_disk a -> (forall x, a_buf a' x = a_buf a x) ->
    (forall x, x <> b -> a_req a' x = a_req a x) -> astep a (Some (ECall b w)) a'
| as_perform a' b w : a_req a b = Some (Requested w) -> a_req a' b = Some Performed -> (forall x, x <> b -> a_req a' x = a_req a x) ->
    (if w then a_disk a' = <[fst (a_buf a b) := snd (a_buf a b)]> (a_disk a) /\ (forall x, a_buf a' x = a_buf a x)
     else a_disk a' = a_disk a /\ a_buf a' b = (fst (a_buf a b), on_disk (a_disk a) (fst (a_buf a b))) /\ (forall x, x <> b -> a_buf a' x = a_buf a x)) ->
    astep a None a'
| as_return a' b : a_req a b = Some Performed -> a_req a' b = None -> a_disk a' = a_disk a -> (forall x, a_buf a' x = a_buf a x) ->
    (forall x, x <> b -> a_req a' x = a_req a x) -> astep a (Some (EReturn b (snd (a_buf a b)))) a'
| as_none a' : a_disk a' = a_disk a -> (forall x, a_buf a' x = a_buf a x) -> (forall x, a_req a' x = a_req a x) -> astep a None a'.

Inductive aruns (a : aspec) : list vevent -> aspec -> Prop :=
| ar_here : aruns a [] a
| ar_more tr b l c : aruns a tr b -> astep b l c -> aruns a (tr ++ visible l) c.

(** What the specification sees of a state. *)
Definition abs (s : vsys) (F : gmap nat chain) : aspec :=
  ASpec (dev_disk (vs_dev s)) (fun b => (vb_blockno (v_bufs (vs_disk s) !!! b), vb_data (v_bufs (vs_disk s) !!! b)))
    (fun b => match vs_thr s !! b with
              | None => None
              | Some t => Some match F !! b with
                               | Some ch => if performed (cst ch) then Performed else Requested (th_write t)
                               | None => Requested (th_write t)
                               end
              end).

(** ** Facts about the pieces *)

Lemma u16_add a b : u16 (u16 a + b) = u16 (a + b).
Proof. unfold u16. by rewrite Zplus_mod_idemp_l. Qed.
Lemma u16_NUM a : u16 a mod NUM = a mod NUM.
Proof. unfold u16, NUM. zlia. Qed.

(** The driver writes the entry after the last one before it counts it. *)
Lemma ring_write ring lo hi l i : ring_rep ring lo hi l -> (length l < 8)%nat -> ring_rep (<[hi mod NUM := i]> ring) lo hi l.
Proof.
  intros [A B C] Hl. split; [done|done|]. intros k j Hk. specialize (C k j Hk). apply lookup_lt_Some in Hk. subst hi. rewrite !u16_NUM in *.
  by rewrite lookup_total_insert_ne by (unfold NUM; zlia).
Qed.
Lemma ring_bump ring lo hi l i : ring_rep ring lo hi l -> ring !!! (hi mod NUM) = i -> ring_rep ring lo (u16 (hi + 1)) (l ++ [i]).
Proof.
  intros [A B C] Hi. split; [done| |].
  - rewrite B, u16_add, length_app. f_equal. cbn. lia.
  - intros k j Hk. destruct (decide (k = length l)) as [->|].
    + rewrite list_lookup_middle in Hk by done. injection Hk as <-. by rewrite <- B.
    + assert (k < length l)%nat as Hkl by (apply lookup_lt_Some in Hk; rewrite length_app in Hk; cbn in Hk; lia). rewrite lookup_app_l in Hk by done. by apply C.
Qed.
Lemma ring_push ring lo hi l i : ring_rep ring lo hi l -> (length l < 8)%nat -> ring_rep (<[hi mod NUM := i]> ring) lo (u16 (hi + 1)) (l ++ [i]).
Proof. intros H Hl. apply ring_bump; [by apply ring_write|by rewrite lookup_total_insert_eq]. Qed.

Lemma ring_pop ring lo hi i l : ring_rep ring lo hi (i :: l) -> ring !!! (lo mod NUM) = i /\ ring_rep ring (u16 (lo + 1)) hi l.
Proof.
  intros [A B C]. split.
  - specialize (C 0%nat i eq_refl). by rewrite u16_NUM, Z.add_0_r in C.
  - split; [unfold u16; zlia| |].
    + rewrite B, u16_add. f_equal. cbn. lia.
    + intros k j Hk. specialize (C (S k) j Hk). rewrite u16_add. replace (lo + 1 + Z.of_nat k) with (lo + Z.of_nat (S k)) by lia. done.
Qed.

Lemma ring_empty ring lo hi l : ring_rep ring lo hi l -> (length l <= 8)%nat -> lo = hi <-> l = [].
Proof.
  intros [A -> _] Hl. split.
  - intros E. destruct l as [|x l]; [done|]. cbn in *. unfold u16 in E. zlia.
  - intros ->. cbn. unfold u16. zlia.
Qed.

(** A request keeps its shape while its objects do not change. *)
Lemma chain_ok_frame s s' b w ch : chain_ok s b w ch -> (forall i, i ∈ ids ch -> v_desc s' !!! i = v_desc s !!! i) ->
  v_ops s' !!! c0 ch = v_ops s !!! c0 ch -> v_info s' !!! c0 ch = v_info s !!! c0 ch ->
  vb_blockno (v_bufs s' !!! b) = vb_blockno (v_bufs s !!! b) -> vb_disk (v_bufs s' !!! b) = vb_disk (v_bufs s !!! b) -> chain_ok s' b w ch.
Proof.
  intros [A B D0 D1 D2 O I D] Hd Ho Hi Hb Hk. split; rewrite ?Ho, ?Hi, ?Hb, ?Hk; try done; rewrite Hd; try done; unfold ids; set_solver.
Qed.

Lemma heads_le F x l s Q U : vinv s F Q U -> heads F x l -> (length l <= 8)%nat.
Proof.
  intros V [Hn Hl]. change 8%nat with (length descs). apply submseteq_length, NoDup_submseteq; [done|]. intros i (b & ch & Hb & <- & _)%Hl.
  destruct (vi_own _ _ _ _ V b ch Hb) as (t & _ & C). apply elem_of_descs, C. unfold ids. by left.
Qed.

Lemma heads_room F x l s Q U i : vinv s F Q U -> heads F x l -> i ∉ l -> 0 <= i < NUM -> (length l < 8)%nat.
Proof.
  intros V [Hn Hl] Hi Hr. change (length (i :: l) <= length descs)%nat. apply submseteq_length, NoDup_submseteq; [by apply NoDup_cons|].
  intros j [->|Hj]%elem_of_cons; [by apply elem_of_descs|]. apply Hl in Hj as (b & ch & Hb & <- & _).
  destruct (vi_own _ _ _ _ V b ch Hb) as (t & _ & C). apply elem_of_descs, C. unfold ids. by left.
Qed.

(** Heads after chain [b] changed its stage, or appeared or disappeared. *)
Lemma head_unique s F Q U b b' ch ch' : vinv s F Q U -> F !! b = Some ch -> F !! b' = Some ch' -> c0 ch = c0 ch' -> b = b'.
Proof. intros V H H' E. apply (vi_disj _ _ _ _ V b b' ch ch' (c0 ch)); [done|done|unfold ids; by left|rewrite E; unfold ids; by left]. Qed.

Definition wake (l : list event) (b : nat) (t : thread) : thread :=
  match th_chan b t with
  | Some ch => if decide (EvWakeup ch ∈ l) then Thread (th_write t) (th_pc t) false else t
  | None => t
  end.
Lemma lookup_awaken l thr b : awaken l thr !! b = wake l b <$> thr !! b.
Proof. unfold awaken. rewrite map_lookup_imap. by destruct (thr !! b). Qed.

Lemma wake_same l b t : th_write (wake l b t) = th_write t /\ th_pc (wake l b t) = th_pc t /\ (th_asleep (wake l b t) = true -> th_asleep t = true).
Proof. unfold wake. destruct (th_chan b t); [|done]. by case_decide. Qed.

Lemma wake_hit l b t ch : th_chan b t = Some ch -> EvWakeup ch ∈ l -> th_asleep (wake l b t) = false.
Proof. intros E H. unfold wake. by rewrite E, decide_True. Qed.

Lemma awaken_nil thr : awaken [] thr = thr.
Proof.
  apply map_eq. intros b. rewrite lookup_awaken. destruct (thr !! b) as [t|]; [|done]. cbn. f_equal. unfold wake. destruct (th_chan b t); [|done].
  by rewrite decide_False by apply not_elem_of_nil.
Qed.

Lemma wake_app l l' b t : wake (l ++ l') b t = wake l b (wake l' b t).
Proof.
  destruct (wake_same l' b t) as (W & P & _). assert (th_chan b (wake l' b t) = th_chan b t) as E by (unfold th_chan; by rewrite P).
  transitivity (match th_chan b t with Some ch => if decide (EvWakeup ch ∈ l) then Thread (th_write t) (th_pc t) false else wake l' b t | None => wake l' b t end).
  - unfold wake. destruct (th_chan b t) as [ch|]; [|done]. pose proof (elem_of_app l l' (EvWakeup ch)). repeat case_decide; try done; tauto.
  - symmetry. unfold wake at 1. by rewrite E, W, P.
Qed.
Lemma awaken_app l l' thr : awaken (l ++ l') thr = awaken l (awaken l' thr).
Proof. apply map_eq. intros b. rewrite !lookup_awaken. destruct (thr !! b) as [t|]; [|done]. cbn. f_equal. apply wake_app. Qed.

Lemma thr_ok_wake l b d o t : thr_ok d o t -> thr_ok d o (wake l b t).
Proof.
  destruct (wake_same l b t) as (_ & P & A). unfold thr_ok. rewrite P. assert (th_asleep t = false -> th_asleep (wake l b t) = false) as A'.
  { intros E. destruct (th_asleep (wake l b t)); [|done]. by rewrite A in E. }
  destruct (th_pc t); naive_solver.
Qed.

(** A call that does not hold the lock depends on the free descriptors and its request only. *)
Lemma thr_ok_frame d d' o t : thr_ok d o t -> (nfree (v_free d') <= nfree (v_free d))%nat ->
  has_lock (th_pc t) = false \/ (v_avail d' = v_avail d /\ v_avail_idx d' = v_avail_idx d) -> thr_ok d' o t.
Proof.
  unfold thr_ok. intros T Hn Hl. destruct (th_pc t); try done.
  - destruct T as [T1 T2]. split; [done|]. intros H. specialize (T2 H). lia.
  - destruct Hl as [|[-> ->]]; done.
Qed.

Lemma awaken_lookup_Some l thr b t : awaken l thr !! b = Some t -> exists t0, thr !! b = Some t0 /\ t = wake l b t0.
Proof. rewrite lookup_awaken. intros (t0 & H & ->)%fmap_Some. by exists t0. Qed.
Lemma awaken_pc l thr (P : rw_pc -> Prop) b : (exists t, awaken l thr !! b = Some t /\ P (th_pc t)) <-> exists t, thr !! b = Some t /\ P (th_pc t).
Proof.
  split.
  - intros (t & (t0 & H & ->)%awaken_lookup_Some & Hp). exists t0. destruct (wake_same l b t0) as (_ & E & _). by rewrite <- E.
  - intros (t & H & Hp). exists (wake l b t). rewrite lookup_awaken, H. destruct (wake_same l b t) as (_ & E & _). by rewrite E.
Qed.

(** With the lock free, or held by the handler or by call [b], no other call is where the lock is held. *)
Lemma no_lock s F Q U b t : vinv s F Q U -> vs_thr s !! b = Some t -> vs_lock s <> Some (ByCall b) -> has_lock (th_pc t) = false.
Proof. intros V Ht Hl. destruct (has_lock (th_pc t)) eqn:E; [|done]. destruct Hl. apply (vi_lock _ _ _ _ V). by exists t. Qed.

(** ** Changing the stage of a request *)

Definition on_stage (o : option chain) (x : stage) (i : Z) : Prop := exists ch, o = Some ch /\ c0 ch = i /\ cst ch = x.

Lemma heads_change F F' x l l' b : heads F x l -> (forall b', b' <> b -> F' !! b' = F !! b') -> NoDup l' ->
  (forall b' ch', b' <> b -> F !! b' = Some ch' -> ~ on_stage (F !! b) x (c0 ch')) ->
  (forall i, i ∈ l' <-> (i ∈ l /\ ~ on_stage (F !! b) x i) \/ on_stage (F' !! b) x i) -> heads F' x l'.
Proof.
  intros [_ Hl] HF Hn Hu Hl'. split; [done|]. intros i. rewrite Hl'. split.
  - intros [[Hi Hns]|(ch & Hch & H1 & H2)]; [|by exists b, ch]. apply Hl in Hi as (b' & ch & Hb & H1 & H2). exists b', ch.
    destruct (decide (b' = b)) as [->|]; [|by rewrite HF]. destruct Hns. by exists ch.
  - intros (b' & ch & Hb & <- & H2). destruct (decide (b' = b)) as [->|Hne]; [right; by exists ch|]. rewrite HF in Hb by done.
    left. split; [apply Hl; by exists b', ch|]. by apply (Hu b' ch).
Qed.

Section Stage.
Context (s : vsys) (F : gmap nat chain) (Q U : list Z) (V : vinv s F Q U) (b : nat) (ch : chain) (Hb : F !! b = Some ch) (y : stage) (Hy : cst ch <> y).

Lemma stage_unique x b' ch' : b' <> b -> F !! b' = Some ch' -> ~ on_stage (F !! b) x (c0 ch').
Proof using V. intros Hne H (c & Hc & E & _). apply Hne. by apply (head_unique s F Q U b' b ch' c V). Qed.

Lemma heads_leave l l' : heads F (cst ch) l -> NoDup l' -> (forall i, i ∈ l' <-> i ∈ l /\ i <> c0 ch) -> heads (<[b := at_stage y ch]> F) (cst ch) l'.
Proof using V Hb Hy.
  intros Hl Hn Hl'. apply (heads_change F _ _ l l' b); [done|intros; by rewrite lookup_insert_ne|done|intros b' ch' H H'; exact (stage_unique _ b' ch' H H')|].
  intros i. rewrite Hl', lookup_insert_eq, Hb. unfold on_stage. split.
  - intros [H1 H2]. left. split; [done|]. intros (c & [= <-] & E & _). done.
  - intros [[H1 H2]|(c & [= <-] & _ & E)]; [|by destruct Hy]. split; [done|]. intros ->. apply H2. by exists ch.
Qed.

Lemma heads_enter l l' : heads F y l -> NoDup l' -> (forall i, i ∈ l' <-> i ∈ l \/ i = c0 ch) -> heads (<[b := at_stage y ch]> F) y l'.
Proof using V Hb Hy.
  intros Hl Hn Hl'. apply (heads_change F _ _ l l' b); [done|intros; by rewrite lookup_insert_ne|done|intros b' ch' H H'; exact (stage_unique _ b' ch' H H')|].
  intros i. rewrite Hl', lookup_insert_eq, Hb. unfold on_stage. split.
  - intros [H1| ->]; [|right; by exists (at_stage y ch)]. left. split; [done|]. by intros (c & [= <-] & _ & E).
  - intros [[H1 _]|(c & [= <-] & <- & _)]; [by left|by right].
Qed.

Lemma heads_stay x l : x <> cst ch -> x <> y -> heads F x l -> heads (<[b := at_stage y ch]> F) x l.
Proof using V Hb.
  intros H1 H2 Hl. apply (heads_change F _ _ l l b); [done|intros; by rewrite lookup_insert_ne|apply Hl|intros b' ch' H H'; exact (stage_unique _ b' ch' H H')|].
  intros i. rewrite lookup_insert_eq, Hb. unfold on_stage. split.
  - intros Hi. left. split; [done|]. intros (c & [= <-] & _ & E). congruence.
  - intros [[Hi _]|(c & [= <-] & _ & E)]; [done|]. cbn in E. congruence.
Qed.

Lemma disj_stage b1 b2 ch1 ch2 i : <[b := at_stage y ch]> F !! b1 = Some ch1 -> <[b := at_stage y ch]> F !! b2 = Some ch2 ->
  i ∈ ids ch1 -> i ∈ ids ch2 -> b1 = b2.
Proof using V Hb.
  assert (forall b' c', <[b := at_stage y ch]> F !! b' = Some c' -> exists c, F !! b' = Some c /\ ids c = ids c') as H.
  { intros b' c' [[<- <-]|[Hne H]]%lookup_insert_Some; [by exists ch|by exists c']. }
  intros (x1 & F1 & <-)%H (x2 & F2 & <-)%H. by apply (vi_disj _ _ _ _ V).
Qed.

Lemma used_stage i : (exists b' ch', <[b := at_stage y ch]> F !! b' = Some ch' /\ i ∈ ids ch') <-> exists b' ch', F !! b' = Some ch' /\ i ∈ ids ch'.
Proof using Hb.
  split.
  - intros (b' & c' & [[<- <-]|[Hne H]]%lookup_insert_Some & Hi); [by exists b, ch|by exists b', c'].
  - intros (b' & c' & H & Hi). destruct (decide (b' = b)) as [->|].
    + rewrite Hb in H. injection H as <-. exists b, (at_stage y ch). by rewrite lookup_insert_eq.
    + exists b', c'. by rewrite lookup_insert_ne.
Qed.
End Stage.

(** ** The steps of the device *)

(** A step keeps the invariant, and the specification makes the same visible step. *)
Definition good (s : vsys) (F : gmap nat chain) (l : option vevent) (s' : vsys) : Prop :=
  exists F' Q' U', vinv s' F' Q' U' /\ astep (abs s F) l (abs s' F').

Lemma thr_ok_stage d ch y t : thr_ok d (Some ch) t -> cst ch <> SNew -> y <> SNew -> y <> SDone -> thr_ok d (Some (at_stage y ch)) t.
Proof.
  unfold thr_ok. intros T H1 H2 H3. destruct (th_pc t); try done; [by destruct T|..]; destruct T as (c & [= <-] & T); [naive_solver..| |]; exists (at_stage y ch); naive_solver.
Qed.

(** The calls are unaffected when the device moves a request on. *)
Lemma thr_stage s F Q U b ch y d : vinv s F Q U -> F !! b = Some ch -> cst ch <> SNew -> y <> SNew -> y <> SDone ->
  v_free d = v_free (vs_disk s) -> v_avail d = v_avail (vs_disk s) -> v_avail_idx d = v_avail_idx (vs_disk s) ->
  forall b' t, vs_thr s !! b' = Some t -> thr_ok d (<[b := at_stage y ch]> F !! b') t.
Proof.
  intros V Hb H1 H2 H3 Hf Ha Hi b' t Ht. apply (thr_ok_frame (vs_disk s)); [|by rewrite Hf|by right]. pose proof (vi_thr _ _ _ _ V b' t Ht) as T.
  destruct (decide (b' = b)) as [->|]; [|by rewrite lookup_insert_ne]. rewrite lookup_insert_eq. rewrite Hb in T. by apply thr_ok_stage.
Qed.

Lemma step_fetch s F Q U e : vinv s F Q U -> dev_fetch (vs_disk s) (vs_dev s) = Some e -> good s F None (VSys (vs_disk s) e (vs_thr s) (vs_lock s)).
Proof.
  intros V H. unfold dev_fetch in H. destruct (m_notify (v_mmio (vs_disk s))) eqn:Hnote; [cbn [negb orb] in H|done]. destruct (Z.eqb_spec (dev_last (vs_dev s)) (v_avail_idx (vs_disk s))) as [|Hne]; [done|]. injection H as <-.
  destruct Q as [|i Q]; [destruct Hne; by apply (ring_empty _ _ _ _ (vi_avail _ _ _ _ V)); [cbn; lia|]|].
  destruct (ring_pop _ _ _ _ _ (vi_avail _ _ _ _ V)) as [Ei Hav]. rewrite Ei.
  destruct (proj1 (proj2 (vi_Q _ _ _ _ V) i) ltac:(by left)) as (b & ch & Hb & <- & Hst).
  pose proof (vi_Q _ _ _ _ V) as HQ. pose proof (proj1 HQ) as [Hni HnQ]%NoDup_cons. rewrite <- Hst in HQ.
  assert (cst ch <> SPending) as Hy by congruence.
  exists (<[b := at_stage SPending ch]> F), Q, U. split.
  - split; cbn [vs_disk vs_dev vs_thr vs_lock dev_last dev_pending dev_disk]; try apply V.
    + apply (thr_stage s F (c0 ch :: Q) U b ch); congruence.
    + intros b' ch' [[<- <-]|[Hn H]]%lookup_insert_Some; [|by apply V]. destruct (vi_own _ _ _ _ V b ch Hb) as (t & Ht & C).
      exists t. split; [done|]. destruct C as [C1 C2 C3 C4 C5 C6 C7 C8]. rewrite Hst in C7, C8. by split.
    + intros *. by apply (disj_stage s F (c0 ch :: Q) U V b ch Hb SPending).
    + intros i Hi. rewrite (used_stage F b ch Hb SPending). by apply V.
    + done.
    + rewrite <- Hst. apply (heads_leave s F (c0 ch :: Q) U V b ch Hb SPending Hy (c0 ch :: Q) Q HQ HnQ). intros i. rewrite elem_of_cons. split; [|naive_solver].
      intros Hi. split; [by right|]. by intros ->.
    + apply (heads_enter s F (c0 ch :: Q) U V b ch Hb SPending Hy (dev_pending (vs_dev s))); [apply V| |].
      * apply NoDup_cons. split; [|apply V]. intros (b' & ch' & Hb' & E & Hs')%(vi_P _ _ _ _ V). assert (b' = b) as -> by by apply (head_unique s F (c0 ch :: Q) U b' b ch' ch V). congruence.
      * intros i. rewrite elem_of_cons. tauto.
    + apply (heads_stay s F (c0 ch :: Q) U V b ch Hb SPending); [congruence|done|apply V].
    + right. by left.
  - apply as_none; [done|done|]. intros x. cbn. destruct (vs_thr s !! x) as [t|]; [|done]. destruct (decide (x = b)) as [->|].
    + by rewrite lookup_insert_eq, Hb, Hst. + by rewrite lookup_insert_ne.
Qed.

(** The device can serve every chain it has taken, and the transfer is the one that was requested. *)
Definition served (id : Z) (b : nat) (w : bool) (s : vdisk) (e : device) : vdisk * device :=
  let v := v_bufs s !!! b in
  let s1 := if w then s else set_bufs (<[b := VBuf (vb_blockno v) (on_disk (dev_disk e) (vb_blockno v)) (vb_disk v)]> (v_bufs s)) s in
  (set_used (u16 (v_dused_idx s + 1)) (<[v_dused_idx s mod NUM := id]> (v_used s)) (set_info (<[id := Info (Some b) 0]> (v_info s)) s1),
   Device (dev_last e) (filter (fun x => x <> id) (dev_pending e)) (if w then <[vb_blockno v := vb_data v]> (dev_disk e) else dev_disk e) true).

Lemma dev_finish_run s e b w ch : chain_ok s b w ch -> dev_finish (c0 ch) s e = Some (served (c0 ch) b w s e).
Proof.
  intros [_ _ D0 D1 D2 O I _]. unfold dev_finish. rewrite D0. cbn [d_next d_addr d_flags d_len]. rewrite D1. cbn [d_next d_addr d_flags d_len]. rewrite D2.
  cbn [d_next d_addr d_flags d_len]. rewrite O. cbn [r_sector r_type]. replace (vb_blockno (v_bufs s !!! b) * 2 mod 2) with 0 by zlia.
  replace (vb_blockno (v_bufs s !!! b) * 2 / 2) with (vb_blockno (v_bufs s !!! b)) by zlia. destruct w; cbn; by rewrite I.
Qed.

(** Requests other than that of [b] do not see the transfer. *)
Lemma served_frame s F Q U b ch w b' ch' t : vinv s F Q U -> F !! b = Some ch -> F !! b' = Some ch' -> b' <> b ->
  chain_ok (vs_disk s) b' t ch' -> chain_ok (fst (served (c0 ch) b w (vs_disk s) (vs_dev s))) b' t ch'.
Proof.
  intros V Hb Hb' Hne C. assert (c0 ch' <> c0 ch) as Hc by (intros E; apply Hne; by apply (head_unique s F Q U b' b ch' ch V)).
  apply (chain_ok_frame (vs_disk s)); [done|by destruct w|by destruct w| | |]; unfold served.
  - destruct w; cbn; by rewrite lookup_total_insert_ne.
  - destruct w; cbn; [done|]. by rewrite lookup_total_insert_ne.
  - destruct w; cbn; [done|]. by rewrite lookup_total_insert_ne.
Qed.

Lemma step_finish s F Q U id d e : vinv s F Q U -> id ∈ dev_pending (vs_dev s) -> dev_finish id (vs_disk s) (vs_dev s) = Some (d, e) ->
  good s F None (VSys d e (vs_thr s) (vs_lock s)).
Proof.
  intros V Hid H. destruct (proj1 (proj2 (vi_P _ _ _ _ V) id) Hid) as (b & ch & Hb & <- & Hst).
  destruct (vi_own _ _ _ _ V b ch Hb) as (t & Ht & C). rewrite (dev_finish_run _ _ _ _ _ C) in H. injection H as Hd He.
  set (w := th_write t) in *. assert (d = fst (served (c0 ch) b w (vs_disk s) (vs_dev s))) as Ed by by rewrite <- Hd.
  assert (forall x, vb_blockno (v_bufs d !!! x) = vb_blockno (v_bufs (vs_disk s) !!! x) /\ vb_disk (v_bufs d !!! x) = vb_disk (v_bufs (vs_disk s) !!! x)) as Hbuf.
  { intros x. rewrite Ed. unfold served. destruct w; cbn; [done|]. destruct (decide (x = b)) as [->|]; [by rewrite lookup_total_insert_eq|by rewrite lookup_total_insert_ne]. }
  assert (v_free d = v_free (vs_disk s) /\ v_avail d = v_avail (vs_disk s) /\ v_avail_idx d = v_avail_idx (vs_disk s) /\ v_used_idx d = v_used_idx (vs_disk s) /\
    v_desc d = v_desc (vs_disk s) /\ v_ops d = v_ops (vs_disk s) /\ v_mmio d = v_mmio (vs_disk s)) as (Ef & Ea & Eai & Eu & Eds & Eo & Em) by (rewrite Ed; by destruct w).
  assert (cst ch <> SUsed) as Hy by congruence. assert (c0 ch ∉ U) as HnU.
  { intros (b' & ch' & Hb' & E & Hs')%(vi_U _ _ _ _ V). assert (b' = b) as -> by by apply (head_unique s F Q U b' b ch' ch V). congruence. }
  exists (<[b := at_stage SUsed ch]> F), Q, (U ++ [c0 ch]). split.
  - split; cbn [vs_disk vs_dev vs_thr vs_lock]; rewrite ?Ef, ?Ea, ?Eai, ?Eu, ?Em.
    + intros x. destruct (Hbuf x) as [-> _]. apply V.
    + apply (thr_stage s F Q U b ch); congruence.
    + intros b' ch' [[<- <-]|[Hn H]]%lookup_insert_Some.
      * exists t. split; [done|]. destruct C as [C1 C2 C3 C4 C5 C6 C7 C8]. destruct (Hbuf b) as [Hb1 Hb2].
        split; cbn [at_stage ids c0 c1 c2 cst]; rewrite ?Eds, ?Eo, ?Hb1, ?Hb2; try done.
        -- rewrite Ed. unfold served. destruct w; cbn; by rewrite lookup_total_insert_eq. -- rewrite C8, Hst. done.
      * destruct (vi_own _ _ _ _ V b' ch' H) as (t' & Ht' & C'). exists t'. split; [done|]. rewrite Ed. by apply (served_frame s F Q U b ch w).
    + intros *. by apply (disj_stage s F Q U V b ch Hb SUsed).
    + apply V.
    + intros i Hi. rewrite (used_stage F b ch Hb SUsed). by apply V.
    + rewrite <- He. apply V.
    + replace (v_used d) with (<[v_dused_idx (vs_disk s) mod NUM := c0 ch]> (v_used (vs_disk s))) by (rewrite Ed; by destruct w).
      replace (v_dused_idx d) with (u16 (v_dused_idx (vs_disk s) + 1)) by (rewrite Ed; by destruct w). apply ring_push; [apply V|].
      apply (heads_room F SUsed U s Q U (c0 ch)); [done|apply V|done|apply C; by left].
    + apply (heads_stay s F Q U V b ch Hb SUsed); [congruence|done|apply V].
    + rewrite <- He. cbn [dev_pending]. rewrite <- Hst.
      apply (heads_leave s F Q U V b ch Hb SUsed Hy (dev_pending (vs_dev s))); [rewrite Hst; apply V|apply NoDup_filter, V|].
      intros i. rewrite list_elem_of_filter. tauto.
    + apply (heads_enter s F Q U V b ch Hb SUsed Hy U); [apply V| |].
      * apply NoDup_app. split; [apply V|]. split; [|apply NoDup_singleton]. by intros i Hi ->%list_elem_of_singleton.
      * intros i. rewrite elem_of_app, list_elem_of_singleton. done.
    + apply V.
    + apply V.
    + intros pc Hpc. pose proof (vi_entry _ _ _ _ V pc Hpc). destruct pc; try done. by destruct U.
    + right. right. left. by rewrite <- He.
  - apply (as_perform _ _ b w); cbn [abs a_req a_disk a_buf vs_thr vs_disk vs_dev fst snd].
    + by rewrite Ht, Hb, Hst. + rewrite Ht, lookup_insert_eq. done.
    + intros x Hx. by rewrite lookup_insert_ne.
    + rewrite <- He, Ed. unfold served. destruct w; cbn; [done|]. split; [done|]. split; [by rewrite lookup_total_insert_eq|]. intros x Hx. by rewrite lookup_total_insert_ne.
Qed.

(** Registers of the device do not matter to the requests. *)
Lemma vinv_mmio d e thr k F Q U x q k' : vinv (VSys d e thr k) F Q U ->
  (Q = [] \/ m_notify x = true \/ exists b t i0, thr !! b = Some t /\ th_pc t = RwNotify i0) ->
  (forall b, k' = Some (ByCall b) <-> k = Some (ByCall b)) -> (forall pc, k' = Some (ByIntr pc) -> intr_ok U pc) ->
  (U = [] \/ Z.testbit (m_isr x) 0 = true \/ q = true \/ exists pc, k' = Some (ByIntr pc)) ->
  vinv (VSys (set_mmio x d) (Device (dev_last e) (dev_pending e) (dev_disk e) q) thr k') F Q U.
Proof.
  intros [A T O D Fr Us Av Ru hq p u nt L En Ra] Hn Hk He Hr. split; try done; cbn [vs_disk vs_dev vs_thr vs_lock] in *.
  - intros b ch Hb. destruct (O b ch Hb) as (t & Ht & C). exists t. split; [done|]. by apply (chain_ok_frame d).
  - intros b. by rewrite Hk.
Qed.

Lemma step_raise d e thr k F Q U d' e' : vinv (VSys d e thr k) F Q U -> dev_raise d e = Some (d', e') -> good (VSys d e thr k) F None (VSys d' e' thr k).
Proof.
  intros V H. unfold dev_raise in H. destruct (dev_irq e); [|done]. injection H as <- <-. exists F, Q, U. split; [|by apply as_none].
  apply (vinv_mmio d e thr k); [done|apply V|done|apply V|]. right. left. cbn [m_isr]. by rewrite Z.lor_spec, orb_true_r.
Qed.

Lemma step_rest d e thr k F Q U d' : vinv (VSys d e thr k) F Q U -> dev_rest d e = Some d' -> good (VSys d e thr k) F None (VSys d' e thr k).
Proof.
  intros V H. unfold dev_rest in H. destruct (Z.eqb_spec (dev_last e) (v_avail_idx d)) as [E|]; [|done]. injection H as <-.
  apply (ring_empty _ _ _ _ (vi_avail _ _ _ _ V)) in E as ->; [|apply (heads_le F SQueued Q _ Q U V), V]. exists F, [], U. split; [|by apply as_none].
  destruct e. apply (vinv_mmio d _ thr k _ _ _ _ _ _ V); [by left|done|apply V|apply V].
Qed.

(** ** The interrupt handler *)

(** One turn of the handler: the buffer is marked and its call is woken. *)
Definition handled (b : nat) (s : vdisk) : vdisk :=
  let v := v_bufs s !!! b in
  set_used_idx (u16 (v_used_idx s + 1)) (set_bufs (<[b := VBuf (vb_blockno v) (vb_data v) 0]> (v_bufs s)) s).

(** Its call is not in the part that holds the lock: it waits for the transfer, and is woken. *)
Lemma thr_ok_done d b ch t : thr_ok d (Some ch) t -> cst ch <> SNew -> has_lock (th_pc t) = false ->
  thr_ok (handled b d) (Some (at_stage SDone ch)) (wake [EvWakeup (Ch_buf b)] b t).
Proof.
  intros T Hs Hl. destruct (wake_same [EvWakeup (Ch_buf b)] b t) as (_ & E & _). unfold thr_ok in *. rewrite E. destruct (th_pc t) eqn:Epc; try done; [by destruct T|].
  destruct T as (c & [= <-] & T1 & T2 & _). exists (at_stage SDone ch). split; [done|]. split; [done|]. split; [done|].
  rewrite (wake_hit _ _ _ (Ch_buf b)); [done|unfold th_chan; by rewrite Epc|by left].
Qed.

Lemma intr_turn d e thr F Q U : vinv (VSys d e thr (Some (ByIntr IEntry))) F Q U ->
  exists b ch id, F !! b = Some ch /\ v_used d !!! (v_used_idx d mod NUM) = id /\ v_info d !!! id = Info (Some b) 0 /\ performed (cst ch) = true /\
    vinv (VSys (handled b d) e (awaken [EvWakeup (Ch_buf b)] thr) (Some (ByIntr IWhile))) (<[b := at_stage SDone ch]> F) Q (tail U).
Proof.
  intros V. destruct U as [|id U]; [by destruct (vi_entry _ _ _ _ V IEntry eq_refl)|]. cbn [tail]. destruct (ring_pop _ _ _ _ _ (vi_rused _ _ _ _ V)) as [Eid Hru]. cbn [vs_disk] in Eid, Hru.
  pose proof (vi_U _ _ _ _ V) as HU. pose proof (proj1 HU) as [Hni HnU]%NoDup_cons.
  destruct (proj1 (proj2 HU id) ltac:(by left)) as (b & ch & Hb & <- & Hst). destruct (vi_own _ _ _ _ V b ch Hb) as (t & Ht & C). cbn [vs_disk vs_thr] in *.
  rewrite <- Hst in HU. assert (cst ch <> SDone) as Hy by congruence. exists b, ch, (c0 ch). split; [done|]. split; [done|]. split; [rewrite (co_info _ _ _ _ C), Hst; done|]. split; [by rewrite Hst|].
  assert (forall x, x <> b -> v_bufs (handled b d) !!! x = v_bufs d !!! x) as Hother by (intros x Hx; cbn; by rewrite lookup_total_insert_ne).
  split; cbn [vs_disk vs_dev vs_thr vs_lock]; try apply V.
  - intros x. destruct (decide (x = b)) as [->|]; [cbn; rewrite lookup_total_insert_eq; apply (vi_bn _ _ _ _ V b)|rewrite Hother by done; apply (vi_bn _ _ _ _ V x)].
  - intros b' t' (t0 & H & ->)%awaken_lookup_Some. pose proof (vi_thr _ _ _ _ V b' t0 H) as T. cbn [vs_disk] in T. destruct (decide (b' = b)) as [->|].
    + rewrite lookup_insert_eq. rewrite Hb in T. apply thr_ok_done; [done|congruence|]. by apply (no_lock _ _ _ _ b t0 V).
    + rewrite lookup_insert_ne by done. apply thr_ok_wake. apply (thr_ok_frame d); [done|done|by right].
  - intros b' ch' [[<- <-]|[Hn H]]%lookup_insert_Some.
    + exists (wake [EvWakeup (Ch_buf b)] b t). rewrite lookup_awaken, Ht. destruct (wake_same [EvWakeup (Ch_buf b)] b t) as (W & P & _). rewrite W.
      split; [done|]. destruct C as [C1 C2 C3 C4 C5 C6 C7 C8]. rewrite Hst in C7. split; try done; cbn; rewrite lookup_total_insert_eq; done.
    + destruct (vi_own _ _ _ _ V b' ch' H) as (t' & Ht' & C'). cbn [vs_disk vs_thr] in Ht', C'. exists (wake [EvWakeup (Ch_buf b)] b' t'). rewrite lookup_awaken, Ht'.
      destruct (wake_same [EvWakeup (Ch_buf b)] b' t') as (W & P & _). rewrite W. split; [done|].
      apply (chain_ok_frame d); try done; by rewrite Hother.
  - intros *. by apply (disj_stage _ F Q _ V b ch Hb SDone).
  - intros i Hi. rewrite (used_stage F b ch Hb SDone). by apply (vi_used _ _ _ _ V).
  - exact Hru.
  - apply (heads_stay _ F Q _ V b ch Hb SDone); [congruence|done|apply V].
  - apply (heads_stay _ F Q _ V b ch Hb SDone); [congruence|done|apply (vi_P _ _ _ _ V)].
  - rewrite <- Hst. apply (heads_leave _ F Q _ V b ch Hb SDone Hy (c0 ch :: U) U HU HnU). intros i. rewrite elem_of_cons. split; [|naive_solver].
    intros Hi. split; [by right|]. by intros ->.
  - destruct (vi_note _ _ _ _ V) as [|[|(b' & t' & i0 & H & E)]]; [by left|right; by left|]. exfalso.
    assert (Some (ByIntr IEntry) = Some (ByCall b')); [|done]. apply (vi_lock _ _ _ _ V). exists t'. split; [done|]. by rewrite E.
  - intros b'. rewrite (awaken_pc _ _ (fun pc => has_lock pc = true)). rewrite <- (vi_lock _ _ _ _ V b'). done.
  - by intros ? [= <-].
  - right. right. right. by exists IWhile.
Qed.

Lemma abs_done d e thr k k' F b ch l : F !! b = Some ch -> performed (cst ch) = true ->
  astep (abs (VSys d e thr k) F) None (abs (VSys (handled b d) e (awaken l thr) k') (<[b := at_stage SDone ch]> F)).
Proof.
  intros Hb Hp. apply as_none; cbn [abs a_disk a_buf a_req vs_disk vs_dev vs_thr]; [done| |].
  - intros x. destruct (decide (x = b)) as [->|]; cbn; [by rewrite lookup_total_insert_eq|by rewrite lookup_total_insert_ne].
  - intros x. rewrite lookup_awaken. destruct (thr !! x) as [t|]; [|done]. cbn. destruct (wake_same l x t) as (W & _). rewrite W.
    destruct (decide (x = b)) as [->|]; [rewrite lookup_insert_eq, Hb, Hp; done|by rewrite lookup_insert_ne].
Qed.

Lemma vinv_lock d e thr k k' F Q U : vinv (VSys d e thr k) F Q U -> (forall b, k' = Some (ByCall b) <-> k = Some (ByCall b)) ->
  (forall pc, k' = Some (ByIntr pc) -> intr_ok U pc) ->
  (U = [] \/ Z.testbit (m_isr (v_mmio d)) 0 = true \/ dev_irq e = true \/ exists pc, k' = Some (ByIntr pc)) -> vinv (VSys d e thr k') F Q U.
Proof.
  intros V H1 H2 H3. pose proof (vinv_mmio d e thr k F Q U (v_mmio d) (dev_irq e) k' V (vi_note _ _ _ _ V) H1 H2 H3) as V'. by destruct d, e.
Qed.

Lemma same_abs d e thr k k' F : astep (abs (VSys d e thr k) F) None (abs (VSys d e thr k') F).
Proof. by apply as_none. Qed.

(** The handler starts, and each of its segments runs. *)
Lemma intr_run d e thr F Q U : vinv (VSys d e thr None) F Q U -> exists pc, virtio_disk_intr (Ctx [] []) d = Ok pc (Ctx [L_vdisk] []) d /\
  good (VSys d e thr None) F None (VSys d e (awaken [] thr) (intr_lock pc)).
Proof.
  intros V. exists (IAck (Z.land (m_isr (v_mmio d)) 3)). split; [done|]. exists F, Q, U. rewrite awaken_nil. split; [|apply same_abs].
  apply (vinv_lock _ _ _ None); [done|done|by intros ? [= <-]|]. right. right. right. by eexists.
Qed.

Lemma intr_resume_run d e thr F Q U pc : vinv (VSys d e thr (Some (ByIntr pc))) F Q U ->
  exists pc' l d', virtio_disk_intr_resume pc (Ctx [L_vdisk] []) d = Ok pc' (Ctx (locks (intr_lock pc')) l) d' /\
    good (VSys d e thr (Some (ByIntr pc))) F None (VSys d' e (awaken l thr) (intr_lock pc')).
Proof.
  intros V. destruct pc as [x| | |]; [| | |by destruct (vi_entry _ _ _ _ V IDone eq_refl)].
  - eexists IWhile, [], _. split; [reflexivity|]. rewrite awaken_nil. exists F, Q, U. split; [|by apply as_none]. destruct e.
    apply (vinv_mmio _ _ _ _ _ _ _ _ _ _ V); [apply V|done|by intros ? [= <-]|]. right. right. right. by eexists.
  - pose proof (ring_empty _ _ _ _ (vi_rused _ _ _ _ V) (heads_le F SUsed U _ Q U V (vi_U _ _ _ _ V))) as Hem. cbn [vs_disk] in Hem.
    cbn [virtio_disk_intr_resume]. rewrite bind_get. destruct (Z.eqb_spec (v_used_idx d) (v_dused_idx d)) as [E|E]; cbn [negb].
    + exists IDone, [], d. split; [done|]. rewrite awaken_nil. exists F, Q, U. split; [|apply same_abs].
      apply (vinv_lock _ _ _ (Some (ByIntr IWhile))); [done|done|done|]. left. by apply Hem.
    + exists IEntry, [], d. split; [done|]. rewrite awaken_nil. exists F, Q, U. split; [|apply same_abs].
      apply (vinv_lock _ _ _ (Some (ByIntr IWhile))); [done|done| |right; right; right; by eexists]. intros ? [= <-] H. by apply E, Hem.
  - destruct (intr_turn d e thr F Q U V) as (b & ch & id & Hb & Eid & Ei & Hp & V'). exists IWhile, [EvWakeup (Ch_buf b)], (handled b d). split.
    + cbn [virtio_disk_intr_resume]. unfold intr_entry. rewrite bind_assoc, bind_get, Eid, Ei. cbn [v_status v_b Z.eqb negb]. unfold put_buf_disk, wakeup_ev. mrun. done.
    + exists (<[b := at_stage SDone ch]> F), Q, (tail U). split; [done|]. by apply abs_done.
Qed.

(** ** The calls *)

Lemma rw_finish_wait b i0 o d : vb_disk (v_bufs d !!! b) = 1 -> rw_finish b i0 (Ctx [L_vdisk] o) d = Ok (RwWait i0) (Ctx [] o) d.
Proof. intros H. unfold rw_finish. rewrite bind_gets, H. done. Qed.

Definition unlinked (i0 : Z) (d : vdisk) : vdisk := set_info (<[i0 := Info None (v_status (v_info d !!! i0))]> (v_info d)) d.

Lemma free_chain_turn f i c s : i < NUM -> v_free s !!! i = 0 -> free_chain (S f) i c s =
  if negb (Z.land (d_flags (v_desc s !!! i)) VRING_DESC_F_NEXT =? 0) then free_chain f (d_next (v_desc s !!! i)) (emitted 1 c) (freed i s)
  else Ok tt (emitted 1 c) (freed i s).
Proof.
  intros Hi Hf. cbn [free_chain]. rewrite bind_gets, (bind_Ok _ _ _ _ _ _ _ (free_desc_run i c s Hi Hf)). by destruct (negb _).
Qed.

(** The chain of a request has three descriptors. *)
Lemma free_chain_run b w ch c d0 d : chain_ok d0 b w ch -> v_desc d = v_desc d0 -> (forall i, i ∈ ids ch -> v_free d !!! i = 0) ->
  free_chain (Z.to_nat NUM) (c0 ch) c d = Ok tt (emitted 3 c) (freed_all (ids ch) d).
Proof.
  intros [Hnd Hr D0 D1 D2 _ _ _] Ed Hf. rewrite <- Ed in D0, D1, D2. apply NoDup_cons in Hnd as [Hn0 Hnd]. apply NoDup_cons in Hnd as [Hn1 _].
  assert (c0 ch <> c1 ch /\ c0 ch <> c2 ch /\ c1 ch <> c2 ch) as (N1 & N2 & N3) by set_solver.
  assert (c0 ch ∈ ids ch /\ c1 ch ∈ ids ch /\ c2 ch ∈ ids ch) as (I0 & I1 & I2) by (unfold ids; set_solver).
  pose proof (Hr _ I0). pose proof (Hr _ I1). pose proof (Hr _ I2). pose proof (Hf _ I0). pose proof (Hf _ I1). pose proof (Hf _ I2).
  change (Z.to_nat NUM) with 8%nat. rewrite free_chain_turn, D0 by (done || lia). cbn [d_flags d_next VRING_DESC_F_NEXT Z.land Pos.land Z.eqb negb].
  rewrite free_chain_turn by (lia || (cbn; by rewrite lookup_total_insert_ne)). cbn [freed set_free set_desc v_desc]. rewrite lookup_total_insert_ne, D1 by done.
  cbn [d_flags d_next]. replace (Z.land (Z.lor (if w then 0 else VRING_DESC_F_WRITE) 1) 1) with 1 by by destruct w. cbn [Z.eqb negb].
  change (set_free _ _) with (freed (c1 ch) (freed (c0 ch) d)). rewrite free_chain_turn by (lia || (cbn; by rewrite !lookup_total_insert_ne)).
  change (v_desc (freed (c1 ch) (freed (c0 ch) d)) !!! c2 ch) with (<[c1 ch := Desc A_null 0 0 0]> (<[c0 ch := Desc A_null 0 0 0]> (v_desc d)) !!! c2 ch).
  rewrite !lookup_total_insert_ne, D2 by done. by destruct w.
Qed.

Lemma rw_finish_done b w ch o d : chain_ok d b w ch -> cst ch = SDone -> (forall i, i ∈ ids ch -> v_free d !!! i = 0) ->
  rw_finish b (c0 ch) (Ctx [L_vdisk] o) d = Ok RwDone (Ctx [] (replicate 3 (EvWakeup Ch_disk_free) ++ o)) (freed_all (ids ch) (unlinked (c0 ch) d)).
Proof.
  intros C Hst Hf. unfold rw_finish. rewrite bind_gets, (co_disk _ _ _ _ C), decide_True by done. cbn [Z.eqb]. unfold put_info. rewrite bind_modify.
  by rewrite (bind_Ok _ _ _ _ _ _ _ (free_chain_run b w ch (Ctx [L_vdisk] o) d (unlinked (c0 ch) d) C eq_refl Hf)).
Qed.

Lemma nfree_mono f f' : (forall i, f' !!! i <> 0 -> f !!! i <> 0) -> (nfree f' <= nfree f)%nat.
Proof.
  intros H. unfold nfree. induction descs as [|i l IH]; [done|]. rewrite !filter_cons. specialize (H i). repeat case_decide; cbn; (lia || tauto).
Qed.

Lemma nfree_all f : (forall i, 0 <= i < NUM -> f !!! i <> 0) -> nfree f = 8%nat.
Proof.
  intros H. change 8%nat with (length descs). assert (forall i, i ∈ descs -> f !!! i <> 0) as Hd by (intros i Hi%elem_of_descs; by apply H).
  unfold nfree. induction descs as [|i l IH]; [done|]. rewrite filter_cons_True by (apply Hd; by left). cbn. f_equal. apply IH. intros j Hj. apply Hd. by right.
Qed.

(** *** A call that takes a step: the lock is free or its own *)

Section CallStep.
Context (d : vdisk) (e : device) (thr : gmap nat thread) (k : option holder) (F : gmap nat chain) (Q U : list Z) (V : vinv (VSys d e thr k) F Q U).
Context (b : nat) (pc : rw_pc) (Hk : k = call_lock b pc).

Lemma others_unlocked b' t : b' <> b -> thr !! b' = Some t -> has_lock (th_pc t) = false.
Proof using V Hk.
  intros Hne Ht. apply (no_lock _ _ _ _ b' t V Ht). cbn [vs_lock]. rewrite Hk. unfold call_lock. destruct (has_lock pc); congruence.
Qed.

Lemma call_raised : U = [] \/ Z.testbit (m_isr (v_mmio d)) 0 = true \/ dev_irq e = true.
Proof using V Hk.
  destruct (vi_raised _ _ _ _ V) as [?|[?|[?|[x H]]]]; [by left|right; by left|right; by right|]. cbn [vs_lock] in H. rewrite Hk in H. unfold call_lock in H. by destruct (has_lock pc).
Qed.

Lemma call_note : thr !! b = None \/ (exists t, thr !! b = Some t /\ th_pc t = pc) -> (forall i0, pc <> RwNotify i0) -> Q = [] \/ m_notify (v_mmio d) = true.
Proof using V Hk.
  intros Hb Hpc. destruct (vi_note _ _ _ _ V) as [?|[?|(b' & t & i0 & H & E)]]; [by left|by right|]. cbn [vs_thr] in H. destruct (decide (b' = b)) as [->|Hne].
  - destruct Hb as [Hb|(t' & Hb & Hp)]; [congruence|]. destruct (Hpc i0). congruence.
  - pose proof (others_unlocked b' t Hne H) as X. by rewrite E in X.
Qed.

Lemma park_lock w pc' l b' : call_lock b pc' = Some (ByCall b') <-> exists t, park b w pc' (awaken l thr) !! b' = Some t /\ has_lock (th_pc t) = true.
Proof using V Hk.
  split.
  - unfold call_lock. destruct (has_lock pc') eqn:E; [|done]. intros [= <-]. exists (Thread w pc' (negb (has_lock pc'))). split; [|done]. destruct pc'; try done; cbn; by rewrite lookup_insert_eq.
  - intros (t & H & Hl). destruct (decide (b' = b)) as [->|Hne].
    + unfold call_lock. destruct pc'; cbn in H |- *; rewrite ?lookup_delete_eq, ?lookup_insert_eq in H; try done; by injection H as <-.
    + assert (awaken l thr !! b' = Some t) as H' by (destruct pc'; cbn in H; by rewrite ?lookup_delete_ne, ?lookup_insert_ne in H by done).
      apply awaken_lookup_Some in H' as (t0 & H0 & ->). destruct (wake_same l b' t0) as (_ & E & _). rewrite E in Hl.
      by rewrite (others_unlocked b' t0 Hne H0) in Hl.
Qed.

(** The other calls see no change but wakeups. *)
Lemma park_others d' (F' : gmap nat chain) w pc' l : (nfree (v_free d') <= nfree (v_free d))%nat -> (forall b', b' <> b -> F' !! b' = F !! b') -> pc' <> RwDone ->
  thr_ok d' (F' !! b) (Thread w pc' (negb (has_lock pc'))) ->
  forall b' t, park b w pc' (awaken l thr) !! b' = Some t -> thr_ok d' (F' !! b') t.
Proof using V Hk.
  intros Hn HF Hd Hb b' t H. assert (park b w pc' (awaken l thr) = <[b := Thread w pc' (negb (has_lock pc'))]> (awaken l thr)) as E by by destruct pc'.
  rewrite E in H. apply lookup_insert_Some in H as [[<- <-]|[Hne (t0 & H0 & ->)%awaken_lookup_Some]]; [done|].
  rewrite HF by done. apply thr_ok_wake. apply (thr_ok_frame d); [by apply (vi_thr _ _ _ _ V)|done|]. left. by apply (others_unlocked b').
Qed.

Lemma park_own d' (F' : gmap nat chain) w pc' l : (forall b', b' <> b -> F' !! b' = F !! b') -> pc' <> RwDone -> (forall ch, F' !! b = Some ch -> chain_ok d' b w ch) ->
  (forall b' ch t, b' <> b -> F !! b' = Some ch -> chain_ok d b' t ch -> chain_ok d' b' t ch) ->
  forall b' ch, F' !! b' = Some ch -> exists t, park b w pc' (awaken l thr) !! b' = Some t /\ chain_ok d' b' (th_write t) ch.
Proof using V.
  intros HF Hd Hb Ho b' ch H. assert (park b w pc' (awaken l thr) = <[b := Thread w pc' (negb (has_lock pc'))]> (awaken l thr)) as E by by destruct pc'. rewrite E.
  destruct (decide (b' = b)) as [->|Hne]; [eexists; rewrite lookup_insert_eq; split; [done|by apply Hb]|].
  rewrite HF in H by done. destruct (vi_own _ _ _ _ V b' ch H) as (t & Ht & C). cbn [vs_thr vs_disk] in *. exists (wake l b' t).
  rewrite lookup_insert_ne, lookup_awaken, Ht by done. split; [done|]. destruct (wake_same l b' t) as (-> & _). by apply (Ho b' ch).
Qed.
End CallStep.

(** A request whose transfer is done gives up its descriptors; the calls that wait for descriptors are woken. *)
Lemma step_return d e thr F Q U b ch w a : vinv (VSys d e thr None) F Q U -> thr !! b = Some (Thread w (RwWait (c0 ch)) a) -> F !! b = Some ch -> cst ch = SDone ->
  good (VSys d e thr None) F (Some (EReturn b (vb_data (v_bufs d !!! b))))
    (VSys (freed_all (ids ch) (unlinked (c0 ch) d)) e (park b w RwDone (awaken (replicate 3 (EvWakeup Ch_disk_free)) thr)) None).
Proof.
  intros V Ht Hb Hst. set (l := replicate 3 _). destruct (freed_all_same (ids ch) (unlinked (c0 ch) d)) as [Sd Sf (R1 & R2 & R3 & R4 & R5 & R6 & R7 & R8 & R9)].
  set (d' := freed_all (ids ch) (unlinked (c0 ch) d)) in *. cbn [unlinked set_info v_avail_idx v_avail v_dused_idx v_used v_used_idx v_info v_ops v_bufs v_free v_desc v_mmio] in *.
  assert (forall x y, x <> SDone -> heads F x y -> heads (delete b F) x y) as Hh.
  { intros x y Hx Hy. apply (heads_change F _ x y y b); [done|intros; by rewrite lookup_delete_ne|apply Hy|intros b' ch' H H'; exact (stage_unique _ F Q U V b x b' ch' H H')|].
    intros i. rewrite lookup_delete_eq, Hb. unfold on_stage. split.
    - intros Hi. left. split; [done|]. intros (c & [= <-] & _ & E). congruence.
    - intros [[Hi _]|(c & ? & _)]; [done|discriminate]. }
  assert (None = call_lock b (RwWait (c0 ch))) as Hk by done.
  exists (delete b F), Q, U. split.
  - split; cbn [vs_disk vs_dev vs_thr vs_lock]; rewrite ?R1, ?R2, ?R3, ?R4, ?R5, ?R6, ?R7, ?R8, ?R9; try apply V.
    + cbn [park]. intros b' t [Hne (t0 & H & ->)%awaken_lookup_Some]%lookup_delete_Some. rewrite lookup_delete_ne by done. destruct (wake_same l b' t0) as (_ & E & Ha).
      pose proof (vi_thr _ _ _ _ V b' t0 H) as T. pose proof (others_unlocked _ _ _ _ _ _ _ V b _ Hk b' t0 (not_eq_sym Hne) H) as Hl.
      unfold thr_ok in *. rewrite E. destruct (th_pc t0) eqn:Epc; try done; [|naive_solver].
      split; [apply T|]. rewrite (wake_hit l b' t0 Ch_disk_free); [done|unfold th_chan; by rewrite Epc|by left].
    + intros b' ch' [Hne H]%lookup_delete_Some. destruct (vi_own _ _ _ _ V b' ch' H) as (t' & Ht' & C'). exists (wake l b' t').
      cbn [park]. rewrite lookup_delete_ne, lookup_awaken by done. cbn [vs_thr vs_disk] in *. rewrite Ht'. destruct (wake_same l b' t') as (W & P & _). rewrite W. split; [done|].
      assert (forall i, i ∈ ids ch' -> i ∉ ids ch) as Hd by (intros i H1 H2; apply Hne; by apply (vi_disj _ _ _ _ V b b' ch ch' i)).
      apply (chain_ok_frame d); rewrite ?R6, ?R7, ?R8; try done; [intros i Hi; by apply Sd, Hd|].
      rewrite lookup_total_insert_ne; [done|]. intros E. apply (Hd (c0 ch)); [rewrite E|]; unfold ids; by left.
    + intros b1 b2 ch1 ch2 i [_ H1]%lookup_delete_Some [_ H2]%lookup_delete_Some. by apply (vi_disj _ _ _ _ V).
    + intros i. rewrite Sf. case_decide; [by right|]. apply (vi_free _ _ _ _ V i).
    + intros i Hi. rewrite Sf. case_decide as Hin.
      * split; [done|]. intros (b' & ch' & [Hne H]%lookup_delete_Some & Hi'). destruct Hne. by apply (vi_disj _ _ _ _ V b b' ch ch' i).
      * pose proof (vi_used _ _ _ _ V i Hi) as Hu. cbn [vs_disk] in Hu. rewrite Hu. split.
        -- intros (b' & ch' & H & Hi'). exists b', ch'. split; [|done]. rewrite lookup_delete_ne; [done|]. intros ->. congruence.
        -- intros (b' & ch' & [Hne H]%lookup_delete_Some & Hi'). by exists b', ch'.
    + apply Hh; [done|apply V].
    + apply Hh; [done|apply (vi_P _ _ _ _ V)].
    + apply Hh; [done|apply V].
    + destruct (call_note _ _ _ _ _ _ _ V b _ Hk) as [?|?]; [right; by eexists|done|by left|right; by left].
    + intros b'. by apply (park_lock _ _ _ _ _ _ _ V b _ Hk w RwDone l).
  - replace (vb_data (v_bufs d !!! b)) with (snd (a_buf (abs (VSys d e thr None) F) b)) by done.
    apply as_return; cbn [abs a_req a_disk a_buf vs_thr vs_disk vs_dev park]; rewrite ?R8; try done.
    + by rewrite Ht, Hb, Hst. + by rewrite lookup_delete_eq.
    + intros x Hx. rewrite !lookup_delete_ne, lookup_awaken by done. destruct (thr !! x) as [t|]; [|done]. cbn [fmap option_fmap option_map]. destruct (wake_same l x t) as (W & _). by rewrite W.
Qed.

(** The state after rw_format(). *)
Definition formatted (b : nat) (w : bool) (i0 i1 i2 : Z) (s : vdisk) : vdisk :=
  let v := v_bufs s !!! b in
  VDisk (<[i2 := Desc (A_status i0) 1 VRING_DESC_F_WRITE 0]> (<[i1 := Desc (A_data b) BSIZE (Z.lor (if w then 0 else VRING_DESC_F_WRITE) VRING_DESC_F_NEXT) i2]>
           (<[i0 := Desc (A_req i0) 16 VRING_DESC_F_NEXT i1]> (v_desc s))))
    (v_avail_idx s) (v_avail s) (v_dused_idx s) (v_used s) (v_free s) (v_used_idx s)
    (<[i0 := Info (Some b) 255]> (v_info s))
    (<[i0 := Req (if w then VIRTIO_BLK_T_OUT else VIRTIO_BLK_T_IN) 0 (u32 (vb_blockno v * 2))]> (v_ops s))
    (<[b := VBuf (vb_blockno v) (vb_data v) 1]> (v_bufs s)) (v_mmio s).

Lemma rw_format_run b w i0 i1 i2 c s : rw_format b w i0 i1 i2 c s = Ok tt c (formatted b w i0 i1 i2 s).
Proof.
  unfold rw_format, put_desc, put_info, put_buf_disk. mrun. unfold formatted, modifyM. destruct s. cbn. rewrite !lookup_total_insert_eq, !insert_insert_eq. done.
Qed.

Definition seen (o : option chain) : bool := match o with Some ch => performed (cst ch) | None => false end.

(** What a step of a call that has not returned means to the specification: the start of the call, or nothing. *)
Lemma abs_call d d' e thr k k' F (F' : gmap nat chain) b w pc l ev : pc <> RwDone ->
  (ev = Some (ECall b w) /\ thr !! b = None /\ seen (F' !! b) = false \/
   ev = None /\ (exists t, thr !! b = Some t /\ th_write t = w) /\ seen (F' !! b) = seen (F !! b)) ->
  (forall x, x <> b -> F' !! x = F !! x) ->
  (forall x, vb_blockno (v_bufs d' !!! x) = vb_blockno (v_bufs d !!! x) /\ vb_data (v_bufs d' !!! x) = vb_data (v_bufs d !!! x)) ->
  astep (abs (VSys d e thr k) F) ev (abs (VSys d' e (park b w pc (awaken l thr)) k') F').
Proof.
  intros Hpc Hev Hx Hbuf. assert (park b w pc (awaken l thr) = <[b := Thread w pc (negb (has_lock pc))]> (awaken l thr)) as E by by destruct pc. rewrite E. clear E.
  set (s' := VSys d' _ _ _). set (s := VSys d _ _ _).
  assert (forall x, x <> b -> a_req (abs s' F') x = a_req (abs s F) x) as Hreq.
  { intros x Hne. cbn. rewrite lookup_insert_ne, lookup_awaken by done. destruct (thr !! x) as [t|]; [|done]. cbn. destruct (wake_same l x t) as (W & _). by rewrite W, Hx. }
  assert (forall x, a_buf (abs s' F') x = a_buf (abs s F) x) as Hb by (intros x; cbn; by destruct (Hbuf x) as [-> ->]).
  assert (a_req (abs s' F') b = Some (if seen (F' !! b) then Performed else Requested w)) as Hr by (cbn; rewrite lookup_insert_eq; by destruct (F' !! b)).
  destruct Hev as [(-> & Ht & HF)|(-> & (t & Ht & Hw) & HF)].
  - apply as_call; [cbn; by rewrite Ht|by rewrite Hr, HF|done|done|done].
  - apply as_none; [done|done|]. intros x. destruct (decide (x = b)) as [->|]; [|by apply Hreq]. rewrite Hr, HF. cbn. rewrite Ht, Hw. by destruct (F !! b).
Qed.

(** Where a call of virtio_disk_rw() with [w] may be when it tries to allocate, and the event of the attempt. *)
Definition at_alloc (thr : gmap nat thread) (b : nat) (w : bool) (ev : option vevent) : Prop :=
  ev = Some (ECall b w) /\ thr !! b = None \/ ev = None /\ thr !! b = Some (Thread w RwAlloc false).

Lemma at_alloc_abs thr b w ev (F F' : gmap nat chain) : at_alloc thr b w ev -> F !! b = None -> seen (F' !! b) = false ->
  ev = Some (ECall b w) /\ thr !! b = None /\ seen (F' !! b) = false \/
  ev = None /\ (exists t, thr !! b = Some t /\ th_write t = w) /\ seen (F' !! b) = seen (F !! b).
Proof. intros [[-> H]|[-> H]] HF HF'; [left; done|right]. split; [done|]. split; [by eexists|]. by rewrite HF, HF'. Qed.
Lemma at_alloc_note thr b w ev : at_alloc thr b w ev -> thr !! b = None \/ exists t, thr !! b = Some t /\ th_pc t = RwAlloc.
Proof. intros [[_ H]|[_ H]]; [by left|right; by eexists]. Qed.

(** A call that finds too few descriptors. *)
Lemma step_starved d e thr F Q U b w l n d' ev : vinv (VSys d e thr None) F Q U -> F !! b = None -> at_alloc thr b w ev ->
  (nfree (v_free d) < 3)%nat -> (forall i, i ∈ l -> v_free d !!! i = 1) -> same_but l d d' ->
  good (VSys d e thr None) F ev (VSys d' e (park b w RwAlloc (awaken (replicate n (EvWakeup Ch_disk_free)) thr)) (call_lock b RwAlloc)).
Proof.
  intros V Hb Ht Hn Hl [Sd Sf (R1 & R2 & R3 & R4 & R5 & R6 & R7 & R8 & R9)]. set (lw := replicate n _).
  assert (forall i, v_free d' !!! i = v_free d !!! i) as Hf by (intros i; rewrite Sf; case_decide; [by rewrite Hl|done]).
  assert (forall b' ch' i, F !! b' = Some ch' -> i ∈ ids ch' -> i ∉ l) as Hown.
  { intros b' ch' i H Hi Hil. destruct (vi_own _ _ _ _ V b' ch' H) as (t & _ & C). pose proof (co_range _ _ _ _ C i Hi) as Hi'.
    assert (v_free d !!! i = 0) as E by (apply (vi_used _ _ _ _ V i Hi'); by exists b', ch'). rewrite Hl in E; done. }
  assert (None = call_lock b RwAlloc) as Hk by done. exists F, Q, U. split.
  - split; cbn [vs_disk vs_dev vs_thr vs_lock]; rewrite ?R1, ?R2, ?R3, ?R4, ?R5, ?R8, ?R9; try apply V.
    + apply (park_others _ _ _ _ _ _ _ V b _ Hk); [by rewrite (nfree_ext _ _ Hf)|done|done|]. split; [done|]. by rewrite (nfree_ext _ _ Hf).
    + apply (park_own _ _ _ _ _ _ _ V b); [done|done|congruence|]. intros b' ch' t Hne H C.
      apply (chain_ok_frame d); rewrite ?R6, ?R7, ?R8; try done. intros i Hi. by apply Sd, (Hown b' ch').
    + intros i. rewrite Hf. apply (vi_free _ _ _ _ V i).
    + intros i. rewrite Hf. apply (vi_used _ _ _ _ V i).
    + destruct (call_note _ _ _ _ _ _ _ V b _ Hk (at_alloc_note _ _ _ _ Ht)) as [?|?]; [done|by left|right; by left].
    + intros b'. by apply (park_lock _ _ _ _ _ _ _ V b _ Hk w RwAlloc lw).
  - apply abs_call; [done| |done|by rewrite R8]. apply at_alloc_abs; [done|done|]. by rewrite Hb.
Qed.

(** The new request has the shape the device expects, and the other requests do not change. *)
Lemma formatted_chain b w i0 i1 i2 d : NoDup [i0; i1; i2] -> (forall i, i ∈ [i0; i1; i2] -> 0 <= i < NUM) -> 0 <= vb_blockno (v_bufs d !!! b) < 2 ^ 31 ->
  chain_ok (formatted b w i0 i1 i2 d) b w (Chain i0 i1 i2 SNew).
Proof.
  intros Hnd Hr Hbn. pose proof Hnd as [Hn0 [Hn1 _]%NoDup_cons]%NoDup_cons. assert (i0 <> i1 /\ i0 <> i2 /\ i1 <> i2) as (N1 & N2 & N3) by set_solver.
  split; cbn [c0 c1 c2 cst formatted v_desc v_ops v_info v_bufs performed]; try done; rewrite ?lookup_total_insert_eq; try done.
  - rewrite !lookup_total_insert_ne by done. by rewrite lookup_total_insert_eq.
  - rewrite lookup_total_insert_ne by done. by rewrite lookup_total_insert_eq.
  - cbn [vb_blockno]. f_equal. unfold u32. zlia.
Qed.

Lemma formatted_frame b w i0 i1 i2 d b' t ch' : chain_ok d b' t ch' -> b' <> b -> (forall i, i ∈ ids ch' -> i ∉ [i0; i1; i2]) ->
  chain_ok (formatted b w i0 i1 i2 (taken [i0; i1; i2] d)) b' t ch'.
Proof.
  intros C Hne Hd. assert (c0 ch' <> i0) as Hc by (pose proof (Hd (c0 ch') ltac:(unfold ids; by left)); set_solver).
  apply (chain_ok_frame d); [done| |..]; cbn [formatted taken set_free v_desc v_ops v_info v_bufs]; rewrite ?lookup_total_insert_ne by done; try done.
  intros i Hi. pose proof (Hd i Hi). rewrite !lookup_total_insert_ne by set_solver. done.
Qed.

Lemma step_format d e thr F Q U b w i0 i1 i2 ev : vinv (VSys d e thr None) F Q U -> F !! b = None -> at_alloc thr b w ev ->
  NoDup [i0; i1; i2] -> (forall i, i ∈ [i0; i1; i2] -> 0 <= i < NUM /\ v_free d !!! i = 1) ->
  good (VSys d e thr None) F ev (VSys (formatted b w i0 i1 i2 (taken [i0; i1; i2] d)) e (park b w (RwRing i0) (awaken [] thr)) (call_lock b (RwRing i0))).
Proof.
  intros V Hb Ht Hnd Hi. set (ch := Chain i0 i1 i2 SNew). set (d' := formatted _ _ _ _ _ _).
  assert (v_free d' = zero [i0; i1; i2] (v_free d)) as Hfr by done.
  assert (forall b' ch' i, F !! b' = Some ch' -> i ∈ ids ch' -> i ∉ ids ch) as Hown.
  { intros b' ch' i H Hin Hil. destruct (Hi i Hil) as [Hi1 Hi2]. assert (v_free d !!! i = 0) as E by (apply (vi_used _ _ _ _ V i Hi1); by exists b', ch'). congruence. }
  assert (forall x y, x <> SNew -> heads F x y -> heads (<[b := ch]> F) x y) as Hh.
  { intros x y Hx Hy. apply (heads_change F _ x y y b); [done|intros; by rewrite lookup_insert_ne|apply Hy|intros b' ch' N H (c & ? & _); congruence|].
    intros i. rewrite lookup_insert_eq, Hb. unfold on_stage. naive_solver. }
  assert (forall x, vb_blockno (v_bufs d' !!! x) = vb_blockno (v_bufs d !!! x) /\ vb_data (v_bufs d' !!! x) = vb_data (v_bufs d !!! x)) as Hbuf.
  { intros x. cbn. destruct (decide (x = b)) as [->|]; [by rewrite lookup_total_insert_eq|by rewrite lookup_total_insert_ne]. }
  assert (None = call_lock b RwAlloc) as Hk by done. assert (forall b', b' <> b -> <[b := ch]> F !! b' = F !! b') as HF by (intros; by rewrite lookup_insert_ne).
  exists (<[b := ch]> F), Q, U. split.
  - split; cbn [vs_disk vs_dev vs_thr vs_lock].
    + intros x. destruct (Hbuf x) as [-> _]. apply (vi_bn _ _ _ _ V x).
    + apply (park_others _ _ _ _ _ _ _ V b _ Hk); [apply nfree_mono; intros i; rewrite Hfr, zero_lookup; by case_decide|done|done|].
      rewrite lookup_insert_eq. by exists ch.
    + apply (park_own _ _ _ _ _ _ _ V b); [done|done| |].
      * rewrite lookup_insert_eq. intros ? [= <-]. apply formatted_chain; [done|by apply Hi|]. apply (vi_bn _ _ _ _ V b).
      * intros b' ch' t Hne H C. apply formatted_frame; [done|done|]. intros i. by apply (Hown b' ch').
    + intros b1 b2 ch1 ch2 i [[<- <-]|[N1 H1]]%lookup_insert_Some [[<- <-]|[N2 H2]]%lookup_insert_Some X1 X2; [done|by destruct (Hown b2 ch2 i)|by destruct (Hown b1 ch1 i)|].
      by apply (vi_disj _ _ _ _ V b1 b2 ch1 ch2 i).
    + intros i. rewrite Hfr, zero_lookup. case_decide; [by left|apply (vi_free _ _ _ _ V i)].
    + intros i Hi'. rewrite Hfr, zero_lookup. case_decide as Hin; [split; [|done]; intros _; exists b, ch; by rewrite lookup_insert_eq|].
      pose proof (vi_used _ _ _ _ V i Hi') as Hu. cbn [vs_disk] in Hu. rewrite Hu. split.
      * intros (b' & ch' & H & Hx). exists b', ch'. rewrite lookup_insert_ne; [done|congruence].
      * intros (b' & ch' & [[<- <-]|[N H]]%lookup_insert_Some & Hx); [done|by exists b', ch'].
    + apply (vi_avail _ _ _ _ V).
    + apply (vi_rused _ _ _ _ V).
    + apply Hh; [done|apply V].
    + apply Hh; [done|apply (vi_P _ _ _ _ V)].
    + apply Hh; [done|apply V].
    + destruct (call_note _ _ _ _ _ _ _ V b _ Hk (at_alloc_note _ _ _ _ Ht)) as [?|?]; [done|by left|right; by left].
    + intros b'. by apply (park_lock _ _ _ _ _ _ _ V b _ Hk w (RwRing i0) []).
    + done.
    + destruct (call_raised _ _ _ _ _ _ _ V b _ Hk) as [?|[?|?]]; tauto.
  - apply abs_call; [done|apply at_alloc_abs; [done|done|by rewrite lookup_insert_eq]|done|done].
Qed.

(** Once the request is laid out, the call puts it into the available ring, ... *)
Section Publish.
Context (d : vdisk) (e : device) (thr : gmap nat thread) (F : gmap nat chain) (Q U : list Z) (b : nat) (w : bool) (i0 : Z).

Lemma step_ring : vinv (VSys d e thr (Some (ByCall b))) F Q U -> thr !! b = Some (Thread w (RwRing i0) false) ->
  good (VSys d e thr (Some (ByCall b))) F None
    (VSys (set_avail (<[v_avail_idx d mod NUM := i0]> (v_avail d)) d) e (park b w (RwIdx i0) (awaken [] thr)) (call_lock b (RwIdx i0))).
Proof.
  intros V Ht. assert (Some (ByCall b) = call_lock b (RwRing i0)) as Hk by done. pose proof (vi_thr _ _ _ _ V b _ Ht) as (ch & Hb & Hc & Hs & _).
  destruct (vi_own _ _ _ _ V b ch Hb) as (t & Ht' & C). cbn [vs_thr vs_disk] in *. rewrite Ht in Ht'. injection Ht' as <-. cbn [th_write] in C. exists F, Q, U. split.
  - split; cbn [vs_disk vs_dev vs_thr vs_lock]; try apply V.
    + apply (park_others _ _ _ _ _ _ _ V b _ Hk); [done|done|done|]. rewrite Hb. exists ch. cbn. by rewrite lookup_total_insert_eq.
    + apply (park_own _ _ _ _ _ _ _ V b); [done|done| |]; [rewrite Hb; intros ? [= <-]|intros b' ch' t _ _ C']; by apply (chain_ok_frame d).
    + cbn. apply ring_write; [apply (vi_avail _ _ _ _ V)|]. apply (heads_room F SQueued Q _ _ _ i0 V (vi_Q _ _ _ _ V)); [|rewrite <- Hc; apply C; by left].
      intros (b' & ch' & H & E & Hs')%(vi_Q _ _ _ _ V). assert (b' = b) as -> by (apply (head_unique _ F Q U b' b ch' ch V); congruence). congruence.
    + destruct (call_note _ _ _ _ _ _ _ V b _ Hk) as [?|?]; [right; by eexists|done|by left|right; by left].
    + intros b'. by apply (park_lock _ _ _ _ _ _ _ V b _ Hk w (RwIdx i0) []).
  - apply abs_call; [done|right; split; [done|]; split; [by eexists|done]|done|done].
Qed.

(** ... counts it, which shows it to the device, ... *)
Lemma step_idx : vinv (VSys d e thr (Some (ByCall b))) F Q U -> thr !! b = Some (Thread w (RwIdx i0) false) ->
  good (VSys d e thr (Some (ByCall b))) F None
    (VSys (set_avail_idx (u16 (v_avail_idx d + 1)) d) e (park b w (RwNotify i0) (awaken [] thr)) (call_lock b (RwNotify i0))).
Proof.
  intros V Ht. assert (Some (ByCall b) = call_lock b (RwIdx i0)) as Hk by done. pose proof (vi_thr _ _ _ _ V b _ Ht) as (ch & Hb & Hc & Hs & _ & Hr).
  destruct (vi_own _ _ _ _ V b ch Hb) as (t & Ht' & C). cbn [vs_thr vs_disk] in *. rewrite Ht in Ht'. injection Ht' as <-. cbn [th_write] in C.
  assert (cst ch <> SQueued) as Hy by congruence. assert (forall b', b' <> b -> <[b := at_stage SQueued ch]> F !! b' = F !! b') as HF by (intros; by rewrite lookup_insert_ne).
  exists (<[b := at_stage SQueued ch]> F), (Q ++ [i0]), U. split.
  - split; cbn [vs_disk vs_dev vs_thr vs_lock]; try apply V.
    + apply (park_others _ _ _ _ _ _ _ V b _ Hk); [done|done|done|]. rewrite lookup_insert_eq. exists (at_stage SQueued ch). done.
    + apply (park_own _ _ _ _ _ _ _ V b); [done|done| |]; [rewrite lookup_insert_eq; intros ? [= <-]|intros b' ch' t _ _ C'; by apply (chain_ok_frame d)].
      destruct C as [C1 C2 C3 C4 C5 C6 C7 C8]. rewrite Hs in C7, C8. by split.
    + intros *. by apply (disj_stage _ F Q U V b ch Hb SQueued).
    + intros i Hi. rewrite (used_stage F b ch Hb SQueued). by apply (vi_used _ _ _ _ V).
    + apply ring_bump; [apply (vi_avail _ _ _ _ V)|exact Hr].
    + apply (heads_enter _ F Q U V b ch Hb SQueued Hy Q); [apply V| |].
      * apply NoDup_app. split; [apply V|]. split; [|apply NoDup_singleton]. intros i (b' & ch' & H & E & Hs')%(vi_Q _ _ _ _ V) ->%list_elem_of_singleton.
        assert (b' = b) as -> by (apply (head_unique _ F Q U b' b ch' ch V); congruence). congruence.
      * intros i. rewrite elem_of_app, list_elem_of_singleton. by rewrite Hc.
    + apply (heads_stay _ F Q U V b ch Hb SQueued); [congruence|done|apply (vi_P _ _ _ _ V)].
    + apply (heads_stay _ F Q U V b ch Hb SQueued); [congruence|done|apply V].
    + right. right. eexists b, _, i0. cbn [park]. by rewrite lookup_insert_eq.
    + intros b'. by apply (park_lock _ _ _ _ _ _ _ V b _ Hk w (RwNotify i0) []).
  - apply abs_call; [done|right; split; [done|]; split; [by eexists|rewrite lookup_insert_eq, Hb; cbn; by rewrite Hs]|done|done].
Qed.

(** ... notifies the device and sleeps. *)
Lemma step_notify : vinv (VSys d e thr (Some (ByCall b))) F Q U -> thr !! b = Some (Thread w (RwNotify i0) false) ->
  good (VSys d e thr (Some (ByCall b))) F None
    (VSys (set_mmio (Mmio true (m_isr (v_mmio d))) d) e (park b w (RwWait i0) (awaken [] thr)) (call_lock b (RwWait i0))).
Proof.
  intros V Ht. assert (Some (ByCall b) = call_lock b (RwNotify i0)) as Hk by done. pose proof (vi_thr _ _ _ _ V b _ Ht) as (ch & Hb & Hc & Hs & Hd & _).
  destruct (vi_own _ _ _ _ V b ch Hb) as (t & Ht' & C). cbn [vs_thr vs_disk] in *. rewrite Ht in Ht'. injection Ht' as <-. cbn [th_write] in C. exists F, Q, U. split.
  - split; cbn [vs_disk vs_dev vs_thr vs_lock]; try apply V.
    + apply (park_others _ _ _ _ _ _ _ V b _ Hk); [done|done|done|]. rewrite Hb. by exists ch.
    + apply (park_own _ _ _ _ _ _ _ V b); [done|done| |]; [rewrite Hb; intros ? [= <-]|intros b' ch' t _ _ C']; by apply (chain_ok_frame d).
    + right. by left.
    + intros b'. by apply (park_lock _ _ _ _ _ _ _ V b _ Hk w (RwWait i0) []).
    + done.
    + destruct (call_raised _ _ _ _ _ _ _ V b _ Hk) as [?|[?|?]]; cbn; tauto.
  - apply abs_call; [done|right; split; [done|]; split; [by eexists|done]|done|done].
Qed.
End Publish.

(** A call that was woken before its transfer was done sleeps again. *)
Lemma step_wait d e thr F Q U b w ch : vinv (VSys d e thr None) F Q U -> thr !! b = Some (Thread w (RwWait (c0 ch)) false) -> F !! b = Some ch -> cst ch <> SDone ->
  good (VSys d e thr None) F None (VSys d e (park b w (RwWait (c0 ch)) (awaken [] thr)) None).
Proof.
  intros V Ht Hb Hd. assert (None = call_lock b (RwWait (c0 ch))) as Hk by done. pose proof (vi_thr _ _ _ _ V b _ Ht) as (ch' & Hb' & _ & Hs & _).
  rewrite Hb in Hb'. injection Hb' as <-. destruct (vi_own _ _ _ _ V b ch Hb) as (t & Ht' & C). cbn [vs_thr vs_disk] in *. rewrite Ht in Ht'. injection Ht' as <-. exists F, Q, U. split.
  - split; cbn [vs_disk vs_dev vs_thr vs_lock]; try apply V.
    + apply (park_others _ _ _ _ _ _ _ V b _ Hk); [done|done|done|]. rewrite Hb. by exists ch.
    + apply (park_own _ _ _ _ _ _ _ V b); [done|done| |]; [rewrite Hb; by intros ? [= <-]|done].
    + destruct (call_note _ _ _ _ _ _ _ V b _ Hk) as [?|?]; [right; by eexists|done|by left|right; by left].
    + intros b'. by apply (park_lock _ _ _ _ _ _ _ V b _ Hk w (RwWait (c0 ch)) []).
  - apply abs_call; [done|right; split; [done|]; split; [by eexists|done]|done|done].
Qed.

(** From the allocation on, a call sleeps for descriptors or has laid out its request. *)
Lemma rw_alloc_run d e thr F Q U b w ev : vinv (VSys d e thr None) F Q U -> F !! b = None -> at_alloc thr b w ev ->
  exists pc l d', rw_alloc b w (Ctx [L_vdisk] []) d = Ok pc (Ctx (locks (call_lock b pc)) l) d' /\ pc <> RwDone /\
    good (VSys d e thr None) F ev (VSys d' e (park b w pc (awaken l thr)) (call_lock b pc)).
Proof.
  intros V Hb Ht. unfold rw_alloc. destruct (alloc3_run (Ctx [L_vdisk] []) d (vi_free _ _ _ _ V)) as [(i0 & i1 & i2 & Hnd & Hi & Hr)|(n & l & d' & Hr & Hn & Hl & Hs)];
    rewrite (bind_Ok _ _ _ _ _ _ _ Hr).
  - rewrite (bind_Ok _ _ _ _ _ _ _ (rw_format_run b w i0 i1 i2 _ _)). eexists (RwRing i0), [], _. split; [done|]. split; [done|]. by apply (step_format d e thr F Q U).
  - exists RwAlloc, (replicate n (EvWakeup Ch_disk_free)), d'. split; [unfold emitted; by rewrite app_nil_r|]. split; [done|]. by apply (step_starved d e thr F Q U b w l).
Qed.

Lemma call_run d e thr F Q U b w : vinv (VSys d e thr None) F Q U -> thr !! b = None ->
  exists pc l d', virtio_disk_rw b w (Ctx [] []) d = Ok pc (Ctx (locks (call_lock b pc)) l) d' /\
    good (VSys d e thr None) F (Some (ECall b w)) (VSys d' e (park b w pc (awaken l thr)) (call_lock b pc)).
Proof.
  intros V Ht. unfold virtio_disk_rw. rewrite bind_acquire by apply not_elem_of_nil. assert (F !! b = None) as HF.
  { destruct (F !! b) as [ch|] eqn:E; [|done]. destruct (vi_own _ _ _ _ V b ch E) as (t & H & _). cbn in H. congruence. }
  destruct (rw_alloc_run d e thr F Q U b w (Some (ECall b w)) V HF) as (pc & l & d' & Hr & _ & G); [by left|]. by exists pc, l, d'.
Qed.

(** A call that waited for its transfer returns when it is done, and sleeps again when not. *)
Lemma wait_run d e thr F Q U b w i0 : vinv (VSys d e thr None) F Q U -> thr !! b = Some (Thread w (RwWait i0) false) ->
  exists pc' l d', rw_finish b i0 (Ctx [L_vdisk] []) d = Ok pc' (Ctx (locks (call_lock b pc')) l) d' /\
    good (VSys d e thr None) F (return_event b pc' d') (VSys d' e (park b w pc' (awaken l thr)) (call_lock b pc')).
Proof.
  intros V Ht. pose proof (vi_thr _ _ _ _ V b _ Ht) as (ch & Hb & <- & _). destruct (vi_own _ _ _ _ V b ch Hb) as (t & Ht' & C).
  cbn [vs_thr vs_disk] in Ht', C. rewrite Ht in Ht'. injection Ht' as <-. cbn [th_write] in C. destruct (decide (cst ch = SDone)) as [Hst|Hst].
  - eexists RwDone, _, _. rewrite (rw_finish_done b w ch [] d C Hst); [split; [reflexivity|]|].
    + unfold return_event. destruct (freed_all_same (ids ch) (unlinked (c0 ch) d)) as [_ _ (_ & _ & _ & _ & _ & _ & _ & R8 & _)]. rewrite R8.
      by apply (step_return d e thr F Q U b ch w false).
    + intros i Hi. apply (vi_used _ _ _ _ V i (co_range _ _ _ _ C i Hi)). by exists b, ch.
  - exists (RwWait (c0 ch)), [], d. rewrite rw_finish_wait by (rewrite (co_disk _ _ _ _ C); by case_decide). split; [done|]. by apply (step_wait d e thr F Q U).
Qed.

Lemma resume_run d e thr k F Q U b w pc : vinv (VSys d e thr k) F Q U -> thr !! b = Some (Thread w pc false) -> k = call_lock b pc ->
  exists pc' l d', virtio_disk_rw_resume pc b w (Ctx (locks k) []) d = Ok pc' (Ctx (locks (call_lock b pc')) l) d' /\
    good (VSys d e thr k) F (return_event b pc' d') (VSys d' e (park b w pc' (awaken l thr)) (call_lock b pc')).
Proof.
  intros V Ht ->. destruct pc as [|i0|i0|i0|i0|]; cbn [call_lock has_lock locks virtio_disk_rw_resume] in *.
  - rewrite bind_acquire by apply not_elem_of_nil. pose proof (vi_thr _ _ _ _ V b _ Ht) as [HF _].
    destruct (rw_alloc_run d e thr F Q U b w None V HF) as (pc & l & d' & Hr & Hd & G); [by right|]. exists pc, l, d'. split; [done|]. by destruct pc.
  - eexists (RwIdx i0), [], _. split; [reflexivity|]. by apply (step_ring d e thr F Q U).
  - eexists (RwNotify i0), [], _. split; [reflexivity|]. by apply (step_idx d e thr F Q U).
  - eexists (RwWait i0), [], _. split; [|by apply (step_notify d e thr F Q U)]. unfold queue_notify. rewrite bind_modify. rewrite rw_finish_wait; [done|].
    pose proof (vi_thr _ _ _ _ V b _ Ht) as (ch & Hb & _ & _ & Hd & _). destruct (vi_own _ _ _ _ V b ch Hb) as (t & _ & C). pose proof (co_disk _ _ _ _ C) as E. cbn in E |- *. rewrite E. by case_decide.
  - rewrite bind_acquire by apply not_elem_of_nil. by apply (wait_run d e thr F Q U).
  - by destruct (vi_thr _ _ _ _ V b _ Ht).
Qed.

Lemma step_poke d e thr k F Q U b bn x : vinv (VSys d e thr k) F Q U -> thr !! b = None -> 0 <= bn < 2 ^ 31 ->
  good (VSys d e thr k) F (Some (EPoke b bn x)) (VSys (set_bufs (<[b := VBuf bn x (vb_disk (v_bufs d !!! b))]> (v_bufs d)) d) e thr k).
Proof.
  intros V Ht Hbn. assert (F !! b = None) as Hb by (destruct (F !! b) as [ch|] eqn:E; [|done]; destruct (vi_own _ _ _ _ V b ch E) as (t & H & _); cbn in H; congruence).
  exists F, Q, U. split.
  - destruct V as [A T O D Fr Us Av Ru q p u nt L En Ra]. split; try done; cbn [vs_thr vs_disk vs_dev set_bufs v_bufs] in *.
    + intros y. destruct (decide (y = b)) as [->|]; [by rewrite lookup_total_insert_eq|by rewrite lookup_total_insert_ne].
    + intros b' ch' H. destruct (O b' ch' H) as (t' & Ht' & C'). exists t'. split; [done|]. assert (b' <> b) by congruence.
      apply (chain_ok_frame d); try done; cbn; by rewrite lookup_total_insert_ne.
  - apply as_poke; cbn; [by rewrite Ht|done|by rewrite lookup_total_insert_eq| |done]. intros y Hy. by rewrite lookup_total_insert_ne.
Qed.

Lemma vstep_good s l s' F Q U : vinv s F Q U -> vstep s l s' -> good s F l s'.
Proof.
  destruct s as [d e thr k]. intros V H. inversion H as [b bn x|b w pc c d' Hb Hk Hr|l' s1 G|s1 G|s1 G|d']; subst; cbn [vs_disk vs_dev vs_thr vs_lock] in *.
  - by apply (step_poke d e thr k F Q U).
  - subst k. destruct (call_run d e thr F Q U b w V Hb) as (pc' & l & d1 & Hr' & G). rewrite Hr in Hr'. injection Hr' as <- -> <-. exact G.
  - destruct G as [b w pc pc' c d' Hb Hk Hr]. cbn [vs_disk vs_dev vs_thr vs_lock] in *. destruct (resume_run d e thr k F Q U b w pc V Hb Hk) as (pc1 & l & d1 & Hr' & G).
    rewrite Hr in Hr'. injection Hr' as <- -> <-. exact G.
  - destruct G as [pc c d' Hk Hi Hr|pc pc' c d' Hk Hr]; cbn [vs_disk vs_dev vs_thr vs_lock] in *; subst k.
    + destruct (intr_run d e thr F Q U V) as (pc1 & Hr' & G). rewrite Hr in Hr'. injection Hr' as <- -> <-. exact G.
    + destruct (intr_resume_run d e thr F Q U pc V) as (pc1 & l & d1 & Hr' & G). rewrite Hr in Hr'. injection Hr' as <- -> <-. exact G.
  - destruct G as [e' He|id d' e' Hid He|d' e' He]; cbn [vs_disk vs_dev vs_thr vs_lock] in *.
    + by apply (step_fetch (VSys d e thr k) F Q U). + by apply (step_finish (VSys d e thr k) F Q U id). + by apply (step_raise d e thr k F Q U).
  - by apply (step_rest d e thr k F Q U).
Qed.

(** ** Initialisation *)

(** The driver accepts every feature the device offers but seven. *)
Lemma init_features_spec f k : 0 <= k ->
  Z.testbit (init_features f) k = Z.testbit f k && negb (bool_decide (k ∈ [VIRTIO_BLK_F_RO; VIRTIO_BLK_F_SCSI; VIRTIO_BLK_F_CONFIG_WCE; VIRTIO_BLK_F_MQ;
    VIRTIO_F_ANY_LAYOUT; VIRTIO_RING_F_EVENT_IDX; VIRTIO_RING_F_INDIRECT_DESC])).
Proof.
  intros Hk. unfold init_features, feature_off. rewrite !Z.ldiff_spec, !Z.shiftl_spec by done.
  assert (forall n, Z.testbit 1 (k - n) = (k =? n)) as Hb.
  { intros n. destruct (Z.eqb_spec k n) as [->|]; [by rewrite Z.sub_diag|].
    destruct (decide (k < n)); [apply Z.testbit_neg_r; lia|]. apply Z.bits_above_log2; cbn; lia. }
  rewrite !Hb. rewrite <- !andb_assoc. f_equal. case_bool_decide as H; rewrite !elem_of_cons, elem_of_nil in H;
    repeat match goal with |- context [k =? ?n] => destruct (Z.eqb_spec k n) end; naive_solver.
Qed.

(** ** What holds of the driver *)

Definition aspec0 (bufs : gmap nat vbuf) (dsk : gmap Z block) : aspec := ASpec dsk (fun b => (vb_blockno (bufs !!! b), vb_data (bufs !!! b))) (fun _ => None).

Lemma vdisk0_free bufs i : 0 <= i < NUM -> v_free (vdisk0 bufs) !!! i = 1.
Proof. intros Hi. unfold NUM in Hi. assert (i = 0 \/ i = 1 \/ i = 2 \/ i = 3 \/ i = 4 \/ i = 5 \/ i = 6 \/ i = 7) by lia. naive_solver. Qed.

Lemma vinv_init bufs dsk : (forall b, 0 <= vb_blockno (bufs !!! b) < 2 ^ 31) -> vinv (VSys (vdisk0 bufs) (Device 0 [] dsk false) ∅ None) ∅ [] [].
Proof.
  intros Hbn. assert (forall x, heads ∅ x []) as Hh.
  { intros x. split; [constructor|]. intros i. split; [by intros ?%elem_of_nil|]. intros (b & ch & H & _). by rewrite lookup_empty in H. }
  assert (forall lo, 0 <= lo < 2 ^ 16 -> forall r, ring_rep r lo lo []) as Hr by (intros lo Hlo r; split; [done|cbn; unfold u16; zlia|done]).
  split; cbn [vs_disk vs_dev vs_thr vs_lock dev_last dev_pending vdisk0 v_bufs v_avail_idx v_avail v_dused_idx v_used v_used_idx]; try done; try (by apply Hr); try apply Hh; try (by left).
  - intros i. right. destruct (decide (0 <= i < NUM)) as [Hi|Hi]; [by apply vdisk0_free|]. change (v_free (vdisk0 bufs) !!! i = 1). rewrite lookup_total_alt.
    destruct (v_free (vdisk0 bufs) !! i) as [x|] eqn:Hx; [|done]. destruct Hi.
    apply elem_of_list_to_map_2, list_elem_of_fmap in Hx as (k & [= -> ->] & Hk%elem_of_seq). unfold NUM in *. lia.
  - intros i Hi. rewrite vdisk0_free by done. split; [done|]. intros (b & ch & H & _). by rewrite lookup_empty in H.
  - intros b. split; [done|]. intros (t & H & _). by rewrite lookup_empty in H.
Qed.

Lemma vruns_good bufs dsk tr s : (forall b, 0 <= vb_blockno (bufs !!! b) < 2 ^ 31) -> vruns bufs dsk tr s ->
  exists F Q U, vinv s F Q U /\ aruns (aspec0 bufs dsk) tr (abs s F).
Proof.
  intros Hbn. induction 1 as [|tr s l s' H (F & Q & U & V & A) Hs].
  - exists ∅, [], []. split; [by apply vinv_init|]. apply ar_here.
  - destruct (vstep_good s l s' F Q U V Hs) as (F' & Q' & U' & V' & A'). exists F', Q', U'. split; [done|]. by eapply ar_more.
Qed.

(** A state of the specification that a client of the driver cannot tell from the driver's state. *)
Record agrees (s : vsys) (a : aspec) : Prop := {
  ag_disk : a_disk a = dev_disk (vs_dev s);
  ag_buf : forall b, a_buf a b = (vb_blockno (v_bufs (vs_disk s) !!! b), vb_data (v_bufs (vs_disk s) !!! b));
  ag_req : forall b, match vs_thr s !! b with
    | None => a_req a b = None
    | Some t => a_req a b = Some (Requested (th_write t)) \/ a_req a b = Some Performed
    end;
}.

(** C5: The driver refines a disk that performs each requested transfer in one step between the call and its return.
    For every run of the calls, the device and the interrupt handler, with the device acting between any two of the
    driver's accesses to the rings and registers, the specification has a run with the same events - the same buffers set to the same
    contents, the same calls, and the same returns with the same data - that ends with the same disk and buffers. *)
Theorem virtio_refines bufs dsk tr s : (forall b, 0 <= vb_blockno (bufs !!! b) < 2 ^ 31) -> vruns bufs dsk tr s ->
  exists a, aruns (aspec0 bufs dsk) tr a /\ agrees s a.
Proof.
  intros Hbn H. destruct (vruns_good bufs dsk tr s Hbn H) as (F & Q & U & V & A). exists (abs s F). split; [done|]. split; [done|done|].
  intros b. cbn. destruct (vs_thr s !! b) as [t|]; [|done]. destruct (F !! b) as [ch|]; [|by left]. destruct (performed (cst ch)); [by right|by left].
Qed.

(** No segment of the driver panics, loops for ever or leaves the lock in the wrong state: in every reachable state a new
    call, a call that goes on and the interrupt handler run to where they stop next, and the device finds every chain it
    was given well formed. *)
Theorem virtio_safe bufs dsk tr s : (forall b, 0 <= vb_blockno (bufs !!! b) < 2 ^ 31) -> vruns bufs dsk tr s ->
  (forall b w, vs_thr s !! b = None -> vs_lock s = None ->
     exists pc l d, virtio_disk_rw b w (Ctx [] []) (vs_disk s) = Ok pc (Ctx (locks (call_lock b pc)) l) d) /\
  (forall b w pc, vs_thr s !! b = Some (Thread w pc false) -> vs_lock s = call_lock b pc ->
     exists pc' l d, virtio_disk_rw_resume pc b w (Ctx (locks (vs_lock s)) []) (vs_disk s) = Ok pc' (Ctx (locks (call_lock b pc')) l) d) /\
  (forall pc, vs_lock s = Some (ByIntr pc) ->
     exists pc' l d, virtio_disk_intr_resume pc (Ctx [L_vdisk] []) (vs_disk s) = Ok pc' (Ctx (locks (intr_lock pc')) l) d) /\
  (forall id, id ∈ dev_pending (vs_dev s) -> exists r, dev_finish id (vs_disk s) (vs_dev s) = Some r).
Proof.
  intros Hbn H. destruct (vruns_good bufs dsk tr s Hbn H) as (F & Q & U & V & _). destruct s as [d e thr k]. cbn [vs_disk vs_dev vs_thr vs_lock] in *. split; [|split; [|split]].
  - intros b w Hb ->. destruct (call_run d e thr F Q U b w V Hb) as (pc & l & d' & Hr & _). by exists pc, l, d'.
  - intros b w pc Hb Hk. destruct (resume_run d e thr k F Q U b w pc V Hb Hk) as (pc' & l & d' & Hr & _). by exists pc', l, d'.
  - intros pc ->. destruct (intr_resume_run d e thr F Q U pc V) as (pc' & l & d' & Hr & _). by exists pc', l, d'.
  - intros id Hid. apply (vi_P _ _ _ _ V) in Hid as (b & ch & Hb & <- & _). destruct (vi_own _ _ _ _ V b ch Hb) as (t & _ & C).
    eexists. by apply (dev_finish_run d e b (th_write t)).
Qed.

(** An awake call goes on when the lock is free or its own. *)
Lemma awake_goes s F Q U b t : vinv s F Q U -> vs_thr s !! b = Some t -> th_asleep t = false -> (vs_lock s = None \/ vs_lock s = Some (ByCall b)) ->
  exists l s', call_goes s l s'.
Proof.
  destruct s as [d e thr k], t as [w pc a]. cbn. intros V Ht -> Hk. assert (k = call_lock b pc) as Hk'.
  { pose proof (vi_lock _ _ _ _ V b) as L. cbn [vs_thr vs_lock] in L. unfold call_lock. destruct (has_lock pc) eqn:E; [apply L; by eexists|].
    destruct Hk as [|Hk]; [done|]. apply L in Hk as (t & Ht' & E'). rewrite Ht in Ht'. injection Ht' as <-. cbn in E'. congruence. }
  destruct (resume_run d e thr k F Q U b w pc V Ht Hk') as (pc' & l & d' & Hr & _). eexists _, _. by eapply (cg_run (VSys d e thr k) b w pc).
Qed.

(** A request that no call is awake for is in the hands of the device, or of the handler. *)
Lemma asleep_goes s F Q U b ch : vinv s F Q U -> vs_lock s = None -> F !! b = Some ch -> (forall t, vs_thr s !! b = Some t -> th_asleep t = true) ->
  (exists s', intr_goes s s' /\ v_used_idx (vs_disk s) <> v_dused_idx (vs_disk s)) \/ (exists s', dev_goes s s').
Proof.
  intros V Hk Hb Ha. destruct (vi_own _ _ _ _ V b ch Hb) as (t & Ht & C). pose proof (vi_thr _ _ _ _ V b t Ht) as T. rewrite Hb in T.
  assert (cst ch <> SNew /\ cst ch <> SDone) as [Hn Hd].
  { specialize (Ha t Ht). unfold thr_ok in T. destruct (th_pc t); [by destruct T|..|done]; destruct T as (c & [= <-] & _ & T); destruct_and?; try congruence. auto. }
  destruct (cst ch) eqn:Hst; try done.
  - right. eexists. apply dg_fetch. assert (c0 ch ∈ Q) as HQ by (apply (vi_Q _ _ _ _ V); by exists b, ch). unfold dev_fetch.
    destruct (vi_note _ _ _ _ V) as [->|[->|(b' & t' & i0 & H & E)]]; [by apply elem_of_nil in HQ| |].
    + cbn [negb orb]. destruct (Z.eqb_spec (dev_last (vs_dev s)) (v_avail_idx (vs_disk s))) as [E|]; [|done].
      apply (ring_empty _ _ _ _ (vi_avail _ _ _ _ V)) in E; [|apply (heads_le F SQueued Q s Q U V), V]. subst Q. by apply elem_of_nil in HQ.
    + pose proof (no_lock _ _ _ _ b' t' V H) as X. rewrite Hk, E in X. by specialize (X ltac:(done)).
  - right. eexists. eapply dg_finish; [apply (vi_P _ _ _ _ V); by exists b, ch|by apply (dev_finish_run _ _ b (th_write t))].
  - assert (c0 ch ∈ U) as HU by (apply (vi_U _ _ _ _ V); by exists b, ch). destruct (vi_raised _ _ _ _ V) as [->|[Hr|[Hr|[pc H]]]]; [by apply elem_of_nil in HU| | |congruence].
    + left. destruct s as [d e thr k]. cbn [vs_disk vs_lock] in *. subst k. destruct (intr_run d e thr F Q U V) as (pc & Hrun & _). eexists. split.
      * eapply (ig_start (VSys d e thr None)); [done| |exact Hrun]. cbn. intros E. by rewrite E in Hr.
      * intros E. apply (ring_empty _ _ _ _ (vi_rused _ _ _ _ V)) in E; [|apply (heads_le F SUsed U _ Q U V), V]. subst U. by apply elem_of_nil in HU.
    + right. eexists. apply dg_raise. unfold dev_raise. by rewrite Hr.
Qed.

(** C18: No wakeup, notification or interrupt is lost: while a call of virtio_disk_rw() is in progress, some call can go on, or
    the handler can - and when it is only about to start, it has a completed request to report - or the device can take
    a request, serve one, or raise its interrupt. *)
Theorem virtio_progress bufs dsk tr s : (forall b, 0 <= vb_blockno (bufs !!! b) < 2 ^ 31) -> vruns bufs dsk tr s -> vs_thr s <> ∅ ->
  (exists l s', call_goes s l s') \/ (exists s', intr_goes s s' /\ (vs_lock s = None -> v_used_idx (vs_disk s) <> v_dused_idx (vs_disk s))) \/
  (exists s', dev_goes s s').
Proof.
  intros Hbn H Hne. destruct (vruns_good bufs dsk tr s Hbn H) as (F & Q & U & V & _). destruct (vs_lock s) as [[b|pc]|] eqn:Hk.
  - left. pose proof Hk as (t & Ht & Hl)%(vi_lock _ _ _ _ V). apply (awake_goes s F Q U b t V Ht); [|by right]. pose proof (vi_thr _ _ _ _ V b t Ht) as T.
    unfold thr_ok in T. destruct (th_pc t); try done; naive_solver.
  - right. left. destruct s as [d e thr k]. cbn [vs_lock] in Hk. subst k. destruct (intr_resume_run d e thr F Q U pc V) as (pc' & l & d' & Hr & _).
    eexists. split; [by eapply (ig_run (VSys d e thr (Some (ByIntr pc))))|done].
  - assert ((exists b t, vs_thr s !! b = Some t /\ th_asleep t = false) \/ forall b t, vs_thr s !! b = Some t -> th_asleep t = true) as [(b & t & Ht & Ha)|Ha].
    { destruct (decide (map_Forall (fun _ t => th_asleep t = true) (vs_thr s))) as [Hf|Hf]; [right; exact Hf|left].
      apply map_not_Forall in Hf as (b & t & Ht & Hf); [|solve_decision]. exists b, t. split; [done|]. by destruct (th_asleep t). }
    { left. apply (awake_goes s F Q U b t V Ht Ha). by left. }
    destruct (decide (F = ∅)) as [->|[b [ch Hb]]%map_choose].
    + exfalso. apply map_choose in Hne as (b & t & Ht). pose proof (vi_thr _ _ _ _ V b t Ht) as T. rewrite lookup_empty in T. unfold thr_ok in T.
      destruct (th_pc t); try (by destruct T as (? & ? & _)); [|done]. pose proof (proj2 T (Ha b t Ht)) as Hl.
      assert (nfree (v_free (vs_disk s)) = 8)%nat as E; [|lia]. apply nfree_all. intros i Hi E. apply (vi_used _ _ _ _ V i Hi) in E as (b' & ch & E & _). by rewrite lookup_empty in E.
    + destruct (asleep_goes s F Q U b ch V Hk Hb (Ha b)) as [(s' & G & Hu)|?]; [right; left; by exists s'|right; by right].
Qed.

(** ** Running the system *)

Inductive action : Type := APoke (b : nat) (bn : Z) (x : block) | ACall (b : nat) (w : bool) | AGo (b : nat) | AIntr | AFetch | AFinish (id : Z) | ARaise.

#[global] Instance holder_eq_dec : EqDecision holder.
Proof. assert (EqDecision intr_pc) by solve_decision. solve_decision. Defined.

Definition drive (a : action) (s : vsys) : option (option vevent * vsys) :=
  let d := vs_disk s in let e := vs_dev s in let thr := vs_thr s in
  match a with
  | APoke b bn x =>
      if decide (thr !! b = None /\ 0 <= bn < 2 ^ 31)
      then Some (Some (EPoke b bn x), VSys (set_bufs (<[b := VBuf bn x (vb_disk (v_bufs d !!! b))]> (v_bufs d)) d) e thr (vs_lock s)) else None
  | ACall b w =>
      if decide (thr !! b = None /\ vs_lock s = None) then
        match virtio_disk_rw b w (Ctx [] []) d with
        | Ok pc c d' => Some (Some (ECall b w), VSys d' e (park b w pc (awaken (out c) thr)) (call_lock b pc))
        | _ => None
        end
      else None
  | AGo b =>
      match thr !! b with
      | Some (Thread w pc false) =>
          if decide (vs_lock s = call_lock b pc) then
            match virtio_disk_rw_resume pc b w (Ctx (locks (vs_lock s)) []) d with
            | Ok pc' c d' => Some (return_event b pc' d', VSys d' e (park b w pc' (awaken (out c) thr)) (call_lock b pc'))
            | _ => None
            end
          else None
      | _ => None
      end
  | AIntr =>
      match vs_lock s with
      | None =>
          if m_isr (v_mmio d) =? 0 then None
          else match virtio_disk_intr (Ctx [] []) d with Ok pc c d' => Some (None, VSys d' e (awaken (out c) thr) (intr_lock pc)) | _ => None end
      | Some (ByIntr pc) =>
          match virtio_disk_intr_resume pc (Ctx [L_vdisk] []) d with Ok pc' c d' => Some (None, VSys d' e (awaken (out c) thr) (intr_lock pc')) | _ => None end
      | _ => None
      end
  | AFetch => match dev_fetch d e with Some e' => Some (None, VSys d e' thr (vs_lock s)) | None => None end
  | AFinish id =>
      if decide (id ∈ dev_pending e) then match dev_finish id d e with Some (d', e') => Some (None, VSys d' e' thr (vs_lock s)) | None => None end else None
  | ARaise => match dev_raise d e with Some (d', e') => Some (None, VSys d' e' thr (vs_lock s)) | None => None end
  end.

Lemma drive_sound a s l s' : drive a s = Some (l, s') -> vstep s l s'.
Proof.
  destruct a; cbn [drive]; intros H.
  - case_decide as D; [|done]. injection H as <- <-. destruct D. by apply vst_poke.
  - case_decide as D; [|done]. destruct (virtio_disk_rw b w _ _) eqn:E; try done. injection H as <- <-. destruct D. by apply vst_call.
  - destruct (vs_thr s !! b) as [[w pc []]|] eqn:Ht; try done. case_decide as D; [|done]. destruct (virtio_disk_rw_resume _ _ _ _ _) eqn:E; try done.
    injection H as <- <-. apply vst_resume. by eapply cg_run.
  - destruct (vs_lock s) as [[|pc]|] eqn:Hk; try done.
    + destruct (virtio_disk_intr_resume _ _ _) eqn:E; try done. injection H as <- <-. apply vst_intr. by eapply ig_run.
    + destruct (Z.eqb_spec (m_isr (v_mmio (vs_disk s))) 0) as [|D]; [done|]. destruct (virtio_disk_intr _ _) eqn:E; try done. injection H as <- <-. apply vst_intr. by eapply ig_start.
  - destruct (dev_fetch _ _) eqn:E; [|done]. injection H as <- <-. by apply vst_dev, dg_fetch.
  - case_decide as D; [|done]. destruct (dev_finish _ _ _) as [[d' e']|] eqn:E; [|done]. injection H as <- <-. by eapply vst_dev, dg_finish.
  - destruct (dev_raise _ _) as [[d' e']|] eqn:E; [|done]. injection H as <- <-. by apply vst_dev, dg_raise.
Qed.

Fixpoint drives (l : list action) (tr : list vevent) (s : vsys) : option (list vevent * vsys) :=
  match l with
  | [] => Some (tr, s)
  | a :: l' => match drive a s with Some (ev, s') => drives l' (tr ++ visible ev) s' | None => None end
  end.
Lemma drives_sound bufs dsk l : forall tr s tr' s', vruns bufs dsk tr s -> drives l tr s = Some (tr', s') -> vruns bufs dsk tr' s'.
Proof.
  induction l as [|a l IH]; intros tr s tr' s' H E; cbn [drives] in E; [by injection E as <- <-|]. destruct (drive a s) as [[ev s1]|] eqn:D; [|done].
  apply (IH (tr ++ visible ev) s1); [|done]. eapply vr_step; [done|]. by apply (drive_sound a).
Qed.

(** Block 9 is read into buffer 1 while buffer 0 is written to block 7; then block 7 is read.  The device serves the write
    after the handler has acknowledged the interrupt of the read and before it looks at the used ring, so the handler
    reports both and the next interrupt finds nothing to do. *)
Definition demo_data : block := <[0 := 42]> ∅.
Definition demo_init : vsys := VSys (vdisk0 ∅) (Device 0 [] ∅ false) ∅ None.
Definition demo_calls : list action :=
  [APoke 0 7 demo_data; APoke 1 9 ∅; ACall 1 false; AGo 1; AGo 1; AGo 1; AFetch; AFinish 0; ARaise; ACall 0 true; AGo 0; AGo 0; AFetch; AGo 0; AIntr; AIntr; AFinish 3].
Definition demo_returns : list action :=
  [AIntr; AIntr; AIntr; AIntr; ARaise; AIntr; AIntr; AIntr; AIntr; AGo 1; AGo 0; APoke 1 7 ∅; ACall 1 false; AGo 1; AGo 1; AGo 1; AFetch; AFinish 0; ARaise;
   AIntr; AIntr; AIntr; AIntr; AIntr; AGo 1].
Definition demo_trace : list vevent :=
  [EPoke 0 7 demo_data; EPoke 1 9 ∅; ECall 1 false; ECall 0 true; EReturn 1 ∅; EReturn 0 demo_data; EPoke 1 7 ∅; ECall 1 false; EReturn 1 demo_data].
Definition demo_state (l : list action) : vsys := match drives l [] demo_init with Some (_, s) => s | None => demo_init end.

Lemma demo_end : vruns ∅ ∅ demo_trace (demo_state (demo_calls ++ demo_returns)).
Proof. apply (drives_sound ∅ ∅ (demo_calls ++ demo_returns) [] demo_init); [apply vr_init|]. vm_compute. reflexivity. Qed.
Lemma demo_middle : vruns ∅ ∅ (take 4 demo_trace) (demo_state demo_calls).
Proof. apply (drives_sound ∅ ∅ demo_calls [] demo_init); [apply vr_init|]. vm_compute. reflexivity. Qed.
Lemma demo_bufs (b : nat) : 0 <= vb_blockno ((∅ : gmap nat vbuf) !!! b) < 2 ^ 31.
Proof. rewrite lookup_total_empty. done. Qed.

Lemma virtio_refines_witness : vs_thr (demo_state (demo_calls ++ demo_returns)) = ∅ /\
  exists a, aruns (aspec0 ∅ ∅) demo_trace a /\ agrees (demo_state (demo_calls ++ demo_returns)) a.
Proof. split; [vm_compute; reflexivity|]. exact (virtio_refines ∅ ∅ _ _ demo_bufs demo_end). Defined.

Lemma virtio_safe_witness : exists pc' l d, virtio_disk_intr_resume IWhile (Ctx [L_vdisk] []) (vs_disk (demo_state demo_calls)) = Ok pc' (Ctx (locks (intr_lock pc')) l) d.
Proof. apply (proj1 (proj2 (proj2 (virtio_safe ∅ ∅ _ _ demo_bufs demo_middle)))). vm_compute. reflexivity. Defined.

Lemma virtio_progress_witness : let s := demo_state demo_calls in
  (exists l s', call_goes s l s') \/ (exists s', intr_goes s s' /\ (vs_lock s = None -> v_used_idx (vs_disk s) <> v_dused_idx (vs_disk s))) \/ (exists s', dev_goes s s').
Proof.
  apply (virtio_progress ∅ ∅ _ _ demo_bufs demo_middle). intros H. apply (f_equal (fun m => bool_decide (m = ∅))) in H. vm_compute in H. discriminate H.
Defined.
