(* ===== verification/BioDisk.v ===== *)
(** The transfers of the buffer cache are those of the disk driver.

    [Bio] takes a call of virtio_disk_rw() as its completed effect: the process sleeps in the driver until the transfer is
    done and no step of another process falls in between.  [transfer_spec] and [transfer_only] say that this effect is the one outcome of
    such a call in the specification that [VirtioInv] proves the driver to refine. *)
From stdpp Require Import functions.
From S2P Require Import Prelude Machine Sleeplock BlockCache Bio Virtio VirtioInv.
Local Open Scope Z_scope.

(** The buffers and the disk of the cache, with no call in progress. *)
Definition bio_disk (s : bio) : aspec := ASpec (disk s) (fun i => (blockno (get_buf s i), data (get_buf s i))) (fun _ => None).

(** States of the specification with the same contents. *)
Record same_state (a b : aspec) : Prop := {
  ss_disk : a_disk a = a_disk b;
  ss_buf : forall i, a_buf a i = a_buf b i;
  ss_req : forall i, a_req a i = a_req b i;
}.

(** A state in which buffer [i] is in a call. *)
Definition in_call (i : nat) (r : areq) (a : aspec) : aspec := ASpec (a_disk a) (a_buf a) (fun j => if decide (j = i) then Some r else None).

Definition transferred (i : nat) (w : bool) (s : bio) : bio :=
  let b := get_buf s i in
  if w then Bio (bufs s) (<[blockno b := data b]> (disk s)) ((blockno b, data b) :: dwrites s) (me s)
  else put_bufs (upd i (set_data (default ∅ (disk s !! blockno b))) (bufs s)) s.
Lemma transfer_run i w c s : Bio.virtio_disk_rw i w c s = Ok tt c (transferred i w s).
Proof. done. Qed.

(** The transfer of the cache is a run of the specification: the call, the transfer, the return. *)
Lemma transfer_spec i w c s : exists s', Bio.virtio_disk_rw i w c s = Ok tt c s' /\
  aruns (bio_disk s) [ECall i w; EReturn i (data (get_buf s' i))] (bio_disk s').
Proof.
  exists (transferred i w s). split; [done|]. set (s' := transferred i w s). change [ECall i w; EReturn i (data (get_buf s' i))] with ([ECall i w] ++ visible (Some (EReturn i (snd (a_buf (in_call i Performed (bio_disk s')) i))))).
  assert (forall j, j <> i -> get_buf s' j = get_buf s j) as Hne by (intros j Hj; unfold s'; destruct w; [done|]; apply get_upd_ne; congruence).
  assert (blockno (get_buf s' i) = blockno (get_buf s i)) as Hbn by (unfold s'; destruct w; [done|]; cbn [transferred]; by rewrite get_upd).
  eapply ar_more.
  - change [ECall i w] with ([ECall i w] ++ visible None). eapply (ar_more _ _ (in_call i (Requested w) (bio_disk s))).
    + change [ECall i w] with ([] ++ visible (Some (ECall i w))). eapply ar_more; [apply ar_here|].
      apply as_call; cbn; [done|by rewrite decide_True|done|done|]. intros x Hx. by rewrite decide_False.
    + apply (as_perform _ (in_call i Performed (bio_disk s')) i w); cbn; [by rewrite decide_True|by rewrite decide_True|intros x Hx; by rewrite !decide_False|].
      destruct w; [done|]. split; [done|]. split; [|intros x Hx; by rewrite Hne]. rewrite Hbn. unfold s'. cbn [transferred]. by rewrite get_upd.
  - apply as_return; cbn; [by rewrite decide_True|done|done|done|]. intros x Hx. by rewrite decide_False.
Qed.

(** ... and the only one: a call by itself has no other outcome. *)
Section Only.
Context (i : nat) (w : bool) (s : bio).
Let s' := transferred i w s.

Lemma idle_silent b c r : (forall j, a_req r j = None) -> same_state b r -> astep b None c -> same_state c r.
Proof.
  intros Hr [Sd Sb Sr] H. inversion H as [| |a' j w' R| |a' D B R]; subst; [by rewrite Sr, Hr in R|]. split; congruence.
Qed.

Lemma idle_call b c r : (forall j, a_req r j = None) -> same_state b r -> astep b (Some (ECall i w)) c -> same_state c (in_call i (Requested w) r).
Proof.
  intros Hr [Sd Sb Sr] H. inversion H as [|a' j w' R R' D B O| | |]; subst. split; cbn; [congruence|congruence|]. intros j. case_decide; [by subst|]. by rewrite O, Sr.
Qed.

Lemma call_silent b c : same_state b (in_call i (Requested w) (bio_disk s)) -> astep b None c ->
  same_state c (in_call i (Requested w) (bio_disk s)) \/ same_state c (in_call i Performed (bio_disk s')).
Proof.
  intros [Sd Sb Sr] H. inversion H as [| |a' j w' R R' O T| |a' D B R]; subst; [right|left; split; congruence].
  pose proof (Sr j) as E. cbn in E. rewrite R in E. case_decide; [|done]. subst j. injection E as ->. pose proof (Sb i) as Ei. cbn in Ei. rewrite Ei, Sd in T. cbn [fst snd in_call a_disk bio_disk] in T.
  assert (a_disk c = disk s' /\ forall j, a_buf c j = a_buf (bio_disk s') j) as [Td Tb].
  { unfold s'. destruct w; cbn [transferred]; [destruct T as [-> T]; split; [done|]; intros j; by rewrite T, Sb|]. destruct T as (-> & Ti & To). split; [done|].
    intros j. destruct (decide (j = i)) as [->|Hj]; [rewrite Ti; cbn; by rewrite get_upd|]. rewrite To, Sb by done. cbn. by rewrite get_upd_ne by congruence. }
  split; [done|done|]. intros j. cbn. case_decide; [by subst|]. rewrite O, Sr by done. cbn. by rewrite decide_False.
Qed.

Lemma done_silent b c r : same_state b (in_call i Performed r) -> astep b None c -> same_state c (in_call i Performed r).
Proof.
  intros [Sd Sb Sr] H. inversion H as [| |a' j w' R| |a' D B R]; subst; [|split; congruence]. pose proof (Sr j) as E. cbn in E. rewrite R in E. by case_decide.
Qed.

Lemma call_return b c r q x : same_state b (in_call i q r) -> (forall j, a_req r j = None) -> astep b (Some (EReturn i x)) c ->
  q = Performed /\ same_state c r /\ x = snd (a_buf r i).
Proof.
  intros [Sd Sb Sr] Hr H. inversion H as [| | |a' j R R' D B O|]; subst. pose proof (Sr i) as E. cbn in E. rewrite R, decide_True in E by done. injection E as <-.
  split; [done|]. split; [|by rewrite Sb]. split; [by rewrite D|intros j; by rewrite B, Sb|]. intros j. rewrite Hr. destruct (decide (j = i)) as [->|]; [done|]. rewrite O, Sr by done. cbn. by rewrite decide_False.
Qed.

Lemma transfer_only x a : aruns (bio_disk s) [ECall i w; EReturn i x] a -> same_state a (bio_disk s') /\ x = data (get_buf s' i).
Proof.
  assert (forall tr a, aruns (bio_disk s) tr a -> (exists tr', [ECall i w; EReturn i x] = tr ++ tr') ->
    tr = [] /\ same_state a (bio_disk s) \/
    tr = [ECall i w] /\ (same_state a (in_call i (Requested w) (bio_disk s)) \/ same_state a (in_call i Performed (bio_disk s'))) \/
    tr = [ECall i w; EReturn i x] /\ same_state a (bio_disk s') /\ x = data (get_buf s' i)) as H.
  { induction 1 as [|tr b l c H IH Hs]; intros (tr' & E); [left; by split|]. rewrite <- app_assoc in E. specialize (IH (ex_intro _ _ E)).
    destruct IH as [[-> S]|[[-> S]|[-> [S X]]]]; destruct l as [ev|]; cbn in E; simplify_eq/=.
    - right. left. split; [done|]. left. by apply (idle_call b).
    - left. split; [done|]. by apply (idle_silent b).
    - right. right. split; [done|]. destruct S as [S|S]; destruct (call_return _ _ _ _ _ S ltac:(done) Hs) as (? & ? & ?); done.
    - right. left. split; [done|]. destruct S as [S|S]; [by apply (call_silent b)|]. right. by apply (done_silent b).
    - right. right. split; [done|]. split; [|done]. by apply (idle_silent b). }
  intros Hr. destruct (H _ _ Hr) as [[? _]|[[? _]|[_ ?]]]; [by exists []|done|done|done].
Qed.
End Only.
