(* ===== verification/Log.v ===== *)
(** The write-ahead log (kernel/log.c).

    The definitions follow log.c over any buffer cache that keeps the promises
    of [BlockCache].  The in-memory header is the count and the array of block
    numbers; the header block on disk holds the same, encoded as 32-bit
    integers.

    The theorems: commit() installs exactly the logged blocks; after a crash
    between any two writes to the disk, recovery yields either the state before
    the transaction or the state after it; recovery itself can crash and be
    repeated; begin_op() and log_write() keep the number of logged blocks within
    what the log was asked to reserve. *)
From stdpp Require Import functions.
From S2P Require Import Prelude Machine BlockCache.
Local Open Scope Z_scope.

(** struct log, with struct logheader lh. *)
Record log : Type := Log {
  start : Z;
  lsize : Z;
  outstanding : Z;
  committing : Z;
  ldev : Z;
  lh_n : Z;
  lh_block : gmap Z Z;
}.

Definition arr (a : gmap Z Z) (i : Z) : Z := default 0 (a !! i).

Record fsys (S : Type) : Type := Fsys { lg : log; cache : S }.
Arguments Fsys {S} lg cache.
Arguments lg {S} f.
Arguments cache {S} f.

(** ** Sequences of disk writes, oldest first *)

Definition apply_writes (ws : list (Z * block)) (d : gmap Z block) : gmap Z block :=
  foldl (fun d w => <[w.1 := w.2]> d) d ws.

Lemma apply_writes_app ws ws' d : apply_writes (ws ++ ws') d = apply_writes ws' (apply_writes ws d).
Proof. apply foldl_app. Qed.

Lemma apply_writes_cons y e ws d : apply_writes ((y, e) :: ws) d = apply_writes ws (<[y := e]> d).
Proof. done. Qed.

Lemma apply_writes_notin ws : forall d x, x ∉ ws.*1 -> on_disk (apply_writes ws d) x = on_disk d x.
Proof.
  induction ws as [|[y e] ws IH]; intros d x Hx; [done|]. apply not_elem_of_cons in Hx as [Hy Hx].
  rewrite apply_writes_cons, IH by done. unfold on_disk. cbn in Hy. by rewrite lookup_insert_ne.
Qed.

Lemma apply_writes_in ws : forall d x e, NoDup ws.*1 -> (x, e) ∈ ws -> on_disk (apply_writes ws d) x = e.
Proof.
  induction ws as [|[y e'] ws IH]; intros d x e Hn Hin; [by apply elem_of_nil in Hin|].
  rewrite apply_writes_cons. apply NoDup_cons in Hn as [Hy Hn].
  apply elem_of_cons in Hin as [[= -> ->]|Hin]; [|by apply IH].
  rewrite (apply_writes_notin ws) by done. unfold on_disk. by rewrite lookup_insert_eq.
Qed.

(** The abstract cache after blocks were written through. *)
Definition put_write (w : Z * block) (a : cstate) : cstate :=
  CState (<[w.1 := w.2]> (cs_view a)) (<[w.1 := w.2]> (cs_disk a)) (w :: cs_writes a) (cs_refs a).
Definition put_writes (ws : list (Z * block)) (a : cstate) : cstate := foldl (fun a w => put_write w a) a ws.

Lemma put_writes_app ws ws' a : put_writes (ws ++ ws') a = put_writes ws' (put_writes ws a).
Proof. apply foldl_app. Qed.

Lemma put_writes_cons w ws a : put_writes (w :: ws) a = put_writes ws (put_write w a).
Proof. done. Qed.

Lemma put_writes_disk ws : forall a, cs_disk (put_writes ws a) = apply_writes ws (cs_disk a).
Proof. induction ws as [|w ws IH]; intros a; [done|]. by rewrite put_writes_cons, IH. Qed.
Lemma put_writes_writes ws : forall a, cs_writes (put_writes ws a) = rev ws ++ cs_writes a.
Proof. induction ws as [|w ws IH]; intros a; [done|]. rewrite put_writes_cons, IH. cbn. by rewrite <- app_assoc. Qed.
Lemma put_writes_refs ws : forall a, cs_refs (put_writes ws a) = cs_refs a.
Proof. induction ws as [|w ws IH]; intros a; [done|]. by rewrite put_writes_cons, IH. Qed.
Lemma put_writes_with_refs ws R : forall a, with_refs R (put_writes ws a) = put_writes ws (with_refs R a).
Proof. induction ws as [|w ws IH]; intros a; [done|]. by rewrite put_writes_cons, IH. Qed.

Lemma put_writes_notin ws : forall a x, x ∉ ws.*1 -> cs_view (put_writes ws a) x = cs_view a x.
Proof.
  induction ws as [|[y e] ws IH]; intros a x Hx; [done|]. apply not_elem_of_cons in Hx as [Hy Hx]. cbn in Hy.
  rewrite put_writes_cons, IH by done. cbn. by rewrite fn_lookup_insert_ne.
Qed.

Lemma put_writes_in ws : forall a x e, NoDup ws.*1 -> (x, e) ∈ ws -> cs_view (put_writes ws a) x = e.
Proof.
  induction ws as [|[y e'] ws IH]; intros a x e Hn Hin; [by apply elem_of_nil in Hin|].
  rewrite put_writes_cons. apply NoDup_cons in Hn as [Hy Hn].
  apply elem_of_cons in Hin as [[= -> ->]|Hin]; [|by apply IH].
  rewrite (put_writes_notin ws) by done. cbn. by rewrite fn_lookup_insert.
Qed.

Lemma write_through bn d a : with_write bn (with_view (<[bn := d]> (cs_view a)) a) = put_write (bn, d) a.
Proof. unfold with_write, with_view, put_write. cbn. by rewrite fn_lookup_insert. Qed.

Section Log.
Context {K : Type} `{BC : BlockCache K}.

Definition cache_lens : lens (fsys K) K := Lens cache (fun k s => Fsys (lg s) k).
Definition onc {A} (m : M K A) : M (fsys K) A := zoom cache_lens m.
Definition getlog : M (fsys K) log := getsM lg.
Definition modlog (f : log -> log) : M (fsys K) unit := modifyM (fun s => Fsys (f (lg s)) (cache s)).
Definition dataM (i : nat) : M (fsys K) block := getsM (fun s => bc_data (cache s) i).

Definition set_outstanding v g := Log (start g) (lsize g) v (committing g) (ldev g) (lh_n g) (lh_block g).
Definition set_committing v g := Log (start g) (lsize g) (outstanding g) v (ldev g) (lh_n g) (lh_block g).
Definition set_n v g := Log (start g) (lsize g) (outstanding g) (committing g) (ldev g) v (lh_block g).
Definition set_block i v g :=
  Log (start g) (lsize g) (outstanding g) (committing g) (ldev g) (lh_n g) (<[i := v]> (lh_block g)).

(** One turn of the loop of install_trans. *)
Definition install_one (recovering : Z) (tail : Z) : M (fsys K) unit :=
  g <-! getlog ;;
  lbuf <-! onc (bc_bread (ldev g) (u32 (start g + tail + 1))) ;;
  dbuf <-! onc (bc_bread (ldev g) (u32 (arr (lh_block g) tail))) ;;
  d <-! dataM lbuf ;;
  onc (bc_set_data dbuf d) ;;!
  onc (bc_bwrite dbuf) ;;!
  (if recovering =? 0 then onc (bc_bunpin dbuf) else retM tt) ;;!
  onc (bc_brelse lbuf) ;;!
  onc (bc_brelse dbuf).

(** [k] turns are left; log.lh.n does not change in the loop. *)
Fixpoint tail_loop (body : Z -> M (fsys K) unit) (k : nat) (tail : Z) : M (fsys K) unit :=
  match k with
  | O => retM tt
  | S k' => body tail ;;! tail_loop body k' (tail + 1)
  end.

Definition install_trans (recovering : Z) : M (fsys K) unit :=
  g <-! getlog ;; tail_loop (install_one recovering) (Z.to_nat (lh_n g)) 0.

(** struct logheader in a block: n, then block[]. *)
Definition hdr_n (d : block) : Z := s32 (loadn 4 d 0).
Definition hdr_block (d : block) (i : Z) : Z := s32 (loadn 4 d (4 + 4 * i)).

Fixpoint get_blocks (k : nat) (i : Z) (d : block) (a : gmap Z Z) : gmap Z Z :=
  match k with
  | O => a
  | S k' => get_blocks k' (i + 1) d (<[i := hdr_block d i]> a)
  end.

Definition read_head : M (fsys K) unit :=
  g <-! getlog ;;
  buf <-! onc (bc_bread (ldev g) (u32 (start g))) ;;
  d <-! dataM buf ;;
  modlog (set_n (hdr_n d)) ;;!
  modlog (fun g => Log (start g) (lsize g) (outstanding g) (committing g) (ldev g) (lh_n g)
                       (get_blocks (Z.to_nat (lh_n g)) 0 d (lh_block g))) ;;!
  onc (bc_brelse buf).

Fixpoint put_blocks (k : nat) (i : Z) (a : gmap Z Z) (d : block) : block :=
  match k with
  | O => d
  | S k' => put_blocks k' (i + 1) a (storen 4 d (4 + 4 * i) (arr a i))
  end.

Definition write_head : M (fsys K) unit :=
  g <-! getlog ;;
  buf <-! onc (bc_bread (ldev g) (u32 (start g))) ;;
  d <-! dataM buf ;;
  onc (bc_set_data buf (put_blocks (Z.to_nat (lh_n g)) 0 (lh_block g) (storen 4 d 0 (lh_n g)))) ;;!
  onc (bc_bwrite buf) ;;!
  onc (bc_brelse buf).

Definition recover_from_log : M (fsys K) unit :=
  read_head ;;!
  install_trans 1 ;;!
  modlog (set_n 0) ;;!
  write_head.

(** sizeof(struct logheader) is 4 + 4 * LOGSIZE. *)
Definition initlog (dev logstart nlog : Z) : M (fsys K) unit :=
  if BSIZE <=? 4 + 4 * LOGSIZE then panic "initlog: too big logheader"
  else
    modlog (fun g => Log logstart nlog (outstanding g) (committing g) dev (lh_n g) (lh_block g)) ;;!
    recover_from_log.

Definition begin_op : M (fsys K) unit :=
  acquire L_log ;;!
  g <-! getlog ;;
  if negb (committing g =? 0) then sleep Ch_log L_log
  else if LOGSIZE <? lh_n g + (outstanding g + 1) * MAXOPBLOCKS then sleep Ch_log L_log
  else
    modlog (fun g => set_outstanding (outstanding g + 1) g) ;;!
    release L_log.

(** One turn of the loop of write_log. *)
Definition write_log_one (tail : Z) : M (fsys K) unit :=
  g <-! getlog ;;
  to <-! onc (bc_bread (ldev g) (u32 (start g + tail + 1))) ;;
  from <-! onc (bc_bread (ldev g) (u32 (arr (lh_block g) tail))) ;;
  d <-! dataM from ;;
  onc (bc_set_data to d) ;;!
  onc (bc_bwrite to) ;;!
  onc (bc_brelse from) ;;!
  onc (bc_brelse to).

Definition write_log : M (fsys K) unit :=
  g <-! getlog ;; tail_loop write_log_one (Z.to_nat (lh_n g)) 0.

Definition commit : M (fsys K) unit :=
  g <-! getlog ;;
  if 0 <? lh_n g then
    write_log ;;!
    write_head ;;!
    install_trans 0 ;;!
    modlog (set_n 0) ;;!
    write_head
  else retM tt.

Definition end_op : M (fsys K) unit :=
  acquire L_log ;;!
  modlog (fun g => set_outstanding (outstanding g - 1) g) ;;!
  g <-! getlog ;;
  if negb (committing g =? 0) then panic "log.committing"
  else
    (if outstanding g =? 0 then modlog (set_committing 1) else wakeup_ev Ch_log) ;;!
    release L_log ;;!
    (if outstanding g =? 0 then
       commit ;;!
       acquire L_log ;;!
       modlog (set_committing 0) ;;!
       wakeup_ev Ch_log ;;!
       release L_log
     else retM tt).

(** The index at which log_write's loop stops. *)
Fixpoint absorb (k : nat) (i : Z) (a : gmap Z Z) (bn : Z) : Z :=
  match k with
  | O => i
  | S k' => if u32 (arr a i) =? bn then i else absorb k' (i + 1) a bn
  end.

Definition log_write (b : nat) : M (fsys K) unit :=
  acquire L_log ;;!
  g <-! getlog ;;
  if (LOGSIZE <=? lh_n g) || (lsize g - 1 <=? lh_n g) then panic "too big a transaction"
  else if outstanding g <? 1 then panic "log_write outside of trans"
  else
    bn <-! getsM (fun s => bc_blockno (cache s) b) ;;
    let i := absorb (Z.to_nat (lh_n g)) 0 (lh_block g) bn in
    modlog (set_block i (s32 bn)) ;;!
    (if i =? lh_n g then
       onc (bc_bpin b) ;;!
       modlog (fun g => set_n (lh_n g + 1) g)
     else retM tt) ;;!
    release L_log.

(** ** Running cache operations inside the log's state *)

Lemma bind_onc {A B} (m : M K A) (f : A -> M (fsys K) B) c g k a c' k' :
  m c k = Ok a c' k' -> bindM (onc m) f c (Fsys g k) = f a c' (Fsys g k').
Proof. intros H. unfold bindM, onc, zoom. cbn [lget lput cache_lens cache lg]. by rewrite H. Qed.

Lemma onc_Ok {A} (m : M K A) c g k a c' k' :
  m c k = Ok a c' k' -> onc m c (Fsys g k) = Ok a c' (Fsys g k').
Proof. intros H. unfold onc, zoom. cbn [lget lput cache_lens cache lg]. by rewrite H. Qed.

Lemma bind_getlog {B} (f : log -> M (fsys K) B) c s : bindM getlog f c s = f (lg s) c s.
Proof. done. Qed.
Lemma bind_data {B} i (f : block -> M (fsys K) B) c s : bindM (dataM i) f c s = f (bc_data (cache s) i) c s.
Proof. done. Qed.
Lemma bind_modlog {B} h (f : unit -> M (fsys K) B) c s :
  bindM (modlog h) f c s = f tt c (Fsys (h (lg s)) (cache s)).
Proof. done. Qed.

Lemma cache_free_held c c' : held c' = held c -> cache_free c -> cache_free c'.
Proof. unfold cache_free. by intros ->. Qed.

(** ** The log and the blocks in it *)

(** Where the log is, and that the blocks of the current transaction are [bl]. *)
Record log_ok (g : log) (bl : list Z) : Prop := {
  lo_dev : ldev g = ROOTDEV;
  lo_start : 0 <= start g;
  lo_end : start g + lsize g <= 2 ^ 31;
  lo_n : lh_n g = Z.of_nat (length bl);
  lo_fits : lh_n g <= lsize g - 1;
  lo_cap : lh_n g <= LOGSIZE;
  lo_arr : forall t bn, bl !! t = Some bn -> arr (lh_block g) (Z.of_nat t) = bn;
  lo_nodup : NoDup bl;
  lo_range : forall bn, bn ∈ bl -> 0 <= bn < 2 ^ 31 /\ ~ (start g <= bn < start g + lsize g);
}.

(** Each block of the transaction is pinned once, and nothing else is referenced. *)
Record pinned (R : gmap Z bref) (bl : list Z) : Prop := {
  pn_in : forall bn, bn ∈ bl -> exists i, R !! bn = Some (Ref i 1 false);
  pn_only : forall bn r, R !! bn = Some r -> bn ∈ bl;
}.

Lemma pinned_size R bl : NoDup bl -> pinned R bl -> size R = length bl.
Proof.
  intros Hn [H1 H2]. rewrite <- size_dom.
  rewrite <- (size_list_to_set (C := gset Z) bl Hn). apply set_size_proper.
  intros bn. rewrite elem_of_dom, elem_of_list_to_set. split.
  - intros [r Hr]. by apply (H2 bn r).
  - intros Hb. destruct (H1 bn Hb) as [i ->]. done.
Qed.

Lemma rep_eq k a a' : bc_rep k a -> a = a' -> bc_rep k a'.
Proof. by intros ? <-. Qed.

(** ** write_log *)

Definition log_slot (g : log) (t : nat) : Z := start g + Z.of_nat t + 1.

Definition log_step (g : log) (t : nat) (bn : Z) (a : cstate) : cstate :=
  let lb := log_slot g t in with_write lb (with_view (<[lb := cs_view a bn]> (cs_view a)) a).

Lemma log_slot_facts g bl t bn : log_ok g bl -> bl !! t = Some bn ->
  0 <= log_slot g t < 2 ^ 31 /\ start g < log_slot g t < start g + lsize g /\ (log_slot g t ∉ bl) /\
  u32 (log_slot g t) = log_slot g t /\ u32 bn = bn.
Proof.
  intros G Ht. pose proof (lo_start g bl G). pose proof (lo_end g bl G). pose proof (lo_n g bl G).
  pose proof (lo_fits g bl G). apply lookup_lt_Some in Ht as Hl.
  destruct (lo_range g bl G bn) as [Hb _]; [by eapply list_elem_of_lookup_2|].
  unfold log_slot. split; [lia|]. split; [lia|]. split.
  - intros Hin. destruct (lo_range g bl G _ Hin) as [_ H']. lia.
  - split; apply u32_small; lia.
Qed.

Lemma write_log_one_run c g k a bl t bn : log_ok g bl -> bc_rep k a -> cache_free c ->
  bl !! t = Some bn -> pinned (cs_refs a) bl -> (length bl < bc_nbuf)%nat ->
  exists c' k', write_log_one (Z.of_nat t) c (Fsys g k) = Ok tt c' (Fsys g k') /\ held c' = held c /\
    bc_rep k' (log_step g t bn a).
Proof.
  intros G Hrep Hc Ht Hp Hnb. unfold write_log_one. rewrite bind_getlog. cbn [lg].
  rewrite (lo_dev g bl G), (lo_arr g bl G t bn Ht).
  destruct (log_slot_facts g bl t bn G Ht) as (_ & _ & Hlb & Eu & Eb). fold (log_slot g t). rewrite Eu, Eb.
  set (lb := log_slot g t) in *. apply list_elem_of_lookup_2 in Ht as Hin.
  destruct (pn_in _ _ Hp bn Hin) as [j Hj].
  assert (cs_refs a !! lb = None) as Hno.
  { destruct (cs_refs a !! lb) as [r|] eqn:E; [|done]. by apply (pn_only _ _ Hp) in E. }
  assert (bn <> lb) as Hne by (intros ->; done).
  destruct (bc_bread_miss c k a lb Hrep Hc Hno) as (i & k1 & Hr1 & Hrep1).
  { by rewrite (pinned_size _ bl (lo_nodup g bl G) Hp). }
  rewrite (bind_onc _ _ _ _ _ _ _ _ Hr1).
  destruct (bc_bread_hit c k1 _ bn j 1 Hrep1 Hc) as (k2 & Hr2 & Hrep2); [by cbn; simplify_map_eq|lia|].
  rewrite (bind_onc _ _ _ _ _ _ _ _ Hr2). rewrite bind_data. cbn [cache].
  destruct (bc_read k2 _ bn j 2 true Hrep2) as [-> _]; [by cbn; simplify_map_eq|].
  destruct (bc_set_data_ok c k2 _ lb i 1 (cs_view a bn) Hrep2) as (k3 & Hr3 & Hrep3); [by cbn; simplify_map_eq|].
  cbn [cs_view with_refs] in *. rewrite (bind_onc _ _ _ _ _ _ _ _ Hr3).
  destruct (bc_bwrite_ok c k3 _ lb i 1 Hrep3 Hc) as (k4 & Hr4 & Hrep4); [by cbn; simplify_map_eq|].
  rewrite (bind_onc _ _ _ _ _ _ _ _ Hr4).
  destruct (bc_brelse_ok c k4 _ bn j 2 Hrep4 Hc) as (c5 & k5 & Hr5 & Hh5 & Hrep5); [by cbn; simplify_map_eq|done|].
  rewrite (bind_onc _ _ _ _ _ _ _ _ Hr5).
  destruct (bc_brelse_ok c5 k5 _ lb i 1 Hrep5) as (c6 & k6 & Hr6 & Hh6 & Hrep6).
  { by apply (cache_free_held c). }
  { by cbn; simplify_map_eq. }
  { intros _. cbn. unfold on_disk. by rewrite lookup_insert_eq, fn_lookup_insert. }
  rewrite (onc_Ok _ _ _ _ _ _ _ Hr6). exists c6, k6. split; [done|]. split; [congruence|].
  apply (rep_eq k6 _ _ Hrep6). clear - Hj Hno Hne. destruct a as [v d w R]. cbn in *.
  unfold log_step, with_refs, with_write, with_view. cbn. fold lb. match goal with |- CState _ _ _ ?R' = _ => assert (R' = R) as -> end; [|done].
  apply map_eq. intros x. destruct (decide (x = lb)) as [->|]; [by simplify_map_eq|].
  destruct (decide (x = bn)) as [->|]; by simplify_map_eq.
Qed.

Fixpoint log_steps (g : log) (t : nat) (bl : list Z) (a : cstate) : cstate :=
  match bl with
  | [] => a
  | bn :: bl' => log_steps g (S t) bl' (log_step g t bn a)
  end.

Lemma write_log_loop g bl : log_ok g bl -> (length bl < bc_nbuf)%nat -> forall suf t c k a,
  (forall u bn, suf !! u = Some bn -> bl !! (t + u)%nat = Some bn) ->
  bc_rep k a -> cache_free c -> pinned (cs_refs a) bl ->
  exists c' k', tail_loop write_log_one (length suf) (Z.of_nat t) c (Fsys g k) = Ok tt c' (Fsys g k') /\
    held c' = held c /\ bc_rep k' (log_steps g t suf a).
Proof.
  intros G Hnb. induction suf as [|bn suf IH]; intros t c k a Hs Hrep Hc Hp; cbn [tail_loop length log_steps].
  { by exists c, k. }
  pose proof (Hs 0%nat bn eq_refl) as Ht. rewrite Nat.add_0_r in Ht.
  destruct (write_log_one_run c g k a bl t bn G Hrep Hc Ht Hp Hnb) as (c1 & k1 & Hr1 & Hh1 & Hrep1).
  rewrite (bind_Ok _ _ _ _ _ _ _ Hr1). replace (Z.of_nat t + 1) with (Z.of_nat (S t)) by lia.
  destruct (IH (S t) c1 k1 (log_step g t bn a)) as (c2 & k2 & Hr2 & Hh2 & Hrep2); [|done| |done|].
  - intros u b Hu. rewrite <- (Hs (S u) b Hu). f_equal. lia.
  - by apply (cache_free_held c).
  - exists c2, k2. split; [done|]. split; [congruence|done].
Qed.

(** ** install_trans *)

Definition inst_step (g : log) (t : nat) (bn : Z) (a : cstate) : cstate :=
  with_write bn (with_view (<[bn := cs_view a (log_slot g t)]> (cs_view a)) a).

(** One turn on a pinned block: it is written and unpinned. *)
Lemma install_one_run c g k a bl rest t bn : log_ok g bl -> bc_rep k a -> cache_free c ->
  bl !! t = Some bn -> NoDup rest -> bn ∈ rest -> (forall x, x ∈ rest -> x ∈ bl) ->
  pinned (cs_refs a) rest -> (length rest < bc_nbuf)%nat ->
  exists c' k', install_one 0 (Z.of_nat t) c (Fsys g k) = Ok tt c' (Fsys g k') /\ held c' = held c /\
    bc_rep k' (with_refs (delete bn (cs_refs a)) (inst_step g t bn a)).
Proof.
  intros G Hrep Hc Ht Hnd Hin Hsub Hp Hnb. unfold install_one. rewrite bind_getlog. cbn [lg].
  rewrite (lo_dev g bl G), (lo_arr g bl G t bn Ht).
  destruct (log_slot_facts g bl t bn G Ht) as (_ & _ & Hlb & Eu & Eb). fold (log_slot g t). rewrite Eu, Eb.
  set (lb := log_slot g t) in *.
  destruct (pn_in _ _ Hp bn Hin) as [j Hj].
  assert (cs_refs a !! lb = None) as Hno.
  { destruct (cs_refs a !! lb) as [r|] eqn:E; [|done]. by apply (pn_only _ _ Hp), Hsub in E. }
  assert (bn <> lb) as Hne by (intros ->; by apply Hlb, Hsub).
  pose proof (bc_clean k a lb Hrep Hno) as Hclean.
  destruct (bc_bread_miss c k a lb Hrep Hc Hno) as (i & k1 & Hr1 & Hrep1).
  { by rewrite (pinned_size _ rest Hnd Hp). }
  rewrite (bind_onc _ _ _ _ _ _ _ _ Hr1).
  destruct (bc_bread_hit c k1 _ bn j 1 Hrep1 Hc) as (k2 & Hr2 & Hrep2); [by cbn; simplify_map_eq|lia|].
  rewrite (bind_onc _ _ _ _ _ _ _ _ Hr2). rewrite bind_data. cbn [cache].
  destruct (bc_read k2 _ lb i 1 true Hrep2) as [-> _]; [by cbn; simplify_map_eq|].
  destruct (bc_set_data_ok c k2 _ bn j 2 (cs_view a lb) Hrep2) as (k3 & Hr3 & Hrep3); [by cbn; simplify_map_eq|].
  cbn [cs_view with_refs] in *. rewrite (bind_onc _ _ _ _ _ _ _ _ Hr3).
  destruct (bc_bwrite_ok c k3 _ bn j 2 Hrep3 Hc) as (k4 & Hr4 & Hrep4); [by cbn; simplify_map_eq|].
  rewrite (bind_onc _ _ _ _ _ _ _ _ Hr4). cbn [Z.eqb].
  destruct (bc_bunpin_ok c k4 _ bn j 2 true Hrep4 (proj1 Hc)) as (k5 & Hr5 & Hrep5); [by cbn; simplify_map_eq|lia|].
  rewrite (bind_onc _ _ _ _ _ _ _ _ Hr5).
  destruct (bc_brelse_ok c k5 _ lb i 1 Hrep5 Hc) as (c6 & k6 & Hr6 & Hh6 & Hrep6); [by cbn; simplify_map_eq| |].
  { intros _. cbn. unfold on_disk in *. rewrite lookup_insert_ne, fn_lookup_insert_ne by done. done. }
  rewrite (bind_onc _ _ _ _ _ _ _ _ Hr6).
  destruct (bc_brelse_ok c6 k6 _ bn j 1 Hrep6) as (c7 & k7 & Hr7 & Hh7 & Hrep7).
  { by apply (cache_free_held c). }
  { by cbn; simplify_map_eq. }
  { intros _. cbn. unfold on_disk. by rewrite lookup_insert_eq, fn_lookup_insert. }
  rewrite (onc_Ok _ _ _ _ _ _ _ Hr7). exists c7, k7. split; [done|]. split; [congruence|].
  apply (rep_eq k7 _ _ Hrep7). clear - Hj Hno Hne. destruct a as [v d w R]. cbn in *.
  unfold inst_step, with_refs, with_write, with_view. cbn. fold lb.
  match goal with |- CState _ _ _ ?R' = _ => assert (R' = delete bn R) as -> end; [|done].
  apply map_eq. intros x. destruct (decide (x = lb)) as [->|]; [by simplify_map_eq|].
  destruct (decide (x = bn)) as [->|]; by simplify_map_eq.
Qed.

Fixpoint inst_steps (g : log) (t : nat) (bl : list Z) (a : cstate) : cstate :=
  match bl with
  | [] => a
  | bn :: bl' => inst_steps g (S t) bl' (inst_step g t bn a)
  end.

Lemma inst_steps_refs g bl : forall t a R,
  with_refs R (inst_steps g t bl a) = inst_steps g t bl (with_refs R a).
Proof. induction bl as [|bn bl IH]; intros t a R; cbn [inst_steps]; [done|]. by rewrite IH. Qed.

Lemma cs_refs_inst_steps g bl : forall t a, cs_refs (inst_steps g t bl a) = cs_refs a.
Proof. induction bl as [|bn bl IH]; intros t a; cbn [inst_steps]; [done|]. by rewrite IH. Qed.
Lemma cs_refs_log_steps g bl : forall t a, cs_refs (log_steps g t bl a) = cs_refs a.
Proof. induction bl as [|bn bl IH]; intros t a; cbn [log_steps]; [done|]. by rewrite IH. Qed.

Lemma pinned_tail R bn bl : NoDup (bn :: bl) -> pinned R (bn :: bl) -> pinned (delete bn R) bl.
Proof.
  intros [Hn _]%NoDup_cons [H1 H2]. split.
  - intros x Hx. destruct (H1 x) as [i Hi]; [set_solver|]. exists i. rewrite lookup_delete_ne; [done|].
    intros ->. done.
  - intros x r [Hne Hx]%lookup_delete_Some. apply H2 in Hx. set_solver.
Qed.

Lemma pinned_nil R : pinned R [] -> R = ∅.
Proof.
  intros [_ H]. apply map_empty. intros x. destruct (R !! x) as [r|] eqn:E; [|done].
  apply H, elem_of_nil in E. done.
Qed.

Lemma install_loop g bl : log_ok g bl -> forall suf t c k a,
  (forall u bn, suf !! u = Some bn -> bl !! (t + u)%nat = Some bn) ->
  bc_rep k a -> cache_free c -> NoDup suf -> pinned (cs_refs a) suf -> (length suf < bc_nbuf)%nat ->
  exists c' k', tail_loop (install_one 0) (length suf) (Z.of_nat t) c (Fsys g k) = Ok tt c' (Fsys g k') /\
    held c' = held c /\ bc_rep k' (with_refs ∅ (inst_steps g t suf a)).
Proof.
  intros G. induction suf as [|bn suf IH]; intros t c k a Hs Hrep Hc Hnd Hp Hnb; cbn [tail_loop length inst_steps].
  { exists c, k. split; [done|]. split; [done|]. apply (rep_eq k a); [done|]. destruct a. cbn in *.
    by rewrite (pinned_nil _ Hp). }
  pose proof (Hs 0%nat bn eq_refl) as Ht. rewrite Nat.add_0_r in Ht.
  destruct (install_one_run c g k a bl (bn :: suf) t bn) as (c1 & k1 & Hr1 & Hh1 & Hrep1); try done; [set_solver| |].
  { intros x [u Hu]%list_elem_of_lookup_1. apply Hs in Hu. by apply list_elem_of_lookup_2 in Hu. }
  rewrite (bind_Ok _ _ _ _ _ _ _ Hr1). replace (Z.of_nat t + 1) with (Z.of_nat (S t)) by lia.
  pose proof (pinned_tail _ _ _ Hnd Hp) as Hp'. apply NoDup_cons in Hnd as [Hbn Hnd].
  destruct (IH (S t) c1 k1 (with_refs (delete bn (cs_refs a)) (inst_step g t bn a)))
    as (c2 & k2 & Hr2 & Hh2 & Hrep2); try done.
  - intros u b Hu. rewrite <- (Hs (S u) b Hu). f_equal. lia.
  - by apply (cache_free_held c).
  - cbn in Hnb. lia.
  - exists c2, k2. split; [done|]. split; [congruence|].
    rewrite inst_steps_refs in *. exact Hrep2.
Qed.

(** ** The writes of a commit *)

Fixpoint log_writes (g : log) (t : nat) (bl : list Z) (v : Z -> block) : list (Z * block) :=
  match bl with
  | [] => []
  | bn :: bl' => (log_slot g t, v bn) :: log_writes g (S t) bl' v
  end.
Definition home_writes (bl : list Z) (v : Z -> block) : list (Z * block) := map (fun bn => (bn, v bn)) bl.
Definition new_header (g : log) (d : block) : block :=
  put_blocks (Z.to_nat (lh_n g)) 0 (lh_block g) (storen 4 d 0 (lh_n g)).

Definition commit_writes (g : log) (bl : list Z) (v : Z -> block) : list (Z * block) :=
  let h := new_header g (v (start g)) in
  if decide (bl = []) then [] else
  log_writes g 0 bl v ++ [(start g, h)] ++ home_writes bl v ++ [(start g, new_header (set_n 0 g) h)].

Lemma elem_of_log_writes g v : forall bl t x e, (x, e) ∈ log_writes g t bl v <->
  exists i bn, bl !! i = Some bn /\ x = log_slot g (t + i) /\ e = v bn.
Proof.
  induction bl as [|bn bl IH]; intros t x e; cbn [log_writes].
  - rewrite elem_of_nil. split; [done|]. by intros (i & bn & ? & _).
  - rewrite elem_of_cons, IH. split.
    + intros [[= -> ->]|(i & b & Hi & -> & ->)].
      * exists 0%nat, bn. by rewrite Nat.add_0_r.
      * exists (S i), b. split_and!; [done|f_equal; lia|done].
    + intros ([|i] & b & Hi & -> & ->); cbn in Hi.
      * left. injection Hi as ->. by rewrite Nat.add_0_r.
      * right. exists i, b. split_and!; [done|f_equal; lia|done].
Qed.

Lemma elem_of_log_writes_fst g v bl t x : x ∈ (log_writes g t bl v).*1 ->
  exists i, (i < length bl)%nat /\ x = log_slot g (t + i).
Proof.
  intros ([y e] & -> & H)%list_elem_of_fmap. apply elem_of_log_writes in H as (i & bn & Hi & -> & _).
  exists i. split; [by apply lookup_lt_Some in Hi|done].
Qed.

Lemma NoDup_log_writes g v : forall bl t, NoDup (log_writes g t bl v).*1.
Proof.
  induction bl as [|bn bl IH]; intros t; cbn; constructor; [|apply IH].
  intros (i & _ & E)%elem_of_log_writes_fst. unfold log_slot in E. lia.
Qed.

Lemma fst_home_writes bl v : (home_writes bl v).*1 = bl.
Proof. unfold home_writes. rewrite <- list_fmap_compose. apply list_fmap_id. Qed.

Lemma log_steps_writes g : forall bl t a, (forall i, (i < t + length bl)%nat -> log_slot g i ∉ bl) ->
  log_steps g t bl a = put_writes (log_writes g t bl (cs_view a)) a.
Proof.
  intros bl. induction bl as [|bn bl IH]; intros t a Hs; cbn [log_steps log_writes]; [done|].
  unfold log_step. rewrite write_through, IH by (intros i Hi Hin; apply (Hs i); [cbn; lia|set_solver]).
  unfold put_writes. cbn [foldl]. f_equal. clear IH.
  assert (forall t', log_writes g t' bl (cs_view (put_write (log_slot g t, cs_view a bn) a)) =
    log_writes g t' bl (cs_view a)) as E; [|by apply E].
  cbn [cs_view put_write fst snd].
  assert (forall x, x ∈ bl -> (<[log_slot g t:=cs_view a bn]> (cs_view a)) x = cs_view a x) as Hx.
  { intros x Hx. rewrite fn_lookup_insert_ne; [done|]. intros <-. apply (Hs t); [cbn; lia|set_solver]. }
  clear Hs. induction bl as [|b bl IH]; intros t'; cbn [log_writes]; [done|].
  rewrite Hx by set_solver. f_equal. apply IH. intros x Hin. apply Hx. set_solver.
Qed.

Lemma inst_steps_writes g v : forall bl t a, (forall i, (i < t + length bl)%nat -> log_slot g i ∉ bl) ->
  (forall i bn, bl !! i = Some bn -> cs_view a (log_slot g (t + i)) = v bn) ->
  inst_steps g t bl a = put_writes (home_writes bl v) a.
Proof.
  intros bl. induction bl as [|bn bl IH]; intros t a Hs Hv; cbn [inst_steps home_writes map]; [done|].
  unfold inst_step. rewrite write_through.
  pose proof (Hv 0%nat bn eq_refl) as E. rewrite Nat.add_0_r in E. rewrite E.
  rewrite IH; [done|intros i Hi Hin; apply (Hs i); [cbn; lia|set_solver]|].
  intros i b Hi. cbn [cs_view put_write fst snd]. rewrite fn_lookup_insert_ne.
  - rewrite <- (Hv (S i) b Hi). f_equal. f_equal. lia.
  - intros ->. apply lookup_lt_Some in Hi. apply (Hs (S t + i)%nat); [cbn; lia|apply elem_of_cons; by left].
Qed.

(** ** write_head *)

Lemma write_head_run c g k a : ldev g = ROOTDEV -> 0 <= start g < 2 ^ 31 -> bc_rep k a -> cache_free c ->
  cs_refs a !! start g = None -> (size (cs_refs a) < bc_nbuf)%nat ->
  exists c' k', write_head c (Fsys g k) = Ok tt c' (Fsys g k') /\ held c' = held c /\
    bc_rep k' (put_write (start g, new_header g (cs_view a (start g))) a).
Proof.
  intros Hd Hs Hrep Hc Hno Hsz. unfold write_head. rewrite bind_getlog. cbn [lg]. rewrite Hd.
  rewrite u32_small by lia.
  destruct (bc_bread_miss c k a _ Hrep Hc Hno Hsz) as (i & k1 & Hr1 & Hrep1).
  rewrite (bind_onc _ _ _ _ _ _ _ _ Hr1), bind_data. cbn [cache].
  destruct (bc_read k1 _ (start g) i 1 true Hrep1) as [-> _]; [by cbn; simplify_map_eq|].
  cbn [cs_view with_refs]. fold (new_header g (cs_view a (start g))).
  destruct (bc_set_data_ok c k1 _ (start g) i 1 (new_header g (cs_view a (start g))) Hrep1)
    as (k2 & Hr2 & Hrep2); [by cbn; simplify_map_eq|].
  rewrite (bind_onc _ _ _ _ _ _ _ _ Hr2).
  destruct (bc_bwrite_ok c k2 _ (start g) i 1 Hrep2 Hc) as (k3 & Hr3 & Hrep3); [by cbn; simplify_map_eq|].
  rewrite (bind_onc _ _ _ _ _ _ _ _ Hr3).
  destruct (bc_brelse_ok c k3 _ (start g) i 1 Hrep3 Hc) as (c4 & k4 & Hr4 & Hh4 & Hrep4); [by cbn; simplify_map_eq| |].
  { intros _. cbn. unfold on_disk. by rewrite lookup_insert_eq, fn_lookup_insert. }
  rewrite (onc_Ok _ _ _ _ _ _ _ Hr4). exists c4, k4. split; [done|]. split; [done|].
  apply (rep_eq k4 _ _ Hrep4). clear - Hno. destruct a as [v d w R]. cbn in *.
  unfold put_write, with_refs, with_write, with_view. cbn. rewrite fn_lookup_insert. f_equal.
  by rewrite delete_insert_id.
Qed.

Lemma pinned_start g bl R : log_ok g bl -> pinned R bl -> 0 < lsize g -> R !! start g = None.
Proof.
  intros G Hp Hs. destruct (R !! start g) as [r|] eqn:E; [|done]. apply (pn_only _ _ Hp) in E.
  destruct (lo_range g bl G _ E) as [_ H]. lia.
Qed.

Lemma slots_apart g bl : log_ok g bl -> forall i, (i < length bl)%nat -> log_slot g i ∉ bl.
Proof.
  intros G i Hi. destruct (lookup_lt_is_Some_2 bl i Hi) as [bn Hbn].
  by destruct (log_slot_facts g bl i bn G Hbn) as (_ & _ & ? & _).
Qed.

(** ** commit() *)

Lemma commit_run c g k a bl : log_ok g bl -> bc_rep k a -> cache_free c -> pinned (cs_refs a) bl ->
  (length bl < bc_nbuf)%nat ->
  exists c' k', commit c (Fsys g k) = Ok tt c' (Fsys (set_n 0 g) k') /\ held c' = held c /\
    bc_rep k' (with_refs ∅ (put_writes (commit_writes g bl (cs_view a)) a)).
Proof.
  intros G Hrep Hc Hp Hnb. unfold commit, commit_writes. rewrite bind_getlog. cbn [lg].
  pose proof (lo_n g bl G) as Hn. case_decide as E.
  { subst bl. cbn in Hn. destruct (Z.ltb_spec 0 (lh_n g)); [lia|]. exists c, k. split_and!; [|done|].
    - destruct g. cbn in *. by subst.
    - apply (rep_eq k a); [done|]. apply pinned_nil in Hp. destruct a. cbn in *. by subst. }
  assert (0 < length bl)%nat as Hpos by (destruct bl; [done|cbn; lia]).
  destruct (Z.ltb_spec 0 (lh_n g)); [|lia].
  pose proof (lo_start g bl G). pose proof (lo_end g bl G). pose proof (lo_fits g bl G).
  (* write_log *)
  unfold write_log at 1. rewrite bind_assoc, bind_getlog. cbn [lg]. rewrite Hn, Nat2Z.id.
  destruct (write_log_loop g bl G Hnb bl 0 c k a) as (c1 & k1 & Hr1 & Hh1 & Hrep1); try done.
  rewrite (bind_Ok _ _ _ _ _ _ _ Hr1).
  rewrite log_steps_writes in Hrep1 by (by apply slots_apart).
  set (a1 := put_writes (log_writes g 0 bl (cs_view a)) a) in *.
  assert (cs_refs a1 = cs_refs a) as ER1 by apply put_writes_refs.
  assert (cs_view a1 (start g) = cs_view a (start g)) as EV1.
  { apply put_writes_notin. intros (i & _ & E')%elem_of_log_writes_fst. unfold log_slot in E'. lia. }
  (* the header *)
  destruct (write_head_run c1 g k1 a1) as (c2 & k2 & Hr2 & Hh2 & Hrep2); try done; try lia.
  { apply G. }
  { by apply (cache_free_held c). }
  { rewrite ER1. apply (pinned_start g bl); done || lia. }
  { by rewrite ER1, (pinned_size _ bl (lo_nodup g bl G) Hp). }
  rewrite (bind_Ok _ _ _ _ _ _ _ Hr2). rewrite EV1 in Hrep2.
  set (a2 := put_write _ a1) in *.
  (* install_trans *)
  unfold install_trans at 1. rewrite bind_assoc, bind_getlog. cbn [lg]. rewrite Hn, Nat2Z.id.
  destruct (install_loop g bl G bl 0 c2 k2 a2) as (c3 & k3 & Hr3 & Hh3 & Hrep3); try done.
  { apply (cache_free_held c); [congruence|done]. }
  { apply G. }
  { unfold a2. cbn. by rewrite ER1. }
  rewrite (bind_Ok _ _ _ _ _ _ _ Hr3), bind_modlog. cbn [lg cache].
  rewrite (inst_steps_writes g (cs_view a)) in Hrep3.
  2:{ by apply slots_apart. }
  2:{ intros i bn Hi. unfold a2. cbn [put_write cs_view fst snd]. rewrite fn_lookup_insert_ne by (unfold log_slot; lia).
      apply put_writes_in; [apply NoDup_log_writes|]. apply elem_of_log_writes. by exists i, bn. }
  set (a3 := with_refs ∅ _) in *.
  (* clearing the header *)
  destruct (write_head_run c3 (set_n 0 g) k3 a3) as (c4 & k4 & Hr4 & Hh4 & Hrep4); try done; try lia.
  { apply G. }
  { cbn [start set_n]. lia. }
  { apply (cache_free_held c); [congruence|done]. }
  { unfold a3. cbn [cs_refs with_refs]. rewrite map_size_empty. lia. }
  exists c4, k4. split; [exact Hr4|]. split; [congruence|].
  apply (rep_eq k4 _ _ Hrep4). cbn [start set_n]. unfold a3. rewrite !put_writes_app.
  assert (start g ∉ bl) as Hsb by (intros [_ ?]%(lo_range g bl G); lia).
  assert (cs_view (put_writes (home_writes bl (cs_view a)) a2) (start g) = new_header g (cs_view a (start g))) as EV3.
  { rewrite put_writes_notin by (by rewrite fst_home_writes). unfold a2. cbn. by rewrite fn_lookup_insert. }
  cbn [cs_view with_refs]. by rewrite EV3.
Qed.

(** ** The header block *)

Definition header_is (h : block) (bl : list Z) : Prop :=
  hdr_n h = Z.of_nat (length bl) /\
  forall t bn, bl !! t = Some bn -> hdr_block h (Z.of_nat t) = bn.

Lemma s32_small x : 0 <= x < 2 ^ 31 -> s32 (x mod 2 ^ 32) = x.
Proof. intros H. unfold s32. rewrite Z.mod_mod, Z.mod_small by lia. destruct (Z.ltb_spec x (2 ^ 31)); lia. Qed.

Lemma s32_load_store d o v : 0 <= v < 2 ^ 31 -> s32 (loadn 4 (storen 4 d o v) o) = v.
Proof. intros H. rewrite loadn_storen_eq. by apply s32_small. Qed.

Lemma put_blocks_out n : forall i a d o, o + 4 <= 4 + 4 * i ->
  loadn 4 (put_blocks n i a d) o = loadn 4 d o.
Proof.
  induction n as [|n IH]; intros i a d o H; cbn [put_blocks]; [done|].
  rewrite IH by lia. apply loadn_storen_out. lia.
Qed.

Lemma put_blocks_in n : forall i a d t, i <= t < i + Z.of_nat n -> 0 <= arr a t < 2 ^ 31 ->
  hdr_block (put_blocks n i a d) t = arr a t.
Proof.
  induction n as [|n IH]; intros i a d t Ht Ha; cbn [put_blocks]; [lia|].
  destruct (decide (t = i)) as [->|Hne]; [|apply IH; done || lia].
  unfold hdr_block. rewrite put_blocks_out by lia. by apply s32_load_store.
Qed.

Lemma header_new g bl d : log_ok g bl -> header_is (new_header g d) bl.
Proof.
  intros G. pose proof (lo_n g bl G) as Hn. pose proof (lo_cap g bl G) as Hc. unfold LOGSIZE, MAXOPBLOCKS in Hc.
  split.
  - unfold hdr_n, new_header. rewrite put_blocks_out by lia. rewrite s32_load_store; lia.
  - intros t bn Ht. apply lookup_lt_Some in Ht as Hl. unfold new_header.
    assert (bn ∈ bl) as Hin by (by apply list_elem_of_lookup_2 in Ht).
    pose proof (lo_range g bl G bn Hin). rewrite put_blocks_in; rewrite ?(lo_arr g bl G t bn Ht); lia || done.
Qed.

Lemma header_cleared g d : header_is (new_header (set_n 0 g) d) [].
Proof.
  split; [|done]. change (new_header (set_n 0 g) d) with (storen 4 d 0 0). unfold hdr_n.
  by rewrite s32_load_store.
Qed.

Lemma new_header_0 g g' d : new_header (set_n 0 g) d = new_header (set_n 0 g') d.
Proof. done. Qed.

(** ** Recovery *)

(** The blocks named in a header found on disk. *)
Record blocks_ok (g : log) (bl : list Z) : Prop := {
  bo_dev : ldev g = ROOTDEV;
  bo_start : 0 <= start g;
  bo_end : start g + lsize g <= 2 ^ 31;
  bo_fits : Z.of_nat (length bl) <= lsize g - 1;
  bo_cap : Z.of_nat (length bl) <= LOGSIZE;
  bo_nodup : NoDup bl;
  bo_range : forall bn, bn ∈ bl -> 0 <= bn < 2 ^ 31 /\ ~ (start g <= bn < start g + lsize g);
}.

Lemma log_blocks_ok g bl : log_ok g bl -> blocks_ok g bl.
Proof. intros G. pose proof (lo_n g bl G) as E. split; try apply G; rewrite <- E; apply G. Qed.

Lemma get_blocks_in n : forall i d a t, i <= t < i + Z.of_nat n -> arr (get_blocks n i d a) t = hdr_block d t.
Proof.
  assert (forall n i d a t, t < i -> arr (get_blocks n i d a) t = arr a t) as Hlow.
  { intros m. induction m as [|m IH]; intros i d a t H; cbn [get_blocks]; [done|].
    rewrite IH by lia. unfold arr. by rewrite lookup_insert_ne by lia. }
  induction n as [|n IH]; intros i d a t H; cbn [get_blocks]; [lia|].
  destruct (decide (t = i)) as [->|Hne]; [|apply IH; lia].
  rewrite Hlow by lia. unfold arr. by rewrite lookup_insert_eq.
Qed.

Definition loaded (g : log) (h : block) : log :=
  Log (start g) (lsize g) (outstanding g) (committing g) (ldev g) (hdr_n h)
      (get_blocks (Z.to_nat (hdr_n h)) 0 h (lh_block g)).

Lemma loaded_ok g h bl : blocks_ok g bl -> header_is h bl -> log_ok (loaded g h) bl.
Proof.
  intros B [Hn Hb]. split; cbn; rewrite ?Hn; try apply B; try done.
  intros t bn Ht. apply lookup_lt_Some in Ht as Hl. rewrite Nat2Z.id, get_blocks_in by lia. by apply Hb.
Qed.

Lemma read_head_run c g k a : ldev g = ROOTDEV -> 0 <= start g < 2 ^ 31 -> bc_rep k a -> cache_free c ->
  cs_refs a = ∅ -> (0 < bc_nbuf)%nat ->
  exists c' k', read_head c (Fsys g k) = Ok tt c' (Fsys (loaded g (cs_view a (start g))) k') /\
    held c' = held c /\ bc_rep k' a.
Proof.
  intros Hd Hs Hrep Hc Hno Hnb. unfold read_head. rewrite bind_getlog. cbn [lg]. rewrite Hd, u32_small by lia.
  assert (cs_refs a !! start g = None) as Hn by (by rewrite Hno).
  destruct (bc_bread_miss c k a _ Hrep Hc Hn) as (i & k1 & Hr1 & Hrep1).
  { rewrite Hno, map_size_empty. lia. }
  rewrite (bind_onc _ _ _ _ _ _ _ _ Hr1), bind_data. cbn [cache].
  destruct (bc_read k1 _ (start g) i 1 true Hrep1) as [-> _]; [by cbn; simplify_map_eq|].
  cbn [cs_view with_refs]. rewrite !bind_modlog. cbn [lg cache lh_n set_n start lsize outstanding committing ldev lh_block].
  destruct (bc_brelse_ok c k1 _ (start g) i 1 Hrep1 Hc) as (c2 & k2 & Hr2 & Hh2 & Hrep2); [by cbn; simplify_map_eq| |].
  { intros _. cbn. by apply (bc_clean k a). }
  rewrite (onc_Ok _ _ _ _ _ _ _ Hr2). eexists c2, k2. split; [done|]. split; [done|].
  apply (rep_eq k2 _ _ Hrep2). destruct a as [v d w R]. cbn in *. unfold with_refs. cbn. f_equal.
  by rewrite delete_insert_id.
Qed.

(** One turn of install_trans during recovery, when nothing is pinned. *)
Lemma reinstall_one_run c g k a bl t bn : log_ok g bl -> bc_rep k a -> cache_free c ->
  bl !! t = Some bn -> cs_refs a = ∅ -> (1 < bc_nbuf)%nat ->
  exists c' k', install_one 1 (Z.of_nat t) c (Fsys g k) = Ok tt c' (Fsys g k') /\ held c' = held c /\
    bc_rep k' (inst_step g t bn a).
Proof.
  intros G Hrep Hc Ht HR Hnb. unfold install_one. rewrite bind_getlog. cbn [lg].
  rewrite (lo_dev g bl G), (lo_arr g bl G t bn Ht).
  destruct (log_slot_facts g bl t bn G Ht) as (_ & _ & Hlb & Eu & Eb). fold (log_slot g t). rewrite Eu, Eb.
  set (lb := log_slot g t) in *. apply list_elem_of_lookup_2 in Ht as Hin.
  assert (cs_refs a !! lb = None /\ cs_refs a !! bn = None) as [Hno Hno'] by (by rewrite HR).
  assert (bn <> lb) as Hne by (intros ->; done).
  pose proof (bc_clean k a lb Hrep Hno) as Hclean.
  destruct (bc_bread_miss c k a lb Hrep Hc Hno) as (i & k1 & Hr1 & Hrep1); [rewrite HR, map_size_empty; lia|].
  rewrite (bind_onc _ _ _ _ _ _ _ _ Hr1).
  destruct (bc_bread_miss c k1 _ bn Hrep1 Hc) as (j & k2 & Hr2 & Hrep2).
  { cbn. by rewrite lookup_insert_ne. }
  { cbn. rewrite map_size_insert_None by done. rewrite HR, map_size_empty. lia. }
  rewrite (bind_onc _ _ _ _ _ _ _ _ Hr2). rewrite bind_data. cbn [cache].
  destruct (bc_read k2 _ lb i 1 true Hrep2) as [-> _]; [by cbn; simplify_map_eq|].
  destruct (bc_set_data_ok c k2 _ bn j 1 (cs_view a lb) Hrep2) as (k3 & Hr3 & Hrep3); [by cbn; simplify_map_eq|].
  cbn [cs_view with_refs] in *. rewrite (bind_onc _ _ _ _ _ _ _ _ Hr3).
  destruct (bc_bwrite_ok c k3 _ bn j 1 Hrep3 Hc) as (k4 & Hr4 & Hrep4); [by cbn; simplify_map_eq|].
  rewrite (bind_onc _ _ _ _ _ _ _ _ Hr4). cbn [Z.eqb]. rewrite bind_ret.
  destruct (bc_brelse_ok c k4 _ lb i 1 Hrep4 Hc) as (c6 & k6 & Hr6 & Hh6 & Hrep6); [by cbn; simplify_map_eq| |].
  { intros _. cbn. unfold on_disk in *. rewrite lookup_insert_ne, fn_lookup_insert_ne by done. done. }
  rewrite (bind_onc _ _ _ _ _ _ _ _ Hr6).
  destruct (bc_brelse_ok c6 k6 _ bn j 1 Hrep6) as (c7 & k7 & Hr7 & Hh7 & Hrep7).
  { by apply (cache_free_held c). }
  { by cbn; simplify_map_eq. }
  { intros _. cbn. unfold on_disk. by rewrite lookup_insert_eq, fn_lookup_insert. }
  rewrite (onc_Ok _ _ _ _ _ _ _ Hr7). exists c7, k7. split; [done|]. split; [congruence|].
  apply (rep_eq k7 _ _ Hrep7). clear - Hno Hno' Hne. destruct a as [v d w R]. cbn in *.
  unfold inst_step, with_refs, with_write, with_view. cbn. fold lb.
  match goal with |- CState _ _ _ ?R' = _ => assert (R' = R) as -> end; [|done].
  apply map_eq. intros x. destruct (decide (x = lb)) as [->|]; [by simplify_map_eq|].
  destruct (decide (x = bn)) as [->|]; by simplify_map_eq.
Qed.

Lemma reinstall_loop g bl : log_ok g bl -> (1 < bc_nbuf)%nat -> forall suf t c k a,
  (forall u bn, suf !! u = Some bn -> bl !! (t + u)%nat = Some bn) ->
  bc_rep k a -> cache_free c -> cs_refs a = ∅ ->
  exists c' k', tail_loop (install_one 1) (length suf) (Z.of_nat t) c (Fsys g k) = Ok tt c' (Fsys g k') /\
    held c' = held c /\ bc_rep k' (inst_steps g t suf a).
Proof.
  intros G Hnb. induction suf as [|bn suf IH]; intros t c k a Hs Hrep Hc HR; cbn [tail_loop length inst_steps].
  { by exists c, k. }
  pose proof (Hs 0%nat bn eq_refl) as Ht. rewrite Nat.add_0_r in Ht.
  destruct (reinstall_one_run c g k a bl t bn G Hrep Hc Ht HR Hnb) as (c1 & k1 & Hr1 & Hh1 & Hrep1).
  rewrite (bind_Ok _ _ _ _ _ _ _ Hr1). replace (Z.of_nat t + 1) with (Z.of_nat (S t)) by lia.
  destruct (IH (S t) c1 k1 (inst_step g t bn a)) as (c2 & k2 & Hr2 & Hh2 & Hrep2); [|done| |done|].
  - intros u b Hu. rewrite <- (Hs (S u) b Hu). f_equal. lia.
  - by apply (cache_free_held c).
  - exists c2, k2. split; [done|]. split; [congruence|done].
Qed.

(** What recovery writes when it finds the blocks [bl] in the header of disk [d]. *)
Definition saved (g : log) (d : gmap Z block) (bl : list Z) : list (Z * block) :=
  imap (fun t bn => (bn, on_disk d (log_slot g t))) bl.
Definition recover_writes (g : log) (bl : list Z) (d : gmap Z block) : list (Z * block) :=
  saved g d bl ++ [(start g, new_header (set_n 0 g) (on_disk d (start g)))].

Lemma fst_saved g d bl : (saved g d bl).*1 = bl.
Proof.
  unfold saved. rewrite fmap_imap. apply list_eq. intros i. rewrite list_lookup_imap.
  by destruct (bl !! i).
Qed.

Lemma elem_of_saved g d bl x e : (x, e) ∈ saved g d bl <->
  exists t, bl !! t = Some x /\ e = on_disk d (log_slot g t).
Proof.
  unfold saved. rewrite list_elem_of_lookup. setoid_rewrite list_lookup_imap_Some. split.
  - intros (t & bn & Ht & [= -> ->]). by exists t.
  - intros (t & Ht & ->). by exists t, x.
Qed.

Lemma inst_steps_saved g a : forall bl t, NoDup bl -> (forall i, (i < t + length bl)%nat -> log_slot g i ∉ bl) ->
  inst_steps g t bl a = put_writes (imap (fun i bn => (bn, cs_view a (log_slot g (t + i)))) bl) a.
Proof.
  assert (forall bl t a' v, (forall i, (i < t + length bl)%nat -> log_slot g i ∉ bl) ->
    (forall i, (i < t + length bl)%nat -> cs_view a' (log_slot g i) = v (log_slot g i)) ->
    inst_steps g t bl a' = put_writes (imap (fun i bn => (bn, v (log_slot g (t + i)))) bl) a') as Hgen.
  { induction bl as [|bn bl IH]; intros t a' v Hs Hv; cbn [inst_steps]; [done|].
    rewrite imap_cons, put_writes_cons. unfold inst_step. rewrite write_through.
    rewrite (Hv t) by (cbn; lia). rewrite Nat.add_0_r. rewrite (IH (S t) _ v).
    - f_equal. apply imap_ext. intros i x _. cbn. f_equal. f_equal. f_equal. lia.
    - intros i Hi Hin. apply (Hs i); [cbn; lia|set_solver].
    - intros i Hi. cbn. rewrite fn_lookup_insert_ne; [apply Hv; cbn; lia|].
      intros ->. apply (Hs i); [cbn; lia|set_solver]. }
  intros bl t _ Hs. by apply Hgen.
Qed.

Lemma recover_run c g k a bl : blocks_ok g bl -> bc_rep k a -> cache_free c -> cs_refs a = ∅ ->
  (1 < bc_nbuf)%nat -> header_is (on_disk (cs_disk a) (start g)) bl ->
  exists c' g' k', recover_from_log c (Fsys g k) = Ok tt c' (Fsys g' k') /\ held c' = held c /\
    lh_n g' = 0 /\ start g' = start g /\ lsize g' = lsize g /\
    bc_rep k' (put_writes (recover_writes g bl (cs_disk a)) a).
Proof.
  intros B Hrep Hc HR Hnb Hh. pose proof (bo_start g bl B). pose proof (bo_end g bl B). pose proof (bo_fits g bl B).
  assert (forall bn, cs_view a bn = on_disk (cs_disk a) bn) as Hv.
  { intros bn. apply (bc_clean k a bn Hrep). by rewrite HR. }
  unfold recover_from_log.
  destruct (read_head_run c g k a) as (c1 & k1 & Hr1 & Hh1 & Hrep1); try done; [apply B|lia|lia|].
  rewrite (bind_Ok _ _ _ _ _ _ _ Hr1). rewrite Hv.
  set (g1 := loaded g (on_disk (cs_disk a) (start g))).
  assert (log_ok g1 bl) as G by (by apply loaded_ok).
  unfold install_trans. rewrite bind_assoc, bind_getlog. cbn [lg]. rewrite (lo_n g1 bl G), Nat2Z.id.
  destruct (reinstall_loop g1 bl G Hnb bl 0 c1 k1 a) as (c2 & k2 & Hr2 & Hh2 & Hrep2); try done.
  { by apply (cache_free_held c). }
  rewrite (bind_Ok _ _ _ _ _ _ _ Hr2), bind_modlog. cbn [lg cache].
  rewrite inst_steps_saved in Hrep2; [|apply B|by apply slots_apart].
  set (ws := imap _ bl) in Hrep2.
  assert (ws = saved g (cs_disk a) bl) as Ew.
  { unfold ws, saved. apply imap_ext. intros i x _. cbn. by rewrite Hv. }
  rewrite Ew in Hrep2. clear ws Ew.
  destruct (write_head_run c2 (set_n 0 g1) k2 (put_writes (saved g (cs_disk a) bl) a))
    as (c3 & k3 & Hr3 & Hh3 & Hrep3); try done.
  { apply B. }
  { cbn. lia. }
  { apply (cache_free_held c); [congruence|done]. }
  { by rewrite put_writes_refs, HR. }
  { rewrite put_writes_refs, HR, map_size_empty. lia. }
  exists c3, (set_n 0 g1), k3. split; [exact Hr3|]. split; [congruence|]. do 3 (split; [done|]).
  apply (rep_eq k3 _ _ Hrep3). unfold recover_writes. rewrite put_writes_app. unfold put_writes at 2. cbn [foldl].
  change (start (set_n 0 g1)) with (start g). rewrite put_writes_notin.
  - by rewrite Hv.
  - rewrite fst_saved. intros Hin. destruct (bo_range g bl B _ Hin). lia.
Qed.

(** ** Crashes

    A crash keeps the blocks whose writes were complete: the disk after the
    first [i] writes of the sequence, for any [i]. *)

Definition outside_log (g : log) (x : Z) : Prop := ~ (start g <= x < start g + lsize g).

(** What recovery makes of the home location of a block. *)
Lemma recovered_in g bl d t x : blocks_ok g bl -> bl !! t = Some x ->
  on_disk (apply_writes (recover_writes g bl d) d) x = on_disk d (log_slot g t).
Proof.
  intros B Ht. unfold recover_writes. rewrite apply_writes_app.
  assert (x ∈ bl) as Hin by (by apply list_elem_of_lookup_2 in Ht).
  pose proof (bo_range g bl B x Hin). pose proof (bo_fits g bl B). rewrite apply_writes_notin.
  - apply apply_writes_in; [rewrite fst_saved; apply B|]. apply elem_of_saved. by exists t.
  - cbn. rewrite list_elem_of_singleton. lia.
Qed.

Lemma recovered_out g bl d x : x ∉ bl -> x <> start g ->
  on_disk (apply_writes (recover_writes g bl d) d) x = on_disk d x.
Proof.
  intros Hx Hs. unfold recover_writes. rewrite apply_writes_notin; [done|].
  rewrite fmap_app, fst_saved. cbn. set_solver.
Qed.

(** The disk has a header that names blocks [bl], and recovering from it gives
    the contents [f] outside the log. *)
Definition recovers_to (g : log) (d : gmap Z block) (f : Z -> block) : Prop :=
  exists bl, blocks_ok g bl /\ header_is (on_disk d (start g)) bl /\
    forall x, outside_log g x -> on_disk (apply_writes (recover_writes g bl d) d) x = f x.

Lemma blocks_ok_nil g bl : blocks_ok g bl -> blocks_ok g [].
Proof.
  intros B. pose proof (bo_fits g bl B).
  split; [apply B|apply B|apply B|cbn; lia|done|constructor|]. intros bn ?%elem_of_nil. done.
Qed.

Lemma recovers_empty g bl d f : blocks_ok g bl -> header_is (on_disk d (start g)) [] ->
  (forall x, outside_log g x -> on_disk d x = f x) -> recovers_to g d f.
Proof.
  intros B Hh Hf. exists []. split; [by apply (blocks_ok_nil g bl)|]. split; [done|].
  intros x Hx. pose proof (bo_fits g bl B). rewrite recovered_out; [by apply Hf|apply not_elem_of_nil|].
  unfold outside_log in Hx. lia.
Qed.

Lemma take_home bl v j x : x ∈ (take j (home_writes bl v)).*1 -> x ∈ bl.
Proof. rewrite fmap_take, fst_home_writes. intros H. by apply elem_of_take in H as (i & H%list_elem_of_lookup_2 & _). Qed.

(** A crash before the header is written leaves the old state. *)
Lemma crash_before g bl v d0 i : log_ok g bl -> header_is (on_disk d0 (start g)) [] ->
  (i <= length bl)%nat -> recovers_to g (apply_writes (take i (log_writes g 0 bl v)) d0) (on_disk d0).
Proof.
  intros G Hh Hi.
  assert (forall x, outside_log g x \/ x = start g ->
    on_disk (apply_writes (take i (log_writes g 0 bl v)) d0) x = on_disk d0 x) as Hout.
  { intros x Hx. apply apply_writes_notin. rewrite fmap_take.
    intros (u & Hu & _)%elem_of_take. apply list_elem_of_lookup_2 in Hu.
    apply elem_of_log_writes_fst in Hu as (t & Ht & ->).
    pose proof (lo_n g bl G). pose proof (lo_fits g bl G). unfold outside_log, log_slot in Hx. lia. }
  apply (recovers_empty g bl); [by apply log_blocks_ok|rewrite Hout by auto; done|]. auto.
Qed.

(** A crash after the header is written leaves the new state. *)
Lemma crash_after g bl v d0 j : log_ok g bl -> bl <> [] ->
  (forall x, x ∉ bl -> outside_log g x -> v x = on_disk d0 x) ->
  let h := new_header g (v (start g)) in
  let d1 := apply_writes (log_writes g 0 bl v ++ [(start g, h)]) d0 in
  recovers_to g (apply_writes (take j (home_writes bl v ++ [(start g, new_header (set_n 0 g) h)])) d1) v.
Proof.
  intros G Hne Hcl h d1. pose proof (lo_n g bl G) as Hn. pose proof (lo_fits g bl G) as Hf.
  pose proof (log_blocks_ok g bl G) as B.
  assert (length (home_writes bl v) = length bl) as El by apply length_map.
  assert (start g ∉ bl) as Hsb by (intros H; destruct (lo_range g bl G _ H); lia).
  assert (forall x, x ∉ bl -> outside_log g x -> on_disk d1 x = v x) as Hd1.
  { intros x Hx Ho. unfold d1. rewrite apply_writes_notin; [by rewrite Hcl|].
    rewrite fmap_app, elem_of_app. cbn. rewrite list_elem_of_singleton.
    intros [(t & Ht & ->)%elem_of_log_writes_fst| ->]; unfold outside_log, log_slot in Ho; lia. }
  destruct (decide (j <= length bl)%nat) as [Hj|Hj].
  - (* the header still names the blocks *)
    rewrite take_app_le by lia.
    set (d := apply_writes _ d1).
    assert (forall x, x ∉ bl -> on_disk d x = on_disk d1 x) as Hd.
    { intros x Hx. apply apply_writes_notin. by intros ?%take_home. }
    exists bl. split; [done|]. split.
    + rewrite Hd by done. unfold d1. rewrite apply_writes_app. unfold apply_writes at 1. cbn.
      unfold on_disk. rewrite lookup_insert_eq. by apply header_new.
    + intros x Hx. destruct (decide (x ∈ bl)) as [Hin|Hin].
      * apply list_elem_of_lookup_1 in Hin as [t Ht]. rewrite (recovered_in g bl d t x B Ht).
        apply lookup_lt_Some in Ht as Hlt. rewrite Hd by (by apply (slots_apart g bl)).
        unfold d1. rewrite apply_writes_app, apply_writes_notin.
        -- apply apply_writes_in; [apply NoDup_log_writes|]. apply elem_of_log_writes. by exists t, x.
        -- cbn. rewrite list_elem_of_singleton. unfold log_slot. lia.
      * rewrite recovered_out; [|done|unfold outside_log in Hx; lia]. rewrite Hd by done. by apply Hd1.
  - (* the transaction is installed and the header cleared *)
    rewrite take_ge by (rewrite length_app, El; cbn; lia). rewrite apply_writes_app.
    apply (recovers_empty g bl); [done| |].
    + unfold apply_writes at 1. cbn. unfold on_disk. rewrite lookup_insert_eq. apply header_cleared.
    + intros x Hx. rewrite apply_writes_notin.
      2:{ cbn. rewrite list_elem_of_singleton. unfold outside_log in Hx. lia. }
      destruct (decide (x ∈ bl)) as [Hin|Hin].
      * apply apply_writes_in; [rewrite fst_home_writes; apply G|].
        apply list_elem_of_In. unfold home_writes. apply in_map_iff. exists x. split; [done|]. by apply list_elem_of_In.
      * rewrite apply_writes_notin by (by rewrite fst_home_writes). by apply Hd1.
Qed.

Lemma crash_commit g bl v d0 i : log_ok g bl -> header_is (on_disk d0 (start g)) [] ->
  (forall x, x ∉ bl -> outside_log g x -> v x = on_disk d0 x) ->
  recovers_to g (apply_writes (take i (commit_writes g bl v)) d0)
    (if decide (i <= length bl)%nat then on_disk d0 else v).
Proof.
  intros G Hh Hcl. unfold commit_writes.
  assert (length (log_writes g 0 bl v) = length bl) as El.
  { clear. generalize 0%nat. induction bl as [|b bl IH]; intros t; cbn; [done|]. by rewrite IH. }
  case_decide as E.
  { rewrite take_nil. cbn [apply_writes foldl].
    assert (recovers_to g d0 (on_disk d0)) as H0 by (apply (recovers_empty g bl); [by apply log_blocks_ok|done..]).
    case_decide; [done|]. destruct H0 as (bl' & B' & Hh' & H0). exists bl'. split_and!; try done.
    intros x Hx. rewrite H0 by done. symmetry. apply Hcl; [|done]. subst bl. apply not_elem_of_nil. }
  case_decide as Ei.
  - rewrite take_app_le by lia. by apply crash_before.
  - rewrite (take_app_ge (log_writes g 0 bl v)) by lia.
    destruct (i - length (log_writes g 0 bl v))%nat as [|j] eqn:Ej; [lia|].
    cbn [take app]. rewrite cons_middle, app_assoc, apply_writes_app. by apply crash_after.
Qed.

(** Recovery may itself be interrupted: after any number of its writes, the disk
    recovers to the same contents. *)
Lemma crash_recovery g d f i bl : header_is (on_disk d (start g)) bl -> blocks_ok g bl ->
  (forall x, outside_log g x -> on_disk (apply_writes (recover_writes g bl d) d) x = f x) ->
  recovers_to g (apply_writes (take i (recover_writes g bl d)) d) f.
Proof.
  intros Hh B Hf. pose proof (bo_fits g bl B) as Hft.
  assert (start g ∉ bl) as Hsb by (intros H; destruct (bo_range g bl B _ H); lia).
  unfold recover_writes in *. set (hd := [_]) in *.
  assert (length (saved g d bl) = length bl) as El by apply length_imap.
  destruct (decide (i <= length bl)%nat) as [Hi|Hi].
  - rewrite take_app_le by lia. set (d' := apply_writes _ d).
    assert (forall x, x ∉ bl -> on_disk d' x = on_disk d x) as Hd.
    { intros x Hx. apply apply_writes_notin. rewrite fmap_take, fst_saved.
      by intros (u & ?%list_elem_of_lookup_2 & _)%elem_of_take. }
    exists bl. split; [done|]. split; [by rewrite Hd|].
    intros x Hx. rewrite <- Hf by done. change (saved g d bl ++ hd) with (recover_writes g bl d).
    destruct (decide (x ∈ bl)) as [Hin|Hin].
    + apply list_elem_of_lookup_1 in Hin as [t Ht]. rewrite !(recovered_in g bl _ t x B Ht).
      apply Hd. intros Hs. destruct (bo_range g bl B _ Hs) as [_ H]. apply lookup_lt_Some in Ht.
      unfold log_slot in H. lia.
    + rewrite !recovered_out; [by apply Hd|done|unfold outside_log in Hx; lia|done|unfold outside_log in Hx; lia].
  - rewrite take_ge by (rewrite length_app, El; cbn; lia). apply (recovers_empty g bl); [done| |done].
    rewrite apply_writes_app. unfold apply_writes at 1, hd. cbn. unfold on_disk at 1. rewrite lookup_insert_eq.
    apply header_cleared.
Qed.

(** The disk after all the writes of a commit. *)
Lemma commit_split g bl v : bl <> [] -> commit_writes g bl v =
  (log_writes g 0 bl v ++ [(start g, new_header g (v (start g)))]) ++
  (home_writes bl v ++ [(start g, new_header (set_n 0 g) (new_header g (v (start g))))]).
Proof. intros H. unfold commit_writes. rewrite decide_False by done. by rewrite <- app_assoc. Qed.

Lemma commit_header g bl v d : header_is (on_disk d (start g)) [] ->
  header_is (on_disk (apply_writes (commit_writes g bl v) d) (start g)) [].
Proof.
  intros Hh. destruct (decide (bl = [])) as [->|Hne]; [done|].
  rewrite commit_split by done. rewrite app_assoc, apply_writes_app. unfold apply_writes at 1. cbn.
  unfold on_disk. rewrite lookup_insert_eq. apply header_cleared.
Qed.

Lemma commit_contents g bl v d x : log_ok g bl -> outside_log g x ->
  (forall x, x ∉ bl -> outside_log g x -> v x = on_disk d x) ->
  on_disk (apply_writes (commit_writes g bl v) d) x = v x.
Proof.
  intros G Hx Hcl. pose proof (lo_n g bl G). pose proof (lo_fits g bl G).
  destruct (decide (bl = [])) as [->|Hne]; [symmetry; apply Hcl; [apply not_elem_of_nil|done]|].
  rewrite commit_split by done. rewrite app_assoc, apply_writes_app, apply_writes_notin.
  2:{ cbn. rewrite list_elem_of_singleton. unfold outside_log in Hx. lia. }
  rewrite apply_writes_app. destruct (decide (x ∈ bl)) as [Hin|Hin].
  - apply apply_writes_in; [rewrite fst_home_writes; apply G|].
    apply list_elem_of_In. unfold home_writes. apply in_map_iff. exists x. split; [done|]. by apply list_elem_of_In.
  - rewrite apply_writes_notin by (by rewrite fst_home_writes). rewrite apply_writes_notin; [by rewrite Hcl|].
    rewrite fmap_app, elem_of_app. cbn. rewrite list_elem_of_singleton.
    intros [(t & Ht & ->)%elem_of_log_writes_fst| ->]; unfold outside_log, log_slot in Hx; lia.
Qed.

(** initlog() on a disk that recovers to [f]. *)
Lemma initlog_run c g0 k a g f : bc_rep k a -> cache_free c -> cs_refs a = ∅ -> (1 < bc_nbuf)%nat ->
  recovers_to g (cs_disk a) f ->
  exists bl c' g' k', initlog ROOTDEV (start g) (lsize g) c (Fsys g0 k) = Ok tt c' (Fsys g' k') /\
    held c' = held c /\ lh_n g' = 0 /\ start g' = start g /\ lsize g' = lsize g /\
    blocks_ok g bl /\ header_is (on_disk (cs_disk a) (start g)) bl /\
    bc_rep k' (put_writes (recover_writes g bl (cs_disk a)) a) /\
    forall x, outside_log g x -> on_disk (apply_writes (recover_writes g bl (cs_disk a)) (cs_disk a)) x = f x.
Proof.
  intros Hrep Hc HR Hnb (bl & B & Hh & Hf). unfold initlog.
  change (BSIZE <=? 4 + 4 * LOGSIZE) with false. cbv iota. rewrite bind_modlog. cbn [lg cache].
  set (g1 := Log _ _ _ _ _ _ _).
  assert (blocks_ok g1 bl) as B1 by (split; try apply B; done).
  destruct (recover_run c g1 k a bl B1 Hrep Hc HR Hnb Hh) as (c' & g' & k' & Hr & Hh' & Hn & Hst & Hsz & Hrep').
  exists bl, c', g', k'. by split_and!.
Qed.

(** C1: commit() is atomic with respect to crashes.  In a state in which the blocks [bl] are logged
    and pinned and the log on disk is empty, commit() returns; afterwards the disk holds, outside
    the log, what the cache showed, nothing is referenced, and the log is empty.  If the machine
    stops after any number [i] of the disk writes of the commit, then initlog() on the disk
    it left (with a fresh cache) returns and restores, outside the log, either exactly the disk from before
    the commit, when the header was not yet written ([i <= length bl]), or exactly the
    contents of the whole transaction. *)
Theorem commit_crash_safe c g k a bl :
  log_ok g bl -> bc_rep k a -> cache_free c -> pinned (cs_refs a) bl -> (length bl < bc_nbuf)%nat ->
  header_is (on_disk (cs_disk a) (start g)) [] ->
  exists c' k' a' ws,
    commit c (Fsys g k) = Ok tt c' (Fsys (set_n 0 g) k') /\ held c' = held c /\
    bc_rep k' a' /\ cs_refs a' = ∅ /\ cs_writes a' = rev ws ++ cs_writes a /\
    header_is (on_disk (cs_disk a') (start g)) [] /\
    (forall x, outside_log g x -> on_disk (cs_disk a') x = cs_view a x /\ cs_view a' x = cs_view a x) /\
    forall i c2 g2 k2 a2,
      bc_rep k2 a2 -> cs_disk a2 = apply_writes (take i ws) (cs_disk a) -> cs_refs a2 = ∅ ->
      cache_free c2 -> (1 < bc_nbuf)%nat ->
      exists c3 g3 k3 a3,
        initlog ROOTDEV (start g) (lsize g) c2 (Fsys g2 k2) = Ok tt c3 (Fsys g3 k3) /\
        bc_rep k3 a3 /\ lh_n g3 = 0 /\
        forall x, outside_log g x ->
          on_disk (cs_disk a3) x =
          if decide (i <= length bl)%nat then on_disk (cs_disk a) x else cs_view a x.
Proof.
  intros G Hrep Hc Hp Hnb Hh. pose proof (log_blocks_ok g bl G) as B.
  assert (forall x, x ∉ bl -> outside_log g x -> cs_view a x = on_disk (cs_disk a) x) as Hcl.
  { intros x Hx _. apply (bc_clean k a x Hrep). destruct (cs_refs a !! x) as [r|] eqn:E; [|done].
    by apply (pn_only _ _ Hp) in E. }
  destruct (commit_run c g k a bl G Hrep Hc Hp Hnb) as (c' & k' & Hr & Hhc & Hrep').
  set (ws := commit_writes g bl (cs_view a)) in *.
  exists c', k', (with_refs ∅ (put_writes ws a)), ws. split; [done|]. split; [done|]. split; [done|].
  split; [done|]. split; [apply put_writes_writes|].
  assert (header_is (on_disk (cs_disk (put_writes ws a)) (start g)) []) as Hh'.
  { rewrite put_writes_disk. by apply commit_header. }
  split; [done|]. split.
  - intros x Hx. assert (cs_view (put_writes ws a) x = on_disk (cs_disk (put_writes ws a)) x) as E.
    { apply (bc_clean k' _ x Hrep'). done. }
    cbn [cs_view cs_disk with_refs]. rewrite E. split; [|]; rewrite put_writes_disk; by apply commit_contents.
  - intros i c2 g2 k2 a2 Hrep2 Hd2 HR2 Hc2 Hnb2.
    pose proof (crash_commit g bl (cs_view a) (cs_disk a) i G Hh Hcl) as Hrec. fold ws in Hrec. rewrite <- Hd2 in Hrec.
    destruct (initlog_run c2 g2 k2 a2 g _ Hrep2 Hc2 HR2 Hnb2 Hrec)
      as (bl' & c3 & g3 & k3 & Hr3 & _ & Hn3 & _ & _ & _ & _ & Hrep3 & Hf3).
    eexists c3, g3, k3, _. split; [exact Hr3|]. split; [exact Hrep3|]. split; [done|].
    intros x Hx. rewrite put_writes_disk, Hf3 by done. by case_decide.
Qed.

(** C2: recovery can be interrupted and repeated.  On a disk that recovers to the contents [f],
    initlog() returns and leaves [f] outside the log and an empty log; and if the machine
    stops after any number of the writes recovery makes, the disk it leaves still recovers to [f]. *)
Theorem recovery_crash_safe c g0 k a g f :
  bc_rep k a -> cache_free c -> cs_refs a = ∅ -> (1 < bc_nbuf)%nat -> recovers_to g (cs_disk a) f ->
  exists c' g' k' a' ws,
    initlog ROOTDEV (start g) (lsize g) c (Fsys g0 k) = Ok tt c' (Fsys g' k') /\ held c' = held c /\
    lh_n g' = 0 /\ bc_rep k' a' /\ cs_writes a' = rev ws ++ cs_writes a /\
    header_is (on_disk (cs_disk a') (start g)) [] /\
    (forall x, outside_log g x -> on_disk (cs_disk a') x = f x) /\
    forall i, recovers_to g (apply_writes (take i ws) (cs_disk a)) f.
Proof.
  intros Hrep Hc HR Hnb Hrec.
  destruct (initlog_run c g0 k a g f Hrep Hc HR Hnb Hrec)
    as (bl & c' & g' & k' & Hr & Hh & Hn & _ & _ & B & Hhd & Hrep' & Hf).
  exists c', g', k', (put_writes (recover_writes g bl (cs_disk a)) a), (recover_writes g bl (cs_disk a)).
  split; [done|]. split; [done|]. split; [done|]. split; [done|]. split; [apply put_writes_writes|].
  rewrite put_writes_disk. split; [|split].
  - unfold recover_writes. rewrite apply_writes_app. unfold apply_writes at 1. cbn.
    unfold on_disk at 1. rewrite lookup_insert_eq. apply header_cleared.
  - done.
  - intros i. by apply (crash_recovery g (cs_disk a) f i bl).
Qed.

(** ** Reservations

    An operation that called begin_op() may log MAXOPBLOCKS blocks.  The
    blocks logged so far and the ones reserved never exceed LOGSIZE. *)

Definition reserved (g : log) : Z := lh_n g + outstanding g * MAXOPBLOCKS.

(** begin_op.  It returns, having counted the operation, exactly when no commit is under way and the
    blocks logged and reserved with this operation fit LOGSIZE; otherwise it sleeps on the log,
    with the lock released and nothing changed. *)
Theorem begin_op_correct c (s : fsys K) : held c = [] ->
  begin_op c s =
  if (committing (lg s) =? 0) && (reserved (lg s) + MAXOPBLOCKS <=? LOGSIZE)
  then Ok tt c (Fsys (set_outstanding (outstanding (lg s) + 1) (lg s)) (cache s))
  else Asleep Ch_log c s.
Proof.
  intros Hc. assert (L_log ∉ held c) as Hl by (rewrite Hc; apply not_elem_of_nil).
  assert (sleep Ch_log L_log {| held := L_log :: held c; out := out c |} s = (Asleep Ch_log c s : res (fsys K) unit)) as Es.
  { unfold sleep. cbn [held out]. rewrite decide_True by set_solver. rewrite remove_lock_head, Hc.
    destruct c. cbn in *. by subst. }
  unfold begin_op, reserved. rewrite bind_acquire, bind_getlog by done.
  destruct (Z.eqb_spec (committing (lg s)) 0); cbn [negb andb]; [|done].
  destruct (Z.ltb_spec LOGSIZE (lh_n (lg s) + (outstanding (lg s) + 1) * MAXOPBLOCKS));
    destruct (Z.leb_spec (lh_n (lg s) + outstanding (lg s) * MAXOPBLOCKS + MAXOPBLOCKS) LOGSIZE); try lia; [done|].
  rewrite bind_modlog. cbn [lg cache]. by mrun.
Qed.

(** Where the loop of log_write stops: at the block if it is logged, else at the end. *)
Lemma absorb_spec g bl bn : log_ok g bl -> 0 <= bn < 2 ^ 31 ->
  (exists t, bl !! t = Some bn /\ absorb (Z.to_nat (lh_n g)) 0 (lh_block g) bn = Z.of_nat t) \/
  ((bn ∉ bl) /\ absorb (Z.to_nat (lh_n g)) 0 (lh_block g) bn = lh_n g).
Proof.
  intros G Hbn. pose proof (lo_n g bl G) as Hn.
  assert (forall suf t, (forall u b, suf !! u = Some b -> bl !! (t + u)%nat = Some b) ->
    (exists u, suf !! u = Some bn /\ absorb (length suf) (Z.of_nat t) (lh_block g) bn = Z.of_nat (t + u)) \/
    ((bn ∉ suf) /\ absorb (length suf) (Z.of_nat t) (lh_block g) bn = Z.of_nat (t + length suf))) as Hgen.
  { induction suf as [|b suf IH]; intros t Hs; cbn [absorb length].
    - right. split; [apply not_elem_of_nil|]. by rewrite Nat.add_0_r.
    - pose proof (Hs 0%nat b eq_refl) as Hb. rewrite Nat.add_0_r in Hb. rewrite (lo_arr g bl G t b Hb).
      destruct (lo_range g bl G b) as [Hr _]; [by apply list_elem_of_lookup_2 in Hb|]. rewrite u32_small by lia.
      destruct (Z.eqb_spec b bn) as [->|Hne]; [left; exists 0%nat; split; [done|f_equal; lia]|].
      replace (Z.of_nat t + 1) with (Z.of_nat (S t)) by lia.
      destruct (IH (S t)) as [(u & Hu & ->)|[Hu ->]].
      + intros u b' Hu. rewrite <- (Hs (S u) b' Hu). f_equal. lia.
      + left. exists (S u). split; [done|f_equal; lia].
      + right. split; [set_solver|f_equal; lia]. }
  rewrite Hn, Nat2Z.id. destruct (Hgen bl 0%nat) as [(u & Hu & E)|[Hu E]]; [done| |].
  - left. by exists u.
  - right. done.
Qed.

(** What log_write does. *)
Lemma log_write_run c g k a bl b bn n m :
  log_ok g bl -> bc_rep k a -> L_log ∉ held c -> L_bcache ∉ held c ->
  cs_refs a !! bn = Some (Ref b n m) -> n + 1 < 2 ^ 32 ->
  0 <= bn < 2 ^ 31 -> outside_log g bn ->
  if (LOGSIZE <=? lh_n g) || (lsize g - 1 <=? lh_n g)
  then log_write b c (Fsys g k) = Panic "too big a transaction"
  else if outstanding g <? 1 then log_write b c (Fsys g k) = Panic "log_write outside of trans"
  else exists g' k', log_write b c (Fsys g k) = Ok tt c (Fsys g' k') /\
    outstanding g' = outstanding g /\ committing g' = committing g /\ start g' = start g /\ lsize g' = lsize g /\
    if decide (bn ∈ bl) then log_ok g' bl /\ k' = k
    else log_ok g' (bl ++ [bn]) /\ bc_rep k' (with_refs (<[bn := Ref b (n + 1) m]> (cs_refs a)) a).
Proof.
  intros G Hrep Hl Hb Href Hn Hbn Hout. unfold log_write. rewrite bind_acquire, bind_getlog by done. cbn [lg].
  destruct ((LOGSIZE <=? lh_n g) || (lsize g - 1 <=? lh_n g)) eqn:Efull; [done|].
  destruct (outstanding g <? 1); [done|]. rewrite bind_gets. cbn [cache].
  destruct (bc_read k a bn b n m Hrep Href) as [_ ->]. rewrite bind_modlog. cbn [lg cache].
  assert (s32 bn = bn) as Es. { rewrite <- (Z.mod_small bn (2 ^ 32)) at 1 by lia. by apply s32_small. }
  rewrite Es. pose proof (lo_n g bl G) as En.
  destruct (absorb_spec g bl bn G Hbn) as [(t & Ht & ->)|[Hnin ->]].
  - apply lookup_lt_Some in Ht as Hlt. destruct (Z.eqb_spec (Z.of_nat t) (lh_n g)); [lia|]. mrun.
    eexists _, k. split; [reflexivity|]. do 4 (split; [done|]).
    rewrite decide_True by (by apply list_elem_of_lookup_2 in Ht). split; [|done].
    split; cbn; try apply G. intros u b' Hu. unfold arr. destruct (decide (u = t)) as [->|Hne].
    + rewrite lookup_insert_eq. cbn. congruence.
    + rewrite lookup_insert_ne by lia. by apply G.
  - rewrite Z.eqb_refl. mrun.
    destruct (bc_bpin_ok (Ctx (L_log :: held c) (out c)) k a bn b n m Hrep) as (k' & Hr & Hrep'); try done.
    { cbn. set_solver. }
    rewrite (bind_onc _ _ _ _ _ _ _ _ Hr), bind_modlog. mrun. cbn [lg cache].
    eexists _, k'. split; [reflexivity|]. do 4 (split; [done|]). rewrite decide_False by done. split; [|done].
    split; cbn; try apply G; try lia.
    + rewrite length_app. cbn. lia.
    + intros u b' Hu. unfold arr. apply lookup_app_Some in Hu as [Hu|[Hge Hu]].
      * apply lookup_lt_Some in Hu as Hlt. rewrite lookup_insert_ne by lia. by apply G.
      * apply list_lookup_singleton_Some in Hu as [Hz <-]. replace (Z.of_nat u) with (lh_n g) by lia.
        by rewrite lookup_insert_eq.
    + apply NoDup_app. split_and!; [apply G| |apply NoDup_singleton]. set_solver.
    + intros b' [Hin| ->%list_elem_of_singleton]%elem_of_app; [by apply G|]. done.
Qed.

(** log_write.  Inside an operation and with room in the log, log_write records the block: a
    block that is already logged is absorbed, and the cache does not change; a new block is
    appended and its buffer pinned by one reference.  Outside an operation, or when the log is
    full, it panics. *)
Theorem log_write_correct c g k a bl b bn n m :
  log_ok g bl -> bc_rep k a -> L_log ∉ held c -> L_bcache ∉ held c ->
  cs_refs a !! bn = Some (Ref b n m) -> n + 1 < 2 ^ 32 ->
  0 <= bn < 2 ^ 31 -> outside_log g bn ->
  if (LOGSIZE <=? lh_n g) || (lsize g - 1 <=? lh_n g)
  then log_write b c (Fsys g k) = Panic "too big a transaction"
  else if outstanding g <? 1 then log_write b c (Fsys g k) = Panic "log_write outside of trans"
  else exists g' k', log_write b c (Fsys g k) = Ok tt c (Fsys g' k') /\
    outstanding g' = outstanding g /\ committing g' = committing g /\ start g' = start g /\ lsize g' = lsize g /\
    if decide (bn ∈ bl) then log_ok g' bl /\ k' = k
    else log_ok g' (bl ++ [bn]) /\ bc_rep k' (with_refs (<[bn := Ref b (n + 1) m]> (cs_refs a)) a).
Proof. apply log_write_run. Qed.

(** C38: the reservation of begin_op() exceeds the room of the log by one block.  With a log of LOGSIZE
    blocks, header included, as mkfs makes it, three operations are admitted on an empty log,
    with LOGSIZE blocks reserved; but once LOGSIZE - 1 blocks are logged, log_write() of the last
    reserved one panics. *)
Theorem log_reservation_gap c (s : fsys K) g1 b : held c = [] -> committing (lg s) = 0 ->
  lh_n (lg s) = 0 -> outstanding (lg s) = 0 -> lsize (lg s) = LOGSIZE ->
  (exists s', (begin_op ;;! begin_op ;;! begin_op) c s = Ok tt c s' /\ reserved (lg s') = LOGSIZE) /\
  (lsize g1 = LOGSIZE -> lh_n g1 = LOGSIZE - 1 -> forall k, log_write b c (Fsys g1 k) = Panic "too big a transaction").
Proof.
  intros Hc Hco Hn Ho Hs. split.
  - assert (forall s : fsys K, committing (lg s) = 0 -> lh_n (lg s) = 0 -> outstanding (lg s) < 3 ->
      begin_op c s = Ok tt c (Fsys (set_outstanding (outstanding (lg s) + 1) (lg s)) (cache s))) as Hb.
    { intros s' H1 H2 H3. assert (L_log ∉ held c) as Hl by (rewrite Hc; apply not_elem_of_nil).
      unfold begin_op. rewrite bind_acquire, bind_getlog by done. rewrite H1, H2. cbn [Z.eqb negb].
      unfold LOGSIZE, MAXOPBLOCKS. destruct (Z.ltb_spec (10 * 3) (0 + (outstanding (lg s') + 1) * 10)); [lia|].
      rewrite bind_modlog. cbn [lg cache]. by mrun. }
    rewrite (bind_Ok _ _ _ _ _ _ _ (Hb s Hco Hn ltac:(lia))).
    erewrite bind_Ok by (apply Hb; cbn; done || lia).
    eexists. split; [apply Hb; cbn; done || lia|]. unfold reserved. cbn. rewrite Hn, Ho. done.
  - intros H1 H2 k. assert (L_log ∉ held c) as Hl by (rewrite Hc; apply not_elem_of_nil).
    unfold log_write. rewrite bind_acquire, bind_getlog by done. cbn [lg]. rewrite H1, H2. done.
Qed.

Lemma bind_wakeup {B} ch (f : unit -> M (fsys K) B) c s :
  bindM (wakeup_ev ch) f c s = f tt (Ctx (held c) (EvWakeup ch :: out c)) s.
Proof. done. Qed.

(** end_op.  An operation that is not the last one outstanding only leaves and wakes the sleepers; the
    last one commits: the transaction reaches the disk, nothing stays pinned, the log is empty
    and open again, and the sleepers are woken. *)
Theorem end_op_correct c g k a bl :
  log_ok g bl -> bc_rep k a -> held c = [] -> committing g = 0 ->
  pinned (cs_refs a) bl -> (length bl < bc_nbuf)%nat ->
  if outstanding g =? 1 then
    exists c' g' k' a', end_op c (Fsys g k) = Ok tt c' (Fsys g' k') /\ held c' = [] /\
      EvWakeup Ch_log ∈ out c' /\ outstanding g' = 0 /\ committing g' = 0 /\ log_ok g' [] /\
      bc_rep k' a' /\ cs_refs a' = ∅ /\
      forall x, outside_log g x -> on_disk (cs_disk a') x = cs_view a x
  else
    end_op c (Fsys g k) =
    Ok tt (Ctx [] (EvWakeup Ch_log :: out c)) (Fsys (set_outstanding (outstanding g - 1) g) k).
Proof.
  intros G Hrep Hc Hcom Hp Hnb. assert (forall l, l ∉ held c) as Hl by (rewrite Hc; apply not_elem_of_nil).
  unfold end_op. rewrite bind_acquire, bind_modlog, bind_getlog by done.
  cbn [lg cache committing set_outstanding outstanding]. rewrite Hcom. cbn [Z.eqb negb].
  destruct (Z.eqb_spec (outstanding g) 1) as [E|E].
  2:{ destruct (Z.eqb_spec (outstanding g - 1) 0); [lia|]. rewrite bind_wakeup. mrun. by rewrite Hc. }
  rewrite E. cbn [Z.eqb Z.sub Z.add Z.opp Z.pos_sub]. change (1 - 1 =? 0) with true. cbv iota.
  rewrite bind_modlog. mrun. cbn [lg cache].
  set (g1 := set_committing 1 _).
  assert (log_ok g1 bl) as G1 by (split; apply G).
  destruct (commit_run c g1 k a bl G1 Hrep ltac:(split; [apply Hl|intros; apply Hl]) Hp Hnb) as (c1 & k1 & Hr & Hh & Hrep1).
  rewrite (bind_Ok _ _ _ _ _ _ _ Hr). rewrite bind_acquire by (by rewrite Hh). rewrite bind_modlog, bind_wakeup.
  cbn [lg cache held out]. mrun.
  eexists _, _, k1, _. split; [reflexivity|]. cbn [held out]. split; [by rewrite Hh|]. split; [set_solver|].
  split; [done|]. split; [done|]. split.
  { pose proof (lo_n g bl G). pose proof (lo_fits g bl G). 
    split; [apply G|apply G|apply G|done|cbn; lia|done|done|constructor|]. intros bn ?%elem_of_nil. done. }
  split; [exact Hrep1|]. split; [done|]. intros x Hx. cbn [cs_disk with_refs]. rewrite put_writes_disk.
  apply (commit_contents g1); try done. intros y Hy _. apply (bc_clean k a y Hrep).
  destruct (cs_refs a !! y) as [r|] eqn:Er; [|done]. by apply (pn_only _ _ Hp) in Er.
Qed.
End Log.
