(* ===== verification/DiskExamples.v ===== *)
(** Concrete disks and caches at which the theorems of [Bio] and [Log] apply. *)
From stdpp Require Import functions.
From S2P Require Import Prelude Machine Sleeplock BlockCache Bio Log.
Local Open Scope Z_scope.

(** The log as mkfs places it: 30 blocks from block 2 on. *)
Definition demo_log (bl : list Z) : log :=
  Log 2 30 1 0 ROOTDEV (Z.of_nat (length bl)) (list_to_map (imap (fun i b => (Z.of_nat i, b)) bl)).

Lemma demo_log_ok : log_ok (demo_log [100]) [100].
Proof.
  split; [done|cbn; lia|cbn; lia|done|cbn; lia|cbn; unfold LOGSIZE, MAXOPBLOCKS; lia| |apply NoDup_singleton|].
  - intros [|t] bn Ht; [by injection Ht as <-|done].
  - intros bn ->%list_elem_of_singleton. cbn. lia.
Qed.

Lemma demo_free : cache_free (Ctx [] []).
Proof. split; [apply not_elem_of_nil|intros; apply not_elem_of_nil]. Qed.

(** A cache in which block 100 was changed and is pinned. *)
Lemma demo_pinned : exists (k : bio) a, bc_rep k a /\ pinned (cs_refs a) [100] /\
  cs_disk a = ∅ /\ cs_view a 100 = {[ 0 := 7 ]}.
Proof.
  destruct (binit_rep (Ctx [] []) ∅ 1) as (k0 & _ & R0).
  destruct (bc_bread_miss (Ctx [] []) k0 _ 100 R0 demo_free) as (i & k1 & _ & R1); [done|vm_compute; lia|].
  destruct (bc_set_data_ok (Ctx [] []) k1 _ 100 i 1 {[ 0 := 7 ]} R1) as (k2 & _ & R2); [done|].
  destruct (bc_bpin_ok (Ctx [] []) k2 _ 100 i 1 true R2) as (k3 & _ & R3); [apply demo_free|done|lia|].
  destruct (bc_brelse_ok (Ctx [] []) k3 _ 100 i 2 R3 demo_free) as (c4 & k4 & _ & _ & R4); [done|done|].
  eexists k4, _. split; [exact R4|]. split; [|done]. split.
  - intros bn ->%list_elem_of_singleton. by exists i.
  - intros bn r Hr. destruct (decide (bn = 100)) as [->|Hne]; [set_solver|]. exfalso. revert Hr. cbn.
    rewrite !lookup_insert_ne by done. by rewrite lookup_empty.
Qed.

Lemma commit_crash_safe_witness : exists (k : bio) c' k',
  commit (Ctx [] []) (Fsys (demo_log [100]) k) = Ok tt c' (Fsys (set_n 0 (demo_log [100])) k').
Proof.
  destruct demo_pinned as (k & a & R & Hp & Hd & _).
  destruct (commit_crash_safe (Ctx [] []) (demo_log [100]) k a [100] demo_log_ok R demo_free Hp)
    as (c' & k' & a' & ws & Hrun & _).
  - vm_compute. lia.
  - rewrite Hd. split; [done|]. intros t bn Ht. done.
  - by exists k, c', k'.
Defined.

Lemma demo_empty_header : header_is (on_disk ∅ 2) [].
Proof. split; [done|]. intros t bn Ht. done. Qed.

Lemma demo_recovers : recovers_to (demo_log [100]) ∅ (on_disk ∅).
Proof.
  apply (recovers_empty _ [100]); [by apply log_blocks_ok, demo_log_ok|apply demo_empty_header|done].
Qed.

Lemma recovery_crash_safe_witness : exists (k : bio) g' c' k',
  initlog ROOTDEV 2 30 (Ctx [] []) (Fsys (demo_log []) k) = Ok tt c' (Fsys g' k') /\ lh_n g' = 0.
Proof.
  destruct (binit_rep (Ctx [] []) ∅ 1) as (k & _ & R).
  destruct (recovery_crash_safe (Ctx [] []) (demo_log []) k _ (demo_log [100]) (on_disk ∅) R demo_free eq_refl)
    as (c' & g' & k' & a' & ws & Hr & _ & Hn & _); [vm_compute; lia|apply demo_recovers|].
  by exists k, g', c', k'.
Defined.

Lemma begin_op_correct_witness :
  begin_op (Ctx [] []) (Fsys (demo_log []) (bio0 ∅ 1)) =
  Ok tt (Ctx [] []) (Fsys (set_outstanding 2 (demo_log [])) (bio0 ∅ 1)).
Proof. apply (begin_op_correct (Ctx [] []) (Fsys (demo_log []) (bio0 ∅ 1)) eq_refl). Defined.

Lemma log_write_correct_witness : exists (k : bio) b g' k',
  log_write b (Ctx [] []) (Fsys (demo_log []) k) = Ok tt (Ctx [] []) (Fsys g' k') /\ log_ok g' [100].
Proof.
  destruct (binit_rep (Ctx [] []) ∅ 1) as (k0 & _ & R0).
  destruct (bc_bread_miss (Ctx [] []) k0 _ 100 R0 demo_free) as (i & k1 & _ & R1); [done|vm_compute; lia|].
  assert (log_ok (demo_log []) []) as G.
  { split; [done|cbn; lia|cbn; lia|done|cbn; lia|done|done|constructor|]. intros bn ?%elem_of_nil. done. }
  destruct (log_write_correct (Ctx [] []) (demo_log []) k1 _ [] i 100 1 true G R1) as (g' & k' & Hr & _ & _ & _ & _ & Hc);
    [apply not_elem_of_nil|apply not_elem_of_nil|done|lia|lia|unfold outside_log; cbn; lia|].
  exists k1, i, g', k'. split; [exact Hr|]. destruct (decide _) as [E|_] in Hc; [by apply elem_of_nil in E|]. apply Hc.
Defined.

Lemma log_reservation_gap_witness :
  log_write 0 (Ctx [] []) (Fsys (demo_log (replicate 29 100)) (bio0 ∅ 1)) = Panic "too big a transaction".
Proof.
  apply (proj2 (log_reservation_gap (Ctx [] []) (Fsys (Log 2 30 0 0 ROOTDEV 0 ∅) (bio0 ∅ 1))
    (demo_log (replicate 29 100)) 0 eq_refl eq_refl eq_refl eq_refl eq_refl)); reflexivity.
Defined.

Lemma end_op_correct_witness : exists (k : bio) c' g' k',
  end_op (Ctx [] []) (Fsys (demo_log [100]) k) = Ok tt c' (Fsys g' k') /\ log_ok g' [].
Proof.
  destruct demo_pinned as (k & a & R & Hp & _).
  destruct (end_op_correct (Ctx [] []) (demo_log [100]) k a [100] demo_log_ok R eq_refl eq_refl Hp)
    as (c' & g' & k' & a' & Hr & _ & _ & _ & _ & G & _); [vm_compute; lia|].
  by exists k, c', g', k'.
Defined.

Lemma bread_correct_witness : exists s i s',
  bread ROOTDEV 5 (Ctx [] []) s = Ok i (Ctx [] []) s' /\ data (get_buf s' i) = ∅.
Proof.
  destruct (binit_run (Ctx [] []) ∅ 1) as (s & l & _ & I & _ & Hz & Hv). exists s.
  destruct (bread_correct (Ctx [] []) s l 5 I eq_refl) as [H _].
  destruct H as (i & s' & Hr & _ & RA).
  - destruct (lookup_buf s 5) as [i|] eqn:E.
    + apply (lookup_buf_Some s l 5 i I) in E. left. exists i. rewrite (Hz i (proj1 E)). split; [done|]. split; [|lia].
      destruct (Z.eq_dec (sl_locked (b_lock (get_buf s i))) 0) as [|Hl]; [done|].
      pose proof (bi_lock _ _ I i (proj1 E) Hl) as Hp. rewrite (Hz i (proj1 E)) in Hp. lia.
    + right. split; [by apply lookup_buf_None|]. exists 0%nat. split; [rewrite nbuf_val; lia|]. apply Hz. rewrite nbuf_val. lia.
  - exists i, s'. split; [exact Hr|]. rewrite (ra_data _ _ _ _ RA), Hv. done.
Defined.
