(* ===== verification/Pipe.v ===== *)
(** Pipes (kernel/pipe.c).

    The counters nread and nwrite are 32-bit and wrap; the buffer is indexed by
    them modulo PIPESIZE.  The loops of pipewrite() and piperead() keep a local
    index while they sleep, so each is a segment that runs from where the lock was
    taken to the next sleep or return: [PSleep ch i] is a process that sleeps on
    [ch] and goes on with index [i] when it runs again.

    [pipe_rep] reads the ring buffer as a queue; the theorems show that a write
    segment appends bytes of the writer's memory to the queue and a read
    segment moves bytes from its front to the reader's memory, and that over
    any interleaving of segments no byte is duplicated or reordered, nor lost unless a reader cannot store it. *)
From S2P Require Import Prelude Machine CString Kalloc Vm PageTable UserMem UserCopy.
Local Open Scope Z_scope.

Definition PIPESIZE : Z := 512.

Record pipe : Type := Pipe {
  pdata : gmap Z Z;
  nread : Z;
  nwrite : Z;
  readopen : Z;
  writeopen : Z;
}.

(** A pipe, physical memory, and the killed flag of the running process. *)
Record pst : Type := PSt { the_pipe : pipe; the_mem : pmem; is_killed : bool }.

Inductive pout : Type :=
| PRet (r : Z)
| PSleep (ch : chan) (i : Z).

Definition mem_lens : lens pst pmem := Lens the_mem (fun m s => PSt (the_pipe s) m (is_killed s)).
Definition modpipe (f : pipe -> pipe) : M pst unit :=
  modifyM (fun s => PSt (f (the_pipe s)) (the_mem s) (is_killed s)).

Definition put_byte (ch : Z) (p : pipe) : pipe :=
  Pipe (<[nwrite p mod PIPESIZE := ch]> (pdata p)) (nread p) (u32 (nwrite p + 1)) (readopen p) (writeopen p).
Definition next_byte (p : pipe) : Z := default 0 (pdata p !! (nread p mod PIPESIZE)).
Definition take_byte (p : pipe) : pipe :=
  Pipe (pdata p) (u32 (nread p + 1)) (nwrite p) (readopen p) (writeopen p).

(** What pipealloc() makes of a page; the data is what the page held. *)
Definition fresh_pipe (d : gmap Z Z) : pipe := Pipe d 0 0 1 1.

Section Pipe.
Context `{KI : KernelImage}.

(** [pi] is the address of the pipe, [root] the page table of the process. *)
Variables (pi root addr n : Z).

Definition pipewrite_done (i : Z) : M pst pout :=
  wakeup_ev (Ch_pipe_nread pi) ;;! release (L_pipe pi) ;;! retM (PRet i).

Fixpoint pipewrite_loop (fuel : nat) (i : Z) : M pst pout :=
  if i <? n then
    match fuel with
    | O => diverge
    | S f =>
        s <-! getM ;;
        let p := the_pipe s in
        if (readopen p =? 0) || is_killed s then
          release (L_pipe pi) ;;! retM (PRet (-1))
        else if nwrite p =? u32 (nread p + PIPESIZE) then
          wakeup_ev (Ch_pipe_nread pi) ;;!
          goto_sleep (L_pipe pi) ;;!
          retM (PSleep (Ch_pipe_nwrite pi) i)
        else
          r <-! zoom mem_lens (copyin root (u64 (addr + i)) 1) ;;
          if fst r =? -1 then pipewrite_done i
          else
            modpipe (put_byte (hd 0 (snd r))) ;;!
            pipewrite_loop f (i + 1)
    end
  else pipewrite_done i.

Definition pipewrite_from (i : Z) : M pst pout :=
  acquire (L_pipe pi) ;;! pipewrite_loop (Z.to_nat (n - i)) i.
Definition pipewrite : M pst pout := pipewrite_from 0.

Definition piperead_done (i : Z) : M pst pout :=
  wakeup_ev (Ch_pipe_nwrite pi) ;;! release (L_pipe pi) ;;! retM (PRet i).

Fixpoint piperead_copy (fuel : nat) (i : Z) : M pst pout :=
  if i <? n then
    match fuel with
    | O => diverge
    | S f =>
        s <-! getM ;;
        let p := the_pipe s in
        if nread p =? nwrite p then piperead_done i
        else
          modpipe take_byte ;;!
          r <-! zoom mem_lens (copyout root (u64 (addr + i)) [next_byte p]) ;;
          if r =? -1 then piperead_done i else piperead_copy f (i + 1)
    end
  else piperead_done i.

(** The first loop waits; it has no local state, so a woken reader starts over. *)
Definition piperead : M pst pout :=
  acquire (L_pipe pi) ;;!
  s <-! getM ;;
  let p := the_pipe s in
  if (nread p =? nwrite p) && negb (writeopen p =? 0) then
    if is_killed s then release (L_pipe pi) ;;! retM (PRet (-1))
    else goto_sleep (L_pipe pi) ;;! retM (PSleep (Ch_pipe_nread pi) 0)
  else piperead_copy (Z.to_nat n) 0.

Definition pipeclose (writable : bool) : M pst unit :=
  acquire (L_pipe pi) ;;!
  (if writable then
     modpipe (fun p => Pipe (pdata p) (nread p) (nwrite p) (readopen p) 0) ;;!
     wakeup_ev (Ch_pipe_nread pi)
   else
     modpipe (fun p => Pipe (pdata p) (nread p) (nwrite p) 0 (writeopen p)) ;;!
     wakeup_ev (Ch_pipe_nwrite pi)) ;;!
  s <-! getM ;;
  if (readopen (the_pipe s) =? 0) && (writeopen (the_pipe s) =? 0) then
    release (L_pipe pi) ;;! zoom mem_lens (kfree pi)
  else release (L_pipe pi).
End Pipe.

(** ** The ring buffer as a queue *)

Record pipe_rep (p : pipe) (q : list Z) : Prop := {
  pr_nread : 0 <= nread p < 2 ^ 32;
  pr_nwrite : nwrite p = u32 (nread p + Z.of_nat (length q));
  pr_len : Z.of_nat (length q) <= PIPESIZE;
  pr_at : forall i b, q !! i = Some b ->
    pdata p !! (u32 (nread p + Z.of_nat i) mod PIPESIZE) = Some b;
}.

(** 2^32 is a multiple of PIPESIZE, so positions survive the wrap of the counters. *)
Lemma ring_index a : u32 a mod PIPESIZE = a mod PIPESIZE.
Proof.
  unfold u32, PIPESIZE. zlia.
Qed.

Lemma pipe_empty p q : pipe_rep p q -> (nread p =? nwrite p) = bool_decide (q = []).
Proof.
  intros [Hr Hw Hl _]. rewrite Hw. unfold PIPESIZE in Hl. destruct q as [|b q]; cbn [length] in *.
  - rewrite Z.add_0_r, u32_small by lia. rewrite Z.eqb_refl. by rewrite bool_decide_true.
  - rewrite bool_decide_false by done. destruct (Z.eqb_spec (nread p) (u32 (nread p + Z.of_nat (S (length q))))) as [E|]; [|done].
    exfalso. unfold u32 in E. zlia.
Qed.

Lemma pipe_full p q : pipe_rep p q -> (nwrite p =? u32 (nread p + PIPESIZE)) = (Z.of_nat (length q) =? PIPESIZE).
Proof.
  intros [Hr Hw Hl _]. rewrite Hw. unfold PIPESIZE in *.
  destruct (Z.eqb_spec (Z.of_nat (length q)) 512) as [->|Hne]; [apply Z.eqb_refl|].
  destruct (Z.eqb_spec (u32 (nread p + Z.of_nat (length q))) (u32 (nread p + 512))) as [E|]; [|done].
  exfalso. unfold u32 in E. zlia.
Qed.

Lemma u32_add a b : u32 (u32 a + b) = u32 (a + b).
Proof. unfold u32. by rewrite Zplus_mod_idemp_l. Qed.

Lemma put_byte_rep p q b : pipe_rep p q -> Z.of_nat (length q) < PIPESIZE -> pipe_rep (put_byte b p) (q ++ [b]).
Proof.
  intros [Hr Hw Hl Ha] Hlt. split; cbn [put_byte nread nwrite pdata].
  - done.
  - rewrite Hw, u32_add, length_app. cbn. f_equal. lia.
  - rewrite length_app. cbn. lia.
  - intros i c [Hi|[Hge Hi]]%lookup_app_Some.
    + rewrite lookup_insert_ne; [by apply Ha|]. apply lookup_lt_Some in Hi.
      rewrite Hw, !ring_index. unfold PIPESIZE in *. zlia.
    + apply list_lookup_singleton_Some in Hi as [Hz <-]. replace i with (length q) by lia.
      rewrite Hw. by rewrite lookup_insert_eq.
Qed.

Lemma take_byte_rep p b q : pipe_rep p (b :: q) -> next_byte p = b /\ pipe_rep (take_byte p) q.
Proof.
  intros [Hr Hw Hl Ha]. split.
  - unfold next_byte. pose proof (Ha 0%nat b eq_refl) as H. rewrite Z.add_0_r, u32_small in H by lia. by rewrite H.
  - split; cbn [take_byte nread nwrite pdata].
    + apply u32_range.
    + rewrite Hw, u32_add. cbn. f_equal. lia.
    + cbn in Hl. lia.
    + intros i c Hi. rewrite u32_add. replace (nread p + 1 + Z.of_nat i) with (nread p + Z.of_nat (S i)) by lia.
      by apply Ha.
Qed.

(** ** The segments *)

Lemma read_user_S m tr va k : read_user m tr va (S k) =
  match tr va with
  | None => (false, [])
  | Some a => let '(ok, bs) := read_user m tr (va + 1) k in (ok, mget m a :: bs)
  end.
Proof. done. Qed.

(** How many bytes of [bs] are stored before an address does not translate. *)
Fixpoint stored (tr : Z -> option Z) (va : Z) (bs : list Z) : nat :=
  match bs with
  | [] => 0
  | _ :: bs' => match tr va with None => 0 | Some _ => S (stored tr (va + 1) bs') end
  end.

(** Bytes that leave the pipe: a byte that could not be stored is gone too. *)
Definition taken (tr : Z -> option Z) (va : Z) (bs : list Z) : nat :=
  Nat.min (length bs) (S (stored tr va bs)).

Definition same_ends (p p' : pipe) : Prop :=
  readopen p' = readopen p /\ writeopen p' = writeopen p.

Section Segments.
Context `{KI : KernelImage}.
Variables (pi root addr n : Z) (T : gmap (list Z) Z) (L : gmap Z Z).
Hypothesis Hown : user_own L.
Hypothesis Haddr : 0 <= addr.
Hypothesis Hend : addr + n < 2 ^ 64.

Abbreviation Lk := (L_pipe pi).
Abbreviation R := (Ch_pipe_nread pi).
Abbreviation W := (Ch_pipe_nwrite pi).

Lemma copyin1 c s fl va : as_inv s fl root T L -> 0 <= va ->
  copyin root va 1 c s =
  match uaddr PTE_U L va with
  | Some a => Ok (0, [mget (pm_mem s) a]) c s
  | None => Ok (-1, []) c s
  end.
Proof.
  intros Hi Hva. unfold copyin. rewrite (copyin_loop_run _ c s fl root T L) by (done || lia).
  change (Z.to_nat 1) with 1%nat. cbn [read_user]. by destruct (uaddr PTE_U L va).
Qed.

Lemma copyout1 c s fl va b : as_inv s fl root T L -> 0 <= va ->
  match uaddr PTE_WU L va with
  | Some a => copyout root va [b] c s = Ok 0 c (PMem (mset (pm_mem s) a b) (freelist s)) /\
              as_inv (PMem (mset (pm_mem s) a b) (freelist s)) fl root T L
  | None => copyout root va [b] c s = Ok (-1) c s
  end.
Proof.
  intros Hi Hva. destruct (copyout_loop_run 1 c s fl root T L va [b] Hi Hown Hva ltac:(cbn; lia)) as [E Hi'].
  cbn [write_user] in *. unfold copyout. destruct (uaddr PTE_WU L va); [done|].
  change (length [b]) with 1%nat. rewrite E. by destruct s.
Qed.

Lemma pipewrite_done_run o i s :
  pipewrite_done pi i (Ctx [Lk] o) s = Ok (PRet i) (Ctx [] (EvWakeup R :: o)) s.
Proof. unfold pipewrite_done, wakeup_ev. by mrun. Qed.

Lemma piperead_done_run o i s :
  piperead_done pi i (Ctx [Lk] o) s = Ok (PRet i) (Ctx [] (EvWakeup W :: o)) s.
Proof. unfold piperead_done, wakeup_ev. by mrun. Qed.

(** The copying part of pipewrite, with both ends open. *)
Lemma pipewrite_loop_run fuel : forall o p m q fl i,
  as_inv m fl root T L -> pipe_rep p q -> readopen p <> 0 -> 0 <= i <= n -> n - i <= Z.of_nat fuel ->
  let room := PIPESIZE - Z.of_nat (length q) in
  let '(ok, bs) := read_user (pm_mem m) (uaddr PTE_U L) (addr + i) (Z.to_nat (Z.min (n - i) room)) in
  let j := i + Z.of_nat (length bs) in
  exists p', pipe_rep p' (q ++ bs) /\ same_ends p p' /\
    pipewrite_loop pi root addr n fuel i (Ctx [Lk] o) (PSt p m false) =
    Ok (if ok && (j <? n) then PSleep W j else PRet j) (Ctx [] (EvWakeup R :: o)) (PSt p' m false).
Proof.
  induction fuel as [|fuel IH]; intros o p m q fl i Hi Hp Ho Hr Hf room; cbn [pipewrite_loop].
  { destruct (Z.ltb_spec i n); [lia|]. replace (Z.to_nat (Z.min (n - i) room)) with 0%nat by lia.
    cbn [read_user length]. cbv zeta. rewrite Z.add_0_r. destruct (Z.ltb_spec i n); [lia|].
    exists p. rewrite app_nil_r, pipewrite_done_run. done. }
  pose proof (pr_len _ _ Hp) as Hl. destruct (Z.ltb_spec i n) as [Hlt|Hge].
  2:{ replace (Z.to_nat (Z.min (n - i) room)) with 0%nat by lia. cbn [read_user length]. cbv zeta.
      rewrite Z.add_0_r. destruct (Z.ltb_spec i n); [lia|]. exists p. rewrite app_nil_r, pipewrite_done_run. done. }
  unfold wakeup_ev, modpipe. mrun. cbn [the_pipe is_killed].
  destruct (Z.eqb_spec (readopen p) 0); [done|]. cbn [orb]. rewrite (pipe_full _ _ Hp).
  destruct (Z.eqb_spec (Z.of_nat (length q)) PIPESIZE) as [Efull|Hroom].
  { replace (Z.to_nat (Z.min (n - i) room)) with 0%nat by lia. cbn [read_user length]. cbv zeta.
    rewrite Z.add_0_r. destruct (Z.ltb_spec i n); [|lia]. mrun. exists p. by rewrite app_nil_r. }
  replace (Z.to_nat (Z.min (n - i) room)) with (S (Z.to_nat (Z.min (n - (i + 1)) (room - 1)))) by lia.
  rewrite read_user_S, u64_small by lia. unfold bindM at 1, zoom. cbn [lget lput mem_lens the_mem].
  rewrite (copyin1 _ _ fl) by (done || lia). destruct (uaddr PTE_U L (addr + i)) as [a|]; cbn [fst snd hd Z.eqb Pos.eqb].
  - mrun. cbn [the_pipe the_mem is_killed].
    specialize (IH o (put_byte (mget (pm_mem m) a) p) m (q ++ [mget (pm_mem m) a]) fl (i + 1) Hi
      (put_byte_rep _ _ _ Hp ltac:(lia)) Ho ltac:(lia) ltac:(lia)).
    rewrite length_app in IH. cbn [length] in IH. cbv zeta in IH.
    replace (PIPESIZE - Z.of_nat (length q + 1)) with (room - 1) in IH by lia.
    replace (addr + (i + 1)) with (addr + i + 1) in IH by lia.
    destruct (read_user _ _ (addr + i + 1) _) as [ok bs]. destruct IH as (p' & Hp' & Hs & E).
    cbv zeta. cbn [length]. replace (i + Z.of_nat (S (length bs))) with (i + 1 + Z.of_nat (length bs)) by lia.
    exists p'. rewrite <- app_assoc in Hp'. split; [done|]. split; [by destruct Hs|]. exact E.
  - cbv zeta. cbn [length andb]. rewrite Z.add_0_r. rewrite pipewrite_done_run. exists p. by rewrite app_nil_r.
Qed.

(** The copying part of piperead. *)
Lemma piperead_copy_run fuel : forall o p m q fl i k,
  as_inv m fl root T L -> pipe_rep p q -> 0 <= i -> n - i <= Z.of_nat fuel -> i <= n \/ i = 0 ->
  let bs := take (Z.to_nat (n - i)) q in
  let w := write_user (pm_mem m) (uaddr PTE_WU L) (addr + i) bs in
  let j := i + Z.of_nat (stored (uaddr PTE_WU L) (addr + i) bs) in
  let m' := PMem (snd w) (freelist m) in
  exists p', pipe_rep p' (drop (taken (uaddr PTE_WU L) (addr + i) bs) q) /\ same_ends p p' /\
    as_inv m' fl root T L /\
    piperead_copy pi root addr n fuel i (Ctx [Lk] o) (PSt p m k) =
    Ok (PRet j) (Ctx [] (EvWakeup W :: o)) (PSt p' m' k).
Proof.
  induction fuel as [|fuel IH]; intros o p m q fl i k Hi Hp H0 Hf Hin; cbn [piperead_copy];
    (destruct (Z.ltb_spec i n) as [Hlt|Hge];
     [|replace (Z.to_nat (n - i)) with 0%nat by lia; unfold taken; cbn [take write_user stored length Nat.min snd]; rewrite drop_0, Z.add_0_r;
       exists p; destruct m; split_and!; try done; by rewrite piperead_done_run]); [lia|].
  unfold modpipe. rewrite bind_get. cbn [the_pipe].
  rewrite (pipe_empty _ _ Hp). replace (Z.to_nat (n - i)) with (S (Z.to_nat (n - (i + 1)))) by lia.
  destruct q as [|b q]; [rewrite bool_decide_true by done|rewrite bool_decide_false by done].
  { unfold taken. cbn [take write_user stored length Nat.min snd]. rewrite Z.add_0_r. exists p. destruct m. split_and!; try done. by rewrite piperead_done_run. }
  destruct (take_byte_rep _ _ _ Hp) as [-> Hp']. cbn [take].
  pose proof (fun c => copyout1 c m fl (addr + i) b Hi ltac:(lia)) as Hc.
  unfold taken. cbn [write_user stored length]. destruct (uaddr PTE_WU L (addr + i)) as [a|].
  - destruct (Hc (Ctx [] [])) as [_ Hi']. specialize (IH o (take_byte p) _ q fl (i + 1) k Hi' Hp' ltac:(lia) ltac:(lia) ltac:(lia)).
    cbv zeta in IH. replace (addr + (i + 1)) with (addr + i + 1) in IH by lia. cbn [pm_mem freelist] in IH.
    destruct IH as (p' & Hq & Hs & Ha & E). exists p'. cbn [Nat.min drop].
    split_and!; [exact Hq|by destruct Hs..|exact Ha|].
    rewrite bind_modify. cbn [the_pipe the_mem is_killed].
    unfold bindM, zoom. cbn [lget lput mem_lens the_mem the_pipe is_killed]. rewrite u64_small by lia.
    rewrite (proj1 (Hc _)). cbn [Z.eqb]. rewrite E. f_equal. f_equal. lia.
  - exists (take_byte p). rewrite (Nat.min_r _ 1) by lia. cbn [drop snd]. rewrite drop_0, Z.add_0_r. destruct m as [mm fr]. split_and!; try done.
    rewrite bind_modify. cbn [the_pipe the_mem is_killed].
    unfold bindM at 1, zoom. cbn [lget lput mem_lens the_mem the_pipe is_killed]. rewrite u64_small by lia.
    rewrite Hc. cbn [Z.eqb Pos.eqb]. by rewrite piperead_done_run.
Qed.

(** What a segment of pipewrite does. *)
Lemma pipewrite_seg o p m k q fl i :
  as_inv m fl root T L -> pipe_rep p q -> 0 <= i <= n ->
  if (i <? n) && ((readopen p =? 0) || k) then
    pipewrite_from pi root addr n i (Ctx [] o) (PSt p m k) = Ok (PRet (-1)) (Ctx [] o) (PSt p m k)
  else
    let room := PIPESIZE - Z.of_nat (length q) in
    let '(ok, bs) := read_user (pm_mem m) (uaddr PTE_U L) (addr + i) (Z.to_nat (Z.min (n - i) room)) in
    let j := i + Z.of_nat (length bs) in
    exists p', pipe_rep p' (q ++ bs) /\ same_ends p p' /\
      pipewrite_from pi root addr n i (Ctx [] o) (PSt p m k) =
      Ok (if ok && (j <? n) then PSleep W j else PRet j) (Ctx [] (EvWakeup R :: o)) (PSt p' m k).
Proof.
  intros Hi Hp Hr. unfold pipewrite_from. rewrite bind_acquire by set_solver. cbn [held out].
  destruct (Z.ltb_spec i n) as [Hlt|Hge]; cbn [andb].
  - destruct (Z.eqb_spec (readopen p) 0) as [E|E]; [|destruct k]; cbn [orb].
    1,2: destruct (Z.to_nat (n - i)) eqn:En; [lia|]; cbn [pipewrite_loop];
      destruct (Z.ltb_spec i n); [|lia]; mrun; cbn [the_pipe is_killed];
      destruct (Z.eqb_spec (readopen p) 0); try done; cbn [orb]; by mrun.
    apply (pipewrite_loop_run _ o p m q fl i); done || lia.
  - assert (i = n) as -> by lia. replace (Z.to_nat (n - n)) with 0%nat by lia. cbn [pipewrite_loop].
    pose proof (pr_len _ _ Hp) as Hl. replace (Z.to_nat (Z.min (n - n) _)) with 0%nat by lia.
    cbn [read_user length andb]. cbv zeta. rewrite Z.add_0_r, Z.ltb_irrefl. exists p.
    rewrite app_nil_r, pipewrite_done_run. done.
Qed.

(** What a segment of piperead does. *)
Lemma piperead_seg o p m k q fl :
  as_inv m fl root T L -> pipe_rep p q ->
  if bool_decide (q = []) && negb (writeopen p =? 0) then
    piperead pi root addr n (Ctx [] o) (PSt p m k) =
    Ok (if k then PRet (-1) else PSleep R 0) (Ctx [] o) (PSt p m k)
  else
    let bs := take (Z.to_nat n) q in
    let m' := PMem (snd (write_user (pm_mem m) (uaddr PTE_WU L) addr bs)) (freelist m) in
    exists p', pipe_rep p' (drop (taken (uaddr PTE_WU L) addr bs) q) /\ same_ends p p' /\
      as_inv m' fl root T L /\
      piperead pi root addr n (Ctx [] o) (PSt p m k) =
      Ok (PRet (Z.of_nat (stored (uaddr PTE_WU L) addr bs))) (Ctx [] (EvWakeup W :: o)) (PSt p' m' k).
Proof.
  intros Hi Hp. unfold piperead. rewrite bind_acquire by set_solver. mrun. cbn [the_pipe is_killed].
  rewrite (pipe_empty _ _ Hp). destruct (bool_decide (q = []) && negb (writeopen p =? 0)).
  - destruct k; by mrun.
  - pose proof (piperead_copy_run (Z.to_nat n) o p m q fl 0 k Hi Hp ltac:(lia) ltac:(lia) ltac:(lia)) as H.
    cbv zeta in H. by rewrite Z.add_0_r, Z.sub_0_r in H.
Qed.
(** pipewrite, from entry or from a wakeup with i bytes already written.  Unless the read end
    is closed or the process killed (then -1), it appends to the queue the bytes of the
    writer's memory from addr+i on, as many as there is room for, are asked for and can be
    read; it wakes the readers; and it goes to sleep on nwrite exactly when the pipe is full with
    bytes left to write, and otherwise returns the number of bytes written in all. *)
Theorem pipewrite_correct o p m k q fl i :
  as_inv m fl root T L -> pipe_rep p q -> 0 <= i <= n ->
  if (i <? n) && ((readopen p =? 0) || k) then
    pipewrite_from pi root addr n i (Ctx [] o) (PSt p m k) = Ok (PRet (-1)) (Ctx [] o) (PSt p m k)
  else
    let room := PIPESIZE - Z.of_nat (length q) in
    let '(ok, bs) := read_user (pm_mem m) (uaddr PTE_U L) (addr + i) (Z.to_nat (Z.min (n - i) room)) in
    let j := i + Z.of_nat (length bs) in
    exists p', pipe_rep p' (q ++ bs) /\ same_ends p p' /\
      pipewrite_from pi root addr n i (Ctx [] o) (PSt p m k) =
      Ok (if ok && (j <? n) then PSleep W j else PRet j) (Ctx [] (EvWakeup R :: o)) (PSt p' m k).
Proof. apply pipewrite_seg. Qed.

(** piperead.  With the queue empty and the write end open it returns -1 when the process is
    killed and otherwise goes to sleep on nread.  In every other case it returns, with the writers
    woken: it stores the first min(n, length) bytes of the queue in the reader's memory, up to
    the first address the reader cannot write, and returns how many it stored; these bytes leave
    the queue, and so does the one that could not be stored. *)
Theorem piperead_correct o p m k q fl :
  as_inv m fl root T L -> pipe_rep p q ->
  if bool_decide (q = []) && negb (writeopen p =? 0) then
    piperead pi root addr n (Ctx [] o) (PSt p m k) =
    Ok (if k then PRet (-1) else PSleep R 0) (Ctx [] o) (PSt p m k)
  else
    let bs := take (Z.to_nat n) q in
    let m' := PMem (snd (write_user (pm_mem m) (uaddr PTE_WU L) addr bs)) (freelist m) in
    exists p', pipe_rep p' (drop (taken (uaddr PTE_WU L) addr bs) q) /\ same_ends p p' /\
      as_inv m' fl root T L /\
      piperead pi root addr n (Ctx [] o) (PSt p m k) =
      Ok (PRet (Z.of_nat (stored (uaddr PTE_WU L) addr bs))) (Ctx [] (EvWakeup W :: o)) (PSt p' m' k).
Proof. apply piperead_seg. Qed.
End Segments.

(** ** The byte stream *)

(** The index a segment stopped at. *)
Definition upto (r : pout) : Z := match r with PRet j => j | PSleep _ j => j end.

Section Stream.
Context `{KI : KernelImage}.
Variable pi : Z.

(** Does a read that stopped at index [j] of its buffer drop a byte?  It has taken the next byte out of the pipe before copyout()
    finds that the reader cannot write it. *)
Definition drops (L : gmap Z Z) (addr n : Z) (p : pipe) (j : nat) : bool :=
  (Z.of_nat j <? n) && bool_decide (uaddr PTE_WU L (addr + Z.of_nat j) = None) && negb (nwrite p =? u32 (nread p + Z.of_nat j)).

(** A pipe with all that was ever written to it and all that ever left it:
    segments of any processes, each with its own page table, in any order, the
    memory of the machine changing freely in between.  The written bytes are those of
    the writer's memory; a byte that left the pipe is [Some b], with the [b] that the reader then finds in its buffer, or
    [None] when the read dropped it. *)
Inductive pipe_step : pipe * list Z * list (option Z) -> pipe * list Z * list (option Z) -> Prop :=
| step_write p p' ws rs root addr n i T L m fl k o r c' :
    user_own L -> as_inv m fl root T L -> 0 <= addr -> addr + n < 2 ^ 64 -> 0 <= i <= n ->
    pipewrite_from pi root addr n i (Ctx [] o) (PSt p m k) = Ok r c' (PSt p' m k) ->
    pipe_step (p, ws, rs)
      (p', ws ++ snd (read_user (pm_mem m) (uaddr PTE_U L) (addr + i) (Z.to_nat (upto r - i))), rs)
| step_read p p' ws rs root addr n T L m m' fl k o r c' :
    user_own L -> as_inv m fl root T L -> 0 <= addr -> addr + n < 2 ^ 64 ->
    piperead pi root addr n (Ctx [] o) (PSt p m k) = Ok r c' (PSt p' m' k) ->
    pipe_step (p, ws, rs)
      (p', ws, rs ++ map Some (snd (read_user (pm_mem m') (uaddr PTE_WU L) addr (Z.to_nat (upto r)))) ++
               (if drops L addr n p (Z.to_nat (upto r)) then [None] else []))
| step_close p p' ws rs writable m m' k o c' :
    pipeclose pi writable (Ctx [] o) (PSt p m k) = Ok tt c' (PSt p' m' k) ->
    pipe_step (p, ws, rs) (p', ws, rs).

Inductive pipe_reach : pipe * list Z * list (option Z) -> Prop :=
| reach_fresh d : pipe_reach (fresh_pipe d, [], [])
| reach_next x y : pipe_reach x -> pipe_step x y -> pipe_reach y.

(** Delivered as written, or dropped. *)
Definition delivered (r : option Z) (b : Z) : Prop := r = Some b \/ r = None.

Definition stream_inv (x : pipe * list Z * list (option Z)) : Prop :=
  exists cs q, pipe_rep (fst (fst x)) q /\ snd (fst x) = cs ++ q /\ Forall2 delivered (snd x) cs /\ Forall (fun b => 0 <= b < 256) q.

Lemma read_user_bytes m tr n : forall va, Forall (fun b => 0 <= b < 256) (snd (read_user m tr va n)).
Proof.
  induction n as [|n IH]; intros va; cbn [read_user]; [constructor|].
  destruct (tr va); [|constructor]. specialize (IH (va + 1)). destruct (read_user m tr (va + 1) n).
  constructor; [apply mget_range|done].
Qed.

Lemma read_user_length m tr n : forall va,
  snd (read_user m tr va (length (snd (read_user m tr va n)))) = snd (read_user m tr va n).
Proof.
  induction n as [|n IH]; intros va; cbn [read_user]; [done|]. destruct (tr va) eqn:E; [|done].
  specialize (IH (va + 1)). destruct (read_user m tr (va + 1) n) as [ok bs]. cbn [length snd] in *.
  cbn [read_user]. rewrite E. destruct (read_user m tr (va + 1) (length bs)). cbn in *. by rewrite IH.
Qed.

Lemma delivered_all l : Forall2 delivered (map Some l) l.
Proof. induction l; cbn [map]; constructor; [by left|done]. Qed.

Lemma stored_le tr bs : forall va, (stored tr va bs <= length bs)%nat.
Proof. induction bs as [|b bs IH]; intros va; cbn [stored length]; [lia|]. destruct (tr va); [|lia]. specialize (IH (va + 1)). lia. Qed.

Lemma stored_stop tr bs : forall va, (stored tr va bs < length bs)%nat -> tr (va + Z.of_nat (stored tr va bs)) = None.
Proof.
  induction bs as [|b bs IH]; intros va H; cbn [stored length] in *; [lia|]. destruct (tr va) eqn:E; [|by rewrite Z.add_0_r].
  replace (va + Z.of_nat (S (stored tr (va + 1) bs))) with (va + 1 + Z.of_nat (stored tr (va + 1) bs)) by lia. apply IH. lia.
Qed.

(** Only the bytes that can be stored are. *)
Lemma write_user_stored tr bs : forall m va, let k := stored tr va bs in
  fst (write_user m tr va (take k bs)) = true /\ snd (write_user m tr va bs) = snd (write_user m tr va (take k bs)).
Proof.
  induction bs as [|b bs IH]; intros m va; cbn [stored take write_user]; [done|].
  destruct (tr va) as [a|] eqn:E; cbn [take write_user]; [|done]. rewrite E. apply IH.
Qed.

Lemma bytes_u8 q : Forall (fun b => 0 <= b < 256) q -> map u8 q = q.
Proof.
  induction 1 as [|b q Hb _ IH]; cbn; [done|]. by rewrite IH, u8_small.
Qed.

Lemma pipeclose_run w o p m k c' s' :
  pipeclose pi w (Ctx [] o) (PSt p m k) = Ok tt c' s' ->
  pdata (the_pipe s') = pdata p /\ nread (the_pipe s') = nread p /\ nwrite (the_pipe s') = nwrite p.
Proof.
  unfold pipeclose, modpipe, wakeup_ev. rewrite bind_acquire by set_solver. destruct w; mrun; cbn [the_pipe].
  all: destruct (_ && _); mrun; [unfold zoom; cbn [lget lput mem_lens the_mem]; destruct (kfree _ _ _); try done|].
  all: intros ?; simplify_eq; done.
Qed.

Lemma stream_write p ws rs root addr n i T L m fl k o r c' p' :
  user_own L -> as_inv m fl root T L -> 0 <= addr -> addr + n < 2 ^ 64 -> 0 <= i <= n ->
  pipewrite_from pi root addr n i (Ctx [] o) (PSt p m k) = Ok r c' (PSt p' m k) ->
  stream_inv (p, ws, rs) ->
  stream_inv (p', ws ++ snd (read_user (pm_mem m) (uaddr PTE_U L) (addr + i) (Z.to_nat (upto r - i))), rs).
Proof.
  intros Hu Hi Ha He Hr Hrun (cs & q & Hp & E & Hd & Hb). cbn [fst snd] in *.
  pose proof (pipewrite_seg pi root addr n T L Hu Ha He o p m k q fl i Hi Hp Hr) as H.
  rewrite Hrun in H. destruct ((i <? n) && ((readopen p =? 0) || k)).
  - injection H as -> _ ->. cbn [upto]. replace (Z.to_nat (-1 - i)) with 0%nat by lia.
    exists cs, q. cbn [read_user snd fst]. rewrite app_nil_r. done.
  - cbv zeta in H. set (len := Z.to_nat _) in H. pose proof (read_user_length (pm_mem m) (uaddr PTE_U L) len (addr + i)) as Hl.
    pose proof (read_user_bytes (pm_mem m) (uaddr PTE_U L) len (addr + i)) as Hby.
    destruct (read_user _ _ _ len) as [ok bs] eqn:Eb. cbn [snd] in Hl, Hby. destruct H as (p1 & Hp1 & _ & [= -> _ ->]).
    exists cs, (q ++ bs). cbn [fst snd]. rewrite E, <- app_assoc.
    replace (upto _ - i) with (Z.of_nat (length bs)) by (destruct (ok && _); cbn; lia).
    rewrite Nat2Z.id, Hl. split_and!; [done..|]. by apply Forall_app.
Qed.

Lemma stream_read p ws rs root addr n T L m m' fl k o r c' p' :
  user_own L -> as_inv m fl root T L -> 0 <= addr -> addr + n < 2 ^ 64 ->
  piperead pi root addr n (Ctx [] o) (PSt p m k) = Ok r c' (PSt p' m' k) ->
  stream_inv (p, ws, rs) ->
  stream_inv (p', ws, rs ++ map Some (snd (read_user (pm_mem m') (uaddr PTE_WU L) addr (Z.to_nat (upto r)))) ++
    (if drops L addr n p (Z.to_nat (upto r)) then [None] else [])).
Proof.
  intros Hu Hi Ha He Hrun (cs & q & Hp & E & Hd & Hb). cbn [fst snd] in *.
  pose proof (piperead_seg pi root addr n T L Hu Ha He o p m k q fl Hi Hp) as H.
  rewrite Hrun in H. destruct (bool_decide (q = []) && negb (writeopen p =? 0)) eqn:Eq.
  - injection H as -> _ -> ->. exists cs, q. assert (Z.to_nat (upto (if k then PRet (-1) else PSleep (Ch_pipe_nread pi) 0)) = 0%nat) as ->
      by by destruct k. apply andb_prop in Eq as [->%bool_decide_eq_true _]. unfold drops. cbn [read_user snd fst map length Z.of_nat].
    pose proof (pr_nwrite _ _ Hp) as ->. cbn [length]. rewrite Z.eqb_refl, andb_false_r. cbn [app]. by rewrite (app_nil_r rs).
  - cbv zeta in H. set (bs := take (Z.to_nat n) q) in *. pose proof (stored_le (uaddr PTE_WU L) bs addr) as Hle. pose proof (stored_stop (uaddr PTE_WU L) bs addr) as Hstop.
    destruct (write_user_stored (uaddr PTE_WU L) bs (pm_mem m) addr) as [Hok Hsame].
    set (j := stored (uaddr PTE_WU L) addr bs) in *. assert (length bs = Nat.min (Z.to_nat n) (length q)) as Elen by apply length_take.
    destruct H as (p1 & Hp1 & _ & _ & [= -> _ -> ->]). cbn [upto pm_mem]. rewrite Nat2Z.id. rewrite Hsame.
    assert (take j bs = take j q) as Ej by (unfold bs; rewrite take_take; f_equal; lia).
    assert (length (take j bs) = j) as El by (rewrite length_take; lia).
    pose proof (write_read_user (uaddr PTE_WU L) (uaddr PTE_WU L) (take j bs) (pm_mem m) addr) as Hrd. rewrite El in Hrd.
    rewrite Hrd; [|intros x y a Hx Hy; apply (uaddr_inj m fl root T L PTE_WU Hi Hu eq_refl); lia|done|done].
    cbn [snd fst]. rewrite bytes_u8, Ej by (rewrite Ej; by apply Forall_take).
    pose proof (delivered_all (take j q)) as Hs.
    pose proof (pr_nwrite _ _ Hp) as Ew. pose proof (pr_len _ _ Hp) as Hlen. pose proof (pr_nread _ _ Hp) as Hnr.
    unfold taken in Hp1. fold j in Hp1. unfold drops. rewrite Ew. destruct (Nat.lt_ge_cases j (length bs)) as [Hlt|Hge].
    + rewrite (proj2 (Z.ltb_lt _ _)) by lia. rewrite bool_decide_true by by apply Hstop.
      destruct (Z.eqb_spec (u32 (nread p + Z.of_nat (length q))) (u32 (nread p + Z.of_nat j))) as [X|_]; [exfalso; unfold u32, PIPESIZE in *; zlia|]. cbn [negb andb].
      rewrite Nat.min_r in Hp1 by lia. destruct (lookup_lt_is_Some_2 q j) as [x Hx]; [lia|].
      exists (cs ++ take j q ++ [x]), (drop (S j) q). split; [done|]. split; [|split; [|by apply Forall_drop]].
      * rewrite E. rewrite <- (take_drop_middle q j x Hx) at 1. by rewrite <- !app_assoc.
      * apply Forall2_app; [done|]. apply Forall2_app; [done|]. constructor; [by right|constructor].
    + assert (j = length bs) as Ejl by lia. rewrite Nat.min_l in Hp1 by lia. rewrite <- Ejl in Hp1.
      assert ((Z.of_nat j <? n) && bool_decide (uaddr PTE_WU L (addr + Z.of_nat j) = None) && negb (u32 (nread p + Z.of_nat (length q)) =? u32 (nread p + Z.of_nat j)) = false) as ->.
      { destruct (Z.ltb_spec (Z.of_nat j) n); [|done]. assert (length q = j) as -> by lia. by rewrite Z.eqb_refl, andb_false_r. }
      rewrite app_nil_r. exists (cs ++ take j q), (drop j q). split; [done|]. split; [|split; [by apply Forall2_app|by apply Forall_drop]].
      rewrite E, <- app_assoc. by rewrite take_drop.
Qed.

(** C15: the pipe is a stream.  From a fresh pipe, over every interleaving of write, read and close
    segments of any number of processes, the bytes written are those that left the pipe followed by the
    bytes still queued, in the order in which they were written, also across the wrap of the 32-bit
    counters, and at most PIPESIZE bytes are in flight.  Every byte that left the pipe was delivered to a reader's buffer as it
    was written, but for those that reads dropped, one for each read that stopped at an address the reader cannot write. *)
Theorem pipe_fifo p ws rs : pipe_reach (p, ws, rs) ->
  exists cs q, ws = cs ++ q /\ Forall2 delivered rs cs /\ pipe_rep p q /\ Z.of_nat (length q) <= PIPESIZE.
Proof.
  intros H. assert (stream_inv (p, ws, rs)) as (cs & q & Hp & E & Hd & _).
  { induction H as [d|x y Hx IH Hs].
    - exists [], []. split_and!; [|done|constructor|done]. split; cbn; try done. 
    - destruct Hs; [by eapply stream_write|by eapply stream_read|].
      destruct IH as (cs & q & [] & E & Hd & Hb). cbn [fst snd] in *.
      match goal with H : pipeclose _ _ _ _ = _ |- _ => apply pipeclose_run in H as (Ed & Er & Ew) end.
      cbn [the_pipe] in *. exists cs, q. split_and!; try done. split; cbn [fst]; by rewrite ?Er, ?Ew, ?Ed. }
  exists cs, q. split_and!; try done. apply (pr_len _ _ Hp).
Qed.
End Stream.
