(* ===== verification/PipeExamples.v ===== *)
(** Concrete runs of the pipe routines: the hypotheses of the theorems of
    [Pipe] hold for a process with two user pages and a pipe whose counters are about
    to wrap. *)
From S2P Require Import Prelude Machine CString Kalloc Vm PageTable UserMem UserCopy Concrete Pipe.
Local Open Scope Z_scope.

(** Two bytes queued, nread two below 2^32. *)
Definition demo_pipe : pipe := Pipe {[510 := 65; 511 := 66]} (2 ^ 32 - 2) 0 1 1.

Lemma demo_pipe_rep : pipe_rep demo_pipe [65; 66].
Proof.
  split; [done|done|done|]. intros i b Hi. destruct i as [|[|i]]; cbn in Hi; [..|done].
  all: injection Hi as <-; reflexivity.
Qed.

(** The process with its two pages: it can read at 5000 and write across 4095. *)
Lemma demo_space : exists fl T L, as_inv demo_user fl demo_root T L /\ user_own L /\
  read_user (pm_mem demo_user) (uaddr PTE_U L) 5000 3 = (true, [0; 0; 0]) /\
  stored (uaddr PTE_WU L) 4095 [65; 66] = 2%nat.
Proof.
  destruct demo_user_as as (fl & T & L & Hi & Hu). exists fl, T, L. split; [exact Hi|]. split; [exact Hu|]. split.
  - assert (answer (copyin demo_root 5000 3 ctx0 demo_user) = Some (0, [0; 0; 0])) as Ha by (vm_compute; reflexivity).
    unfold copyin in Ha. rewrite (copyin_loop_run _ ctx0 demo_user fl demo_root T L) in Ha by (done || lia).
    change (Z.to_nat 3) with 3%nat in Ha. destruct (read_user _ _ 5000 3) as [ok bs].
    destruct ok; cbn [answer app] in Ha; [|discriminate]. injection Ha as ->. reflexivity.
  - assert (answer (copyout demo_root 4095 [65; 66] ctx0 demo_user) = Some 0) as Ha by (vm_compute; reflexivity).
    unfold copyout in Ha. change (length [65; 66]) with 2%nat in Ha. rewrite (proj1 (copyout_loop_run 2 ctx0 demo_user fl demo_root T L 4095 [65; 66] Hi Hu ltac:(lia) ltac:(cbn; lia))) in Ha.
    cbn [answer write_user stored] in *. destruct (uaddr PTE_WU L 4095); [|discriminate].
    destruct (uaddr PTE_WU L (4095 + 1)); [reflexivity|discriminate].
Qed.

Lemma pipewrite_correct_witness : exists p' s',
  pipe_rep p' [65; 66; 0; 0; 0] /\ the_pipe s' = p' /\
  pipewrite_from 7 demo_root 5000 3 0 ctx0 (PSt demo_pipe demo_user false) =
    Ok (PRet 3) (Ctx [] [EvWakeup (Ch_pipe_nread 7)]) s'.
Proof.
  destruct demo_space as (fl & T & L & Hi & Hu & Er & _).
  pose proof (pipewrite_correct 7 demo_root 5000 3 T L Hu ltac:(lia) ltac:(lia) [] demo_pipe demo_user false
    [65; 66] fl 0 Hi demo_pipe_rep ltac:(lia)) as H. generalize dependent demo_user. intros u Hi Er H.
  change (read_user _ _ (5000 + 0) _) with (read_user (pm_mem u) (uaddr PTE_U L) 5000 3) in H. rewrite Er in H.
  destruct H as (p' & Hp & _ & E). exists p', (PSt p' u false). split; [exact Hp|]. split; [reflexivity|exact E].
Defined.

Lemma piperead_correct_witness : exists p' m',
  pipe_rep p' [] /\
  piperead 7 demo_root 4095 5 ctx0 (PSt demo_pipe demo_user false) =
    Ok (PRet 2) (Ctx [] [EvWakeup (Ch_pipe_nwrite 7)]) (PSt p' m' false).
Proof.
  destruct demo_space as (fl & T & L & Hi & Hu & _ & Es).
  pose proof (piperead_correct 7 demo_root 4095 5 T L Hu ltac:(lia) ltac:(lia) [] demo_pipe demo_user false
    [65; 66] fl Hi demo_pipe_rep) as H. generalize dependent demo_user. intros u Hi H.
  rewrite bool_decide_false in H by discriminate. cbn [andb] in H. cbv zeta in H.
  change (take (Z.to_nat 5) [65; 66]) with [65; 66] in H. unfold taken in H. rewrite Es in H.
  destruct H as (p' & Hp & _ & _ & E). exists p'. eexists. split; [exact Hp|exact E].
Defined.

(** The process writes three bytes to a pipe, and then reads to an address it has not mapped: one byte is dropped. *)
Lemma demo_stream : exists p, pipe_reach 7 (p, [0; 0; 0], [None]).
Proof.
  destruct demo_space as (fl & T & L & Hi & Hu & Er & _).
  assert (pipe_rep (fresh_pipe ∅) []) as H0 by by split.
  pose proof (pipewrite_seg 7 demo_root 5000 3 T L Hu ltac:(lia) ltac:(lia) [] (fresh_pipe ∅) demo_user false
    [] fl 0 Hi H0 ltac:(lia)) as H. generalize dependent demo_user. intros u Hi Er H.
  change (read_user _ _ (5000 + 0) _) with (read_user (pm_mem u) (uaddr PTE_U L) 5000 3) in H. rewrite Er in H.
  destruct H as (p1 & Hp1 & _ & E).
  pose proof (step_write 7 _ p1 [] [] demo_root 5000 3 0 T L u fl false [] _ _
    Hu Hi ltac:(lia) ltac:(lia) ltac:(lia) E) as Hs.
  change (read_user _ _ (5000 + 0) _) with (read_user (pm_mem u) (uaddr PTE_U L) 5000 3) in Hs. rewrite Er in Hs. cbn [app snd] in Hs, Hp1.
  pose proof (piperead_seg 7 demo_root (2 ^ 40) 2 T L Hu ltac:(lia) ltac:(lia) [] p1 u false _ fl Hi Hp1) as Hr.
  rewrite bool_decide_false in Hr by discriminate. cbn [andb] in Hr. cbv zeta in Hr.
  assert (uaddr PTE_WU L (2 ^ 40) = None) as Hn by (unfold uaddr; by rewrite (proj2 (Z.ltb_ge _ _)) by (vm_compute; discriminate)).
  change (take (Z.to_nat 2) [0; 0; 0]) with [0; 0] in Hr. cbn [stored write_user snd] in Hr. rewrite Hn in Hr. cbn [snd] in Hr. destruct Hr as (p2 & _ & _ & _ & E2). exists p2.
  pose proof (step_read 7 p1 p2 [0; 0; 0] [] demo_root (2 ^ 40) 2 T L u _ fl false [] _ _ Hu Hi ltac:(lia) ltac:(lia) E2) as Hs2.
  assert (drops L (2 ^ 40) 2 p1 0 = true) as Hd.
  { unfold drops. rewrite Z.add_0_r, bool_decide_true by exact Hn. pose proof (pr_nwrite _ _ Hp1) as ->. pose proof (pr_nread _ _ Hp1).
    destruct (Z.eqb_spec (u32 (nread p1 + Z.of_nat (length [0; 0; 0]))) (u32 (nread p1 + Z.of_nat 0))) as [X|]; [|done]. exfalso. cbn [length] in X. unfold u32 in X. zlia. }
  change (Z.to_nat (upto (PRet (Z.of_nat 0)))) with 0%nat in Hs2. rewrite Hd in Hs2.
  exact (reach_next 7 _ _ (reach_next 7 _ _ (reach_fresh 7 ∅) Hs) Hs2).
Qed.

Lemma pipe_fifo_witness : exists p cs q, [0; 0; 0] = cs ++ q /\ Forall2 delivered [None] cs /\ pipe_rep p q.
Proof.
  destruct demo_stream as (p & Hr). destruct (pipe_fifo 7 p [0; 0; 0] [None] Hr) as (cs & q & Eq & Hd & Hq & _).
  exists p, cs, q. split; [exact Eq|]. split; [exact Hd|exact Hq].
Defined.
