(* ===== verification/Printf.v ===== *)
(** Formatted console output (kernel/printf.c, and consputc and uartputc_sync below it).

    A byte that uartputc_sync hands to the transmit register is the event [EvPutc].
    A format is the list of its bytes without the NUL; the variable arguments are
    a list of the values in the argument registers. *)
From S2P Require Import Prelude.
Local Open Scope Z_scope.

(** The bytes of a string constant. *)
Fixpoint str (s : string) : list Z :=
  match s with
  | EmptyString => []
  | String a s' => Z.of_N (Ascii.N_of_ascii a) :: str s'
  end.

(** A run that C leaves undefined: nothing is claimed of it. *)
Definition undefined {S A} : M S A := panic "undefined behaviour".

(** ** uart.c and console.c: the synchronous path *)

Definition uartputc_sync {S} (c : Z) : M S unit := emit (EvPutc (u8 c)).

Definition BACKSPACE : Z := 0x100.

Definition consputc {S} (c : Z) : M S unit :=
  if c =? BACKSPACE then uartputc_sync 8 ;;! uartputc_sync 32 ;;! uartputc_sync 8
  else uartputc_sync c.

Fixpoint consputs {S} (l : list Z) : M S unit :=
  match l with
  | [] => retM tt
  | c :: l' => consputc c ;;! consputs l'
  end.

(** ** printint *)

Definition digits (d : Z) : Z := nth (Z.to_nat d) (str "0123456789abcdef") 0.

(** The do-while loop; [buf] holds what it has stored so far, the newest byte first. *)
Fixpoint digit_loop (fuel : nat) (x base : Z) (buf : list Z) : list Z :=
  match fuel with
  | O => buf
  | S f =>
      let buf := digits (x mod base) :: buf in
      let x := x / base in
      if x =? 0 then buf else digit_loop f x base buf
  end.

Definition printint_buf (xx base : Z) (sign : bool) : list Z :=
  let sign := sign && (xx <? 0) in
  let x := if sign then u64 (- xx) else u64 xx in
  let buf := digit_loop 64 x base [] in
  if sign then 45 :: buf else buf.

(** char buf[16]; a store beyond it is undefined. *)
Definition PRINTBUF : nat := 16.

Definition printint {S} (xx base : Z) (sign : bool) : M S unit :=
  let buf := printint_buf xx base sign in
  if (length buf <=? PRINTBUF)%nat then consputs buf else undefined.

Fixpoint printptr_loop {S} (k : nat) (x : Z) : M S unit :=
  match k with
  | O => retM tt
  | Datatypes.S k' => consputc (digits (Z.shiftr x 60)) ;;! printptr_loop k' (u64 (Z.shiftl x 4))
  end.
Definition printptr {S} (x : Z) : M S unit :=
  consputc 48 ;;! consputc 120 ;;! printptr_loop 16 x.

(** ** printf *)

Inductive varg : Type :=
| VInt (x : Z)
| VStr (s : option (list Z)).

Definition va_int {S} (ap : list varg) : M S (Z * list varg) :=
  match ap with VInt x :: ap' => retM (s32 x, ap') | _ => undefined end.
Definition va_uint64 {S} (ap : list varg) : M S (Z * list varg) :=
  match ap with VInt x :: ap' => retM (u64 x, ap') | _ => undefined end.
Definition va_str {S} (ap : list varg) : M S (option (list Z) * list varg) :=
  match ap with VStr s :: ap' => retM (s, ap') | _ => undefined end.

(** long long from uint64. *)
Definition s64 (x : Z) : Z := let y := x mod 2 ^ 64 in if y <? 2 ^ 63 then y else y - 2 ^ 64.

Definition ch_percent : Z := 37.
Definition ch_d : Z := 100.
Definition ch_l : Z := 108.
Definition ch_p : Z := 112.
Definition ch_s : Z := 115.
Definition ch_u : Z := 117.
Definition ch_x : Z := 120.

(** One conversion: the characters after the percent sign are [c0], [c1] and [c2].
    The result is how far i moves on, or [None] for the end of the format,
    and the arguments that are left. *)
Definition convert {S} (c0 c1 c2 : Z) (ap : list varg) : M S (option nat * list varg) :=
  if c0 =? ch_d then
    a <-! va_int ap ;; printint (fst a) 10 true ;;! retM (Some 0%nat, snd a)
  else if (c0 =? ch_l) && (c1 =? ch_d) then
    a <-! va_uint64 ap ;; printint (s64 (fst a)) 10 true ;;! retM (Some 1%nat, snd a)
  else if (c0 =? ch_l) && (c1 =? ch_l) && (c2 =? ch_d) then
    a <-! va_uint64 ap ;; printint (s64 (fst a)) 10 true ;;! retM (Some 2%nat, snd a)
  else if c0 =? ch_u then
    a <-! va_int ap ;; printint (fst a) 10 false ;;! retM (Some 0%nat, snd a)
  else if (c0 =? ch_l) && (c1 =? ch_u) then
    a <-! va_uint64 ap ;; printint (s64 (fst a)) 10 false ;;! retM (Some 1%nat, snd a)
  else if (c0 =? ch_l) && (c1 =? ch_l) && (c2 =? ch_u) then
    a <-! va_uint64 ap ;; printint (s64 (fst a)) 10 false ;;! retM (Some 2%nat, snd a)
  else if c0 =? ch_x then
    a <-! va_int ap ;; printint (fst a) 16 false ;;! retM (Some 0%nat, snd a)
  else if (c0 =? ch_l) && (c1 =? ch_x) then
    a <-! va_uint64 ap ;; printint (s64 (fst a)) 16 false ;;! retM (Some 1%nat, snd a)
  else if (c0 =? ch_l) && (c1 =? ch_l) && (c2 =? ch_x) then
    a <-! va_uint64 ap ;; printint (s64 (fst a)) 16 false ;;! retM (Some 2%nat, snd a)
  else if c0 =? ch_p then
    a <-! va_uint64 ap ;; printptr (fst a) ;;! retM (Some 0%nat, snd a)
  else if c0 =? ch_s then
    a <-! va_str ap ;;
    consputs (match fst a with Some s => s | None => str "(null)" end) ;;!
    retM (Some 0%nat, snd a)
  else if c0 =? ch_percent then consputc ch_percent ;;! retM (Some 0%nat, ap)
  else if c0 =? 0 then retM (None, ap)
  else consputc ch_percent ;;! consputc c0 ;;! retM (Some 0%nat, ap).

Fixpoint printf_loop {S} (fuel : nat) (fmt : list Z) (i : nat) (ap : list varg) : M S unit :=
  let cx := nth i fmt 0 in
  if cx =? 0 then retM tt
  else
    match fuel with
    | O => diverge
    | Datatypes.S f =>
        if negb (cx =? ch_percent) then consputc cx ;;! printf_loop f fmt (i + 1) ap
        else
          let i := (i + 1)%nat in
          let c0 := nth i fmt 0 in
          let c1 := if c0 =? 0 then 0 else nth (i + 1) fmt 0 in
          let c2 := if c1 =? 0 then 0 else nth (i + 2) fmt 0 in
          r <-! convert c0 c1 c2 ap ;;
          match fst r with
          | None => retM tt
          | Some k => printf_loop f fmt (i + k + 1) (snd r)
          end
    end.

(** The lock is taken while pr.locking is set, which it is from printfinit on until a panic. *)
Definition printf {S} (fmt : list Z) (ap : list varg) : M S unit :=
  acquire L_pr ;;!
  printf_loop (length fmt) fmt 0 ap ;;!
  release L_pr.

Definition newline : string := String (Ascii.ascii_of_nat 10) EmptyString.

(** ** What is printed *)

(** In context [c], [m] prints and does nothing else: it gets through, and the locks and the state stay. *)
Definition prints_in {S} (c : ctx) (m : M S unit) : Prop :=
  forall s, exists bs, m c s = Ok tt (Ctx (held c) (map EvPutc bs ++ out c)) s.
Definition prints {S} (m : M S unit) : Prop := forall c, prints_in c m.

Lemma prints_ret {S} : prints (S := S) (retM tt).
Proof. intros c s. exists []. unfold retM. cbn. by rewrite ctx_eta. Qed.

Lemma prints_bind {S} (m n : M S unit) : prints m -> prints n -> prints (m ;;! n).
Proof.
  intros Hm Hn c s. destruct (Hm c s) as (o & Ho). rewrite (bind_Ok _ _ _ _ _ _ _ Ho).
  destruct (Hn (Ctx (held c) (map EvPutc o ++ out c)) s) as (o' & Ho'). exists (o' ++ o). rewrite Ho'. cbn.
  by rewrite map_app, app_assoc.
Qed.

Lemma prints_emit {S} x : prints (S := S) (uartputc_sync x).
Proof. intros c s. by exists [u8 x]. Qed.

Lemma prints_consputc {S} x : prints (S := S) (consputc x).
Proof. unfold consputc. destruct (_ =? _); repeat (apply prints_bind || apply prints_emit). Qed.

Lemma prints_consputs {S} l : prints (S := S) (consputs l).
Proof. induction l; cbn; [apply prints_ret|apply prints_bind; [apply prints_consputc|done]]. Qed.

(** A format without conversions is printed as it is. *)
Lemma printf_loop_plain {S} fmt (Hp : Forall (fun x => x <> ch_percent) fmt) fuel : forall i ap,
  (length fmt <= fuel + i)%nat -> prints (S := S) (printf_loop fuel fmt i ap).
Proof.
  induction fuel as [|f IH]; intros i ap Hl; cbn [printf_loop].
  - rewrite nth_overflow by lia. apply prints_ret.
  - destruct (Z.eqb_spec (nth i fmt 0) 0) as [|Hz]; [apply prints_ret|].
    destruct (nth_lookup_or_length fmt i 0) as [Hi|]; [|by rewrite nth_overflow in Hz].
    apply Forall_lookup_1 with (1 := Hp) in Hi. apply Z.eqb_neq in Hi as ->.
    apply prints_bind; [apply prints_consputc|]. apply IH. lia.
Qed.

Lemma printf_plain {S} fmt c (s : S) : Forall (fun x => x <> ch_percent) fmt -> L_pr ∉ held c ->
  exists c', printf fmt [] c s = Ok tt c' s /\ held c' = held c.
Proof.
  intros Hp Hl. unfold printf. rewrite bind_acquire by done.
  destruct (printf_loop_plain fmt Hp (length fmt) 0 [] ltac:(lia) (Ctx (L_pr :: held c) (out c)) s) as (o & Ho).
  rewrite (bind_Ok _ _ _ _ _ _ _ Ho). mrun. by eexists.
Qed.

(** *** The digits *)

(** The value a list of digit characters denotes. *)
Definition digit_val (c : Z) : Z := if c <=? 57 then c - 48 else c - 87.
Definition read_digits (base : Z) (l : list Z) : Z := fold_left (fun v c => v * base + digit_val c) l 0.
Definition read_int (base : Z) (l : list Z) : Z :=
  match l with
  | c :: l' => if c =? 45 then - read_digits base l' else read_digits base l
  | [] => 0
  end.

Lemma digit_val_digits d : 0 <= d < 16 -> digit_val (digits d) = d /\ 48 <= digits d /\ (digits d = 48 <-> d = 0).
Proof.
  intros Hd. assert (d ∈ map Z.of_nat (seq 0 16)) as Hin.
  { apply list_elem_of_fmap. exists (Z.to_nat d). split; [lia|]. apply elem_of_seq. lia. }
  revert d Hd Hin. 
  assert (Forall (fun d => digit_val (digits d) = d /\ 48 <= digits d /\ (digits d = 48 <-> d = 0)) (map Z.of_nat (seq 0 16))) as H.
  { cbn. repeat constructor; cbn; try done; lia. }
  intros d _ Hin. by apply (proj1 (Forall_forall _ _) H).
Qed.

Lemma read_digits_app base l l' : read_digits base (l ++ l') = fold_left (fun v c => v * base + digit_val c) l' (read_digits base l).
Proof. apply fold_left_app. Qed.

(** The characters of [x] in [base]: the loop puts them in front of what the buffer holds. *)
Lemma digit_loop_spec base fuel : 2 <= base <= 16 -> forall x buf, 0 <= x < base ^ Z.of_nat fuel -> (0 < fuel)%nat ->
  exists l, digit_loop fuel x base buf = l ++ buf /\ l <> [] /\ read_digits base l = x /\ Forall (fun c => 48 <= c) l /\
    (hd 0 l = 48 -> x = 0 /\ l = [48]) /\
    x < base ^ Z.of_nat (length l) /\ ((1 < length l)%nat -> base ^ (Z.of_nat (length l) - 1) <= x).
Proof.
  intros Hb. induction fuel as [|f IH]; intros x buf Hx Hf; [lia|]. cbn [digit_loop].
  assert (0 <= x mod base < base) as Hm by (apply Z.mod_pos_bound; lia).
  destruct (digit_val_digits (x mod base)) as (Hv & H48 & Hz); [lia|].
  pose proof (Z.div_mod x base ltac:(lia)) as Hdm. destruct (Z.eqb_spec (x / base) 0) as [Ex|Ex].
  - rewrite Ex in Hdm. exists [digits (x mod base)]. split; [done|]. split; [done|]. split; [unfold read_digits; cbn [fold_left]; rewrite Hv; lia|].
    split; [by repeat constructor|]. cbn [hd length]. split; [intros E; apply Hz in E as E'; rewrite E; split; [lia|done]|].
    split; [change (Z.of_nat 1) with 1; rewrite Z.pow_1_r; lia|]. lia.
  - assert (0 <= x / base) as H0 by (apply Z.div_pos; lia).
    destruct f as [|f]; [change (Z.of_nat 1) with 1 in Hx; rewrite Z.pow_1_r in Hx; rewrite Z.div_small in Ex by lia; done|].
    assert (x / base < base ^ Z.of_nat (S f)) as Hlt.
    { apply Z.div_lt_upper_bound; [lia|]. rewrite <- Z.pow_succ_r by lia. replace (Z.succ (Z.of_nat (S f))) with (Z.of_nat (S (S f))) by lia. apply Hx. }
    destruct (IH (x / base) (digits (x mod base) :: buf) ltac:(lia) ltac:(lia)) as (l & -> & Hn & Hr & Hf' & Hh & Hu & Hl).
    exists (l ++ [digits (x mod base)]). split; [by rewrite <- app_assoc|]. split; [by destruct l|].
    split; [rewrite read_digits_app; cbn [fold_left]; rewrite Hr, Hv; lia|]. split; [apply Forall_app; split; [done|by repeat constructor]|].
    split; [destruct l as [|a l]; [done|]; cbn; intros E; destruct (Hh E) as [E' _]; lia|].
    rewrite length_app. cbn [length]. replace (Z.of_nat (length l + 1)) with (Z.succ (Z.of_nat (length l))) by lia.
    split; [rewrite Z.pow_succ_r by lia; nia|]. intros _.
    replace (Z.succ (Z.of_nat (length l)) - 1) with (Z.succ (Z.of_nat (length l) - 1)) by lia.
    assert (1 <= length l)%nat by (destruct l; [done|cbn; lia]). rewrite Z.pow_succ_r by lia.
    assert (base ^ (Z.of_nat (length l) - 1) <= x / base); [|nia].
    destruct (decide (1 < length l)%nat); [by apply Hl|]. replace (Z.of_nat (length l) - 1) with 0 by lia. cbn. lia.
Qed.

(** What printint stores, as the number it denotes and how many characters it takes. *)
Lemma printint_buf_spec base xx sign : base = 10 \/ base = 16 -> - 2 ^ 63 <= xx < 2 ^ 63 ->
  let neg := sign && (xx <? 0) in
  let x := if neg then - xx else u64 xx in
  exists l, printint_buf xx base sign = (if neg then [45] else []) ++ l /\ read_digits base l = x /\
    Forall (fun c => 48 <= c) l /\ l <> [] /\ (hd 0 l = 48 -> l = [48]) /\
    x < base ^ Z.of_nat (length l) /\ ((1 < length l)%nat -> base ^ (Z.of_nat (length l) - 1) <= x).
Proof.
  intros Hb Hx neg x. unfold printint_buf. fold neg.
  assert (x = (if neg then u64 (- xx) else u64 xx) /\ 0 <= x < 2 ^ 64) as [Ex Hr].
  { unfold x. destruct neg eqn:En; [|split; [done|apply u64_range]]. unfold neg in En. rewrite u64_small by lia. lia. }
  rewrite <- Ex. clearbody x. assert (2 ^ 64 <= base ^ Z.of_nat 64) as Hp by (destruct Hb as [->| ->]; vm_compute; discriminate).
  destruct (digit_loop_spec base 64 ltac:(lia) x [] ltac:(lia) ltac:(lia)) as (l & E & Hn & Hd & Hf & Hh & Hu & Hl).
  exists l. rewrite E, app_nil_r. split; [by destruct neg|]. split; [done|]. split; [done|]. split; [done|].
  split; [|done]. intros H. by apply Hh.
Qed.

(** printint prints the number it is given: the characters denote the argument (a signed value with its sign,
    otherwise the value as an unsigned 64-bit integer) and carry no leading zero. *)
Theorem printint_roundtrip base xx sign : base = 10 \/ base = 16 -> - 2 ^ 63 <= xx < 2 ^ 63 ->
  read_int base (printint_buf xx base sign) = (if sign then xx else u64 xx) /\
  (hd 0 (printint_buf xx base sign) = 48 -> printint_buf xx base sign = [48]).
Proof.
  intros Hb Hx. destruct (printint_buf_spec base xx sign Hb Hx) as (l & -> & Hd & Hf & Hn & Hh & _).
  destruct (sign && (xx <? 0)) eqn:En; cbn [app].
  - split; [|done]. cbn [read_int]. rewrite Z.eqb_refl, Hd. destruct sign; [lia|done].
  - split; [|done]. destruct l as [|a l]; [done|]. apply Forall_cons in Hf as [Ha _]. cbn [read_int].
    rewrite (proj2 (Z.eqb_neq a 45)) by lia. rewrite Hd. destruct sign; [|done]. rewrite andb_true_l in En. apply u64_small. lia.
Qed.

Lemma printint_roundtrip_witness : read_int 10 (printint_buf (-12345) 10 true) = -12345.
Proof. apply (printint_roundtrip 10 (-12345) true); lia. Defined.

Lemma digits_fit base n (l : list Z) : 2 <= base -> n < base ^ Z.of_nat (length l) ->
  ((1 < length l)%nat -> base ^ (Z.of_nat (length l) - 1) <= n) ->
  forall k, (0 < k)%nat -> (length l <= k)%nat <-> n < base ^ Z.of_nat k.
Proof.
  intros Hb Hu Hl k Hk. split.
  - intros Hk'. apply Z.lt_le_trans with (base ^ Z.of_nat (length l)); [done|]. apply Z.pow_le_mono_r; lia.
  - intros Hlt. destruct (decide (length l <= k)%nat); [done|].
    assert (base ^ Z.of_nat k <= base ^ (Z.of_nat (length l) - 1)) by (apply Z.pow_le_mono_r; lia). lia.
Qed.

(** C39: the 16 bytes of printint's buffer.  Every hexadecimal value fits; a signed decimal fits exactly between
    -10^15 and 10^16, an unsigned one exactly below 10^16.  So every %d of an int is printed, while %u of an int
    above 2^31, which is widened with its sign, overruns the buffer. *)
Theorem printint_bounds xx : - 2 ^ 63 <= xx < 2 ^ 63 ->
  ((length (printint_buf xx 10 true) <= PRINTBUF)%nat <-> - 10 ^ 15 < xx < 10 ^ 16) /\
  ((length (printint_buf xx 10 false) <= PRINTBUF)%nat <-> u64 xx < 10 ^ 16) /\
  (length (printint_buf xx 16 false) <= PRINTBUF)%nat /\
  (- 2 ^ 31 <= xx < 0 -> (PRINTBUF < length (printint_buf xx 10 false))%nat).
Proof.
  intros Hx. unfold PRINTBUF.
  assert ((length (printint_buf xx 10 false) <= 16)%nat <-> u64 xx < 10 ^ 16) as Hu.
  { destruct (printint_buf_spec 10 xx false ltac:(lia) Hx) as (l & -> & _ & _ & _ & _ & H1 & H2). cbn [andb app] in *.
    apply (digits_fit 10 (u64 xx) l); [lia|done|done|lia]. }
  split; [|split; [done|split]].
  - destruct (printint_buf_spec 10 xx true ltac:(lia) Hx) as (l & -> & _ & _ & _ & _ & H1 & H2). cbn [andb] in *.
    destruct (Z.ltb_spec xx 0); cbn [app length].
    + pose proof (digits_fit 10 (- xx) l ltac:(lia) H1 H2 15 ltac:(lia)) as Hf. change (Z.of_nat 15) with 15 in Hf. lia.
    + rewrite u64_small in * by lia. pose proof (digits_fit 10 xx l ltac:(lia) H1 H2 16 ltac:(lia)) as Hf. change (Z.of_nat 16) with 16 in Hf. lia.
  - destruct (printint_buf_spec 16 xx false ltac:(lia) Hx) as (l & -> & _ & _ & _ & _ & H1 & H2). cbn [andb app] in *.
    apply (digits_fit 16 (u64 xx) l); [lia|done|done|lia|]. apply (u64_range xx).
  - intros Hn. assert (u64 xx = xx + 2 ^ 64) as E. { unfold u64. rewrite <- (Z.mod_small (xx + 2 ^ 64) (2 ^ 64)) by lia. rewrite <- (Z.mod_add xx 1) by lia. by rewrite Z.mul_1_l. }
    destruct (decide (length (printint_buf xx 10 false) <= 16)%nat) as [Hl|]; [|lia]. apply Hu in Hl. lia.
Qed.

Lemma printint_bounds_witness : (PRINTBUF < length (printint_buf (-1) 10 false))%nat.
Proof. apply (printint_bounds (-1)); lia. Defined.

(** Hence %d prints every int. *)
Lemma prints_printint {S} xx : prints (S := S) (printint (s32 xx) 10 true).
Proof.
  unfold printint. assert (- 2 ^ 31 <= s32 xx < 2 ^ 31) as Hr.
  { unfold s32. pose proof (Z.mod_pos_bound xx (2 ^ 32) ltac:(lia)). destruct (_ <? _) eqn:E; lia. }
  destruct (printint_buf_spec 10 (s32 xx) true ltac:(lia) ltac:(lia)) as (l & E & _ & _ & _ & _ & H1 & H2). 
  assert (length (printint_buf (s32 xx) 10 true) <= PRINTBUF)%nat as Hl; [|apply Nat.leb_le in Hl as ->; apply prints_consputs].
  rewrite E. unfold PRINTBUF. cbn [andb] in *. destruct (Z.ltb_spec (s32 xx) 0); cbn [app length].
  - apply le_n_S, (digits_fit 10 (- s32 xx) l); [lia|done|done|lia|]. change (Z.of_nat 15) with 15. lia.
  - rewrite u64_small in * by lia. apply (digits_fit 10 (s32 xx) l); [lia|done|done|lia|]. change (Z.of_nat 16) with 16. lia.
Qed.
