(* ===== verification/Uart.v ===== *)
(** The serial port driver (kernel/uart.c).

    Output of write() goes through a ring buffer of 32 bytes that uartstart()
    drains while the device takes bytes.  The device is a parameter: [tx_idle]
    answers the [n]-th reading of the line status register; the bytes that have arrived
    and were not read yet are [rx].  A byte stored in the transmit holding register is
    the event [EvPutc].

    [uart_fifo] shows that over every interleaving of writers and interrupts the
    bytes sent are the bytes written, in order, with nothing lost. *)
From S2P Require Import Prelude Machine Printf.
Local Open Scope Z_scope.

Definition LSR_RX_READY : Z := Z.shiftl 1 0.
Definition LSR_TX_IDLE : Z := Z.shiftl 1 5.
Definition UART_TX_BUF_SIZE : Z := 32.

Record uart : Type := Uart {
  uart_tx_buf : gmap Z Z;
  uart_tx_w : Z;
  uart_tx_r : Z;
  lsr_reads : nat;
  rx : list Z;
}.

Section Uart.
Variable tx_idle : nat -> bool.
Context {S : Type} (ul : lens S uart).

(** ReadReg(LSR). *)
Definition read_LSR : M S Z :=
  u <-! getl ul id ;;
  modl ul (fun u => Uart (uart_tx_buf u) (uart_tx_w u) (uart_tx_r u) (Datatypes.S (lsr_reads u)) (rx u)) ;;!
  retM (Z.lor (if tx_idle (lsr_reads u) then LSR_TX_IDLE else 0) (match rx u with [] => 0 | _ => LSR_RX_READY end)).

(** ReadReg(RHR): the oldest byte that has arrived. *)
Definition read_RHR : M S Z :=
  u <-! getl ul id ;;
  modl ul (fun u => Uart (uart_tx_buf u) (uart_tx_w u) (uart_tx_r u) (lsr_reads u) (tl (rx u))) ;;!
  retM (hd 0 (rx u)).

Definition uart_put (c : Z) (u : uart) : uart :=
  Uart (<[uart_tx_w u mod UART_TX_BUF_SIZE := u8 c]> (uart_tx_buf u)) (u64 (uart_tx_w u + 1)) (uart_tx_r u) (lsr_reads u) (rx u).
Definition uart_next (u : uart) : Z := default 0 (uart_tx_buf u !! (uart_tx_r u mod UART_TX_BUF_SIZE)).
Definition uart_take (u : uart) : uart :=
  Uart (uart_tx_buf u) (uart_tx_w u) (u64 (uart_tx_r u + 1)) (lsr_reads u) (rx u).

Fixpoint uartstart_loop (fuel : nat) : M S unit :=
  u <-! getl ul id ;;
  if uart_tx_w u =? uart_tx_r u then retM tt
  else
    l <-! read_LSR ;;
    if Z.land l LSR_TX_IDLE =? 0 then retM tt
    else
      match fuel with
      | O => diverge
      | Datatypes.S f =>
          let c := uart_next u in
          modl ul uart_take ;;!
          wakeup_ev Ch_uart_tx_r ;;!
          emit (EvPutc (u8 c)) ;;!
          uartstart_loop f
      end.
Definition uartstart : M S unit := uartstart_loop (Z.to_nat UART_TX_BUF_SIZE).

(** [false]: the buffer is full and the caller sleeps; it tries again when it is woken. *)
Definition uartputc (c : Z) : M S bool :=
  acquire L_uart_tx ;;!
  u <-! getl ul id ;;
  if uart_tx_w u =? u64 (uart_tx_r u + UART_TX_BUF_SIZE) then
    goto_sleep L_uart_tx ;;! retM false
  else
    modl ul (uart_put c) ;;!
    uartstart ;;!
    release L_uart_tx ;;!
    retM true.

Definition uartgetc : M S Z :=
  l <-! read_LSR ;;
  if negb (Z.land l 1 =? 0) then read_RHR else retM (-1).

(** The end of uartintr: send what is buffered. *)
Definition uart_send : M S unit :=
  acquire L_uart_tx ;;!
  uartstart ;;!
  release L_uart_tx.

(** The input loop of uartintr; consoleintr is given as [intr]. *)
Fixpoint uartintr_loop (intr : Z -> M S unit) (fuel : nat) : M S unit :=
  c <-! uartgetc ;;
  if c =? -1 then retM tt
  else
    match fuel with
    | O => diverge
    | Datatypes.S f => intr c ;;! uartintr_loop intr f
    end.

Definition uartintr (intr : Z -> M S unit) : M S unit :=
  u <-! getl ul id ;;
  uartintr_loop intr (length (rx u)) ;;!
  uart_send.
End Uart.

(** ** The transmit buffer as a queue *)

Record uart_rep (u : uart) (q : list Z) : Prop := {
  ur_r : 0 <= uart_tx_r u < 2 ^ 64;
  ur_w : uart_tx_w u = u64 (uart_tx_r u + Z.of_nat (length q));
  ur_len : Z.of_nat (length q) <= UART_TX_BUF_SIZE;
  ur_at : forall i b, q !! i = Some b ->
    uart_tx_buf u !! (u64 (uart_tx_r u + Z.of_nat i) mod UART_TX_BUF_SIZE) = Some b;
  ur_byte : Forall (fun b => 0 <= b < 256) q;
}.

Lemma uart_index a : u64 a mod UART_TX_BUF_SIZE = a mod UART_TX_BUF_SIZE.
Proof. unfold u64, UART_TX_BUF_SIZE. zlia. Qed.

Lemma u64_add a b : u64 (u64 a + b) = u64 (a + b).
Proof. unfold u64. by rewrite Zplus_mod_idemp_l. Qed.

Lemma uart_empty u q : uart_rep u q -> (uart_tx_w u =? uart_tx_r u) = bool_decide (q = []).
Proof.
  intros [Hr Hw Hl _ _]. rewrite Hw. unfold UART_TX_BUF_SIZE in Hl. destruct q as [|b q]; cbn [length] in *.
  - rewrite Z.add_0_r, u64_small, Z.eqb_refl by lia. by rewrite bool_decide_true.
  - rewrite bool_decide_false by done. apply Z.eqb_neq. unfold u64. zlia.
Qed.

Lemma uart_full u q : uart_rep u q ->
  (uart_tx_w u =? u64 (uart_tx_r u + UART_TX_BUF_SIZE)) = (Z.of_nat (length q) =? UART_TX_BUF_SIZE).
Proof.
  intros [Hr Hw Hl _ _]. rewrite Hw. unfold UART_TX_BUF_SIZE in *.
  destruct (Z.eqb_spec (Z.of_nat (length q)) 32) as [->|Hne]; [apply Z.eqb_refl|]. apply Z.eqb_neq. unfold u64. zlia.
Qed.

Lemma uart_put_rep u q c : uart_rep u q -> Z.of_nat (length q) < UART_TX_BUF_SIZE -> uart_rep (uart_put c u) (q ++ [u8 c]).
Proof.
  intros [Hr Hw Hl Ha Hx] Hlt. split; cbn [uart_put uart_tx_r uart_tx_w uart_tx_buf rx]; [done| | | |].
  - rewrite Hw, u64_add, length_app. cbn. f_equal. lia.
  - rewrite length_app. cbn. lia.
  - intros i b [Hi|[Hge Hi]]%lookup_app_Some.
    + rewrite lookup_insert_ne; [by apply Ha|]. apply lookup_lt_Some in Hi.
      rewrite Hw, !uart_index. unfold UART_TX_BUF_SIZE in *. zlia.
    + apply list_lookup_singleton_Some in Hi as [Hz <-]. replace i with (length q) by lia.
      rewrite Hw. by rewrite lookup_insert_eq.
  - apply Forall_app. split; [done|]. repeat constructor; apply u8_range.
Qed.

Lemma uart_take_rep u b q : uart_rep u (b :: q) -> uart_next u = b /\ 0 <= b < 256 /\ uart_rep (uart_take u) q.
Proof.
  intros [Hr Hw Hl Ha [Hb Hx]%Forall_cons]. split; [|split; [done|]].
  - unfold uart_next. pose proof (Ha 0%nat b eq_refl) as H. rewrite Z.add_0_r, u64_small in H by lia. by rewrite H.
  - split; cbn [uart_take uart_tx_r uart_tx_w uart_tx_buf rx]; [apply u64_range| | | |done].
    + rewrite Hw, u64_add. cbn. f_equal. lia.
    + cbn in Hl. lia.
    + intros i c Hi. rewrite u64_add. replace (uart_tx_r u + 1 + Z.of_nat i) with (uart_tx_r u + Z.of_nat (S i)) by lia.
      by apply Ha.
Qed.

(** The bytes among the events, oldest first. *)
Fixpoint putcs (o : list event) : list Z :=
  match o with
  | [] => []
  | EvPutc c :: o' => putcs o' ++ [c]
  | _ :: o' => putcs o'
  end.

Lemma putcs_app o o' : putcs (o ++ o') = putcs o' ++ putcs o.
Proof. induction o as [|[ch|x] o IH]; cbn; [by rewrite app_nil_r|done|by rewrite IH, app_assoc]. Qed.

Section UartSpec.
Variable tx_idle : nat -> bool.
Context {S : Type} (ul : lens S uart) `{LK : !LensOk ul}.

(** The state after the device was read [n] times more and the first [k] bytes were sent. *)
Lemma uart_rep_reads u q n : uart_rep u q -> uart_rep (Uart (uart_tx_buf u) (uart_tx_w u) (uart_tx_r u) n (rx u)) q.
Proof. intros []. by split. Qed.

Lemma uartstart_loop_run fuel : forall q c s, uart_rep (lget ul s) q -> (length q <= fuel)%nat ->
  exists k e u, uartstart_loop tx_idle ul fuel c s = Ok tt (Ctx (held c) (e ++ out c)) (lput ul u s) /\
    (k <= length q)%nat /\ uart_rep u (drop k q) /\ putcs e = take k q /\ rx u = rx (lget ul s) /\
    ((forall n, (lsr_reads (lget ul s) <= n)%nat -> tx_idle n = true) -> k = length q).
Proof.
  induction fuel as [|fuel IH]; intros q c s R Hf; cbn [uartstart_loop]; rewrite bind_getl; unfold id;
    rewrite (uart_empty _ _ R).
  all: destruct q as [|b q]; [rewrite bool_decide_true by done|rewrite bool_decide_false by done].
  1,3: exists 0%nat, [], (lget ul s); unfold retM; cbn [app]; rewrite ctx_eta, lput_lget; by split_and!.
  { cbn in Hf. lia. }
  unfold read_LSR. mrun. unfold id. rewrite lget_lput || idtac. set (s1 := lput ul _ s).
  destruct (tx_idle (lsr_reads (lget ul s))) eqn:Ei.
  2:{ exists 0%nat, [], (lget ul s1). replace (Z.land _ LSR_TX_IDLE =? 0) with true by (by destruct (rx _)).
      unfold retM. cbn [app]. rewrite ctx_eta. unfold s1. rewrite lget_lput. split_and!; try done; try lia.
      - by apply uart_rep_reads. - intros H. by rewrite (H _ (le_n _)) in Ei. }
  replace (Z.land _ LSR_TX_IDLE =? 0) with false by (by destruct (rx _)).
  destruct (uart_take_rep _ _ _ R) as (En & Hb & R'). rewrite En. mrun. unfold wakeup_ev. mrun. unfold s1. rewrite lget_lput, lput_lput.
  set (s2 := lput ul _ s).
  destruct (IH q (Ctx (held c) (EvPutc (u8 b) :: EvWakeup Ch_uart_tx_r :: out c)) s2) as (k & e & u & Hr & Hk & Ru & He & Hx & Hall).
  { unfold s2. rewrite lget_lput. apply (uart_rep_reads (uart_take (lget ul s)) q). exact R'. }
  { cbn in Hf. lia. }
  exists (Datatypes.S k), (e ++ [EvPutc (u8 b); EvWakeup Ch_uart_tx_r]), u. rewrite Hr. unfold s2 in *. rewrite lput_lput. cbn [held out].
  rewrite <- app_assoc. split; [done|]. split; [cbn; lia|]. split; [done|]. split; [|split].
  - rewrite putcs_app, He. cbn. by rewrite u8_small.
  - rewrite Hx, lget_lput. done.
  - intros H. cbn. f_equal. apply Hall. rewrite lget_lput. cbn. intros n Hn. apply H. lia.
Qed.

Lemma uart_send_run q c s : uart_rep (lget ul s) q -> L_uart_tx ∉ held c ->
  exists k e u, uart_send tx_idle ul c s = Ok tt (Ctx (held c) (e ++ out c)) (lput ul u s) /\
    uart_rep u (drop k q) /\ putcs e = take k q /\ ((forall n, (lsr_reads (lget ul s) <= n)%nat -> tx_idle n = true) -> k = length q).
Proof.
  intros R Hl. unfold uart_send, uartstart. rewrite bind_acquire by done.
  destruct (uartstart_loop_run (Z.to_nat UART_TX_BUF_SIZE) q (Ctx (L_uart_tx :: held c) (out c)) s R) as (k & e & u & Hr & _ & Ru & He & _ & Hk).
  { pose proof (ur_len _ _ R). lia. }
  exists k, e, u. rewrite (bind_Ok _ _ _ _ _ _ _ Hr). cbn [held out]. rewrite release_head. by split_and!.
Qed.

Lemma uartputc_run q b c s : uart_rep (lget ul s) q -> held c = [] ->
  if Z.of_nat (length q) =? UART_TX_BUF_SIZE then uartputc tx_idle ul b c s = Ok false c s
  else exists k e u, uartputc tx_idle ul b c s = Ok true (Ctx [] (e ++ out c)) (lput ul u s) /\
    uart_rep u (drop k (q ++ [u8 b])) /\ putcs e = take k (q ++ [u8 b]).
Proof.
  intros R Hh. unfold uartputc, uartstart. rewrite bind_acquire by (rewrite Hh; apply not_elem_of_nil). rewrite bind_getl.
  unfold id. rewrite (uart_full _ _ R), Hh. destruct (Z.eqb_spec (Z.of_nat (length q)) UART_TX_BUF_SIZE) as [|Hne].
  { mrun. unfold retM. by rewrite <- Hh, ctx_eta. }
  pose proof (ur_len _ _ R) as Hlen. rewrite bind_modl. 
  destruct (uartstart_loop_run (Z.to_nat UART_TX_BUF_SIZE) (q ++ [u8 b]) (Ctx [L_uart_tx] (out c)) (lput ul (uart_put b (lget ul s)) s)) as (k & e & u & Hr & _ & Ru & He & _).
  { rewrite lget_lput. apply uart_put_rep; [done|lia]. }
  { rewrite length_app. unfold UART_TX_BUF_SIZE in *. cbn. lia. }
  exists k, e, u. rewrite (bind_Ok _ _ _ _ _ _ _ Hr). cbn [held out]. rewrite bind_release, lput_lput. by split_and!.
Qed.
End UartSpec.

(** ** Writers and interrupts interleaved *)

Definition uart_whole : lens uart uart := Lens (fun u => u) (fun u _ => u).
#[global] Instance uart_whole_ok : LensOk uart_whole.
Proof. by split. Qed.

Section Stream.
Variable tx_idle : nat -> bool.

(** The driver with the bytes that writers have queued and the bytes that were sent. *)
Inductive uart_step : uart * list Z * list Z -> uart * list Z * list Z -> Prop :=
| step_putc u u' ws ss x b o :
    uartputc tx_idle uart_whole x (Ctx [] []) u = Ok b (Ctx [] o) u' ->
    uart_step (u, ws, ss) (u', (if b then ws ++ [u8 x] else ws), ss ++ putcs o)
| step_send u u' ws ss o :
    uart_send tx_idle uart_whole (Ctx [] []) u = Ok tt (Ctx [] o) u' ->
    uart_step (u, ws, ss) (u', ws, ss ++ putcs o)
| step_getc u u' ws ss x :
    uartgetc tx_idle uart_whole (Ctx [] []) u = Ok x (Ctx [] []) u' ->
    uart_step (u, ws, ss) (u', ws, ss)
| step_arrive u ws ss x :
    uart_step (u, ws, ss) (Uart (uart_tx_buf u) (uart_tx_w u) (uart_tx_r u) (lsr_reads u) (rx u ++ [x]), ws, ss).

Inductive uart_reach : uart * list Z * list Z -> Prop :=
| uart_boot b n l : uart_reach (Uart b 0 0 n l, [], [])
| uart_next_step x y : uart_reach x -> uart_step x y -> uart_reach y.

Definition uart_inv (x : uart * list Z * list Z) : Prop :=
  exists q, uart_rep (fst (fst x)) q /\ snd (fst x) = snd x ++ q.

Lemma uart_rep_fields u u' q : uart_rep u q -> uart_tx_buf u' = uart_tx_buf u -> uart_tx_w u' = uart_tx_w u ->
  uart_tx_r u' = uart_tx_r u -> uart_rep u' q.
Proof. intros [] Hb Hw Hr. split; rewrite ?Hb, ?Hw, ?Hr; done. Qed.

Lemma uart_inv_step x y : uart_inv x -> uart_step x y -> uart_inv y.
Proof.
  intros (q & R & E) H. destruct H as [u u' ws ss x b o Hr|u u' ws ss o Hr|u u' ws ss x Hr|u ws ss x]; cbn [fst snd] in *.
  - pose proof (uartputc_run tx_idle uart_whole q x (Ctx [] []) u R eq_refl) as Hp.
    destruct (Z.of_nat (length q) =? UART_TX_BUF_SIZE).
    + rewrite Hp in Hr. injection Hr as <- <- <-. exists q. cbn. by rewrite app_nil_r.
    + destruct Hp as (k & e & v & Hp & Rv & He). rewrite Hp in Hr. cbn in Hr. rewrite app_nil_r in Hr. injection Hr as <- <- <-.
      exists (drop k (q ++ [u8 x])). split; [done|]. cbn. rewrite E, He, <- !app_assoc. by rewrite take_drop.
  - destruct (uart_send_run tx_idle uart_whole q (Ctx [] []) u R) as (k & e & v & Hp & Rv & He & _); [apply not_elem_of_nil|].
    rewrite Hp in Hr. cbn in Hr. rewrite app_nil_r in Hr. injection Hr as <- <-. exists (drop k q). split; [done|]. cbn.
    by rewrite E, He, <- app_assoc, take_drop.
  - exists q. split; [|done]. revert Hr. unfold uartgetc, read_LSR, read_RHR. mrun. cbn.
    destruct (negb _); mrun; intros [= <- <-]; by apply (uart_rep_fields u).
  - exists q. split; [|done]. by apply (uart_rep_fields u).
Qed.

Lemma uart_inv_reach x : uart_reach x -> uart_inv x.
Proof.
  induction 1 as [b n l|x y _ IH Hs]; [|by apply (uart_inv_step x)]. exists []. by split.
Qed.

(** C35: the transmit queue.  Over every interleaving of writers, interrupts and arriving input, what was sent
    followed by what is buffered is what was written, at most 32 bytes are buffered, and a writer sleeps
    exactly when the buffer is full. *)
Theorem uart_fifo u ws ss : uart_reach (u, ws, ss) ->
  exists q, ws = ss ++ q /\ Z.of_nat (length q) <= UART_TX_BUF_SIZE /\
    forall x, exists b c' u', uartputc tx_idle uart_whole x (Ctx [] []) u = Ok b c' u' /\
      (b = false <-> Z.of_nat (length q) = UART_TX_BUF_SIZE).
Proof.
  intros Hr. destruct (uart_inv_reach _ Hr) as (q & R & E).
  exists q. split; [done|]. split; [apply R|]. intros x.
  pose proof (uartputc_run tx_idle uart_whole q x (Ctx [] []) u R eq_refl) as Hp.
  destruct (Z.eqb_spec (Z.of_nat (length q)) UART_TX_BUF_SIZE).
  - by exists false, (Ctx [] []), u.
  - destruct Hp as (k & e & v & Hp & _). by eexists true, _, _.
Qed.

(** output reaches the line.  Once the device takes every byte, one interrupt sends all that writers
    have queued, whatever happened before. *)
Theorem uart_drains u ws ss : (forall n, (lsr_reads u <= n)%nat -> tx_idle n = true) -> uart_reach (u, ws, ss) ->
  exists o u', uart_send tx_idle uart_whole (Ctx [] []) u = Ok tt (Ctx [] o) u' /\ uart_rep u' [] /\ ss ++ putcs o = ws.
Proof.
  intros Hi Hr. destruct (uart_inv_reach _ Hr) as (q & R & E).
  destruct (uart_send_run tx_idle uart_whole q (Ctx [] []) u R) as (k & e & v & Hp & Rv & He & Hk); [apply not_elem_of_nil|].
  specialize (Hk Hi). subst k. rewrite drop_all in Rv. rewrite take_ge in He by done. exists e, v. rewrite Hp. cbn. rewrite app_nil_r.
  split; [done|]. split; [done|]. by rewrite He.
Qed.
End Stream.

(** A writer queues a byte while the device is busy; from then on it is idle. *)
Lemma uart_demo : exists u, uart_reach (fun n => (1 <=? n)%nat) (u, [65], []) /\ lsr_reads u = 1%nat.
Proof.
  eexists. split.
  - eapply (uart_next_step _ (Uart ∅ 0 0 0 [], [], [])); [constructor|].
    refine (step_putc _ _ _ [] [] 65 true [] _). vm_compute. reflexivity.
  - reflexivity.
Qed.

Lemma uart_fifo_witness : exists u q, [65] = [] ++ q /\ uart_reach (fun n => (1 <=? n)%nat) (u, [65], []).
Proof.
  destruct uart_demo as (u & Hr & _). destruct (uart_fifo _ u [65] [] Hr) as (q & E & _). exists u, q. split; [exact E|exact Hr].
Defined.

Lemma uart_drains_witness : exists u o u', uart_send (fun n => (1 <=? n)%nat) uart_whole (Ctx [] []) u = Ok tt (Ctx [] o) u' /\
  putcs o = [65].
Proof.
  destruct uart_demo as (u & Hr & Hl).
  destruct (uart_drains (fun n => (1 <=? n)%nat) u [65] []) as (o & u' & E & _ & Ho);
    [intros n Hn; apply Nat.leb_le; lia|exact Hr|].
  exists u, o, u'. split; [exact E|exact Ho].
Defined.
