(* ===== verification/Console.v ===== *)
(** The console (kernel/console.c).

    Characters arrive in the interrupt handler consoleintr(), which edits the current
    line in a ring buffer of 128 bytes with 32-bit indices r <= w <= e; consoleread()
    takes committed bytes, at most one line; consolewrite() sends bytes through the
    transmit queue of [Uart].

    The specification reads the buffer as two lists: the bytes committed to readers, and the
    line being edited ([cons_rep]).  [console_refines] shows that consoleintr() is the
    line editor [edit] on them, [consoleread_correct] that a read delivers the prefix
    [line_take] of the committed bytes. *)
From S2P Require Import Prelude Machine CString Kalloc Vm PageTable UserMem UserCopy Pipe Printf Uart.
Local Open Scope Z_scope.

Definition INPUT_BUF_SIZE : Z := 128.

(** C(x), a control character. *)
Definition ctrl (x : Z) : Z := x - 64.
Definition C_P : Z := ctrl 80.
Definition C_U : Z := ctrl 85.
Definition C_H : Z := ctrl 72.
Definition C_D : Z := ctrl 68.
Definition DEL : Z := 127.
Definition CR : Z := 13.
Definition LF : Z := 10.

Record cons : Type := Cons { cons_buf : gmap Z Z; cons_r : Z; cons_w : Z; cons_e : Z }.

Section Intr.
Context {S : Type} (cl : lens S cons).
(** procdump() of proc.c, which prints the process table. *)
Variable procdump : M S unit.

Definition cons_at (k : cons) (i : Z) : Z := default 0 (cons_buf k !! (i mod INPUT_BUF_SIZE)).
Definition back_e (k : cons) : cons := Cons (cons_buf k) (cons_r k) (cons_w k) (u32 (cons_e k - 1)).

(** The loop of the kill-line key. *)
Fixpoint kill_line (fuel : nat) : M S unit :=
  k <-! getl cl id ;;
  if negb (cons_e k =? cons_w k) && negb (cons_at k (u32 (cons_e k - 1)) =? LF) then
    match fuel with
    | O => diverge
    | Datatypes.S f =>
        modl cl back_e ;;!
        consputc BACKSPACE ;;!
        kill_line f
    end
  else retM tt.

Definition store_e (c : Z) (k : cons) : cons :=
  Cons (<[cons_e k mod INPUT_BUF_SIZE := u8 c]> (cons_buf k)) (cons_r k) (cons_w k) (u32 (cons_e k + 1)).
Definition commit_w (k : cons) : cons := Cons (cons_buf k) (cons_r k) (cons_e k) (cons_e k).

Definition consoleintr (c : Z) : M S unit :=
  acquire L_cons ;;!
  (if c =? C_P then procdump
   else if c =? C_U then kill_line (Z.to_nat INPUT_BUF_SIZE)
   else if (c =? C_H) || (c =? DEL) then
     k <-! getl cl id ;;
     if negb (cons_e k =? cons_w k) then modl cl back_e ;;! consputc BACKSPACE else retM tt
   else
     k <-! getl cl id ;;
     if negb (c =? 0) && (u32 (cons_e k - cons_r k) <? INPUT_BUF_SIZE) then
       let c := if c =? CR then LF else c in
       consputc c ;;!
       modl cl (store_e c) ;;!
       k <-! getl cl id ;;
       if (c =? LF) || (c =? C_D) || (u32 (cons_e k - cons_r k) =? INPUT_BUF_SIZE) then
         modl cl commit_w ;;! wakeup_ev Ch_cons_r
       else retM tt
     else retM tt) ;;!
  release L_cons.
End Intr.

(** ** Reading and writing *)

(** The console, the serial port, physical memory, and the killed flag of the running process. *)
Record tty : Type := Tty { t_cons : cons; t_uart : uart; t_mem : pmem; t_killed : bool }.

Definition tcons_lens : lens tty cons := Lens t_cons (fun k t => Tty k (t_uart t) (t_mem t) (t_killed t)).
Definition tuart_lens : lens tty uart := Lens t_uart (fun u t => Tty (t_cons t) u (t_mem t) (t_killed t)).
Definition tmem_lens : lens tty pmem := Lens t_mem (fun m t => Tty (t_cons t) (t_uart t) m (t_killed t)).
#[global] Instance tcons_ok : LensOk tcons_lens.
Proof. split; [done|done|by intros []]. Qed.
#[global] Instance tuart_ok : LensOk tuart_lens.
Proof. split; [done|done|by intros []]. Qed.

(** A read or write returns, or sleeps with what its local variables hold. *)
Inductive tout : Type :=
| TRet (r : Z)
| TSleepR (dst n : Z)
| TSleepW (i c : Z).

Section Tty.
Context `{KI : KernelImage}.
Variable tx_idle : nat -> bool.
(** The page table of the process; the callers pass user addresses. *)
Variable root : Z.

Definition set_r (r : Z) (k : cons) : cons := Cons (cons_buf k) r (cons_w k) (cons_e k).

Definition consoleread_done (target n : Z) : M tty tout :=
  release L_cons ;;! retM (TRet (s32 (target - n))).

Fixpoint consoleread_loop (fuel : nat) (target dst n : Z) : M tty tout :=
  if 0 <? n then
    match fuel with
    | O => diverge
    | S f =>
        t <-! getM ;;
        let k := t_cons t in
        if cons_r k =? cons_w k then
          if t_killed t then release L_cons ;;! retM (TRet (-1))
          else goto_sleep L_cons ;;! retM (TSleepR dst n)
        else
          let c := cons_at k (cons_r k) in
          modl tcons_lens (fun k => set_r (u32 (cons_r k + 1)) k) ;;!
          if c =? C_D then
            (if n <? target then modl tcons_lens (fun k => set_r (u32 (cons_r k - 1)) k) else retM tt) ;;!
            consoleread_done target n
          else
            r <-! zoom tmem_lens (copyout root dst [c]) ;;
            if r =? -1 then consoleread_done target n
            else if c =? LF then consoleread_done target (n - 1)
            else consoleread_loop f target (u64 (dst + 1)) (n - 1)
    end
  else consoleread_done target n.

(** A read of [target] bytes that has [n] left to store at [dst]: from the start or after it was woken. *)
Definition consoleread_from (target dst n : Z) : M tty tout :=
  acquire L_cons ;;! consoleread_loop (Z.to_nat n) target dst n.
Definition consoleread (dst n : Z) : M tty tout := consoleread_from n dst n.

(** [pend]: the byte that uartputc() slept with. *)
Fixpoint consolewrite_loop (fuel : nat) (src n i : Z) (pend : option Z) : M tty tout :=
  if i <? n then
    match fuel with
    | O => diverge
    | S f =>
        r <-! (match pend with
               | Some c => retM (0, [c])
               | None => zoom tmem_lens (copyin root (u64 (src + i)) 1)
               end) ;;
        if fst r =? -1 then retM (TRet i)
        else
          b <-! uartputc tx_idle tuart_lens (hd 0 (snd r)) ;;
          if b then consolewrite_loop f src n (i + 1) None
          else retM (TSleepW i (hd 0 (snd r)))
    end
  else retM (TRet i).
Definition consolewrite_from (src n i : Z) (pend : option Z) : M tty tout :=
  consolewrite_loop (Z.to_nat (n - i)) src n i pend.
Definition consolewrite (src n : Z) : M tty tout := consolewrite_from src n 0 None.
End Tty.

(** ** The buffer as two lists *)

(** [q]: the bytes committed to readers; [l]: the line being edited. *)
Record cons_rep (k : cons) (q l : list Z) : Prop := {
  cr_r : 0 <= cons_r k < 2 ^ 32;
  cr_w : cons_w k = u32 (cons_r k + Z.of_nat (length q));
  cr_e : cons_e k = u32 (cons_r k + Z.of_nat (length (q ++ l)));
  cr_len : Z.of_nat (length (q ++ l)) <= INPUT_BUF_SIZE;
  cr_at : forall i b, (q ++ l) !! i = Some b -> cons_buf k !! (u32 (cons_r k + Z.of_nat i) mod INPUT_BUF_SIZE) = Some b;
  cr_line : LF ∉ l;
}.

(** What the handler does to the lists. *)
Definition edit (c : Z) (q l : list Z) : list Z * list Z :=
  if c =? C_P then (q, l)
  else if c =? C_U then (q, [])
  else if (c =? C_H) || (c =? DEL) then (q, removelast l)
  else if negb (c =? 0) && (Z.of_nat (length (q ++ l)) <? INPUT_BUF_SIZE) then
    let c := if c =? CR then LF else c in
    if (c =? LF) || (c =? C_D) || (Z.of_nat (length (q ++ l)) + 1 =? INPUT_BUF_SIZE) then (q ++ l ++ [c], [])
    else (q, l ++ [c])
  else (q, l).

Lemma cons_index a : u32 a mod INPUT_BUF_SIZE = a mod INPUT_BUF_SIZE.
Proof. unfold u32, INPUT_BUF_SIZE. zlia. Qed.

Lemma cons_used k q l : cons_rep k q l -> u32 (cons_e k - cons_r k) = Z.of_nat (length (q ++ l)).
Proof.
  intros [Hr Hw He Hl _ _]. rewrite He. unfold INPUT_BUF_SIZE in *. unfold u32. rewrite Zminus_mod_idemp_l.
  rewrite Z.mod_small by lia. lia.
Qed.

Lemma cons_line k q l : cons_rep k q l -> (cons_e k =? cons_w k) = bool_decide (l = []).
Proof.
  intros [Hr Hw He Hl _ _]. rewrite He, Hw, length_app in *. unfold INPUT_BUF_SIZE in *. destruct l as [|b l]; cbn [length] in *.
  - rewrite Nat.add_0_r, Z.eqb_refl. by rewrite bool_decide_true.
  - rewrite bool_decide_false by done. apply Z.eqb_neq. unfold u32. zlia.
Qed.

Lemma cons_queue k q l : cons_rep k q l -> (cons_r k =? cons_w k) = bool_decide (q = []).
Proof.
  intros [Hr Hw He Hl _ _]. rewrite Hw, length_app in *. unfold INPUT_BUF_SIZE in *. destruct q as [|b q]; cbn [length] in *.
  - rewrite Z.add_0_r, u32_small, Z.eqb_refl by lia. by rewrite bool_decide_true.
  - rewrite bool_decide_false by done. apply Z.eqb_neq. unfold u32. zlia.
Qed.

Lemma cons_back k q l b : cons_rep k q (l ++ [b]) ->
  cons_at k (u32 (cons_e k - 1)) = b /\ cons_rep (back_e k) q l.
Proof.
  intros [Hr Hw He Hl Ha Hn]. rewrite app_assoc, length_app in He, Hl. cbn [length] in He, Hl.
  assert (u32 (cons_e k - 1) = u32 (cons_r k + Z.of_nat (length (q ++ l)))) as E.
  { rewrite He. unfold u32. rewrite Zminus_mod_idemp_l. f_equal. lia. }
  split.
  - unfold cons_at. rewrite E. rewrite (Ha (length (q ++ l)) b); [done|].
    rewrite app_assoc, lookup_app_r, Nat.sub_diag by lia. done.
  - split; cbn [back_e cons_r cons_w cons_e cons_buf]; [done|done|by rewrite E|lia| |].
    + intros i x Hi. apply Ha. rewrite app_assoc. by apply lookup_app_l_Some.
    + intros Hin. apply Hn, elem_of_app. by left.
Qed.

(** The byte goes to the end; it stays in the line or the whole line is committed. *)
Lemma store_at k q l c i b : cons_rep k q l -> Z.of_nat (length (q ++ l)) < INPUT_BUF_SIZE -> 0 <= c < 256 ->
  (q ++ l ++ [c]) !! i = Some b ->
  cons_buf (store_e c k) !! (u32 (cons_r k + Z.of_nat i) mod INPUT_BUF_SIZE) = Some b.
Proof.
  intros [Hr Hw He Hl Ha _] Hlt Hc. cbn [store_e cons_buf]. rewrite app_assoc, (u8_small c), He by done.
  intros [Hi|[Hge Hi]]%lookup_app_Some.
  - rewrite lookup_insert_ne; [by apply Ha|]. apply lookup_lt_Some in Hi. rewrite !cons_index. unfold INPUT_BUF_SIZE in *. zlia.
  - apply list_lookup_singleton_Some in Hi as [Hz <-]. replace i with (length (q ++ l)) by lia. by rewrite lookup_insert_eq.
Qed.

Lemma store_e_val k q l c : cons_rep k q l -> cons_e (store_e c k) = u32 (cons_r k + Z.of_nat (length (q ++ l ++ [c]))).
Proof.
  intros [Hr Hw He Hl Ha _]. cbn [store_e cons_e]. rewrite He, u32_add, app_assoc, (length_app (q ++ l)). cbn. f_equal. lia.
Qed.

Lemma cons_store k q l c : cons_rep k q l -> Z.of_nat (length (q ++ l)) < INPUT_BUF_SIZE -> 0 <= c < 256 ->
  (c <> LF -> cons_rep (store_e c k) q (l ++ [c])) /\ cons_rep (commit_w (store_e c k)) (q ++ l ++ [c]) [] /\
  u32 (cons_e (store_e c k) - cons_r k) = Z.of_nat (length (q ++ l)) + 1.
Proof.
  intros R Hlt Hc. pose proof (store_e_val _ _ _ c R) as Ee. pose proof (cr_r _ _ _ R) as Hr.
  assert (Z.of_nat (length (q ++ l ++ [c])) = Z.of_nat (length (q ++ l)) + 1) as El by (rewrite app_assoc, (length_app (q ++ l)); cbn; lia).
  split; [|split].
  - intros Hn. split; [done|apply R|done|lia|intros i b; exact (store_at k q l c i b R Hlt Hc)|].
    rewrite not_elem_of_app, not_elem_of_cons. split; [apply R|]. split; [done|apply not_elem_of_nil].
  - split; cbn [commit_w cons_r cons_w cons_e cons_buf]; rewrite ?app_nil_r; [done|done|done|lia| |apply not_elem_of_nil].
    intros i b. exact (store_at k q l c i b R Hlt Hc).
  - rewrite Ee. unfold INPUT_BUF_SIZE in *. unfold u32. rewrite Zminus_mod_idemp_l, Z.mod_small by lia. lia.
Qed.

Section IntrSpec.
Context {S : Type} (cl : lens S cons) `{LK : !LensOk cl}.
Variable procdump : M S unit.

Lemma kill_line_run fuel : forall q l c s, cons_rep (lget cl s) q l -> (length l <= fuel)%nat ->
  exists bs k, kill_line cl fuel c s = Ok tt (Ctx (held c) (map EvPutc bs ++ out c)) (lput cl k s) /\ cons_rep k q [].
Proof.
  induction fuel as [|fuel IH]; intros q l c s R Hf; cbn [kill_line]; rewrite bind_getl; unfold id; rewrite (cons_line _ _ _ R).
  all: destruct l as [|b l _] using rev_ind; [rewrite bool_decide_true by done|rewrite bool_decide_false by (by destruct l)].
  1,3: exists [], (lget cl s); unfold retM; cbn [app map]; rewrite ctx_eta, lput_lget; by split.
  all: rewrite length_app in Hf; cbn in Hf. { lia. } destruct (cons_back _ _ _ _ R) as [Eb R']. cbn [negb andb]. rewrite Eb.
  assert (b <> LF) as Hne. { intros ->. apply (cr_line _ _ _ R), elem_of_app. right. apply list_elem_of_here. }
  apply Z.eqb_neq in Hne as ->. cbn [negb]. rewrite bind_modl.
  destruct (prints_consputc BACKSPACE c (lput cl (back_e (lget cl s)) s)) as (o1 & H1). rewrite (bind_Ok _ _ _ _ _ _ _ H1).
  destruct (IH q l (Ctx (held c) (map EvPutc o1 ++ out c)) (lput cl (back_e (lget cl s)) s)) as (o2 & k & H2 & R2); [by rewrite lget_lput|lia|].
  exists (o2 ++ o1), k. rewrite H2, lput_lput. cbn [held out]. rewrite map_app, app_assoc. by split.
Qed.

(** The rest of the handler for an ordinary character. *)
Lemma echo_run c0 q l c s : cons_rep (lget cl s) q l -> Z.of_nat (length (q ++ l)) < INPUT_BUF_SIZE -> 0 <= c0 < 256 ->
  let full := (c0 =? LF) || (c0 =? C_D) || (Z.of_nat (length (q ++ l)) + 1 =? INPUT_BUF_SIZE) in
  exists bs k, (consputc c0 ;;! modl cl (store_e c0) ;;! k <-! getl cl id ;;
       if (c0 =? LF) || (c0 =? C_D) || (u32 (cons_e k - cons_r k) =? INPUT_BUF_SIZE) then
         modl cl commit_w ;;! wakeup_ev Ch_cons_r
       else retM tt) c s =
    Ok tt (Ctx (held c) ((if full then [EvWakeup Ch_cons_r] else []) ++ map EvPutc bs ++ out c)) (lput cl k s) /\
    if full then cons_rep k (q ++ l ++ [c0]) [] else cons_rep k q (l ++ [c0]).
Proof.
  intros R Hlt Hc full. destruct (prints_consputc c0 c s) as (bs & Hb). rewrite (bind_Ok _ _ _ _ _ _ _ Hb).
  destruct (cons_store _ _ _ c0 R Hlt Hc) as (R1 & R2 & Eu). mrun. unfold id. rewrite lget_lput.
  change (cons_r (store_e c0 (lget cl s))) with (cons_r (lget cl s)). rewrite Eu. fold full. exists bs. destruct full eqn:Ef.
  - eexists. unfold wakeup_ev, emit. mrun. rewrite lget_lput, lput_lput. by split.
  - eexists. split; [reflexivity|]. apply R1. intros ->. unfold full in Ef. by rewrite Z.eqb_refl in Ef.
Qed.

(** C17: the interrupt handler is the line editor.  Whatever the buffer holds, consoleintr() does to the committed
    bytes and the line being edited what [edit] does, never overruns the 128 bytes, and wakes readers exactly
    when it commits a line. *)
Theorem console_refines x q l c s : prints_in (Ctx (L_cons :: held c) (out c)) procdump ->
  cons_rep (lget cl s) q l -> 0 <= x < 256 -> L_cons ∉ held c ->
  exists bs k, consoleintr cl procdump x c s =
      Ok tt (Ctx (held c) ((if decide (fst (edit x q l) = q) then [] else [EvWakeup Ch_cons_r]) ++ map EvPutc bs ++ out c)) (lput cl k s) /\
    cons_rep k (fst (edit x q l)) (snd (edit x q l)).
Proof.
  intros Hd R Hx Hl. unfold consoleintr, edit. rewrite bind_acquire by done.
  destruct (Z.eqb_spec x C_P) as [->|_].
  { destruct (Hd s) as (bs & Hr). rewrite (bind_Ok _ _ _ _ _ _ _ Hr). cbn [held out fst snd]. rewrite release_head.
    exists bs, (lget cl s). by rewrite lput_lget, decide_True. }
  destruct (Z.eqb_spec x C_U) as [->|_].
  { destruct (kill_line_run (Z.to_nat INPUT_BUF_SIZE) q l (Ctx (L_cons :: held c) (out c)) s R) as (bs & k & Hr & R').
    { pose proof (cr_len _ _ _ R) as Hlen. rewrite length_app in Hlen. lia. }
    rewrite (bind_Ok _ _ _ _ _ _ _ Hr). cbn [held out fst snd]. rewrite release_head. exists bs, k. by rewrite decide_True. }
  destruct ((x =? C_H) || (x =? DEL)).
  { rewrite !bind_assoc, bind_getl. unfold id. rewrite (cons_line _ _ _ R). cbn [fst snd]. rewrite decide_True by done.
    destruct l as [|b l _] using rev_ind; [rewrite bool_decide_true by done|rewrite bool_decide_false by (by destruct l)]; cbn [negb].
    - exists [], (lget cl s). mrun. cbn. by rewrite lput_lget.
    - destruct (cons_back _ _ _ _ R) as [_ R']. mrun.
      destruct (prints_consputc BACKSPACE (Ctx (L_cons :: held c) (out c)) (lput cl (back_e (lget cl s)) s)) as (bs & Hb).
      rewrite (bind_Ok _ _ _ _ _ _ _ Hb). cbn [held out]. rewrite release_head, removelast_last. by exists bs, (back_e (lget cl s)). }
  rewrite !bind_assoc, bind_getl. change (id (lget cl s)) with (lget cl s). rewrite (cons_used _ _ _ R).
  destruct (negb (x =? 0) && (Z.of_nat (length (q ++ l)) <? INPUT_BUF_SIZE)) eqn:Ec.
  2:{ exists [], (lget cl s). cbn [fst snd]. rewrite decide_True by done. mrun. cbn. by rewrite lput_lget. }
  set (c0 := if x =? CR then LF else x). assert (0 <= c0 < 256) as Hc0 by (unfold c0, LF; destruct (x =? CR); lia).
  destruct (echo_run c0 q l (Ctx (L_cons :: held c) (out c)) s R ltac:(lia) Hc0) as (bs & k & Hr & R').
  cbv zeta. rewrite (bind_Ok _ _ _ _ _ _ _ Hr). cbn [held out]. rewrite release_head. exists bs, k.
  destruct ((c0 =? LF) || (c0 =? C_D) || _); cbn [fst snd]; [|by rewrite decide_True].
  rewrite decide_False; [done|]. intros E%(f_equal length). rewrite !length_app in E. cbn in E. lia.
Qed.
End IntrSpec.

(** ** Reading lines *)

(** What a read with [n] bytes to go takes from the committed bytes [q]: the bytes it stores, what is left,
    and whether it has to wait for more.  [tr] says where the destination is mapped; [first] that nothing
    was stored yet. *)
Fixpoint line_take (tr : Z -> option Z) (q : list Z) (first : bool) (dst : Z) (n : nat) {struct n} : list Z * list Z * bool :=
  match n with
  | O => ([], q, false)
  | S n' =>
      match q with
      | [] => ([], [], true)
      | c :: q' =>
          if c =? C_D then ([], if first then q' else q, false)
          else
            match tr dst with
            | None => ([], q', false)
            | Some _ =>
                if c =? LF then ([c], q', false)
                else let '(d, r, b) := line_take tr q' false (dst + 1) n' in (c :: d, r, b)
            end
      end
  end.

Lemma cons_take k c q l : cons_rep k (c :: q) l ->
  cons_at k (cons_r k) = c /\ cons_rep (set_r (u32 (cons_r k + 1)) k) q l /\ u32 (u32 (cons_r k + 1) - 1) = cons_r k.
Proof.
  intros [Hr Hw He Hl Ha Hn]. cbn [app length] in *. split; [|split].
  - unfold cons_at. pose proof (Ha 0%nat c eq_refl) as H. rewrite Z.add_0_r, u32_small in H by lia. by rewrite H.
  - split; cbn [set_r cons_r cons_w cons_e cons_buf]; [apply u32_range| | |lia| |done].
    + rewrite Hw, u32_add. f_equal. lia.
    + rewrite He, u32_add. f_equal. lia.
    + intros i b Hi. rewrite u32_add. replace (cons_r k + 1 + Z.of_nat i) with (cons_r k + Z.of_nat (S i)) by lia. by apply Ha.
  - unfold u32. rewrite Zminus_mod_idemp_l. rewrite Z.mod_small by lia. lia.
Qed.

Section ReadSpec.
Context `{KI : KernelImage}.
Variables (root : Z) (T : gmap (list Z) Z) (L : gmap Z Z).
Hypothesis Hown : user_own L.

(** The outcome of a read that stored [d] and waits iff [b]. *)
Definition read_out (target dst n : Z) (killed b : bool) (d : list Z) : tout :=
  if b then if killed then TRet (-1) else TSleepR (dst + Z.of_nat (length d)) (n - Z.of_nat (length d))
  else TRet (target - (n - Z.of_nat (length d))).

Lemma consoleread_loop_run fuel : forall target dst n q l o k u m fl kd, as_inv m fl root T L -> cons_rep k q l ->
  0 <= dst -> dst + n < 2 ^ 64 -> 0 <= n <= target -> target < 2 ^ 31 -> n = Z.of_nat fuel ->
  let '(d, r, b) := line_take (uaddr PTE_WU L) q (n =? target) dst fuel in
  exists k', consoleread_loop root fuel target dst n (Ctx [L_cons] o) (Tty k u m kd) =
      Ok (read_out target dst n kd b d) (Ctx [] o)
         (Tty k' u (PMem (snd (write_user (pm_mem m) (uaddr PTE_WU L) dst d)) (freelist m)) kd) /\
    cons_rep k' r l.
Proof.
  induction fuel as [|f IH]; intros target dst n q l o k u m fl kd Hi R Hd Hn Ht Hb En; cbn [line_take consoleread_loop].
  - subst n. cbv beta iota. exists k. cbn [write_user snd length]. unfold read_out. cbn [length]. unfold consoleread_done. mrun. unfold retM. split; [|done].
    destruct m. change (0 <? Z.of_nat 0) with false. cbv iota. mrun. unfold retM. do 2 f_equal. rewrite s32_id by lia. lia.
  - rewrite (proj2 (Z.ltb_lt 0 n)) by lia. rewrite bind_get. cbn [t_cons t_killed]. rewrite (cons_queue _ _ _ R).
    destruct q as [|c q]; [rewrite bool_decide_true by done|rewrite bool_decide_false by done].
    { cbv beta iota. exists k. cbn [write_user snd]. unfold read_out. cbn [length]. rewrite Z.add_0_r, Z.sub_0_r. destruct m, kd; by mrun. }
    destruct (cons_take _ _ _ _ R) as (Ec & R' & Eb). rewrite Ec. rewrite bind_modl. cbn [tcons_lens lget lput t_cons t_uart t_mem t_killed].
    destruct (Z.eqb_spec c C_D) as [->|Hnd].
    { unfold consoleread_done. cbn [write_user snd length]. unfold read_out. cbn [length]. rewrite Z.sub_0_r, s32_id by lia.
      replace (n <? target) with (negb (n =? target)) by lia. destruct (n =? target); cbn [negb].
      - eexists. mrun. destruct m. by split.
      - exists k. rewrite bind_modl. cbn [tcons_lens lget lput t_cons t_uart t_mem t_killed set_r cons_r]. mrun. rewrite Eb. destruct m, k. by split. }
    pose proof (copyout1 root T L Hown (Ctx [L_cons] o) m fl dst c Hi Hd) as Hc. unfold zoom at 1. unfold bindM at 1.
    cbn [tmem_lens lget lput t_mem t_cons t_uart t_killed]. destruct (uaddr PTE_WU L dst) as [a|] eqn:Ea.
    2:{ rewrite Hc. change (-1 =? -1) with true. cbv iota. unfold consoleread_done. mrun. eexists. cbn [write_user snd]. unfold read_out. cbn [length].
        rewrite Z.sub_0_r, s32_id by lia. destruct m. by split. }
    destruct Hc as [-> Hi']. change (0 =? -1) with false. cbv iota.
    destruct (Z.eqb_spec c LF) as [->|Hnl].
    { unfold consoleread_done. mrun. eexists. cbn [write_user]. rewrite Ea. cbn [snd]. unfold read_out. cbn [length].
      rewrite s32_id by lia. change (Z.of_nat 1) with 1. by split. }
    destruct f as [|f'].
    + cbn [line_take]. cbn [consoleread_loop]. rewrite (proj2 (Z.ltb_ge 0 (n - 1))) by lia. unfold consoleread_done. mrun. eexists.
      cbn [write_user]. rewrite Ea. cbn [snd]. unfold read_out. cbn [length]. rewrite s32_id by lia. change (Z.of_nat 1) with 1. by split.
    + specialize (IH target (dst + 1) (n - 1) q l o _ u _ fl kd Hi' R' ltac:(lia) ltac:(lia) ltac:(lia) Hb ltac:(lia)).
      replace (n - 1 =? target) with false in IH by lia. rewrite u64_small by lia.
      destruct (line_take _ q false (dst + 1) (S f')) as [[d r] b]. destruct IH as (k' & -> & Rk). exists k'.
      cbn [write_user]. rewrite Ea. split; [|done]. cbn [pm_mem freelist]. f_equal. unfold read_out. cbn [length].
      destruct b; [destruct kd; [done|]|]; f_equal; lia.
Qed.

(** a read of the console delivers, in order, committed bytes up to the end of a line, stops before a control-D
    unless it is the first byte, returns how many bytes it stored, and sleeps exactly when it needs more
    bytes than are committed; the line being edited is not touched. *)
Theorem consoleread_correct target dst n q l o k u m fl kd : as_inv m fl root T L -> cons_rep k q l ->
  0 <= dst -> dst + n < 2 ^ 64 -> 0 <= n <= target -> target < 2 ^ 31 ->
  let '(d, r, b) := line_take (uaddr PTE_WU L) q (n =? target) dst (Z.to_nat n) in
  exists k', consoleread_from root target dst n (Ctx [] o) (Tty k u m kd) =
      Ok (read_out target dst n kd b d) (Ctx [] o)
         (Tty k' u (PMem (snd (write_user (pm_mem m) (uaddr PTE_WU L) dst d)) (freelist m)) kd) /\
    cons_rep k' r l.
Proof.
  intros Hi R Hd Hn Ht Hb. unfold consoleread_from. rewrite bind_acquire by apply not_elem_of_nil. cbn [held out].
  apply (consoleread_loop_run (Z.to_nat n) target dst n q l o k u m fl kd Hi R Hd Hn Ht Hb). lia.
Qed.
End ReadSpec.

Section WriteSpec.
Context `{KI : KernelImage}.
Variable tx_idle : nat -> bool.
Variables (root : Z) (T : gmap (list Z) Z) (L : gmap Z Z).
Hypothesis Hown : user_own L.

(** How far a write got, and the byte it sleeps with. *)
Definition write_at (r : tout) : Z := match r with TRet i => i | TSleepW i _ => i | TSleepR _ _ => 0 end.

(** [w] bytes of the source were handed over from index [i] on: [r] is what the segment ended with. *)
Definition write_stops (m : pmem) (src n : Z) (r : tout) (q : list Z) : Prop :=
  match r with
  | TRet j => j = n \/ (j < n /\ uaddr PTE_U L (src + j) = None)
  | TSleepW j b => j < n /\ Z.of_nat (length q) = UART_TX_BUF_SIZE /\
      exists a, uaddr PTE_U L (src + j) = Some a /\ b = mget (pm_mem m) a
  | TSleepR _ _ => False
  end.

Lemma consolewrite_loop_run src n m fl k kd : as_inv m fl root T L -> 0 <= src -> src + n < 2 ^ 64 ->
  forall fuel i o u q, 0 <= i <= n -> n - i = Z.of_nat fuel -> uart_rep u q ->
  exists r e u' q' bs, consolewrite_loop tx_idle root fuel src n i None (Ctx [] o) (Tty k u m kd) =
      Ok r (Ctx [] (e ++ o)) (Tty k u' m kd) /\
    i <= write_at r <= n /\ read_user (pm_mem m) (uaddr PTE_U L) (src + i) (Z.to_nat (write_at r - i)) = (true, bs) /\
    uart_rep u' q' /\ putcs e ++ q' = q ++ bs /\ write_stops m src n r q'.
Proof.
  intros Hi Hs Hn fuel. induction fuel as [|f IH]; intros i o u q Hr Ef R; cbn [consolewrite_loop].
  - rewrite (proj2 (Z.ltb_ge i n)) by lia. exists (TRet i), [], u, q, []. cbn [write_at write_stops]. rewrite Z.sub_diag.
    split_and!; try done; try lia; cbn; rewrite ?app_nil_r; try done.
  - rewrite (proj2 (Z.ltb_lt i n)) by lia. rewrite u64_small by lia.
    pose proof (copyin1 root T L Hown (Ctx [] o) m fl (src + i) Hi ltac:(lia)) as Hc. unfold zoom at 1. unfold bindM at 1.
    cbn [tmem_lens lget lput t_mem t_cons t_uart t_killed]. destruct (uaddr PTE_U L (src + i)) as [a|] eqn:Ea; rewrite Hc; cbn [fst snd hd].
    2:{ exists (TRet i), [], u, q, []. cbn [write_at write_stops]. rewrite Z.sub_diag, app_nil_r.
        split_and!; try done; try lia. right. split; [lia|done]. }
    change (0 =? -1) with false. cbv iota. set (b := mget (pm_mem m) a).
    pose proof (uartputc_run tx_idle tuart_lens q b (Ctx [] o) (Tty k u m kd) R eq_refl) as Hp.
    destruct (Z.eqb_spec (Z.of_nat (length q)) UART_TX_BUF_SIZE) as [Eq|_].
    + rewrite (bind_Ok _ _ _ _ _ _ _ Hp). exists (TSleepW i b), [], u, q, []. cbn [write_at write_stops]. rewrite Z.sub_diag, app_nil_r.
      split_and!; try done; try lia. by exists a.
    + destruct Hp as (j & e & u1 & Hp & R1 & He). rewrite (bind_Ok _ _ _ _ _ _ _ Hp).
      cbn [tuart_lens lput t_mem t_cons t_uart t_killed out].
      destruct (IH (i + 1) (e ++ o) u1 _ ltac:(lia) ltac:(lia) R1) as (r & e' & u' & q' & bs & H1 & H2 & H3 & H4 & H5 & H6).
      exists r, (e' ++ e), u', q', (b :: bs). rewrite H1, app_assoc. split; [done|]. split; [lia|]. split.
      { replace (Z.to_nat (write_at r - i)) with (S (Z.to_nat (write_at r - (i + 1)))) by lia. cbn [read_user]. rewrite Ea.
        replace (src + i + 1) with (src + (i + 1)) by lia. by rewrite H3. }
      split; [done|]. split; [|done]. rewrite putcs_app, <- app_assoc, H5, He, app_assoc, take_drop, <- app_assoc.
      unfold b. rewrite u8_small by apply mget_range. done.
Qed.

(** a write to the console hands the bytes of the source to the transmit queue in order: what was sent and what is
    queued afterwards is what was queued before followed by those bytes.  It returns at the end of the
    source or at its first unmapped byte, and sleeps only on a full queue, with the next byte in hand. *)
Theorem consolewrite_correct src n m fl k kd i o u q : as_inv m fl root T L -> 0 <= src -> src + n < 2 ^ 64 ->
  0 <= i <= n -> uart_rep u q ->
  exists r e u' q' bs, consolewrite_from tx_idle root src n i None (Ctx [] o) (Tty k u m kd) =
      Ok r (Ctx [] (e ++ o)) (Tty k u' m kd) /\
    i <= write_at r <= n /\ read_user (pm_mem m) (uaddr PTE_U L) (src + i) (Z.to_nat (write_at r - i)) = (true, bs) /\
    uart_rep u' q' /\ putcs e ++ q' = q ++ bs /\ write_stops m src n r q'.
Proof.
  intros Hi Hs Hn Hr R. apply (consolewrite_loop_run src n m fl k kd Hi Hs Hn); [done|lia|done].
Qed.
End WriteSpec.
