(* ===== verification/ConsoleExamples.v ===== *)
(** A console with one committed line and one being edited, at which the theorems of
    [Console] apply; the process is the one of [Concrete] with two user pages. *)
From S2P Require Import Prelude Machine CString Kalloc Vm PageTable UserMem UserCopy Concrete Pipe PipeExamples Printf Uart Console.
Local Open Scope Z_scope.

(** The indices are about to wrap: A and a newline are committed, B is being edited. *)
Definition demo_cons : cons := Cons {[126 := 65; 127 := 10; 0 := 66]} (2 ^ 32 - 2) 0 1.
Definition demo_uart : uart := Uart ∅ 0 0 0 [].
Definition demo_tty : tty := Tty demo_cons demo_uart demo_user false.

Lemma demo_cons_rep : cons_rep demo_cons [65; 10] [66].
Proof.
  split; [cbn; lia|reflexivity|reflexivity|vm_compute; discriminate| |].
  - intros [|[|[|i]]] b Hi; cbn in Hi; [injection Hi as <-; reflexivity..|done].
  - apply not_elem_of_cons. split; [done|apply not_elem_of_nil].
Qed.

Lemma demo_uart_rep : uart_rep demo_uart [].
Proof. by split. Qed.

Lemma console_refines_witness : exists bs k,
  consoleintr tcons_lens (printf (str newline) []) CR (Ctx [] []) demo_tty =
    Ok tt (Ctx [] (EvWakeup Ch_cons_r :: map EvPutc bs)) (lput tcons_lens k demo_tty) /\ cons_rep k [65; 10; 66; 10] [].
Proof.
  destruct (console_refines tcons_lens (printf (str newline) []) CR [65; 10] [66] (Ctx [] []) demo_tty) as (bs & k & E & R);
    [|exact demo_cons_rep|unfold CR; lia|apply not_elem_of_nil|].
  - intros s. exists [10]. reflexivity.
  - exists bs, k. rewrite app_nil_r in E. split; [exact E|exact R].
Defined.

Lemma consoleread_correct_witness : exists k m',
  consoleread_from demo_root 2 4095 2 (Ctx [] []) demo_tty = Ok (TRet 2) (Ctx [] []) (Tty k demo_uart m' false) /\ cons_rep k [] [66].
Proof.
  destruct demo_space as (fl & T & L & Hi & Hu & _ & Es). unfold demo_tty.
  pose proof (consoleread_correct demo_root T L Hu 2 4095 2 [65; 10] [66] [] demo_cons demo_uart demo_user fl false Hi demo_cons_rep
    ltac:(lia) ltac:(lia) ltac:(lia) ltac:(lia)) as H. generalize dependent demo_user. intros m Hi H.
  change (Z.to_nat 2) with 2%nat in H. cbn [line_take stored] in H, Es. change (65 =? C_D) with false in H. change (10 =? C_D) with false in H.
  destruct (uaddr PTE_WU L 4095); [|discriminate Es]. destruct (uaddr PTE_WU L (4095 + 1)); [|discriminate Es].
  destruct H as (k & E & R). eexists k, _. split; [exact E|exact R].
Defined.

Lemma consolewrite_correct_witness : exists r e t,
  consolewrite_from (fun _ => true) demo_root 5000 3 0 None (Ctx [] []) demo_tty = Ok r (Ctx [] e) t.
Proof.
  destruct demo_space as (fl & T & L & Hi & Hu & _). unfold demo_tty.
  destruct (consolewrite_correct (fun _ => true) demo_root T L Hu 5000 3 demo_user fl demo_cons false 0 [] demo_uart [] Hi ltac:(lia) ltac:(lia)
    ltac:(lia) demo_uart_rep) as (r & e & u' & q' & bs & E & _).
  rewrite app_nil_r in E. exists r, e, (Tty demo_cons u' demo_user false). exact E.
Defined.
