(* ===== verification/Proc.v ===== *)
(** Processes (kernel/proc.c, kernel/proc.h): the process table and the operations on it that need
    physical memory and nothing else of the kernel.

    The state is the table, the pid counter, initproc, the process that runs on this CPU,
    and physical memory, which holds the trapframes and the page tables.  A process is the index of
    its slot.  An operation that gives up the CPU is split at swtch(): what comes before it
    is one definition, what runs when the process is scheduled again another.

    [Fork] adds the operations that also touch files and inodes; [ProcInv] and [ProcMem] prove
    the theorems. *)
From S2P Require Import Prelude Machine CString Kalloc Vm Printf.
Local Open Scope Z_scope.

Inductive procstate : Type := UNUSED | USED | SLEEPING | RUNNABLE | RUNNING | ZOMBIE.
#[global] Instance procstate_eq_dec : EqDecision procstate.
Proof. solve_decision. Defined.

(** struct context: the return address and stack pointer; the other registers are zero when the kernel sets
    one up, and only swtch.S touches them. *)
Record context : Type := Context { ctx_ra : Z; ctx_sp : Z }.

Record proc : Type := Proc {
  p_state : procstate;
  p_chan : option chan;
  p_killed : Z;
  p_xstate : Z;
  p_pid : Z;
  p_parent : option nat;
  p_kstack : Z;
  p_sz : Z;
  p_pagetable : Z;
  p_trapframe : Z;
  p_context : context;
  p_ofile : gmap Z nat;
  p_cwd : option nat;
  p_name : list Z;
  p_trace_mask : Z;
}.

#[global] Instance proc_inhabited : Inhabited proc :=
  populate (Proc UNUSED None 0 0 0 None 0 0 0 0 (Context 0 0) ∅ None [] 0).

Definition set_state x p := Proc x (p_chan p) (p_killed p) (p_xstate p) (p_pid p) (p_parent p) (p_kstack p) (p_sz p) (p_pagetable p) (p_trapframe p) (p_context p) (p_ofile p) (p_cwd p) (p_name p) (p_trace_mask p).
Definition set_chan x p := Proc (p_state p) x (p_killed p) (p_xstate p) (p_pid p) (p_parent p) (p_kstack p) (p_sz p) (p_pagetable p) (p_trapframe p) (p_context p) (p_ofile p) (p_cwd p) (p_name p) (p_trace_mask p).
Definition set_pkilled x p := Proc (p_state p) (p_chan p) x (p_xstate p) (p_pid p) (p_parent p) (p_kstack p) (p_sz p) (p_pagetable p) (p_trapframe p) (p_context p) (p_ofile p) (p_cwd p) (p_name p) (p_trace_mask p).
Definition set_xstate x p := Proc (p_state p) (p_chan p) (p_killed p) x (p_pid p) (p_parent p) (p_kstack p) (p_sz p) (p_pagetable p) (p_trapframe p) (p_context p) (p_ofile p) (p_cwd p) (p_name p) (p_trace_mask p).
Definition set_pid x p := Proc (p_state p) (p_chan p) (p_killed p) (p_xstate p) x (p_parent p) (p_kstack p) (p_sz p) (p_pagetable p) (p_trapframe p) (p_context p) (p_ofile p) (p_cwd p) (p_name p) (p_trace_mask p).
Definition set_parent x p := Proc (p_state p) (p_chan p) (p_killed p) (p_xstate p) (p_pid p) x (p_kstack p) (p_sz p) (p_pagetable p) (p_trapframe p) (p_context p) (p_ofile p) (p_cwd p) (p_name p) (p_trace_mask p).
Definition set_kstack x p := Proc (p_state p) (p_chan p) (p_killed p) (p_xstate p) (p_pid p) (p_parent p) x (p_sz p) (p_pagetable p) (p_trapframe p) (p_context p) (p_ofile p) (p_cwd p) (p_name p) (p_trace_mask p).
Definition set_psz x p := Proc (p_state p) (p_chan p) (p_killed p) (p_xstate p) (p_pid p) (p_parent p) (p_kstack p) x (p_pagetable p) (p_trapframe p) (p_context p) (p_ofile p) (p_cwd p) (p_name p) (p_trace_mask p).
Definition set_pagetable x p := Proc (p_state p) (p_chan p) (p_killed p) (p_xstate p) (p_pid p) (p_parent p) (p_kstack p) (p_sz p) x (p_trapframe p) (p_context p) (p_ofile p) (p_cwd p) (p_name p) (p_trace_mask p).
Definition set_trapframe x p := Proc (p_state p) (p_chan p) (p_killed p) (p_xstate p) (p_pid p) (p_parent p) (p_kstack p) (p_sz p) (p_pagetable p) x (p_context p) (p_ofile p) (p_cwd p) (p_name p) (p_trace_mask p).
Definition set_context x p := Proc (p_state p) (p_chan p) (p_killed p) (p_xstate p) (p_pid p) (p_parent p) (p_kstack p) (p_sz p) (p_pagetable p) (p_trapframe p) x (p_ofile p) (p_cwd p) (p_name p) (p_trace_mask p).
Definition set_ofile x p := Proc (p_state p) (p_chan p) (p_killed p) (p_xstate p) (p_pid p) (p_parent p) (p_kstack p) (p_sz p) (p_pagetable p) (p_trapframe p) (p_context p) x (p_cwd p) (p_name p) (p_trace_mask p).
Definition set_cwd x p := Proc (p_state p) (p_chan p) (p_killed p) (p_xstate p) (p_pid p) (p_parent p) (p_kstack p) (p_sz p) (p_pagetable p) (p_trapframe p) (p_context p) (p_ofile p) x (p_name p) (p_trace_mask p).
Definition set_name x p := Proc (p_state p) (p_chan p) (p_killed p) (p_xstate p) (p_pid p) (p_parent p) (p_kstack p) (p_sz p) (p_pagetable p) (p_trapframe p) (p_context p) (p_ofile p) (p_cwd p) x (p_trace_mask p).
Definition set_trace_mask x p := Proc (p_state p) (p_chan p) (p_killed p) (p_xstate p) (p_pid p) (p_parent p) (p_kstack p) (p_sz p) (p_pagetable p) (p_trapframe p) (p_context p) (p_ofile p) (p_cwd p) (p_name p) x.

Record ptab : Type := PTab {
  procs : gmap nat proc;
  nextpid : Z;
  initproc : option nat;
  c_proc : option nat;
  p_mem : pmem;
}.

Definition nproc : nat := Z.to_nat NPROC.
Definition put_procs (t : gmap nat proc) (s : ptab) : ptab := PTab t (nextpid s) (initproc s) (c_proc s) (p_mem s).
Definition pmem_lens : lens ptab pmem := Lens p_mem (fun m s => PTab (procs s) (nextpid s) (initproc s) (c_proc s) m).
Definition onmem {A} (m : M pmem A) : M ptab A := zoom pmem_lens m.
Definition getp (i : nat) : M ptab proc := getsM (fun s => procs s !!! i).
Definition modp (i : nat) (f : proc -> proc) : M ptab unit :=
  modifyM (fun s => put_procs (<[i := f (procs s !!! i)]> (procs s)) s).
Definition set_c_proc (x : option nat) : M ptab unit :=
  modifyM (fun s => PTab (procs s) (nextpid s) (initproc s) x (p_mem s)).

(** Fields of the trapframe, by their offset in struct trapframe. *)
Definition TF_epc : Z := 24.
Definition TF_sp : Z := 48.
Definition TF_a0 : Z := 112.
Definition TF_a1 : Z := 120.
Definition TF_a7 : Z := 168.
Definition TF_size : Z := 288.
Definition get_tf (i : nat) (off : Z) : M ptab Z :=
  p <-! getp i ;; onmem (loadM (p_trapframe p + off)).
Definition set_tf (i : nat) (off v : Z) : M ptab unit :=
  p <-! getp i ;; onmem (storeM (p_trapframe p + off) v).

Section Proc.
Context `{KI : KernelImage}.
(** The address of forkret. *)
Variable forkret_addr : Z.

Fixpoint procinit_loop (k i : nat) (t : gmap nat proc) : gmap nat proc :=
  match k with
  | O => t
  | S k' => procinit_loop k' (S i) (<[i := set_kstack (KSTACK (Z.of_nat i)) (set_state UNUSED (t !!! i))]> t)
  end.
Definition procinit : M ptab unit := modifyM (fun s => put_procs (procinit_loop nproc 0 (procs s)) s).

Definition myproc : M ptab nat :=
  s <-! getM ;; match c_proc s with Some i => retM i | None => undefined end.

Definition allocpid : M ptab Z :=
  acquire L_pid ;;!
  pid <-! getsM nextpid ;;
  modifyM (fun s => PTab (procs s) (s32 (nextpid s + 1)) (initproc s) (c_proc s) (p_mem s)) ;;!
  release L_pid ;;!
  retM pid.

Definition proc_freepagetable (pagetable sz : Z) : M pmem unit :=
  uvmunmap pagetable TRAMPOLINE 1 false ;;!
  uvmunmap pagetable TRAPFRAME 1 false ;;!
  uvmfree pagetable sz.

(** proc_pagetable(p), which reads p->trapframe. *)
Definition proc_pagetable (trapframe : Z) : M pmem Z :=
  pagetable <-! uvmcreate ;;
  if pagetable =? 0 then retM 0
  else
    r <-! mappages pagetable TRAMPOLINE PGSIZE trampoline (Z.lor PTE_R PTE_X) ;;
    if r <? 0 then uvmfree pagetable 0 ;;! retM 0
    else
      r <-! mappages pagetable TRAPFRAME PGSIZE trapframe (Z.lor PTE_R PTE_W) ;;
      if r <? 0 then
        uvmunmap pagetable TRAMPOLINE 1 false ;;!
        uvmfree pagetable 0 ;;!
        retM 0
      else retM pagetable.

Definition freeproc (i : nat) : M ptab unit :=
  p <-! getp i ;;
  (if negb (p_trapframe p =? 0) then onmem (kfree (p_trapframe p)) else retM tt) ;;!
  modp i (set_trapframe 0) ;;!
  (if negb (p_pagetable p =? 0) then onmem (proc_freepagetable (p_pagetable p) (p_sz p)) else retM tt) ;;!
  modp i (fun p => set_state UNUSED (set_xstate 0 (set_pkilled 0 (set_chan None (set_name [] (set_parent None
                     (set_pid 0 (set_psz 0 (set_pagetable 0 p))))))))).

(** The search of allocproc: the first UNUSED slot, with its lock held. *)
Fixpoint allocproc_scan (k i : nat) : M ptab (option nat) :=
  match k with
  | O => retM None
  | S k' =>
      acquire (L_proc i) ;;!
      p <-! getp i ;;
      if decide (p_state p = UNUSED) then retM (Some i)
      else release (L_proc i) ;;! allocproc_scan k' (S i)
  end.

Definition allocproc : M ptab (option nat) :=
  f <-! allocproc_scan nproc 0 ;;
  match f with
  | None => retM None
  | Some i =>
      pid <-! allocpid ;;
      modp i (set_pid pid) ;;!
      modp i (set_state USED) ;;!
      tf <-! onmem kalloc ;;
      modp i (set_trapframe tf) ;;!
      if tf =? 0 then freeproc i ;;! release (L_proc i) ;;! retM None
      else
        pt <-! onmem (proc_pagetable tf) ;;
        modp i (set_pagetable pt) ;;!
        if pt =? 0 then freeproc i ;;! release (L_proc i) ;;! retM None
        else
          modp i (fun p => set_context (Context forkret_addr (p_kstack p + PGSIZE)) p) ;;!
          retM (Some i)
  end.

(** n is an int; the additions wrap in 64 bits. *)
Definition growproc (n : Z) : M ptab Z :=
  i <-! myproc ;;
  p <-! getp i ;;
  let sz := p_sz p in
  if 0 <? n then
    sz' <-! onmem (uvmalloc (p_pagetable p) sz (u64 (sz + n)) PTE_W) ;;
    if sz' =? 0 then retM (-1) else modp i (set_psz sz') ;;! retM 0
  else if n <? 0 then
    sz' <-! onmem (uvmdealloc (p_pagetable p) sz (u64 (sz + n))) ;;
    modp i (set_psz sz') ;;! retM 0
  else modp i (set_psz sz) ;;! retM 0.

(** The end of fork(): the child gets its parent and may run. *)
Definition fork_publish (np i : nat) : M ptab unit :=
  acquire L_wait ;;!
  modp np (set_parent (Some i)) ;;!
  release L_wait ;;!
  acquire (L_proc np) ;;!
  modp np (set_state RUNNABLE) ;;!
  release (L_proc np).

(** ** Sleeping and waking *)

Fixpoint wakeup_loop (k i : nat) (ch : chan) : M ptab unit :=
  match k with
  | O => retM tt
  | S k' =>
      s <-! getM ;;
      (if decide (c_proc s = Some i) then retM tt
       else
         acquire (L_proc i) ;;!
         p <-! getp i ;;
         (if decide (p_state p = SLEEPING /\ p_chan p = Some ch) then modp i (set_state RUNNABLE) else retM tt) ;;!
         release (L_proc i)) ;;!
      wakeup_loop k' (S i) ch
  end.
Definition wakeup (ch : chan) : M ptab unit := wakeup_loop nproc 0 ch.
(** wakeup(p) for a pointer to a process; nobody sleeps on a null pointer. *)
Definition wakeup_proc (x : option nat) : M ptab unit :=
  match x with Some i => wakeup (Ch_proc i) | None => retM tt end.

(** sched() up to swtch(): noff counts the locks this CPU holds, and interrupts are off while it is positive. *)
Definition sched : M ptab unit :=
  i <-! myproc ;;
  fun c s =>
    if decide (L_proc i ∈ held c) then
      if (length (held c) =? 1)%nat then
        if decide (p_state (procs s !!! i) = RUNNING) then Panic "sched running" else Ok tt c s
      else Panic "sched locks"
    else Panic "sched p->lock".

(** sleep() up to swtch(). *)
Definition psleep (ch : chan) (lk : lock) : M ptab unit :=
  i <-! myproc ;;
  acquire (L_proc i) ;;!
  release lk ;;!
  modp i (set_chan (Some ch)) ;;!
  modp i (set_state SLEEPING) ;;!
  sched.
(** and from there on. *)
Definition psleep_resume (lk : lock) : M ptab unit :=
  i <-! myproc ;;
  modp i (set_chan None) ;;!
  release (L_proc i) ;;!
  acquire lk.

Definition yield : M ptab unit :=
  i <-! myproc ;;
  acquire (L_proc i) ;;!
  modp i (set_state RUNNABLE) ;;!
  sched.
Definition yield_resume : M ptab unit := i <-! myproc ;; release (L_proc i).

(** One turn of the scheduler's loop: it enters the process with its lock held, *)
Definition sched_enter (i : nat) : M ptab bool :=
  acquire (L_proc i) ;;!
  p <-! getp i ;;
  if decide (p_state p = RUNNABLE) then
    modp i (set_state RUNNING) ;;! set_c_proc (Some i) ;;! retM true
  else release (L_proc i) ;;! retM false.
(** and is back here when the process calls swtch(). *)
Definition sched_leave (i : nat) : M ptab unit :=
  set_c_proc None ;;! release (L_proc i).

(** The scheduler's scan from slot [i] on: the first process it enters. *)
Fixpoint scheduler_scan (k i : nat) : M ptab (option nat) :=
  match k with
  | O => retM None
  | S k' =>
      b <-! sched_enter i ;;
      if (b : bool) then retM (Some i) else scheduler_scan k' (S i)
  end.

Fixpoint kill_loop (k i : nat) (pid : Z) : M ptab Z :=
  match k with
  | O => retM (-1)
  | S k' =>
      acquire (L_proc i) ;;!
      p <-! getp i ;;
      if p_pid p =? pid then
        modp i (set_pkilled 1) ;;!
        (if decide (p_state p = SLEEPING) then modp i (set_state RUNNABLE) else retM tt) ;;!
        release (L_proc i) ;;!
        retM 0
      else release (L_proc i) ;;! kill_loop k' (S i) pid
  end.
Definition kill (pid : Z) : M ptab Z := kill_loop nproc 0 pid.

Definition setkilled (i : nat) : M ptab unit :=
  acquire (L_proc i) ;;! modp i (set_pkilled 1) ;;! release (L_proc i).

Definition killed (i : nat) : M ptab Z :=
  acquire (L_proc i) ;;!
  p <-! getp i ;;
  release (L_proc i) ;;!
  retM (p_killed p).

(** ** exit and wait *)

Fixpoint reparent_loop (k j i : nat) : M ptab unit :=
  match k with
  | O => retM tt
  | S k' =>
      p <-! getp j ;;
      (if decide (p_parent p = Some i) then
         s <-! getM ;;
         modp j (set_parent (initproc s)) ;;!
         wakeup_proc (initproc s)
       else retM tt) ;;!
      reparent_loop k' (S j) i
  end.
Definition reparent (i : nat) : M ptab unit := reparent_loop nproc 0 i.

(** exit() from the acquisition of wait_lock up to swtch(). *)
Definition exit_last (i : nat) (status : Z) : M ptab unit :=
  acquire L_wait ;;!
  reparent i ;;!
  p <-! getp i ;;
  wakeup_proc (p_parent p) ;;!
  acquire (L_proc i) ;;!
  modp i (set_xstate status) ;;!
  modp i (set_state ZOMBIE) ;;!
  release L_wait ;;!
  sched.

(** The bytes of an int in memory. *)
Definition int_bytes (x : Z) : list Z := [u8 x; u8 (x / 2 ^ 8); u8 (x / 2 ^ 16); u8 (x / 2 ^ 24)].

(** The scan of wait(): [inl] is the value it returns, [inr] whether the process has children. *)
Fixpoint wait_scan (k j i : nat) (addr : Z) (havekids : bool) : M ptab (Z + bool) :=
  match k with
  | O => retM (inr havekids)
  | S k' =>
      pp <-! getp j ;;
      if decide (p_parent pp = Some i) then
        acquire (L_proc j) ;;!
        pp <-! getp j ;;
        if decide (p_state pp = ZOMBIE) then
          p <-! getp i ;;
          r <-! (if addr =? 0 then retM 0
                 else onmem (copyout (p_pagetable p) addr (int_bytes (p_xstate pp)))) ;;
          if r <? 0 then
            release (L_proc j) ;;! release L_wait ;;! retM (inl (-1))
          else
            freeproc j ;;!
            release (L_proc j) ;;!
            release L_wait ;;!
            retM (inl (p_pid pp))
        else release (L_proc j) ;;! wait_scan k' (S j) i addr true
      else wait_scan k' (S j) i addr havekids
  end.

(** [None]: the process sleeps on itself; when it is woken it holds wait_lock and scans again. *)
Definition wait_round (addr : Z) : M ptab (option Z) :=
  i <-! myproc ;;
  r <-! wait_scan nproc 0 i addr false ;;
  match r with
  | inl v => retM (Some v)
  | inr havekids =>
      k <-! (if havekids then killed i else retM 1) ;;
      if negb (k =? 0) then release L_wait ;;! retM (Some (-1))
      else psleep (Ch_proc i) L_wait ;;! retM None
  end.
Definition wait (addr : Z) : M ptab (option Z) := acquire L_wait ;;! wait_round addr.
Definition wait_resume (addr : Z) : M ptab (option Z) := psleep_resume L_wait ;;! wait_round addr.

(** ** procdump and the counters of sysinfo *)

Definition state_name (x : procstate) : string :=
  match x with
  | UNUSED => "unused" | USED => "used" | SLEEPING => "sleep " | RUNNABLE => "runble"
  | RUNNING => "run   " | ZOMBIE => "zombie"
  end.

Fixpoint procdump_loop (k i : nat) : M ptab unit :=
  match k with
  | O => retM tt
  | S k' =>
      p <-! getp i ;;
      (if decide (p_state p = UNUSED) then retM tt
       else
         printf (str "%d %s %s") [VInt (p_pid p); VStr (Some (str (state_name (p_state p)))); VStr (Some (p_name p))] ;;!
         printf (str newline) []) ;;!
      procdump_loop k' (S i)
  end.
Definition procdump : M ptab unit := printf (str newline) [] ;;! procdump_loop nproc 0.

Fixpoint count_procs (k i : nat) (t : gmap nat proc) (f : procstate -> bool) (count : Z) : Z :=
  match k with
  | O => count
  | S k' => count_procs k' (S i) t f (if f (p_state (t !!! i)) then u64 (count + 1) else count)
  end.

(** The loop runs to &proc[NCPU]. *)
Definition kcollect_nproc : M ptab Z :=
  getsM (fun s => count_procs (Z.to_nat NCPU) 0 (procs s) (fun x => negb (bool_decide (x = UNUSED))) 0).
Definition kcollect_load : M ptab Z :=
  getsM (fun s => count_procs nproc 0 (procs s) (fun x => bool_decide (x = RUNNING) || bool_decide (x = RUNNABLE)) 0).
End Proc.
