(* ===== verification/ProcInv.v ===== *)
(** The process table: what its operations do, and the invariant they keep.

    [table_ok] says that an UNUSED slot is clean, that the processes have distinct positive pids
    below nextpid, and that a sleeping process sleeps on a channel.  [table_invariant] shows it for every
    state that the operations of [Proc] reach. *)
From S2P Require Import Prelude Machine CString Kalloc Vm Printf Proc.
Local Open Scope Z_scope.

(** ** Runs of the primitives *)

Lemma bind_getp {B} i (f : proc -> M ptab B) c s : bindM (getp i) f c s = f (procs s !!! i) c s.
Proof. done. Qed.
Lemma bind_modp {B} i g (f : unit -> M ptab B) c s :
  bindM (modp i g) f c s = f tt c (put_procs (<[i := g (procs s !!! i)]> (procs s)) s).
Proof. done. Qed.
#[export] Hint Rewrite @bind_getp @bind_modp : xv6.

(** No process lock is held. *)
Definition no_plock (c : ctx) : Prop := forall i, L_proc i ∉ held c.

(** ** wakeup *)

(** The effect of wakeup(ch) on one process. *)
Definition woken (ch : chan) (p : proc) : proc :=
  if decide (p_state p = SLEEPING /\ p_chan p = Some ch) then set_state RUNNABLE p else p.

Lemma put_procs_id s : put_procs (procs s) s = s.
Proof. by destruct s. Qed.

Lemma insert_total_id (t : gmap nat proc) (j : nat) x : <[j := t !!! j]> t !!! x = t !!! x.
Proof.
  destruct (decide (x = j)) as [->|]; [by rewrite lookup_total_insert_eq|by rewrite lookup_total_insert_ne].
Qed.

Lemma wakeup_loop_run k : forall i ch c s, no_plock c ->
  exists t, wakeup_loop k i ch c s = Ok tt c (put_procs t s) /\
    forall j, t !!! j = if decide (i <= j < i + k)%nat then if decide (c_proc s = Some j) then procs s !!! j else woken ch (procs s !!! j)
                        else procs s !!! j.
Proof.
  induction k as [|k IH]; intros i ch c s Hc; cbn [wakeup_loop].
  - exists (procs s). rewrite put_procs_id. split; [done|]. intros j. rewrite decide_False by lia. done.
  - rewrite bind_get. set (m := if decide (c_proc s = Some i) then _ else _).
    assert (exists t1, m c s = Ok tt c (put_procs t1 s) /\
      forall j, t1 !!! j = if decide (j = i) then if decide (c_proc s = Some j) then procs s !!! j else woken ch (procs s !!! j) else procs s !!! j) as (t1 & Hm & Ht1).
    { unfold m. destruct (decide (c_proc s = Some i)) as [Ei|Ei].
      - exists (procs s). rewrite put_procs_id. split; [done|]. intros j. destruct (decide (j = i)) as [->|]; [by rewrite decide_True|done].
      - rewrite bind_acquire by apply Hc. mrun. unfold woken. destruct (decide (p_state (procs s !!! i) = SLEEPING /\ p_chan (procs s !!! i) = Some ch)).
        + mrun. eexists. split; [done|]. intros j. destruct (decide (j = i)) as [->|]; [|by rewrite lookup_total_insert_ne].
          rewrite lookup_total_insert_eq, decide_False by done. by rewrite decide_True.
        + mrun. exists (procs s). rewrite put_procs_id. split; [done|]. intros j. destruct (decide (j = i)) as [->|]; [|done].
          rewrite decide_False by done. by rewrite decide_False. }
    rewrite (bind_Ok _ _ _ _ _ _ _ Hm). destruct (IH (S i) ch c (put_procs t1 s) Hc) as (t & -> & Ht). exists t. split; [done|].
    intros j. rewrite Ht. cbn [put_procs procs c_proc]. rewrite Ht1.
    repeat case_decide; try done; lia.
Qed.

Lemma wakeup_run ch c s : no_plock c ->
  exists t, wakeup ch c s = Ok tt c (put_procs t s) /\
    forall j, t !!! j = if decide (j < nproc)%nat then if decide (c_proc s = Some j) then procs s !!! j else woken ch (procs s !!! j)
                        else procs s !!! j.
Proof.
  intros Hc. destruct (wakeup_loop_run nproc 0 ch c s Hc) as (t & Hr & Ht). exists t. split; [done|].
  intros j. rewrite Ht. repeat case_decide; try done; lia.
Qed.

(** wakeup(ch) makes runnable every process that sleeps on ch, and changes nothing else of any process. *)
Theorem wakeup_correct ch c s : no_plock c ->
  exists t, wakeup ch c s = Ok tt c (put_procs t s) /\
    (forall j, (j < nproc)%nat -> c_proc s <> Some j -> p_state (procs s !!! j) = SLEEPING -> p_chan (procs s !!! j) = Some ch ->
       t !!! j = set_state RUNNABLE (procs s !!! j)) /\
    (forall j, p_state (procs s !!! j) <> SLEEPING \/ p_chan (procs s !!! j) <> Some ch -> t !!! j = procs s !!! j).
Proof.
  intros Hc. destruct (wakeup_run ch c s Hc) as (t & Hr & Ht). exists t. split; [done|]. split.
  - intros j Hj Hn Hs Hk. rewrite Ht, decide_True, decide_False by done. unfold woken. by rewrite decide_True.
  - intros j Hj. rewrite Ht. unfold woken. repeat case_decide; try done. naive_solver.
Qed.

(** ** The counters of sysinfo *)

Definition slots_with (f : procstate -> bool) (t : gmap nat proc) (n : nat) : list nat :=
  filter (fun j => f (p_state (t !!! j)) = true) (seq 0 n).

Lemma count_procs_spec k : forall i t f n, 0 <= n -> n + Z.of_nat k < 2 ^ 64 ->
  count_procs k i t f n = n + Z.of_nat (length (filter (fun j => f (p_state (t !!! j)) = true) (seq i k))).
Proof.
  induction k as [|k IH]; intros i t f n H0 Hn; cbn [count_procs seq]; [cbn; lia|].
  rewrite filter_cons. destruct (f (p_state (t !!! i))).
  - rewrite decide_True by done. rewrite u64_small by lia. rewrite IH by lia. cbn [length]. lia.
  - rewrite decide_False by done. rewrite IH by lia. done.
Qed.

(** C40: what sysinfo() reports.  The load is the number of running and runnable processes of the whole table; the number of
    processes counts the first NCPU slots only, so a full table of 64 processes is reported as 8. *)
Theorem kcollect_counts c s :
  kcollect_load c s = Ok (Z.of_nat (length (slots_with (fun x => bool_decide (x = RUNNING) || bool_decide (x = RUNNABLE)) (procs s) nproc))) c s /\
  kcollect_nproc c s = Ok (Z.of_nat (length (slots_with (fun x => negb (bool_decide (x = UNUSED))) (procs s) (Z.to_nat NCPU)))) c s /\
  ((forall j, (j < nproc)%nat -> p_state (procs s !!! j) <> UNUSED) -> kcollect_nproc c s = Ok 8 c s).
Proof.
  assert (forall k f, (k <= nproc)%nat -> count_procs k 0 (procs s) f 0 = Z.of_nat (length (slots_with f (procs s) k))) as H.
  { intros k f Hk. unfold slots_with. rewrite count_procs_spec; [lia|lia|]. assert (nproc = 64%nat) by reflexivity. lia. }
  unfold kcollect_load, kcollect_nproc, getsM. rewrite (H nproc), (H (Z.to_nat NCPU)) by (vm_compute; lia). split; [done|]. split; [done|]. intros Hall. do 2 f_equal.
  change (Z.to_nat NCPU) with 8%nat. unfold slots_with. cbn [seq].
  rewrite !filter_cons_True by (rewrite bool_decide_false; [done|]; apply Hall; assert (nproc = 64%nat) by reflexivity; lia). done.
Qed.

(** ** Shapes of the runs that change the table *)

(** Only slot [i] changed, to [p]. *)
Record slot_set (i : nat) (p : proc) (s s' : ptab) : Prop := {
  ss_at : procs s' !!! i = p;
  ss_others : forall j, j <> i -> procs s' !!! j = procs s !!! j;
  ss_init : initproc s' = initproc s;
  ss_cur : c_proc s' = c_proc s;
}.

Lemma onmem_inv {A} (m : M pmem A) c s a c' s' : onmem m c s = Ok a c' s' ->
  procs s' = procs s /\ nextpid s' = nextpid s /\ initproc s' = initproc s /\ c_proc s' = c_proc s.
Proof. unfold onmem, zoom. destruct (m c _); intros [= <- <- <-]. done. Qed.

Lemma when_mem_inv (b : bool) (m : M pmem unit) c s a c' s' : (if b then onmem m else retM tt) c s = Ok a c' s' ->
  procs s' = procs s /\ nextpid s' = nextpid s /\ initproc s' = initproc s /\ c_proc s' = c_proc s.
Proof. destruct b; [apply onmem_inv|]. unfold retM. intros [= <- <- <-]. done. Qed.

Definition cleared (p : proc) : proc :=
  set_state UNUSED (set_xstate 0 (set_pkilled 0 (set_chan None (set_name [] (set_parent None
    (set_pid 0 (set_psz 0 (set_pagetable 0 (set_trapframe 0 p))))))))).

Section Shapes.
Context `{KI : KernelImage}.

Lemma freeproc_shape i c s c' s' : freeproc i c s = Ok tt c' s' ->
  slot_set i (cleared (procs s !!! i)) s s' /\ nextpid s' = nextpid s.
Proof.
  unfold freeproc. rewrite bind_getp. intros ([] & c1 & s1 & H1 & H)%bind_inv. apply when_mem_inv in H1 as (E1 & N1 & I1 & C1).
  rewrite bind_modp in H. apply bind_inv in H as ([] & c2 & s2 & H2 & H). apply when_mem_inv in H2 as (E2 & N2 & I2 & C2).
  cbn [put_procs procs nextpid initproc c_proc] in *. unfold modp, modifyM in H. injection H as <- <-. split; [|cbn; congruence].
  split; cbn [put_procs procs nextpid initproc c_proc]; [| |congruence|congruence].
  - rewrite lookup_total_insert_eq, E2, lookup_total_insert_eq, E1. done.
  - intros j Hj. by rewrite lookup_total_insert_ne, E2, lookup_total_insert_ne, E1 by done.
Qed.

Lemma allocproc_scan_shape k : forall i c s r c' s', allocproc_scan k i c s = Ok r c' s' ->
  s' = s /\ match r with
            | Some j => (i <= j < i + k)%nat /\ p_state (procs s !!! j) = UNUSED /\ held c' = L_proc j :: held c /\
                forall x, (i <= x < j)%nat -> p_state (procs s !!! x) <> UNUSED
            | None => (forall j, (i <= j < i + k)%nat -> p_state (procs s !!! j) <> UNUSED) /\ held c' = held c
            end.
Proof.
  induction k as [|k IH]; intros i c s r c' s'; cbn [allocproc_scan].
  - unfold retM. intros [= <- <- <-]. split; [done|]. split; [lia|done].
  - intros ([] & c1 & s1 & H1 & H)%bind_inv. unfold acquire in H1. destruct (decide _); [done|]. injection H1 as <- <-.
    rewrite bind_getp in H. destruct (decide (p_state (procs s !!! i) = UNUSED)) as [Eu|Eu].
    + unfold retM in H. injection H as <- <- <-. split; [done|]. split; [lia|]. split; [done|]. split; [done|lia].
    + rewrite bind_release in H. destruct (IH _ _ _ _ _ _ H) as [-> Hr]. split; [done|]. destruct r as [j|].
      * destruct Hr as (? & ? & Hh & Hf). cbn in Hh. split; [lia|]. split; [done|]. split; [done|]. intros x Hx.
        destruct (decide (x = i)) as [->|]; [done|]. apply Hf. lia.
      * destruct Hr as [Hr Hh]. split; [|done]. intros j Hj. destruct (decide (j = i)) as [->|]; [done|]. apply Hr. lia.
Qed.

Lemma slot_set_trans i p q s s1 s2 : slot_set i p s s1 -> slot_set i q s1 s2 -> slot_set i q s s2.
Proof.
  intros [A1 B1 C1 D1] [A2 B2 C2 D2]. split; [done| |congruence|congruence]. intros j Hj. by rewrite B2, B1.
Qed.

Lemma slot_set_modp i f s : slot_set i (f (procs s !!! i)) s (put_procs (<[i := f (procs s !!! i)]> (procs s)) s).
Proof.
  split; cbn; [apply lookup_total_insert_eq| |done|done]. intros j Hj. by apply lookup_total_insert_ne.
Qed.

Lemma slot_set_mem i p s s1 s2 : slot_set i p s s1 -> procs s2 = procs s1 -> initproc s2 = initproc s1 -> c_proc s2 = c_proc s1 ->
  slot_set i p s s2.
Proof. intros [A B C D] E1 E2 E3. split; rewrite ?E1; congruence || done. Qed.

Lemma allocproc_shape fa c s r c' s' : allocproc fa c s = Ok r c' s' ->
  match r with
  | Some i => (i < nproc)%nat /\ (p_state (procs s !!! i) = UNUSED /\ forall x, (x < i)%nat -> p_state (procs s !!! x) <> UNUSED) /\
      (exists q, slot_set i q s s' /\ p_state q = USED /\ p_pid q = nextpid s /\ p_trapframe q <> 0 /\ p_pagetable q <> 0 /\
         p_parent q = p_parent (procs s !!! i) /\ p_killed q = p_killed (procs s !!! i) /\ p_context q = Context fa (p_kstack (procs s !!! i) + PGSIZE) /\
         p_ofile q = p_ofile (procs s !!! i)) /\
      nextpid s' = s32 (nextpid s + 1)
  | None => ((forall i, (i < nproc)%nat -> p_state (procs s !!! i) <> UNUSED) /\ s' = s) \/
      (exists i, (i < nproc)%nat /\ p_state (procs s !!! i) = UNUSED /\ slot_set i (cleared (procs s !!! i)) s s' /\
         nextpid s' = s32 (nextpid s + 1))
  end.
Proof.
  unfold allocproc. intros (f & c1 & s1 & H1 & H)%bind_inv. apply allocproc_scan_shape in H1 as [-> H1]. destruct f as [i|].
  2:{ unfold retM in H. injection H as <- <- <-. left. split; [|done]. intros i Hi. apply H1. lia. }
  destruct H1 as (Hi & Hu & _ & Hfst). apply bind_inv in H as (pid & c2 & s2 & H2 & H).
  assert (pid = nextpid s /\ nextpid s2 = s32 (nextpid s + 1) /\ procs s2 = procs s /\ initproc s2 = initproc s /\ c_proc s2 = c_proc s) as (-> & N2 & P2 & I2 & C2).
  { unfold allocpid in H2. apply bind_inv in H2 as ([] & c3 & s3 & Ha & H2). unfold acquire in Ha. destruct (decide _); [done|].
    injection Ha as <- <-. rewrite bind_gets, bind_modify, bind_release in H2. unfold retM in H2. injection H2 as <- <- <-. done. }
  rewrite !bind_modp in H. cbn [put_procs procs] in H. rewrite lookup_total_insert_eq in H.
  set (p0 := procs s2 !!! i) in H. set (p1 := set_state USED (set_pid (nextpid s) p0)) in H.
  set (s3 := put_procs _ _) in H.
  assert (slot_set i p1 s s3 /\ nextpid s3 = nextpid s2) as [S3 N3].
  { split; [|done]. split; cbn; [apply lookup_total_insert_eq| |done|done]. intros j Hj. by rewrite !lookup_total_insert_ne, P2 by done. }
  apply bind_inv in H as (tf & c4 & s4 & H4 & H). apply onmem_inv in H4 as (P4 & N4 & I4 & C4).
  rewrite bind_modp in H. set (s5 := put_procs _ s4) in H.
  assert (slot_set i (set_trapframe tf p1) s s5) as S5.
  { eapply slot_set_trans; [exact S3|]. unfold s5. rewrite P4, (ss_at _ _ _ _ S3).
    split; cbn; [apply lookup_total_insert_eq| |done|done]. intros j Hj. by apply lookup_total_insert_ne. }
  assert (nextpid s5 = s32 (nextpid s + 1)) as N5 by (cbn; congruence).
  assert (forall q s6 c6, slot_set i q s s6 -> nextpid s6 = s32 (nextpid s + 1) -> cleared q = cleared (procs s !!! i) ->
    (freeproc i ;;! release (L_proc i) ;;! retM None) c6 s6 = Ok r c' s' ->
    r = None /\ slot_set i (cleared (procs s !!! i)) s s' /\ nextpid s' = s32 (nextpid s + 1)) as Hfail.
  { intros q s6 c6 S6 N6 Eq ([] & c7 & s7 & H7 & H8)%bind_inv. apply freeproc_shape in H7 as [S7 N7].
    apply bind_inv in H8 as ([] & c8 & s8 & H8 & H9). unfold release in H8. destruct (decide _); [|done]. injection H8 as <- <-.
    unfold retM in H9. injection H9 as <- <- <-. split; [done|]. split; [|congruence]. rewrite <- Eq, <- (ss_at _ _ _ _ S6).
    eapply slot_set_trans; [exact S6|exact S7]. }
  assert (cleared (procs s !!! i) = cleared p0) as Ec by (unfold p0; by rewrite P2).
  destruct (Z.eqb_spec tf 0) as [->|Htf].
  { destruct (Hfail _ _ _ S5 N5 ltac:(by rewrite Ec) H) as (-> & S9 & N9). right. exists i. split; [lia|done]. }
  apply bind_inv in H as (pt & c6 & s6 & H6 & H). apply onmem_inv in H6 as (P6 & N6 & I6 & C6).
  rewrite bind_modp in H. set (s7 := put_procs _ s6) in H.
  assert (slot_set i (set_pagetable pt (set_trapframe tf p1)) s s7) as S7.
  { eapply slot_set_trans; [exact S5|]. unfold s7. rewrite P6, (ss_at _ _ _ _ S5).
    split; cbn; [apply lookup_total_insert_eq| |done|done]. intros j Hj. by apply lookup_total_insert_ne. }
  assert (nextpid s7 = s32 (nextpid s + 1)) as N7 by (cbn; congruence).
  destruct (Z.eqb_spec pt 0) as [->|Hpt].
  { destruct (Hfail _ _ _ S7 N7 ltac:(by rewrite Ec) H) as (-> & S9 & N9). right. exists i. split; [lia|done]. }
  rewrite bind_modp in H. unfold retM in H. injection H as <- <- <-. split; [lia|]. split; [split; [done|intros x Hx; apply Hfst; lia]|]. split; [|done].
  eexists. split; [eapply slot_set_trans; [exact S7|apply slot_set_modp]|]. pose proof (ss_at _ _ _ _ S7) as E7. cbn [s7 put_procs procs] in E7 |- *. rewrite !E7. cbn. unfold p0. by rewrite P2.
Qed.
End Shapes.

(** ** The invariant *)

(** A process that was started and has not exited. *)
Definition alive (p : proc) : Prop := p_state p <> UNUSED /\ p_state p <> USED /\ p_state p <> ZOMBIE.

Record slot_ok (n : Z) (t : gmap nat proc) (p : proc) : Prop := {
  so_unused : p_state p = UNUSED -> p_pid p = 0 /\ p_trapframe p = 0 /\ p_pagetable p = 0 /\ p_parent p = None;
  so_used : p_state p <> UNUSED -> 0 < p_pid p < n /\ p_trapframe p <> 0 /\ p_pagetable p <> 0;
  so_chan : p_state p = SLEEPING -> p_chan p <> None;
  so_parent : forall x, p_parent p = Some x -> (x < nproc)%nat /\ alive (t !!! x);
}.

Record table_ok (s : ptab) : Prop := {
  tk_slot : forall i, (i < nproc)%nat -> slot_ok (nextpid s) (procs s) (procs s !!! i);
  tk_uniq : forall i j, (i < nproc)%nat -> (j < nproc)%nat -> p_state (procs s !!! i) <> UNUSED ->
    p_pid (procs s !!! i) = p_pid (procs s !!! j) -> i = j;
  tk_init : forall x, initproc s = Some x -> (x < nproc)%nat /\ alive (procs s !!! x);
  tk_next : 0 < nextpid s < 2 ^ 31;
}.

(** A change that neither creates nor ends a process. *)
Record benign (p p' : proc) : Prop := {
  bn_same : p_pid p' = p_pid p /\ p_trapframe p' = p_trapframe p /\ p_pagetable p' = p_pagetable p /\ p_parent p' = p_parent p;
  bn_unused : p_state p' = UNUSED <-> p_state p = UNUSED;
  bn_zombie : p_state p' = ZOMBIE <-> p_state p = ZOMBIE;
  bn_used : p_state p' = USED <-> p_state p = USED;
  bn_chan : (p_state p = SLEEPING -> p_chan p <> None) -> p_state p' = SLEEPING -> p_chan p' <> None;
  bn_ofile : p_ofile p' = p_ofile p;
}.

Lemma benign_refl p : benign p p.
Proof. by split. Qed.
Lemma benign_trans p q r : benign p q -> benign q r -> benign p r.
Proof. intros [(A1 & A2 & A3 & A4) B C D E F] [(A1' & A2' & A3' & A4') B' C' D' E' F']. split; [split_and!; congruence| | | | |congruence]; naive_solver. Qed.

Record benign_step (s s' : ptab) : Prop := {
  bs_slot : forall j, benign (procs s !!! j) (procs s' !!! j);
  bs_next : nextpid s' = nextpid s;
  bs_init : initproc s' = initproc s;
}.

Lemma benign_alive p p' : benign p p' -> alive p -> alive p'.
Proof. intros [_ Hu Hz Hd _ _] (H1 & H2 & H3). unfold alive. by rewrite Hu, Hz, Hd. Qed.

Lemma table_ok_benign s s' : table_ok s -> benign_step s s' -> table_ok s'.
Proof.
  intros [Hs Hu Hi Hn] [B En Ei]. split; rewrite ?En; try done.
  - intros i Hlt. destruct (Hs i Hlt) as [S1 S2 S3 S4]. destruct (B i) as [(E1 & E2 & E3 & E4) U Z D C _]. split; rewrite ?E1, ?E2, ?E3, ?E4.
    + intros H. apply S1. by apply U. + intros H. apply S2. by rewrite <- U. + by apply C.
    + intros x Hx. destruct (S4 x Hx) as [? Ha]. split; [done|]. by apply (benign_alive (procs s !!! x)).
  - intros i j Hlt Hj Hne E. destruct (B i) as [(E1 & _) U _ _ _ _], (B j) as [(E2 & _) _ _ _ _ _].
    apply (Hu i j); [done|done|by rewrite <- U|congruence].
  - rewrite Ei. intros x Hx. destruct (Hi x Hx) as [? Ha]. split; [done|]. by apply (benign_alive (procs s !!! x)).
Qed.

Lemma benign_step_trans s s1 s2 : benign_step s s1 -> benign_step s1 s2 -> benign_step s s2.
Proof. intros [A B C] [A' B' C']. split; [|congruence|congruence]. intros j. by apply (benign_trans _ (procs s1 !!! j)). Qed.

Lemma benign_step_refl s : benign_step s s.
Proof. split; [intros; apply benign_refl|done|done]. Qed.

Lemma benign_modp s i f : benign (procs s !!! i) (f (procs s !!! i)) -> benign_step s (put_procs (<[i := f (procs s !!! i)]> (procs s)) s).
Proof.
  intros Hb. split; [|done|done]. intros j. cbn. destruct (decide (j = i)) as [->|].
  - by rewrite lookup_total_insert_eq. - rewrite lookup_total_insert_ne by done. apply benign_refl.
Qed.

Lemma woken_benign ch p : benign p (woken ch p).
Proof.
  unfold woken. destruct (decide _) as [[Hs Hc]|]; [|apply benign_refl].
  split; cbn; rewrite ?Hs; done.
Qed.

(** The lock of the current process is the only one that sched() allows. *)
Lemma sched_inv c s a c' s' : sched c s = Ok a c' s' -> c' = c /\ s' = s.
Proof.
  unfold sched, myproc. rewrite bind_assoc, bind_get. destruct (c_proc s) as [i|]; [|done]. rewrite bind_ret.
  repeat (destruct (decide _)); try done; destruct (_ =? _)%nat; try done; repeat (destruct (decide _)); try done. intros [= _ <- <-]. done.
Qed.

Lemma acquire_inv {S} lk c (s : S) a c' s' : acquire lk c s = Ok a c' s' -> s' = s /\ c' = Ctx (lk :: held c) (out c) /\ lk ∉ held c.
Proof. unfold acquire. destruct (decide _); [done|]. intros [= _ <- <-]. done. Qed.
Lemma release_inv {S} lk c (s : S) a c' s' : release lk c s = Ok a c' s' -> s' = s /\ c' = Ctx (remove_lock lk (held c)) (out c).
Proof. unfold release. destruct (decide _); [|done]. intros [= _ <- <-]. done. Qed.

Lemma modify_inv {S} (f : S -> S) c s a c' s' : modifyM f c s = Ok a c' s' -> c' = c /\ s' = f s.
Proof. unfold modifyM. intros [= _ <- <-]. done. Qed.

(** Takes a run apart at its first bind. *)
Ltac mbind H x c1 s1 H1 := apply bind_inv in H as (x & c1 & s1 & H1 & H).

Lemma myproc_inv c s i c' s' : myproc c s = Ok i c' s' -> c_proc s = Some i /\ c' = c /\ s' = s.
Proof. unfold myproc. rewrite bind_get. destruct (c_proc s); [|done]. intros [= <- <- <-]. done. Qed.

Lemma kill_loop_run k : forall i pid c s, no_plock c ->
  (exists x t, (i <= x < i + k)%nat /\ p_pid (procs s !!! x) = pid /\ (forall j, (i <= j < x)%nat -> p_pid (procs s !!! j) <> pid) /\
     kill_loop k i pid c s = Ok 0 c (put_procs t s) /\ (forall j, j <> x -> t !!! j = procs s !!! j) /\
     t !!! x = (if decide (p_state (procs s !!! x) = SLEEPING) then set_state RUNNABLE else id) (set_pkilled 1 (procs s !!! x))) \/
  ((forall j, (i <= j < i + k)%nat -> p_pid (procs s !!! j) <> pid) /\ kill_loop k i pid c s = Ok (-1) c s).
Proof.
  induction k as [|k IH]; intros i pid c s Hc; cbn [kill_loop]; [right; split; [lia|done]|].
  rewrite bind_acquire by apply Hc. rewrite bind_getp. destruct (Z.eqb_spec (p_pid (procs s !!! i)) pid) as [Ep|Ep].
  - left. rewrite bind_modp. exists i. destruct (decide (p_state (procs s !!! i) = SLEEPING)).
    + mrun. eexists. split; [lia|]. split; [done|]. split; [lia|]. split; [reflexivity|]. cbn [put_procs procs]. split.
      * intros j Hj. by rewrite !lookup_total_insert_ne. * by rewrite !lookup_total_insert_eq.
    + mrun. eexists. split; [lia|]. split; [done|]. split; [lia|]. split; [reflexivity|]. split.
      * intros j Hj. by rewrite lookup_total_insert_ne. * by rewrite lookup_total_insert_eq.
  - mrun. destruct (IH (S i) pid c s Hc) as [(x & t & Hx & Hp & Hf & H)|[Hn Hr]].
    + left. exists x, t. split; [lia|]. split; [done|]. split; [|done]. intros j Hj. destruct (decide (j = i)) as [->|]; [done|]. apply Hf. lia.
    + right. split; [|done]. intros j Hj. destruct (decide (j = i)) as [->|]; [done|]. apply Hn. lia.
Qed.

(** kill(pid) marks the first slot that has the pid as killed and makes it runnable if it sleeps, and changes no other
    slot; it returns -1 exactly when no slot has the pid. *)
Theorem kill_correct pid c s : no_plock c ->
  (exists x t, (x < nproc)%nat /\ p_pid (procs s !!! x) = pid /\ kill pid c s = Ok 0 c (put_procs t s) /\
     (forall j, j <> x -> t !!! j = procs s !!! j) /\ p_killed (t !!! x) = 1 /\
     p_state (t !!! x) = if decide (p_state (procs s !!! x) = SLEEPING) then RUNNABLE else p_state (procs s !!! x)) \/
  ((forall j, (j < nproc)%nat -> p_pid (procs s !!! j) <> pid) /\ kill pid c s = Ok (-1) c s).
Proof.
  intros Hc. destruct (kill_loop_run nproc 0 pid c s Hc) as [(x & t & Hx & Hp & _ & Hr & Ho & Ht)|[Hn Hr]].
  - left. exists x, t. split; [lia|]. split; [done|]. split; [done|]. split; [done|]. rewrite Ht. by destruct (decide _).
  - right. split; [|done]. intros j Hj. apply Hn. lia.
Qed.

(** C37: kill(0) is not refused: unused slots have pid 0, so it marks the first of them, and the process that allocproc() puts
    there next starts out killed. *)
Theorem kill_zero_marks_unused `{KI : KernelImage} fa c s i : no_plock c -> (i < nproc)%nat -> p_state (procs s !!! i) = UNUSED ->
  p_pid (procs s !!! i) = 0 -> (forall j, (j < i)%nat -> p_state (procs s !!! j) <> UNUSED /\ p_pid (procs s !!! j) <> 0) ->
  exists t, kill 0 c s = Ok 0 c (put_procs t s) /\
    forall c1 r c2 s2, allocproc fa c1 (put_procs t s) = Ok (Some r) c2 s2 -> r = i /\ p_killed (procs s2 !!! r) = 1.
Proof.
  intros Hc Hi Hu Hp Hb. destruct (kill_loop_run nproc 0 0 c s Hc) as [(x & t & Hx & Hpx & Hf & Hr & Ho & Ht)|[Hn _]]; [|by destruct (Hn i ltac:(lia))].
  assert (x = i) as ->.
  { destruct (decide (x = i)); [done|]. exfalso. destruct (decide (x < i)%nat) as [Hlt|]; [by apply (Hb x Hlt)|]. apply (Hf i); [lia|done]. }
  rewrite decide_False in Ht by (by rewrite Hu). unfold id in Ht. exists t. split; [exact Hr|]. intros c1 r c2 s2 H.
  apply allocproc_shape in H as (Hr' & [Hru Hfst] & (q & S & _ & _ & _ & _ & _ & Ek & _) & _). cbn [put_procs procs] in *.
  assert (r = i) as ->.
  { destruct (decide (r = i)); [done|]. exfalso. destruct (decide (r < i)%nat) as [Hlt|].
    - rewrite Ho in Hru by done. by destruct (Hb r Hlt). - apply (Hfst i); [lia|]. by rewrite Ht. }
  split; [done|]. rewrite (ss_at _ _ _ _ S), Ek, Ht. done.
Qed.

Section Steps.
Context `{KI : KernelImage}.

Lemma psleep_benign ch lk c s c' s' i : c_proc s = Some i -> alive (procs s !!! i) ->
  psleep ch lk c s = Ok tt c' s' -> benign_step s s' /\ c_proc s' = c_proc s.
Proof.
  intros Hi (Ha & Hd & Hz) H. unfold psleep in H. mbind H x c1 s1 H1. apply myproc_inv in H1 as (E & -> & ->). rewrite Hi in E. injection E as <-.
  mbind H y c1 s1 H1. apply acquire_inv in H1 as (-> & -> & _). mbind H z c1 s1 H1. apply release_inv in H1 as (-> & ->).
  rewrite !bind_modp in H. apply sched_inv in H as (-> & ->). split; [|done].
  eapply benign_step_trans; apply benign_modp; cbn [put_procs procs]; rewrite ?lookup_total_insert_eq.
  - split; cbn; try done. - split; cbn; try done; naive_solver.
Qed.

Lemma kill_loop_benign k : forall i pid c s r c' s', kill_loop k i pid c s = Ok r c' s' -> benign_step s s'.
Proof.
  induction k as [|k IH]; intros i pid c s r c' s' H; cbn [kill_loop] in H.
  - unfold retM in H. injection H as <- <- <-. apply benign_step_refl.
  - mbind H x c1 s1 H1. apply acquire_inv in H1 as (-> & -> & _). rewrite bind_getp in H. destruct (p_pid _ =? pid).
    + rewrite bind_modp in H. set (s1 := put_procs _ _) in H.
      assert (benign_step s s1) as B1 by (apply benign_modp; split; cbn; done).
      mbind H y c1 s2 H1. assert (benign_step s1 s2) as B2.
      { destruct (decide (p_state (procs s !!! i) = SLEEPING)) as [Es|]; [|unfold retM in H1; injection H1 as <- <- <-; apply benign_step_refl].
        unfold modp, modifyM in H1. injection H1 as <- <- <-. apply benign_modp. cbn. rewrite lookup_total_insert_eq. split; cbn; rewrite ?Es; done. }
      rewrite bind_release in H || (mbind H z c2 s3 H2; apply release_inv in H2 as (-> & _)). unfold retM in H. injection H as <- <- <-.
      by apply (benign_step_trans _ s1).
    + rewrite bind_release in H. by apply IH in H.
Qed.

Lemma psleep_resume_benign lk c s c' s' i : c_proc s = Some i -> p_state (procs s !!! i) = RUNNING ->
  psleep_resume lk c s = Ok tt c' s' -> benign_step s s' /\ c_proc s' = c_proc s.
Proof.
  intros Hi Hr H. unfold psleep_resume in H. mbind H x c1 s1 H1. apply myproc_inv in H1 as (E & -> & ->). rewrite Hi in E. injection E as <-.
  rewrite bind_modp in H. mbind H y c1 s1 H1. apply release_inv in H1 as (-> & _). apply acquire_inv in H as (-> & _ & _).
  split; [|done]. apply benign_modp. split; cbn; rewrite ?Hr; done.
Qed.

Lemma yield_benign c s c' s' i : c_proc s = Some i -> p_state (procs s !!! i) = RUNNING ->
  yield c s = Ok tt c' s' -> benign_step s s'.
Proof.
  intros Hi Hr H. unfold yield in H. mbind H x c1 s1 H1. apply myproc_inv in H1 as (E & -> & ->). rewrite Hi in E. injection E as <-.
  mbind H y c1 s1 H1. apply acquire_inv in H1 as (-> & _ & _). rewrite bind_modp in H. apply sched_inv in H as (_ & ->).
  apply benign_modp. split; cbn; rewrite ?Hr; done.
Qed.

Lemma sched_enter_benign i c s r c' s' : sched_enter i c s = Ok r c' s' -> benign_step s s'.
Proof.
  intros H. unfold sched_enter in H. mbind H y c1 s1 H1. apply acquire_inv in H1 as (-> & -> & _). rewrite bind_getp in H.
  destruct (decide (p_state (procs s !!! i) = RUNNABLE)) as [E|].
  - rewrite bind_modp in H. unfold set_c_proc in H. rewrite bind_modify in H. unfold retM in H. injection H as <- <- <-.
    apply (benign_step_trans _ (put_procs (<[i := set_state RUNNING (procs s !!! i)]> (procs s)) s)).
    + apply benign_modp. split; cbn; rewrite ?E; done. + split; [intros; apply benign_refl|done|done].
  - rewrite bind_release in H. unfold retM in H. injection H as <- <- <-. apply benign_step_refl.
Qed.

Lemma setkilled_benign i c s c' s' : setkilled i c s = Ok tt c' s' -> benign_step s s'.
Proof.
  intros H. unfold setkilled in H. mbind H y c1 s1 H1. apply acquire_inv in H1 as (-> & -> & _). rewrite bind_modp in H.
  apply release_inv in H as (-> & _). apply benign_modp. by split.
Qed.

Lemma benign_mem s s' : procs s' = procs s -> nextpid s' = nextpid s -> initproc s' = initproc s -> benign_step s s'.
Proof. intros E1 E2 E3. split; [|done|done]. intros j. rewrite E1. apply benign_refl. Qed.

Lemma growproc_benign n c s r c' s' : growproc n c s = Ok r c' s' -> benign_step s s'.
Proof.
  intros H. unfold growproc in H. mbind H i c1 s1 H1. apply myproc_inv in H1 as (_ & -> & ->). rewrite bind_getp in H.
  assert (forall x s1 c1 r c' s', (modp i (set_psz x) ;;! retM 0) c1 s1 = Ok r c' s' -> benign_step s1 s') as Hset.
  { intros x s1 c1 r0 c0 s0 H0. rewrite bind_modp in H0. unfold retM in H0. injection H0 as <- <- <-. apply benign_modp. by split. }
  destruct (0 <? n).
  - mbind H x c1 s1 H1. apply onmem_inv in H1 as (E1 & E2 & E3 & _). apply (benign_step_trans _ s1); [by apply benign_mem|].
    destruct (x =? 0); [unfold retM in H; injection H as <- <- <-; apply benign_step_refl|]. by eapply Hset.
  - destruct (n <? 0); [|by eapply Hset]. mbind H x c1 s1 H1. apply onmem_inv in H1 as (E1 & E2 & E3 & _).
    apply (benign_step_trans _ s1); [by apply benign_mem|]. by eapply Hset.
Qed.

(** *** Processes begin and end *)

(** Slot [i] changes; everything that points to a process still points to one. *)
Lemma table_ok_slot s s' i p : table_ok s -> slot_set i p s s' -> (i < nproc)%nat -> nextpid s <= nextpid s' < 2 ^ 31 ->
  slot_ok (nextpid s') (procs s') p -> (alive (procs s !!! i) -> alive p) ->
  (p_state p <> UNUSED -> p_pid p = p_pid (procs s !!! i) /\ p_state (procs s !!! i) <> UNUSED \/ nextpid s <= p_pid p) ->
  table_ok s'.
Proof.
  intros [Hs Hu Hi Hn] [At Ot Ei _] Hlt Hnx Hok Hal Hpid.
  assert (forall x, alive (procs s !!! x) -> alive (procs s' !!! x)) as Halive.
  { intros x Ha. destruct (decide (x = i)) as [->|]; [rewrite At; by apply Hal|by rewrite Ot]. }
  assert (forall j, j <> i -> (j < nproc)%nat -> p_state (procs s !!! j) <> UNUSED -> p_state p <> UNUSED -> p_pid p <> p_pid (procs s !!! j)) as Hd.
  { intros j Hj Hjl Hjs Hps E. destruct (Hpid Hps) as [[E1 Hs1]|Hge].
    - apply Hj. apply (Hu j i); [done|done|done|congruence].
    - destruct (so_used _ _ _ (Hs j Hjl) Hjs). lia. }
  split; [| | |lia].
  - intros j Hj. destruct (decide (j = i)) as [->|Hne]; [by rewrite At|]. rewrite Ot by done. destruct (Hs j Hj) as [S1 S2 S3 S4]. split; try done.
    + intros H. destruct (S2 H) as (? & ? & ?). split; [lia|done].
    + intros x Hx. destruct (S4 x Hx). split; [done|]. by apply Halive.
  - intros a b Ha Hb Hsa E.
    assert (p_state (procs s' !!! b) <> UNUSED) as Hsb.
    { intros Eb. assert (p_pid (procs s' !!! b) = 0) as E0.
      { destruct (decide (b = i)) as [->|]; [rewrite At in *; by apply Hok|rewrite Ot in * by done; by apply (Hs b Hb)]. }
      assert (0 < p_pid (procs s' !!! a)); [|lia].
      destruct (decide (a = i)) as [->|]; [rewrite At in *; by apply Hok|rewrite Ot in * by done; by apply (Hs a Ha)]. }
    destruct (decide (a = i)) as [->|Hai], (decide (b = i)) as [->|Hbi]; [done| | |].
    + rewrite At, Ot in * by done. by destruct (Hd b Hbi Hb Hsb Hsa).
    + rewrite At, Ot in * by done. by destruct (Hd a Hai Ha Hsa Hsb).
    + rewrite !Ot in * by done. by apply Hu.
  - rewrite Ei. intros x Hx. destruct (Hi x Hx). split; [done|]. by apply Halive.
Qed.

(** freeproc() of a slot that nothing points to. *)
Lemma freeproc_table i c s c' s' : table_ok s -> (i < nproc)%nat -> ~ alive (procs s !!! i) -> freeproc i c s = Ok tt c' s' -> table_ok s'.
Proof.
  intros T Hi Ha H. apply freeproc_shape in H as [Hs Hn]. pose proof (tk_next _ T). apply (table_ok_slot s s' i (cleared (procs s !!! i))); try done; try lia.
Qed.

Lemma allocproc_table fa c s r c' s' : table_ok s -> nextpid s + 1 < 2 ^ 31 -> allocproc fa c s = Ok r c' s' -> table_ok s'.
Proof.
  intros T Hn H. apply allocproc_shape in H. pose proof (tk_next _ T) as Hnx. rewrite s32_id in H by lia. destruct r as [i|].
  - destruct H as (Hi & [Hu _] & (q & S & Eq & Ep & Et & Eg & Er & _) & En). destruct (so_unused _ _ _ (tk_slot _ T i Hi) Hu) as (_ & _ & _ & Hpar).
    apply (table_ok_slot s s' i q); try done; try lia.
    + split; rewrite ?Eq, ?Er, ?Hpar; try done. intros _. split; [lia|done].
    + intros (Ha & _). by destruct Ha.
  - destruct H as [[_ ->]|(i & Hi & Hu & S & En)]; [done|]. apply (table_ok_slot s s' i (cleared (procs s !!! i))); try done; try lia.
    intros (Ha & _). by destruct Ha.
Qed.

Lemma fork_publish_table np i c s c' s' : table_ok s -> (np < nproc)%nat -> p_state (procs s !!! np) = USED -> (i < nproc)%nat ->
  alive (procs s !!! i) -> fork_publish np i c s = Ok tt c' s' -> table_ok s'.
Proof.
  intros T Hnp Hu Hi Ha H. unfold fork_publish in H. mbind H x1 c1 s1 H1. apply acquire_inv in H1 as (-> & -> & _). rewrite bind_modp, bind_release in H.
  mbind H x2 c1 s1 H1. apply acquire_inv in H1 as (-> & -> & _). rewrite bind_modp in H. apply release_inv in H as (-> & _). cbn [put_procs procs].
  rewrite lookup_total_insert_eq. pose proof (tk_next _ T). set (q := set_state _ _).
  destruct (so_used _ _ _ (tk_slot _ T np Hnp) ltac:(by rewrite Hu)) as (Hp & Ht & Hg).
  assert (i <> np) as Hne. { intros ->. by destruct Ha as (_ & Hx & _). }
  apply (table_ok_slot s _ np q); try done; cbn; try lia.
  - split; cbn; [apply lookup_total_insert_eq| |done|done]. intros j Hj. by rewrite !lookup_total_insert_ne.
  - split; cbn; try done. intros x [= <-]. split; [done|]. by rewrite !lookup_total_insert_ne by done.
  - left. by rewrite Hu.
Qed.

(** *** exit *)

Definition adopt (i : nat) (x : option nat) (p : proc) : proc :=
  if decide (p_parent p = Some i) then set_parent x p else p.

Lemma wakeup_loop_benign k : forall j ch c s a c' s', wakeup_loop k j ch c s = Ok a c' s' -> benign_step s s' /\ c_proc s' = c_proc s.
Proof.
  induction k as [|k IH]; intros j ch c s a c' s' H; cbn [wakeup_loop] in H.
  { unfold retM in H. injection H as _ _ <-. split; [apply benign_step_refl|done]. }
  rewrite bind_get in H. mbind H x c1 s1 H1. apply IH in H as [B2 C2].
  assert (benign_step s s1 /\ c_proc s1 = c_proc s) as [B1 C1]; [|split; [by apply (benign_step_trans _ s1)|congruence]].
  destruct (decide (c_proc s = Some j)); [unfold retM in H1; injection H1 as _ _ <-; split; [apply benign_step_refl|done]|].
  mbind H1 y c2 s2 H2. apply acquire_inv in H2 as (-> & -> & _). rewrite bind_getp in H1. mbind H1 z c3 s3 H3. apply release_inv in H1 as (-> & _).
  destruct (decide (p_state _ = SLEEPING /\ _)) as [[Es _]|]; [|unfold retM in H3; injection H3 as _ _ <-; split; [apply benign_step_refl|done]].
  unfold modp, modifyM in H3. injection H3 as _ _ <-. split; [|done]. apply benign_modp. split; cbn; rewrite ?Es; done.
Qed.

Lemma wakeup_proc_benign x c s a c' s' : wakeup_proc x c s = Ok a c' s' -> benign_step s s' /\ c_proc s' = c_proc s.
Proof.
  destruct x as [x|]; cbn; [apply wakeup_loop_benign|]. intros H. injection H as _ _ <-. split; [apply benign_step_refl|done].
Qed.

(** One turn of the loop of reparent(). *)
Lemma reparent_turn j i c s a c' s' :
  (if decide (p_parent (procs s !!! j) = Some i) then
     s <-! getM ;; modp j (set_parent (initproc s)) ;;! wakeup_proc (initproc s) else retM tt) c s = Ok a c' s' ->
  nextpid s' = nextpid s /\ initproc s' = initproc s /\ c_proc s' = c_proc s /\
    forall x, benign (if decide (x = j) then adopt i (initproc s) (procs s !!! x) else procs s !!! x) (procs s' !!! x).
Proof.
  unfold adopt. destruct (decide (p_parent (procs s !!! j) = Some i)) as [Ep|Ep]; intros H.
  - rewrite bind_get, bind_modp in H. apply wakeup_proc_benign in H as [[B N I] C]. split_and!; try done. intros x. specialize (B x).
    cbn [put_procs procs] in B. destruct (decide (x = j)) as [->|Hne].
    + rewrite lookup_total_insert_eq in B. by rewrite decide_True.
    + by rewrite lookup_total_insert_ne in B.
  - unfold retM in H. injection H as _ _ <-. split_and!; try done. intros x. destruct (decide (x = j)) as [->|]; [|apply benign_refl].
    rewrite decide_False by done. apply benign_refl.
Qed.

Lemma reparent_loop_shape k : forall j i c s a c' s', reparent_loop k j i c s = Ok a c' s' ->
  nextpid s' = nextpid s /\ initproc s' = initproc s /\ c_proc s' = c_proc s /\
    forall x, benign (if decide (j <= x < j + k)%nat then adopt i (initproc s) (procs s !!! x) else procs s !!! x) (procs s' !!! x).
Proof.
  induction k as [|k IH]; intros j i c s a c' s' H; cbn [reparent_loop] in H.
  - unfold retM in H. injection H as _ _ <-. split_and!; try done. intros x. rewrite decide_False by lia. apply benign_refl.
  - rewrite bind_getp in H. mbind H y c1 s1 H1. apply reparent_turn in H1 as (N1 & I1 & C1 & B1). apply IH in H as (N2 & I2 & C2 & B2).
    split_and!; try congruence. intros x. specialize (B1 x). specialize (B2 x). rewrite I1 in B2.
    eapply benign_trans; [|exact B2]. clear B2. destruct (decide (x = j)) as [->|Hne].
    + rewrite decide_True by lia. by rewrite decide_False by lia.
    + destruct (decide (S j <= x < S j + k)%nat).
      * rewrite decide_True by lia. unfold adopt. destruct B1 as [(E1 & E2 & E3 & E4) U Z D C F]. rewrite E4.
        destruct (decide (p_parent (procs s !!! x) = Some i)); [|by split]. by split.
      * by rewrite decide_False by lia.
Qed.

(** All children of [i] have a new parent, and [i] is a zombie. *)
Record exited (i : nat) (st : Z) (s s' : ptab) : Prop := {
  ex_next : nextpid s' = nextpid s;
  ex_init : initproc s' = initproc s;
  ex_slot : forall x, (x < nproc)%nat -> exists q, benign (adopt i (initproc s) (procs s !!! x)) q /\
    procs s' !!! x = if decide (x = i) then set_state ZOMBIE (set_xstate st q) else q;
}.

Lemma exit_last_shape i st c s c' s' : exit_last i st c s = Ok tt c' s' -> exited i st s s'.
Proof.
  intros H. unfold exit_last in H. mbind H x1 c1 s1 H1. apply acquire_inv in H1 as (-> & -> & _).
  mbind H x2 c2 s2 H2. apply reparent_loop_shape in H2 as (N1 & I1 & C1 & B1).
  rewrite bind_getp in H. mbind H x4 c5 s5 H5. apply wakeup_proc_benign in H5 as [[B2 N2 I2] C2].
  mbind H x3 c3 s3 H3. apply acquire_inv in H3 as (-> & -> & _).
  rewrite !bind_modp in H. mbind H x5 c4 s4 H4. apply release_inv in H4 as (-> & _). apply sched_inv in H as (_ & ->).
  split; cbn [put_procs procs nextpid initproc]; [congruence|congruence|]. intros x Hx. exists (procs s5 !!! x). split.
  - specialize (B1 x). rewrite decide_True in B1 by lia. eapply benign_trans; [exact B1|apply B2].
  - destruct (decide (x = i)) as [->|]; [by rewrite !lookup_total_insert_eq|by rewrite !lookup_total_insert_ne].
Qed.

Lemma adopt_same i x p : p_pid (adopt i x p) = p_pid p /\ p_state (adopt i x p) = p_state p /\ p_trapframe (adopt i x p) = p_trapframe p /\
  p_pagetable (adopt i x p) = p_pagetable p /\ p_chan (adopt i x p) = p_chan p.
Proof. unfold adopt. by destruct (decide _). Qed.

Lemma adopt_parent i x p z : x <> Some i -> p_parent (adopt i x p) = Some z -> z <> i /\ (x = Some z \/ p_parent p = Some z).
Proof. unfold adopt. intros Hx. destruct (decide _); cbn; naive_solver. Qed.

Lemma exited_slot i st s s' x : exited i st s s' -> (x < nproc)%nat -> alive (procs s !!! i) ->
  p_pid (procs s' !!! x) = p_pid (procs s !!! x) /\ p_trapframe (procs s' !!! x) = p_trapframe (procs s !!! x) /\
  p_pagetable (procs s' !!! x) = p_pagetable (procs s !!! x) /\ p_parent (procs s' !!! x) = p_parent (adopt i (initproc s) (procs s !!! x)) /\
  (p_state (procs s' !!! x) = UNUSED <-> p_state (procs s !!! x) = UNUSED) /\
  (x <> i -> alive (procs s !!! x) -> alive (procs s' !!! x)) /\
  ((p_state (procs s !!! x) = SLEEPING -> p_chan (procs s !!! x) <> None) -> p_state (procs s' !!! x) = SLEEPING -> p_chan (procs s' !!! x) <> None).
Proof.
  intros [_ _ Hs] Hx (Ha & _). destruct (Hs x Hx) as (q & B & ->). destruct (adopt_same i (initproc s) (procs s !!! x)) as (A1 & A2 & A3 & A4 & A5).
  pose proof (benign_alive _ _ B) as Hal. unfold alive in Hal. destruct B as [(E1 & E2 & E3 & E4) U _ _ Ck _]. rewrite A1 in E1. rewrite A2 in U, Ck, Hal. rewrite A3 in E2. rewrite A4 in E3. rewrite A5 in Ck.
  destruct (decide (x = i)) as [->|]; cbn; split_and!; try done.
Qed.

Lemma exited_table i st s s' : table_ok s -> (i < nproc)%nat -> alive (procs s !!! i) -> is_Some (initproc s) -> initproc s <> Some i ->
  exited i st s s' -> table_ok s' /\ forall x, (x < nproc)%nat -> p_parent (procs s' !!! x) <> Some i.
Proof.
  intros T Hi Ha (y & Hy) Hni X. destruct (tk_init _ T y Hy) as [Hyl Hya]. assert (y <> i) as Hyi by congruence.
  assert (forall x z, (x < nproc)%nat -> p_parent (procs s' !!! x) = Some z -> z <> i /\ (z < nproc)%nat /\ alive (procs s !!! z)) as Hpar.
  { intros x z Hx Hz. destruct (exited_slot _ _ _ _ x X Hx Ha) as (_ & _ & _ & E & _). rewrite E in Hz. apply adopt_parent in Hz as [Hzi [Hz|Hz]]; [| |done].
    - rewrite Hy in Hz. by injection Hz as <-. - by apply (tk_slot _ T x Hx) in Hz. }
  split; [|intros x Hx Hz; by destruct (Hpar x i Hx Hz)].
  split; rewrite ?(ex_next _ _ _ _ X), ?(ex_init _ _ _ _ X); [| | |apply T].
  - intros x Hx. destruct (exited_slot _ _ _ _ x X Hx Ha) as (E1 & E2 & E3 & E4 & U & _ & Ck). destruct (tk_slot _ T x Hx) as [S1 S2 S3 S4].
    split; rewrite ?E1, ?E2, ?E3.
    + intros H. apply U in H. destruct (S1 H) as (? & ? & ? & Hp). split_and!; try done. rewrite E4. unfold adopt. by rewrite Hp.
    + intros H. apply S2. by rewrite <- U.
    + by apply Ck.
    + intros z Hz. destruct (Hpar x z Hx Hz) as (? & Hzl & ?). split; [done|]. by apply (exited_slot _ _ _ _ z X Hzl Ha).
  - intros a b Hla Hlb Hs E. destruct (exited_slot _ _ _ _ a X Hla Ha) as (Ea & _ & _ & _ & U & _), (exited_slot _ _ _ _ b X Hlb Ha) as (Eb & _).
    apply (tk_uniq _ T); [done|done|by rewrite <- U|congruence].
  - intros z Hz. rewrite Hy in Hz. injection Hz as <-. split; [done|]. by apply (exited_slot _ _ _ _ y X Hyl Ha).
Qed.

(** *** wait *)

Lemma wait_scan_shape k : forall j i addr hk c s r c' s', wait_scan k j i addr hk c s = Ok r c' s' ->
  match r with
  | inl v => (v = -1 /\ procs s' = procs s /\ nextpid s' = nextpid s /\ initproc s' = initproc s /\ c_proc s' = c_proc s) \/
      (exists x, (j <= x < j + k)%nat /\ p_parent (procs s !!! x) = Some i /\ p_state (procs s !!! x) = ZOMBIE /\
         v = p_pid (procs s !!! x) /\ slot_set x (cleared (procs s !!! x)) s s' /\ nextpid s' = nextpid s)
  | inr b => s' = s /\ c' = c /\ (forall x, (j <= x < j + k)%nat -> p_parent (procs s !!! x) = Some i -> p_state (procs s !!! x) <> ZOMBIE)
  end.
Proof.
  induction k as [|k IH]; intros j i addr hk c s r c' s' H; cbn [wait_scan] in H.
  { unfold retM in H. injection H as <- <- <-. split; [done|]. split; [done|]. lia. }
  rewrite bind_getp in H. destruct (decide (p_parent (procs s !!! j) = Some i)) as [Ep|Ep].
  2:{ apply IH in H. destruct r as [v|b].
      - destruct H as [H|(x & Hx & H)]; [by left|]. right. exists x. split; [lia|done].
      - destruct H as (-> & -> & H). split; [done|]. split; [done|]. intros x Hx. destruct (decide (x = j)) as [->|]; [done|]. apply H. lia. }
  mbind H x1 c1 s1 H1. apply acquire_inv in H1 as (-> & -> & _). rewrite bind_getp in H.
  destruct (decide (p_state (procs s !!! j) = ZOMBIE)) as [Ez|Ez].
  2:{ rewrite bind_release, ctx_eta in H. apply IH in H. destruct r as [v|b].
      - destruct H as [H|(x & Hx & H)]; [by left|]. right. exists x. split; [lia|done].
      - destruct H as (-> & -> & H). split; [done|]. split; [done|]. intros x Hx. destruct (decide (x = j)) as [->|]; [done|]. apply H. lia. }
  rewrite bind_getp in H. mbind H q c2 s2 H2.
  assert (procs s2 = procs s /\ nextpid s2 = nextpid s /\ initproc s2 = initproc s /\ c_proc s2 = c_proc s) as (E1 & E2 & E3 & E4).
  { destruct (addr =? 0); [unfold retM in H2; by injection H2 as <- <- <-|by apply onmem_inv in H2]. }
  destruct (q <? 0).
  - mbind H x3 c3 s3 H3. apply release_inv in H3 as (-> & _). mbind H x4 c4 s4 H4. apply release_inv in H4 as (-> & _).
    unfold retM in H. injection H as <- <- <-. by left.
  - mbind H x3 c3 s3 H3. destruct x3. apply freeproc_shape in H3 as [S3 N3]. mbind H x4 c4 s4 H4. apply release_inv in H4 as (-> & _).
    mbind H x5 c5 s5 H5. apply release_inv in H5 as (-> & _). unfold retM in H. injection H as <- <- <-. right. exists j.
    split; [lia|]. split; [done|]. split; [done|]. split; [done|]. split; [|congruence]. rewrite E1 in S3.
    destruct S3 as [A B C D]. split; [done| |congruence|congruence]. intros x Hx. by rewrite B, E1.
Qed.

Lemma killed_inv i c s a c' s' : killed i c s = Ok a c' s' -> s' = s /\ a = p_killed (procs s !!! i).
Proof.
  unfold killed. intros H. mbind H x c1 s1 H1. apply acquire_inv in H1 as (-> & -> & _). rewrite bind_getp, bind_release in H.
  unfold retM in H. by injection H as <- <- <-.
Qed.

Lemma zombie_not_alive p : p_state p = ZOMBIE -> ~ alive p.
Proof. by intros E (_ & _ & H). Qed.

Lemma wait_round_table addr i c s r c' s' : table_ok s -> c_proc s = Some i -> alive (procs s !!! i) ->
  wait_round addr c s = Ok r c' s' -> table_ok s'.
Proof.
  intros T Hi Ha H. unfold wait_round in H. mbind H x c1 s1 H1. apply myproc_inv in H1 as (E & -> & ->). rewrite Hi in E. injection E as <-.
  mbind H q c1 s1 H1. apply wait_scan_shape in H1. destruct q as [v|b].
  - unfold retM in H. injection H as <- <- <-. destruct H1 as [(_ & E1 & E2 & E3 & _)|(x & Hx & _ & Hz & _ & S1 & N1)].
    + apply (table_ok_benign s); [done|]. by apply benign_mem.
    + pose proof (tk_next _ T). apply (table_ok_slot s s1 x (cleared (procs s !!! x))); try done; try lia.
      intros Hx'. by apply zombie_not_alive in Hz.
  - destruct H1 as (-> & -> & _). mbind H k c2 s2 H2.
    assert (s2 = s) as -> by (destruct b; [by apply killed_inv in H2 as (-> & _)|unfold retM in H2; by injection H2 as _ _ <-]).
    destruct (negb (k =? 0)).
    + mbind H y c3 s3 H3. apply release_inv in H3 as (-> & _). unfold retM in H. by injection H as <- <- <-.
    + mbind H y c3 s3 H3. destruct y. unfold retM in H. injection H as <- <- <-.
      destruct (psleep_benign _ _ _ _ _ _ i Hi Ha H3) as [B _]. by apply (table_ok_benign s).
Qed.
End Steps.

(** ** Every reachable table *)

Section Reach.
Context `{KI : KernelImage}.
Variable fa : Z.

(** The table as another CPU sees it, with its own current process. *)
Definition on_cpu (x : option nat) (s : ptab) : ptab := PTab (procs s) (nextpid s) (initproc s) x (p_mem s).

Lemma table_ok_cpu x s : table_ok s -> table_ok (on_cpu x s).
Proof. by intros [A B C D]. Qed.

(** One operation of some CPU, in a state in which it can be called: a running process calls it, or the scheduler. *)
Inductive table_step (s s' : ptab) : Prop :=
| ts_alloc c r c' : nextpid s + 1 < 2 ^ 31 -> allocproc fa c s = Ok r c' s' -> table_step s s'
| ts_fork_fail np c c' : (np < nproc)%nat -> p_state (procs s !!! np) = USED -> freeproc np c s = Ok tt c' s' -> table_step s s'
| ts_fork np i c c' : (np < nproc)%nat -> p_state (procs s !!! np) = USED -> (i < nproc)%nat -> p_state (procs s !!! i) = RUNNING ->
    fork_publish np i c s = Ok tt c' s' -> table_step s s'
| ts_wakeup ch c c' : wakeup ch c s = Ok tt c' s' -> table_step s s'
| ts_kill pid c r c' : kill pid c s = Ok r c' s' -> table_step s s'
| ts_setkilled i c c' : setkilled i c s = Ok tt c' s' -> table_step s s'
| ts_grow n c r c' : growproc n c s = Ok r c' s' -> table_step s s'
| ts_sleep i ch lk c c' : c_proc s = Some i -> p_state (procs s !!! i) = RUNNING -> psleep ch lk c s = Ok tt c' s' -> table_step s s'
| ts_resume i lk c c' : c_proc s = Some i -> p_state (procs s !!! i) = RUNNING -> psleep_resume lk c s = Ok tt c' s' -> table_step s s'
| ts_yield i c c' : c_proc s = Some i -> p_state (procs s !!! i) = RUNNING -> yield c s = Ok tt c' s' -> table_step s s'
| ts_exit i st c c' : (i < nproc)%nat -> p_state (procs s !!! i) = RUNNING -> is_Some (initproc s) -> initproc s <> Some i ->
    exit_last i st c s = Ok tt c' s' -> table_step s s'
| ts_wait i addr c r c' : c_proc s = Some i -> p_state (procs s !!! i) = RUNNING -> wait_round addr c s = Ok r c' s' -> table_step s s'
| ts_enter i c r c' : sched_enter i c s = Ok r c' s' -> table_step s s'
| ts_cpu x : s' = on_cpu x s -> table_step s s'.

(** main() runs procinit() on the zeroed table, and userinit() makes the first process. *)
Inductive table_reach : ptab -> Prop :=
| tr_boot m c c1 c2 s1 s2 i :
    procinit c (PTab ∅ 1 None None m) = Ok tt c1 s1 -> allocproc fa c1 s1 = Ok (Some i) c2 s2 ->
    table_reach (PTab (<[i := set_state RUNNABLE (procs s2 !!! i)]> (procs s2)) (nextpid s2) (Some i) (c_proc s2) (p_mem s2))
| tr_step s s' : table_reach s -> table_step s s' -> table_reach s'.

Lemma running_alive p : p_state p = RUNNING -> alive p.
Proof. intros E. unfold alive. by rewrite E. Qed.

Lemma table_step_ok s s' : table_ok s -> table_step s s' -> table_ok s'.
Proof.
  intros T H. destruct H.
  - by eapply allocproc_table.
  - eapply freeproc_table; try done. by intros (_ & Hu & _).
  - apply (fork_publish_table np i c s c' s'); try done. by apply running_alive.
  - apply (table_ok_benign s); [done|]. by eapply wakeup_loop_benign.
  - apply (table_ok_benign s); [done|]. by eapply kill_loop_benign.
  - apply (table_ok_benign s); [done|]. by eapply setkilled_benign.
  - apply (table_ok_benign s); [done|]. by eapply growproc_benign.
  - apply (table_ok_benign s); [done|]. eapply psleep_benign; try done. by apply running_alive.
  - apply (table_ok_benign s); [done|]. by eapply psleep_resume_benign.
  - apply (table_ok_benign s); [done|]. by eapply yield_benign.
  - eapply (exited_table i st s s'); try done; [by apply running_alive|]. by eapply exit_last_shape.
  - apply (wait_round_table addr i c s r c' s'); try done. by apply running_alive.
  - apply (table_ok_benign s); [done|]. by eapply sched_enter_benign.
  - subst s'. by apply table_ok_cpu.
Qed.

Lemma procinit_loop_unused k : forall i t x, p_state (t !!! x) = UNUSED /\ p_pid (t !!! x) = 0 /\ p_trapframe (t !!! x) = 0 /\
    p_pagetable (t !!! x) = 0 /\ p_parent (t !!! x) = None ->
  let p := procinit_loop k i t !!! x in
  p_state p = UNUSED /\ p_pid p = 0 /\ p_trapframe p = 0 /\ p_pagetable p = 0 /\ p_parent p = None.
Proof.
  induction k as [|k IH]; intros i t x Hx; cbn [procinit_loop]; [done|]. apply IH.
  destruct (decide (x = i)) as [->|]; [rewrite lookup_total_insert_eq; cbn; naive_solver|by rewrite lookup_total_insert_ne].
Qed.

Lemma table_boot m c c1 c2 s1 s2 i :
  procinit c (PTab ∅ 1 None None m) = Ok tt c1 s1 -> allocproc fa c1 s1 = Ok (Some i) c2 s2 ->
  table_ok (PTab (<[i := set_state RUNNABLE (procs s2 !!! i)]> (procs s2)) (nextpid s2) (Some i) (c_proc s2) (p_mem s2)).
Proof.
  intros H1 H2. apply modify_inv in H1 as [-> H1]. cbn [procs] in H1.
  assert (forall x, let p := procinit_loop nproc 0 ∅ !!! x in p_state p = UNUSED /\ p_pid p = 0 /\ p_trapframe p = 0 /\ p_pagetable p = 0 /\ p_parent p = None) as Hu.
  { intros x. apply (procinit_loop_unused nproc 0 ∅ x). by rewrite lookup_total_empty. }
  generalize dependent (procinit_loop nproc 0 ∅). intros t H1 Hu. subst s1. set (s1 := put_procs _ _) in H2.
  assert (table_ok s1) as T1.
  { split; [| |done|cbn; lia].
    - intros x _. change (procs s1) with t. destruct (Hu x) as (E1 & E2 & E3 & E4 & E5). split; rewrite ?E1, ?E5; done.
    - change (procs s1) with t. intros a b _ _ Hs. by destruct (Hu a). }
  pose proof (allocproc_table fa _ _ _ _ _ T1 ltac:(cbn; lia) H2) as T2. pose proof (allocproc_shape _ _ _ _ _ _ H2) as (Hi & _ & (q & S & Eq & _) & _).
  rewrite (ss_at _ _ _ _ S). pose proof (ss_init _ _ _ _ S) as Ei. destruct S as [At Ot _ _].
  set (s3 := PTab _ _ _ _ _). assert (alive (procs s3 !!! i)) as Ha by (cbn; rewrite lookup_total_insert_eq; unfold alive; done).
  assert (table_ok (put_procs (procs s3) s2)) as T3.
  { pose proof (tk_next _ T2). apply (table_ok_slot s2 _ i (set_state RUNNABLE q)); try done; cbn; try lia.
    - split; cbn; [apply lookup_total_insert_eq| |done|done]. intros j Hj. by apply lookup_total_insert_ne.
    - destruct (tk_slot _ T2 i Hi) as [A1 A2 A3 A4]. rewrite At, Eq in *. split; cbn; try done; [intros _; by apply A2|].
      intros x Hx. destruct (A4 x Hx) as [Hl Hx']. split; [done|]. destruct (decide (x = i)) as [->|]; [by rewrite lookup_total_insert_eq|by rewrite lookup_total_insert_ne].
    - left. by rewrite At, Eq. }
  destruct T3 as [A B C D]. split; try done. cbn. intros x [= <-]. by split.
Qed.

(** C10: in every state the process operations reach, on any number of CPUs, until the pid counter wraps: unused slots are
    clean, processes have distinct positive pids, a trapframe and a page table, a sleeper sleeps on a
    channel, and the parent of every process and initproc are processes that have not exited. *)
Theorem table_invariant s : table_reach s -> table_ok s.
Proof. induction 1; [by eapply table_boot|by eapply table_step_ok]. Qed.
End Reach.
