(* ===== verification/ProcMem.v ===== *)
(** The memory of a process: proc_pagetable(), proc_freepagetable(), allocproc() and freeproc() lose no
    page and free none twice. *)
From S2P Require Import Prelude Machine CString Kalloc Vm PageTable UserMem UserFree UserCopy UserFork Printf Proc ProcInv.
Local Open Scope Z_scope.

Section ProcMem.
Context `{KI : KernelImage}.

(** What every user page table maps above the user's memory. *)
Definition kernel_leaves (tf : Z) : gmap Z Z :=
  <[TRAPFRAME := leaf_pte tf (Z.lor PTE_R PTE_W)]> {[TRAMPOLINE := leaf_pte trampoline (Z.lor PTE_R PTE_X)]}.

Lemma TRAMPOLINE_val : TRAMPOLINE = 2 ^ 38 - PGSIZE.
Proof. done. Qed.

(** A table with no leaf below TRAPFRAME owns no page. *)
Lemma as_inv_high s fl root T L : pt_inv s fl root T L -> (forall va, va < TRAPFRAME -> L !! va = None) -> as_inv s fl root T L.
Proof.
  intros H HL. split; [done| |].
  - intros va v Hv Hva. by rewrite HL in Hv.
  - intros va v va' v' Hv _ Hva. by rewrite HL in Hv.
Qed.

Lemma grows_pages T fl T' fl' u x : grows T fl T' fl' u -> x ∈ fl' \/ table_page T' x <-> x ∈ fl \/ table_page T x.
Proof.
  intros [E S N U _]. rewrite E, elem_of_app. split.
  - intros [H|[q Hq]]; [by auto|]. destruct (N q x Hq) as [H|H]; [right; by exists q|auto].
  - intros [[H|H]|[q Hq]]; [right; by apply U|by left|right; exists q]. by apply (lookup_weaken _ _ _ _ Hq).
Qed.

(** Giving back a page table that maps nothing. *)
Lemma uvmfree_empty c s fl root T : pt_inv s fl root T ∅ -> L_kmem ∉ held c ->
  exists s' fl', uvmfree root 0 c s = Ok tt c s' /\ kmem_inv s' fl' /\ (forall x, x ∈ fl' <-> x ∈ fl \/ table_page T x) /\
    changes_only (table_page T) (pm_mem s) (pm_mem s').
Proof.
  intros H Hc. assert (as_inv s fl root T ∅) as Ha by (apply as_inv_high; [done|intros; apply lookup_empty]).
  assert (forall x, ~ leaf_page ∅ x) as Hl by (intros x (va & v & Hv & _); by rewrite lookup_empty in Hv).
  destruct (uvmfree_run c s fl root T ∅ 0 Ha Hc) as (s' & fl' & Hr & Hk & Hx & Hch).
  - rewrite TRAPFRAME_val. unfold PGSIZE. lia.
  - intros va. rewrite lookup_empty. split; [by intros []|]. unfold in_range. change (Z.to_nat (PGROUNDUP 0 / PGSIZE)) with 0%nat. lia.
  - exists s', fl'. split; [done|]. split; [done|]. split; [intros x; rewrite Hx; specialize (Hl x); tauto|].
    revert Hch. apply changes_only_mono. intros x [|H']; [done|by apply Hl in H'].
Qed.

(** The pages of a table that grew out of a single root page. *)
Lemma grown_root p fl T fl' u x : grows {[ [] := p ]} fl T fl' u -> x ∈ fl' \/ table_page T x <-> x ∈ p :: fl.
Proof.
  intros G. rewrite (grows_pages _ _ _ _ _ x G), elem_of_cons. split.
  - intros [H|[q Hq]]; [by right|]. left. by apply lookup_singleton_Some in Hq as [_ <-].
  - intros [->|H]; [|by left]. right. exists []. apply lookup_singleton_eq.
Qed.

(** The failure path of proc_pagetable(). *)
Lemma pagetable_undo c s0 s p fl T fl' u : pt_inv s fl' p T ∅ -> grows {[ [] := p ]} fl T fl' u -> L_kmem ∉ held c ->
  changes_only (fun x => x ∈ p :: fl) (pm_mem s0) (pm_mem s) ->
  exists s' fl'', (uvmfree p 0 ;;! retM 0) c s = Ok 0 c s' /\ kmem_inv s' fl'' /\ (forall x, x ∈ fl'' <-> x ∈ p :: fl) /\
    changes_only (fun x => x ∈ p :: fl) (pm_mem s0) (pm_mem s').
Proof.
  intros Hi G Hc Hch. destruct (uvmfree_empty c s fl' p T Hi Hc) as (s3 & fl3 & Hr & Hk3 & Hx & Hch3). rewrite (bind_Ok _ _ _ _ _ _ _ Hr).
  exists s3, fl3. split; [done|]. split; [done|]. split; [intros x; rewrite Hx; by apply (grown_root p fl T fl' u)|].
  revert Hch Hch3. apply changes_only_trans; [done|]. intros x Hx'. apply (grown_root p fl T fl' u x G). by right.
Qed.

Lemma trampoline_phys : phys_page trampoline.
Proof.
  pose proof trampoline_range. pose proof etext_range. pose proof kend_range. split; [unfold PHYSTOP, KERNBASE in *; lia|apply trampoline_aligned].
Qed.

Lemma proc_pagetable_run tf c s fl : kmem_inv s fl -> L_kmem ∉ held c -> phys_page tf ->
  exists r s' fl', proc_pagetable tf c s = Ok r c s' /\ changes_only (fun x => x ∈ fl) (pm_mem s) (pm_mem s') /\
    if decide (r = 0) then kmem_inv s' fl' /\ forall x, x ∈ fl' <-> x ∈ fl
    else exists T, as_inv s' fl' r T (kernel_leaves tf) /\ forall x, x ∈ fl' \/ table_page T x <-> x ∈ fl.
Proof.
  intros Hk Hc Htf. unfold proc_pagetable. pose proof (uvmcreate_correct c s fl Hk Hc) as Hu. destruct fl as [|p fl].
  { rewrite (bind_Ok _ _ _ _ _ _ _ Hu). exists 0, s, []. split; [done|]. split; [done|]. by rewrite decide_True. }
  destruct Hu as (s1 & Hr1 & Hp & Hi1 & Hch1). rewrite (bind_Ok _ _ _ _ _ _ _ Hr1). destruct (Z.eqb_spec p 0); [done|].
  apply (changes_only_mono _ (fun x => x ∈ p :: fl)) in Hch1; [|intros x ->; by left].
  assert (forall (T : gmap (list Z) Z) fl' u (m m' : gmap Z Z), grows {[ [] := p ]} fl T fl' u -> changes_only (fun x => x ∈ p :: fl) (pm_mem s) m ->
    changes_only (table_page T) m m' -> changes_only (fun x => x ∈ p :: fl) (pm_mem s) m') as Hmore.
  { intros T fl' u m m' G. apply changes_only_trans; [done|]. intros x Hx. apply (grown_root p fl T fl' u x G). by right. }
  destruct (mappages_one c s1 fl p {[ [] := p ]} ∅ TRAMPOLINE trampoline (Z.lor PTE_R PTE_X)) as (r2 & s2 & T2 & fl2 & u2 & Hr2 & G2 & Hch2 & _ & Hcase2);
    [apply Hi1|done|vm_compute; discriminate|vm_compute; discriminate|reflexivity|done|apply trampoline_phys|split; [vm_compute; intuition discriminate|done]|].
  rewrite (bind_Ok _ _ _ _ _ _ _ Hr2). apply (Hmore _ _ _ _ _ G2 Hch1) in Hch2. destruct Hcase2 as [[-> Hi2]|(-> & Hi2 & _)].
  2:{ destruct (pagetable_undo c s s2 p fl T2 fl2 u2 Hi2 G2 Hc Hch2) as (s' & fl' & Hr & Hk' & Hx & Hch). exists 0, s', fl'.
      split; [exact Hr|]. split; [done|]. by rewrite decide_True. }
  change (0 <? 0) with false. cbv iota.
  destruct (mappages_one c s2 fl2 p T2 (<[TRAMPOLINE := leaf_pte trampoline (Z.lor PTE_R PTE_X)]> ∅) TRAPFRAME tf (Z.lor PTE_R PTE_W))
    as (r3 & s3 & T3 & fl3 & u3 & Hr3 & G3 & Hch3 & _ & Hcase3);
    [done|done|vm_compute; discriminate|vm_compute; discriminate|reflexivity|reflexivity|done|split; [vm_compute; intuition discriminate|done]|].
  rewrite (bind_Ok _ _ _ _ _ _ _ Hr3). pose proof (grows_trans _ _ _ _ _ _ _ _ G2 G3) as G. apply (Hmore _ _ _ _ _ G Hch2) in Hch3.
  destruct Hcase3 as [[-> Hi3]|(-> & Hi3 & _)].
  - change (0 <? 0) with false. cbv iota. exists p, s3, fl3. split; [done|]. split; [done|]. rewrite decide_False by done. exists T3.
    split; [|intros x; by eapply grown_root]. apply as_inv_high; [exact Hi3|]. intros va Hva. assert (TRAPFRAME < TRAMPOLINE) by (vm_compute; reflexivity).
    unfold kernel_leaves. rewrite lookup_insert_ne, lookup_singleton_ne by lia. done.
  - change (-1 <? 0) with true. cbv iota.
    destruct (uvmunmap_one_run c s3 fl3 p T3 _ TRAMPOLINE (leaf_pte trampoline (Z.lor PTE_R PTE_X)) Hi3) as (s4 & Hr4 & Hi4 & Hch4);
      [vm_compute; discriminate|vm_compute; discriminate|reflexivity|apply lookup_insert_eq|].
    rewrite (bind_Ok _ _ _ _ _ _ _ Hr4). rewrite delete_insert_id in Hi4 by apply lookup_empty. apply (Hmore _ _ _ _ _ G Hch3) in Hch4.
    destruct (pagetable_undo c s s4 p fl T3 fl3 _ Hi4 G Hc Hch4) as (s' & fl' & Hr & Hk' & Hx & Hch). exists 0, s', fl'.
    split; [exact Hr|]. split; [done|]. by rewrite decide_True.
Qed.

(** The page table of a process of size [sz]: its memory, the trampoline and the trapframe. *)
Record proc_space (s : pmem) (fl : list Z) (root sz tf : Z) (T : gmap (list Z) Z) (L : gmap Z Z) : Prop := {
  sp_as : as_inv s fl root T L;
  sp_sz : 0 <= sz <= TRAPFRAME;
  sp_tramp : L !! TRAMPOLINE = Some (leaf_pte trampoline (Z.lor PTE_R PTE_X));
  sp_frame : L !! TRAPFRAME = Some (leaf_pte tf (Z.lor PTE_R PTE_W));
  sp_dom : forall va, va <> TRAMPOLINE -> va <> TRAPFRAME ->
    is_Some (L !! va) <-> in_range 0 (Z.to_nat (PGROUNDUP sz / PGSIZE)) va;
}.

(** Dropping the two leaves that map no page of the process. *)
Lemma as_inv_delete s s' fl root T L va : as_inv s fl root T L -> pt_inv s' fl root T (delete va L) -> as_inv s' fl root T (delete va L).
Proof.
  intros [_ Ho Hj] H. split; [done| |].
  - intros a v Hv. apply (Ho a v). by apply lookup_delete_Some in Hv as [_ ?].
  - intros a v b w Hv Hw. apply (Hj a v b w); [by apply lookup_delete_Some in Hv as [_ ?]|by apply lookup_delete_Some in Hw as [_ ?]].
Qed.

Lemma in_range_low n sz va : 0 <= sz <= TRAPFRAME -> n = Z.to_nat (PGROUNDUP sz / PGSIZE) -> in_range 0 n va -> va < TRAPFRAME.
Proof.
  intros Hsz -> [Hva _]. assert (0 <= sz < 2 ^ 64 - PGSIZE) as Hb by (rewrite TRAPFRAME_val in *; unfold PGSIZE in *; lia).
  pose proof (PGROUNDUP_bounds _ Hb). pose proof (PGROUNDUP_aligned _ Hb). rewrite TRAPFRAME_val in *. unfold PGSIZE in *. zlia.
Qed.

Lemma proc_freepagetable_run c s fl root sz tf T L : proc_space s fl root sz tf T L -> L_kmem ∉ held c ->
  exists s' fl', proc_freepagetable root sz c s = Ok tt c s' /\ kmem_inv s' fl' /\
    (forall x, x ∈ fl' <-> x ∈ fl \/ table_page T x \/ leaf_page L x) /\
    changes_only (fun x => table_page T x \/ leaf_page L x) (pm_mem s) (pm_mem s').
Proof.
  intros [Ha Hsz Hv1 Hv2 Hd] Hc. unfold proc_freepagetable. assert (TRAMPOLINE <> TRAPFRAME) as Hne by (vm_compute; discriminate).
  destruct (uvmunmap_one_run c s fl root T L TRAMPOLINE (leaf_pte trampoline (Z.lor PTE_R PTE_X)) (ai_pt _ _ _ _ _ Ha)) as (s1 & Hr1 & Hi1 & Hc1);
    [vm_compute; discriminate|vm_compute; discriminate|reflexivity|done|]. rewrite (bind_Ok _ _ _ _ _ _ _ Hr1).
  destruct (uvmunmap_one_run c s1 fl root T (delete TRAMPOLINE L) TRAPFRAME (leaf_pte tf (Z.lor PTE_R PTE_W)) Hi1) as (s2 & Hr2 & Hi2 & Hc2);
    [vm_compute; discriminate|vm_compute; discriminate|reflexivity|by rewrite lookup_delete_ne|]. rewrite (bind_Ok _ _ _ _ _ _ _ Hr2).
  set (L2 := delete TRAPFRAME (delete TRAMPOLINE L)) in *.
  assert (as_inv s2 fl root T L2) as A2 by (apply (as_inv_delete s1); [by apply (as_inv_delete s)|done]).
  destruct (uvmfree_run c s2 fl root T L2 sz A2 Hc Hsz) as (s3 & fl3 & Hr3 & Hk3 & Hx3 & Hc3).
  - intros va. unfold L2. destruct (decide (va = TRAPFRAME)) as [->|H1]; [|destruct (decide (va = TRAMPOLINE)) as [->|H2]].
    + rewrite lookup_delete_eq. split; [by intros []|]. intros H%(in_range_low _ sz); [lia|done|done].
    + rewrite lookup_delete_ne, lookup_delete_eq by done. split; [by intros []|]. intros H%(in_range_low _ sz); [|done|done].
      exfalso. revert H. vm_compute. discriminate.
    + rewrite !lookup_delete_ne by done. by apply Hd.
  - assert (forall x, leaf_page L2 x <-> leaf_page L x) as Hl.
    { intros x. split; intros (va & v & Hv & Hlt & E); exists va, v; (split; [|done]).
      - by apply lookup_delete_Some in Hv as [_ [_ Hv]%lookup_delete_Some].
      - unfold L2. assert (TRAPFRAME < TRAMPOLINE) by (vm_compute; reflexivity). by rewrite !lookup_delete_ne by lia. }
    exists s3, fl3. split; [done|]. split; [done|]. split; [intros x; by rewrite Hx3, Hl|].
    apply (changes_only_trans (table_page T) (fun x => table_page T x \/ leaf_page L2 x) _ _ (pm_mem s2)); [by left| |by apply (changes_only_trans (table_page T) (table_page T) _ _ (pm_mem s1))|done].
    intros x. rewrite Hl. tauto.
Qed.

Lemma onmem_Ok {A} (m : M pmem A) c s a c' m' : m c (p_mem s) = Ok a c' m' ->
  onmem m c s = Ok a c' (PTab (procs s) (nextpid s) (initproc s) (c_proc s) m').
Proof. intros H. unfold onmem, zoom. cbn. by rewrite H. Qed.

(** Runs the memory operation at the head of the goal. *)
Ltac run_mem H :=
  match goal with |- context [bindM (onmem ?m) ?f ?c ?s] => rewrite (bind_Ok (onmem m) f c s _ _ _ (onmem_Ok m c s _ _ _ H)) end.

(** The pages of a process: its trapframe, its page table and its memory. *)
Definition proc_page (tf : Z) (T : gmap (list Z) Z) (L : gmap Z Z) (x : Z) : Prop :=
  x = tf \/ table_page T x \/ leaf_page L x.

(** A process with its memory, apart from the free pages. *)
Record proc_mem (s : pmem) (fl : list Z) (p : proc) (T : gmap (list Z) Z) (L : gmap Z Z) : Prop := {
  pm_space : proc_space s fl (p_pagetable p) (p_sz p) (p_trapframe p) T L;
  pm_root : p_pagetable p <> 0;
  pm_frame : page_ok (p_trapframe p);
  pm_apart : (p_trapframe p ∉ fl) /\ (~ table_page T (p_trapframe p)) /\ ~ leaf_page L (p_trapframe p);
}.

Lemma proc_space_kfree c s fl root sz tf T L : proc_space s fl root sz tf T L -> L_kmem ∉ held c -> page_ok tf ->
  tf ∉ fl -> ~ table_page T tf -> ~ leaf_page L tf ->
  exists s', kfree tf c s = Ok tt c s' /\ proc_space s' (tf :: fl) root sz tf T L /\ changes_only (fun x => x = tf) (pm_mem s) (pm_mem s').
Proof.
  intros [[Hp Ho Hj] Hsz H1 H2 Hd] Hc Htf Hfl Ht Hl. destruct (kfree_pt c s fl root T L tf Hp Hc Htf Ht Hfl) as (s' & Hr & Hp' & Hch).
  exists s'. split; [done|]. split; [|done]. split; try done. split; try done.
  intros va v Hv Hlt. destruct (Ho va v Hv Hlt) as (? & ? & ?). split_and!; try done. apply not_elem_of_cons. split; [|done].
  intros E. apply Hl. by exists va, v.
Qed.

(** freeproc() gives back all that a process has. *)
Lemma freeproc_run i c s fl T L : proc_mem (p_mem s) fl (procs s !!! i) T L -> L_kmem ∉ held c ->
  exists t m fl', freeproc i c s = Ok tt c (PTab t (nextpid s) (initproc s) (c_proc s) m) /\ kmem_inv m fl' /\
    t !!! i = cleared (procs s !!! i) /\ (forall j, j <> i -> t !!! j = procs s !!! j) /\
    (forall x, x ∈ fl' <-> x ∈ fl \/ proc_page (p_trapframe (procs s !!! i)) T L x) /\
    changes_only (proc_page (p_trapframe (procs s !!! i)) T L) (pm_mem (p_mem s)) (pm_mem m).
Proof.
  intros [Hs Hpt Htf (Hfl & Ht & Hl)] Hc. unfold freeproc. rewrite bind_getp. set (p := procs s !!! i) in *.
  pose proof (page_ok_pos _ Htf) as Hpos. destruct (Z.eqb_spec (p_trapframe p) 0); [lia|]. cbn [negb].
  destruct (proc_space_kfree c (p_mem s) fl _ _ _ T L Hs Hc Htf Hfl Ht Hl) as (m1 & Hr1 & Hs1 & Hc1). run_mem Hr1.
  rewrite bind_modp. cbn [procs nextpid initproc c_proc p_mem put_procs]. fold p. destruct (Z.eqb_spec (p_pagetable p) 0); [done|]. cbn [negb].
  destruct (proc_freepagetable_run c m1 _ _ _ _ T L Hs1 Hc) as (m2 & fl2 & Hr2 & Hk2 & Hx2 & Hc2). run_mem Hr2.
  cbn [procs nextpid initproc c_proc p_mem]. unfold modp, modifyM. eexists _, m2, fl2. split; [reflexivity|]. split; [done|].
  cbn [put_procs procs]. split; [by rewrite !lookup_total_insert_eq|]. split; [intros j Hj; by rewrite !lookup_total_insert_ne|]. split.
  - intros x. rewrite Hx2, elem_of_cons. unfold proc_page. tauto.
  - apply (changes_only_trans (fun x => x = p_trapframe p) (fun x => table_page T x \/ leaf_page L x) _ _ (pm_mem m1)); try done; unfold proc_page; tauto.
Qed.

(** allocproc()'s search ends at the first unused slot. *)
Lemma allocproc_scan_run k : forall i c s, no_plock c ->
  (exists j, (i <= j < i + k)%nat /\ p_state (procs s !!! j) = UNUSED /\
     allocproc_scan k i c s = Ok (Some j) (Ctx (L_proc j :: held c) (out c)) s) \/
  ((forall j, (i <= j < i + k)%nat -> p_state (procs s !!! j) <> UNUSED) /\ allocproc_scan k i c s = Ok None c s).
Proof.
  induction k as [|k IH]; intros i c s Hc; cbn [allocproc_scan]; [right; split; [lia|done]|].
  rewrite bind_acquire by apply Hc. rewrite bind_getp. destruct (decide (p_state (procs s !!! i) = UNUSED)) as [Hu|Hu].
  - left. exists i. split; [lia|done].
  - mrun. destruct (IH (S i) c s Hc) as [(j & Hj & Hs & Hr)|[Hn Hr]].
    + left. exists j. split; [lia|done].
    + right. split; [|done]. intros j Hj. destruct (decide (j = i)) as [->|]; [done|]. apply Hn. lia.
Qed.

Lemma allocpid_run c s : L_pid ∉ held c ->
  allocpid c s = Ok (nextpid s) c (PTab (procs s) (s32 (nextpid s + 1)) (initproc s) (c_proc s) (p_mem s)).
Proof. intros H. unfold allocpid. rewrite bind_acquire by done. by mrun. Qed.

(** The memory operations need none of the locks a process holds. *)
Definition alloc_locks (c : ctx) : Prop := no_plock c /\ (L_pid ∉ held c) /\ L_kmem ∉ held c.

Lemma not_held_proc lk i c : lk ∉ held c -> lk <> L_proc i -> lk ∉ L_proc i :: held c.
Proof. intros H1 H2. by apply not_elem_of_cons. Qed.

(** freeproc() of a slot without a page table: at most the trapframe page goes back. *)
Lemma freeproc_bare i c s fl : p_pagetable (procs s !!! i) = 0 -> kmem_inv (p_mem s) fl -> L_kmem ∉ held c ->
  (p_trapframe (procs s !!! i) <> 0 -> page_ok (p_trapframe (procs s !!! i)) /\ p_trapframe (procs s !!! i) ∉ fl) ->
  exists t m fl', freeproc i c s = Ok tt c (PTab t (nextpid s) (initproc s) (c_proc s) m) /\ kmem_inv m fl' /\
    (forall j, j <> i -> t !!! j = procs s !!! j) /\
    (forall x, x ∈ fl' <-> x ∈ fl \/ (x = p_trapframe (procs s !!! i) /\ x <> 0)) /\
    changes_only (fun x => x = p_trapframe (procs s !!! i) /\ x <> 0) (pm_mem (p_mem s)) (pm_mem m).
Proof.
  intros Hp Hk Hc Htf. unfold freeproc. rewrite bind_getp. set (p := procs s !!! i) in *.
  destruct (Z.eqb_spec (p_trapframe p) 0) as [E|E]; cbn [negb].
  - rewrite bind_ret, bind_modp. cbn [put_procs procs]. fold p. rewrite Hp. cbn [Z.eqb negb]. rewrite bind_ret. unfold modp, modifyM.
    eexists _, _, fl. split; [reflexivity|]. split; [done|]. split; [|split; [rewrite E; intros x; intuition lia|done]].
    intros j Hj. cbn. by rewrite !lookup_total_insert_ne.
  - destruct (Htf E) as [Hok Hn]. pose proof (kfree_run (p_trapframe p) c (p_mem s) Hok Hc) as Hr. run_mem Hr. rewrite bind_modp. cbn [put_procs procs]. fold p. rewrite Hp. cbn [Z.eqb negb]. rewrite bind_ret. unfold modp, modifyM.
    eexists _, _, (p_trapframe p :: fl). split; [reflexivity|]. split; [by apply kfree_inv|]. split; [|split].
    + intros j Hj. cbn. by rewrite !lookup_total_insert_ne.
    + intros x. rewrite elem_of_cons. intuition congruence.
    + intros b Hb. cbn. apply mget_store64_out. destruct (Hb _ (conj eq_refl E)); unfold PGSIZE in *; lia.
Qed.

Lemma set_pagetable_id p : p_pagetable p = 0 -> p = set_pagetable 0 p.
Proof. destruct p. cbn. by intros ->. Qed.

(** allocproc() after the pid: the memory of slot [i], which is USED and has none yet. *)
Definition alloc_mem (fa : Z) (i : nat) : M ptab (option nat) :=
  tf <-! onmem kalloc ;;
  modp i (set_trapframe tf) ;;!
  if tf =? 0 then freeproc i ;;! release (L_proc i) ;;! retM None
  else
    pt <-! onmem (proc_pagetable tf) ;;
    modp i (set_pagetable pt) ;;!
    if pt =? 0 then freeproc i ;;! release (L_proc i) ;;! retM None
    else
      modp i (fun p => set_context (Context fa (p_kstack p + PGSIZE)) p) ;;!
      retM (Some i).

(** Everything apart from slot [i] and the memory is as it was. *)
Definition other_slots (i : nat) (s s' : ptab) : Prop :=
  (forall j, j <> i -> procs s' !!! j = procs s !!! j) /\ nextpid s' = nextpid s /\ initproc s' = initproc s /\ c_proc s' = c_proc s.

(** The failure path of allocproc(): the slot has the trapframe page [tf], if any, and no page table. *)
Lemma slot_undo i c s s0 (fl : list Z) tf : let c1 := Ctx (L_proc i :: held c) (out c) in
  procs s !!! i = set_pagetable 0 (set_trapframe tf (procs s0 !!! i)) -> other_slots i s0 s -> L_kmem ∉ held c -> forall fl2 : list Z,
  kmem_inv (p_mem s) fl2 -> (forall x, x ∈ fl2 \/ (x = tf /\ x <> 0) <-> x ∈ fl) -> (tf <> 0 -> page_ok tf /\ tf ∉ fl2) ->
  changes_only (fun x => x ∈ fl) (pm_mem (p_mem s0)) (pm_mem (p_mem s)) ->
  exists s' (fl' : list Z), (freeproc i ;;! release (L_proc i) ;;! retM (@None nat)) c1 s = Ok None c s' /\ other_slots i s0 s' /\
    kmem_inv (p_mem s') fl' /\ (forall x, x ∈ fl' <-> x ∈ fl) /\ changes_only (fun x => x ∈ fl) (pm_mem (p_mem s0)) (pm_mem (p_mem s')).
Proof.
  intros c1 E (O1 & O2 & O3 & O4) Hkm fl2 Hk2 Hx Hok Hch. assert (L_kmem ∉ held c1) as Hc by by apply not_held_proc.
  destruct (freeproc_bare i c1 s fl2) as (t & m & fl' & Hr & Hk' & Ht & Hx' & Hch'); rewrite ?E; try done.
  rewrite (bind_Ok _ _ _ _ _ _ _ Hr). unfold c1. mrun. eexists _, fl'. split; [by destruct c|]. cbn [procs p_mem nextpid initproc c_proc].
  rewrite E in Hx', Hch'. split; [split; [intros j Hj; cbn; rewrite Ht by done; by apply O1|done]|]. split; [done|]. split; [intros x; rewrite Hx'; apply Hx|].
  revert Hch Hch'. apply changes_only_trans; [done|]. intros x Hx''. apply Hx. by right.
Qed.

(** A new process maps no user memory. *)
Lemma proc_mem_new m fl p T : p_sz p = 0 -> p_pagetable p <> 0 -> page_ok (p_trapframe p) -> as_inv m fl (p_pagetable p) T (kernel_leaves (p_trapframe p)) ->
  p_trapframe p ∉ fl -> ~ table_page T (p_trapframe p) -> proc_mem m fl p T (kernel_leaves (p_trapframe p)).
Proof.
  intros Hsz Hpt Hok Ha Hn1 Hn2. assert (TRAPFRAME < TRAMPOLINE) by (vm_compute; reflexivity). split; [|done|done|].
  - rewrite Hsz. split; [done|rewrite TRAPFRAME_val; unfold PGSIZE; lia| |apply lookup_insert_eq|].
    + apply lookup_insert_Some. right. split; [vm_compute; discriminate|apply lookup_singleton_eq].
    + intros va H1 H2. unfold kernel_leaves. rewrite lookup_insert_ne, lookup_singleton_ne by done. split; [by intros []|].
      unfold in_range. change (Z.to_nat (PGROUNDUP 0 / PGSIZE)) with 0%nat. lia.
  - split; [done|]. split; [done|]. intros (va & v & Hv & Hlt & _). unfold kernel_leaves in Hv. by rewrite lookup_insert_ne, lookup_singleton_ne in Hv by lia.
Qed.

Lemma alloc_mem_run fa i c s fl : kmem_inv (p_mem s) fl -> L_kmem ∉ held c ->
  p_pagetable (procs s !!! i) = 0 -> p_sz (procs s !!! i) = 0 ->
  exists r c' s' fl', alloc_mem fa i (Ctx (L_proc i :: held c) (out c)) s = Ok r c' s' /\
    other_slots i s s' /\ changes_only (fun x => x ∈ fl) (pm_mem (p_mem s)) (pm_mem (p_mem s')) /\
    match r with
    | Some j => j = i /\ c' = Ctx (L_proc i :: held c) (out c) /\
        (exists tf pt, procs s' !!! i = set_context (Context fa (p_kstack (procs s !!! i) + PGSIZE)) (set_pagetable pt (set_trapframe tf (procs s !!! i)))) /\
        exists T, proc_mem (p_mem s') fl' (procs s' !!! i) T (kernel_leaves (p_trapframe (procs s' !!! i))) /\
          forall x, x ∈ fl <-> x ∈ fl' \/ x = p_trapframe (procs s' !!! i) \/ table_page T x
    | None => c' = c /\ kmem_inv (p_mem s') fl' /\ forall x, x ∈ fl' <-> x ∈ fl
    end.
Proof.
  intros Hk Hkm Hpt Hsz. unfold alloc_mem. set (c1 := Ctx _ _). assert (L_kmem ∉ held c1) as Hc by by apply not_held_proc.
  destruct (kalloc_run c1 (p_mem s) fl Hk Hc) as [Hr1 Hk1]. run_mem Hr1. rewrite bind_modp. cbn [procs].
  set (tf := hd 0 fl) in *. set (s1 := put_procs _ _).
  assert (procs s1 !!! i = set_trapframe tf (procs s !!! i)) as E1 by (cbn; apply lookup_total_insert_eq).
  assert (other_slots i s s1) as O1 by (split; [intros; cbn; by apply lookup_total_insert_ne|done]).
  destruct fl as [|p fl]; cbn [hd tail] in *.
  { subst tf. cbn [Z.eqb]. destruct (slot_undo i c s1 s [] 0) with (fl2 := @nil Z) as (s' & fl' & Hr & O & Hk' & Hx & Hch); try done.
    - rewrite E1. by apply set_pagetable_id. - intros x; intuition congruence. - by exists None, c, s', fl'. }
  subst tf. destruct Hk as (_ & Hnd & Hall). apply Forall_cons in Hall as [Hok _]. apply NoDup_cons in Hnd as [Hnp _].
  pose proof (page_ok_pos _ Hok). destruct (Z.eqb_spec p 0); [lia|].
  destruct (proc_pagetable_run p c1 (p_mem s1) fl Hk1 Hc (page_ok_phys _ Hok)) as (r & m2 & fl2 & Hr2 & Hch2 & Hcase). run_mem Hr2. rewrite bind_modp. cbn [procs].
  rewrite E1. apply (changes_only_mono _ (fun x => x ∈ p :: fl)) in Hch2; [|intros x; by right]. destruct O1 as (O1 & O2 & O3 & O4).
  destruct (decide (r = 0)) as [->|Hr0].
  - destruct Hcase as [Hk2 Hx2]. rewrite Z.eqb_refl. set (s2 := put_procs _ _).
    destruct (slot_undo i c s2 s (p :: fl) p) with (fl2 := fl2) as (s' & fl' & Hr & O & Hk' & Hx & Hch); try done.
    + apply lookup_total_insert_eq. + split; [|done]. intros j Hj. cbn. by rewrite !lookup_total_insert_ne by done.
    + intros x. rewrite Hx2, elem_of_cons. intuition congruence. + intros _. split; [done|]. by rewrite Hx2.
    + by exists None, c, s', fl'.
  - destruct (Z.eqb_spec r 0); [done|]. destruct Hcase as (T & Ha & Hx). rewrite bind_modp. cbn [put_procs procs]. rewrite lookup_total_insert_eq.
    eexists (Some i), c1, _, fl2. split; [reflexivity|]. cbn [put_procs procs p_mem]. split; [split; [intros j Hj; cbn; by rewrite !lookup_total_insert_ne by done|done]|].
    split; [exact Hch2|]. split; [done|]. split; [done|]. rewrite lookup_total_insert_eq. split; [by exists p, r|]. exists T.
    assert ((p ∉ fl2) /\ ~ table_page T p) as [Hn1 Hn2] by (split; intros ?; apply Hnp, Hx; tauto).
    split; [|cbn; intros x; rewrite elem_of_cons, <- (Hx x); tauto]. by apply proc_mem_new.
Qed.

(** All of allocproc(): the slot it takes differs from before by the pid, the state and the memory. *)
Lemma allocproc_run fa c s fl : kmem_inv (p_mem s) fl -> alloc_locks c ->
  (forall i, (i < nproc)%nat -> p_state (procs s !!! i) = UNUSED -> p_pagetable (procs s !!! i) = 0 /\ p_sz (procs s !!! i) = 0) ->
  exists r c' s' fl', allocproc fa c s = Ok r c' s' /\ initproc s' = initproc s /\ c_proc s' = c_proc s /\
    changes_only (fun x => x ∈ fl) (pm_mem (p_mem s)) (pm_mem (p_mem s')) /\
    match r with
    | Some i => (i < nproc)%nat /\ p_state (procs s !!! i) = UNUSED /\ c' = Ctx (L_proc i :: held c) (out c) /\
        (forall j, j <> i -> procs s' !!! j = procs s !!! j) /\
        (exists tf pt, procs s' !!! i = set_context (Context fa (p_kstack (procs s !!! i) + PGSIZE))
           (set_pagetable pt (set_trapframe tf (set_state USED (set_pid (nextpid s) (procs s !!! i)))))) /\
        exists T, proc_mem (p_mem s') fl' (procs s' !!! i) T (kernel_leaves (p_trapframe (procs s' !!! i))) /\
          forall x, x ∈ fl <-> x ∈ fl' \/ x = p_trapframe (procs s' !!! i) \/ table_page T x
    | None => c' = c /\ kmem_inv (p_mem s') fl' /\ (forall x, x ∈ fl' <-> x ∈ fl) /\
        forall j, p_state (procs s !!! j) <> UNUSED -> procs s' !!! j = procs s !!! j
    end.
Proof.
  intros Hk (Hpl & Hpid & Hkm) Hz. unfold allocproc. destruct (allocproc_scan_run nproc 0 c s Hpl) as [(i & Hi & Hu & Hr)|[Hn Hr]].
  2:{ rewrite (bind_Ok _ _ _ _ _ _ _ Hr). by exists None, c, s, fl. }
  rewrite (bind_Ok _ _ _ _ _ _ _ Hr). destruct (Hz i ltac:(lia) Hu) as [Hpt Hsz].
  rewrite (bind_Ok _ _ _ _ _ _ _ (allocpid_run (Ctx (L_proc i :: held c) (out c)) s (not_held_proc _ _ _ Hpid ltac:(done)))).
  rewrite !bind_modp. cbn [put_procs procs]. rewrite lookup_total_insert_eq. fold (alloc_mem fa i). set (s1 := put_procs _ _).
  assert (procs s1 !!! i = set_state USED (set_pid (nextpid s) (procs s !!! i))) as E1 by (cbn; apply lookup_total_insert_eq).
  destruct (alloc_mem_run fa i c s1 fl Hk Hkm) as (r & c' & s' & fl' & Hr' & (Ho & _ & Oi & Oc) & Hch & Hcase); [by rewrite E1|by rewrite E1|].
  assert (forall j, j <> i -> procs s' !!! j = procs s !!! j) as Ho'.
  { intros j Hj. rewrite Ho by done. cbn. by rewrite !lookup_total_insert_ne. }
  exists r, c', s', fl'. split; [exact Hr'|]. split; [done|]. split; [done|]. split; [done|]. destruct r as [j|].
  - destruct Hcase as (-> & -> & Ep & HT). rewrite E1 in Ep. split_and!; try done; lia.
  - destruct Hcase as (-> & Hk' & Hx). split_and!; try done. intros j Hj. apply Ho'. by intros ->.
Qed.

(** C27: allocproc() takes an unused slot and gives it the next pid, a trapframe page and a page table that maps the
    trampoline and that page, all of them free pages before; or it returns 0 and no page is lost: there is no unused slot,
    or memory ran out and the free list holds the same pages as before. *)
Theorem allocproc_correct fa c s fl : kmem_inv (p_mem s) fl -> alloc_locks c ->
  (forall i, (i < nproc)%nat -> p_state (procs s !!! i) = UNUSED -> p_pagetable (procs s !!! i) = 0 /\ p_sz (procs s !!! i) = 0) ->
  exists r c' s' fl', allocproc fa c s = Ok r c' s' /\
    match r with
    | Some i => (i < nproc)%nat /\ p_state (procs s !!! i) = UNUSED /\ held c' = L_proc i :: held c /\
        p_pid (procs s' !!! i) = nextpid s /\ p_state (procs s' !!! i) = USED /\
        (forall j, j <> i -> procs s' !!! j = procs s !!! j) /\
        exists T, proc_mem (p_mem s') fl' (procs s' !!! i) T (kernel_leaves (p_trapframe (procs s' !!! i))) /\
          forall x, x ∈ fl <-> x ∈ fl' \/ x = p_trapframe (procs s' !!! i) \/ table_page T x
    | None => held c' = held c /\ kmem_inv (p_mem s') fl' /\ (forall x, x ∈ fl' <-> x ∈ fl) /\
        forall j, p_state (procs s !!! j) <> UNUSED -> procs s' !!! j = procs s !!! j
    end.
Proof.
  intros Hk Hl Hz. destruct (allocproc_run fa c s fl Hk Hl Hz) as (r & c' & s' & fl' & Hr & _ & _ & _ & Hcase). exists r, c', s', fl'. split; [done|].
  destruct r as [i|].
  - destruct Hcase as (Hi & Hu & -> & Ho & (tf & pt & E) & HT). split_and!; try done; by rewrite E.
  - destruct Hcase as (-> & Hk' & Hx & Ho). done.
Qed.

(** freeproc() frees everything a process has, each page once: its trapframe, every page of its page table
    and of its memory; the slot becomes unused and no other slot changes. *)
Theorem freeproc_correct i c s fl T L : proc_mem (p_mem s) fl (procs s !!! i) T L -> L_kmem ∉ held c ->
  exists t m fl', freeproc i c s = Ok tt c (PTab t (nextpid s) (initproc s) (c_proc s) m) /\ kmem_inv m fl' /\
    t !!! i = cleared (procs s !!! i) /\ (forall j, j <> i -> t !!! j = procs s !!! j) /\
    (forall x, x ∈ fl' <-> x ∈ fl \/ proc_page (p_trapframe (procs s !!! i)) T L x) /\
    changes_only (proc_page (p_trapframe (procs s !!! i)) T L) (pm_mem (p_mem s)) (pm_mem m).
Proof. apply freeproc_run. Qed.

(** ** Processes beside each other *)

(** The memory of a process depends on three fields of its slot. *)
Lemma proc_mem_same m fl p q T L : proc_mem m fl p T L -> p_pagetable q = p_pagetable p -> p_sz q = p_sz p -> p_trapframe q = p_trapframe p -> proc_mem m fl q T L.
Proof. intros [Hs Hr Hf Ha] E1 E2 E3. split; rewrite ?E1, ?E2, ?E3; done. Qed.

(** A change to pages that are not the tables of the process leaves its memory valid. *)
Lemma proc_mem_frame (P : Z -> Prop) m m' fl fl' p T L : proc_mem m fl p T L -> kmem_inv m' fl' -> (forall x, x ∈ fl' -> x ∈ fl) ->
  changes_only P (pm_mem m) (pm_mem m') -> (forall x, P x -> page_ok x /\ ~ table_page T x) -> proc_mem m' fl' p T L.
Proof.
  intros [[Ha Hsz H1 H2 Hd] Hr Hf (A1 & A2 & A3)] Hk Hfl Hch HP. split; [|done|done|].
  - split; try done. by apply (as_inv_frame m m' fl fl' _ T L P).
  - split; [|done]. intros H. by apply A1, Hfl.
Qed.

(** The page of a process that a table-preserving change does not touch. *)
Lemma kmem_inv_frame (P : Z -> Prop) m m' fl : kmem_inv m fl -> freelist m' = freelist m -> changes_only P (pm_mem m) (pm_mem m') ->
  (forall x, P x -> page_ok x /\ x ∉ fl) -> kmem_inv m' fl.
Proof.
  intros Hk Ef Hch HP. destruct m' as [mm ff]. cbn in *. subst ff. apply (kmem_inv_ext m); [|done]. intros x b Hx Hb. symmetry. apply Hch.
  intros y Hy. destruct (HP y Hy) as [Hy1 Hy2]. destruct Hk as (_ & _ & Hok). rewrite Forall_forall in Hok.
  destruct (page_ok_apart y x Hy1 (Hok x Hx)); [by intros ->|unfold outside; lia..].
Qed.

Lemma fl_page m fl p T L x : proc_mem m fl p T L -> x ∈ fl -> page_ok x /\ ~ proc_page (p_trapframe p) T L x.
Proof.
  intros [[[[Hk _ Hd] Hown _] _ _ _ _] _ _ (A1 & _ & _)] Hx. split.
  - destruct Hk as (_ & _ & Hok). rewrite Forall_forall in Hok. by apply Hok.
  - intros [->|[[q Hq]|(va & v & Hv & Hlt & <-)]]; [done|by apply (Hd q x)|]. by destruct (Hown va v Hv Hlt) as (_ & _ & ?).
Qed.

(** Changes to free pages, some of which are not free any more. *)
Lemma free_frame fl m m' fl' p T L : proc_mem m fl p T L -> kmem_inv m' fl' -> (forall x, x ∈ fl' -> x ∈ fl) ->
  changes_only (fun x => x ∈ fl) (pm_mem m) (pm_mem m') -> proc_mem m' fl' p T L.
Proof.
  intros Hp Hk Hfl Hch. apply (proc_mem_frame (fun x => x ∈ fl) m m' fl fl'); try done. intros x Hx.
  destruct (fl_page _ _ _ _ _ x Hp Hx) as [Hok Hn]. split; [done|]. intros H. apply Hn. by right; left.
Qed.

(** ** wait *)

Definition zombie_child (s : ptab) (i x : nat) : Prop :=
  (x < nproc)%nat /\ p_parent (procs s !!! x) = Some i /\ p_state (procs s !!! x) = ZOMBIE.

(** The caller of wait() and its exited children have their memory, and share no page. *)
Record wait_pre (s : ptab) (i : nat) (fl : list Z) (T : gmap (list Z) Z) (L : gmap Z Z) : Prop := {
  wp_mem : proc_mem (p_mem s) fl (procs s !!! i) T L;
  wp_child : forall x, zombie_child s i x -> exists T' L', proc_mem (p_mem s) fl (procs s !!! x) T' L' /\
    forall y, leaf_page L y -> ~ proc_page (p_trapframe (procs s !!! x)) T' L' y;
}.

(** The exit status of [x] is stored at [addr] of the caller, whose memory [L] maps, as far as it is mapped writable;
    [ok] when all of it is. *)
Definition status_stored (addr : Z) (L : gmap Z Z) (x : nat) (ok : bool) (s s1 : ptab) : Prop :=
  if decide (addr = 0) then ok = true /\ s1 = s
  else exists m, write_user (pm_mem (p_mem s)) (uaddr PTE_WU L) addr (int_bytes (p_xstate (procs s !!! x))) = (ok, m) /\
         s1 = PTab (procs s) (nextpid s) (initproc s) (c_proc s) (PMem m (freelist (p_mem s))).

(** The state after the zombie [x] was reaped. *)
Record reaped (x : nat) (fl : list Z) (s s' : ptab) : Prop := {
  rp_slot : procs s' !!! x = cleared (procs s !!! x);
  rp_others : forall j, j <> x -> procs s' !!! j = procs s !!! j;
  rp_mem : exists fl' T L, proc_mem (p_mem s) fl (procs s !!! x) T L /\ kmem_inv (p_mem s') fl' /\
    (forall y, y ∈ fl' <-> y ∈ fl \/ proc_page (p_trapframe (procs s !!! x)) T L y) /\
    changes_only (proc_page (p_trapframe (procs s !!! x)) T L) (pm_mem (p_mem s)) (pm_mem (p_mem s'));
}.

Lemma leaf_has_U pa perm : has (leaf_pte pa perm) PTE_U = has perm PTE_U.
Proof.
  change PTE_U with (Z.shiftl 1 4). rewrite !has_testbit by lia. unfold leaf_pte. rewrite !Z.lor_spec. unfold PA2PTE, u64. rewrite Z.mod_pow2_bits_low, Z.shiftl_spec_low by lia.
  change (Z.testbit PTE_V 4) with false. by rewrite orb_false_r.
Qed.

(** A process reaches its own pages only. *)
Lemma proc_user_own m fl p T L : proc_mem m fl p T L -> user_own L.
Proof.
  intros [[_ Hsz Ht Hf Hd] _ _ _] va v Hv Hu. destruct (decide (va = TRAMPOLINE)) as [->|N1]; [rewrite Ht in Hv; injection Hv as <-; by rewrite leaf_has_U in Hu|].
  destruct (decide (va = TRAPFRAME)) as [->|N2]; [rewrite Hf in Hv; injection Hv as <-; by rewrite leaf_has_U in Hu|].
  assert (in_range 0 (Z.to_nat (PGROUNDUP (p_sz p) / PGSIZE)) va) as [Hr _] by (apply Hd; [done|done|by eexists]).
  assert (0 <= p_sz p < 2 ^ 64 - PGSIZE) as Hs by (rewrite TRAPFRAME_val in Hsz; unfold PGSIZE in *; lia).
  pose proof (PGROUNDUP_bounds _ Hs) as B. pose proof (PGROUNDUP_aligned _ Hs) as A. rewrite TRAPFRAME_val in *. unfold PGSIZE in *. zlia.
Qed.

(** Storing to user memory changes pages of the process only. *)
Lemma write_user_only s fl p T L va bs : proc_mem s fl p T L -> 0 <= va ->
  changes_only (leaf_page L) (pm_mem s) (snd (write_user (pm_mem s) (uaddr PTE_WU L) va bs)).
Proof.
  intros Hp Hva b Hb. pose proof (proc_user_own _ _ _ _ _ Hp) as Hu. apply write_user_frame. intros j Hj E.
  assert (0 <= va + j) as H0 by lia. destruct (uaddr_own s fl _ T L PTE_WU _ _ (sp_as _ _ _ _ _ _ _ (pm_space _ _ _ _ _ Hp)) Hu eq_refl H0 E) as (v & Ev & -> & _).
  assert (PGROUNDDOWN (va + j) < TRAPFRAME) as Hlt.
  { apply (Hu _ _ Ev). unfold uaddr in E. rewrite Ev in E. destruct (_ <? _); [|done]. destruct (Z.eqb_spec (Z.land v PTE_WU) PTE_WU) as [Ep|]; [|done].
    change PTE_U with (Z.shiftl 1 4). rewrite <- has_all by lia. change (Z.shiftl 1 4) with PTE_U. replace PTE_U with (Z.land PTE_WU PTE_U) at 1 by done.
    rewrite Z.land_assoc, Ep. done. }
  pose proof (Hb (PTE2PA v) (ex_intro _ _ (ex_intro _ v (conj Ev (conj Hlt eq_refl))))) as Ho. unfold outside, PGSIZE in *. zlia.
Qed.

(** The copy of the exit status, and the child after it. *)
Lemma status_step addr s i fl T L x : wait_pre s i fl T L -> zombie_child s i x -> 0 <= addr ->
  exists ok s1, status_stored addr L x ok s s1 /\
    (forall c, (if addr =? 0 then retM 0 else onmem (copyout (p_pagetable (procs s !!! i)) addr (int_bytes (p_xstate (procs s !!! x))))) c s = Ok (if ok then 0 else -1) c s1) /\
    exists T' L', proc_mem (p_mem s1) fl (procs s !!! x) T' L'.
Proof.
  intros [Hp Hc] Hx Ha. destruct (Hc x Hx) as (T' & L' & Hm & Hd). unfold status_stored. destruct (decide (addr = 0)) as [->|Hne].
  { exists true, s. split; [done|]. split; [done|]. by exists T', L'. }
  rewrite (proj2 (Z.eqb_neq _ _) Hne). set (bs := int_bytes _). pose proof (sp_as _ _ _ _ _ _ _ (pm_space _ _ _ _ _ Hp)) as Hi.
  pose proof (fun c => copyout_correct c (p_mem s) fl _ T L addr bs Hi (proc_user_own _ _ _ _ _ Hp) Ha) as Hr.
  pose proof (write_user_only _ _ _ _ _ addr bs Hp Ha) as Hch. destruct (write_user _ _ addr bs) as [ok m] eqn:Ew. cbn [fst snd] in *.
  exists ok. eexists. split; [by exists m|]. split; [intros c; unfold onmem, zoom; cbn [lget pmem_lens]; by rewrite (proj1 (Hr c))|].
  exists T', L'. cbn [p_mem]. apply (proc_mem_frame (leaf_page L) (p_mem s) _ fl fl); [done|apply (proj2 (Hr (Ctx [] [])))|done|done|].
  intros y Hy. pose proof (Hd y Hy) as Hn. destruct Hy as (va & v & Hv & Hlt & <-). split; [apply (ai_own _ _ _ _ _ Hi va v Hv Hlt)|].
  intros Ht. apply Hn. right. by left.
Qed.

Lemma wait_scan_run addr k : forall j i hk c s fl T L, no_plock c -> L_kmem ∉ held c -> (j + k <= nproc)%nat -> wait_pre s i fl T L -> 0 <= addr ->
  (exists x s1 s', (j <= x < j + k)%nat /\ zombie_child s i x /\ status_stored addr L x true s s1 /\ reaped x fl s1 s' /\
     wait_scan k j i addr hk (Ctx (L_wait :: held c) (out c)) s = Ok (inl (p_pid (procs s !!! x))) c s') \/
  (exists x s1, (j <= x < j + k)%nat /\ zombie_child s i x /\ status_stored addr L x false s s1 /\
     wait_scan k j i addr hk (Ctx (L_wait :: held c) (out c)) s = Ok (inl (-1)) c s1) \/
  ((forall x, (j <= x < j + k)%nat -> ~ zombie_child s i x) /\ exists b,
     wait_scan k j i addr hk (Ctx (L_wait :: held c) (out c)) s = Ok (inr b) (Ctx (L_wait :: held c) (out c)) s /\
     (b = true <-> hk = true \/ exists x, (j <= x < j + k)%nat /\ p_parent (procs s !!! x) = Some i)).
Proof.
  induction k as [|k IH]; intros j i hk c s fl T L Hc Hkm Hle Hz Ha; cbn [wait_scan].
  { right. right. split; [lia|]. exists hk. split; [done|]. split; [by left|]. intros [H|(x & Hx & _)]; [done|lia]. }
  rewrite bind_getp. destruct (decide (p_parent (procs s !!! j) = Some i)) as [Ep|Ep].
  2:{ destruct (IH (S j) i hk c s fl T L Hc Hkm ltac:(lia) Hz Ha) as [(x & s1 & s' & Hx & H)|[(x & s1 & Hx & H)|[Hn (b & Hr & Hb)]]].
      - left. exists x, s1, s'. split; [lia|done].
      - right. left. exists x, s1. split; [lia|done].
      - right. right. split; [intros x Hx (_ & ? & ?); apply (Hn x); [|split; [lia|done]]; assert (x <> j) by (intros ->; done); lia|].
        exists b. split; [done|]. rewrite Hb. split; (intros [H|(x & Hx & H)]; [by left|]); right; exists x; (split; [|done]); [lia|].
        assert (x <> j) by (intros ->; done). lia. }
  assert (forall lk, lk ∉ held c -> lk <> L_wait -> lk ∉ L_wait :: held c) as Hw by (intros lk H1 H2; by apply not_elem_of_cons).
  rewrite bind_acquire by (apply Hw; [apply Hc|done]). rewrite bind_getp. cbn [held out].
  destruct (decide (p_state (procs s !!! j) = ZOMBIE)) as [Ez|Ez].
  - assert (zombie_child s i j) as Hzj by (split; [lia|done]). destruct (status_step addr s i fl T L j Hz Hzj Ha) as (ok & s1 & Hst & Hr1 & T' & L' & Hm).
    rewrite bind_getp. rewrite (bind_Ok _ _ _ _ _ _ _ (Hr1 _)). assert (procs s1 = procs s) as E1.
    { unfold status_stored in Hst. destruct (decide (addr = 0)); [by destruct Hst as [_ ->]|by destruct Hst as (m & _ & ->)]. }
    destruct ok; [|right; left; exists j, s1; split; [lia|]; split; [done|]; split; [done|]; change (-1 <? 0) with true; cbv iota; by mrun].
    change (0 <? 0) with false. cbv iota. left. rewrite <- E1 in Hm.
    destruct (freeproc_run j (Ctx (L_proc j :: L_wait :: held c) (out c)) s1 fl T' L' Hm) as (t & m & fl' & Hr & Hk' & Ht & Ho & Hx & Hch).
    { apply (not_held_proc _ j (Ctx (L_wait :: held c) (out c))); [by apply Hw|done]. }
    rewrite (bind_Ok _ _ _ _ _ _ _ Hr). mrun. eexists j, s1, _. split; [lia|]. split; [done|]. split; [done|]. split; [|reflexivity].
    split; [done|done|]. by exists fl', T', L'.
  - mrun. destruct (IH (S j) i true c s fl T L Hc Hkm ltac:(lia) Hz Ha) as [(x & s1 & s' & Hx & H)|[(x & s1 & Hx & H)|[Hn (b & Hr & Hb)]]].
    + left. exists x, s1, s'. split; [lia|done].
    + right. left. exists x, s1. split; [lia|done].
    + right. right. split; [intros x Hx (_ & ? & ?); apply (Hn x); [|split; [lia|done]]; assert (x <> j) by (intros ->; done); lia|].
      exists b. split; [done|]. rewrite Hb. split; intros _; [|by left]. right. exists j. split; [lia|done].
Qed.

Lemma psleep_run ch lk o s i : c_proc s = Some i -> lk <> L_proc i ->
  exists t, psleep ch lk (Ctx [lk] o) s = Ok tt (Ctx [L_proc i] o) (put_procs t s) /\
    t !!! i = set_state SLEEPING (set_chan (Some ch) (procs s !!! i)) /\ forall j, j <> i -> t !!! j = procs s !!! j.
Proof.
  intros Hi Hlk. unfold psleep, myproc. rewrite !bind_assoc, bind_get, Hi, bind_ret.
  rewrite bind_acquire by (apply not_elem_of_cons; split; [done|apply not_elem_of_nil]). cbn [held out].
  assert (release lk (Ctx [L_proc i; lk] o) s = Ok tt (Ctx [L_proc i] o) s) as Hr.
  { unfold release. cbn [held out remove_lock]. rewrite decide_True by (right; left). rewrite decide_False by done. by rewrite decide_True. }
  rewrite (bind_Ok _ _ _ _ _ _ _ Hr), !bind_modp. cbn [put_procs procs]. rewrite lookup_total_insert_eq.
  eexists. unfold sched, myproc. rewrite bind_assoc, bind_get. cbn [c_proc put_procs]. rewrite Hi, bind_ret. cbn [held length Nat.eqb].
  rewrite decide_True by left. cbn [put_procs procs]. rewrite lookup_total_insert_eq. rewrite decide_False by done. split; [reflexivity|].
  split; [apply lookup_total_insert_eq|]. intros j Hj. by rewrite !lookup_total_insert_ne.
Qed.

(** C23: one round of wait(addr), up to its return or its sleep.  With an exited child it stores the exit status of one at [addr], unless
    [addr] is 0, returns its pid, and frees its slot and every page it had, once; when the status cannot be stored it
    returns -1 and the child stays as it is.  With no exited child it returns -1 exactly when there are no children or
    the process was killed, and otherwise it sleeps on itself, holding only its own lock. *)
Theorem wait_correct addr c s i fl T L : c_proc s = Some i -> held c = [] -> wait_pre s i fl T L -> 0 <= addr ->
  (exists x s1 s', zombie_child s i x /\ status_stored addr L x true s s1 /\ reaped x fl s1 s' /\
     wait addr c s = Ok (Some (p_pid (procs s !!! x))) c s') \/
  (exists x s1, zombie_child s i x /\ status_stored addr L x false s s1 /\ wait addr c s = Ok (Some (-1)) c s1) \/
  ((forall x, ~ zombie_child s i x) /\
   ((forall x, (x < nproc)%nat -> p_parent (procs s !!! x) <> Some i) \/ p_killed (procs s !!! i) <> 0) /\ wait addr c s = Ok (Some (-1)) c s) \/
  ((forall x, ~ zombie_child s i x) /\ (exists x, (x < nproc)%nat /\ p_parent (procs s !!! x) = Some i) /\ p_killed (procs s !!! i) = 0 /\
   exists t, wait addr c s = Ok None (Ctx [L_proc i] (out c)) (put_procs t s) /\
     t !!! i = set_state SLEEPING (set_chan (Some (Ch_proc i)) (procs s !!! i)) /\ forall j, j <> i -> t !!! j = procs s !!! j).
Proof.
  intros Hi Hh Hz Ha. assert (no_plock c) as Hc by (intros j; rewrite Hh; apply not_elem_of_nil).
  assert (forall lk, lk ∉ held c) as Hno by (intros lk; rewrite Hh; apply not_elem_of_nil).
  unfold wait, wait_round. rewrite bind_acquire by done. unfold myproc. rewrite !bind_assoc, bind_get, Hi, bind_ret.
  destruct (wait_scan_run addr nproc 0 i false c s fl T L Hc (Hno _) ltac:(lia) Hz Ha) as [(x & s1 & s' & _ & Hx & Hs & Hr & E)|[(x & s1 & _ & Hx & Hs & E)|[Hn (b & E & Hb)]]].
  { left. exists x, s1, s'. by rewrite (bind_Ok _ _ _ _ _ _ _ E). }
  { right. left. exists x, s1. by rewrite (bind_Ok _ _ _ _ _ _ _ E). }
  assert (forall x, ~ zombie_child s i x) as Hnone. { intros x Hx. apply (Hn x); [destruct Hx; lia|done]. }
  right. right. rewrite (bind_Ok _ _ _ _ _ _ _ E). destruct b.
  - destruct (proj1 Hb eq_refl) as [|(x & Hx & Hp)]; [done|]. unfold killed. rewrite !bind_assoc.
    rewrite bind_acquire by (apply not_elem_of_cons; split; [done|apply Hno]). mrun.
    destruct (Z.eqb_spec (p_killed (procs s !!! i)) 0) as [Ek|Ek]; cbn [negb].
    + right. split; [done|]. split; [exists x; split; [lia|done]|]. split; [done|]. rewrite Hh.
      destruct (psleep_run (Ch_proc i) L_wait (out c) s i Hi ltac:(done)) as (t & Hr & Ht & Ho). exists t. by rewrite (bind_Ok _ _ _ _ _ _ _ Hr).
    + left. split; [done|]. split; [by right|]. by mrun.
  - left. split; [done|]. split; [|mrun; cbn [Z.eqb negb]; by mrun]. left. intros x Hx Hp. assert (false = true) as H by (apply Hb; right; exists x; split; [lia|done]). done.
Qed.
End ProcMem.
