(* ===== verification/ProcExamples.v ===== *)
(** A process table after boot, at which the theorems of [ProcInv] and [ProcMem] apply. *)
From S2P Require Import Prelude Machine CString Kalloc Vm PageTable UserMem UserFree UserCopy Concrete Printf Proc ProcInv ProcMem.
Local Open Scope Z_scope.

Definition demo_forkret : Z := 0x80001000.

(** The zeroed table, and eight free pages. *)
Definition demo_zero : ptab := PTab ∅ 1 None None demo_s.
Definition demo_inited : ptab := put_procs (procinit_loop nproc 0 ∅) demo_zero.

(** What the examples need to know of the state after the first allocproc(). *)
Definition demo_facts (s : ptab) : procstate * Z * procstate * Z * Z :=
  (p_state (procs s !!! 0%nat), p_pid (procs s !!! 0%nat), p_state (procs s !!! 1%nat), p_pid (procs s !!! 1%nat), nextpid s).

Lemma demo_first : exists c s, allocproc demo_forkret ctx0 demo_inited = Ok (Some 0%nat) c s /\
  demo_facts s = (USED, 1, UNUSED, 0, 2).
Proof.
  assert (match allocproc demo_forkret ctx0 demo_inited with Ok r _ s => (r, Some (demo_facts s)) | _ => (None, None) end =
    (Some 0%nat, Some (USED, 1, UNUSED, 0, 2))) as H by (vm_compute; reflexivity).
  destruct (allocproc demo_forkret ctx0 demo_inited) as [r c s| | |]; [|discriminate H..].
  exists c, s. injection H as -> H. split; [reflexivity|]. unfold demo_facts. rewrite H. congruence.
Qed.

(** The first process is runnable. *)
Definition booted (s : ptab) : ptab :=
  PTab (<[0%nat := set_state RUNNABLE (procs s !!! 0%nat)]> (procs s)) (nextpid s) (Some 0%nat) (c_proc s) (p_mem s).

Lemma demo_boot_reach : exists s, table_reach demo_forkret (booted s) /\ demo_facts s = (USED, 1, UNUSED, 0, 2).
Proof.
  destruct demo_first as (c & s & Hr & Hf). exists s. split; [|exact Hf].
  exact (tr_boot demo_forkret demo_s ctx0 ctx0 c demo_inited s 0%nat eq_refl Hr).
Qed.

Lemma table_invariant_witness : exists s, table_ok (booted s).
Proof. destruct demo_boot_reach as (s & Hr & _). exists s. apply (table_invariant demo_forkret). exact Hr. Defined.

Lemma demo_no_plock : no_plock ctx0.
Proof. intros i. apply not_elem_of_nil. Qed.

(** Process 0 sleeps on the ticks; the other slots are unused. *)
Definition demo_sleeper : ptab :=
  put_procs {[0%nat := set_pid 1 (set_chan (Some Ch_ticks) (set_state SLEEPING inhabitant))]} demo_zero.

Lemma wakeup_correct_witness : exists t, wakeup Ch_ticks ctx0 demo_sleeper = Ok tt ctx0 (put_procs t demo_sleeper) /\
  p_state (t !!! 0%nat) = RUNNABLE.
Proof.
  destruct (wakeup_correct Ch_ticks ctx0 demo_sleeper demo_no_plock) as (t & Hr & Hw & _). exists t. split; [exact Hr|].
  rewrite (Hw 0%nat); [reflexivity|vm_compute; lia|discriminate|reflexivity|reflexivity].
Defined.

Lemma kill_correct_witness : exists r t, kill 1 ctx0 demo_sleeper = Ok r ctx0 t.
Proof.
  destruct (kill_correct 1 ctx0 demo_sleeper demo_no_plock) as [(x & t & _ & _ & H & _)|[_ H]].
  - exists 0, (put_procs t demo_sleeper). exact H.
  - exists (-1), demo_sleeper. exact H.
Defined.

Lemma kill_zero_marks_unused_witness : exists t, kill 0 ctx0 demo_sleeper = Ok 0 ctx0 (put_procs t demo_sleeper) /\
  forall c1 r c2 s2, allocproc demo_forkret c1 (put_procs t demo_sleeper) = Ok (Some r) c2 s2 -> p_killed (procs s2 !!! r) = 1.
Proof.
  destruct (kill_zero_marks_unused demo_forkret ctx0 demo_sleeper 1 demo_no_plock) as (t & Hr & H);
    [vm_compute; lia|reflexivity|reflexivity| |].
  - intros [|j] Hj; [|lia]. split; discriminate.
  - exists t. split; [exact Hr|]. intros c1 r c2 s2 Ha. apply (H c1 r c2 s2 Ha).
Defined.

Lemma demo_alloc_locks : alloc_locks ctx0.
Proof. split; [apply demo_no_plock|]. split; apply not_elem_of_nil. Qed.

Lemma allocproc_correct_witness : exists r c' s', allocproc demo_forkret ctx0 demo_zero = Ok r c' s'.
Proof.
  destruct (allocproc_correct demo_forkret ctx0 demo_zero demo_fl demo_kmem demo_alloc_locks) as (r & c' & s' & fl' & Hr & _).
  - intros i _ _. cbn [demo_zero procs]. rewrite lookup_total_empty. split; reflexivity.
  - exists r, c', s'. exact Hr.
Defined.

(** The process that allocproc() made, as a zombie child of process 5. *)
Lemma demo_child : exists s i fl T L, proc_mem (p_mem s) fl (procs s !!! i) T L /\ (i < nproc)%nat /\
  c_proc s = Some 5%nat /\ p_parent (procs s !!! i) = Some 5%nat /\ p_state (procs s !!! i) = ZOMBIE /\
  p_state (procs s !!! 5%nat) <> ZOMBIE /\ forall j, j <> i -> p_parent (procs s !!! j) = None.
Proof.
  destruct (alloc_mem_run demo_forkret 0 ctx0 demo_zero demo_fl demo_kmem) as (r & c' & s' & fl' & Hr & (Ho & _) & _ & Hc);
    [apply not_elem_of_nil|done|done|].
  assert (answer (alloc_mem demo_forkret 0 (Ctx (L_proc 0 :: held ctx0) (out ctx0)) demo_zero) = Some (Some 0%nat)) as Ha by (vm_compute; reflexivity).
  rewrite Hr in Ha. injection Ha as ->. destruct Hc as (_ & _ & _ & T & [Hs Hp Ht Hap] & _).
  set (p := set_parent (Some 5%nat) (set_state ZOMBIE (procs s' !!! 0%nat))).
  exists (PTab (<[0%nat := p]> (procs s')) 2 None (Some 5%nat) (p_mem s')), 0%nat, fl', T, (kernel_leaves (p_trapframe (procs s' !!! 0%nat))).
  cbn [procs p_mem c_proc]. rewrite lookup_total_insert_eq. split; [by split|]. split; [vm_compute; lia|]. split; [done|]. split; [done|].
  split; [done|]. rewrite lookup_total_insert_ne, Ho by done. split; [done|]. intros j Hj. by rewrite lookup_total_insert_ne, Ho.
Qed.

Lemma freeproc_correct_witness : exists s i c' s', freeproc i ctx0 s = Ok tt c' s' /\ p_state (procs s' !!! i) = UNUSED.
Proof.
  destruct demo_child as (s & i & fl & T & L & Hm & _).
  destruct (freeproc_correct i ctx0 s fl T L Hm) as (t & m & fl' & Hr & _ & Ht & _); [apply not_elem_of_nil|].
  exists s, i, ctx0, (PTab t (nextpid s) (initproc s) (c_proc s) m). split; [exact Hr|]. cbn [procs]. rewrite Ht. reflexivity.
Defined.

(** Two processes with their memory: process 0 is a zombie child of process 5, which runs. *)
Lemma demo_family : exists s fl T L, wait_pre s 5 fl T L /\ zombie_child s 5 0 /\ c_proc s = Some 5%nat /\
  (forall j, j <> 0%nat -> p_parent (procs s !!! j) = None) /\ forall va, va < TRAPFRAME -> L !! va = None.
Proof.
  assert (match alloc_mem demo_forkret 0 (Ctx [L_proc 0] []) demo_zero with
          | Ok r _ s => (r, answer (alloc_mem demo_forkret 5 (Ctx [L_proc 5] []) s)) | _ => (None, None) end = (Some 0%nat, Some (Some 5%nat))) as Ha by (vm_compute; reflexivity).
  destruct (alloc_mem_run demo_forkret 0 ctx0 demo_zero demo_fl demo_kmem) as (r & c1 & s1 & fl1 & Hr1 & (O1 & _) & _ & Hc1); [apply not_elem_of_nil|done|done|].
  cbn [held out ctx0] in Hr1. rewrite Hr1 in Ha. injection Ha as -> Ha. destruct Hc1 as (_ & _ & (tf1 & pt1 & E1) & T1 & M1 & _).
  assert (procs s1 !!! 5%nat = procs demo_zero !!! 5%nat) as E5 by by apply O1.
  destruct (alloc_mem_run demo_forkret 5 ctx0 s1 fl1) as (r & c2 & s2 & fl2 & Hr2 & (O2 & _) & Hch & Hc2); [apply M1|apply not_elem_of_nil|by rewrite E5..|].
  cbn [held out ctx0] in Hr2. rewrite Hr2 in Ha. injection Ha as ->. destruct Hc2 as (_ & _ & (tf2 & pt2 & E2) & T2 & M2 & Hx2).
  assert (proc_mem (p_mem s2) fl2 (procs s1 !!! 0%nat) T1 (kernel_leaves (p_trapframe (procs s1 !!! 0%nat)))) as M1'.
  { apply (free_frame fl1 (p_mem s1)); [done|apply M2|intros x Hx; apply Hx2; by left|done]. }
  assert (forall tf va, va < TRAPFRAME -> kernel_leaves tf !! va = None) as Hk.
  { intros tf va Hva. assert (TRAPFRAME < TRAMPOLINE) by (vm_compute; reflexivity). unfold kernel_leaves. rewrite lookup_insert_ne, lookup_singleton_ne by lia. done. }
  set (z := set_parent (Some 5%nat) (set_state ZOMBIE (procs s1 !!! 0%nat))).
  exists (PTab (<[0%nat := z]> (procs s2)) 3 None (Some 5%nat) (p_mem s2)), fl2, T2, (kernel_leaves (p_trapframe (procs s2 !!! 5%nat))).
  assert (forall j, j <> 0%nat -> p_parent (procs s2 !!! j) = None) as Hp.
  { intros j Hj. destruct (decide (j = 5%nat)) as [->|]; [by rewrite E2, E5|by rewrite O2, O1]. }
  split; [|split; [|split; [done|split]]].
  - split; cbn [p_mem procs]; [by rewrite lookup_total_insert_ne|]. intros x (_ & Hpx & _). cbn [procs] in Hpx.
    assert (x = 0%nat) as -> by (destruct (decide (x = 0%nat)) as [|Hne]; [done|]; rewrite lookup_total_insert_ne, Hp in Hpx by done; done).
    rewrite lookup_total_insert_eq. eexists T1, _. split; [by apply (proc_mem_same _ _ (procs s1 !!! 0%nat))|]. intros y (va & v & Hv & Hlt & _). by rewrite Hk in Hv.
  - split; [vm_compute; lia|]. cbn [procs]. rewrite lookup_total_insert_eq. split; reflexivity.
  - intros j Hj. cbn [procs]. rewrite lookup_total_insert_ne by done. by apply Hp.
  - apply Hk.
Qed.

(** wait(0) reaps the child; wait() with an address the parent has not mapped leaves it. *)
Lemma wait_correct_witness : exists s s1 s2, wait 0 ctx0 s = Ok (Some (p_pid (procs s !!! 0%nat))) ctx0 s1 /\ p_state (procs s1 !!! 0%nat) = UNUSED /\
  wait PGSIZE ctx0 s = Ok (Some (-1)) ctx0 s2 /\ p_state (procs s2 !!! 0%nat) = ZOMBIE.
Proof.
  destruct demo_family as (s & fl & T & L & Hw & Hz & Hc & Hn & HL). exists s.
  assert (forall x, zombie_child s 5 x -> x = 0%nat) as Hx by (intros x (_ & Hp & _); destruct (decide (x = 0%nat)) as [|Hne]; [done|]; by rewrite Hn in Hp).
  destruct (wait_correct 0 ctx0 s 5 fl T L Hc eq_refl Hw (Z.le_refl 0)) as [(x & s1 & s' & Hx1 & _ & Hr & E)|[(x & s1 & _ & [X _] & _)|[(N & _)|(N & _)]]]; [|discriminate X|by destruct (N 0%nat)..].
  apply Hx in Hx1 as ->. exists s'.
  destruct (wait_correct PGSIZE ctx0 s 5 fl T L Hc eq_refl Hw ltac:(done)) as [(x & s2 & s3 & _ & (m & Hm & _) & _)|[(x & s2 & Hx2 & (m & _ & ->) & E2)|[(N & _)|(N & _)]]]; [| |by destruct (N 0%nat)..].
  - exfalso. cbn [write_user int_bytes] in Hm. assert (uaddr PTE_WU L PGSIZE = None) as Hu by (unfold uaddr; by rewrite HL by (vm_compute; reflexivity)). by rewrite Hu in Hm.
  - eexists. split; [exact E|]. split; [by rewrite (rp_slot _ _ _ _ Hr)|]. split; [exact E2|]. apply Hz.
Defined.
