(* ===== verification/Fs.v ===== *)
(** The file system (kernel/fs.c, with fs.h, file.h and stat.h): the operations.

    The state is the log and the block cache below it, the in-memory superblock,
    the inode table, and what fs.c reads of the running process: its pid, its page
    table with physical memory, and its current directory.  An inode pointer
    is the index of its slot in itable.  Kernel buffers on the stack (a directory
    entry, a path element) are lists of bytes: reading an inode to a kernel
    address returns the bytes, writing from one is given them.

    [FsBlocks], [FsInode], [FsFile] and [FsDir] prove the theorems. *)
From stdpp Require Import functions.
From S2P Require Import Prelude Machine CString Kalloc Vm Sleeplock BlockCache Log Printf.
Local Open Scope Z_scope.

(** ** Disk layout *)

Definition ROOTINO : Z := 1.
Definition FSMAGIC : Z := 0x10203040.
Definition NDIRECT : Z := 12.
Definition NINDIRECT : Z := BSIZE / 4.
Definition MAXFILE : Z := NDIRECT + NINDIRECT.
Definition IPB : Z := BSIZE / 64.
Definition BPB : Z := BSIZE * 8.
Definition DIRSIZ : Z := 14.
Definition T_DIR : Z := 1.
Definition T_FILE : Z := 2.
Definition T_DEVICE : Z := 3.

Record superblock : Type := Superblock {
  sb_magic : Z;
  sb_size : Z;
  sb_nblocks : Z;
  sb_ninodes : Z;
  sb_nlog : Z;
  sb_logstart : Z;
  sb_inodestart : Z;
  sb_bmapstart : Z;
}.

Definition IBLOCK (i : Z) (sb : superblock) : Z := u32 (i / IPB + sb_inodestart sb).
Definition BBLOCK (b : Z) (sb : superblock) : Z := u32 (b / BPB + sb_bmapstart sb).

(** The superblock as it lies in block 1. *)
Definition sb_of (d : block) : superblock :=
  Superblock (loadn 4 d 0) (loadn 4 d 4) (loadn 4 d 8) (loadn 4 d 12)
             (loadn 4 d 16) (loadn 4 d 20) (loadn 4 d 24) (loadn 4 d 28).

Record inode : Type := Inode {
  i_dev : Z;
  i_inum : Z;
  i_ref : Z;
  i_lock : sleeplock;
  i_valid : Z;
  i_type : Z;
  i_major : Z;
  i_minor : Z;
  i_nlink : Z;
  i_size : Z;
  i_addrs : gmap Z Z;
}.

#[global] Instance inode_inhabited : Inhabited inode :=
  populate (Inode 0 0 0 initsleeplock 0 0 0 0 0 0 ∅).

(** Where the fields of a dinode lie in its block. *)
Definition dip (inum : Z) : Z := 64 * (inum mod IPB).
Definition di_type (d : block) (o : Z) : Z := s16 (loadn 2 d o).
Definition di_major (d : block) (o : Z) : Z := s16 (loadn 2 d (o + 2)).
Definition di_minor (d : block) (o : Z) : Z := s16 (loadn 2 d (o + 4)).
Definition di_nlink (d : block) (o : Z) : Z := s16 (loadn 2 d (o + 6)).
Definition di_size (d : block) (o : Z) : Z := loadn 4 d (o + 8).
Definition di_addr (d : block) (o : Z) (k : Z) : Z := loadn 4 d (o + 12 + 4 * k).

(** memmove(ip->addrs, dip->addrs, sizeof(ip->addrs)) and back. *)
Fixpoint addrs_from (k : nat) (i : Z) (d : block) (o : Z) (a : gmap Z Z) : gmap Z Z :=
  match k with
  | O => a
  | S k' => addrs_from k' (i + 1) d o (<[i := di_addr d o i]> a)
  end.
Fixpoint addrs_to (k : nat) (i : Z) (a : gmap Z Z) (o : Z) (d : block) : block :=
  match k with
  | O => d
  | S k' => addrs_to k' (i + 1) a o (storen 4 d (o + 12 + 4 * i) (arr a i))
  end.
Definition NADDRS : nat := Z.to_nat (NDIRECT + 1).

(** The words of an indirect block. *)
Definition word (d : block) (j : Z) : Z := loadn 4 d (4 * j).

Record stat : Type := Stat { st_dev : Z; st_ino : Z; st_type : Z; st_nlink : Z; st_size : Z }.

(** *** File system state *)

Record fs (K : Type) : Type := Fs {
  fy : fsys K;
  sb : superblock;
  itab : gmap nat inode;
  mm : pmem;
  cur_pid : Z;
  cur_root : Z;
  cur_cwd : nat;
}.
Arguments Fs {K} fy sb itab mm cur_pid cur_root cur_cwd.
Arguments fy {K} f.
Arguments sb {K} f.
Arguments itab {K} f.
Arguments mm {K} f.
Arguments cur_pid {K} f.
Arguments cur_root {K} f.
Arguments cur_cwd {K} f.

Definition ninode : nat := Z.to_nat NINODE.

Section Fs.
Context {K : Type} `{BC : BlockCache K}.

Definition fy_lens : lens (fs K) (fsys K) :=
  Lens fy (fun f s => Fs f (sb s) (itab s) (mm s) (cur_pid s) (cur_root s) (cur_cwd s)).
Definition mm_lens : lens (fs K) pmem :=
  Lens mm (fun m s => Fs (fy s) (sb s) (itab s) m (cur_pid s) (cur_root s) (cur_cwd s)).
Definition set_sb (b : superblock) : M (fs K) unit :=
  modifyM (fun s => Fs (fy s) b (itab s) (mm s) (cur_pid s) (cur_root s) (cur_cwd s)).
Definition put_itab (t : gmap nat inode) (s : fs K) : fs K :=
  Fs (fy s) (sb s) t (mm s) (cur_pid s) (cur_root s) (cur_cwd s).

(** The block layer, called from fs.c. *)
Definition onlog {A} (m : M (fsys K) A) : M (fs K) A := zoom fy_lens m.
Definition bread (dev bn : Z) : M (fs K) nat := onlog (onc (bc_bread dev bn)).
Definition brelse (b : nat) : M (fs K) unit := onlog (onc (bc_brelse b)).
Definition bdata (b : nat) : M (fs K) block := onlog (dataM b).
Definition set_bdata (b : nat) (d : block) : M (fs K) unit := onlog (onc (bc_set_data b d)).
Definition logw (b : nat) : M (fs K) unit := onlog (log_write b).

Definition readsb (dev : Z) : M (fs K) superblock :=
  bp <-! bread dev 1 ;;
  d <-! bdata bp ;;
  brelse bp ;;!
  retM (sb_of d).

Definition fsinit (dev : Z) : M (fs K) unit :=
  b <-! readsb dev ;;
  set_sb b ;;!
  if negb (sb_magic b =? FSMAGIC) then panic "invalid file system"
  else onlog (initlog dev (sb_logstart b) (sb_nlog b)).

(** ** Blocks *)

Definition bzero (dev bno : Z) : M (fs K) unit :=
  bp <-! bread dev (u32 bno) ;;
  d <-! bdata bp ;;
  set_bdata bp (memset d 0 0 BSIZE) ;;!
  logw bp ;;!
  brelse bp.

(** The inner loop of balloc: the first clear bit among the [k] bits from [bi]. *)
Fixpoint free_bit (k : nat) (bi : Z) (d : block) (b size : Z) : option Z :=
  match k with
  | O => None
  | S k' =>
      if b + bi <? size then
        if Z.land (mget d (bi / 8)) (Z.shiftl 1 (bi mod 8)) =? 0 then Some bi
        else free_bit k' (bi + 1) d b size
      else None
  end.

Fixpoint balloc_loop (fuel : nat) (dev b : Z) : M (fs K) Z :=
  s <-! getsM sb ;;
  if b <? sb_size s then
    match fuel with
    | O => diverge
    | S f =>
        bp <-! bread dev (BBLOCK b s) ;;
        d <-! bdata bp ;;
        match free_bit (Z.to_nat BPB) 0 d b (sb_size s) with
        | Some bi =>
            set_bdata bp (mset d (bi / 8) (Z.lor (mget d (bi / 8)) (Z.shiftl 1 (bi mod 8)))) ;;!
            logw bp ;;!
            brelse bp ;;!
            bzero dev (b + bi) ;;!
            retM (b + bi)
        | None => brelse bp ;;! balloc_loop f dev (b + BPB)
        end
    end
  else printf (str ("balloc: out of blocks" ++ newline)) [] ;;! retM 0.

Definition balloc (dev : Z) : M (fs K) Z :=
  s <-! getsM sb ;; balloc_loop (Z.to_nat (sb_size s)) dev 0.

Definition bfree (dev b : Z) : M (fs K) unit :=
  s <-! getsM sb ;;
  bp <-! bread dev (BBLOCK b s) ;;
  d <-! bdata bp ;;
  let bi := b mod BPB in
  let m := Z.shiftl 1 (bi mod 8) in
  if Z.land (mget d (bi / 8)) m =? 0 then panic "freeing free block"
  else
    set_bdata bp (mset d (bi / 8) (Z.land (mget d (bi / 8)) (Z.lnot m))) ;;!
    logw bp ;;!
    brelse bp.

(** ** Inodes *)

Definition getip (i : nat) : M (fs K) inode := getsM (fun s => itab s !!! i).
Definition modip (i : nat) (f : inode -> inode) : M (fs K) unit :=
  modifyM (fun s => put_itab (<[i := f (itab s !!! i)]> (itab s)) s).

Definition set_ref r ip := Inode (i_dev ip) (i_inum ip) r (i_lock ip) (i_valid ip) (i_type ip) (i_major ip) (i_minor ip) (i_nlink ip) (i_size ip) (i_addrs ip).
Definition set_ilock k ip := Inode (i_dev ip) (i_inum ip) (i_ref ip) k (i_valid ip) (i_type ip) (i_major ip) (i_minor ip) (i_nlink ip) (i_size ip) (i_addrs ip).
Definition set_ivalid v ip := Inode (i_dev ip) (i_inum ip) (i_ref ip) (i_lock ip) v (i_type ip) (i_major ip) (i_minor ip) (i_nlink ip) (i_size ip) (i_addrs ip).
Definition set_type t ip := Inode (i_dev ip) (i_inum ip) (i_ref ip) (i_lock ip) (i_valid ip) t (i_major ip) (i_minor ip) (i_nlink ip) (i_size ip) (i_addrs ip).
Definition set_major v ip := Inode (i_dev ip) (i_inum ip) (i_ref ip) (i_lock ip) (i_valid ip) (i_type ip) v (i_minor ip) (i_nlink ip) (i_size ip) (i_addrs ip).
Definition set_minor v ip := Inode (i_dev ip) (i_inum ip) (i_ref ip) (i_lock ip) (i_valid ip) (i_type ip) (i_major ip) v (i_nlink ip) (i_size ip) (i_addrs ip).
Definition set_nlink v ip := Inode (i_dev ip) (i_inum ip) (i_ref ip) (i_lock ip) (i_valid ip) (i_type ip) (i_major ip) (i_minor ip) v (i_size ip) (i_addrs ip).
Definition set_size v ip := Inode (i_dev ip) (i_inum ip) (i_ref ip) (i_lock ip) (i_valid ip) (i_type ip) (i_major ip) (i_minor ip) (i_nlink ip) v (i_addrs ip).
Definition set_addr k v ip := Inode (i_dev ip) (i_inum ip) (i_ref ip) (i_lock ip) (i_valid ip) (i_type ip) (i_major ip) (i_minor ip) (i_nlink ip) (i_size ip) (<[k := v]> (i_addrs ip)).

Definition ilock_lens (i : nat) : lens (fs K) sleeplock :=
  Lens (fun s => i_lock (itab s !!! i))
       (fun k s => put_itab (<[i := set_ilock k (itab s !!! i)]> (itab s)) s).
Definition i_acquiresleep (i : nat) : M (fs K) unit :=
  s <-! getM ;; zoom (ilock_lens i) (acquiresleep (L_inodesleep i) (Ch_inodesleep i) (cur_pid s)).
Definition i_releasesleep (i : nat) : M (fs K) unit :=
  zoom (ilock_lens i) (releasesleep (L_inodesleep i) (Ch_inodesleep i)).
Definition i_holdingsleep (i : nat) : M (fs K) bool :=
  s <-! getM ;; zoom (ilock_lens i) (holdingsleep (L_inodesleep i) (cur_pid s)).

Fixpoint iinit_loop (k i : nat) (t : gmap nat inode) : gmap nat inode :=
  match k with
  | O => t
  | S k' => iinit_loop k' (S i) (<[i := set_ilock initsleeplock (t !!! i)]> t)
  end.
Definition iinit : M (fs K) unit :=
  modifyM (fun s => put_itab (iinit_loop ninode 0 (itab s)) s).

(** The search of iget: a slot that holds the inode, and the first free slot seen. *)
Fixpoint iget_scan (k i : nat) (dev inum : Z) (t : gmap nat inode) (empty : option nat) :
    option nat * option nat :=
  match k with
  | O => (None, empty)
  | S k' =>
      let ip := t !!! i in
      if (0 <? i_ref ip) && (i_dev ip =? dev) && (i_inum ip =? inum) then (Some i, empty)
      else iget_scan k' (S i) dev inum t
             (match empty with
              | None => if i_ref ip =? 0 then Some i else None
              | Some e => Some e
              end)
  end.

Definition iget (dev inum : Z) : M (fs K) nat :=
  acquire L_itable ;;!
  t <-! getsM itab ;;
  match iget_scan ninode 0 dev inum t None with
  | (Some i, _) =>
      modip i (fun ip => set_ref (i_ref ip + 1) ip) ;;!
      release L_itable ;;!
      retM i
  | (None, None) => panic "iget: no inodes"
  | (None, Some i) =>
      modip i (fun ip => Inode dev inum 1 (i_lock ip) 0 (i_type ip) (i_major ip) (i_minor ip)
                               (i_nlink ip) (i_size ip) (i_addrs ip)) ;;!
      release L_itable ;;!
      retM i
  end.

Fixpoint ialloc_loop (fuel : nat) (dev type inum : Z) : M (fs K) (option nat) :=
  s <-! getsM sb ;;
  if inum <? sb_ninodes s then
    match fuel with
    | O => diverge
    | S f =>
        bp <-! bread dev (IBLOCK inum s) ;;
        d <-! bdata bp ;;
        if di_type d (dip inum) =? 0 then
          set_bdata bp (storen 2 (memset d (dip inum) 0 64) (dip inum) type) ;;!
          logw bp ;;!
          brelse bp ;;!
          i <-! iget dev inum ;;
          retM (Some i)
        else
          brelse bp ;;!
          ialloc_loop f dev type (inum + 1)
    end
  else printf (str ("ialloc: no inodes" ++ newline)) [] ;;! retM None.

Definition ialloc (dev type : Z) : M (fs K) (option nat) :=
  s <-! getsM sb ;; ialloc_loop (Z.to_nat (sb_ninodes s)) dev type 1.

(** What iupdate stores in the block of the inode. *)
Definition dinode_store (ip : inode) (d : block) : block :=
  let o := dip (i_inum ip) in
  let d := storen 2 d o (i_type ip) in
  let d := storen 2 d (o + 2) (i_major ip) in
  let d := storen 2 d (o + 4) (i_minor ip) in
  let d := storen 2 d (o + 6) (i_nlink ip) in
  let d := storen 4 d (o + 8) (i_size ip) in
  addrs_to NADDRS 0 (i_addrs ip) o d.

Definition iupdate (i : nat) : M (fs K) unit :=
  ip <-! getip i ;;
  s <-! getsM sb ;;
  bp <-! bread (i_dev ip) (IBLOCK (i_inum ip) s) ;;
  d <-! bdata bp ;;
  set_bdata bp (dinode_store ip d) ;;!
  logw bp ;;!
  brelse bp.

Definition idup (i : nat) : M (fs K) nat :=
  acquire L_itable ;;!
  modip i (fun ip => set_ref (i_ref ip + 1) ip) ;;!
  release L_itable ;;!
  retM i.

(** What ilock loads from the block of the inode. *)
Definition dinode_load (d : block) (ip : inode) : inode :=
  let o := dip (i_inum ip) in
  Inode (i_dev ip) (i_inum ip) (i_ref ip) (i_lock ip) (i_valid ip)
        (di_type d o) (di_major d o) (di_minor d o) (di_nlink d o) (di_size d o)
        (addrs_from NADDRS 0 d o (i_addrs ip)).

Definition ilock (p : option nat) : M (fs K) unit :=
  match p with
  | None => panic "ilock"
  | Some i =>
      ip <-! getip i ;;
      if i_ref ip <? 1 then panic "ilock"
      else
        i_acquiresleep i ;;!
        ip <-! getip i ;;
        if i_valid ip =? 0 then
          s <-! getsM sb ;;
          bp <-! bread (i_dev ip) (IBLOCK (i_inum ip) s) ;;
          d <-! bdata bp ;;
          modip i (dinode_load d) ;;!
          brelse bp ;;!
          modip i (set_ivalid 1) ;;!
          ip <-! getip i ;;
          if i_type ip =? 0 then panic "ilock: no type" else retM tt
        else retM tt
  end.

Definition iunlock (p : option nat) : M (fs K) unit :=
  match p with
  | None => panic "iunlock"
  | Some i =>
      h <-! i_holdingsleep i ;;
      ip <-! getip i ;;
      if negb h || (i_ref ip <? 1) then panic "iunlock"
      else i_releasesleep i
  end.

(** ** Inode content *)

(** The entry [bn] of the indirect block [addr], allocated if it is missing. *)
Definition bmap_ind (dev addr bn : Z) : M (fs K) Z :=
  bp <-! bread dev addr ;;
  a <-! bdata bp ;;
  r <-! (if word a bn =? 0 then
           addr <-! balloc dev ;;
           (if negb (addr =? 0) then
              set_bdata bp (storen 4 a (4 * bn) addr) ;;! logw bp
            else retM tt) ;;!
           retM addr
         else retM (word a bn)) ;;
  brelse bp ;;!
  retM r.

Definition bmap (i : nat) (bn : Z) : M (fs K) Z :=
  ip <-! getip i ;;
  if bn <? NDIRECT then
    let addr := arr (i_addrs ip) bn in
    if addr =? 0 then
      addr <-! balloc (i_dev ip) ;;
      if addr =? 0 then retM 0
      else modip i (set_addr bn addr) ;;! retM addr
    else retM addr
  else
    let bn := bn - NDIRECT in
    if bn <? NINDIRECT then
      let addr := arr (i_addrs ip) NDIRECT in
      if addr =? 0 then
        addr <-! balloc (i_dev ip) ;;
        if addr =? 0 then retM 0
        else modip i (set_addr NDIRECT addr) ;;! bmap_ind (i_dev ip) addr bn
      else bmap_ind (i_dev ip) addr bn
    else panic "bmap: out of range".

Fixpoint itrunc_direct (k : nat) (j : Z) (i : nat) : M (fs K) unit :=
  match k with
  | O => retM tt
  | S k' =>
      ip <-! getip i ;;
      (if negb (arr (i_addrs ip) j =? 0) then
         bfree (i_dev ip) (arr (i_addrs ip) j) ;;!
         modip i (set_addr j 0)
       else retM tt) ;;!
      itrunc_direct k' (j + 1) i
  end.

Fixpoint itrunc_indirect (k : nat) (j dev : Z) (a : block) : M (fs K) unit :=
  match k with
  | O => retM tt
  | S k' =>
      (if negb (word a j =? 0) then bfree dev (word a j) else retM tt) ;;!
      itrunc_indirect k' (j + 1) dev a
  end.

Definition itrunc (i : nat) : M (fs K) unit :=
  itrunc_direct (Z.to_nat NDIRECT) 0 i ;;!
  ip <-! getip i ;;
  (if negb (arr (i_addrs ip) NDIRECT =? 0) then
     bp <-! bread (i_dev ip) (arr (i_addrs ip) NDIRECT) ;;
     a <-! bdata bp ;;
     itrunc_indirect (Z.to_nat NINDIRECT) 0 (i_dev ip) a ;;!
     brelse bp ;;!
     bfree (i_dev ip) (arr (i_addrs ip) NDIRECT) ;;!
     modip i (set_addr NDIRECT 0)
   else retM tt) ;;!
  modip i (set_size 0) ;;!
  iupdate i.

Definition iput (i : nat) : M (fs K) unit :=
  acquire L_itable ;;!
  ip <-! getip i ;;
  (if (i_ref ip =? 1) && negb (i_valid ip =? 0) && (i_nlink ip =? 0) then
     i_acquiresleep i ;;!
     release L_itable ;;!
     itrunc i ;;!
     modip i (set_type 0) ;;!
     iupdate i ;;!
     modip i (set_ivalid 0) ;;!
     i_releasesleep i ;;!
     acquire L_itable
   else retM tt) ;;!
  modip i (fun ip => set_ref (i_ref ip - 1) ip) ;;!
  release L_itable.

Definition iunlockput (i : nat) : M (fs K) unit := iunlock (Some i) ;;! iput i.

Definition stati (i : nat) : M (fs K) stat :=
  ip <-! getip i ;;
  retM (Stat (s32 (i_dev ip)) (i_inum ip) (i_type ip) (i_nlink ip) (i_size ip)).

(** either_copyout and either_copyin of proc.c for a user address; [None] is a
    kernel buffer, which takes or gives the bytes. *)
Context `{KI : KernelImage}.

Definition either_copyout (dst : option Z) (src : list Z) : M (fs K) Z :=
  match dst with
  | Some va => s <-! getM ;; zoom mm_lens (copyout (cur_root s) va src)
  | None => retM 0
  end.

(** The result is the code and the bytes that were stored in the destination. *)
Definition either_copyin (src : Z + list Z) (len : Z) : M (fs K) (Z * list Z) :=
  match src with
  | inl va => s <-! getM ;; zoom mm_lens (copyin (cur_root s) va len)
  | inr bs => retM (0, take (Z.to_nat len) bs)
  end.

(** The loop of readi; the bytes read so far are [acc]. *)
Fixpoint readi_loop (fuel : nat) (i : nat) (dst : option Z) (off n tot : Z) (acc : list Z) :
    M (fs K) (Z * list Z) :=
  if tot <? n then
    match fuel with
    | O => diverge
    | S f =>
        addr <-! bmap i (off / BSIZE) ;;
        if addr =? 0 then retM (tot, acc)
        else
          ip <-! getip i ;;
          bp <-! bread (i_dev ip) addr ;;
          d <-! bdata bp ;;
          let m := Z.min (n - tot) (BSIZE - off mod BSIZE) in
          let bs := bytes_of d (off mod BSIZE) (Z.to_nat m) in
          r <-! either_copyout dst bs ;;
          if r =? -1 then
            brelse bp ;;! retM (-1, acc)
          else
            brelse bp ;;!
            readi_loop f i (match dst with Some va => Some (u64 (va + m)) | None => None end)
              (u32 (off + m)) n (u32 (tot + m)) (acc ++ bs)
    end
  else retM (tot, acc).

Definition readi (i : nat) (dst : option Z) (off n : Z) : M (fs K) (Z * list Z) :=
  ip <-! getip i ;;
  if (i_size ip <? off) || (u32 (off + n) <? off) then retM (0, [])
  else
    let n := if i_size ip <? u32 (off + n) then i_size ip - off else n in
    r <-! readi_loop (Z.to_nat n) i dst off n 0 [] ;;
    retM (s32 (fst r), snd r).

(** The part of the source that is still to be written. *)
Definition advance (src : Z + list Z) (m : Z) : Z + list Z :=
  match src with
  | inl va => inl (u64 (va + m))
  | inr bs => inr (drop (Z.to_nat m) bs)
  end.

(** The loop of writei: the result is tot and off where it stopped. *)
Fixpoint writei_loop (fuel : nat) (i : nat) (src : Z + list Z) (off n tot : Z) : M (fs K) (Z * Z) :=
  if tot <? n then
    match fuel with
    | O => diverge
    | S f =>
        addr <-! bmap i (off / BSIZE) ;;
        if addr =? 0 then retM (tot, off)
        else
          ip <-! getip i ;;
          bp <-! bread (i_dev ip) addr ;;
          let m := Z.min (n - tot) (BSIZE - off mod BSIZE) in
          r <-! either_copyin src m ;;
          d <-! bdata bp ;;
          set_bdata bp (put_bytes d (off mod BSIZE) (snd r)) ;;!
          if fst r =? -1 then
            brelse bp ;;! retM (tot, off)
          else
            logw bp ;;!
            brelse bp ;;!
            writei_loop f i (advance src m) (u32 (off + m)) n (u32 (tot + m))
    end
  else retM (tot, off).

Definition writei (i : nat) (src : Z + list Z) (off n : Z) : M (fs K) Z :=
  ip <-! getip i ;;
  if (i_size ip <? off) || (u32 (off + n) <? off) then retM (-1)
  else if MAXFILE * BSIZE <? u32 (off + n) then retM (-1)
  else
    r <-! writei_loop (Z.to_nat n) i src off n 0 ;;
    (ip <-! getip i ;;
     if i_size ip <? snd r then modip i (set_size (snd r)) else retM tt) ;;!
    iupdate i ;;!
    retM (s32 (fst r)).

(** ** Directories *)

(** strncmp on byte strings that end at their first NUL or at their end. *)
Fixpoint strncmp_list (n : nat) (p q : list Z) : Z :=
  match n with
  | O => 0
  | S k =>
      let a := hd 0 p in
      let b := hd 0 q in
      if negb (a =? 0) && (a =? b) then strncmp_list k (tl p) (tl q) else a - b
  end.

Definition namecmp (s t : list Z) : Z := strncmp_list (Z.to_nat DIRSIZ) s t.

(** A directory entry: a 16-bit inode number and DIRSIZ bytes of name. *)
Definition DIRENT : Z := 2 + DIRSIZ.
Definition de_inum (de : list Z) : Z := nth 0 de 0 + 256 * nth 1 de 0.
Definition de_name (de : list Z) : list Z := drop 2 de.

Fixpoint dirlookup_loop (fuel : nat) (dp : nat) (name : list Z) (off : Z) : M (fs K) (option (nat * Z)) :=
  ip <-! getip dp ;;
  if off <? i_size ip then
    match fuel with
    | O => diverge
    | S f =>
        r <-! readi dp None off DIRENT ;;
        if negb (fst r =? DIRENT) then panic "dirlookup read"
        else if de_inum (snd r) =? 0 then dirlookup_loop f dp name (u32 (off + DIRENT))
        else if namecmp name (de_name (snd r)) =? 0 then
          i <-! iget (i_dev ip) (de_inum (snd r)) ;;
          retM (Some (i, off))
        else dirlookup_loop f dp name (u32 (off + DIRENT))
    end
  else retM None.

(** The slot of the inode with the offset of its entry. *)
Definition dirlookup (dp : nat) (name : list Z) : M (fs K) (option (nat * Z)) :=
  ip <-! getip dp ;;
  if negb (i_type ip =? T_DIR) then panic "dirlookup not DIR"
  else dirlookup_loop (Z.to_nat (i_size ip)) dp name 0.

(** The offset of the first free entry, or the end of the directory. *)
Fixpoint dirlink_loop (fuel : nat) (dp : nat) (off : Z) : M (fs K) Z :=
  ip <-! getip dp ;;
  if off <? i_size ip then
    match fuel with
    | O => diverge
    | S f =>
        r <-! readi dp None off DIRENT ;;
        if negb (fst r =? DIRENT) then panic "dirlink read"
        else if de_inum (snd r) =? 0 then retM off
        else dirlink_loop f dp (off + DIRENT)
    end
  else retM off.

(** strncpy(de.name, name, DIRSIZ): [n] bytes, padded with NULs. *)
Fixpoint strncpy_list (n : nat) (t : list Z) : list Z :=
  match n with
  | O => []
  | S k => if hd 0 t =? 0 then replicate (S k) 0 else hd 0 t :: strncpy_list k (tl t)
  end.

Definition dirent (name : list Z) (inum : Z) : list Z :=
  [u8 inum; u8 (inum / 256)] ++ strncpy_list (Z.to_nat DIRSIZ) name.

Definition dirlink (dp : nat) (name : list Z) (inum : Z) : M (fs K) Z :=
  l <-! dirlookup dp name ;;
  match l with
  | Some (i, _) => iput i ;;! retM (-1)
  | None =>
      ip <-! getip dp ;;
      off <-! dirlink_loop (Z.to_nat (i_size ip)) dp 0 ;;
      r <-! writei dp (inr (dirent name inum)) off DIRENT ;;
      if negb (r =? DIRENT) then retM (-1) else retM 0
  end.

(** ** Paths

    A path is the list of its bytes without the NUL that ends it; a path
    element is the string that skipelem leaves in name, at most DIRSIZ bytes. *)

Definition slash : Z := 47.

Fixpoint skip_slashes (p : list Z) : list Z :=
  match p with
  | c :: p' => if c =? slash then skip_slashes p' else p
  | [] => []
  end.

(** The second loop of skipelem: the bytes before the next slash, and the rest. *)
Fixpoint elem (p : list Z) : list Z * list Z :=
  match p with
  | c :: p' => if c =? slash then ([], p) else let '(e, r) := elem p' in (c :: e, r)
  | [] => ([], [])
  end.

Definition skipelem (path : list Z) : option (list Z * list Z) :=
  let path := skip_slashes path in
  match path with
  | [] => None
  | _ =>
      let '(s, rest) := elem path in
      let name := if DIRSIZ <=? Z.of_nat (length s) then take (Z.to_nat DIRSIZ) s else s in
      Some (name, skip_slashes rest)
  end.

(** The loop of namex; [name] is what the last skipelem left. *)
Fixpoint namex_loop (fuel : nat) (ip : nat) (path : list Z) (nameiparent : bool) (name : list Z) :
    M (fs K) (option nat * list Z) :=
  match skipelem path with
  | None => if nameiparent then iput ip ;;! retM (None, name) else retM (Some ip, name)
  | Some (name, path) =>
      match fuel with
      | O => diverge
      | S f =>
          ilock (Some ip) ;;!
          p <-! getip ip ;;
          if negb (i_type p =? T_DIR) then iunlockput ip ;;! retM (None, name)
          else if nameiparent && (length path =? 0)%nat then iunlock (Some ip) ;;! retM (Some ip, name)
          else
            next <-! dirlookup ip name ;;
            match next with
            | None => iunlockput ip ;;! retM (None, name)
            | Some (next, _) => iunlockput ip ;;! namex_loop f next path nameiparent name
            end
      end
  end.

Definition namex (path : list Z) (nameiparent : bool) : M (fs K) (option nat * list Z) :=
  ip <-! (if hd 0 path =? slash then iget ROOTDEV ROOTINO
          else s <-! getM ;; idup (cur_cwd s)) ;;
  namex_loop (length path) ip path nameiparent [].

Definition namei (path : list Z) : M (fs K) (option nat) :=
  r <-! namex path false ;; retM (fst r).

Definition nameiparent (path : list Z) : M (fs K) (option nat * list Z) := namex path true.
End Fs.
