(* ===== verification/FsBlocks.v ===== *)
(** The block layer of the file system (kernel/fs.c: readsb, bzero, balloc,
    bfree).

    [txn] describes the blocks as a system call inside begin_op()/end_op() sees
    them: their current contents, the blocks logged so far, the buffers it holds, and
    which of those it has changed without logging them yet.  The disk is a
    parameter that no operation changes: what the file system writes stays in the
    cache until the log commits.  Each primitive of the block layer has one lemma;
    every routine above is proved with these. *)
From stdpp Require Import functions.
From S2P Require Import Prelude Machine CString Kalloc Vm Sleeplock BlockCache Log Printf Fs.
Local Open Scope Z_scope.

(** What a transaction does not change. *)
Record tenv : Type := Tenv { e_disk : gmap Z block; e_start : Z; e_size : Z; e_out : Z }.

(** The reference count of a block: one for the log, one for the holder. *)
Definition refs_are (R : gmap Z bref) (bl : list Z) (H : gmap Z nat) : Prop :=
  forall bn,
    match H !! bn with
    | Some i => R !! bn = Some (Ref i (if decide (bn ∈ bl) then 2 else 1) true)
    | None => if decide (bn ∈ bl) then exists i, R !! bn = Some (Ref i 1 false) else R !! bn = None
    end.

Definition logged (bn : Z) (bl : list Z) : list Z := if decide (bn ∈ bl) then bl else bl ++ [bn].

(** How many more blocks the log takes. *)
Definition log_cap (E : tenv) : Z := Z.min LOGSIZE (e_size E - 1).

Definition loggable (E : tenv) (bn : Z) : Prop :=
  0 <= bn < 2 ^ 31 /\ ~ (e_start E <= bn < e_start E + e_size E).

(** No lock is held that the block layer takes. *)
Definition quiet (c : ctx) : Prop := cache_free c /\ (L_log ∉ held c) /\ L_pr ∉ held c.

(** ** The free bitmap *)

Definition bit (d : block) (bi : Z) : bool := Z.testbit (mget d (bi / 8)) (bi mod 8).
Definition set_bit (d : block) (bi : Z) : block :=
  mset d (bi / 8) (Z.lor (mget d (bi / 8)) (Z.shiftl 1 (bi mod 8))).
Definition clear_bit (d : block) (bi : Z) : block :=
  mset d (bi / 8) (Z.land (mget d (bi / 8)) (Z.lnot (Z.shiftl 1 (bi mod 8)))).

Lemma bit_test d bi : (Z.land (mget d (bi / 8)) (Z.shiftl 1 (bi mod 8)) =? 0) = negb (bit d bi).
Proof.
  unfold bit. assert (0 <= bi mod 8) as Hk by zlia. rewrite Z.shiftl_1_l.
  destruct (Z.testbit (mget d (bi / 8)) (bi mod 8)) eqn:Et; cbn.
  - apply Z.eqb_neq. intros E. apply (f_equal (fun x => Z.testbit x (bi mod 8))) in E.
    rewrite Z.land_spec, Et, Z.pow2_bits_true, Z.bits_0 in E by lia. done.
  - apply Z.eqb_eq, Z.bits_inj'. intros n Hn. rewrite Z.land_spec, Z.bits_0.
    destruct (decide (n = bi mod 8)) as [->|Hne]; [by rewrite Et|].
    rewrite Z.pow2_bits_false by lia. apply andb_false_r.
Qed.

(** Bits at or above 8 of a byte are clear, so storing it as a byte loses nothing. *)
Lemma testbit_u8 x n : 0 <= n < 8 -> Z.testbit (u8 x) n = Z.testbit x n.
Proof. intros Hn. unfold u8. apply Z.mod_pow2_bits_low. lia. Qed.

Lemma byte_bit a b : 0 <= a -> 0 <= b -> a / 8 = b / 8 -> a mod 8 = b mod 8 -> a = b.
Proof. intros. zlia. Qed.

Lemma bit_set d bi bj : 0 <= bi -> 0 <= bj -> bit (set_bit d bi) bj = (bi =? bj) || bit d bj.
Proof.
  intros Hi Hj. unfold bit, set_bit. assert (0 <= bi mod 8 < 8 /\ 0 <= bj mod 8 < 8) as [H1 H2] by zlia.
  destruct (decide (bi / 8 = bj / 8)) as [E|E].
  - rewrite E, mget_mset_eq, testbit_u8 by done. rewrite Z.lor_spec, Z.shiftl_1_l.
    destruct (Z.eqb_spec bi bj) as [->|Hne].
    + rewrite Z.pow2_bits_true by lia. apply orb_true_r.
    + rewrite Z.pow2_bits_false by (intros ?; apply Hne, byte_bit; lia). by rewrite orb_false_r.
  - rewrite mget_mset_ne by done. destruct (Z.eqb_spec bi bj) as [->|]; done.
Qed.

Lemma bit_clear d bi bj : 0 <= bi -> 0 <= bj -> bit (clear_bit d bi) bj = negb (bi =? bj) && bit d bj.
Proof.
  intros Hi Hj. unfold bit, clear_bit. assert (0 <= bi mod 8 < 8 /\ 0 <= bj mod 8 < 8) as [H1 H2] by zlia.
  destruct (decide (bi / 8 = bj / 8)) as [E|E].
  - rewrite E, mget_mset_eq, testbit_u8 by done. rewrite Z.land_spec, Z.lnot_spec, Z.shiftl_1_l by lia.
    destruct (Z.eqb_spec bi bj) as [->|Hne].
    + rewrite Z.pow2_bits_true by lia. apply andb_false_r.
    + rewrite Z.pow2_bits_false by (intros ?; apply Hne, byte_bit; lia). apply andb_true_r.
  - rewrite mget_mset_ne by done. destruct (Z.eqb_spec bi bj) as [->|]; done.
Qed.

Lemma free_bit_spec k : forall bi d b size,
  match free_bit k bi d b size with
  | Some bj => bi <= bj < bi + Z.of_nat k /\ b + bj < size /\ bit d bj = false /\ forall x, bi <= x < bj -> bit d x = true
  | None => forall x, bi <= x < bi + Z.of_nat k -> b + x < size -> bit d x = true
  end.
Proof.
  induction k as [|k IH]; intros bi d b size; cbn [free_bit]; [intros; lia|].
  destruct (Z.ltb_spec (b + bi) size); [|intros; lia]. rewrite bit_test.
  destruct (bit d bi) eqn:Eb; cbn [negb].
  2:{ split_and!; try lia; done. }
  specialize (IH (bi + 1) d b size). destruct (free_bit k (bi + 1) d b size) as [bj|].
  - destruct IH as (H1 & H2 & H3 & H4). split_and!; try lia. intros x Hx.
    destruct (decide (x = bi)) as [->|]; [done|]. apply H4. lia.
  - intros x Hx Hb. destruct (decide (x = bi)) as [->|]; [done|]. apply IH; lia.
Qed.

(** Is block [b] marked in use? *)
Definition used (v : Z -> block) (sb : superblock) (b : Z) : bool := bit (v (BBLOCK b sb)) (b mod BPB).

(** ** Where things are on the disk *)

Lemma BPB_val : BPB = 8192.
Proof. done. Qed.
Lemma IPB_val : IPB = 16.
Proof. done. Qed.

Definition nmeta (sb : superblock) : Z := sb_size sb - sb_nblocks sb.

(** The log, then the inode blocks, then the bitmap, then data. *)
Record layout (E : tenv) (sb : superblock) : Prop := {
  ly_size : nmeta sb <= sb_size sb < 2 ^ 31;
  ly_start : 1 < e_start E;
  ly_log : 0 <= e_size E /\ e_start E + e_size E <= sb_inodestart sb;
  ly_inode : 0 < sb_ninodes sb /\ sb_inodestart sb + (sb_ninodes sb - 1) / IPB < sb_bmapstart sb;
  ly_bmap : sb_bmapstart sb + (sb_size sb - 1) / BPB < nmeta sb;
}.

Definition meta_used (v : Z -> block) (sb : superblock) : Prop :=
  forall b, 0 <= b < nmeta sb -> used v sb b = true.

(** The effect of allocating block [b]. *)
Definition alloc_view (sb : superblock) (b : Z) (v : Z -> block) : Z -> block :=
  let v := <[BBLOCK b sb := set_bit (v (BBLOCK b sb)) (b mod BPB)]> v in
  <[b := memset (v b) 0 0 BSIZE]> v.

Definition free_view (sb : superblock) (b : Z) (v : Z -> block) : Z -> block :=
  <[BBLOCK b sb := clear_bit (v (BBLOCK b sb)) (b mod BPB)]> v.

Lemma BBLOCK_spec E sb b : layout E sb -> 0 <= b < sb_size sb ->
  BBLOCK b sb = b / BPB + sb_bmapstart sb /\ sb_bmapstart sb <= BBLOCK b sb < nmeta sb /\ loggable E (BBLOCK b sb).
Proof.
  intros [Hs Hst Hl Hi Hb] Hr. unfold loggable.
  assert (BBLOCK b sb = b / BPB + sb_bmapstart sb) as ->.
  { unfold BBLOCK. apply u32_small. rewrite ?BPB_val, ?IPB_val in *. zlia. }
  rewrite ?BPB_val, ?IPB_val in *. zlia.
Qed.

Lemma data_loggable E sb b : layout E sb -> nmeta sb <= b < sb_size sb -> loggable E b.
Proof.
  intros [Hs Hst Hl Hi Hb] Hr. unfold loggable. rewrite ?BPB_val, ?IPB_val in *. zlia.
Qed.

Lemma bitmap_pos b b' : 0 <= b -> 0 <= b' -> b / BPB = b' / BPB -> b mod BPB = b' mod BPB -> b = b'.
Proof. rewrite BPB_val. intros. zlia. Qed.

Lemma alloc_used E sb b v b' : layout E sb -> nmeta sb <= b < sb_size sb -> 0 <= b' < sb_size sb ->
  used (alloc_view sb b v) sb b' = (b =? b') || used v sb b'.
Proof.
  intros Hl Hb Hb'. assert (0 <= b) as H0. { destruct Hl as [? ? ? ? ?]. rewrite ?BPB_val, ?IPB_val in *. zlia. }
  destruct (BBLOCK_spec E sb b Hl ltac:(lia)) as (E1 & R1 & _), (BBLOCK_spec E sb b' Hl Hb') as (E2 & R2 & _).
  unfold used, alloc_view. rewrite (fn_lookup_insert_ne _ b) by lia.
  assert (0 <= b mod BPB /\ 0 <= b' mod BPB) as [Hp Hp'] by (rewrite BPB_val; zlia).
  destruct (decide (BBLOCK b sb = BBLOCK b' sb)) as [Eq|Ne].
  - rewrite <- Eq, fn_lookup_insert, bit_set by done. f_equal.
    destruct (Z.eqb_spec (b mod BPB) (b' mod BPB)) as [Em|Em], (Z.eqb_spec b b') as [->|Hne]; try done.
    exfalso. apply Hne, bitmap_pos; try lia; done.
  - rewrite fn_lookup_insert_ne by done. destruct (Z.eqb_spec b b') as [->|]; done.
Qed.

Lemma free_used E sb b v b' : layout E sb -> 0 <= b < sb_size sb -> 0 <= b' < sb_size sb ->
  used (free_view sb b v) sb b' = negb (b =? b') && used v sb b'.
Proof.
  intros Hl Hb Hb'. destruct (BBLOCK_spec E sb b Hl Hb) as (E1 & R1 & _), (BBLOCK_spec E sb b' Hl Hb') as (E2 & R2 & _).
  unfold used, free_view. assert (0 <= b mod BPB /\ 0 <= b' mod BPB) as [Hp Hp'] by (rewrite BPB_val; zlia).
  destruct (decide (BBLOCK b sb = BBLOCK b' sb)) as [Eq|Ne].
  - rewrite <- Eq, fn_lookup_insert, bit_clear by done. f_equal. f_equal.
    destruct (Z.eqb_spec (b mod BPB) (b' mod BPB)) as [Em|Em], (Z.eqb_spec b b') as [->|Hne]; try done.
    exfalso. apply Hne, bitmap_pos; try lia; done.
  - rewrite fn_lookup_insert_ne by done. destruct (Z.eqb_spec b b') as [->|]; done.
Qed.

Section FsBlocks.
Context {K : Type} `{BC : BlockCache K}.

Record txn (E : tenv) (f : fsys K) (v : Z -> block) (bl : list Z) (H : gmap Z nat) (D : gset Z) : Prop := {
  tx_log : log_ok (lg f) bl;
  tx_env : start (lg f) = e_start E /\ lsize (lg f) = e_size E /\ outstanding (lg f) = e_out E /\ 1 <= e_out E;
  tx_cache : exists a, bc_rep (cache f) a /\ (forall bn, cs_view a bn = v bn) /\ cs_disk a = e_disk E /\
    refs_are (cs_refs a) bl H;
  tx_clean : forall bn, bn ∉ bl -> bn ∉ D -> v bn = on_disk (e_disk E) bn;
}.

Definition with_fy (s : fs K) (f : fsys K) : fs K :=
  Fs f (sb s) (itab s) (mm s) (cur_pid s) (cur_root s) (cur_cwd s).

Lemma with_fy_twice s f f' : with_fy (with_fy s f) f' = with_fy s f'.
Proof. done. Qed.
Lemma with_fy_id s : with_fy s (fy s) = s.
Proof. by destruct s. Qed.

Lemma onlog_Ok {A} (m : M (fsys K) A) c s a c' f : m c (fy s) = Ok a c' f -> onlog m c s = Ok a c' (with_fy s f).
Proof. intros Hm. unfold onlog, zoom. cbn [lget lput fy_lens]. by rewrite Hm. Qed.

Lemma quiet_held c c' : held c' = held c -> quiet c -> quiet c'.
Proof. unfold quiet, cache_free. by intros ->. Qed.

Lemma logged_in bn bl : bn ∈ logged bn bl.
Proof. unfold logged. case_decide; set_solver. Qed.
Lemma logged_sub bn bl x : x ∈ logged bn bl <-> x = bn \/ x ∈ bl.
Proof. unfold logged. case_decide; set_solver. Qed.
Lemma logged_length bn bl : (length (logged bn bl) <= length bl + 1)%nat.
Proof. unfold logged. case_decide; rewrite ?length_app; cbn; lia. Qed.

(** *** The primitives *)

Lemma refs_size R bl H : NoDup bl -> refs_are R bl H -> (size R <= length bl + size H)%nat.
Proof.
  intros Hn HR. rewrite <- (size_dom R), <- (size_dom H).
  assert (dom R ⊆ list_to_set bl ∪ dom H) as Hs.
  { intros bn [r Hr]%elem_of_dom. specialize (HR bn). destruct (H !! bn) as [i|] eqn:Ei.
    - apply elem_of_union_r, elem_of_dom. by exists i.
    - case_decide; [set_solver|]. rewrite HR in Hr. done. }
  apply subseteq_size in Hs. rewrite size_union_alt in Hs.
  pose proof (size_list_to_set (C := gset Z) bl Hn).
  assert (size (dom H ∖ list_to_set bl) <= size (dom H))%nat by (apply subseteq_size; set_solver). lia.
Qed.

Section Prims.
Variables (E : tenv) (v : Z -> block) (bl : list Z) (H : gmap Z nat) (D : gset Z).

Lemma t_bread c s bn : txn E (fy s) v bl H D -> quiet c -> H !! bn = None ->
  (length bl + size H < bc_nbuf)%nat ->
  exists i f, bread ROOTDEV bn c s = Ok i c (with_fy s f) /\ txn E f v bl (<[bn := i]> H) D.
Proof.
  intros [Hl He (a & Hrep & Hv & Hd & HR) Hc] [Hq _] Hn Hsz. destruct s as [[g k] sb0 it m p r w]. cbn [fy lg cache] in *.
  pose proof (refs_size _ _ _ (lo_nodup _ _ Hl) HR) as Hs. pose proof (HR bn) as Hbn. rewrite Hn in Hbn.
  assert (exists i k', bc_bread ROOTDEV bn c k = Ok i c k' /\
    bc_rep k' (with_refs (<[bn := Ref i (if decide (bn ∈ bl) then 2 else 1) true]> (cs_refs a)) a)) as (i & k' & Hr & Hrep').
  { case_decide as Hin.
    - destruct Hbn as [i Hi]. exists i. by apply (bc_bread_hit c k a bn i 1).
    - apply (bc_bread_miss c k a bn); try done. lia. }
  exists i, (Fsys g k'). split.
  - unfold bread. erewrite onlog_Ok; [reflexivity|]. by apply onc_Ok.
  - split; [done|done| |done]. eexists. split; [exact Hrep'|]. split; [done|]. split; [done|].
    intros x. cbn [with_refs cs_refs]. destruct (decide (x = bn)) as [->|Hne].
    + by rewrite !lookup_insert_eq.
    + rewrite !lookup_insert_ne by done. apply HR.
Qed.

Lemma held_ref R bn i : refs_are R bl H -> H !! bn = Some i ->
  R !! bn = Some (Ref i (if decide (bn ∈ bl) then 2 else 1) true).
Proof. intros HR Hi. specialize (HR bn). by rewrite Hi in HR. Qed.

Lemma t_data c s bn i : txn E (fy s) v bl H D -> H !! bn = Some i -> bdata i c s = Ok (v bn) c s.
Proof.
  intros [_ _ (a & Hrep & Hv & _ & HR) _] Hi. unfold bdata, onlog, zoom, dataM, getsM. cbn [lget lput fy_lens].
  destruct (bc_read _ _ _ _ _ _ Hrep (held_ref _ _ _ HR Hi)) as [-> _]. rewrite Hv. by destruct s.
Qed.

Lemma t_set c s bn i d : txn E (fy s) v bl H D -> H !! bn = Some i ->
  exists f, set_bdata i d c s = Ok tt c (with_fy s f) /\ txn E f (<[bn := d]> v) bl H (D ∪ {[bn]}).
Proof.
  intros [Hl He (a & Hrep & Hv & Hd & HR) Hc] Hi. destruct s as [[g k] sb0 it m p r w]. cbn [fy lg cache] in *.
  destruct (bc_set_data_ok c k a bn i _ d Hrep (held_ref _ _ _ HR Hi)) as (k' & Hr & Hrep').
  exists (Fsys g k'). split.
  - unfold set_bdata. erewrite onlog_Ok; [reflexivity|]. by apply onc_Ok.
  - split; [done|done| |].
    + eexists. split; [exact Hrep'|]. split; [|done]. intros x. cbn [with_view cs_view].
      destruct (decide (x = bn)) as [->|Hne]; [by rewrite !fn_lookup_insert|by rewrite !fn_lookup_insert_ne].
    + intros x Hx HD. rewrite fn_lookup_insert_ne by set_solver. apply Hc; set_solver.
Qed.

Lemma t_logw c s bn i : txn E (fy s) v bl H D -> quiet c -> H !! bn = Some i -> loggable E bn ->
  Z.of_nat (length bl) < log_cap E ->
  exists f, logw i c s = Ok tt c (with_fy s f) /\ txn E f v (logged bn bl) H (D ∖ {[bn]}).
Proof.
  intros [Hl He (a & Hrep & Hv & Hd & HR) Hc] [[Hq _] [Hql _]] Hi [Hb Hout] Hcap. destruct s as [[g k] sb0 it m p r w].
  cbn [fy lg cache] in *. destruct He as (E1 & E2 & E3 & E4). pose proof (held_ref _ _ _ HR Hi) as Hri.
  pose proof (log_write_run c g k a bl i bn _ true Hl Hrep Hql Hq Hri) as Hw.
  destruct ((LOGSIZE <=? lh_n g) || (lsize g - 1 <=? lh_n g)) eqn:Ef.
  { rewrite (lo_n _ _ Hl), E2 in Ef. unfold log_cap in Hcap. lia. }
  destruct (Z.ltb_spec (outstanding g) 1); [lia|].
  destruct Hw as (g' & k' & Hr & Ho & Hco & Hst & Hsz & Hres); try done.
  { case_decide; lia. }
  { unfold outside_log. by rewrite E1, E2. }
  exists (Fsys g' k'). split; [unfold logw; by erewrite onlog_Ok|].
  assert (forall x, x ∉ logged bn bl -> x ∉ D ∖ {[bn]} -> v x = on_disk (e_disk E) x) as Hc'.
  { intros x Hx HD. rewrite logged_sub in Hx. apply Hc; set_solver. }
  unfold logged in *. destruct (decide (bn ∈ bl)) as [Hin|Hnin]; destruct Hres as [Hl' Hk].
  - subst k'. split; cbn [lg cache]; [done|by rewrite Hst, Hsz, Ho| |done]. by exists a.
  - split; cbn [lg cache]; [done|by rewrite Hst, Hsz, Ho| |done]. eexists. split; [exact Hk|]. split; [done|]. split; [done|].
    intros x. cbn [with_refs cs_refs]. specialize (HR x). destruct (decide (x = bn)) as [->|Hne].
    + rewrite Hi. rewrite lookup_insert_eq. rewrite decide_True by set_solver. done.
    + rewrite lookup_insert_ne by done. destruct (H !! x).
      * rewrite HR. by rewrite (decide_ext (x ∈ bl ++ [bn]) (x ∈ bl)) by set_solver.
      * rewrite (decide_ext (x ∈ bl ++ [bn]) (x ∈ bl)) by set_solver. done.
Qed.

Lemma t_brelse c s bn i : txn E (fy s) v bl H D -> quiet c -> H !! bn = Some i -> bn ∉ D ->
  exists c' f, brelse i c s = Ok tt c' (with_fy s f) /\ held c' = held c /\ txn E f v bl (delete bn H) D.
Proof.
  intros [Hl He (a & Hrep & Hv & Hd & HR) Hc] [Hq _] Hi HD. destruct s as [[g k] sb0 it m p r w]. cbn [fy lg cache] in *.
  destruct (bc_brelse_ok c k a bn i _ Hrep Hq (held_ref _ _ _ HR Hi)) as (c' & k' & Hr & Hh & Hrep').
  { case_decide; [done|]. intros _. rewrite Hv, Hd. by apply Hc. }
  exists c', (Fsys g k'). split; [|split; [done|]].
  - unfold brelse. erewrite onlog_Ok; [reflexivity|]. by apply onc_Ok.
  - split; [done|done| |done]. eexists. split; [exact Hrep'|]. split; [done|]. split; [done|].
    intros x. cbn [with_refs cs_refs]. specialize (HR x). destruct (decide (x = bn)) as [->|Hne].
    + rewrite lookup_delete_eq. destruct (decide (bn ∈ bl)).
      * cbn. exists i. by rewrite lookup_insert_eq.
      * cbn. by rewrite lookup_delete_eq.
    + rewrite lookup_delete_ne by done. case_match; [rewrite lookup_delete_ne by done|rewrite lookup_insert_ne by done]; done.
Qed.
End Prims.

Lemma txn_ext E f v v' bl H D : (forall x, v x = v' x) -> txn E f v bl H D -> txn E f v' bl H D.
Proof.
  intros Hv [Hl He (a & Hrep & Ha & Hd & HR) Hc]. split; [done|done| |].
  - exists a. split_and!; try done. intros x. by rewrite Ha.
  - intros x H1 H2. rewrite <- Hv. by apply Hc.
Qed.

(** Reading one block. *)
Lemma t_read {B} (k : nat -> block -> M (fs K) B) E v bl H D c s bn : txn E (fy s) v bl H D -> quiet c -> H !! bn = None ->
  (length bl + size H < bc_nbuf)%nat ->
  exists i f, bindM (bread ROOTDEV bn) (fun bp => bindM (bdata bp) (k bp)) c s = k i (v bn) c (with_fy s f) /\
    txn E f v bl (<[bn := i]> H) D.
Proof.
  intros Ht Hq Hn Hs. destruct (t_bread E v bl H D c s bn Ht Hq Hn Hs) as (i & f & Hr & Ht').
  exists i, f. split; [|done]. rewrite (bind_Ok _ _ _ _ _ _ _ Hr).
  erewrite bind_Ok; [reflexivity|]. apply (t_data E v bl (<[bn := i]> H) D); [done|]. by rewrite lookup_insert_eq.
Qed.

(** Changing a held block, logging and releasing it: the end of most routines. *)
Lemma t_finish E v bl H c s bn i d : txn E (fy s) v bl (<[bn := i]> H) ∅ -> quiet c -> H !! bn = None ->
  loggable E bn -> Z.of_nat (length bl) < log_cap E ->
  exists c' f, (set_bdata i d ;;! logw i ;;! brelse i) c s = Ok tt c' (with_fy s f) /\ held c' = held c /\
    txn E f (<[bn := d]> v) (logged bn bl) H ∅.
Proof.
  intros Ht Hq Hn Hlg Hcap.
  destruct (t_set E v bl _ ∅ c s bn i d Ht ltac:(by rewrite lookup_insert_eq)) as (f1 & Hr1 & Ht1).
  destruct (t_logw E _ bl _ _ c (with_fy s f1) bn i Ht1 Hq ltac:(by rewrite lookup_insert_eq) Hlg Hcap) as (f2 & Hr2 & Ht2).
  destruct (t_brelse E _ _ _ _ c (with_fy s f2) bn i Ht2 Hq ltac:(by rewrite lookup_insert_eq) ltac:(set_solver)) as (c' & f3 & Hr3 & Hh & Ht3).
  exists c', f3. rewrite (bind_Ok _ _ _ _ _ _ _ Hr1), (bind_Ok _ _ _ _ _ _ _ Hr2). split; [done|]. split; [done|].
  rewrite delete_insert_eq, delete_id in Ht3 by done. assert ((∅ ∪ {[bn]}) ∖ {[bn]} = (∅ : gset Z)) as Ed by set_solver.
  by rewrite Ed in Ht3.
Qed.

Lemma bzero_run E v bl H c s bn : txn E (fy s) v bl H ∅ -> quiet c -> H !! bn = None -> loggable E bn ->
  (length bl + size H < bc_nbuf)%nat -> Z.of_nat (length bl) < log_cap E ->
  exists c' f, bzero ROOTDEV bn c s = Ok tt c' (with_fy s f) /\ held c' = held c /\
    txn E f (<[bn := memset (v bn) 0 0 BSIZE]> v) (logged bn bl) H ∅.
Proof.
  intros Ht Hq Hn Hlg Hs Hcap. unfold bzero. rewrite u32_small by (destruct Hlg; lia).
  destruct (t_read (fun bp d => set_bdata bp (memset d 0 0 BSIZE) ;;! logw bp ;;! brelse bp) E v bl H ∅ c s bn Ht Hq Hn Hs)
    as (i & f & -> & Ht').
  apply (t_finish E v bl H c (with_fy s f) bn i _ Ht' Hq Hn Hlg Hcap).
Qed.

(** Data blocks a routine holds are allocated ones. *)
Definition holds_data (v : Z -> block) (S : superblock) (H : gmap Z nat) : Prop :=
  forall b i, H !! b = Some i -> nmeta S <= b < sb_size S /\ used v S b = true.

(** Finding the free block in the bitmap block that holds its bit. *)
Lemma alloc_turn E S v bl H c s b bi i :
  layout E S -> meta_used v S -> holds_data v S H -> sb s = S -> quiet c ->
  (length bl + size H + 1 < bc_nbuf)%nat -> Z.of_nat (length bl) + 1 < log_cap E ->
  b mod BPB = 0 -> 0 <= b -> 0 <= bi < BPB -> b + bi < sb_size S -> bit (v (BBLOCK b S)) bi = false ->
  txn E (fy s) v bl (<[BBLOCK b S := i]> H) ∅ ->
  nmeta S <= b + bi /\ used v S (b + bi) = false /\
  exists c' f, (set_bdata i (set_bit (v (BBLOCK b S)) bi) ;;! logw i ;;! brelse i ;;! bzero ROOTDEV (b + bi) ;;! retM (b + bi)) c s
      = Ok (b + bi) c' (with_fy s f) /\ held c' = held c /\
    txn E f (alloc_view S (b + bi) v) (logged (b + bi) (logged (BBLOCK (b + bi) S) bl)) H ∅.
Proof.
  intros Hl Hm Hh Hsb Hq Hnb Hcap Hal H0 Hbi Hsz Hbit Ht.
  destruct (BBLOCK_spec E S b Hl ltac:(lia)) as (E1 & R1 & L1), (BBLOCK_spec E S (b + bi) Hl ltac:(lia)) as (E2 & R2 & _).
  assert (BBLOCK (b + bi) S = BBLOCK b S) as Ebb by (rewrite E1, E2, BPB_val in *; zlia).
  assert ((b + bi) mod BPB = bi) as Em by (rewrite BPB_val in *; zlia).
  assert (used v S (b + bi) = false) as Hu by (unfold used; by rewrite Ebb, Em).
  assert (nmeta S <= b + bi) as Hd. { destruct (Z.le_gt_cases (nmeta S) (b + bi)); [done|]. rewrite Hm in Hu by lia. done. }
  split; [done|]. split; [done|].
  assert (H !! BBLOCK b S = None) as Hnone.
  { destruct (H !! BBLOCK b S) eqn:Eh; [|done]. destruct (Hh _ _ Eh). lia. }
  assert (H !! (b + bi) = None) as Hnone'.
  { destruct (H !! (b + bi)) eqn:Eh; [|done]. destruct (Hh _ _ Eh). congruence. }
  destruct (t_finish E v bl H c s (BBLOCK b S) i (set_bit (v (BBLOCK b S)) bi) Ht Hq Hnone L1 ltac:(lia)) as (c1 & f1 & Hr1 & Hh1 & Ht1).
  pose proof (logged_length (BBLOCK b S) bl).
  destruct (bzero_run E _ _ H c1 (with_fy s f1) (b + bi) Ht1 (quiet_held c c1 Hh1 Hq) Hnone' (data_loggable E S (b + bi) Hl ltac:(lia)) ltac:(lia) ltac:(lia))
    as (c2 & f2 & Hr2 & Hh2 & Ht2).
  exists c2, f2. split; [|split; [congruence|]].
  - assert (forall (k : M (fs K) Z), (set_bdata i (set_bit (v (BBLOCK b S)) bi) ;;! logw i ;;! brelse i ;;! k) c s = k c1 (with_fy s f1)) as Hk.
    { intros k. rewrite <- (bind_Ok _ (fun _ => k) _ _ _ _ _ Hr1). unfold bindM.
      destruct (set_bdata _ _ _ _); try done. by destruct (logw _ _ _). }
    rewrite Hk. by rewrite (bind_Ok _ _ _ _ _ _ _ Hr2).
  - rewrite Ebb. unfold alloc_view. rewrite Em, Ebb. exact Ht2.
Qed.

Lemma balloc_loop_run fuel : forall E S v bl H c s b,
  layout E S -> meta_used v S -> holds_data v S H -> sb s = S -> quiet c ->
  (length bl + size H + 1 < bc_nbuf)%nat -> Z.of_nat (length bl) + 1 < log_cap E ->
  b mod BPB = 0 -> 0 <= b -> sb_size S - b <= BPB * Z.of_nat fuel ->
  (forall x, 0 <= x < b -> x < sb_size S -> used v S x = true) ->
  txn E (fy s) v bl H ∅ ->
  exists r c' f, balloc_loop fuel ROOTDEV b c s = Ok r c' (with_fy s f) /\ held c' = held c /\
    if decide (r = 0) then (forall x, 0 <= x < sb_size S -> used v S x = true) /\ txn E f v bl H ∅
    else nmeta S <= r < sb_size S /\ used v S r = false /\ (forall x, 0 <= x < r -> used v S x = true) /\
      txn E f (alloc_view S r v) (logged r (logged (BBLOCK r S) bl)) H ∅.
Proof.
  induction fuel as [|fuel IH]; intros E S v bl H c s b Hl Hm Hh Hsb Hq Hnb Hcap Hal H0 Hf Hbelow Ht;
    cbn [balloc_loop]; rewrite bind_gets, Hsb; destruct (Z.ltb_spec b (sb_size S)) as [Hlt|Hge]; [lia| | |].
  1,3: destruct (printf_plain (str ("balloc: out of blocks" ++ newline)) c s) as (c1 & Hr & Hh1); [by repeat constructor|by apply Hq|];
    rewrite (bind_Ok _ _ _ _ _ _ _ Hr); exists 0, c1, (fy s); rewrite with_fy_id; (split; [done|]); (split; [done|]);
    rewrite decide_True by done; split; [|done]; intros x Hx; apply Hbelow; lia.
  destruct (BBLOCK_spec E S b Hl ltac:(lia)) as (E1 & R1 & L1).
  assert (H !! BBLOCK b S = None) as Hnone.
  { destruct (H !! BBLOCK b S) eqn:Eh; [|done]. destruct (Hh _ _ Eh). lia. }
  match goal with |- context [bindM (bread ROOTDEV (BBLOCK b S)) (fun bp => bindM (bdata bp) (@?k bp))] =>
    destruct (t_read k E v bl H ∅ c s (BBLOCK b S) Ht Hq Hnone ltac:(lia)) as (i & f & -> & Ht') end.
  pose proof (free_bit_spec (Z.to_nat BPB) 0 (v (BBLOCK b S)) b (sb_size S)) as Hfb.
  destruct (free_bit _ _ _ _ _) as [bi|].
  - destruct Hfb as (Hbi & Hsz & Hbit & Hfirst). 
    destruct (alloc_turn E S v bl H c (with_fy s f) b bi i Hl Hm Hh Hsb Hq Hnb Hcap Hal H0 ltac:(rewrite BPB_val in *; lia) Hsz Hbit Ht')
      as (Hd & Hu & c' & f' & Hr & Hh' & Ht2).
    exists (b + bi), c', f'. split; [exact Hr|]. split; [done|].
    assert (b + bi <> 0). { destruct Hl as [? ? ? ? ?]. rewrite ?BPB_val, ?IPB_val in *. zlia. }
    rewrite decide_False by done. split_and!; try done; try lia.
    intros x Hx. destruct (Z.lt_ge_cases x b); [apply Hbelow; lia|].
    unfold used. destruct (BBLOCK_spec E S x Hl ltac:(lia)) as (E2 & _ & _).
    replace (BBLOCK x S) with (BBLOCK b S) by (rewrite E1, E2, BPB_val in *; zlia).
    apply Hfirst. rewrite BPB_val in *. zlia.
  - destruct (t_brelse E v bl _ ∅ c (with_fy s f) (BBLOCK b S) i Ht' Hq ltac:(by rewrite lookup_insert_eq) ltac:(set_solver)) as (c1 & f1 & Hr1 & Hh1 & Ht1).
    rewrite delete_insert_eq, delete_id in Ht1 by done. rewrite (bind_Ok _ _ _ _ _ _ _ Hr1), with_fy_twice.
    destruct (IH E S v bl H c1 (with_fy s f1) (b + BPB) Hl Hm Hh Hsb (quiet_held c c1 Hh1 Hq) Hnb Hcap) as (r & c' & f' & Hr & Hh' & Hres); try done.
    + rewrite BPB_val in *. zlia.
    + rewrite BPB_val. lia.
    + rewrite BPB_val in *. lia.
    + intros x Hx Hxs. destruct (Z.lt_ge_cases x b); [apply Hbelow; lia|].
      unfold used. destruct (BBLOCK_spec E S x Hl ltac:(lia)) as (E2 & _ & _).
      replace (BBLOCK x S) with (BBLOCK b S) by (rewrite E1, E2, BPB_val in *; zlia).
      apply Hfb; rewrite BPB_val in *; zlia.
    + exists r, c', f'. split; [exact Hr|]. split; [congruence|done].
Qed.

Lemma balloc_run E S v bl H c s :
  layout E S -> meta_used v S -> holds_data v S H -> sb s = S -> quiet c ->
  (length bl + size H + 1 < bc_nbuf)%nat -> Z.of_nat (length bl) + 1 < log_cap E ->
  txn E (fy s) v bl H ∅ ->
  exists r c' f, balloc ROOTDEV c s = Ok r c' (with_fy s f) /\ held c' = held c /\
    if decide (r = 0) then (forall x, 0 <= x < sb_size S -> used v S x = true) /\ txn E f v bl H ∅
    else nmeta S <= r < sb_size S /\ used v S r = false /\ (forall x, 0 <= x < r -> used v S x = true) /\
      txn E f (alloc_view S r v) (logged r (logged (BBLOCK r S) bl)) H ∅.
Proof.
  intros Hl Hm Hh Hsb Hq Hnb Hcap Ht. unfold balloc. rewrite bind_gets, Hsb.
  apply (balloc_loop_run _ E S v bl H c s 0 Hl Hm Hh Hsb Hq Hnb Hcap); try done.
  - rewrite BPB_val. lia.
  - intros x Hx. lia.
Qed.

(** balloc.  With the metadata blocks marked in use and room in the log, balloc returns.  It returns 0
    exactly when every block is in use, with nothing changed; otherwise it returns the lowest
    free block, which lies in the data area, marks it and no other block in use, and zeroes it;
    no other block outside the bitmap changes. *)
Theorem balloc_correct E S v bl H c s :
  layout E S -> meta_used v S -> holds_data v S H -> sb s = S -> quiet c ->
  (length bl + size H + 1 < bc_nbuf)%nat -> Z.of_nat (length bl) + 1 < log_cap E ->
  txn E (fy s) v bl H ∅ ->
  exists r c' f v' bl', balloc ROOTDEV c s = Ok r c' (with_fy s f) /\ held c' = held c /\ txn E f v' bl' H ∅ /\
    if decide (r = 0) then (forall x, 0 <= x < sb_size S -> used v S x = true) /\ (forall x, v' x = v x)
    else nmeta S <= r < sb_size S /\ used v S r = false /\ (forall x, 0 <= x < r -> used v S x = true) /\
      (forall x, 0 <= x < sb_size S -> used v' S x = (r =? x) || used v S x) /\
      (forall i, 0 <= i < BSIZE -> mget (v' r) i = 0) /\
      (forall x, x <> r -> x <> BBLOCK r S -> v' x = v x).
Proof.
  intros Hl Hm Hh Hsb Hq Hnb Hcap Ht.
  destruct (balloc_run E S v bl H c s Hl Hm Hh Hsb Hq Hnb Hcap Ht) as (r & c' & f & Hr & Hh' & Hres).
  exists r, c', f. case_decide as Hz; destruct_and!.
  - exists v, bl. done.
  - eexists _, _. split; [exact Hr|]. split; [done|]. split; [eassumption|]. split_and!; try done.
    + intros x Hx. by apply (alloc_used E).
    + intros i Hi. unfold alloc_view. rewrite fn_lookup_insert, memset_get by done.
      destruct (_ && _) eqn:Eb; [done|]. lia.
    + intros x Hx Hb. unfold alloc_view. by rewrite !fn_lookup_insert_ne.
Qed.

Lemma bfree_run E S v bl H c s b : layout E S -> holds_data v S H -> sb s = S -> quiet c ->
  (length bl + size H < bc_nbuf)%nat -> Z.of_nat (length bl) < log_cap E ->
  0 <= b < sb_size S -> txn E (fy s) v bl H ∅ ->
  if used v S b then
    exists c' f, bfree ROOTDEV b c s = Ok tt c' (with_fy s f) /\ held c' = held c /\
      txn E f (free_view S b v) (logged (BBLOCK b S) bl) H ∅
  else bfree ROOTDEV b c s = Panic "freeing free block".
Proof.
  intros Hl Hh Hsb Hq Hnb Hcap Hb Ht. destruct (BBLOCK_spec E S b Hl Hb) as (E1 & R1 & L1).
  assert (H !! BBLOCK b S = None) as Hnone.
  { destruct (H !! BBLOCK b S) eqn:Eh; [|done]. destruct (Hh _ _ Eh). lia. }
  unfold bfree. rewrite bind_gets, Hsb.
  match goal with |- context [bindM (bread ROOTDEV (BBLOCK b S)) (fun bp => bindM (bdata bp) (@?k bp))] =>
    destruct (t_read k E v bl H ∅ c s (BBLOCK b S) Ht Hq Hnone Hnb) as (i & f & -> & Ht') end.
  cbv zeta. rewrite bit_test. unfold used. destruct (bit (v (BBLOCK b S)) (b mod BPB)); cbn [negb]; [|done].
  apply (t_finish E v bl H c (with_fy s f) _ i _ Ht' Hq Hnone L1 Hcap).
Qed.
End FsBlocks.
