(* ===== verification/FsFile.v ===== *)
(** File contents (kernel/fs.c: bmap, readi, writei).

    [faddr] is the block of a file that holds its [bn]-th piece, through the
    direct addresses of the inode or its indirect block, and [fbyte] the file as a
    sequence of bytes.  The theorems show that readi returns a slice of the
    sequence and that writei changes exactly the bytes it is told to, in a file
    system whose files keep their blocks apart ([file_ok]). *)
From stdpp Require Import functions.
From S2P Require Import Prelude Machine CString Kalloc Vm PageTable UserMem UserCopy Sleeplock BlockCache Log Fs FsBlocks.
Local Open Scope Z_scope.

Definition ind (ip : inode) : Z := arr (i_addrs ip) NDIRECT.

Definition faddr (v : Z -> block) (ip : inode) (bn : Z) : Z :=
  if bn <? NDIRECT then arr (i_addrs ip) bn
  else if ind ip =? 0 then 0 else word (v (ind ip)) (bn - NDIRECT).

(** A block of the data area that is marked in use. *)
Definition data_block (v : Z -> block) (S : superblock) (x : Z) : Prop :=
  nmeta S <= x < sb_size S /\ used v S x = true.

(** The blocks of a file are allocated data blocks, no two of them the same. *)
Record file_ok (v : Z -> block) (S : superblock) (ip : inode) : Prop := {
  fo_dev : i_dev ip = ROOTDEV;
  fo_data : forall bn, 0 <= bn < MAXFILE -> faddr v ip bn <> 0 -> data_block v S (faddr v ip bn);
  fo_ind : ind ip <> 0 -> data_block v S (ind ip) /\ forall bn, 0 <= bn < MAXFILE -> faddr v ip bn <> ind ip;
  fo_inj : forall a b, 0 <= a < MAXFILE -> 0 <= b < MAXFILE -> faddr v ip a <> 0 -> faddr v ip a = faddr v ip b -> a = b;
}.

(** The byte at offset [off]; a block that was never allocated reads as zeros. *)
Definition fbyte (v : Z -> block) (ip : inode) (off : Z) : Z :=
  if faddr v ip (off / BSIZE) =? 0 then 0 else mget (v (faddr v ip (off / BSIZE))) (off mod BSIZE).

Lemma NDIRECT_val : NDIRECT = 12.
Proof. done. Qed.
Lemma NINDIRECT_val : NINDIRECT = 256.
Proof. done. Qed.
Lemma MAXFILE_val : MAXFILE = 268.
Proof. done. Qed.
Lemma BSIZE_val : BSIZE = 1024.
Proof. done. Qed.


(** *** Growing a file by a block *)

Lemma word_store d j x k : 0 <= j -> 0 <= k -> 0 <= x < 2 ^ 32 ->
  word (storen 4 d (4 * j) x) k = if j =? k then x else word d k.
Proof.
  intros Hj Hk Hx. unfold word. destruct (Z.eqb_spec j k) as [->|Hne].
  - rewrite loadn_storen_eq. apply Z.mod_small. exact Hx.
  - apply loadn_storen_out. lia.
Qed.

Lemma word_range d k : 0 <= word d k < 2 ^ 32.
Proof. apply (loadn_range 4). Qed.

Lemma word_zero d k : (forall i, 0 <= i < BSIZE -> mget d i = 0) -> 0 <= k < NINDIRECT -> word d k = 0.
Proof.
  intros Hz Hk. unfold word. rewrite NINDIRECT_val, BSIZE_val in *.
  cbn [loadn]. rewrite !Hz by lia. done.
Qed.

Lemma faddr_range v ip bn : (forall k, 0 <= arr (i_addrs ip) k < 2 ^ 32) -> 0 <= faddr v ip bn < 2 ^ 32.
Proof.
  intros H. unfold faddr. destruct (_ <? _); [apply H|]. destruct (_ =? _); [lia|apply word_range].
Qed.

(** A file does not change when its blocks do not. *)
Lemma faddr_frame v v' S ip bn : file_ok v S ip -> (ind ip <> 0 -> v' (ind ip) = v (ind ip)) ->
  faddr v' ip bn = faddr v ip bn.
Proof.
  intros Hf Hi. unfold faddr. destruct (_ <? _); [done|]. destruct (Z.eqb_spec (ind ip) 0); [done|]. by rewrite Hi.
Qed.

Lemma file_ok_frame v v' S ip : file_ok v S ip ->
  (forall x, data_block v S x -> data_block v' S x /\ v' x = v x) -> file_ok v' S ip.
Proof.
  intros Hf Hx. assert (forall bn, faddr v' ip bn = faddr v ip bn) as Hfa.
  { intros bn. apply (faddr_frame v v' S); [done|]. intros Hi. by apply Hx, (fo_ind _ _ _ Hf Hi). }
  split.
  - apply Hf.
  - intros bn Hb. rewrite Hfa. intros Hn. by apply Hx, Hf.
  - intros Hi. destruct (fo_ind _ _ _ Hf Hi) as [H1 H2]. split; [by apply Hx|]. intros bn Hb. rewrite Hfa. by apply H2.
  - intros a b Ha Hb. rewrite !Hfa. by apply Hf.
Qed.

(** [r] is not a block of the file. *)
Definition fresh (v : Z -> block) (ip : inode) (r : Z) : Prop :=
  r <> 0 /\ ind ip <> r /\ forall b, 0 <= b < MAXFILE -> faddr v ip b <> r.

Lemma fresh_unused v S ip r : file_ok v S ip -> r <> 0 -> used v S r = false -> fresh v ip r.
Proof.
  intros Hf Hr Hu. split; [done|]. split.
  - intros E. destruct (fo_ind _ _ _ Hf) as [[_ H] _]; [congruence|]. congruence.
  - intros b Hb E. destruct (fo_data _ _ _ Hf b Hb) as [_ H]; congruence.
Qed.

Lemma arr_insert (a : gmap Z Z) k x j : arr (<[k := x]> a) j = if decide (k = j) then x else arr a j.
Proof. unfold arr. case_decide; [subst; by rewrite lookup_insert_eq|by rewrite lookup_insert_ne]. Qed.

Lemma faddr_direct v ip bn r b : 0 <= bn < NDIRECT -> 
  faddr v (set_addr bn r ip) b = if decide (bn = b) then r else faddr v ip b.
Proof.
  intros Hb. unfold faddr, ind. cbn [set_addr i_addrs]. rewrite !arr_insert. rewrite (decide_False (P := bn = NDIRECT)) by lia.
  case_decide; destruct (Z.ltb_spec b NDIRECT); try done. lia.
Qed.

Lemma file_ok_direct v S ip bn r : file_ok v S ip -> 0 <= bn < NDIRECT -> data_block v S r -> fresh v ip r ->
  file_ok v S (set_addr bn r ip).
Proof.
  intros Hf Hbn Hr (Hr0 & Hri & Hrf).
  assert (ind (set_addr bn r ip) = ind ip) as Ei.
  { unfold ind. cbn [set_addr i_addrs]. rewrite arr_insert, decide_False by lia. done. }
  split.
  - apply Hf.
  - intros b Hb. rewrite faddr_direct by done. case_decide; [done|]. by apply Hf.
  - rewrite Ei. intros Hi. destruct (fo_ind _ _ _ Hf Hi) as [H1 H2]. split; [done|]. intros b Hb.
    rewrite faddr_direct by done. case_decide; [congruence|by apply H2].
  - intros a b Ha Hb. rewrite !faddr_direct by done. do 2 case_decide; try congruence.
    + intros _ E. by destruct (Hrf b Hb).
    + intros _ E. by destruct (Hrf a Ha).
    + by apply Hf.
Qed.

Lemma faddr_newind v ip r b : ind ip = 0 -> 0 <= b < MAXFILE -> (forall i, 0 <= i < BSIZE -> mget (v r) i = 0) ->
  faddr v (set_addr NDIRECT r ip) b = faddr v ip b.
Proof.
  intros Hi Hb Hz. unfold faddr at 1. assert (ind (set_addr NDIRECT r ip) = r) as ->.
  { unfold ind. cbn [set_addr i_addrs]. by rewrite arr_insert, decide_True. }
  unfold faddr. rewrite Hi. cbn [set_addr i_addrs]. destruct (Z.ltb_spec b NDIRECT).
  - by rewrite arr_insert, decide_False by lia.
  - destruct (r =? 0); [done|]. cbn [Z.eqb]. apply word_zero; [done|]. rewrite MAXFILE_val, NDIRECT_val, NINDIRECT_val in *. lia.
Qed.

Lemma file_ok_newind v S ip r : file_ok v S ip -> ind ip = 0 -> data_block v S r -> fresh v ip r ->
  (forall i, 0 <= i < BSIZE -> mget (v r) i = 0) -> file_ok v S (set_addr NDIRECT r ip).
Proof.
  intros Hf Hi Hr (Hr0 & Hri & Hrf) Hz.
  assert (ind (set_addr NDIRECT r ip) = r) as Ei.
  { unfold ind. cbn [set_addr i_addrs]. by rewrite arr_insert, decide_True. }
  split.
  - apply Hf.
  - intros b Hb. rewrite faddr_newind by done. by apply Hf.
  - rewrite Ei. intros _. split; [done|]. intros b Hb. rewrite faddr_newind by done. by apply Hrf.
  - intros a b Ha Hb. rewrite !faddr_newind by done. by apply Hf.
Qed.

(** Entering [r] in the indirect block. *)
Definition enter (ip : inode) (bn r : Z) (v : Z -> block) : Z -> block :=
  <[ind ip := storen 4 (v (ind ip)) (4 * (bn - NDIRECT)) r]> v.

Lemma faddr_enter v ip bn r b : ind ip <> 0 -> NDIRECT <= bn -> 0 <= r < 2 ^ 32 ->
  faddr (enter ip bn r v) ip b = if decide (bn = b) then r else faddr v ip b.
Proof.
  intros Hi Hbn Hr. unfold faddr, enter. rewrite fn_lookup_insert. destruct (Z.ltb_spec b NDIRECT).
  - by rewrite decide_False by lia.
  - destruct (Z.eqb_spec (ind ip) 0); [done|]. rewrite word_store by lia.
    destruct (Z.eqb_spec (bn - NDIRECT) (b - NDIRECT)); case_decide; try done; lia.
Qed.

Lemma used_enter E S v ip bn r x : layout E S -> data_block v S (ind ip) -> 0 <= x < sb_size S ->
  used (enter ip bn r v) S x = used v S x.
Proof.
  intros Hl [Hi _] Hx. unfold used, enter. destruct (BBLOCK_spec E S x Hl Hx) as (_ & R & _).
  by rewrite fn_lookup_insert_ne by lia.
Qed.

Lemma nmeta_pos E S : layout E S -> 0 < nmeta S.
Proof. intros [? ? ? ? ?]. rewrite ?BPB_val, ?IPB_val in *. zlia. Qed.

Lemma data_enter E S v ip bn r x : layout E S -> data_block v S (ind ip) -> data_block (enter ip bn r v) S x <-> data_block v S x.
Proof.
  intros Hl Hi. pose proof (nmeta_pos E S Hl). unfold data_block.
  split; intros [H1 H2]; (split; [done|]); [rewrite (used_enter E) in H2|rewrite (used_enter E)]; done || lia.
Qed.

Lemma file_ok_enter E S v ip bn r : layout E S -> file_ok v S ip -> ind ip <> 0 -> NDIRECT <= bn < MAXFILE ->
  data_block v S r -> fresh v ip r -> file_ok (enter ip bn r v) S ip.
Proof.
  intros Hl Hf Hi Hbn Hr (Hr0 & Hri & Hrf). destruct (fo_ind _ _ _ Hf Hi) as [H1 H2]. pose proof (nmeta_pos E S Hl).
  assert (0 <= r < 2 ^ 32) as Hrr by (destruct Hr; destruct Hl; lia).
  split.
  - apply Hf.
  - intros b Hb. rewrite faddr_enter by (done || lia). rewrite (data_enter E) by done. case_decide; [done|]. by apply Hf.
  - intros _. rewrite (data_enter E) by done. split; [done|]. intros b Hb. rewrite faddr_enter by (done || lia).
    case_decide; [congruence|by apply H2].
  - intros a b Ha Hb. rewrite !faddr_enter by (done || lia). do 2 case_decide; try congruence.
    + intros _ E'. by destruct (Hrf b Hb).
    + intros _ E'. by destruct (Hrf a Ha).
    + by apply Hf.
Qed.

(** [n] bytes of the file from offset [off]. *)
Fixpoint fslice (v : Z -> block) (ip : inode) (off : Z) (n : nat) : list Z :=
  match n with
  | O => []
  | S k => fbyte v ip off :: fslice v ip (off + 1) k
  end.

Lemma fslice_app v ip a : forall off b,
  fslice v ip off (a + b) = fslice v ip off a ++ fslice v ip (off + Z.of_nat a) b.
Proof.
  induction a as [|a IH]; intros off b; cbn [fslice Nat.add app]; [by rewrite Z.add_0_r|].
  rewrite IH. do 2 f_equal. f_equal. lia.
Qed.

Lemma fslice_length v ip n : forall off, length (fslice v ip off n) = n.
Proof. induction n as [|n IH]; intros off; cbn; [done|]. by rewrite IH. Qed.

(** Within one block the file is the bytes of that block. *)
Lemma fslice_block v ip n : forall off, 0 <= off -> Z.of_nat n <= BSIZE - off mod BSIZE ->
  faddr v ip (off / BSIZE) <> 0 ->
  fslice v ip off n = bytes_of (v (faddr v ip (off / BSIZE))) (off mod BSIZE) n.
Proof.
  induction n as [|n IH]; intros off H0 Hn Ha; [done|]. cbn [fslice]. rewrite bytes_of_S. f_equal.
  - unfold fbyte. by destruct (Z.eqb_spec (faddr v ip (off / BSIZE)) 0).
  - destruct n as [|n]; [done|]. rewrite BSIZE_val in *.
    assert ((off + 1) / 1024 = off / 1024 /\ (off + 1) mod 1024 = off mod 1024 + 1) as [E1 E2] by zlia.
    rewrite IH; rewrite ?E1, ?E2; done || lia.
Qed.

(** No holes: every block below the size is there. *)
Definition full (v : Z -> block) (ip : inode) : Prop :=
  0 <= i_size ip <= MAXFILE * BSIZE /\ forall bn, 0 <= bn -> bn * BSIZE < i_size ip -> faddr v ip bn <> 0.

Lemma write_user_app tr bs : forall m va bs',
  write_user m tr va (bs ++ bs') =
  if fst (write_user m tr va bs) then write_user (snd (write_user m tr va bs)) tr (va + Z.of_nat (length bs)) bs'
  else write_user m tr va bs.
Proof.
  induction bs as [|b bs IH]; intros m va bs'; cbn [write_user app length fst snd]; [by rewrite Z.add_0_r|].
  destruct (tr va) as [a|]; [|done]. rewrite IH.
  by replace (va + 1 + Z.of_nat (length bs)) with (va + Z.of_nat (S (length bs))) by lia.
Qed.

(** Storing bytes at a user address, or taking them in a kernel buffer. *)
Definition sink (tr : Z -> option Z) (m : pmem) (dst : option Z) (bs : list Z) : bool * pmem :=
  match dst with
  | None => (true, m)
  | Some va => let w := write_user (pm_mem m) tr va bs in (fst w, PMem (snd w) (freelist m))
  end.

Definition shift (dst : option Z) (n : Z) : option Z :=
  match dst with Some va => Some (va + n) | None => None end.

Lemma sink_app tr m dst bs bs' :
  sink tr m dst (bs ++ bs') =
  if fst (sink tr m dst bs) then sink tr (snd (sink tr m dst bs)) (shift dst (Z.of_nat (length bs))) bs'
  else sink tr m dst bs.
Proof.
  destruct dst as [va|]; [|done]. cbn [sink shift]. cbv zeta. rewrite write_user_app. cbn [fst snd pm_mem freelist].
  destruct (fst (write_user (pm_mem m) tr va bs)) eqn:E; [done|]. by rewrite E.
Qed.

Section FsFile.
Context {K : Type} `{BC : BlockCache K} `{KI : KernelImage}.

Definition with_fi (s : fs K) (f : fsys K) (t : gmap nat inode) : fs K :=
  Fs f (sb s) t (mm s) (cur_pid s) (cur_root s) (cur_cwd s).

Lemma with_fy_fi s f : with_fy s f = with_fi s f (itab s).
Proof. done. Qed.

Lemma bind_getip {B} i (k : inode -> M (fs K) B) c s : bindM (getip i) k c s = k (itab s !!! i) c s.
Proof. done. Qed.
Lemma bind_modip {B} i g (k : unit -> M (fs K) B) c s :
  bindM (modip i g) k c s = k tt c (put_itab (<[i := g (itab s !!! i)]> (itab s)) s).
Proof. done. Qed.
Lemma modip_run i g c (s : fs K) : modip i g c s = Ok tt c (put_itab (<[i := g (itab s !!! i)]> (itab s)) s).
Proof. done. Qed.

(** *** bmap of a block the file has *)
Lemma bmap_hit E S v bl D c s i bn ip :
  file_ok v S ip -> itab s !!! i = ip -> quiet c -> (length bl < bc_nbuf)%nat ->
  0 <= bn < MAXFILE -> faddr v ip bn <> 0 -> ind ip ∉ D -> txn E (fy s) v bl ∅ D ->
  exists c' f, bmap i bn c s = Ok (faddr v ip bn) c' (with_fy s f) /\ held c' = held c /\ txn E f v bl ∅ D.
Proof.
  intros Hf Hi Hq Hnb Hbn Ha HD Ht. unfold bmap. rewrite bind_getip, Hi.
  unfold faddr in *. destruct (Z.ltb_spec bn NDIRECT).
  - destruct (Z.eqb_spec (arr (i_addrs ip) bn) 0); [done|]. exists c, (fy s). by rewrite with_fy_id.
  - destruct (Z.eqb_spec (ind ip) 0) as [|Hind]; [done|]. fold (ind ip). destruct (Z.eqb_spec (ind ip) 0); [done|].
    destruct (Z.ltb_spec (bn - NDIRECT) NINDIRECT); [|rewrite MAXFILE_val, NDIRECT_val, NINDIRECT_val in *; lia].
    rewrite (fo_dev _ _ _ Hf). unfold bmap_ind.
    match goal with |- context [bindM (bread ROOTDEV ?x) (fun bp => bindM (bdata bp) (@?k bp))] =>
      destruct (t_read k E v bl ∅ D c s x Ht Hq (lookup_empty _) ltac:(rewrite map_size_empty; lia)) as (b & f & -> & Ht') end.
    cbv beta. destruct (Z.eqb_spec (word (v (ind ip)) (bn - NDIRECT)) 0); [done|]. rewrite bind_ret.
    destruct (t_brelse E v bl _ D c (with_fy s f) (ind ip) b Ht' Hq ltac:(by rewrite lookup_insert_eq) HD) as (c' & f' & Hr & Hh & Ht2).
    rewrite (bind_Ok _ _ _ _ _ _ _ Hr). exists c', f'. rewrite delete_insert_eq, delete_empty in Ht2. done.
Qed.

(** *** bmap in general *)

(** [x] is not a block of the file. *)
Definition outside (v : Z -> block) (ip : inode) (x : Z) : Prop :=
  x <> ind ip /\ forall b, 0 <= b < MAXFILE -> faddr v ip b <> x.

(** What bmap may change: it adds at most the one block [bn] to the file. *)
Record grown (S : superblock) (v v' : Z -> block) (ip ip' : inode) (bn r : Z) : Prop := {
  gr_same : ip' = Inode (i_dev ip) (i_inum ip) (i_ref ip) (i_lock ip) (i_valid ip) (i_type ip) (i_major ip)
                        (i_minor ip) (i_nlink ip) (i_size ip) (i_addrs ip');
  gr_ok : file_ok v' S ip';
  gr_meta : meta_used v' S;
  gr_other : forall b, 0 <= b < MAXFILE -> b <> bn -> faddr v' ip' b = faddr v ip b;
  gr_this : faddr v' ip' bn = r;
  gr_new : faddr v ip bn = r \/ (faddr v ip bn = 0 /\ (forall j, 0 <= j < BSIZE -> mget (v' r) j = 0));
  gr_data : forall x, data_block v S x -> data_block v' S x /\ (x <> ind ip -> v' x = v x);
  gr_low : forall x, x < sb_bmapstart S -> v' x = v x;
  gr_out : forall x, data_block v S x -> outside v ip x -> outside v' ip' x;
  gr_full : r = 0 -> forall x, 0 <= x < sb_size S -> used v' S x = true;
}.

Lemma grown_id S v ip bn : file_ok v S ip -> meta_used v S ->
  (faddr v ip bn = 0 -> forall x, 0 <= x < sb_size S -> used v S x = true) -> grown S v v ip ip bn (faddr v ip bn).
Proof. intros Hf Hm Hall. split; try done; [by destruct ip|by left]. Qed.

Lemma alloc_facts E S v r : layout E S -> meta_used v S -> nmeta S <= r < sb_size S -> used v S r = false ->
  (forall x, data_block v S x -> data_block (alloc_view S r v) S x /\ alloc_view S r v x = v x) /\
  data_block (alloc_view S r v) S r /\ (forall j, 0 <= j < BSIZE -> mget (alloc_view S r v r) j = 0) /\
  meta_used (alloc_view S r v) S /\ (forall x, x < sb_bmapstart S -> alloc_view S r v x = v x).
Proof.
  intros Hl Hm Hr Hu. pose proof (nmeta_pos E S Hl). destruct (BBLOCK_spec E S r Hl ltac:(lia)) as (_ & R & _).
  assert (forall x, x <> r -> x <> BBLOCK r S -> alloc_view S r v x = v x) as Hfr.
  { intros x H1 H2. unfold alloc_view. by rewrite !fn_lookup_insert_ne. }
  split_and!.
  - intros x [Hx Hux]. split.
    + split; [done|]. rewrite (alloc_used E), Hux by (done || lia). apply orb_true_r.
    + apply Hfr; [congruence|lia].
  - split; [done|]. rewrite (alloc_used E) by (done || lia). by rewrite Z.eqb_refl.
  - intros j Hj. unfold alloc_view. rewrite fn_lookup_insert, memset_get by done.
    destruct (_ && _) eqn:Eb; [done|]. lia.
  - intros b Hb. destruct Hl as [? ? ? ? ?] eqn:El. rewrite (alloc_used E), Hm by (done || lia). apply orb_true_r.
  - intros x Hx. apply Hfr; lia.
Qed.

(** Step one of the indirect case, or all of the direct one. *)
Lemma grown_direct E S v ip bn r : layout E S -> meta_used v S -> file_ok v S ip -> 0 <= bn < NDIRECT ->
  faddr v ip bn = 0 -> nmeta S <= r < sb_size S -> used v S r = false ->
  grown S v (alloc_view S r v) ip (set_addr bn r ip) bn r.
Proof.
  intros Hl Hm Hf Hbn H0 Hr Hu. pose proof (nmeta_pos E S Hl).
  destruct (alloc_facts E S v r Hl Hm Hr Hu) as (Hd & Hdr & Hz & Hm' & Hlow).
  assert (file_ok (alloc_view S r v) S ip) as Hf' by by apply (file_ok_frame v).
  assert (forall b, faddr (alloc_view S r v) ip b = faddr v ip b) as Hfa.
  { intros b. apply (faddr_frame v _ S); [done|]. intros Hi. by apply Hd, (fo_ind _ _ _ Hf). }
  assert (fresh (alloc_view S r v) ip r) as Hfr.
  { destruct (fresh_unused v S ip r Hf ltac:(lia) Hu) as (F1 & F2 & F3). split_and!; try done. intros b Hb. rewrite Hfa. by apply F3. }
  split.
  - done.
  - by apply file_ok_direct.
  - done.
  - intros b Hb Hne. rewrite faddr_direct, decide_False by done. apply Hfa.
  - by rewrite faddr_direct, decide_True.
  - right. split; [done|]. done.
  - intros x Hx. destruct (Hd x Hx). done.
  - done.
  - intros x [_ Hx] [O1 O2]. split.
    + unfold ind. cbn [set_addr i_addrs]. by rewrite arr_insert, decide_False by lia.
    + intros b Hb. rewrite faddr_direct by done. case_decide; [congruence|]. rewrite Hfa. by apply O2.
  - intros ->. lia.
Qed.

Lemma bmap_ind_run E S v bl c s ip bn :
  layout E S -> meta_used v S -> file_ok v S ip -> ind ip <> 0 -> NDIRECT <= bn < MAXFILE -> faddr v ip bn = 0 ->
  sb s = S -> quiet c -> (length bl + 2 < bc_nbuf)%nat -> Z.of_nat (length bl) + 2 < log_cap E ->
  txn E (fy s) v bl ∅ ∅ ->
  exists r c' f v' bl', bmap_ind ROOTDEV (ind ip) (bn - NDIRECT) c s = Ok r c' (with_fy s f) /\ held c' = held c /\
    txn E f v' bl' ∅ ∅ /\ (length bl' <= length bl + 3)%nat /\ grown S v v' ip ip bn r.
Proof.
  intros Hl Hm Hf Hi Hbn H0 Hsb Hq Hnb Hcap Ht. pose proof (nmeta_pos E S Hl). unfold bmap_ind.
  match goal with |- context [bindM (bread ROOTDEV ?x) (fun bp => bindM (bdata bp) (@?k bp))] =>
    destruct (t_read k E v bl ∅ ∅ c s x Ht Hq (lookup_empty _) ltac:(rewrite map_size_empty; lia)) as (b & f1 & -> & Ht1) end.
  cbv beta. assert (word (v (ind ip)) (bn - NDIRECT) = 0) as Ew.
  { unfold faddr in H0. destruct (Z.ltb_spec bn NDIRECT); [lia|]. by destruct (Z.eqb_spec (ind ip) 0). }
  rewrite Ew. cbn [Z.eqb]. destruct (fo_ind _ _ _ Hf Hi) as [Hid Hin].
  assert (size (<[ind ip := b]> (∅ : gmap Z nat)) = 1%nat) as Hsz by (rewrite map_size_insert_None, map_size_empty; done).
  destruct (balloc_run E S v bl (<[ind ip := b]> ∅) c (with_fy s f1) Hl Hm) as (r & c2 & f2 & Hr2 & Hh2 & Hres); try done; try lia.
  { intros x j [[<- <-]|[_ Hx]]%lookup_insert_Some; [exact Hid|done]. }
  mrun. rewrite (bind_Ok _ _ _ _ _ _ _ Hr2), with_fy_twice. case_decide as Hr0.
  - subst r. cbn [Z.eqb negb]. mrun. destruct Hres as [Hall Ht2].
    destruct (t_brelse E v bl _ ∅ c2 (with_fy s f2) (ind ip) b Ht2 (quiet_held _ _ Hh2 Hq) ltac:(by rewrite lookup_insert_eq) ltac:(set_solver)) as (c3 & f3 & Hr3 & Hh3 & Ht3).
    rewrite delete_insert_eq, delete_empty in Ht3. rewrite (bind_Ok _ _ _ _ _ _ _ Hr3).
    exists 0, c3, f3, v, bl. split_and!; try done; [congruence|lia|]. rewrite <- H0. by apply grown_id.
  - destruct Hres as (Hrr & Hu & _ & Ht2). destruct (Z.eqb_spec r 0); [done|]. cbn [negb]. mrun.
    destruct (alloc_facts E S v r Hl Hm Hrr Hu) as (Hd & Hdr & Hz & Hm' & Hlow).
    set (v1 := alloc_view S r v) in *. set (bl1 := logged r (logged (BBLOCK r S) bl)) in *.
    assert (length bl1 <= length bl + 2)%nat as Hbl1.
    { unfold bl1. pose proof (logged_length r (logged (BBLOCK r S) bl)). pose proof (logged_length (BBLOCK r S) bl). lia. }
    destruct (t_set E v1 bl1 _ ∅ c2 (with_fy s f2) (ind ip) b (storen 4 (v (ind ip)) (4 * (bn - NDIRECT)) r) Ht2 ltac:(by rewrite lookup_insert_eq)) as (f3 & Hr3 & Ht3).
    rewrite (bind_Ok _ _ _ _ _ _ _ Hr3), with_fy_twice.
    destruct (t_logw E _ bl1 _ _ c2 (with_fy s f3) (ind ip) b Ht3 (quiet_held _ _ Hh2 Hq) ltac:(by rewrite lookup_insert_eq)
      (data_loggable E S _ Hl (proj1 Hid)) ltac:(lia)) as (f4 & Hr4 & Ht4).
    rewrite (bind_Ok _ _ _ _ _ _ _ Hr4), with_fy_twice. mrun.
    destruct (t_brelse E _ _ _ _ c2 (with_fy s f4) (ind ip) b Ht4 (quiet_held _ _ Hh2 Hq) ltac:(by rewrite lookup_insert_eq) ltac:(set_solver)) as (c5 & f5 & Hr5 & Hh5 & Ht5).
    rewrite (bind_Ok _ _ _ _ _ _ _ Hr5). rewrite delete_insert_eq, delete_empty in Ht5.
    assert ((∅ ∪ {[ind ip]}) ∖ {[ind ip]} = (∅ : gset Z)) as Ed by set_solver. rewrite Ed in Ht5.
    exists r, c5, f5, (enter ip bn r v1), (logged (ind ip) bl1). split; [done|]. split; [congruence|].
    assert (v1 (ind ip) = v (ind ip)) as Evi by by apply Hd.
    split; [unfold enter; by rewrite Evi|]. split; [pose proof (logged_length (ind ip) bl1); lia|].
    assert (file_ok v1 S ip) as Hf1 by by apply (file_ok_frame v).
    assert (forall x, faddr v1 ip x = faddr v ip x) as Hfa by (intros x; apply (faddr_frame v _ S); done).
    assert (fresh v1 ip r) as Hfr.
    { destruct (fresh_unused v S ip r Hf Hr0 Hu) as (F1 & F2 & F3). split_and!; try done. intros x Hx. rewrite Hfa. by apply F3. }
    assert (data_block v1 S (ind ip)) as Hid1 by by apply Hd.
    assert (0 <= r < 2 ^ 32) as Hr32 by (destruct Hl; lia).
    split.
    + by destruct ip.
    + by apply (file_ok_enter E).
    + intros x Hx. rewrite (used_enter E) by (try done; destruct Hl; lia). by apply Hm'.
    + intros x Hx Hne. rewrite faddr_enter, decide_False by (done || lia). apply Hfa.
    + by rewrite faddr_enter, decide_True by (done || lia).
    + right. split; [done|]. intros j Hj. unfold enter. rewrite fn_lookup_insert_ne; [by apply Hz|]. by apply Hfr.
    + intros x Hx. rewrite (data_enter E) by done. destruct (Hd x Hx) as [Hx1 Hx2]. split; [done|]. intros Hne.
      unfold enter. rewrite fn_lookup_insert_ne by done. done.
    + intros x Hx. unfold enter. rewrite fn_lookup_insert_ne; [by apply Hlow|]. destruct Hid, Hl as [? ? ? ? Hb]. rewrite BPB_val in Hb. zlia.
    + intros x [_ Hx] [O1 O2]. split; [done|]. intros y Hy. rewrite faddr_enter by (done || lia).
      case_decide; [congruence|]. rewrite Hfa. by apply O2.
    + done.
Qed.

(** A new indirect block: the file has the same blocks, none of them in it yet. *)
Lemma grown_newind E S v v2 ip bn r0 r : layout E S -> meta_used v S -> file_ok v S ip -> ind ip = 0 ->
  0 <= bn < MAXFILE -> nmeta S <= r0 < sb_size S -> used v S r0 = false ->
  let v1 := alloc_view S r0 v in
  let ip1 := set_addr NDIRECT r0 ip in
  (file_ok v1 S ip1 /\ meta_used v1 S /\ ind ip1 = r0 /\ faddr v1 ip1 bn = faddr v ip bn) /\
  (grown S v1 v2 ip1 ip1 bn r -> grown S v v2 ip ip1 bn r).
Proof.
  intros Hl Hm Hf Hi Hbn Hr Hu v1 ip1. pose proof (nmeta_pos E S Hl).
  destruct (alloc_facts E S v r0 Hl Hm Hr Hu) as (Hd & Hdr & Hz & Hm' & Hlow). fold v1 in Hd, Hdr, Hz, Hm', Hlow.
  assert (file_ok v1 S ip) as Hf1 by by apply (file_ok_frame v).
  assert (forall b, faddr v1 ip b = faddr v ip b) as Hfa by (intros b; apply (faddr_frame v _ S); done).
  assert (fresh v1 ip r0) as Hfr.
  { destruct (fresh_unused v S ip r0 Hf ltac:(lia) Hu) as (F1 & F2 & F3). split_and!; try done. intros x Hx. rewrite Hfa. by apply F3. }
  assert (ind ip1 = r0) as Ei. { unfold ind, ip1. cbn [set_addr i_addrs]. by rewrite arr_insert, decide_True. }
  assert (forall b, 0 <= b < MAXFILE -> faddr v1 ip1 b = faddr v ip b) as Hfn.
  { intros b Hb. unfold ip1. rewrite faddr_newind by done. apply Hfa. }
  split; [split_and!; try done; [by apply file_ok_newind|by apply Hfn]|].
  intros [G1 G2 G3 G4 G5 G6 G7 G8 G9 G10]. split; try done.
  - intros b Hb Hne. rewrite G4 by done. by apply Hfn.
  - rewrite <- (Hfn bn Hbn). done.
  - intros x Hx. destruct (Hd x Hx) as [H1 H2]. destruct (G7 x H1) as [H3 H4]. split; [done|]. intros _.
    rewrite H4; [done|]. rewrite Ei. destruct Hx. congruence.
  - intros x Hx. by rewrite G8, Hlow.
  - intros x Hx [O1 O2]. apply G9; [by apply Hd|]. split; [rewrite Ei; destruct Hx; congruence|].
    intros b Hb. rewrite Hfn by done. by apply O2.
Qed.

Lemma bmap_run E S v bl c s i ip bn :
  layout E S -> meta_used v S -> file_ok v S ip -> itab s !!! i = ip -> sb s = S -> quiet c ->
  (length bl + 4 < bc_nbuf)%nat -> Z.of_nat (length bl) + 4 < log_cap E -> 0 <= bn < MAXFILE ->
  txn E (fy s) v bl ∅ ∅ ->
  exists r c' f v' bl' t', bmap i bn c s = Ok r c' (with_fi s f t') /\ held c' = held c /\
    (forall j, j <> i -> t' !!! j = itab s !!! j) /\
    txn E f v' bl' ∅ ∅ /\ (length bl' <= length bl + 5)%nat /\ grown S v v' ip (t' !!! i) bn r.
Proof.
  intros Hl Hm Hf Hi Hsb Hq Hnb Hcap Hbn Ht. pose proof (nmeta_pos E S Hl).
  destruct (decide (faddr v ip bn = 0)) as [H0|Hne].
  2:{ destruct (bmap_hit E S v bl ∅ c s i bn ip Hf Hi Hq ltac:(lia) Hbn Hne ltac:(set_solver) Ht) as (c' & f & Hr & Hh & Ht').
      exists (faddr v ip bn), c', f, v, bl, (itab s). split_and!; try done; [lia|]. rewrite Hi. by apply grown_id. }
  assert (holds_data v S ∅) as Hhd by (intros b j Hb; by rewrite lookup_empty in Hb).
  destruct (balloc_run E S v bl ∅ c s Hl Hm Hhd Hsb Hq ltac:(rewrite map_size_empty; lia) ltac:(lia) Ht) as (r & c2 & f2 & Hr2 & Hh2 & Hres).
  unfold bmap. rewrite bind_getip, Hi, (fo_dev _ _ _ Hf).
  pose proof (logged_length r (logged (BBLOCK r S) bl)). pose proof (logged_length (BBLOCK r S) bl).
  destruct (Z.ltb_spec bn NDIRECT) as [Hd|Hd].
  - assert (arr (i_addrs ip) bn = 0) as E0. { unfold faddr in H0. by destruct (Z.ltb_spec bn NDIRECT); [|lia]. }
    rewrite E0. cbn [Z.eqb]. rewrite (bind_Ok _ _ _ _ _ _ _ Hr2). case_decide as Hr0.
    + subst r. cbn [Z.eqb]. destruct Hres as [Hall Ht2]. exists 0, c2, f2, v, bl, (itab s). split_and!; try done; [lia|].
      rewrite Hi, <- H0. by apply grown_id.
    + destruct Hres as (Hrr & Hu & _ & Ht2). destruct (Z.eqb_spec r 0); [done|]. rewrite bind_modip. cbn [with_fy itab]. rewrite Hi.
      eexists r, c2, f2, _, _, _. split; [reflexivity|]. split; [done|].
      split; [intros j Hj; by rewrite lookup_total_insert_ne|]. split; [exact Ht2|]. split; [lia|].
      rewrite lookup_total_insert_eq. apply (grown_direct E); done || lia.
  - destruct (Z.ltb_spec (bn - NDIRECT) NINDIRECT); [|rewrite MAXFILE_val, NDIRECT_val, NINDIRECT_val in *; lia].
    fold (ind ip). destruct (Z.eqb_spec (ind ip) 0) as [Ei|Ei].
    + rewrite (bind_Ok _ _ _ _ _ _ _ Hr2). case_decide as Hr0.
      * subst r. cbn [Z.eqb]. destruct Hres as [Hall Ht2]. exists 0, c2, f2, v, bl, (itab s). split_and!; try done; [lia|].
        rewrite Hi, <- H0. by apply grown_id.
      * destruct Hres as (Hrr & Hu & _ & Ht2). destruct (Z.eqb_spec r 0); [done|]. rewrite bind_modip. cbn [with_fy itab]. rewrite Hi.
        destruct (grown_newind E S v v ip bn r 0 Hl Hm Hf Ei Hbn Hrr Hu) as [(Hf1 & Hm1 & Ei1 & Hfa) _].
        set (s1 := put_itab _ _).
        destruct (bmap_ind_run E S _ (logged r (logged (BBLOCK r S) bl)) c2 s1 (set_addr NDIRECT r ip) bn Hl Hm1 Hf1) as (r' & c3 & f3 & v3 & bl3 & Hr3 & Hh3 & Ht3 & Hl3 & Hg3); try done; try lia.
        { by apply (quiet_held c c2). }
        rewrite Ei1 in Hr3. rewrite Hr3. exists r', c3, f3, v3, bl3, (<[i := set_addr NDIRECT r ip]> (itab s)). split; [reflexivity|]. split; [congruence|].
        split; [intros j Hj; by rewrite lookup_total_insert_ne|]. split; [done|]. split; [lia|].
        rewrite lookup_total_insert_eq. by apply (grown_newind E S v v3 ip bn r r').
    + destruct (bmap_ind_run E S v bl c s ip bn Hl Hm Hf Ei ltac:(lia) H0 Hsb Hq ltac:(lia) ltac:(lia) Ht)
        as (r' & c3 & f3 & v3 & bl3 & Hr3 & Hh3 & Ht3 & Hl3 & Hg3).
      rewrite Hr3. exists r', c3, f3, v3, bl3, (itab s). split_and!; try done; [lia|]. by rewrite Hi.
Qed.

(** bmap does not change what the file holds. *)
Lemma grown_fbyte E S v v' ip ip' bn r x : layout E S -> file_ok v S ip -> 0 <= bn < MAXFILE ->
  grown S v v' ip ip' bn r -> 0 <= x < MAXFILE * BSIZE -> fbyte v' ip' x = fbyte v ip x.
Proof.
  intros Hl Hf Hbn G Hx. pose proof (nmeta_pos E S Hl).
  assert (0 <= x / BSIZE < MAXFILE) as Hb by (rewrite MAXFILE_val, BSIZE_val in *; zlia).
  assert (forall b, 0 <= b < MAXFILE -> faddr v ip b <> 0 -> v' (faddr v ip b) = v (faddr v ip b)) as Hsame.
  { intros b Hb' Hn. apply (gr_data _ _ _ _ _ _ _ G); [by apply Hf|].
    destruct (decide (ind ip = 0)) as [->|Hi]; [done|]. by apply (fo_ind _ _ _ Hf Hi). }
  unfold fbyte. destruct (decide (x / BSIZE = bn)) as [E'|Hne].
  - rewrite E', (gr_this _ _ _ _ _ _ _ G). destruct (gr_new _ _ _ _ _ _ _ G) as [E2|[E2 Hz]].
    + rewrite E2. destruct (Z.eqb_spec r 0); [done|]. rewrite <- E2. rewrite Hsame; [done..|]. by rewrite E2.
    + rewrite E2. cbn [Z.eqb]. destruct (r =? 0); [done|]. apply Hz. rewrite BSIZE_val. zlia.
  - rewrite (gr_other _ _ _ _ _ _ _ G) by done. destruct (Z.eqb_spec (faddr v ip (x / BSIZE)) 0); [done|]. by rewrite Hsame.
Qed.

(** Storing bytes in a block of the file. *)
Definition poke (addr o : Z) (bs : list Z) (v : Z -> block) : Z -> block := <[addr := put_bytes (v addr) o bs]> v.

Lemma poke_ok E S v ip addr o bs : layout E S -> file_ok v S ip -> data_block v S addr -> addr <> ind ip ->
  (forall b, faddr (poke addr o bs v) ip b = faddr v ip b) /\ file_ok (poke addr o bs v) S ip /\
  (forall x, 0 <= x < sb_size S -> used (poke addr o bs v) S x = used v S x).
Proof.
  intros Hl Hf Ha Hi. pose proof (nmeta_pos E S Hl).
  assert (forall b, faddr (poke addr o bs v) ip b = faddr v ip b) as Hfa.
  { intros b. apply (faddr_frame v _ S); [done|]. intros _. unfold poke. by rewrite fn_lookup_insert_ne. }
  assert (forall x, 0 <= x < sb_size S -> used (poke addr o bs v) S x = used v S x) as Hu.
  { intros x Hx. unfold used, poke. destruct (BBLOCK_spec E S x Hl Hx) as (_ & R & _). destruct Ha.
    by rewrite fn_lookup_insert_ne by lia. }
  assert (forall x, data_block v S x -> data_block (poke addr o bs v) S x) as Hd.
  { intros x [H1 H2]. split; [done|]. rewrite Hu; [done|lia]. }
  split; [done|]. split; [|done]. split.
  - apply Hf.
  - intros b Hb. rewrite Hfa. intros Hn. by apply Hd, Hf.
  - intros Hn. destruct (fo_ind _ _ _ Hf Hn) as [H1 H2]. split; [by apply Hd|]. intros b Hb. rewrite Hfa. by apply H2.
  - intros a b Hx Hy. rewrite !Hfa. by apply Hf.
Qed.

Lemma poke_fbyte E S v ip off bs x : layout E S -> file_ok v S ip -> 0 <= off < MAXFILE * BSIZE ->
  Z.of_nat (length bs) <= BSIZE - off mod BSIZE -> faddr v ip (off / BSIZE) <> 0 ->
  0 <= x < MAXFILE * BSIZE ->
  fbyte (poke (faddr v ip (off / BSIZE)) (off mod BSIZE) bs v) ip x =
  if decide (off <= x < off + Z.of_nat (length bs)) then u8 (nth (Z.to_nat (x - off)) bs 0) else fbyte v ip x.
Proof.
  intros Hl Hf Ho Hn Ha Hx.
  assert (0 <= off / BSIZE < MAXFILE /\ 0 <= x / BSIZE < MAXFILE) as [Hb Hbx] by (rewrite MAXFILE_val, BSIZE_val in *; zlia).
  pose proof (fo_data _ _ _ Hf _ Hb Ha) as Hd.
  assert (faddr v ip (off / BSIZE) <> ind ip) as Hi.
  { destruct (decide (ind ip = 0)) as [->|Hi]; [done|]. by apply (fo_ind _ _ _ Hf Hi). }
  destruct (poke_ok E S v ip (faddr v ip (off / BSIZE)) (off mod BSIZE) bs Hl Hf Hd Hi) as (Hfa & _ & _).
  unfold fbyte at 1. rewrite !Hfa. destruct (decide (off / BSIZE = x / BSIZE)) as [Eb|Eb].
  - rewrite <- Eb. destruct (Z.eqb_spec (faddr v ip (off / BSIZE)) 0); [done|]. unfold poke. rewrite fn_lookup_insert.
    assert (x mod BSIZE = off mod BSIZE + (x - off)) as Em by (rewrite BSIZE_val in *; zlia).
    case_decide as Hc.
    + rewrite Em. replace (x - off) with (Z.of_nat (Z.to_nat (x - off))) at 1 by lia.
      rewrite mget_put_bytes_in; [done|lia].
    + rewrite mget_put_bytes_out by (rewrite Em; lia).
      unfold fbyte. rewrite <- Eb. by destruct (Z.eqb_spec (faddr v ip (off / BSIZE)) 0).
  - rewrite decide_False by (rewrite BSIZE_val in *; zlia). unfold fbyte.
    destruct (Z.eqb_spec (faddr v ip (x / BSIZE)) 0) as [|Hnx]; [done|]. unfold poke. rewrite fn_lookup_insert_ne; [done|].
    intros E'. apply Eb. by apply (fo_inj _ _ _ Hf).
Qed.

(** *** readi *)

Definition with_fm (s : fs K) (f : fsys K) (m : pmem) : fs K :=
  Fs f (sb s) (itab s) m (cur_pid s) (cur_root s) (cur_cwd s).

(** The destination of a read of [n] bytes: a kernel buffer, or user memory of the process. *)
Definition dest_ok (root : Z) (fl : list Z) (T : gmap (list Z) Z) (L : gmap Z Z) (m : pmem) (dst : option Z) (n : Z) : Prop :=
  match dst with
  | None => True
  | Some va => 0 <= va /\ va + n < 2 ^ 64 /\ user_own L /\ as_inv m fl root T L
  end.

Lemma either_copyout_run fl T L dst bs n c s : dest_ok (cur_root s) fl T L (mm s) dst n -> 
  let w := sink (uaddr PTE_WU L) (mm s) dst bs in
  either_copyout dst bs c s = Ok (if fst w then 0 else -1) c (with_fm s (fy s) (snd w)) /\
  dest_ok (cur_root s) fl T L (snd w) dst n.
Proof.
  intros Hd. destruct dst as [va|]; cbn [sink either_copyout]; [|by destruct s].
  destruct Hd as (H0 & Hn & Hu & Hi). rewrite bind_get.
  destruct (copyout_loop_run (length bs) c (mm s) fl (cur_root s) T L va bs Hi Hu H0 ltac:(lia)) as [Hr Hi'].
  unfold zoom. cbn [lget lput mm_lens]. unfold copyout. rewrite Hr. by split.
Qed.

Lemma dest_shift root fl T L m dst n k : dest_ok root fl T L m dst n -> 0 <= k <= n ->
  dest_ok root fl T L m (shift dst k) (n - k) /\
  (match dst with Some va => Some (u64 (va + k)) | None => None end) = shift dst k.
Proof.
  destruct dst as [va|]; [|done]. cbn. intros (H0 & Hn & Hu & Hi) Hk. rewrite u64_small by lia.
  split; [|done]. split_and!; try done; lia.
Qed.

(** Nothing left to read. *)
Lemma sink_none E v bl c s ip fl T L dst off n tot acc : n <= tot <= n -> txn E (fy s) v bl ∅ ∅ ->
  let rest := fslice v ip off (Z.to_nat (n - tot)) in
  let w := sink (uaddr PTE_WU L) (mm s) dst rest in
  exists c' f bs, retM (tot, acc) c s = Ok (if fst w then n else -1, bs) c' (with_fm s f (snd w)) /\
    held c' = held c /\ txn E f v bl ∅ ∅ /\ (fst w = true -> bs = acc ++ rest) /\
    dest_ok (cur_root s) fl T L (snd w) None 0.
Proof.
  intros Ht Htx. replace (n - tot) with 0 by lia. change (Z.to_nat 0) with 0%nat. cbn [fslice]. cbv zeta.
  assert (sink (uaddr PTE_WU L) (mm s) dst [] = (true, mm s)) as -> by (destruct dst, (mm s); done). cbn [fst snd].
  exists c, (fy s), acc. replace tot with n by lia. split; [by destruct s|]. split; [done|]. split; [done|]. split; [|done].
  intros _. by rewrite app_nil_r.
Qed.

Lemma readi_loop_run fuel : forall E S v bl c s i ip fl T L dst off n tot acc,
  file_ok v S ip -> full v ip -> itab s !!! i = ip -> quiet c -> (length bl < bc_nbuf)%nat ->
  txn E (fy s) v bl ∅ ∅ -> dest_ok (cur_root s) fl T L (mm s) dst (n - tot) ->
  0 <= tot <= n -> n < 2 ^ 32 -> n - tot <= Z.of_nat fuel -> 0 <= off -> off + (n - tot) <= i_size ip ->
  let rest := fslice v ip off (Z.to_nat (n - tot)) in
  let w := sink (uaddr PTE_WU L) (mm s) dst rest in
  exists c' f bs, readi_loop fuel i dst off n tot acc c s = Ok (if fst w then n else -1, bs) c' (with_fm s f (snd w)) /\
    held c' = held c /\ txn E f v bl ∅ ∅ /\ (fst w = true -> bs = acc ++ rest) /\
    dest_ok (cur_root s) fl T L (snd w) None 0.
Proof.
  induction fuel as [|fuel IH]; intros E S v bl c s i ip fl T L dst off n tot acc Hf Hfu Hi Hq Hnb Ht Hd Htot Hn Hfuel H0 Hoff;
    cbn [readi_loop]; destruct (Z.ltb_spec tot n) as [Hlt|Hge];
[lia|by (apply (sink_none E v bl); [lia|])| |by (apply (sink_none E v bl); [lia|])].
  destruct Hfu as [Hsz Hfull].
  assert (0 <= off / BSIZE < MAXFILE /\ off / BSIZE * BSIZE < i_size ip) as [Hbn Hbs]
    by (rewrite MAXFILE_val, BSIZE_val in *; zlia).
  pose proof (Hfull _ (proj1 Hbn) Hbs) as Ha.
  destruct (bmap_hit E S v bl ∅ c s i _ ip Hf Hi Hq Hnb Hbn Ha ltac:(set_solver) Ht) as (c1 & f1 & Hr1 & Hh1 & Ht1).
  rewrite (bind_Ok _ _ _ _ _ _ _ Hr1). destruct (Z.eqb_spec (faddr v ip (off / BSIZE)) 0); [done|].
  rewrite bind_getip. cbn [with_fy itab]. rewrite Hi, (fo_dev _ _ _ Hf).
  match goal with |- context [bindM (bread ROOTDEV ?x) (fun bp => bindM (bdata bp) (@?k bp))] =>
    destruct (t_read k E v bl ∅ ∅ c1 (with_fy s f1) x Ht1 (quiet_held c c1 Hh1 Hq) (lookup_empty _) ltac:(rewrite map_size_empty; lia))
      as (b & f2 & Hk & Ht2); fold (with_fy s f1); rewrite Hk; clear Hk end.
  cbv beta zeta. rewrite with_fy_twice. set (m := Z.min (n - tot) (BSIZE - off mod BSIZE)).
  assert (0 < m <= n - tot /\ m <= BSIZE - off mod BSIZE) as [Hm Hm'] by (unfold m; rewrite BSIZE_val; zlia).
  rewrite <- (fslice_block v ip (Z.to_nat m) off H0 ltac:(lia) Ha).
  set (bs := fslice v ip off (Z.to_nat m)).
  assert (Z.of_nat (length bs) = m) as Hlen by (unfold bs; rewrite fslice_length; lia).
  destruct (either_copyout_run fl T L dst bs (n - tot) c1 (with_fy s f2) Hd) as [Hco Hd2]. cbn [with_fy mm cur_root fy] in Hco, Hd2.
  fold (with_fy s f2) in Hco. rewrite (bind_Ok _ _ _ _ _ _ _ Hco).
  assert (fslice v ip off (Z.to_nat (n - tot)) = bs ++ fslice v ip (off + m) (Z.to_nat (n - tot - m))) as Hsplit.
  { unfold bs. replace (Z.to_nat (n - tot)) with (Z.to_nat m + Z.to_nat (n - tot - m))%nat by lia.
    rewrite fslice_app. do 2 f_equal. lia. }
  rewrite Hsplit, sink_app, Hlen.
  destruct (t_brelse E v bl _ ∅ c1 (with_fm (with_fy s f2) f2 (snd (sink (uaddr PTE_WU L) (mm s) dst bs))) _ b Ht2
    (quiet_held c c1 Hh1 Hq) ltac:(by rewrite lookup_insert_eq) ltac:(set_solver)) as (c3 & f3 & Hr3 & Hh3 & Ht3).
  rewrite delete_insert_eq, delete_empty in Ht3.
  destruct (fst (sink (uaddr PTE_WU L) (mm s) dst bs)) eqn:Ew; cbn [Z.eqb Pos.eqb].
  - rewrite (bind_Ok _ _ _ _ _ _ _ Hr3). destruct (dest_shift _ _ _ _ _ _ _ m Hd2 ltac:(lia)) as [Hd3 ->].
    assert (u32 (off + m) = off + m /\ u32 (tot + m) = tot + m) as [-> ->]
      by (rewrite MAXFILE_val, BSIZE_val in Hsz; rewrite !u32_small; lia).
    replace (n - tot - m) with (n - (tot + m)) in * by lia.
    destruct (IH E S v bl c3 (with_fm s f3 (snd (sink (uaddr PTE_WU L) (mm s) dst bs))) i ip fl T L (shift dst m) (off + m) n (tot + m) (acc ++ bs) Hf (conj Hsz Hfull) Hi
      (quiet_held c c3 ltac:(congruence) Hq) Hnb Ht3 Hd3 ltac:(lia) Hn ltac:(lia) ltac:(lia) ltac:(lia))
      as (c4 & f4 & bs4 & Hr4 & Hh4 & Ht4 & Hb4 & _).
    exists c4, f4, bs4. split; [exact Hr4|]. split; [congruence|]. split; [done|]. split; [|done].
    intros Hw. rewrite (Hb4 Hw). by rewrite app_assoc.
  - rewrite (bind_Ok _ _ _ _ _ _ _ Hr3). exists c3, f3, acc. rewrite Ew. split; [done|]. split; [congruence|]. done.
Qed.
End FsFile.
