(* ===== verification/FsWrite.v ===== *)
(** Writing files (kernel/fs.c: writei, iupdate) and reading them back.

    The loop of writei moves what lies in one block at a time, allocating blocks
    as it goes; [written] is its effect on the file as a sequence of bytes. *)
From stdpp Require Import functions.
From S2P Require Import Prelude Machine CString Kalloc Vm PageTable UserMem UserCopy Sleeplock BlockCache Log Fs FsBlocks FsFile.
Local Open Scope Z_scope.

(** [bs] was stored from offset [off] on, and nothing else changed in the file or in
    blocks that belong to others. *)
Record written (S : superblock) (v v' : Z -> block) (ip ip' : inode) (off : Z) (bs : list Z) : Prop := {
  wr_same : ip' = Inode (i_dev ip) (i_inum ip) (i_ref ip) (i_lock ip) (i_valid ip) (i_type ip) (i_major ip)
                        (i_minor ip) (i_nlink ip) (i_size ip) (i_addrs ip');
  wr_ok : file_ok v' S ip';
  wr_meta : meta_used v' S;
  wr_bytes : forall x, 0 <= x < MAXFILE * BSIZE ->
    fbyte v' ip' x = if decide (off <= x < off + Z.of_nat (length bs)) then u8 (nth (Z.to_nat (x - off)) bs 0)
                     else fbyte v ip x;
  wr_keep : forall b, 0 <= b < MAXFILE -> faddr v ip b <> 0 -> faddr v' ip' b <> 0;
  wr_new : forall b, 0 <= b < MAXFILE -> off / BSIZE <= b -> b * BSIZE < off + Z.of_nat (length bs) -> faddr v' ip' b <> 0;
  wr_data : forall x, data_block v S x -> data_block v' S x /\ (outside v ip x -> outside v' ip' x /\ v' x = v x);
  wr_low : forall x, x < sb_bmapstart S -> v' x = v x;
}.

Lemma written_nil S v ip off : file_ok v S ip -> meta_used v S -> 0 <= off -> off mod BSIZE = 0 \/ faddr v ip (off / BSIZE) <> 0 ->
  written S v v ip ip off [].
Proof.
  intros Hf Hm H0 Hoff. split; try done.
  - by destruct ip.
  - intros x Hx. by rewrite decide_False by (cbn; lia).
  - intros b Hb H1 H2. cbn in H2. destruct Hoff as [Ho|Ho]; [rewrite BSIZE_val in *; zlia|].
    assert (b = off / BSIZE) as -> by (rewrite BSIZE_val in *; zlia). done.
Qed.

(** One turn: bmap, then the bytes of this block. *)
Lemma written_turn E S v v1 ip ip1 off r bs : layout E S -> file_ok v S ip -> 0 <= off < MAXFILE * BSIZE ->
  grown S v v1 ip ip1 (off / BSIZE) r -> r <> 0 -> 0 < Z.of_nat (length bs) <= BSIZE - off mod BSIZE ->
  written S v (poke r (off mod BSIZE) bs v1) ip ip1 off bs.
Proof.
  intros Hl Hf Ho G Hr Hn. pose proof (nmeta_pos E S Hl).
  assert (0 <= off / BSIZE < MAXFILE) as Hb by (rewrite MAXFILE_val, BSIZE_val in *; zlia).
  pose proof (gr_this _ _ _ _ _ _ _ G) as Er. pose proof (gr_ok _ _ _ _ _ _ _ G) as Hf1.
  assert (faddr v1 ip1 (off / BSIZE) <> 0) as Ha by congruence.
  pose proof (fo_data _ _ _ Hf1 _ Hb Ha) as Hd. rewrite Er in Hd.
  assert (r <> ind ip1) as Hi.
  { destruct (decide (ind ip1 = 0)) as [->|Hi]; [done|]. rewrite <- Er. by apply (fo_ind _ _ _ Hf1 Hi). }
  destruct (poke_ok E S v1 ip1 r (off mod BSIZE) bs Hl Hf1 Hd Hi) as (Hfa & Hok & Hu). split.
  - apply G.
  - done.
  - intros x Hx. rewrite Hu by (destruct Hl; lia). by apply G.
  - intros x Hx. rewrite <- Er. rewrite (poke_fbyte E S) by (done || lia).
    case_decide; [done|]. by apply (grown_fbyte E S v v1 ip ip1 (off / BSIZE) r).
  - intros b Hb' Hn'. rewrite Hfa. destruct (decide (b = off / BSIZE)) as [->|Hne]; [done|].
    by rewrite (gr_other _ _ _ _ _ _ _ G).
  - intros b Hb' H1 H2. rewrite Hfa. assert (b = off / BSIZE) as -> by (rewrite BSIZE_val in *; zlia). done.
  - intros x Hx. destruct (gr_data _ _ _ _ _ _ _ G x Hx) as [H1 H2]. split.
    + split; [apply H1|]. rewrite Hu by (destruct H1; lia). apply H1.
    + intros Hout. destruct (gr_out _ _ _ _ _ _ _ G x Hx Hout) as [O1 O2]. split.
      * split; [done|]. intros b Hb'. rewrite Hfa. by apply O2.
      * unfold poke. rewrite fn_lookup_insert_ne; [by apply H2, Hout|]. rewrite <- Er. by apply O2.
  - intros x Hx. unfold poke. rewrite fn_lookup_insert_ne; [by apply (gr_low _ _ _ _ _ _ _ G)|]. destruct Hd, Hl as [? ? ? ? Hbm]. rewrite BPB_val in Hbm. zlia.
Qed.

Lemma written_trans S v v1 v2 ip ip1 ip2 off bs1 bs2 : 0 <= off ->
  off + Z.of_nat (length bs1) + Z.of_nat (length bs2) <= MAXFILE * BSIZE ->
  written S v v1 ip ip1 off bs1 -> written S v1 v2 ip1 ip2 (off + Z.of_nat (length bs1)) bs2 ->
  written S v v2 ip ip2 off (bs1 ++ bs2).
Proof.
  intros H0 Hlen W1 W2. pose proof (wr_same _ _ _ _ _ _ _ W1) as E1. pose proof (wr_same _ _ _ _ _ _ _ W2) as E2. split.
  - rewrite E2. rewrite E1. done.
  - apply W2.
  - apply W2.
  - intros x Hx. rewrite (wr_bytes _ _ _ _ _ _ _ W2) by done. rewrite length_app.
    case_decide as Hc.
    + rewrite decide_True by lia. f_equal. rewrite app_nth2 by lia. f_equal. lia.
    + rewrite (wr_bytes _ _ _ _ _ _ _ W1) by done. case_decide as Hc'.
      * rewrite decide_True by lia. by rewrite app_nth1 by lia.
      * by rewrite decide_False by lia.
  - intros b Hb Hn. by apply (wr_keep _ _ _ _ _ _ _ W2), (wr_keep _ _ _ _ _ _ _ W1).
  - intros b Hb H1 H2. rewrite length_app in H2.
    destruct (decide (b * BSIZE < off + Z.of_nat (length bs1))) as [Hc|Hc]; [by apply (wr_keep _ _ _ _ _ _ _ W2), (wr_new _ _ _ _ _ _ _ W1)|].
    apply (wr_new _ _ _ _ _ _ _ W2); [done| |lia]. rewrite BSIZE_val in *. zlia.
  - intros x Hx. destruct (wr_data _ _ _ _ _ _ _ W1 x Hx) as [D1 F1]. destruct (wr_data _ _ _ _ _ _ _ W2 x D1) as [D2 F2].
    split; [done|]. intros Ho. destruct (F1 Ho) as [O1 V1]. destruct (F2 O1) as [O2 V2]. split; [done|congruence].
  - intros x Hx. rewrite (wr_low _ _ _ _ _ _ _ W2 x Hx). by apply (wr_low _ _ _ _ _ _ _ W1).
Qed.

(** ** The inode on disk *)

(** The disk holds a copy of the fields of [ip] at its inode number. *)
Definition disk_inode (v : Z -> block) (S : superblock) (ip : inode) : Prop :=
  let d := v (IBLOCK (i_inum ip) S) in
  let o := dip (i_inum ip) in
  di_type d o = i_type ip /\ di_major d o = i_major ip /\ di_minor d o = i_minor ip /\ di_nlink d o = i_nlink ip /\
  di_size d o = i_size ip /\ forall k, 0 <= k <= NDIRECT -> di_addr d o k = arr (i_addrs ip) k.

(** The fields fit the width they have on disk. *)
Definition inode_fits (ip : inode) : Prop :=
  s16 (i_type ip) = i_type ip /\ s16 (i_major ip) = i_major ip /\ s16 (i_minor ip) = i_minor ip /\
  s16 (i_nlink ip) = i_nlink ip /\ 0 <= i_size ip < 2 ^ 32 /\
  forall k, 0 <= k <= NDIRECT -> 0 <= arr (i_addrs ip) k < 2 ^ 32.

Lemma addrs_to_out n : forall k i a o d x, 0 <= i -> x + Z.of_nat k <= o + 12 + 4 * i \/ o + 12 + 4 * (i + Z.of_nat n) <= x ->
  loadn k (addrs_to n i a o d) x = loadn k d x.
Proof.
  induction n as [|n IH]; intros k i a o d x Hi Hx; cbn [addrs_to]; [done|].
  rewrite IH by lia. apply loadn_storen_out. lia.
Qed.

Lemma addrs_to_in n : forall i a o d j, 0 <= i -> i <= j < i + Z.of_nat n -> 0 <= arr a j < 2 ^ 32 ->
  di_addr (addrs_to n i a o d) o j = arr a j.
Proof.
  induction n as [|n IH]; intros i a o d j Hi Hj Ha; cbn [addrs_to]; [lia|].
  destruct (decide (j = i)) as [->|Hne]; [|apply IH; done || lia]. unfold di_addr.
  rewrite addrs_to_out by lia. rewrite loadn_storen_eq. by apply Z.mod_small.
Qed.

Lemma addrs_from_get n : forall i d o a j, 0 <= i ->
  arr (addrs_from n i d o a) j = if decide (i <= j < i + Z.of_nat n) then di_addr d o j else arr a j.
Proof.
  induction n as [|n IH]; intros i d o a j Hi; cbn [addrs_from]; [by rewrite decide_False by lia|].
  rewrite IH by lia. rewrite arr_insert. repeat case_decide; subst; done || lia.
Qed.

Lemma s16_loadn x : s16 (x mod 256 ^ Z.of_nat 2) = s16 x.
Proof. unfold s16. change (256 ^ Z.of_nat 2) with (2 ^ 16). by rewrite Z.mod_mod. Qed.

(** iupdate and ilock are inverse: what dinode_store puts in the block reads back
    as the inode, and the other inodes of the block keep their bytes. *)
Lemma dinode_store_load ip d : inode_fits ip ->
  let d' := dinode_store ip d in
  let o := dip (i_inum ip) in
  (di_type d' o = i_type ip /\ di_major d' o = i_major ip /\ di_minor d' o = i_minor ip /\ di_nlink d' o = i_nlink ip /\
   di_size d' o = i_size ip /\ forall k, 0 <= k <= NDIRECT -> di_addr d' o k = arr (i_addrs ip) k) /\
  forall n x, x + Z.of_nat n <= o \/ o + 64 <= x -> loadn n d' x = loadn n d x.
Proof.
  intros (F1 & F2 & F3 & F4 & F5 & F6) d' o. unfold d', dinode_store. fold o.
  assert (Z.of_nat NADDRS = 13) as EN by done.
  split; [split_and!|].
  - unfold di_type. rewrite addrs_to_out by lia. do 4 rewrite loadn_storen_out by lia. by rewrite loadn_storen_eq, s16_loadn.
  - unfold di_major. rewrite addrs_to_out by lia. do 3 rewrite loadn_storen_out by lia. by rewrite loadn_storen_eq, s16_loadn.
  - unfold di_minor. rewrite addrs_to_out by lia. do 2 rewrite loadn_storen_out by lia. by rewrite loadn_storen_eq, s16_loadn.
  - unfold di_nlink. rewrite addrs_to_out by lia. rewrite loadn_storen_out by lia. by rewrite loadn_storen_eq, s16_loadn.
  - unfold di_size. rewrite addrs_to_out by lia. rewrite loadn_storen_eq. by apply Z.mod_small.
  - intros k Hk. apply addrs_to_in; [done| |by apply F6]. rewrite NDIRECT_val in Hk. lia.
  - intros n x Hx. rewrite addrs_to_out by lia. by do 5 rewrite loadn_storen_out by lia.
Qed.

Lemma IBLOCK_spec E S n : layout E S -> 0 <= n < sb_ninodes S ->
  IBLOCK n S = n / IPB + sb_inodestart S /\ sb_inodestart S <= IBLOCK n S < sb_bmapstart S /\ loggable E (IBLOCK n S).
Proof.
  intros [Hs Hst Hl Hi Hb] Hr. unfold loggable. rewrite IPB_val, BPB_val in *.
  assert (IBLOCK n S = n / 16 + sb_inodestart S) as ->.
  { unfold IBLOCK. rewrite IPB_val. apply u32_small. zlia. }
  zlia.
Qed.

Section FsWrite.
Context {K : Type} `{BC : BlockCache K} `{KI : KernelImage}.

(** The [n] bytes at a source, read from the kernel or from user memory. *)
Definition source_is (root : Z) (m : pmem) (src : Z + list Z) (bs : list Z) : Prop :=
  match src with
  | inr l => exists l', l = bs ++ l'
  | inl va => 0 <= va /\ va + Z.of_nat (length bs) < 2 ^ 64 /\ exists fl T L, user_own L /\ as_inv m fl root T L /\
      read_user (pm_mem m) (uaddr PTE_U L) va (length bs) = (true, bs)
  end.

Lemma read_user_split m tr a : forall va b ok bs, read_user m tr va (a + b) = (ok, bs) -> ok = true ->
  read_user m tr va a = (true, take a bs) /\ read_user m tr (va + Z.of_nat a) b = (true, drop a bs).
Proof.
  induction a as [|a IH]; intros va b ok bs; cbn [read_user Nat.add].
  - intros H ->. rewrite Z.add_0_r. by rewrite take_0, drop_0.
  - destruct (tr va); [|by intros [= <- <-]]. destruct (read_user m tr (va + 1) (a + b)) as [ok' bs'] eqn:Er.
    intros [= <- <-] ->. destruct (IH _ _ _ _ Er eq_refl) as [H1 H2]. rewrite H1. cbn [take drop]. split; [done|].
    by replace (va + Z.of_nat (S a)) with (va + 1 + Z.of_nat a) by lia.
Qed.

Lemma either_copyin_run c (s : fs K) src bs1 bs2 : source_is (cur_root s) (mm s) src (bs1 ++ bs2) ->
  either_copyin src (Z.of_nat (length bs1)) c s = Ok (0, bs1) c s /\
  source_is (cur_root s) (mm s) (advance src (Z.of_nat (length bs1))) bs2.
Proof.
  destruct src as [va|l]; cbn [source_is either_copyin advance].
  - intros (H0 & Hva & fl & T & L & Hu & Hi & Hr). rewrite length_app in Hr, Hva.
    destruct (read_user_split _ _ _ _ _ _ _ Hr eq_refl) as [R1 R2].
    rewrite take_app_length in R1. rewrite drop_app_length in R2.
    rewrite bind_get. unfold zoom, copyin. cbn [lget lput mm_lens].
    rewrite (copyin_loop_run _ c (mm s) fl (cur_root s) T L va _ [] Hi Hu H0) by lia.
    rewrite Nat2Z.id, R1. split; [by destruct s|]. rewrite u64_small by lia. split; [lia|]. split; [lia|]. by exists fl, T, L.
  - intros (l' & ->). rewrite Nat2Z.id, <- app_assoc, take_app_length, drop_app_length. split; [done|]. by exists l'.
Qed.

(** How many blocks a write of [n] bytes at [off] touches. *)
Definition turns (off n : Z) : Z := (off mod BSIZE + n + BSIZE - 1) / BSIZE.

Lemma turns_step off n m : 0 <= off -> 0 < n -> m = Z.min n (BSIZE - off mod BSIZE) ->
  n - m = 0 \/ turns (off + m) (n - m) = turns off n - 1.
Proof.
  intros H0 Hn ->. unfold turns. rewrite BSIZE_val. 
  destruct (Z.le_gt_cases n (1024 - off mod 1024)); [left; lia|right]. rewrite Z.min_r by lia. zlia.
Qed.

(** [full] up to the point the loop has reached. *)
Definition nohole (v : Z -> block) (ip : inode) (sz : Z) : Prop :=
  forall b, 0 <= b < MAXFILE -> b * BSIZE < sz -> faddr v ip b <> 0.

Lemma writei_loop_run fuel : forall E S v bl c s i ip src bs off n tot,
  layout E S -> meta_used v S -> file_ok v S ip -> itab s !!! i = ip -> sb s = S -> quiet c ->
  txn E (fy s) v bl ∅ ∅ -> source_is (cur_root s) (mm s) src bs -> Z.of_nat (length bs) = n - tot ->
  0 <= tot <= n -> n <= MAXFILE * BSIZE -> n - tot <= Z.of_nat fuel ->
  0 <= off -> off + (n - tot) <= MAXFILE * BSIZE -> nohole v ip off ->
  Z.of_nat (length bl) + 6 * turns off (n - tot) <= log_cap E ->
  (length bl + Z.to_nat (6 * turns off (n - tot)) <= bc_nbuf)%nat ->
  exists k c' f v' bl' t', (k <= length bs)%nat /\
    writei_loop fuel i src off n tot c s = Ok (tot + Z.of_nat k, off + Z.of_nat k) c' (with_fi s f t') /\ held c' = held c /\
    (forall j, j <> i -> t' !!! j = itab s !!! j) /\ txn E f v' bl' ∅ ∅ /\
    Z.of_nat (length bl') <= Z.of_nat (length bl) + 6 * turns off (n - tot) /\
    written S v v' ip (t' !!! i) off (take k bs) /\
    ((k < length bs)%nat -> (off + Z.of_nat k) mod BSIZE = 0 /\ forall x, 0 <= x < sb_size S -> used v' S x = true).
Proof.
  induction fuel as [|fuel IH]; intros E S v bl c s i ip src bs off n tot Hl Hm Hf Hi Hsb Hq Ht Hsrc Hlen Htot Hn Hfuel H0 Hoff Hnh Hcap Hnb;
    cbn [writei_loop]; destruct (Z.ltb_spec tot n) as [Hlt|Hge]; [lia| | |].
  1,3: exists 0%nat, c, (fy s), v, bl, (itab s); rewrite !Z.add_0_r; split_and!; try done; [lia|by destruct s| |rewrite Hi|lia];
    [unfold turns; rewrite BSIZE_val; zlia|]; rewrite take_0; apply written_nil; try done;
    destruct (decide (off mod BSIZE = 0)) as [|Hne]; [by left|right]; apply Hnh; rewrite MAXFILE_val, BSIZE_val in *; zlia.
  assert (0 <= off / BSIZE < MAXFILE) as Hb by (rewrite MAXFILE_val, BSIZE_val in *; zlia).
  assert (1 <= turns off (n - tot)) as Hturn by (unfold turns; rewrite BSIZE_val; zlia).
  destruct (bmap_run E S v bl c s i ip (off / BSIZE) Hl Hm Hf Hi Hsb Hq ltac:(lia) ltac:(lia) Hb Ht)
    as (r & c1 & f1 & v1 & bl1 & t1 & Hr1 & Hh1 & Hj1 & Ht1 & Hl1 & G).
  rewrite (bind_Ok _ _ _ _ _ _ _ Hr1).
  destruct (Z.eqb_spec r 0) as [->|Hr].
  { pose proof (gr_this _ _ _ _ _ _ _ G) as Eth.
    assert (off mod BSIZE = 0) as Hal.
    { destruct (decide (off mod BSIZE = 0)) as [|Hne]; [done|]. exfalso.
      assert (faddr v ip (off / BSIZE) <> 0) as Hx by (apply Hnh; rewrite MAXFILE_val, BSIZE_val in *; zlia).
      destruct (gr_new _ _ _ _ _ _ _ G) as [|[? _]]; congruence. }
    exists 0%nat, c1, f1, v1, bl1, t1. rewrite !Z.add_0_r. split_and!; try done; [lia|lia| |by intros _; split; [|apply (gr_full _ _ _ _ _ _ _ G)]]. rewrite take_0.
    split.
    - apply G.
    - apply G.
    - apply G.
    - intros x Hx. rewrite decide_False by (cbn; lia). by apply (grown_fbyte E S v v1 ip _ (off / BSIZE) 0).
    - intros b Hb' Hne. destruct (decide (b = off / BSIZE)) as [->|Hd].
      + exfalso. destruct (gr_new _ _ _ _ _ _ _ G) as [|[? _]]; congruence.
      + by rewrite (gr_other _ _ _ _ _ _ _ G).
    - intros b Hb' G1 G2. cbn in G2. rewrite BSIZE_val in *. zlia.
    - intros x Hx. destruct (gr_data _ _ _ _ _ _ _ G x Hx) as [D1 D2]. split; [done|]. intros Ho.
      split; [by apply G|]. by apply D2, Ho.
    - apply G. }
  set (s1 := with_fi s f1 t1). rewrite bind_getip. cbn [itab s1 with_fi].
  pose proof (gr_ok _ _ _ _ _ _ _ G) as Hf1. rewrite (fo_dev _ _ _ Hf1).
  destruct (t_bread E v1 bl1 ∅ ∅ c1 s1 r Ht1 (quiet_held _ _ Hh1 Hq) (lookup_empty _) ltac:(rewrite map_size_empty; lia)) as (b & f2 & Hr2 & Ht2).
  rewrite (bind_Ok _ _ _ _ _ _ _ Hr2). cbv zeta. set (m := Z.min (n - tot) (BSIZE - off mod BSIZE)).
  assert (0 < m <= n - tot /\ m <= BSIZE - off mod BSIZE) as [Hm1 Hm2] by (unfold m; rewrite BSIZE_val; zlia).
  set (bs1 := take (Z.to_nat m) bs). set (bs2 := drop (Z.to_nat m) bs).
  assert (Z.of_nat (length bs1) = m) as Hlb by (unfold bs1; rewrite length_take; lia).
  assert (bs = bs1 ++ bs2) as Hbs by (unfold bs1, bs2; by rewrite take_drop).
  rewrite Hbs in Hsrc. destruct (either_copyin_run c1 (with_fy s1 f2) src bs1 bs2 Hsrc) as [Hci Hsrc2].
  rewrite Hlb in Hci, Hsrc2. rewrite (bind_Ok _ _ _ _ _ _ _ Hci). cbn [fst snd].
  rewrite (bind_Ok _ _ _ _ _ _ _ (t_data E v1 bl1 _ ∅ c1 (with_fy s1 f2) r b Ht2 ltac:(by rewrite lookup_insert_eq))).
  destruct (fo_data _ _ _ Hf1 (off / BSIZE) Hb) as [Hrd _]; [rewrite (gr_this _ _ _ _ _ _ _ G); done|].
  rewrite (gr_this _ _ _ _ _ _ _ G) in Hrd.
  destruct (t_finish E v1 bl1 ∅ c1 (with_fy s1 f2) r b (put_bytes (v1 r) (off mod BSIZE) bs1) Ht2 (quiet_held _ _ Hh1 Hq)
    (lookup_empty _) (data_loggable E S r Hl Hrd) ltac:(lia)) as (c3 & f3 & Hr3 & Hh3 & Ht3).
  rewrite with_fy_twice in Hr3.
  assert (forall (k : M (fs K) (Z * Z)), (set_bdata b (put_bytes (v1 r) (off mod BSIZE) bs1) ;;! logw b ;;! brelse b ;;! k) c1 (with_fy s1 f2)
    = k c3 (with_fy s1 f3)) as Hk.
  { intros k. rewrite <- (bind_Ok _ (fun _ => k) _ _ _ _ _ Hr3). unfold bindM.
    destruct (set_bdata _ _ _ _); try done. by destruct (logw _ _ _). }
  change (0 =? -1) with false. cbv iota. rewrite Hk. clear Hk.
  fold (poke r (off mod BSIZE) bs1 v1) in Ht3. set (v3 := poke r (off mod BSIZE) bs1 v1) in *.
  pose proof (written_turn E S v v1 ip (t1 !!! i) off r bs1 Hl Hf ltac:(lia) G Hr ltac:(lia)) as W1. fold v3 in W1.
  assert (u32 (off + m) = off + m /\ u32 (tot + m) = tot + m) as [-> ->]
    by (rewrite MAXFILE_val, BSIZE_val in *; rewrite !u32_small; lia).
  pose proof (logged_length r bl1).
  destruct (turns_step off (n - tot) m H0 ltac:(lia) eq_refl) as [Hend|Hst].
  - assert (bs2 = []) as Hb2 by (apply nil_length_inv; unfold bs2; rewrite length_drop; lia).
    assert (writei_loop fuel i (advance src m) (off + m) n (tot + m) c3 (with_fy s1 f3) = Ok (tot + m, off + m) c3 (with_fy s1 f3)) as ->.
    { destruct fuel; cbn [writei_loop]; destruct (Z.ltb_spec (tot + m) n); done || lia. }
    exists (length bs1), c3, f3, v3, (logged r bl1), t1. rewrite Hlb. split_and!; try done; [rewrite Hbs, length_app; lia|congruence|lia| |].
    + rewrite Hbs, take_app_length. exact W1.
    + rewrite Hbs, Hb2, app_nil_r. lia.
  - replace (n - tot - m) with (n - (tot + m)) in Hst by lia.
    destruct (IH E S v3 (logged r bl1) c3 (with_fy s1 f3) i (t1 !!! i) (advance src m) bs2 (off + m) n (tot + m) Hl (wr_meta _ _ _ _ _ _ _ W1) (wr_ok _ _ _ _ _ _ _ W1))
      as (k & c4 & f4 & v4 & bl4 & t4 & Hk & Hr4 & Hh4 & Hj4 & Ht4 & Hl4 & W4 & Hall); try done; try lia.
    + apply (quiet_held c c3); [congruence|done].
    + unfold bs2. rewrite length_drop. lia.
    + intros x Hx Hxs. destruct (decide (x * BSIZE < off)) as [Hc|Hc].
      * by apply (wr_keep _ _ _ _ _ _ _ W1), Hnh.
      * apply (wr_new _ _ _ _ _ _ _ W1); [done|rewrite BSIZE_val in *; zlia|lia].
    + exists (length bs1 + k)%nat, c4, f4, v4, bl4, t4.
      split; [rewrite Hbs, length_app; lia|]. split; [rewrite Hr4; do 2 f_equal; lia|]. split; [congruence|].
      split; [intros j Hj; rewrite Hj4 by done; by apply Hj1|]. split; [done|]. split; [lia|].
      split; [|intros Hlt'; rewrite Nat2Z.inj_add, Z.add_assoc, Hlb; apply Hall; rewrite Hbs, length_app in Hlt'; lia].
      rewrite Hbs, take_app_add. apply (written_trans S v v3 v4 ip (t1 !!! i)); try done.
      * rewrite length_take. unfold bs2. rewrite length_drop. lia.
      * by rewrite Hlb.
Qed.

Lemma iupdate_run E S v bl c s i ip : layout E S -> itab s !!! i = ip -> sb s = S -> i_dev ip = ROOTDEV ->
  0 <= i_inum ip < sb_ninodes S -> quiet c -> (length bl < bc_nbuf)%nat -> Z.of_nat (length bl) < log_cap E ->
  txn E (fy s) v bl ∅ ∅ ->
  exists c' f, iupdate i c s = Ok tt c' (with_fy s f) /\ held c' = held c /\
    txn E f (<[IBLOCK (i_inum ip) S := dinode_store ip (v (IBLOCK (i_inum ip) S))]> v) (logged (IBLOCK (i_inum ip) S) bl) ∅ ∅.
Proof.
  intros Hl Hi Hsb Hdev Hin Hq Hnb Hcap Ht. unfold iupdate. rewrite bind_getip, Hi, bind_gets, Hsb, Hdev.
  destruct (IBLOCK_spec E S _ Hl Hin) as (_ & _ & Hlg).
  match goal with |- context [bindM (bread ROOTDEV ?x) (fun bp => bindM (bdata bp) (@?k bp))] =>
    destruct (t_read k E v bl ∅ ∅ c s x Ht Hq (lookup_empty _) ltac:(rewrite map_size_empty; lia)) as (b & f & -> & Ht') end.
  apply (t_finish E v bl ∅ c (with_fy s f) _ b _ Ht' Hq (lookup_empty _) Hlg Hcap).
Qed.

(** A change of a block below the bitmap does not touch any file. *)
Lemma low_block E S v ip x d : layout E S -> file_ok v S ip -> x < sb_bmapstart S ->
  let v' := <[x := d]> v in
  (forall b, faddr v' ip b = faddr v ip b) /\ file_ok v' S ip /\ (forall y, fbyte v' ip y = fbyte v ip y \/ ~ 0 <= y < MAXFILE * BSIZE) /\
  (forall y, 0 <= y < sb_size S -> used v' S y = used v S y).
Proof.
  intros Hl Hf Hx v'. pose proof (nmeta_pos E S Hl).
  assert (sb_bmapstart S < nmeta S) as Hbm by (destruct Hl as [? ? ? ? Hb]; rewrite BPB_val in Hb; zlia).
  assert (forall y, 0 <= y < sb_size S -> used v' S y = used v S y) as Hu.
  { intros y Hy. unfold used, v'. destruct (BBLOCK_spec E S y Hl Hy) as (_ & R & _). by rewrite fn_lookup_insert_ne by lia. }
  assert (forall y, data_block v S y -> data_block v' S y /\ v' y = v y) as Hd.
  { intros y [H1 H2]. split; [split; [done|]; rewrite Hu; [done|lia]|]. unfold v'. by rewrite fn_lookup_insert_ne by lia. }
  assert (forall b, faddr v' ip b = faddr v ip b) as Hfa.
  { intros b. apply (faddr_frame v _ S); [done|]. intros Hi. by apply Hd, (fo_ind _ _ _ Hf). }
  split_and!; [done|by apply (file_ok_frame v)| |done].
  intros y. destruct (decide (0 <= y < MAXFILE * BSIZE)) as [Hy|]; [left|by right]. unfold fbyte. rewrite Hfa.
  destruct (Z.eqb_spec (faddr v ip (y / BSIZE)) 0); [done|]. f_equal. apply Hd, Hf; [|done].
  rewrite MAXFILE_val, BSIZE_val in *. zlia.
Qed.

Lemma file_ok_fields v S ip ip' : file_ok v S ip -> i_dev ip' = i_dev ip -> i_addrs ip' = i_addrs ip -> file_ok v S ip'.
Proof. intros [H1 H2 H3 H4] Ed Ea. split; unfold faddr, ind in *; rewrite ?Ea, ?Ed; done. Qed.

Lemma file_ok_addrs E v S ip k : layout E S -> file_ok v S ip -> 0 <= k <= NDIRECT -> 0 <= arr (i_addrs ip) k < 2 ^ 32.
Proof.
  intros Hl Hf Hk. pose proof (nmeta_pos E S Hl). destruct (decide (arr (i_addrs ip) k = 0)) as [->|Hn]; [lia|].
  assert (data_block v S (arr (i_addrs ip) k)) as [Hd _].
  { destruct (decide (k = NDIRECT)) as [->|Hne]; [by apply (fo_ind _ _ _ Hf)|].
    pose proof (fo_data _ _ _ Hf k ltac:(rewrite MAXFILE_val, NDIRECT_val in *; lia)) as H1. unfold faddr in H1.
    destruct (Z.ltb_spec k NDIRECT); [by apply H1|lia]. }
  destruct Hl. lia.
Qed.

(** The short fields of an inode fit the disk; the other fields do in a file that is ok. *)
Definition shorts_fit (ip : inode) : Prop :=
  s16 (i_type ip) = i_type ip /\ s16 (i_major ip) = i_major ip /\ s16 (i_minor ip) = i_minor ip /\ s16 (i_nlink ip) = i_nlink ip.

(** What a call of writei that stored the first [k] bytes of [bs] leaves behind. *)
Record wrote_file (S : superblock) (v v' : Z -> block) (ip ip' : inode) (off : Z) (bs : list Z) (k : nat) : Prop := {
  wf_size : i_size ip' = Z.max (i_size ip) (off + Z.of_nat k);
  wf_same : i_dev ip' = i_dev ip /\ i_inum ip' = i_inum ip /\ i_ref ip' = i_ref ip /\ i_lock ip' = i_lock ip /\
    i_valid ip' = i_valid ip /\ i_type ip' = i_type ip /\ i_nlink ip' = i_nlink ip;
  wf_ok : file_ok v' S ip' /\ meta_used v' S /\ full v' ip';
  wf_disk : disk_inode v' S ip';
  wf_bytes : forall x, 0 <= x < MAXFILE * BSIZE ->
    fbyte v' ip' x = if decide (off <= x < off + Z.of_nat k) then u8 (nth (Z.to_nat (x - off)) bs 0) else fbyte v ip x;
  wf_others : forall x, data_block v S x -> outside v ip x -> v' x = v x;
  wf_low : forall x, x < sb_bmapstart S -> x <> IBLOCK (i_inum ip) S -> v' x = v x;
  wf_short : (k < length bs)%nat -> (off + Z.of_nat k) mod BSIZE = 0 /\ forall x, 0 <= x < sb_size S -> used v' S x = true;
}.

(** The tail of writei: the new size, and the inode written back. *)
Lemma writei_tail E S v v1 ip ip1 off bs k bl c s i :
  layout E S -> file_ok v S ip -> full v ip -> 0 <= off <= i_size ip -> off + Z.of_nat (length bs) <= MAXFILE * BSIZE ->
  (k <= length bs)%nat -> shorts_fit ip -> 0 <= i_inum ip < sb_ninodes S ->
  written S v v1 ip ip1 off (take k bs) ->
  ((k < length bs)%nat -> (off + Z.of_nat k) mod BSIZE = 0 /\ forall x, 0 <= x < sb_size S -> used v1 S x = true) ->
  itab s !!! i = ip1 -> sb s = S -> quiet c -> (length bl < bc_nbuf)%nat -> Z.of_nat (length bl) < log_cap E ->
  txn E (fy s) v1 bl ∅ ∅ ->
  exists c' f v' bl' t', ((ip <-! getip i ;; if i_size ip <? off + Z.of_nat k then modip i (set_size (off + Z.of_nat k)) else retM tt) ;;!
      iupdate i ;;! retM (s32 (Z.of_nat k))) c s = Ok (Z.of_nat k) c' (with_fi s f t') /\ held c' = held c /\
    (forall j, j <> i -> t' !!! j = itab s !!! j) /\ txn E f v' bl' ∅ ∅ /\ (length bl' <= length bl + 1)%nat /\
    wrote_file S v v' ip (t' !!! i) off bs k.
Proof.
  intros Hl Hf [Hsz Hfu] Hoff Hend Hk Hsh Hin W Hall Hi Hsb Hq Hnb Hcap Ht.
  pose proof (wr_same _ _ _ _ _ _ _ W) as Es. pose proof (wr_ok _ _ _ _ _ _ _ W) as Hf1.
  set (ip2 := if i_size ip <? off + Z.of_nat k then set_size (off + Z.of_nat k) ip1 else ip1).
  set (t2 := if i_size ip <? off + Z.of_nat k then <[i := ip2]> (itab s) else itab s).
  assert (i_size ip1 = i_size ip) as Esz by by rewrite Es.
  assert (t2 !!! i = ip2 /\ forall j, j <> i -> t2 !!! j = itab s !!! j) as [Ht2 Htj].
  { unfold t2, ip2. destruct (_ <? _); [|done]. rewrite lookup_total_insert_eq. split; [done|]. intros j Hj. by rewrite lookup_total_insert_ne. }
  assert (i_addrs ip2 = i_addrs ip1 /\ i_dev ip2 = i_dev ip1 /\ i_inum ip2 = i_inum ip1) as (Ea & Ed & En) by (unfold ip2; by destruct (_ <? _)).
  assert (i_inum ip2 = i_inum ip) as En2 by (rewrite En, Es; done).
  assert (file_ok v1 S ip2) as Hf2 by by apply (file_ok_fields v1 S ip1).
  assert (i_size ip2 = Z.max (i_size ip) (off + Z.of_nat k)) as Esz2.
  { unfold ip2. destruct (Z.ltb_spec (i_size ip) (off + Z.of_nat k)); cbn [set_size i_size]; lia. }
  destruct (iupdate_run E S v1 bl c (put_itab t2 s) i ip2 Hl Ht2 Hsb (fo_dev _ _ _ Hf2) ltac:(rewrite En2; lia) Hq Hnb Hcap Ht)
    as (c' & f & Hr & Hh & Ht').
  rewrite En2 in Ht'. destruct (IBLOCK_spec E S _ Hl Hin) as (_ & Hib & _). set (v2 := <[_ := _]> v1) in Ht'.
  destruct (low_block E S v1 ip2 (IBLOCK (i_inum ip) S) (dinode_store ip2 (v1 (IBLOCK (i_inum ip) S))) Hl Hf2 ltac:(lia)) as (Hfa & Hf3 & Hfb & Hu).
  fold v2 in Hfa, Hf3, Hfb, Hu.
  exists c', f, v2, (logged (IBLOCK (i_inum ip) S) bl), t2. split; [|split; [done|split; [done|split; [done|split; [apply logged_length|]]]]].
  { assert (((ip <-! getip i ;; if i_size ip <? off + Z.of_nat k then modip i (set_size (off + Z.of_nat k)) else retM tt) : M (fs K) unit) c s = Ok tt c (put_itab t2 s)) as E1.
    { rewrite bind_getip, Hi, Esz. unfold t2, ip2. destruct (_ <? _); [rewrite modip_run, Hi; done|by destruct s]. }
    rewrite (bind_Ok _ _ _ _ _ _ _ E1), (bind_Ok _ _ _ _ _ _ _ Hr). unfold retM. f_equal.
    unfold s32. rewrite MAXFILE_val, BSIZE_val in Hend. rewrite Z.mod_small by lia. destruct (Z.ltb_spec (Z.of_nat k) (2 ^ 31)); lia. }
  rewrite Ht2. assert (length (take k bs) = k) as Hlk by (rewrite length_take; lia).
  assert (forall x, fbyte v1 ip2 x = fbyte v1 ip1 x) as Hfb2 by (intros x; unfold fbyte, faddr, ind; by rewrite Ea).
  split.
  - done.
  - unfold ip2. destruct (_ <? _); cbn [set_size i_dev i_inum i_ref i_lock i_valid i_type i_nlink]; by rewrite Es.
  - split; [done|]. split.
    + intros x Hx. rewrite Hu by (destruct Hl; lia). by apply (wr_meta _ _ _ _ _ _ _ W).
    + split; [rewrite Esz2; lia|]. intros b Hb Hbs. rewrite Esz2 in Hbs. rewrite Hfa.
      assert (0 <= b < MAXFILE) as Hbm by (rewrite MAXFILE_val, BSIZE_val in *; lia).
      assert (faddr v1 ip2 b = faddr v1 ip1 b) as -> by (unfold faddr, ind; by rewrite Ea).
      destruct (decide (b * BSIZE < i_size ip)) as [Hc|Hc]; [by apply (wr_keep _ _ _ _ _ _ _ W), Hfu|].
      apply (wr_new _ _ _ _ _ _ _ W); [done|rewrite BSIZE_val in *; zlia|rewrite Hlk; lia].
  - assert (inode_fits ip2) as Hfit.
    { destruct Hsh as (S1 & S2 & S3 & S4). unfold inode_fits.
      assert (i_type ip2 = i_type ip /\ i_major ip2 = i_major ip /\ i_minor ip2 = i_minor ip /\ i_nlink ip2 = i_nlink ip) as (-> & -> & -> & ->).
      { unfold ip2. destruct (_ <? _); cbn [set_size i_major i_minor i_type i_nlink]; by rewrite Es. }
      rewrite Esz2, MAXFILE_val, BSIZE_val in *.
      split_and!; [exact S1|exact S2|exact S3|exact S4|lia|lia|]. intros j Hj. by apply (file_ok_addrs E v1 S). }
    unfold disk_inode. rewrite En2. unfold v2. rewrite fn_lookup_insert.
    destruct (dinode_store_load ip2 (v1 (IBLOCK (i_inum ip) S)) Hfit) as [Hd _]. cbv zeta in Hd. rewrite En2 in Hd. exact Hd.
  - intros x Hx. destruct (Hfb x) as [->|]; [|done]. rewrite Hfb2, (wr_bytes _ _ _ _ _ _ _ W x Hx), Hlk.
    case_decide; [|done]. f_equal. rewrite <- (take_drop k bs) at 2. rewrite app_nth1 by lia. done.
  - intros x Hx Ho. unfold v2. rewrite fn_lookup_insert_ne; [by apply (wr_data _ _ _ _ _ _ _ W x Hx)|].
    destruct Hx as [Hx _], Hl as [? ? ? ? Hb]. rewrite BPB_val in Hb. zlia.
  - intros x Hx Hne. unfold v2. rewrite fn_lookup_insert_ne by done. by apply (wr_low _ _ _ _ _ _ _ W).
  - intros Hlt. destruct (Hall Hlt) as [? Ha]. split; [done|]. intros x Hx. rewrite Hu by done. by apply Ha.
Qed.

(** A file system call on inode slot [i]: the file system is laid out as mkfs does, the
    inode is a file with its blocks in order, and a transaction is open. *)
Record file_env (E : tenv) (S : superblock) (v : Z -> block) (bl : list Z) (c : ctx) (s : fs K) (i : nat) (ip : inode) : Prop := {
  fe_layout : layout E S;
  fe_meta : meta_used v S;
  fe_file : file_ok v S ip;
  fe_full : full v ip;
  fe_shorts : shorts_fit ip;
  fe_inum : 0 <= i_inum ip < sb_ninodes S;
  fe_slot : itab s !!! i = ip;
  fe_sb : sb s = S;
  fe_quiet : quiet c;
  fe_txn : txn E (fy s) v bl ∅ ∅;
}.

Lemma writei_run E S v bl c s i ip src bs off : file_env E S v bl c s i ip ->
  source_is (cur_root s) (mm s) src bs -> 0 <= off <= i_size ip -> off + Z.of_nat (length bs) <= MAXFILE * BSIZE ->
  Z.of_nat (length bl) + 6 * turns off (Z.of_nat (length bs)) + 1 <= log_cap E ->
  (length bl + Z.to_nat (6 * turns off (Z.of_nat (length bs))) < bc_nbuf)%nat ->
  exists k c' f v' bl' t', (k <= length bs)%nat /\
    writei i src off (Z.of_nat (length bs)) c s = Ok (Z.of_nat k) c' (with_fi s f t') /\ held c' = held c /\
    (forall j, j <> i -> t' !!! j = itab s !!! j) /\ txn E f v' bl' ∅ ∅ /\
    Z.of_nat (length bl') <= Z.of_nat (length bl) + 6 * turns off (Z.of_nat (length bs)) + 1 /\
    wrote_file S v v' ip (t' !!! i) off bs k.
Proof.
  intros [Hl Hm Hf Hfu Hsh Hin Hi Hsb Hq Ht] Hsrc Hoff Hend Hcap Hnb. pose proof Hfu as [Hsz Hfull].
  set (n := Z.of_nat (length bs)) in *. assert (n <= MAXFILE * BSIZE) as Hn by (unfold n in *; lia).
  unfold writei. rewrite bind_getip, Hi.
  assert (u32 (off + n) = off + n) as -> by (apply u32_small; rewrite MAXFILE_val, BSIZE_val in *; lia).
  destruct (Z.ltb_spec (i_size ip) off); [lia|]. destruct (Z.ltb_spec (off + n) off); [lia|]. cbn [orb].
  destruct (Z.ltb_spec (MAXFILE * BSIZE) (off + n)); [lia|].
  assert (nohole v ip off) as Hnh by (intros b Hb Hbo; apply Hfull; lia).
  assert (n - 0 = n) as En by lia.
  destruct (writei_loop_run (Z.to_nat n) E S v bl c s i ip src bs off n 0 Hl Hm Hf Hi Hsb Hq Ht Hsrc)
    as (k & c1 & f1 & v1 & bl1 & t1 & Hk & Hr1 & Hh1 & Hj1 & Ht1 & Hl1 & W & Hall); try (rewrite ?En; done || lia).
  rewrite (bind_Ok _ _ _ _ _ _ _ Hr1). cbn [fst snd]. rewrite En in Hl1.
  destruct (writei_tail E S v v1 ip (t1 !!! i) off bs k bl1 c1 (with_fi s f1 t1) i Hl Hf Hfu Hoff Hend Hk Hsh Hin W Hall eq_refl Hsb
    (quiet_held _ _ Hh1 Hq) ltac:(lia) ltac:(lia) Ht1) as (c2 & f2 & v2 & bl2 & t2 & Hr2 & Hh2 & Hj2 & Ht2 & Hl2 & Wf).
  exists k, c2, f2, v2, bl2, t2. rewrite Z.add_0_l. split; [done|]. split; [exact Hr2|]. split; [congruence|].
  split; [intros j Hj; rewrite Hj2 by done; by apply Hj1|]. split; [done|]. split; [lia|done].
Qed.

Lemma readi_run E S v bl c s i ip fl T L dst off n : file_env E S v bl c s i ip -> (length bl < bc_nbuf)%nat ->
  0 <= off <= i_size ip -> 0 <= n -> off + n < 2 ^ 32 -> dest_ok (cur_root s) fl T L (mm s) dst n ->
  let len := Z.min n (i_size ip - off) in
  let got := fslice v ip off (Z.to_nat len) in
  let w := sink (uaddr PTE_WU L) (mm s) dst got in
  exists c' f bs, readi i dst off n c s = Ok (if fst w then len else -1, bs) c' (with_fm s f (snd w)) /\
    held c' = held c /\ txn E f v bl ∅ ∅ /\ (fst w = true -> bs = got).
Proof.
  intros [Hl Hm Hf Hfu Hsh Hin Hi Hsb Hq Ht] Hnb Hoff Hn Hon Hd len got w. pose proof Hfu as [Hsz _].
  unfold readi. rewrite bind_getip, Hi. rewrite u32_small by lia.
  destruct (Z.ltb_spec (i_size ip) off); [lia|]. destruct (Z.ltb_spec (off + n) off); [lia|]. cbn [orb].
  assert ((if i_size ip <? off + n then i_size ip - off else n) = len) as ->.
  { unfold len. destruct (Z.ltb_spec (i_size ip) (off + n)); lia. }
  assert (dest_ok (cur_root s) fl T L (mm s) dst (len - 0)) as Hd'.
  { destruct dst; [|done]. cbn in *. destruct Hd as (? & ? & ? & ?). split_and!; try done. lia. }
  destruct (readi_loop_run (Z.to_nat len) E S v bl c s i ip fl T L dst off len 0 [] Hf Hfu Hi Hq Hnb Ht Hd')
    as (c' & f & bs & Hr & Hh & Ht' & Hb & _); try lia.
  rewrite Z.sub_0_r in Hr, Hb. fold got w in Hr, Hb. cbn [app] in Hb.
  rewrite (bind_Ok _ _ _ _ _ _ _ Hr). cbn [fst snd]. exists c', f, bs. split; [|done].
  unfold retM. do 2 f_equal. destruct (fst w); [|done]. unfold s32. rewrite MAXFILE_val, BSIZE_val in Hsz.
  rewrite Z.mod_small by lia. destruct (Z.ltb_spec len (2 ^ 31)); lia.
Qed.

(** C30: writei.  On a file with its blocks in order, with room in the log, writing [bs] at an offset no greater
    than the size returns the number of bytes stored: all of them, or those up to the end of a block, and then every
    block of the disk is in use.  The file then holds these bytes at that offset and its old bytes
    everywhere else; its size, blocks and the copy of the inode on disk are up to date; and no block of
    another file changes. *)
Theorem writei_correct E S v bl c s i ip src bs off : file_env E S v bl c s i ip ->
  source_is (cur_root s) (mm s) src bs -> 0 <= off <= i_size ip -> off + Z.of_nat (length bs) <= MAXFILE * BSIZE ->
  Z.of_nat (length bl) + 6 * turns off (Z.of_nat (length bs)) + 1 <= log_cap E ->
  (length bl + Z.to_nat (6 * turns off (Z.of_nat (length bs))) < bc_nbuf)%nat ->
  exists k c' f v' bl' t', (k <= length bs)%nat /\
    writei i src off (Z.of_nat (length bs)) c s = Ok (Z.of_nat k) c' (with_fi s f t') /\ held c' = held c /\
    (forall j, j <> i -> t' !!! j = itab s !!! j) /\ txn E f v' bl' ∅ ∅ /\
    wrote_file S v v' ip (t' !!! i) off bs k.
Proof.
  intros. edestruct writei_run as (k & c' & f & v' & bl' & t' & ? & ? & ? & ? & ? & ? & ?); try done.
  by exists k, c', f, v', bl', t'.
Qed.

(** readi.  On a file with its blocks in order, readi of [n] bytes at an offset no greater than the size
    stores exactly the bytes of the file from there, up to its end, at the destination in user memory,
    and returns how many; or it returns -1 when an address of the destination cannot be
    written.  No block changes. *)
Theorem readi_correct E S v bl c s i ip fl T L dst off n : file_env E S v bl c s i ip -> (length bl < bc_nbuf)%nat ->
  0 <= off <= i_size ip -> 0 <= n -> off + n < 2 ^ 32 ->
  0 <= dst -> dst + n < 2 ^ 64 -> user_own L -> as_inv (mm s) fl (cur_root s) T L ->
  let len := Z.min n (i_size ip - off) in
  let w := write_user (pm_mem (mm s)) (uaddr PTE_WU L) dst (fslice v ip off (Z.to_nat len)) in
  exists c' f bs, readi i (Some dst) off n c s =
      Ok (if fst w then len else -1, bs) c' (with_fm s f (PMem (snd w) (freelist (mm s)))) /\
    held c' = held c /\ txn E f v bl ∅ ∅.
Proof.
  intros Hfe Hnb Hoff Hn Hon Hd Hdn Hu Has.
  destruct (readi_run E S v bl c s i ip fl T L (Some dst) off n Hfe Hnb Hoff Hn Hon ltac:(done)) as (c' & f & bs & H1 & H2 & H3 & _).
  by exists c', f, bs.
Qed.

Lemma fslice_nth v ip n : forall off j, (j < n)%nat -> nth j (fslice v ip off n) 0 = fbyte v ip (off + Z.of_nat j).
Proof.
  induction n as [|n IH]; intros off j Hj; [lia|]. cbn [fslice]. destruct j as [|j]; cbn [nth]; [by rewrite Z.add_0_r|].
  rewrite IH by lia. f_equal. lia.
Qed.

(** C25: what was written is read back.  When writei returns the full count, a readi of as many bytes at the
    same offset into a kernel buffer returns them. *)
Theorem writei_readi_roundtrip E S v bl c s i ip src bs off c1 s1 : file_env E S v bl c s i ip ->
  source_is (cur_root s) (mm s) src bs -> 0 <= off <= i_size ip -> off + Z.of_nat (length bs) <= MAXFILE * BSIZE ->
  Z.of_nat (length bl) + 6 * turns off (Z.of_nat (length bs)) + 1 <= log_cap E ->
  (length bl + Z.to_nat (6 * turns off (Z.of_nat (length bs))) + 1 < bc_nbuf)%nat ->
  writei i src off (Z.of_nat (length bs)) c s = Ok (Z.of_nat (length bs)) c1 s1 ->
  exists c2 s2, readi i None off (Z.of_nat (length bs)) c1 s1 = Ok (Z.of_nat (length bs), map u8 bs) c2 s2.
Proof.
  intros Hfe Hsrc Hoff Hend Hcap Hnb Hw.
  destruct (writei_run E S v bl c s i ip src bs off Hfe Hsrc Hoff Hend Hcap ltac:(lia))
    as (k & c' & f & v' & bl' & t' & Hk & Hr & Hh & Hj & Ht & Hl & W).
  rewrite Hw in Hr. injection Hr as Ek <- ->. apply Nat2Z.inj in Ek. subst k.
  assert (0 <= turns off (Z.of_nat (length bs))) by (unfold turns; rewrite BSIZE_val; zlia).
  destruct (wf_ok _ _ _ _ _ _ _ _ W) as (Hf' & Hm' & Hfu'). destruct (wf_same _ _ _ _ _ _ _ _ W) as (_ & En & _ & _ & _ & Ety & Enl).
  assert (file_env E S v' bl' c1 (with_fi s f t') i (t' !!! i)) as Hfe'.
  { destruct Hfe. split; try done.
    - destruct (wf_disk _ _ _ _ _ _ _ _ W) as (D1 & D2 & D3 & D4 & _). unfold shorts_fit.
      rewrite <- D1, <- D2, <- D3, <- D4. unfold di_type, di_major, di_minor, di_nlink.
      assert (forall x, s16 (s16 x) = s16 x) as Hs by (intros x; unfold s16; repeat case_match; zlia). by rewrite !Hs.
    - by rewrite En.
    - by apply (quiet_held c). }
  pose proof (wf_size _ _ _ _ _ _ _ _ W) as Esz.
  destruct (readi_run E S v' bl' c1 (with_fi s f t') i (t' !!! i) [] ∅ ∅ None off (Z.of_nat (length bs)) Hfe') as (c2 & f2 & got & Hr & _ & _ & Hgot); try done; try lia.
  { rewrite MAXFILE_val, BSIZE_val in Hend. lia. }
  exists c2. eexists. rewrite Hr. cbn [sink fst]. rewrite Z.min_l by lia. rewrite Hgot by done. rewrite Z.min_l, Nat2Z.id by lia.
  do 2 f_equal. apply (nth_ext _ _ 0 0); rewrite fslice_length, ?length_map; [done|].
  intros j Hj'. rewrite fslice_nth by done. rewrite (wf_bytes _ _ _ _ _ _ _ _ W) by lia. rewrite decide_True by lia.
  replace (Z.to_nat (off + Z.of_nat j - off)) with j by lia. change 0 with (u8 0) at 2. by rewrite map_nth.
Qed.
End FsWrite.
