(* ===== verification/FsDir.v ===== *)
(** Directories and path names (kernel/fs.c: namecmp, dirlookup, dirlink,
    skipelem, namex).

    A directory is a file of 16-byte entries; [dir_find] is the first one in use
    with a given name.  The theorems show that dirlookup computes it, that
    dirlink adds one binding and leaves the others as they are, and that the
    path parser splits a path at its slashes. *)
From stdpp Require Import functions.
From S2P Require Import Prelude Machine CString Kalloc Vm PageTable UserMem UserCopy Sleeplock BlockCache Log Fs FsBlocks FsFile FsWrite.
Local Open Scope Z_scope.

(** ** Names *)

(** A name as strncmp and strncpy see it: at most [n] bytes, up to the first NUL. *)
Fixpoint cname (n : nat) (p : list Z) : list Z :=
  match n with
  | O => []
  | S k => if hd 0 p =? 0 then [] else hd 0 p :: cname k (tl p)
  end.

Lemma strncmp_list_zero n : forall p q, strncmp_list n p q = 0 <-> cname n p = cname n q.
Proof.
  induction n as [|n IH]; intros p q; cbn [strncmp_list cname]; [done|].
  destruct (Z.eqb_spec (hd 0 p) 0) as [Ep|Ep], (Z.eqb_spec (hd 0 q) 0) as [Eq|Eq]; cbn [negb andb].
  - rewrite Ep, Eq. done.
  - split; [lia|done].
  - destruct (Z.eqb_spec (hd 0 p) (hd 0 q)); [congruence|]. split; [lia|done].
  - destruct (Z.eqb_spec (hd 0 p) (hd 0 q)) as [E|E].
    + rewrite IH, E. split; [by intros ->|by intros [= ?]].
    + split; [lia|by intros [= ? _]].
Qed.

Lemma hd_replicate k : hd 0 (replicate k 0) = 0.
Proof. by destruct k. Qed.

Lemma cname_strncpy n : forall t, cname n (strncpy_list n t) = cname n t.
Proof.
  induction n as [|n IH]; intros t; cbn [cname strncpy_list]; [done|].
  destruct (Z.eqb_spec (hd 0 t) 0) as [E|E]; cbn [replicate hd tl]; [done|].
  destruct (Z.eqb_spec (hd 0 t) 0); [done|]. by rewrite IH.
Qed.

Lemma strncpy_list_length n : forall t, length (strncpy_list n t) = n.
Proof.
  induction n as [|n IH]; intros t; cbn [strncpy_list]; [done|].
  destruct (_ =? _); [apply length_replicate|]. cbn. by rewrite IH.
Qed.

Lemma cname_u8 n : forall p, Forall (fun b => 0 <= b < 256) p -> cname n (map u8 p) = cname n p.
Proof.
  intros p Hp. f_equal. induction Hp as [|b p Hb _ IH]; cbn; [done|]. by rewrite IH, u8_small.
Qed.

Lemma strncpy_bytes n : forall name, Forall (fun b => 0 <= b < 256) name ->
  map u8 (strncpy_list n name) = strncpy_list n name.
Proof.
  induction n as [|n IH]; intros name Hb; cbn [strncpy_list map]; [done|].
  destruct (hd 0 name =? 0).
  - cbn [replicate map]. f_equal. clear. induction n as [|n IH]; cbn; [done|]. by rewrite IH.
  - cbn [map]. rewrite IH by (destruct Hb; done). rewrite u8_small; [done|]. by destruct Hb; cbn.
Qed.

(** strncmp of string.c on two strings in memory is the comparison of their bytes. *)
Lemma strncmp_list_memory n : forall m p q,
  strncmp_loop n m p q = strncmp_list n (bytes_of m p n) (bytes_of m q n).
Proof.
  induction n as [|n IH]; intros m p q; [done|]. rewrite !bytes_of_S. cbn [strncmp_loop strncmp_list hd tl].
  destruct (negb (mget m p =? 0) && (mget m p =? mget m q)); [apply IH|done].
Qed.

(** ** Directory contents *)

Definition nents (ip : inode) : nat := Z.to_nat (i_size ip / DIRENT).
Definition ent (v : Z -> block) (ip : inode) (k : nat) : list Z := fslice v ip (DIRENT * Z.of_nat k) (Z.to_nat DIRENT).

Definition ent_is (v : Z -> block) (ip : inode) (name : list Z) (k : nat) : bool :=
  negb (de_inum (ent v ip k) =? 0) && (namecmp name (de_name (ent v ip k)) =? 0).

(** The first entry with this name among [n] from [k] on. *)
Fixpoint find_from (v : Z -> block) (ip : inode) (name : list Z) (n k : nat) : option nat :=
  match n with
  | O => None
  | S n' => if ent_is v ip name k then Some k else find_from v ip name n' (S k)
  end.

(** The inode number a name is bound to, and the offset of the entry. *)
Definition dir_find (v : Z -> block) (ip : inode) (name : list Z) : option (Z * Z) :=
  match find_from v ip name (nents ip) 0 with
  | Some k => Some (de_inum (ent v ip k), DIRENT * Z.of_nat k)
  | None => None
  end.

Lemma find_from_spec v ip name n : forall k,
  match find_from v ip name n k with
  | Some j => (k <= j < k + n)%nat /\ ent_is v ip name j = true /\ forall x, (k <= x < j)%nat -> ent_is v ip name x = false
  | None => forall x, (k <= x < k + n)%nat -> ent_is v ip name x = false
  end.
Proof.
  induction n as [|n IH]; intros k; cbn [find_from]; [intros x Hx; lia|].
  destruct (ent_is v ip name k) eqn:E.
  - split_and!; try lia; try done.
  - specialize (IH (S k)). destruct (find_from v ip name n (S k)) as [j|].
    + destruct IH as (H1 & H2 & H3). split_and!; try lia. intros x Hx.
      destruct (decide (x = k)) as [->|]; [done|]. apply H3. lia.
    + intros x Hx. destruct (decide (x = k)) as [->|]; [done|]. apply IH. lia.
Qed.

Lemma find_from_ext v ip v' ip' name n : forall k,
  (forall x, (k <= x < k + n)%nat -> ent v' ip' x = ent v ip x) ->
  find_from v' ip' name n k = find_from v ip name n k.
Proof.
  induction n as [|n IH]; intros k H; cbn [find_from]; [done|].
  unfold ent_is. rewrite H by lia. rewrite IH; [done|]. intros x Hx. apply H. lia.
Qed.

Lemma find_from_app v ip name n m : forall k,
  find_from v ip name (n + m) k =
  match find_from v ip name n k with Some j => Some j | None => find_from v ip name m (k + n)%nat end.
Proof.
  induction n as [|n IH]; intros k; cbn [find_from Nat.add]; [by rewrite Nat.add_0_r|].
  destruct (ent_is v ip name k); [done|]. rewrite IH. by replace (S k + n)%nat with (k + S n)%nat by lia.
Qed.

Lemma DIRENT_val : DIRENT = 16.
Proof. done. Qed.
Lemma DIRSIZ_val : DIRSIZ = 14.
Proof. done. Qed.

Section FsDir.
Context {K : Type} `{BC : BlockCache K} `{KI : KernelImage}.

(** A call on a directory: its entries fill it. *)
Record dir_env (E : tenv) (S : superblock) (v : Z -> block) (bl : list Z) (c : ctx) (s : fs K) (i : nat) (ip : inode) : Prop := {
  de_file : file_env E S v bl c s i ip;
  de_dir : i_type ip = T_DIR;
  de_size : i_size ip mod DIRENT = 0;
  de_room : (length bl < bc_nbuf)%nat;
}.

Lemma file_env_step E S v bl c c' s f i ip : file_env E S v bl c s i ip -> held c' = held c -> txn E f v bl ∅ ∅ ->
  file_env E S v bl c' (with_fy s f) i ip.
Proof. intros [] Hh Ht. split; try done. by apply (quiet_held c). Qed.

Lemma dir_env_step E S v bl c c' s f i ip : dir_env E S v bl c s i ip -> held c' = held c -> txn E f v bl ∅ ∅ ->
  dir_env E S v bl c' (with_fy s f) i ip.
Proof. intros [] Hh Ht. split; try done. by apply (file_env_step E S v bl c). Qed.

Lemma nents_size ip : 0 <= i_size ip -> i_size ip mod DIRENT = 0 -> i_size ip = DIRENT * Z.of_nat (nents ip).
Proof. unfold nents. rewrite DIRENT_val. intros. rewrite Z2Nat.id; zlia. Qed.

(** Reading an entry. *)
Lemma readi_ent E S v bl c s i ip k : dir_env E S v bl c s i ip -> (k < nents ip)%nat ->
  exists c' f, readi i None (DIRENT * Z.of_nat k) DIRENT c s = Ok (DIRENT, ent v ip k) c' (with_fy s f) /\
    held c' = held c /\ txn E f v bl ∅ ∅.
Proof.
  intros [Hfe Ht Hs Hr] Hk. pose proof (fe_full _ _ _ _ _ _ _ _ Hfe) as [Hsz _]. pose proof (nents_size ip ltac:(lia) Hs) as En.
  rewrite MAXFILE_val, BSIZE_val in Hsz. rewrite DIRENT_val in *.
  destruct (readi_run E S v bl c s i ip [] ∅ ∅ None (16 * Z.of_nat k) 16 Hfe Hr) as (c' & f & bs & Hrun & Hh & Htx & Hb); try done; try lia.
  exists c', f. rewrite Hrun. rewrite Hb by done. cbn [sink fst snd]. rewrite Z.min_l by lia. split; [by destruct s|done].
Qed.

Lemma dirlookup_loop_run fuel : forall E S v bl c s i ip name k,
  dir_env E S v bl c s i ip -> (k <= nents ip)%nat -> (nents ip - k <= fuel)%nat ->
  exists c' f, held c' = held c /\ txn E f v bl ∅ ∅ /\
    dirlookup_loop fuel i name (DIRENT * Z.of_nat k) c s =
    match find_from v ip name (nents ip - k) k with
    | Some j => (r <-! iget ROOTDEV (de_inum (ent v ip j)) ;; retM (Some (r, DIRENT * Z.of_nat j))) c' (with_fy s f)
    | None => Ok None c' (with_fy s f)
    end.
Proof.
  induction fuel as [|fuel IH]; intros E S v bl c s i ip name k Hd Hk Hfu; cbn [dirlookup_loop]; rewrite bind_getip;
    pose proof (fe_slot _ _ _ _ _ _ _ _ (de_file _ _ _ _ _ _ _ _ Hd)) as ->;
    pose proof (fe_full _ _ _ _ _ _ _ _ (de_file _ _ _ _ _ _ _ _ Hd)) as [Hsz _];
    pose proof (nents_size ip ltac:(lia) (de_size _ _ _ _ _ _ _ _ Hd)) as En;
    pose proof (fe_txn _ _ _ _ _ _ _ _ (de_file _ _ _ _ _ _ _ _ Hd)) as Htx.
  { assert (k = nents ip) as -> by lia. destruct (Z.ltb_spec (DIRENT * Z.of_nat (nents ip)) (i_size ip)); [lia|].
    rewrite Nat.sub_diag. exists c, (fy s). by rewrite with_fy_id. }
  destruct (Z.ltb_spec (DIRENT * Z.of_nat k) (i_size ip)) as [Hlt|Hge].
  2:{ assert (k = nents ip) as -> by (rewrite DIRENT_val in *; lia). rewrite Nat.sub_diag. exists c, (fy s). by rewrite with_fy_id. }
  assert (k < nents ip)%nat as Hkn by (rewrite DIRENT_val in *; lia).
  destruct (readi_ent E S v bl c s i ip k Hd Hkn) as (c1 & f1 & Hr1 & Hh1 & Ht1).
  rewrite (bind_Ok _ _ _ _ _ _ _ Hr1). cbn [fst snd]. rewrite Z.eqb_refl. cbn [negb].
  assert (u32 (DIRENT * Z.of_nat k + DIRENT) = DIRENT * Z.of_nat (Datatypes.S k)) as ->.
  { rewrite MAXFILE_val, BSIZE_val, DIRENT_val in *. rewrite u32_small; lia. }
  destruct (IH E S v bl c1 (with_fy s f1) i ip name (Datatypes.S k) (dir_env_step _ _ _ _ _ _ _ _ _ _ Hd Hh1 Ht1) ltac:(lia) ltac:(lia))
    as (c2 & f2 & Hh2 & Ht2 & Hr2).
  replace (nents ip - k)%nat with (Datatypes.S (nents ip - Datatypes.S k)) by lia. cbn [find_from]. unfold ent_is.
  destruct (de_inum (ent v ip k) =? 0); cbn [negb andb].
  { exists c2, f2. split; [congruence|]. split; [done|]. by rewrite Hr2. }
  destruct (namecmp name (de_name (ent v ip k)) =? 0).
  - exists c1, f1. split; [done|]. split; [done|].
    rewrite (fo_dev _ _ _ (fe_file _ _ _ _ _ _ _ _ (de_file _ _ _ _ _ _ _ _ Hd))). done.
  - exists c2, f2. split; [congruence|]. split; [done|]. by rewrite Hr2.
Qed.

Lemma dirlookup_run E S v bl c s i ip name : dir_env E S v bl c s i ip ->
  exists c' f, held c' = held c /\ txn E f v bl ∅ ∅ /\
    dirlookup i name c s =
    match dir_find v ip name with
    | Some (inum, off) => (r <-! iget ROOTDEV inum ;; retM (Some (r, off))) c' (with_fy s f)
    | None => Ok None c' (with_fy s f)
    end.
Proof.
  intros Hd. unfold dirlookup. rewrite bind_getip, (fe_slot _ _ _ _ _ _ _ _ (de_file _ _ _ _ _ _ _ _ Hd)).
  rewrite (de_dir _ _ _ _ _ _ _ _ Hd). rewrite Z.eqb_refl. cbn [negb].
  pose proof (fe_full _ _ _ _ _ _ _ _ (de_file _ _ _ _ _ _ _ _ Hd)) as [Hsz _].
  pose proof (nents_size ip ltac:(lia) (de_size _ _ _ _ _ _ _ _ Hd)) as En.
  destruct (dirlookup_loop_run (Z.to_nat (i_size ip)) E S v bl c s i ip name 0 Hd ltac:(lia)) as (c' & f & Hh & Ht & Hr).
  { rewrite DIRENT_val in En. lia. }
  exists c', f. split; [done|]. split; [done|]. rewrite Z.mul_0_r in Hr. rewrite Hr, Nat.sub_0_r. unfold dir_find.
  by destruct (find_from v ip name (nents ip) 0).
Qed.

(** The search of dirlink: the first free entry, or the end. *)
Fixpoint free_from (v : Z -> block) (ip : inode) (n k : nat) : nat :=
  match n with
  | O => k
  | S n' => if de_inum (ent v ip k) =? 0 then k else free_from v ip n' (S k)
  end.

Lemma free_from_spec v ip n : forall k,
  (k <= free_from v ip n k <= k + n)%nat /\
  ((free_from v ip n k < k + n)%nat -> de_inum (ent v ip (free_from v ip n k)) = 0).
Proof.
  induction n as [|n IH]; intros k; cbn [free_from]; [lia|].
  destruct (Z.eqb_spec (de_inum (ent v ip k)) 0) as [E|E]; [lia|]. destruct (IH (Datatypes.S k)) as [H1 H2].
  split; [lia|]. intros H. apply H2. lia.
Qed.

Lemma dirlink_loop_run fuel : forall E S v bl c s i ip k,
  dir_env E S v bl c s i ip -> (k <= nents ip)%nat -> (nents ip - k <= fuel)%nat ->
  exists c' f, held c' = held c /\ txn E f v bl ∅ ∅ /\
    dirlink_loop fuel i (DIRENT * Z.of_nat k) c s = Ok (DIRENT * Z.of_nat (free_from v ip (nents ip - k) k)) c' (with_fy s f).
Proof.
  induction fuel as [|fuel IH]; intros E S v bl c s i ip k Hd Hk Hfu; cbn [dirlink_loop]; rewrite bind_getip;
    pose proof (fe_slot _ _ _ _ _ _ _ _ (de_file _ _ _ _ _ _ _ _ Hd)) as ->;
    pose proof (fe_full _ _ _ _ _ _ _ _ (de_file _ _ _ _ _ _ _ _ Hd)) as [Hsz _];
    pose proof (nents_size ip ltac:(lia) (de_size _ _ _ _ _ _ _ _ Hd)) as En;
    pose proof (fe_txn _ _ _ _ _ _ _ _ (de_file _ _ _ _ _ _ _ _ Hd)) as Htx.
  { assert (k = nents ip) as -> by lia. destruct (Z.ltb_spec (DIRENT * Z.of_nat (nents ip)) (i_size ip)); [lia|].
    rewrite Nat.sub_diag. exists c, (fy s). by rewrite with_fy_id. }
  destruct (Z.ltb_spec (DIRENT * Z.of_nat k) (i_size ip)) as [Hlt|Hge].
  2:{ assert (k = nents ip) as -> by (rewrite DIRENT_val in *; lia). rewrite Nat.sub_diag. exists c, (fy s). by rewrite with_fy_id. }
  assert (k < nents ip)%nat as Hkn by (rewrite DIRENT_val in *; lia).
  destruct (readi_ent E S v bl c s i ip k Hd Hkn) as (c1 & f1 & Hr1 & Hh1 & Ht1).
  rewrite (bind_Ok _ _ _ _ _ _ _ Hr1). cbn [fst snd]. rewrite Z.eqb_refl. cbn [negb].
  replace (DIRENT * Z.of_nat k + DIRENT) with (DIRENT * Z.of_nat (Datatypes.S k)) by lia.
  destruct (IH E S v bl c1 (with_fy s f1) i ip (Datatypes.S k) (dir_env_step _ _ _ _ _ _ _ _ _ _ Hd Hh1 Ht1) ltac:(lia) ltac:(lia))
    as (c2 & f2 & Hh2 & Ht2 & Hr2).
  replace (nents ip - k)%nat with (Datatypes.S (nents ip - Datatypes.S k)) by lia. cbn [free_from].
  destruct (de_inum (ent v ip k) =? 0).
  - by exists c1, f1.
  - exists c2, f2. split; [congruence|]. split; [done|]. by rewrite Hr2.
Qed.

(** *** Adding a binding *)

Definition key (name : list Z) : list Z := cname (Z.to_nat DIRSIZ) name.

Lemma find_from_first v ip name n k : (k < n)%nat -> ent_is v ip name k = true ->
  (forall x, (x < k)%nat -> ent_is v ip name x = false) -> find_from v ip name n 0 = Some k.
Proof.
  intros Hk Ht Hf. pose proof (find_from_spec v ip name n 0) as H. destruct (find_from v ip name n 0) as [j|].
  - destruct H as (H1 & H2 & H3). f_equal. destruct (Nat.lt_trichotomy j k) as [L|[L|L]]; [|done|].
    + rewrite Hf in H2 by done. done.
    + rewrite H3 in Ht by lia. done.
  - rewrite H in Ht by lia. done.
Qed.

(** The new directory differs from the old one in entry [kf], which was free or past the end. *)
Section Bind.
Variables (v v' : Z -> block) (ip ip' : inode) (name : list Z) (inum : Z) (kf : nat).
Hypothesis Hnew : ent v' ip' kf = map u8 (dirent name inum).
Hypothesis Hold : forall x, (x < nents ip)%nat -> x <> kf -> ent v' ip' x = ent v ip x.
Hypothesis Hn : nents ip' = Nat.max (nents ip) (S kf).
Hypothesis Hkf : (kf <= nents ip)%nat.
Hypothesis Hfree : (kf < nents ip)%nat -> de_inum (ent v ip kf) = 0.
Hypothesis Hin : 0 < inum < 2 ^ 16.
Hypothesis Hb : Forall (fun b => 0 <= b < 256) name.

Lemma new_entry : de_inum (ent v' ip' kf) = inum /\
  forall name', (namecmp name' (de_name (ent v' ip' kf)) =? 0) = bool_decide (key name' = key name).
Proof.
  rewrite Hnew. unfold dirent. split.
  - unfold de_inum. cbn [map app nth]. rewrite !(u8_small (u8 _)) by apply u8_range. unfold u8. zlia.
  - intros name'. unfold de_name, dirent. cbn [map app drop].
    rewrite strncpy_bytes by done.
    unfold namecmp, key. rewrite <- (cname_strncpy (Z.to_nat DIRSIZ) name).
    pose proof (strncmp_list_zero (Z.to_nat DIRSIZ) name' (strncpy_list (Z.to_nat DIRSIZ) name)) as Hz.
    case_bool_decide as Hc; [apply Z.eqb_eq|apply Z.eqb_neq]; tauto.
Qed.

Lemma bind_found : dir_find v ip name = None -> dir_find v' ip' name = Some (inum, DIRENT * Z.of_nat kf).
Proof.
  intros Hnone. destruct new_entry as [Ei Ec]. unfold dir_find in *. rewrite (find_from_first v' ip' name _ kf).
  - by rewrite Ei.
  - rewrite Hn. lia.
  - unfold ent_is. rewrite Ei, Ec, bool_decide_true by done. destruct (Z.eqb_spec inum 0); [lia|done].
  - intros x Hx. pose proof (find_from_spec v ip name (nents ip) 0) as H. destruct (find_from v ip name (nents ip) 0); [done|].
    unfold ent_is. rewrite Hold by lia. apply H. lia.
Qed.

Lemma bind_others name' : key name' <> key name -> dir_find v' ip' name' = dir_find v ip name'.
Proof.
  intros Hne. destruct new_entry as [Ei Ec]. unfold dir_find.
  assert (ent_is v' ip' name' kf = false) as Hkf'. { unfold ent_is. rewrite Ec, bool_decide_false by done. apply andb_false_r. }
  assert (forall x, (x < nents ip)%nat -> x <> kf -> ent_is v' ip' name' x = ent_is v ip name' x) as Hsame.
  { intros x H1 H2. unfold ent_is. by rewrite Hold. }
  pose proof (find_from_spec v ip name' (nents ip) 0) as H. destruct (find_from v ip name' (nents ip) 0) as [j|].
  - destruct H as (H1 & H2 & H3). assert (j <> kf) as Hj.
    { intros ->. unfold ent_is in H2. rewrite Hfree in H2 by lia. done. }
    rewrite (find_from_first v' ip' name' _ j); [by rewrite Hold by lia|lia|by rewrite Hsame by lia|].
    intros x Hx. destruct (decide (x = kf)) as [->|]; [done|]. rewrite Hsame by lia. apply H3. lia.
  - pose proof (find_from_spec v' ip' name' (nents ip') 0) as H'. destruct (find_from v' ip' name' (nents ip') 0) as [j|]; [|done].
    destruct H' as (H1 & H2 & _). destruct (decide (j = kf)) as [->|]; [congruence|].
    rewrite Hsame, H in H2 by lia. done.
Qed.
End Bind.

Lemma fslice_ext v ip v' ip' n : forall off, (forall x, off <= x < off + Z.of_nat n -> fbyte v' ip' x = fbyte v ip x) ->
  fslice v' ip' off n = fslice v ip off n.
Proof.
  induction n as [|n IH]; intros off H; cbn [fslice]; [done|]. rewrite H by lia. f_equal. apply IH. intros x Hx. apply H. lia.
Qed.

Lemma fslice_written S v v' ip ip' off bs : wrote_file S v v' ip ip' off bs (length bs) -> 0 <= off ->
  off + Z.of_nat (length bs) <= MAXFILE * BSIZE -> fslice v' ip' off (length bs) = map u8 bs.
Proof.
  intros W H0 Hend. apply (nth_ext _ _ 0 0); rewrite fslice_length, ?length_map; [done|].
  intros j Hj. rewrite fslice_nth by done. rewrite (wf_bytes _ _ _ _ _ _ _ _ W) by lia. rewrite decide_True by lia.
  replace (Z.to_nat (off + Z.of_nat j - off)) with j by lia. change 0 with (u8 0) at 2. by rewrite map_nth.
Qed.

(** The bytes of a directory after writing entry [kf]. *)
Lemma entries_written S v v' ip ip' kf name inum : 
  wrote_file S v v' ip ip' (DIRENT * Z.of_nat kf) (dirent name inum) (length (dirent name inum)) ->
  0 <= i_size ip <= MAXFILE * BSIZE -> i_size ip mod DIRENT = 0 -> (kf <= nents ip)%nat -> DIRENT * (Z.of_nat kf + 1) <= MAXFILE * BSIZE ->
  ent v' ip' kf = map u8 (dirent name inum) /\
  (forall x, (x < nents ip)%nat -> x <> kf -> ent v' ip' x = ent v ip x) /\ nents ip' = Nat.max (nents ip) (Datatypes.S kf).
Proof.
  intros W Hsz Hmod Hkf Hend. assert (length (dirent name inum) = 16%nat) as Hl by (unfold dirent; rewrite length_app, strncpy_list_length; done).
  pose proof (nents_size ip ltac:(lia) Hmod) as En. rewrite MAXFILE_val, BSIZE_val in *. split_and!.
  - unfold ent. change (Z.to_nat DIRENT) with 16%nat. rewrite <- Hl. apply (fslice_written S v v' ip ip'); try done; rewrite DIRENT_val in *; [lia|].
    rewrite MAXFILE_val, BSIZE_val. lia.
  - intros x Hx Hne. unfold ent. apply fslice_ext. intros y Hy. change (Z.of_nat (Z.to_nat DIRENT)) with 16 in Hy. rewrite DIRENT_val in *.
    rewrite (wf_bytes _ _ _ _ _ _ _ _ W) by (rewrite MAXFILE_val, BSIZE_val; lia). rewrite Hl. rewrite decide_False by lia. done.
  - unfold nents at 1. rewrite (wf_size _ _ _ _ _ _ _ _ W), Hl, DIRENT_val in *. rewrite En.
    replace (Z.max _ _) with (Z.of_nat (Nat.max (nents ip) (Datatypes.S kf)) * 16) by lia. by rewrite Z.div_mul, Nat2Z.id.
Qed.

(** A write that stored nothing binds no name otherwise. *)
Lemma unwritten_find S v v' ip ip' off bs name : wrote_file S v v' ip ip' off bs 0 -> i_size ip <= MAXFILE * BSIZE -> 0 <= off <= i_size ip ->
  dir_find v' ip' name = dir_find v ip name.
Proof.
  intros W Hsz Hoff. assert (nents ip' = nents ip) as En by (unfold nents; rewrite (wf_size _ _ _ _ _ _ _ _ W); do 2 f_equal; lia).
  assert (forall x, (x < nents ip)%nat -> ent v' ip' x = ent v ip x) as He.
  { intros x Hx. unfold ent. apply fslice_ext. intros y Hy. rewrite (wf_bytes _ _ _ _ _ _ _ _ W); [by rewrite decide_False by lia|].
    unfold nents in Hx. rewrite DIRENT_val in *. change (Z.of_nat (Z.to_nat 16)) with 16 in Hy. zlia. }
  unfold dir_find. rewrite En, (find_from_ext v ip v' ip') by (intros; apply He; lia).
  pose proof (find_from_spec v ip name (nents ip) 0) as Hs. destruct (find_from v ip name (nents ip) 0) as [k|]; [|done]. by rewrite He by lia.
Qed.

Lemma free_from_none v ip n : forall k, free_from v ip n k = (k + n)%nat -> forall x, (k <= x < k + n)%nat -> de_inum (ent v ip x) <> 0.
Proof.
  induction n as [|n IH]; intros k H x Hx; [lia|]. cbn [free_from] in H. destruct (Z.eqb_spec (de_inum (ent v ip k)) 0) as [E|E]; [lia|].
  destruct (decide (x = k)) as [->|]; [done|]. apply (IH (Datatypes.S k)); lia.
Qed.

(** Every entry is in use, and the file has the largest size. *)
Definition dir_full (v : Z -> block) (ip : inode) : Prop :=
  (forall x, (x < nents ip)%nat -> de_inum (ent v ip x) <> 0) /\ i_size ip = MAXFILE * BSIZE.

Lemma dirlink_unbound E S v bl c s i ip name inum : dir_env E S v bl c s i ip ->
  dir_find v ip name = None -> 0 < inum < 2 ^ 16 -> Forall (fun b => 0 <= b < 256) name ->
  Z.of_nat (length bl) + 7 <= log_cap E -> (length bl + 7 < bc_nbuf)%nat ->
  exists r c' f v' bl' t', dirlink i name inum c s = Ok r c' (with_fi s f t') /\ held c' = held c /\ txn E f v' bl' ∅ ∅ /\
    ((r = 0 /\ (exists off, dir_find v' (t' !!! i) name = Some (inum, off)) /\
      forall name', key name' <> key name -> dir_find v' (t' !!! i) name' = dir_find v ip name') \/
     (r = -1 /\ dir_full v ip /\ v' = v /\ bl' = bl /\ t' = itab s) \/
     (r = -1 /\ (forall x, 0 <= x < sb_size S -> used v' S x = true) /\ forall name', dir_find v' (t' !!! i) name' = dir_find v ip name')).
Proof.
  intros Hd Hnone Hin Hb Hcap Hnb. pose proof (de_file _ _ _ _ _ _ _ _ Hd) as Hfe.
  pose proof (fe_full _ _ _ _ _ _ _ _ Hfe) as [Hsz _]. pose proof (nents_size ip ltac:(lia) (de_size _ _ _ _ _ _ _ _ Hd)) as En.
  unfold dirlink. destruct (dirlookup_run E S v bl c s i ip name Hd) as (c1 & f1 & Hh1 & Ht1 & Hr1). rewrite Hnone in Hr1.
  rewrite (bind_Ok _ _ _ _ _ _ _ Hr1), bind_getip. cbn [with_fy itab]. rewrite (fe_slot _ _ _ _ _ _ _ _ Hfe).
  destruct (dirlink_loop_run (Z.to_nat (i_size ip)) E S v bl c1 (with_fy s f1) i ip 0 (dir_env_step _ _ _ _ _ _ _ _ _ _ Hd Hh1 Ht1) ltac:(lia)) as (c2 & f2 & Hh2 & Ht2 & Hr2).
  { rewrite DIRENT_val in En. lia. }
  rewrite Z.mul_0_r, Nat.sub_0_r in Hr2. fold (with_fy s f1). rewrite (bind_Ok _ _ _ _ _ _ _ Hr2), with_fy_twice.
  destruct (free_from_spec v ip (nents ip) 0) as [Hkf Hfree]. pose proof (free_from_none v ip (nents ip) 0) as Hall. set (kf := free_from v ip (nents ip) 0) in *.
  assert (length (dirent name inum) = 16%nat) as Hl by (unfold dirent; rewrite length_app, strncpy_list_length; done).
  assert (held c2 = held c) as Hh2' by congruence.
  destruct (Z.ltb_spec (MAXFILE * BSIZE) (DIRENT * (Z.of_nat kf + 1))) as [Hover|Hroom].
  { assert (kf = nents ip /\ i_size ip = MAXFILE * BSIZE) as [Ekf Emax] by (rewrite MAXFILE_val, BSIZE_val, DIRENT_val in *; lia).
    exists (-1), c2, f2, v, bl, (itab s). split; [|split; [done|split; [done|right; left]]].
    - unfold writei. rewrite bind_assoc, bind_getip. cbn [with_fy itab]. rewrite (fe_slot _ _ _ _ _ _ _ _ Hfe). rewrite MAXFILE_val, BSIZE_val, DIRENT_val in *.
      destruct (Z.ltb_spec (i_size ip) (16 * Z.of_nat kf)); [lia|]. rewrite u32_small by lia. destruct (Z.ltb_spec (16 * Z.of_nat kf + 16) (16 * Z.of_nat kf)); [lia|].
      cbn [orb]. destruct (Z.ltb_spec (268 * 1024) (16 * Z.of_nat kf + 16)); [|lia]. done.
    - split; [done|]. split; [|done]. split; [|done]. intros x Hx. apply Hall; lia. }
  assert (turns (DIRENT * Z.of_nat kf) 16 = 1) as Htu by (unfold turns; rewrite BSIZE_val, DIRENT_val; zlia).
  destruct (writei_run E S v bl c2 (with_fy s f2) i ip (inr (dirent name inum)) (dirent name inum) (DIRENT * Z.of_nat kf)
    (file_env_step _ _ _ _ _ _ _ _ _ _ Hfe Hh2' Ht2)) as (k & c3 & f3 & v3 & bl3 & t3 & Hk & Hr3 & Hh3 & Hj3 & Ht3 & _ & W).
  { exists []. by rewrite app_nil_r. } { rewrite DIRENT_val in *. lia. } { rewrite DIRENT_val in *. lia. }
  { rewrite Hl. change (Z.of_nat 16) with 16. rewrite Htu. lia. } { rewrite Hl. change (Z.of_nat 16) with 16. rewrite Htu. lia. }
  rewrite Hl in Hr3, Hk. change (Z.of_nat 16) with DIRENT in Hr3. rewrite (bind_Ok _ _ _ _ _ _ _ Hr3).
  destruct (Z.eqb_spec (Z.of_nat k) DIRENT) as [Ek|Ek]; cbn [negb].
  - exists 0, c3, f3, v3, bl3, t3. split; [done|]. split; [congruence|]. split; [done|]. left. split; [done|].
    assert (k = length (dirent name inum)) as -> by (rewrite Hl; rewrite DIRENT_val in Ek; lia).
    destruct (entries_written S v v3 ip (t3 !!! i) kf name inum W Hsz (de_size _ _ _ _ _ _ _ _ Hd) ltac:(lia)) as (N1 & N2 & N3); [rewrite DIRENT_val in *; lia|].
    split.
    + eexists. apply (bind_found v v3 ip (t3 !!! i) name inum kf); try done. lia.
    + intros name' Hne. apply (bind_others v v3 ip (t3 !!! i) name inum kf); try done; try lia.
  - exists (-1), c3, f3, v3, bl3, t3. split; [done|]. split; [congruence|]. split; [done|]. right. right. split; [done|].
    destruct (wf_short _ _ _ _ _ _ _ _ W) as [Hcut Hused]; [rewrite Hl; rewrite DIRENT_val in Ek; lia|]. split; [done|]. intros name'.
    apply (unwritten_find S v v3 ip (t3 !!! i) (DIRENT * Z.of_nat kf) (dirent name inum)); [|lia|rewrite DIRENT_val in *; lia].
    assert (k = 0%nat) as -> by (rewrite BSIZE_val, DIRENT_val in *; zlia). done.
Qed.
End FsDir.
