(* ===== verification/FsPath.v ===== *)
(** Path names (kernel/fs.c: skipelem), against a reference splitter that walks
    the path once and collects the runs between slashes. *)
From S2P Require Import Prelude Machine BlockCache Log Fs.
Local Open Scope Z_scope.

(** The elements of a path; [cur] holds the bytes of the current one, the last first. *)
Fixpoint split (cur : list Z) (p : list Z) : list (list Z) :=
  match p with
  | [] => match cur with [] => [] | _ => [rev cur] end
  | c :: p' =>
      if c =? slash then match cur with [] => split [] p' | _ => rev cur :: split [] p' end
      else split (c :: cur) p'
  end.

(** The names that the loop of namex goes through. *)
Fixpoint elements (fuel : nat) (path : list Z) : option (list (list Z)) :=
  match skipelem path with
  | None => Some []
  | Some (name, rest) =>
      match fuel with
      | O => None
      | S f => match elements f rest with Some l => Some (name :: l) | None => None end
      end
  end.

Lemma skip_slashes_split p : split [] (skip_slashes p) = split [] p.
Proof. induction p as [|c p IH]; cbn [skip_slashes split]; [done|]. destruct (c =? slash) eqn:E; [done|]. cbn [split]. by rewrite E. Qed.

Lemma skip_slashes_length p : (length (skip_slashes p) <= length p)%nat.
Proof. induction p as [|c p IH]; cbn [skip_slashes length]; [done|]. destruct (c =? slash); cbn [length]; lia. Qed.

Lemma skip_slashes_head p : hd 0 (skip_slashes p) <> slash.
Proof. induction p as [|c p IH]; cbn [skip_slashes]; [done|]. destruct (Z.eqb_spec c slash); [done|]. by cbn. Qed.

(** The element and the rest are the path, cut before the next slash. *)
Lemma elem_spec p : let '(e, r) := elem p in
  p = e ++ r /\ (forall c, c ∈ e -> c <> slash) /\ (r = [] \/ hd 0 r = slash).
Proof.
  induction p as [|c p IH]; cbn [elem].
  - split_and!; [done| |by left]. intros c Hc. by apply elem_of_nil in Hc.
  - destruct (Z.eqb_spec c slash) as [->|Hne].
    + split_and!; [done| |by right]. intros c Hc. by apply elem_of_nil in Hc.
    + destruct (elem p) as [e r]. destruct IH as (-> & H2 & H3). split_and!; [done| |done].
      intros x [->|Hx]%elem_of_cons; [done|by apply H2].
Qed.

Lemma split_app e : forall cur r, (forall c, c ∈ e -> c <> slash) -> split cur (e ++ r) = split (rev e ++ cur) r.
Proof.
  induction e as [|c e IH]; intros cur r He; cbn [split app rev]; [done|].
  destruct (Z.eqb_spec c slash) as [->|Hne]; [by destruct (He slash ltac:(apply list_elem_of_here))|].
  rewrite IH by (intros x Hx; apply He; by apply list_elem_of_further). by rewrite <- app_assoc.
Qed.

Lemma split_elem e r : e <> [] -> (forall c, c ∈ e -> c <> slash) -> (r = [] \/ hd 0 r = slash) ->
  split [] (e ++ r) = e :: split [] (skip_slashes r).
Proof.
  intros Hne He Hr. rewrite split_app, app_nil_r by done. rewrite skip_slashes_split.
  assert (rev e <> []) as Hrev. { intros E. apply Hne. rewrite <- (rev_involutive e), E. done. }
  destruct r as [|c r]; cbn [split].
  - destruct (rev e) eqn:Er; [done|]. by rewrite <- Er, rev_involutive.
  - destruct Hr as [|Hc]; [done|]. cbn in Hc. subst c. rewrite Z.eqb_refl.
    destruct (rev e) eqn:Er; [done|]. by rewrite <- Er, rev_involutive.
Qed.

(** One step: None exactly on a path of slashes only; otherwise the first element, cut to
    DIRSIZ bytes, and a shorter path that starts with the next one. *)
Lemma skipelem_spec p :
  match skipelem p with
  | None => split [] p = []
  | Some (name, rest) => exists e, split [] p = e :: split [] rest /\ name = take (Z.to_nat DIRSIZ) e /\ e <> [] /\
      hd 0 rest <> slash /\ (length rest < length p)%nat
  end.
Proof.
  unfold skipelem. rewrite <- (skip_slashes_split p). pose proof (skip_slashes_length p) as Hl.
  pose proof (skip_slashes_head p) as Hh. destruct (skip_slashes p) as [|c q]; [done|].
  pose proof (elem_spec (c :: q)) as He. destruct (elem (c :: q)) as [e r] eqn:Ee. destruct He as (E & H2 & H3).
  assert (e <> []) as Hne.
  { intros ->. cbn in E. destruct H3 as [->|H3]; [done|]. rewrite <- E in H3. done. }
  exists e. rewrite E. split_and!.
  - by apply split_elem.
  - destruct (Z.leb_spec DIRSIZ (Z.of_nat (length e))); [done|]. rewrite take_ge; [done|lia].
  - done.
  - apply skip_slashes_head.
  - apply (f_equal length) in E. rewrite length_app in E. pose proof (skip_slashes_length r).
    destruct e; [done|]. cbn [length] in *. lia.
Qed.

(** path names.  The loop of namex terminates within the length of the path, and the names it goes through
    are the runs of bytes between the slashes of the path, each cut to DIRSIZ bytes; slashes at
    the ends and repeated slashes do not matter. *)
Theorem path_elements_correct p : elements (length p) p = Some (map (take (Z.to_nat DIRSIZ)) (split [] p)).
Proof.
  assert (forall n p, (length p <= n)%nat -> elements n p = Some (map (take (Z.to_nat DIRSIZ)) (split [] p))) as H; [|by apply H].
  intros n. induction n as [|n IH]; intros q Hq; pose proof (skipelem_spec q) as Hs.
  - destruct q; [done|cbn in Hq; lia].
  - cbn [elements]. destruct (skipelem q) as [[name rest]|]; [|by rewrite Hs].
    destruct Hs as (e & -> & -> & _ & _ & Hlt). rewrite IH by lia. done.
Qed.
