(* ===== verification/FsInode.v ===== *)
(** The inode table and freeing files (kernel/fs.c: iget, idup, iput, itrunc).

    [itab_ok] is the invariant of the table: a slot's reference count is never negative and no two
    slots in use hold the same inode.  Truncating a file gives back exactly its
    blocks; this is proved for a disk with one bitmap block, which is what mkfs makes
    (FSSIZE is below BPB), so that all the frees share one log slot. *)
From stdpp Require Import functions.
From S2P Require Import Prelude Machine CString Kalloc Vm PageTable UserMem UserCopy Sleeplock BlockCache Log Fs FsBlocks FsFile FsWrite.
Local Open Scope Z_scope.

Record itab_ok (t : gmap nat inode) : Prop := {
  it_ref : forall i, (i < ninode)%nat -> 0 <= i_ref (t !!! i);
  it_uniq : forall i j, (i < ninode)%nat -> (j < ninode)%nat -> 0 < i_ref (t !!! i) -> 0 < i_ref (t !!! j) ->
    i_dev (t !!! i) = i_dev (t !!! j) -> i_inum (t !!! i) = i_inum (t !!! j) -> i = j;
}.

Definition holds_inode (t : gmap nat inode) (dev inum : Z) (i : nat) : Prop :=
  0 < i_ref (t !!! i) /\ i_dev (t !!! i) = dev /\ i_inum (t !!! i) = inum.

Lemma iget_scan_spec k : forall i dev inum t empty,
  match iget_scan k i dev inum t empty with
  | (Some j, _) => (i <= j < i + k)%nat /\ holds_inode t dev inum j
  | (None, e) => (forall j, (i <= j < i + k)%nat -> ~ holds_inode t dev inum j) /\
      match empty with
      | Some x => e = Some x
      | None => match e with
                | Some j => (i <= j < i + k)%nat /\ i_ref (t !!! j) = 0
                | None => forall j, (i <= j < i + k)%nat -> i_ref (t !!! j) <> 0
                end
      end
  end.
Proof.
  induction k as [|k IH]; intros i dev inum t empty; cbn [iget_scan].
  - split; [intros; lia|]. destruct empty; [done|]. intros; lia.
  - destruct ((0 <? i_ref (t !!! i)) && (i_dev (t !!! i) =? dev) && (i_inum (t !!! i) =? inum)) eqn:Em.
    { split; [lia|]. unfold holds_inode. lia. }
    specialize (IH (S i) dev inum t (match empty with None => if i_ref (t !!! i) =? 0 then Some i else None | Some e => Some e end)).
    destruct (iget_scan k (S i) dev inum t _) as [[j|] e]; [split; [lia|apply IH]|].
    destruct IH as [Hno He]. split.
    + intros j Hj. destruct (decide (j = i)) as [->|]; [unfold holds_inode; lia|]. apply Hno. lia.
    + destruct empty as [x|]; [done|]. destruct (Z.eqb_spec (i_ref (t !!! i)) 0) as [E0|E0].
      * subst e. split; [lia|done].
      * destruct e as [j|]; [split; [lia|apply He]|]. intros j Hj. destruct (decide (j = i)) as [->|]; [done|]. apply He. lia.
Qed.

(** ** Giving blocks back *)

Definition free_all (S : superblock) (l : list Z) (v : Z -> block) : Z -> block := foldl (fun v b => free_view S b v) v l.

Lemma free_all_app S l l' v : free_all S (l ++ l') v = free_all S l' (free_all S l v).
Proof. apply foldl_app. Qed.

Lemma free_all_used E S l : forall v x, layout E S -> (forall b, b ∈ l -> 0 <= b < sb_size S) -> 0 <= x < sb_size S ->
  used (free_all S l v) S x = negb (bool_decide (x ∈ l)) && used v S x.
Proof.
  induction l as [|b l IH]; intros v x Hl Hr Hx.
  - rewrite bool_decide_false by apply not_elem_of_nil. done.
  - cbn [free_all foldl]. fold (free_all S l (free_view S b v)). rewrite IH; [|done|intros y Hy; apply Hr; by apply list_elem_of_further|done].
    rewrite (free_used E) by (try done; apply Hr, list_elem_of_here).
    rewrite (bool_decide_ext (x ∈ b :: l) (x = b \/ x ∈ l)) by apply elem_of_cons.
    destruct (Z.eqb_spec b x) as [->|Hne]; [rewrite (bool_decide_true (x = x \/ _)) by (by left); by rewrite andb_false_r|].
    cbn [negb andb]. f_equal. f_equal. apply bool_decide_ext. split; [by right|by intros [?|?]].
Qed.

(** The first [k] direct addresses from [j] on that are set, and the array without them. *)
Fixpoint addr_list (k : nat) (j : Z) (a : gmap Z Z) : list Z :=
  match k with
  | O => []
  | S k' => (if arr a j =? 0 then [] else [arr a j]) ++ addr_list k' (j + 1) a
  end.
Fixpoint clear_addrs (k : nat) (j : Z) (a : gmap Z Z) : gmap Z Z :=
  match k with
  | O => a
  | S k' => clear_addrs k' (j + 1) (if arr a j =? 0 then a else <[j := 0]> a)
  end.

(** The entries of an indirect block that are set. *)
Fixpoint word_list (k : nat) (j : Z) (a : block) : list Z :=
  match k with
  | O => []
  | S k' => (if word a j =? 0 then [] else [word a j]) ++ word_list k' (j + 1) a
  end.

Lemma addr_list_ext k : forall j a a', (forall x, j <= x -> arr a x = arr a' x) -> addr_list k j a = addr_list k j a'.
Proof.
  induction k as [|k IH]; intros j a a' H; cbn [addr_list]; [done|]. rewrite H by lia. f_equal. apply IH. intros x Hx. apply H. lia.
Qed.

Lemma clear_addrs_get k : forall j a x, arr (clear_addrs k j a) x = if decide (j <= x < j + Z.of_nat k) then 0 else arr a x.
Proof.
  induction k as [|k IH]; intros j a x; cbn [clear_addrs]; [by rewrite decide_False by lia|]. rewrite IH.
  destruct (decide (x = j)) as [->|Hne].
  - rewrite decide_False by lia. rewrite decide_True by lia. destruct (Z.eqb_spec (arr a j) 0); [done|]. by rewrite arr_insert, decide_True.
  - repeat case_decide; try done; try lia. destruct (_ =? _); [done|]. by rewrite arr_insert, decide_False.
Qed.

Lemma addr_list_elem k : forall j a x, x ∈ addr_list k j a <-> exists i, j <= i < j + Z.of_nat k /\ arr a i = x /\ x <> 0.
Proof.
  induction k as [|k IH]; intros j a x; cbn [addr_list].
  - split; [by intros ?%elem_of_nil|intros (i & ? & _); lia].
  - rewrite elem_of_app, IH. split.
    + intros [H|(i & Hi & H)]; [|exists i; split; [lia|done]]. destruct (Z.eqb_spec (arr a j) 0); [by apply elem_of_nil in H|].
      apply list_elem_of_singleton in H as ->. exists j. split; [lia|done].
    + intros (i & Hi & E & Hx). destruct (decide (i = j)) as [->|]; [left|right; exists i; split; [lia|done]].
      destruct (Z.eqb_spec (arr a j) 0); [congruence|]. apply list_elem_of_singleton. done.
Qed.

Lemma word_list_elem k : forall j a x, x ∈ word_list k j a <-> exists i, j <= i < j + Z.of_nat k /\ word a i = x /\ x <> 0.
Proof.
  induction k as [|k IH]; intros j a x; cbn [word_list].
  - split; [by intros ?%elem_of_nil|intros (i & ? & _); lia].
  - rewrite elem_of_app, IH. split.
    + intros [H|(i & Hi & H)]; [|exists i; split; [lia|done]]. destruct (Z.eqb_spec (word a j) 0); [by apply elem_of_nil in H|].
      apply list_elem_of_singleton in H as ->. exists j. split; [lia|done].
    + intros (i & Hi & E & Hx). destruct (decide (i = j)) as [->|]; [left|right; exists i; split; [lia|done]].
      destruct (Z.eqb_spec (word a j) 0); [congruence|]. apply list_elem_of_singleton. done.
Qed.

(** Every file block, in the order itrunc frees them. *)
Definition all_blocks (v : Z -> block) (ip : inode) : list Z :=
  addr_list (Z.to_nat NDIRECT) 0 (i_addrs ip) ++
  (if ind ip =? 0 then [] else word_list (Z.to_nat NINDIRECT) 0 (v (ind ip)) ++ [ind ip]).

Lemma all_blocks_elem v S ip x : file_ok v S ip ->
  x ∈ all_blocks v ip <-> x <> 0 /\ ~ outside v ip x.
Proof.
  intros Hf. unfold all_blocks, outside. rewrite elem_of_app, addr_list_elem. change (0 + Z.of_nat (Z.to_nat NDIRECT)) with 12. split.
  - intros [(i & Hi & E & Hx)|H].
    + split; [done|]. intros [_ Ho]. apply (Ho i); [rewrite MAXFILE_val; lia|]. unfold faddr.
      destruct (Z.ltb_spec i NDIRECT); [done|rewrite NDIRECT_val in *; lia].
    + destruct (Z.eqb_spec (ind ip) 0) as [|Hi]; [by apply elem_of_nil in H|]. apply elem_of_app in H as [H| ->%list_elem_of_singleton].
      * apply word_list_elem in H as (i & Hr & E & Hx). change (0 + Z.of_nat (Z.to_nat NINDIRECT)) with 256 in Hr. split; [done|]. intros [_ Ho].
        apply (Ho (i + NDIRECT)); [rewrite MAXFILE_val, NDIRECT_val; lia|]. unfold faddr.
        destruct (Z.ltb_spec (i + NDIRECT) NDIRECT); [lia|]. destruct (Z.eqb_spec (ind ip) 0); [done|]. by replace (i + NDIRECT - NDIRECT) with i by lia.
      * split; [done|]. by intros [? _].
  - intros [Hx Ho]. destruct (decide (x ∈ all_blocks v ip)) as [Hin|Hnin].
    { unfold all_blocks in Hin. by rewrite elem_of_app, addr_list_elem in Hin. }
    exfalso. apply Ho. unfold all_blocks in Hnin. rewrite elem_of_app, addr_list_elem in Hnin. split.
    + intros ->. apply Hnin. right. destruct (Z.eqb_spec (ind ip) 0); [done|]. apply elem_of_app. right. by apply list_elem_of_singleton.
    + intros b Hb E. apply Hnin. unfold faddr in E. rewrite MAXFILE_val, NDIRECT_val in *.
      destruct (Z.ltb_spec b 12); [left; exists b; split; [lia|done]|right].
      destruct (Z.eqb_spec (ind ip) 0); [congruence|]. apply elem_of_app. left. apply word_list_elem. exists (b - 12).
      split; [change (Z.of_nat (Z.to_nat NINDIRECT)) with 256; lia|done].
Qed.

Lemma addr_list_nodup k : forall j a,
  (forall x y, j <= x < j + Z.of_nat k -> j <= y < j + Z.of_nat k -> arr a x <> 0 -> arr a x = arr a y -> x = y) -> NoDup (addr_list k j a).
Proof.
  induction k as [|k IH]; intros j a H; cbn [addr_list]; [constructor|]. apply NoDup_app. split_and!.
  - destruct (_ =? _); [constructor|apply NoDup_singleton].
  - intros x Hx (i & Hi & E & Hx0)%addr_list_elem. destruct (Z.eqb_spec (arr a j) 0); [by apply elem_of_nil in Hx|].
    apply list_elem_of_singleton in Hx as ->. assert (i = j); [|lia]. apply H; congruence || lia.
  - apply IH. intros x y Hx Hy. apply H; lia.
Qed.

Lemma word_list_nodup k : forall j a,
  (forall x y, j <= x < j + Z.of_nat k -> j <= y < j + Z.of_nat k -> word a x <> 0 -> word a x = word a y -> x = y) -> NoDup (word_list k j a).
Proof.
  induction k as [|k IH]; intros j a H; cbn [word_list]; [constructor|]. apply NoDup_app. split_and!.
  - destruct (_ =? _); [constructor|apply NoDup_singleton].
  - intros x Hx (i & Hi & E & Hx0)%word_list_elem. destruct (Z.eqb_spec (word a j) 0); [by apply elem_of_nil in Hx|].
    apply list_elem_of_singleton in Hx as ->. assert (i = j); [|lia]. apply H; congruence || lia.
  - apply IH. intros x y Hx Hy. apply H; lia.
Qed.

Lemma all_blocks_nodup v S ip : file_ok v S ip -> NoDup (all_blocks v ip).
Proof.
  intros Hf. unfold all_blocks.
  assert (forall x, 0 <= x < 12 -> faddr v ip x = arr (i_addrs ip) x) as Hd.
  { intros x Hx. unfold faddr. rewrite NDIRECT_val. by destruct (Z.ltb_spec x 12); [|lia]. }
  assert (forall x, ind ip <> 0 -> 0 <= x < 256 -> faddr v ip (x + 12) = word (v (ind ip)) x) as Hw.
  { intros x Hi Hx. unfold faddr. rewrite NDIRECT_val. destruct (Z.ltb_spec (x + 12) 12); [lia|].
    destruct (Z.eqb_spec (ind ip) 0); [done|]. f_equal. lia. }
  apply NoDup_app. split_and!.
  - apply addr_list_nodup. change (0 + Z.of_nat (Z.to_nat NDIRECT)) with 12. intros x y Hx Hy H0 E.
    apply (fo_inj _ _ _ Hf); rewrite ?MAXFILE_val, ?Hd by lia; done || lia.
  - intros x (i & Hi & E & Hx)%addr_list_elem H. change (0 + Z.of_nat (Z.to_nat NDIRECT)) with 12 in Hi.
    destruct (Z.eqb_spec (ind ip) 0) as [|Hin]; [by apply elem_of_nil in H|]. destruct (fo_ind _ _ _ Hf Hin) as [_ Hne].
    apply elem_of_app in H as [(j & Hj & Ej & _)%word_list_elem| ->%list_elem_of_singleton].
    + change (0 + Z.of_nat (Z.to_nat NINDIRECT)) with 256 in Hj. assert (i = j + 12); [|lia].
      apply (fo_inj _ _ _ Hf); rewrite ?MAXFILE_val, ?Hd, ?Hw by (done || lia); congruence || lia.
    + apply (Hne i); [rewrite MAXFILE_val; lia|]. rewrite Hd by lia. done.
  - destruct (Z.eqb_spec (ind ip) 0) as [|Hin]; [constructor|]. destruct (fo_ind _ _ _ Hf Hin) as [_ Hne]. apply NoDup_app. split_and!.
    + apply word_list_nodup. change (0 + Z.of_nat (Z.to_nat NINDIRECT)) with 256. intros x y Hx Hy H0 E.
      assert (x + 12 = y + 12); [|lia]. apply (fo_inj _ _ _ Hf); rewrite ?MAXFILE_val, ?Hw by (done || lia); done || lia.
    + intros x (j & Hj & Ej & _)%word_list_elem ->%list_elem_of_singleton. change (0 + Z.of_nat (Z.to_nat NINDIRECT)) with 256 in Hj.
      apply (Hne (j + 12)); [rewrite MAXFILE_val; lia|]. by rewrite Hw by (done || lia).
    + apply NoDup_singleton.
Qed.

Section FsInode.
Context {K : Type} `{BC : BlockCache K}.

(** iget.  On a consistent inode table iget returns a slot that now holds the inode, and leaves every
    other slot alone: the slot that already held it, with one reference more and nothing
    else changed, or else a free slot with one reference and not yet valid.  It panics exactly when the
    inode is not in the table and no slot is free.  The table stays consistent. *)
Theorem iget_correct dev inum c (s : fs K) : itab_ok (itab s) -> L_itable ∉ held c ->
  (exists i t', (i < ninode)%nat /\ iget dev inum c s = Ok i c (put_itab t' s) /\ itab_ok t' /\ holds_inode t' dev inum i /\
     (forall j, j <> i -> t' !!! j = itab s !!! j) /\
     ((holds_inode (itab s) dev inum i /\ t' !!! i = set_ref (i_ref (itab s !!! i) + 1) (itab s !!! i)) \/
      ((forall j, (j < ninode)%nat -> ~ holds_inode (itab s) dev inum j) /\ i_ref (itab s !!! i) = 0 /\
       i_ref (t' !!! i) = 1 /\ i_valid (t' !!! i) = 0))) \/
  (iget dev inum c s = Panic "iget: no inodes" /\
   forall j, (j < ninode)%nat -> i_ref (itab s !!! j) <> 0 /\ ~ holds_inode (itab s) dev inum j).
Proof.
  intros [Hr Hu] Hl. unfold iget. rewrite bind_acquire, bind_gets by done.
  pose proof (iget_scan_spec ninode 0 dev inum (itab s) None) as Hs.
  destruct (iget_scan ninode 0 dev inum (itab s) None) as [[i|] [e|]].
  1,2: destruct Hs as [Hi Hh]; left; exists i, (<[i := set_ref (i_ref (itab s !!! i) + 1) (itab s !!! i)]> (itab s));
    split; [lia|]; split; [rewrite bind_modip; mrun; done|]; destruct Hh as (H1 & H2 & H3);
    (split; [|split; [unfold holds_inode; rewrite lookup_total_insert_eq; cbn [set_ref i_ref i_dev i_inum]; lia|
      split; [intros j Hj; by rewrite lookup_total_insert_ne|left; rewrite lookup_total_insert_eq; done]]]).
  1,2: split; [intros j Hj; destruct (decide (j = i)) as [->|Hne];
      [rewrite lookup_total_insert_eq; cbn [set_ref i_ref]; lia|rewrite lookup_total_insert_ne by done; by apply Hr]|];
    intros a b Ha Hb; destruct (decide (a = i)) as [->|Hna], (decide (b = i)) as [->|Hnb]; try done;
    rewrite ?lookup_total_insert_eq, ?(lookup_total_insert_ne (itab s) i a), ?(lookup_total_insert_ne (itab s) i b) by done;
    cbn [set_ref i_ref i_dev i_inum]; intros; apply Hu; done || lia.
  - destruct Hs as [Hno [He He0]]. left. set (ip := itab s !!! e).
    exists e, (<[e := Inode dev inum 1 (i_lock ip) 0 (i_type ip) (i_major ip) (i_minor ip) (i_nlink ip) (i_size ip) (i_addrs ip)]> (itab s)).
    split; [lia|]. split; [rewrite bind_modip; mrun; done|].
    assert (forall j, (j < ninode)%nat -> j <> e -> i_dev (itab s !!! j) = dev -> i_inum (itab s !!! j) = inum -> 0 < i_ref (itab s !!! j) -> False) as Hx.
    { intros j Hj Hne E1 E2 E3. apply (Hno j); [lia|]. done. }
    split; [split|split; [|split]].
    + intros j Hj. destruct (decide (j = e)) as [->|Hne]; [by rewrite lookup_total_insert_eq|]. rewrite lookup_total_insert_ne by done. by apply Hr.
    + intros a b Ha Hb. destruct (decide (a = e)) as [->|Hna], (decide (b = e)) as [->|Hnb]; try done;
        rewrite ?lookup_total_insert_eq, ?(lookup_total_insert_ne (itab s) e a), ?(lookup_total_insert_ne (itab s) e b) by done; cbn [i_ref i_dev i_inum].
      * intros _ H1 H2 H3. by destruct (Hx b).
      * intros H1 _ H2 H3. by destruct (Hx a).
      * by apply Hu.
    + unfold holds_inode. rewrite lookup_total_insert_eq. cbn. lia.
    + intros j Hj. by rewrite lookup_total_insert_ne.
    + right. rewrite lookup_total_insert_eq. cbn. split_and!; try done. intros j Hj. apply Hno. lia.
  - destruct Hs as [Hno He]. right. split; [done|]. intros j Hj. split; [apply He|apply Hno]; lia.
Qed.

(** *** itrunc on a disk with one bitmap block *)

Section Trunc.
Variables (E : tenv) (S : superblock).
Hypothesis Hl : layout E S.
Hypothesis Hone : sb_size S <= BPB.

Abbreviation bm := (sb_bmapstart S).

Lemma one_bitmap b : 0 <= b < sb_size S -> BBLOCK b S = bm.
Proof.
  intros Hb. destruct (BBLOCK_spec E S b Hl Hb) as (-> & _). rewrite BPB_val in *. zlia.
Qed.

(** The blocks logged stay the same, up to the bitmap block. *)
Definition near (bl bl' : list Z) : Prop := bl' = bl \/ bl' = logged bm bl.

Lemma logged_idem bl : logged bm (logged bm bl) = logged bm bl.
Proof. unfold logged at 1. by rewrite decide_True by apply logged_in. Qed.

Lemma near_trans a b d : near a b -> near b d -> near a d.
Proof. intros [->| ->] [->| ->]; rewrite ?logged_idem; (by left) || by right. Qed.

Lemma near_length a b : near a b -> (length b <= length a + 1)%nat.
Proof. intros [->| ->]; [lia|apply logged_length]. Qed.

(** Room for one more block. *)
Definition roomy (bl : list Z) (H : gmap Z nat) : Prop :=
  (length bl + 1 + size H < bc_nbuf)%nat /\ Z.of_nat (length (logged bm bl)) < log_cap E.

Lemma roomy_near bl bl' H : near bl bl' -> roomy bl H ->
  (length bl' + size H < bc_nbuf)%nat /\ Z.of_nat (length bl') < log_cap E /\ near bl (logged bm bl').
Proof.
  intros Hn [H1 H2]. pose proof (near_length _ _ Hn). split; [lia|]. split.
  - destruct Hn as [->| ->]; [|done]. unfold logged in H2. case_decide; [done|]. rewrite length_app in H2. cbn in H2. lia.
  - destruct Hn as [->| ->]; [by right|]. rewrite logged_idem. by right.
Qed.

Lemma free_step bl0 v bl H c s b : near bl0 bl -> roomy bl0 H -> holds_data v S H -> sb s = S -> quiet c ->
  0 <= b < sb_size S -> used v S b = true -> txn E (fy s) v bl H ∅ ->
  exists c' f, bfree ROOTDEV b c s = Ok tt c' (with_fy s f) /\ held c' = held c /\
    txn E f (free_view S b v) (logged bm bl) H ∅ /\ near bl0 (logged bm bl).
Proof.
  intros Hn Hr Hh Hsb Hq Hb Hu Ht. destruct (roomy_near _ _ _ Hn Hr) as (R1 & R2 & R3).
  pose proof (bfree_run E S v bl H c s b Hl Hh Hsb Hq R1 R2 Hb Ht) as Hf. rewrite Hu in Hf.
  rewrite one_bitmap in Hf by done. destruct Hf as (c' & f & ? & ? & ?). by exists c', f.
Qed.

Lemma itrunc_direct_run k : forall j bl0 v bl c s i ip,
  itab s !!! i = ip -> i_dev ip = ROOTDEV -> near bl0 bl -> roomy bl0 ∅ -> sb s = S -> quiet c ->
  NoDup (addr_list k j (i_addrs ip)) ->
  (forall b, b ∈ addr_list k j (i_addrs ip) -> 0 <= b < sb_size S /\ used v S b = true) -> txn E (fy s) v bl ∅ ∅ ->
  exists c' f bl' t', itrunc_direct k j i c s = Ok tt c' (with_fi s f t') /\ held c' = held c /\ near bl0 bl' /\
    (forall x, x <> i -> t' !!! x = itab s !!! x) /\
    t' !!! i = Inode (i_dev ip) (i_inum ip) (i_ref ip) (i_lock ip) (i_valid ip) (i_type ip) (i_major ip)
                     (i_minor ip) (i_nlink ip) (i_size ip) (clear_addrs k j (i_addrs ip)) /\
    txn E f (free_all S (addr_list k j (i_addrs ip)) v) bl' ∅ ∅.
Proof.
  induction k as [|k IH]; intros j bl0 v bl c s i ip Hi Hdev Hn Hr Hsb Hq Hnd Hus Ht; cbn [itrunc_direct addr_list clear_addrs] in *.
  { exists c, (fy s), bl, (itab s). split_and!; try done; [by destruct s|]. rewrite Hi. by destruct ip. }
  rewrite bind_getip, Hi. destruct (Z.eqb_spec (arr (i_addrs ip) j) 0) as [E0|E0]; cbn [negb app] in *.
  - rewrite bind_ret. by apply (IH (j + 1) bl0 v bl c s i ip).
  - rewrite bind_assoc, Hdev. destruct (Hus _ ltac:(apply list_elem_of_here)) as [Hb Hu].
    destruct (free_step bl0 v bl ∅ c s _ Hn Hr ltac:(intros ? ? ?; by rewrite lookup_empty in *) Hsb Hq Hb Hu Ht) as (c1 & f1 & Hr1 & Hh1 & Ht1 & Hn1).
    rewrite (bind_Ok _ _ _ _ _ _ _ Hr1), bind_modip. cbn [with_fy itab]. rewrite Hi. apply NoDup_cons in Hnd as [Hnin Hnd].
    set (ip1 := set_addr j 0 ip).
    assert (addr_list k (j + 1) (i_addrs ip1) = addr_list k (j + 1) (i_addrs ip)) as Eal.
    { apply addr_list_ext. intros x Hx. cbn [ip1 set_addr i_addrs]. by rewrite arr_insert, decide_False by lia. }
    destruct (IH (j + 1) bl0 (free_view S (arr (i_addrs ip) j) v) (logged bm bl) c1 (put_itab (<[i := ip1]> (itab s)) (with_fy s f1)) i ip1)
      as (c2 & f2 & bl2 & t2 & Hr2 & Hh2 & Hn2 & Ho2 & Hi2 & Ht2); try done.
    + cbn [put_itab itab]. by rewrite lookup_total_insert_eq.
    + by apply (quiet_held c).
    + by rewrite Eal.
    + rewrite Eal. intros b Hin. destruct (Hus b ltac:(by apply list_elem_of_further)) as [Hb' Hu']. split; [done|].
      rewrite (free_used E) by done. destruct (Z.eqb_spec (arr (i_addrs ip) j) b) as [Eb|]; [by rewrite Eb in Hnin|]. by rewrite Hu'.
    + exists c2, f2, bl2, t2. split; [exact Hr2|]. split; [congruence|]. split; [done|]. split.
      { intros x Hx. rewrite Ho2 by done. cbn [put_itab itab]. by rewrite lookup_total_insert_ne. }
      split; [rewrite <- Hdev; exact Hi2|]. rewrite Eal in Ht2. exact Ht2.
Qed.

Lemma itrunc_indirect_run k : forall j bl0 v bl H c s a,
  near bl0 bl -> roomy bl0 H -> sb s = S -> quiet c -> NoDup (word_list k j a) ->
  (forall b h, H !! b = Some h -> nmeta S <= b < sb_size S /\ used v S b = true /\ b ∉ word_list k j a) ->
  (forall b, b ∈ word_list k j a -> 0 <= b < sb_size S /\ used v S b = true) -> txn E (fy s) v bl H ∅ ->
  exists c' f bl', itrunc_indirect k j ROOTDEV a c s = Ok tt c' (with_fy s f) /\ held c' = held c /\ near bl0 bl' /\
    txn E f (free_all S (word_list k j a) v) bl' H ∅.
Proof.
  induction k as [|k IH]; intros j bl0 v bl H c s a Hn Hr Hsb Hq Hnd Hh Hus Ht; cbn [itrunc_indirect word_list] in *.
  { exists c, (fy s), bl. by rewrite with_fy_id. }
  destruct (Z.eqb_spec (word a j) 0) as [E0|E0]; cbn [negb app] in *.
  - rewrite bind_ret. by apply (IH (j + 1) bl0 v bl H c s a).
  - destruct (Hus _ ltac:(apply list_elem_of_here)) as [Hb Hu]. apply NoDup_cons in Hnd as [Hnin Hnd].
    assert (holds_data v S H) as Hhd by (intros b h Hbh; by destruct (Hh b h Hbh) as (? & ? & _)).
    destruct (free_step bl0 v bl H c s _ Hn Hr Hhd Hsb Hq Hb Hu Ht) as (c1 & f1 & Hr1 & Hh1 & Ht1 & Hn1).
    rewrite (bind_Ok _ _ _ _ _ _ _ Hr1).
    destruct (IH (j + 1) bl0 (free_view S (word a j) v) (logged bm bl) H c1 (with_fy s f1) a) as (c2 & f2 & bl2 & Hr2 & Hh2 & Hn2 & Ht2); try done.
    + by apply (quiet_held c).
    + intros b h Hbh. destruct (Hh b h Hbh) as (H1 & H2 & H3). apply not_elem_of_cons in H3 as [H3 H4]. split; [done|]. split; [|done].
      rewrite (free_used E) by (try done; pose proof (nmeta_pos E S Hl); lia). destruct (Z.eqb_spec (word a j) b); [congruence|]. by rewrite H2.
    + intros b Hin. destruct (Hus b ltac:(by apply list_elem_of_further)) as [Hb' Hu']. split; [done|].
      rewrite (free_used E) by done. destruct (Z.eqb_spec (word a j) b) as [Eb|]; [by rewrite Eb in Hnin|]. by rewrite Hu'.
    + exists c2, f2, bl2. rewrite Hr2. split; [done|]. split; [congruence|done].
Qed.

Lemma free_all_other l : forall v x, (forall b, b ∈ l -> 0 <= b < sb_size S) -> x <> bm -> free_all S l v x = v x.
Proof.
  induction l as [|b l IH]; intros v x Hr Hx; [done|]. cbn [free_all foldl]. fold (free_all S l (free_view S b v)).
  rewrite IH by (try done; intros y Hy; apply Hr; by apply list_elem_of_further). unfold free_view.
  rewrite one_bitmap by (apply Hr, list_elem_of_here). by rewrite fn_lookup_insert_ne.
Qed.

(** The indirect part of itrunc. *)
Lemma itrunc_ind_run bl0 v bl c s i ip a :
  itab s !!! i = ip -> i_dev ip = ROOTDEV -> near bl0 bl -> roomy bl0 {[0 := 0%nat]} -> sb s = S -> quiet c ->
  ind ip <> 0 -> v (ind ip) = a -> data_block v S (ind ip) ->
  NoDup (word_list (Z.to_nat NINDIRECT) 0 a ++ [ind ip]) ->
  (forall b, b ∈ word_list (Z.to_nat NINDIRECT) 0 a -> 0 <= b < sb_size S /\ used v S b = true) -> txn E (fy s) v bl ∅ ∅ ->
  exists c' f bl', (bp <-! bread ROOTDEV (ind ip) ;;
     a <-! bdata bp ;;
     itrunc_indirect (Z.to_nat NINDIRECT) 0 ROOTDEV a ;;!
     brelse bp ;;!
     bfree ROOTDEV (ind ip) ;;!
     modip i (set_addr NDIRECT 0)) c s = Ok tt c' (with_fi s f (<[i := set_addr NDIRECT 0 ip]> (itab s))) /\
    held c' = held c /\ near bl0 bl' /\
    txn E f (free_all S (word_list (Z.to_nat NINDIRECT) 0 a ++ [ind ip]) v) bl' ∅ ∅.
Proof.
  intros Hi Hdev Hn Hr Hsb Hq Hnz Ea Hd Hnd Hus Ht. apply NoDup_app in Hnd as (Hnd & Hdis & _).
  assert (size ({[0 := 0%nat]} : gmap Z nat) = 1%nat) as Hs1 by apply map_size_singleton.
  assert (forall b, size (<[ind ip := b]> ∅ : gmap Z nat) = 1%nat) as Hs2 by (intros b; rewrite map_size_insert_None, map_size_empty; done).
  destruct (roomy_near _ _ _ Hn Hr) as (R1 & _). rewrite Hs1 in R1.
  match goal with |- context [bindM (bread ROOTDEV ?x) (fun bp => bindM (bdata bp) (@?k bp))] =>
    destruct (t_read k E v bl ∅ ∅ c s x Ht Hq (lookup_empty _) ltac:(rewrite map_size_empty; lia)) as (b & f1 & -> & Ht1) end.
  rewrite Ea. cbv beta.
  destruct (itrunc_indirect_run (Z.to_nat NINDIRECT) 0 bl0 v bl (<[ind ip := b]> ∅) c (with_fy s f1) a Hn) as (c2 & f2 & bl2 & Hr2 & Hh2 & Hn2 & Ht2); try done.
  { unfold roomy in *. by rewrite Hs2, Hs1 in *. }
  { intros x h [[<- <-]|[_ Hx]]%lookup_insert_Some; [|done]. destruct Hd. split; [done|]. split; [done|].
    intros Hin. apply (Hdis _ Hin). by apply list_elem_of_singleton. }
  rewrite (bind_Ok _ _ _ _ _ _ _ Hr2). rewrite with_fy_twice.
  destruct (t_brelse E _ bl2 _ ∅ c2 (with_fy s f2) (ind ip) b Ht2 (quiet_held _ _ Hh2 Hq) ltac:(by rewrite lookup_insert_eq) (not_elem_of_empty _)) as (c3 & f3 & Hr3 & Hh3 & Ht3).
  rewrite delete_insert_eq, delete_empty in Ht3. rewrite (bind_Ok _ _ _ _ _ _ _ Hr3), with_fy_twice.
  pose proof (nmeta_pos E S Hl).
  assert (0 <= ind ip < sb_size S) as Hir by (destruct Hd; lia).
  destruct (free_step bl0 (free_all S (word_list (Z.to_nat NINDIRECT) 0 a) v) bl2 ∅ c3 (with_fy s f3) (ind ip) Hn2) as (c4 & f4 & Hr4 & Hh4 & Ht4 & Hn4); try done.
  { unfold roomy in *. rewrite Hs1 in Hr. rewrite map_size_empty. lia. }
  { apply (quiet_held c); [congruence|done]. }
  { rewrite (free_all_used E); [|done|intros x Hx; by apply Hus|done]. destruct Hd as [_ ->].
    rewrite bool_decide_false; [done|]. intros Hin. apply (Hdis _ Hin). by apply list_elem_of_singleton. }
  rewrite (bind_Ok _ _ _ _ _ _ _ Hr4), with_fy_twice, modip_run. cbn [with_fy itab]. rewrite Hi.
  exists c4, f4, (logged bm bl2). split; [done|]. split; [congruence|]. split; [done|]. rewrite free_all_app. exact Ht4.
Qed.

(** What truncating leaves of the inode. *)
Definition truncated (ip ip' : inode) : Prop :=
  i_dev ip' = i_dev ip /\ i_inum ip' = i_inum ip /\ i_ref ip' = i_ref ip /\ i_lock ip' = i_lock ip /\ i_valid ip' = i_valid ip /\
  i_type ip' = i_type ip /\ i_major ip' = i_major ip /\ i_minor ip' = i_minor ip /\ i_nlink ip' = i_nlink ip /\
  i_size ip' = 0 /\ forall k, 0 <= k <= NDIRECT -> arr (i_addrs ip') k = 0.

Lemma itrunc_run v bl c s i ip :
  file_ok v S ip -> shorts_fit ip -> 0 <= i_inum ip < sb_ninodes S -> itab s !!! i = ip -> sb s = S -> quiet c ->
  (length bl + 2 < bc_nbuf)%nat -> Z.of_nat (length bl) + 1 < log_cap E -> txn E (fy s) v bl ∅ ∅ ->
  exists c' f v' bl' t', itrunc i c s = Ok tt c' (with_fi s f t') /\ held c' = held c /\ txn E f v' bl' ∅ ∅ /\
    IBLOCK (i_inum ip) S ∈ bl' /\ (length bl' <= length bl + 2)%nat /\
    (forall x, x <> i -> t' !!! x = itab s !!! x) /\ truncated ip (t' !!! i) /\ disk_inode v' S (t' !!! i) /\
    (forall x, 0 <= x < sb_size S -> used v' S x = negb (bool_decide (x ∈ all_blocks v ip)) && used v S x) /\
    (forall x, x <> bm -> x <> IBLOCK (i_inum ip) S -> v' x = v x).
Proof.
  intros Hf Hsh Hin Hi Hsb Hq Hnb Hcap Ht. pose proof (nmeta_pos E S Hl) as Hpos.
  pose proof (all_blocks_nodup v S ip Hf) as Hnd.
  assert (forall b, b ∈ all_blocks v ip -> 0 <= b < sb_size S /\ used v S b = true /\ b <> bm) as Hus.
  { intros b Hb. assert (data_block v S b) as [Hd Hu].
    { apply (all_blocks_elem v S ip b Hf) in Hb as [Hb0 Hb]. destruct (decide (b = ind ip)) as [->|Hne]; [by apply (fo_ind _ _ _ Hf)|].
      destruct (decide (data_block v S b)) as [?|Hnd']; [done|]. destruct Hb. split; [done|]. intros x Hx E'. apply Hnd'. rewrite <- E'. apply Hf; [done|congruence]. }
    split; [lia|]. split; [done|]. destruct Hl as [? ? ? ? Hb']. rewrite BPB_val in Hb'. zlia. }
  unfold all_blocks in Hnd, Hus |- *. set (dl := addr_list (Z.to_nat NDIRECT) 0 (i_addrs ip)) in *.
  assert (roomy bl {[0 := 0%nat]}) as Hroom.
  { split; [rewrite map_size_singleton; lia|]. pose proof (logged_length bm bl). lia. }
  assert (roomy bl ∅) as Hroom0 by (split; [rewrite map_size_empty; lia|apply Hroom]).
  apply NoDup_app in Hnd as (Hnd1 & Hdis & Hnd2). unfold itrunc.
  destruct (itrunc_direct_run (Z.to_nat NDIRECT) 0 bl v bl c s i ip Hi (fo_dev _ _ _ Hf) ltac:(by left) Hroom0 Hsb Hq Hnd1) as (c1 & f1 & bl1 & t1 & Hr1 & Hh1 & Hn1 & Ho1 & Hi1 & Ht1); [|done|].
  { intros b Hb. destruct (Hus b ltac:(apply elem_of_app; by left)) as (? & ? & _). done. }
  rewrite (bind_Ok _ _ _ _ _ _ _ Hr1), bind_getip. cbn [with_fi itab]. fold dl in Ht1. set (v1 := free_all S dl v) in *.
  set (ip1 := t1 !!! i) in *.
  assert (arr (i_addrs ip1) NDIRECT = ind ip) as Eind.
  { rewrite Hi1. cbn [i_addrs]. rewrite clear_addrs_get. by rewrite decide_False by (rewrite NDIRECT_val; lia). }
  rewrite Eind. assert (i_dev ip1 = ROOTDEV) as Hdev1 by (rewrite Hi1; apply Hf).
  assert (forall b, b ∈ dl -> 0 <= b < sb_size S) as Hdlr by (intros b Hb; apply (Hus b); apply elem_of_app; by left).
  set (il := if ind ip =? 0 then [] else word_list (Z.to_nat NINDIRECT) 0 (v (ind ip)) ++ [ind ip]) in *.
  set (ip2 := if ind ip =? 0 then ip1 else set_addr NDIRECT 0 ip1).
  assert (exists c2 f2 bl2 t2, (if negb (ind ip =? 0) then
     bp <-! bread (i_dev ip1) (ind ip) ;; a <-! bdata bp ;; itrunc_indirect (Z.to_nat NINDIRECT) 0 (i_dev ip1) a ;;!
     brelse bp ;;! bfree (i_dev ip1) (ind ip) ;;! modip i (set_addr NDIRECT 0) else retM tt) c1 (with_fi s f1 t1) = Ok tt c2 (with_fi s f2 t2) /\
     held c2 = held c /\ near bl bl2 /\ (forall x, x <> i -> t2 !!! x = itab s !!! x) /\ t2 !!! i = ip2 /\
     txn E f2 (free_all S il v1) bl2 ∅ ∅) as (c2 & f2 & bl2 & t2 & Hr2 & Hh2 & Hn2 & Ho2 & Hi2 & Ht2).
  { unfold il, ip2 in *. destruct (Z.eqb_spec (ind ip) 0) as [Ez|Ez]; cbn [negb].
    - exists c1, f1, bl1, t1. done.
    - destruct (fo_ind _ _ _ Hf Ez) as [Hdi _]. rewrite Hdev1.
      assert (ind ip1 = ind ip) as Ei1 by exact Eind.
      assert (data_block v1 S (ind ip)) as Hdi1.
      { split; [apply Hdi|]. unfold v1. destruct Hdi as [Hd1 Hd2]. rewrite (free_all_used E), Hd2 by (done || lia).
        rewrite bool_decide_false; [done|]. intros Hx. apply (Hdis _ Hx), elem_of_app. right. by apply list_elem_of_singleton. }
      destruct (itrunc_ind_run bl v1 bl1 c1 (with_fi s f1 t1) i ip1 (v (ind ip))) as (c2 & f2 & bl2 & Hr2 & Hh2 & Hn2 & Ht2); rewrite ?Ei1; try done.
      { by apply (quiet_held c). }
      { apply free_all_other; [done|]. destruct Hdi, Hl as [? ? ? ? Hb']. rewrite BPB_val in Hb'. zlia. }
      { intros b Hb. assert (b ∈ word_list (Z.to_nat NINDIRECT) 0 (v (ind ip)) ++ [ind ip]) as Hb' by (apply elem_of_app; by left).
        destruct (Hus b ltac:(apply elem_of_app; by right)) as (Hbr & Hbu & _). split; [done|].
        unfold v1. rewrite (free_all_used E), Hbu by done. rewrite bool_decide_false; [done|]. intros Hx. by apply (Hdis _ Hx). }
      rewrite Ei1 in Hr2, Ht2. exists c2, f2, bl2. eexists. split; [exact Hr2|]. split; [congruence|]. split; [done|]. split.
      { intros x Hx. cbn [with_fi itab]. rewrite lookup_total_insert_ne by done. by apply Ho1. }
      split; [by rewrite lookup_total_insert_eq|exact Ht2]. }
  rewrite (bind_Ok _ _ _ _ _ _ _ Hr2), bind_modip. cbn [with_fi itab]. rewrite Hi2.
  assert (free_all S il v1 = free_all S (dl ++ il) v) as Efa by (unfold v1; by rewrite free_all_app).
  rewrite Efa in Ht2. set (v2 := free_all S (dl ++ il) v) in *. set (ip3 := set_size 0 ip2).
  assert (truncated ip ip3) as Htr.
  { assert (forall k, 0 <= k < 12 -> arr (i_addrs ip1) k = 0) as Hz.
    { intros k Hk. rewrite Hi1. cbn [i_addrs]. rewrite clear_addrs_get. by rewrite decide_True by (change (Z.of_nat (Z.to_nat NDIRECT)) with 12; lia). }
    unfold truncated, ip3, ip2. rewrite NDIRECT_val. destruct (Z.eqb_spec (ind ip) 0) as [Ez|Ez]; cbn [set_size set_addr i_dev i_inum i_ref i_lock i_valid i_type i_major i_minor i_nlink i_size i_addrs];
      rewrite Hi1 at 1 2 3 4 5 6 7 8 9; cbn [i_dev i_inum i_ref i_lock i_valid i_type i_major i_minor i_nlink]; split_and!; try done; intros k Hk.
    - destruct (decide (k = 12)) as [->|]; [rewrite NDIRECT_val in Eind; congruence|apply Hz; lia].
    - rewrite arr_insert. case_decide; [done|]. apply Hz. lia. }
  pose proof Htr as (T1 & T2 & T3 & T4 & T5 & T6 & T7 & T8 & T9 & T10 & T11).
  pose proof (near_length _ _ Hn2) as Hlen2.
  destruct (iupdate_run E S v2 bl2 c2 (put_itab (<[i := ip3]> t2) (with_fi s f2 t2)) i ip3 Hl) as (c3 & f3 & Hr3 & Hh3 & Ht3); try done.
  { cbn [put_itab itab]. by rewrite lookup_total_insert_eq. } { rewrite T1. apply Hf. } { by rewrite T2. }
  { by apply (quiet_held c). } { lia. } { destruct (roomy_near _ _ _ Hn2 Hroom0) as (_ & ? & _). done. }
  fold ip3. rewrite Hr3. rewrite T2 in Ht3. set (v3 := <[_ := _]> v2) in Ht3.
  destruct (IBLOCK_spec E S _ Hl Hin) as (_ & Hib & _).
  exists c3, f3, v3, (logged (IBLOCK (i_inum ip) S) bl2), (<[i := ip3]> t2). split; [done|]. split; [congruence|]. split; [done|].
  split; [apply logged_in|]. split; [pose proof (logged_length (IBLOCK (i_inum ip) S) bl2); lia|].
  split; [intros x Hx; rewrite lookup_total_insert_ne by done; by apply Ho2|]. rewrite lookup_total_insert_eq. split; [done|].
  split; [|split].
  - assert (inode_fits ip3) as Hfit.
    { destruct Hsh as (S1 & S2 & S3 & S4). unfold inode_fits. rewrite T6, T7, T8, T9, T10. split_and!; try done.
      intros k Hk. rewrite T11 by done. lia. }
    unfold disk_inode. rewrite T2. unfold v3. rewrite fn_lookup_insert.
    destruct (dinode_store_load ip3 (v2 (IBLOCK (i_inum ip) S)) Hfit) as [Hd _]. cbv zeta in Hd. rewrite T2 in Hd. exact Hd.
  - intros x Hx. assert (used v3 S x = used v2 S x) as ->.
    { unfold used, v3. rewrite one_bitmap by done. by rewrite fn_lookup_insert_ne by lia. }
    unfold v2. apply (free_all_used E); [done| |done]. intros b Hb. by apply Hus.
  - intros x Hx Hxi. unfold v3. rewrite fn_lookup_insert_ne by done. apply free_all_other; [|done]. intros b Hb. by apply Hus.
Qed.

Lemma i_acquiresleep_run c (s : fs K) i : L_inodesleep i ∉ held c -> sl_locked (i_lock (itab s !!! i)) = 0 ->
  i_acquiresleep i c s = Ok tt c (put_itab (<[i := set_ilock (Sleeplock 1 (cur_pid s)) (itab s !!! i)]> (itab s)) s).
Proof.
  intros Hh Hk. unfold i_acquiresleep. rewrite bind_get. unfold zoom. cbn [lget lput ilock_lens].
  by rewrite acquiresleep_free.
Qed.

Lemma i_releasesleep_run c (s : fs K) i : L_inodesleep i ∉ held c ->
  exists c', i_releasesleep i c s = Ok tt c' (put_itab (<[i := set_ilock (Sleeplock 0 0) (itab s !!! i)]> (itab s)) s) /\ held c' = held c.
Proof.
  intros Hh. unfold i_releasesleep, zoom. cbn [lget lput ilock_lens]. unfold releasesleep.
  rewrite bind_acquire by done. rewrite !bind_modify. unfold wakeup_ev. mrun. by eexists.
Qed.

(** C26: iput.  Unless it drops the last reference to a valid inode without links, iput only takes one reference
    away.  When it does, it frees the file: exactly the blocks of the file are given back to the
    bitmap, the inode is marked free on disk, and the slot becomes free; no block outside the bitmap and
    the inode's own block changes. *)
Theorem iput_correct v bl c s i ip :
  file_ok v S ip -> shorts_fit ip -> 0 <= i_inum ip < sb_ninodes S -> itab s !!! i = ip -> sb s = S -> quiet c ->
  L_itable ∉ held c -> L_inodesleep i ∉ held c -> sl_locked (i_lock ip) = 0 ->
  (length bl + 3 < bc_nbuf)%nat -> Z.of_nat (length bl) + 2 < log_cap E -> txn E (fy s) v bl ∅ ∅ ->
  if (i_ref ip =? 1) && negb (i_valid ip =? 0) && (i_nlink ip =? 0) then
    exists c' f v' bl' t', iput i c s = Ok tt c' (with_fi s f t') /\ held c' = held c /\ txn E f v' bl' ∅ ∅ /\
      (forall x, x <> i -> t' !!! x = itab s !!! x) /\ i_ref (t' !!! i) = 0 /\ i_valid (t' !!! i) = 0 /\
      di_type (v' (IBLOCK (i_inum ip) S)) (dip (i_inum ip)) = 0 /\
      (forall x, 0 <= x < sb_size S -> used v' S x = negb (bool_decide (x ∈ all_blocks v ip)) && used v S x) /\
      (forall x, x <> bm -> x <> IBLOCK (i_inum ip) S -> v' x = v x)
  else iput i c s = Ok tt c (put_itab (<[i := set_ref (i_ref ip - 1) ip]> (itab s)) s).
Proof.
  intros Hf Hsh Hin Hi Hsb Hq Hit His Hlk Hnb Hcap Ht. unfold iput. rewrite bind_acquire, bind_getip, Hi by done.
  destruct ((i_ref ip =? 1) && negb (i_valid ip =? 0) && (i_nlink ip =? 0)) eqn:Ec.
  2:{ rewrite bind_ret, bind_modip, Hi. by mrun. }
  rewrite !bind_assoc.
  assert (L_inodesleep i ∉ L_itable :: held c) as His' by (apply not_elem_of_cons; done).
  rewrite (bind_Ok _ _ _ _ _ _ _ (i_acquiresleep_run (Ctx (L_itable :: held c) (out c)) s i His' ltac:(by rewrite Hi))).
  rewrite Hi. mrun. set (ip1 := set_ilock (Sleeplock 1 (cur_pid s)) ip). set (s1 := put_itab (<[i := ip1]> (itab s)) s).
  assert (file_ok v S ip1) as Hf1 by (by apply (file_ok_fields v S ip)).
  destruct (itrunc_run v bl c s1 i ip1 Hf1 Hsh Hin) as (c2 & f2 & v2 & bl2 & t2 & Hr2 & Hh2 & Ht2 & Hb2 & Hl2 & Ho2 & Htr & Hd2 & Hu2 & Hx2); try done; try lia.
  { cbn [s1 put_itab itab]. by rewrite lookup_total_insert_eq. }
  change (i_inum ip1) with (i_inum ip) in *. rewrite (bind_Ok _ _ _ _ _ _ _ Hr2). mrun. rewrite bind_modip. cbn [with_fi itab].
  destruct Htr as (T1 & T2 & T3 & T4 & T5 & T6 & T7 & T8 & T9 & T10 & T11). set (ip2 := t2 !!! i) in *.
  change (i_inum ip1) with (i_inum ip) in T2. set (ip3 := set_type 0 ip2). set (s3 := put_itab _ _).
  destruct (iupdate_run E S v2 bl2 c2 s3 i ip3 Hl) as (c3 & f3 & Hr3 & Hh3 & Ht3); try done.
  { cbn [s3 put_itab itab]. by rewrite lookup_total_insert_eq. } { cbn. rewrite T1. apply Hf. } { cbn. by rewrite T2. }
  { by apply (quiet_held c). } { lia. } { lia. }
  change (i_inum ip3) with (i_inum ip2) in Ht3. rewrite T2 in Ht3. set (v3 := <[_ := _]> v2) in Ht3.
  mrun. rewrite (bind_Ok _ _ _ _ _ _ _ Hr3). mrun. rewrite bind_modip. cbn [with_fy s3 put_itab itab]. rewrite lookup_total_insert_eq, insert_insert_eq.
  set (s4 := put_itab _ _). mrun.
  destruct (i_releasesleep_run c3 s4 i) as (c4 & Hr4 & Hh4); [by rewrite Hh3, Hh2|].
  rewrite (bind_Ok _ _ _ _ _ _ _ Hr4). cbn [s4 put_itab itab]. rewrite lookup_total_insert_eq, insert_insert_eq.
  rewrite bind_acquire by (rewrite Hh4, Hh3, Hh2; done). rewrite bind_modip. cbn [put_itab itab]. rewrite lookup_total_insert_eq, insert_insert_eq. mrun.
  destruct (IBLOCK_spec E S _ Hl Hin) as (_ & Hib & _).
  eexists c4, f3, v3, _, _. split; [reflexivity|]. split; [congruence|]. split; [exact Ht3|].
  split; [intros x Hx; rewrite lookup_total_insert_ne by done; rewrite Ho2 by done; cbn [s1 put_itab itab]; by rewrite lookup_total_insert_ne|].
  rewrite lookup_total_insert_eq. cbn [set_ref set_ilock set_ivalid i_ref i_valid]. split; [change (i_ref ip3) with (i_ref ip2); rewrite T3; cbn; lia|]. split; [done|].
  split; [|split].
  - unfold v3. rewrite fn_lookup_insert.
    assert (inode_fits ip3) as Hfit.
    { destruct Hsh as (S1 & S2 & S3 & S4). unfold inode_fits. cbn [ip3 set_type i_type i_major i_minor i_nlink i_size i_addrs]. rewrite T7, T8, T9, T10. split_and!; try done.
      intros k Hk. rewrite T11 by done. lia. }
    destruct (dinode_store_load ip3 (v2 (IBLOCK (i_inum ip) S)) Hfit) as [(Hd & _) _]. cbv zeta in Hd.
    change (i_inum ip3) with (i_inum ip2) in Hd. rewrite T2 in Hd. exact Hd.
  - intros x Hx. rewrite <- Hu2 by done. unfold used, v3. rewrite one_bitmap by done. by rewrite fn_lookup_insert_ne by lia.
  - intros x Hx Hxi. unfold v3. rewrite fn_lookup_insert_ne by done. by apply Hx2.
Qed.
End Trunc.
End FsInode.
