(* ===== verification/FsLink.v ===== *)
(** dirlink() with all its outcomes (kernel/fs.c: dirlink). *)
From stdpp Require Import functions.
From S2P Require Import Prelude Machine CString Kalloc Vm PageTable UserMem UserCopy Sleeplock BlockCache Log Fs FsBlocks FsFile FsWrite FsDir FsInode.
Local Open Scope Z_scope.

Section FsLink.
Context `{KI : KernelImage} {K : Type} `{BC : BlockCache K}.

(** iput() of an inode that is referenced elsewhere, or not in memory: one reference less and nothing else. *)
Lemma iput_drop i c (s : fs K) : L_itable ∉ held c -> i_ref (itab s !!! i) <> 1 \/ i_valid (itab s !!! i) = 0 ->
  iput i c s = Ok tt c (put_itab (<[i := set_ref (i_ref (itab s !!! i) - 1) (itab s !!! i)]> (itab s)) s).
Proof.
  intros Hl H. unfold iput. rewrite bind_acquire by done. rewrite bind_getip.
  assert ((i_ref (itab s !!! i) =? 1) && negb (i_valid (itab s !!! i) =? 0) && (i_nlink (itab s !!! i) =? 0) = false) as ->.
  { destruct H as [H|H]; [by rewrite (proj2 (Z.eqb_neq _ _) H)|]. by rewrite H, andb_false_r. }
  rewrite bind_ret, bind_modip. by destruct c.
Qed.

(** The inodes that are in use are the same in both tables. *)
Definition same_inodes (t t' : gmap nat inode) : Prop :=
  forall j, i_ref (t' !!! j) = i_ref (t !!! j) /\ (i_ref (t !!! j) <> 0 -> t' !!! j = t !!! j).

Lemma same_inodes_fresh t t' i x : (forall j, j <> i -> t' !!! j = t !!! j) -> i_ref (t !!! i) = 0 -> i_ref x = 0 -> same_inodes t (<[i := x]> t').
Proof.
  intros Ho H0 Hx j. destruct (decide (j = i)) as [->|Hj]; [rewrite lookup_total_insert_eq; split; congruence|]. rewrite lookup_total_insert_ne by done. by rewrite Ho.
Qed.

(** iget() and then iput(): the references are as before. *)
Lemma iget_iput dev inum c (s : fs K) : itab_ok (itab s) -> L_itable ∉ held c -> (exists j, (j < ninode)%nat /\ i_ref (itab s !!! j) = 0) ->
  exists i t1 t2, iget dev inum c s = Ok i c (put_itab t1 s) /\ iput i c (put_itab t1 s) = Ok tt c (put_itab t2 s) /\ same_inodes (itab s) t2.
Proof.
  intros Hok Hl (j0 & Hj0 & Hz). destruct (iget_correct dev inum c s Hok Hl) as [(i & t1 & Hi & Hr & _ & (Hp & _) & Ho & Hcase)|(_ & Hn)]; [|by destruct (Hn j0 Hj0)].
  exists i, t1, (<[i := set_ref (i_ref (t1 !!! i) - 1) (t1 !!! i)]> t1). split; [done|]. destruct Hcase as [((H1 & _) & E)|(_ & H0 & E1 & Ev)].
  - split; [apply (iput_drop i c (put_itab t1 s)); [done|]; left; cbn; rewrite E; cbn; lia|]. intros j. destruct (decide (j = i)) as [->|Hj].
    + rewrite lookup_total_insert_eq, E. cbn [set_ref i_ref]. replace (i_ref (itab s !!! i) + 1 - 1) with (i_ref (itab s !!! i)) by lia. by destruct (itab s !!! i).
    + rewrite lookup_total_insert_ne by done. by rewrite Ho.
  - split; [apply (iput_drop i c (put_itab t1 s)); [done|]; by right|]. apply same_inodes_fresh; [done|done|]. cbn. lia.
Qed.

(** C29: dirlink, with room in the log and in the inode table.  When the name is bound already it returns -1; no block and no
    inode in use changes.  When the name is free, it returns 0 having bound the name to the inode number - dirlookup finds this binding, and every
    other name is bound as before - or it returns -1, and then every entry is in use and the directory has
    the largest size, and nothing changes, or the disk is full, and all names are bound as before. *)
Theorem dirlink_correct E S v bl c s i ip name inum : dir_env E S v bl c s i ip ->
  0 < inum < 2 ^ 16 -> Forall (fun b => 0 <= b < 256) name -> Z.of_nat (length bl) + 7 <= log_cap E -> (length bl + 7 < bc_nbuf)%nat ->
  itab_ok (itab s) -> L_itable ∉ held c -> (exists j, (j < ninode)%nat /\ i_ref (itab s !!! j) = 0) ->
  exists r c' f v' bl' t', dirlink i name inum c s = Ok r c' (with_fi s f t') /\ held c' = held c /\ txn E f v' bl' ∅ ∅ /\
    match dir_find v ip name with
    | Some _ => r = -1 /\ v' = v /\ bl' = bl /\ same_inodes (itab s) t'
    | None =>
        (r = 0 /\ (exists off, dir_find v' (t' !!! i) name = Some (inum, off)) /\
         forall name', key name' <> key name -> dir_find v' (t' !!! i) name' = dir_find v ip name') \/
        (r = -1 /\ dir_full v ip /\ v' = v /\ bl' = bl /\ t' = itab s) \/
        (r = -1 /\ (forall x, 0 <= x < sb_size S -> used v' S x = true) /\ forall name', dir_find v' (t' !!! i) name' = dir_find v ip name')
    end.
Proof.
  intros Hd Hin Hb Hcap Hnb Hok Hl Hfree. destruct (dir_find v ip name) as [[inum' off]|] eqn:Hf; [|by apply dirlink_unbound].
  unfold dirlink. destruct (dirlookup_run E S v bl c s i ip name Hd) as (c1 & f1 & Hh1 & Ht1 & Hr1). rewrite Hf in Hr1.
  destruct (iget_iput ROOTDEV inum' c1 (with_fy s f1)) as (j & t1 & t2 & Hg & Hp & Hs); [done|by rewrite Hh1|done|].
  rewrite (bind_Ok _ _ _ _ _ _ _ Hg) in Hr1. rewrite (bind_Ok _ _ _ _ _ _ _ Hr1), (bind_Ok _ _ _ _ _ _ _ Hp).
  exists (-1), c1, f1, v, bl, t2. done.
Qed.
End FsLink.
