(* ===== verification/FsExamples.v ===== *)
(** Concrete states of the file system at which the theorems of [FsBlocks], [FsWrite], [FsInode]
    and [FsLink] apply: the disk mkfs lays out with one file of three bytes, a transaction
    with an empty log, and the file or an empty directory in slot 0 of the inode table. *)
From stdpp Require Import functions.
From S2P Require Import Prelude Machine CString Kalloc Vm PageTable UserMem UserCopy Concrete Sleeplock BlockCache Bio Log.
From S2P Require Import DiskExamples Pipe PipeExamples Fs FsBlocks FsFile FsWrite FsDir FsInode FsLink.
Local Open Scope Z_scope.

(** 2000 blocks: boot, super, 30 log blocks, 13 inode blocks and one bitmap block. *)
Definition demo_sb : superblock := Superblock FSMAGIC 2000 1954 200 30 2 32 45.

(** The bitmap marks the 46 metadata blocks and block 46, which belongs to the file. *)
Definition demo_bitmap : block := {[0 := 255; 1 := 255; 2 := 255; 3 := 255; 4 := 255; 5 := 127]}.
Definition demo_disk : gmap Z block := {[45 := demo_bitmap; 46 := {[0 := 7; 1 := 8; 2 := 9]}]}.
Definition demo_env : tenv := Tenv demo_disk 2 30 1.
Definition demo_view : Z -> block := on_disk demo_disk.

Definition demo_inode (nlink : Z) : inode :=
  Inode ROOTDEV 1 1 (Sleeplock 0 0) 1 T_FILE 0 0 nlink 3 {[0 := 46]}.
Definition demo_dir : inode := Inode ROOTDEV 2 1 (Sleeplock 0 0) 1 T_DIR 0 0 1 0 ∅.

Definition demo_cache : bio :=
  match binit (Ctx [] []) (bio0 demo_disk 1) with Ok _ _ k => k | _ => bio0 demo_disk 1 end.

Definition demo_fs (ip : inode) : fs bio :=
  Fs (Fsys (demo_log []) demo_cache) demo_sb {[0%nat := ip]} demo_user 1 demo_root 0.

Lemma demo_layout : layout demo_env demo_sb.
Proof. split; vm_compute; intuition discriminate. Qed.

Lemma demo_meta : meta_used demo_view demo_sb.
Proof.
  assert (forallb (used demo_view demo_sb) (map Z.of_nat (seq 0 46)) = true) as H by (vm_compute; reflexivity).
  intros b Hb. rewrite forallb_forall in H. apply H, in_map_iff. exists (Z.to_nat b).
  change (nmeta demo_sb) with 46 in Hb. split; [lia|]. apply in_seq. lia.
Qed.

Lemma demo_quiet : quiet (Ctx [] []).
Proof. split; [apply demo_free|]. split; apply not_elem_of_nil. Qed.

Lemma demo_txn ip : txn demo_env (fy (demo_fs ip)) demo_view [] ∅ ∅.
Proof.
  split; [|done| |done].
  - split; [done|cbn; lia|cbn; lia|done|cbn; lia|done|done|constructor|]. intros bn ?%elem_of_nil. done.
  - destruct (binit_rep (Ctx [] []) demo_disk 1) as (k & Hr & R). exists (CState demo_view demo_disk [] ∅).
    cbn [demo_fs fy cache]. unfold demo_cache. rewrite Hr. split; [exact R|]. split; [done|]. split; [done|].
    intros bn. rewrite !lookup_empty. done.
Qed.

Lemma demo_faddr n bn : faddr demo_view (demo_inode n) bn = if bn =? 0 then 46 else 0.
Proof.
  unfold faddr. rewrite NDIRECT_val. destruct (Z.ltb_spec bn 12).
  - unfold arr. cbn [demo_inode i_addrs]. destruct (Z.eqb_spec bn 0) as [->|]; [done|]. by rewrite lookup_singleton_ne.
  - destruct (Z.eqb_spec bn 0); [lia|]. done.
Qed.

Lemma demo_data_block : data_block demo_view demo_sb 46.
Proof. split; [vm_compute; intuition discriminate|vm_compute; reflexivity]. Qed.

Lemma demo_file_ok n : file_ok demo_view demo_sb (demo_inode n).
Proof.
  split; [done| |done|].
  - intros bn _. rewrite demo_faddr. destruct (bn =? 0); [intros _; apply demo_data_block|done].
  - intros a b _ _. rewrite !demo_faddr. destruct (Z.eqb_spec a 0), (Z.eqb_spec b 0); (done || lia).
Qed.

Lemma demo_file : file_env demo_env demo_sb demo_view [] (Ctx [] []) (demo_fs (demo_inode 1)) 0 (demo_inode 1).
Proof.
  split; [apply demo_layout|apply demo_meta|apply demo_file_ok| |done|vm_compute; intuition discriminate|done|done
         |apply demo_quiet|apply demo_txn].
  split; [vm_compute; intuition discriminate|]. change (i_size _) with 3. change BSIZE with 1024.
  intros bn H0 H1. rewrite demo_faddr. destruct (Z.eqb_spec bn 0); [done|lia].
Qed.

Lemma demo_dir_faddr bn : faddr demo_view demo_dir bn = 0.
Proof. unfold faddr. by destruct (bn <? NDIRECT). Qed.

Lemma demo_dir_env : dir_env demo_env demo_sb demo_view [] (Ctx [] []) (demo_fs demo_dir) 0 demo_dir.
Proof.
  split; [|done|done|vm_compute; lia].
  split; [apply demo_layout|apply demo_meta| | |done|vm_compute; intuition discriminate|done|done
         |apply demo_quiet|apply demo_txn].
  - split; [done|intros bn _ H; by rewrite demo_dir_faddr in H|done|intros a b _ _ H; by rewrite demo_dir_faddr in H].
  - split; [vm_compute; intuition discriminate|]. change (i_size _) with 0. change BSIZE with 1024. lia.
Qed.

Lemma balloc_correct_witness : exists c' s',
  balloc ROOTDEV (Ctx [] []) (demo_fs (demo_inode 1)) = Ok 47 c' s'.
Proof.
  destruct (balloc_correct demo_env demo_sb demo_view [] ∅ (Ctx [] []) (demo_fs (demo_inode 1)) demo_layout demo_meta)
    as (r & c' & f & v' & bl' & Hr & _ & _ & Hc); [| done | apply demo_quiet | vm_compute; lia | vm_compute; done | apply demo_txn |].
  { intros x i Hx. by rewrite lookup_empty in Hx. }
  exists c', (with_fy (demo_fs (demo_inode 1)) f). assert (used demo_view demo_sb 47 = false) as H47 by (vm_compute; reflexivity).
  destruct (decide (r = 0)) as [_|_].
  - destruct Hc as [H _]. rewrite H in H47 by (cbn; lia). discriminate H47.
  - destruct Hc as (H1 & H46 & H2 & _). change (nmeta demo_sb) with 46 in H1.
    destruct (decide (r = 47)) as [->|]; [exact Hr|].
    destruct (decide (r = 46)) as [->|]; [vm_compute in H46; discriminate H46|].
    rewrite H2 in H47 by lia. discriminate H47.
Defined.

Lemma writei_correct_witness : exists k c' s', (k <= 3)%nat /\
  writei 0%nat (inr [1; 2; 3]) 3 3 (Ctx [] []) (demo_fs (demo_inode 1)) = Ok (Z.of_nat k) c' s'.
Proof.
  destruct (writei_correct demo_env demo_sb demo_view [] (Ctx [] []) _ 0%nat _ (inr [1; 2; 3]) [1; 2; 3] 3 demo_file)
    as (k & c' & f & v' & bl' & t' & Hk & Hr & _); [by exists []|cbn; lia|vm_compute; discriminate|vm_compute; discriminate|vm_compute; lia|].
  exists k, c', (with_fi (demo_fs (demo_inode 1)) f t'). split; [exact Hk|exact Hr].
Defined.

(** Two of the three bytes go to the process, across a page boundary. *)
Lemma readi_correct_witness : exists c' s' bs,
  readi 0%nat (Some 4095) 1 7 (Ctx [] []) (demo_fs (demo_inode 1)) = Ok (2, bs) c' s'.
Proof.
  destruct demo_space as (fl & T & L & Hi & Hu & _ & Es).
  destruct (readi_correct demo_env demo_sb demo_view [] (Ctx [] []) _ 0%nat _ fl T L 4095 1 7 demo_file)
    as (c' & f & bs & Hr & _); [vm_compute; lia|cbn; lia|lia|lia|lia|lia|exact Hu|exact Hi|].
  change (Z.min 7 (i_size (demo_inode 1) - 1)) with 2 in Hr.
  change (fslice demo_view (demo_inode 1) 1 (Z.to_nat 2)) with [8; 9] in Hr.
  cbn [write_user stored] in Hr, Es. destruct (uaddr PTE_WU L 4095); [|discriminate Es].
  destruct (uaddr PTE_WU L (4095 + 1)); [|discriminate Es]. eexists c', _, bs. exact Hr.
Defined.

Lemma writei_readi_roundtrip_witness : exists c1 s1 c2 s2,
  writei 0%nat (inr [1; 2; 3]) 2 3 (Ctx [] []) (demo_fs (demo_inode 1)) = Ok 3 c1 s1 /\
  readi 0%nat None 2 3 c1 s1 = Ok (3, [1; 2; 3]) c2 s2.
Proof.
  assert (answer (writei 0%nat (inr [1; 2; 3]) 2 3 (Ctx [] []) (demo_fs (demo_inode 1))) = Some 3) as Ha
    by (vm_compute; reflexivity).
  destruct (writei 0%nat (inr [1; 2; 3]) 2 3 (Ctx [] []) (demo_fs (demo_inode 1))) as [r c1 s1| | |] eqn:E;
    cbn [answer] in Ha; [injection Ha as ->|discriminate Ha..].
  destruct (writei_readi_roundtrip demo_env demo_sb demo_view [] (Ctx [] []) _ 0%nat _ (inr [1; 2; 3]) [1; 2; 3] 2 c1 s1
    demo_file) as (c2 & s2 & Hr);
    [by exists []|cbn; lia|vm_compute; discriminate|vm_compute; discriminate|vm_compute; lia|exact E|].
  exists c1, s1, c2, s2. split; [reflexivity|exact Hr].
Defined.

(** The name sh is entered into an empty directory. *)
Lemma demo_itab j : itab (demo_fs demo_dir) !!! j = if decide (j = 0%nat) then demo_dir else inhabitant.
Proof.
  cbn [demo_fs itab]. destruct (decide (j = 0%nat)) as [->|]; [done|]. unfold lookup_total, map_lookup_total. by rewrite lookup_singleton_ne.
Qed.
Lemma demo_itab_ok : itab_ok (itab (demo_fs demo_dir)).
Proof.
  split.
  - intros j _. rewrite demo_itab. destruct (decide _); vm_compute; discriminate.
  - intros j k _ _. rewrite !demo_itab. destruct (decide (j = 0%nat)), (decide (k = 0%nat)); subst; try done; vm_compute; discriminate.
Qed.

Lemma dirlink_correct_witness : exists c' f t' v' off,
  dirlink 0%nat [115; 104] 5 (Ctx [] []) (demo_fs demo_dir) = Ok 0 c' (with_fi (demo_fs demo_dir) f t') /\ dir_find v' (t' !!! 0%nat) [115; 104] = Some (5, off).
Proof.
  assert (answer (dirlink 0%nat [115; 104] 5 (Ctx [] []) (demo_fs demo_dir)) = Some 0) as Ha by (vm_compute; reflexivity).
  destruct (dirlink_correct demo_env demo_sb demo_view [] (Ctx [] []) _ 0%nat _ [115; 104] 5 demo_dir_env)
    as (r & c' & f & v' & bl' & t' & Hr & _ & _ & Hc);
    [lia|repeat constructor; lia|vm_compute; discriminate|vm_compute; lia|apply demo_itab_ok|apply not_elem_of_nil| |].
  - exists 1%nat. split; [vm_compute; lia|]. by rewrite demo_itab.
  - rewrite Hr in Ha. injection Ha as ->. assert (dir_find demo_view demo_dir [115; 104] = None) as Hf by reflexivity. rewrite Hf in Hc. clear Hf.
    destruct Hc as [(_ & (off & Ho) & _)|[[E _]|[E _]]]; [|discriminate E..]. exists c', f, t', v', off. split; [exact Hr|exact Ho].
Defined.

Lemma iget_correct_witness : exists i s', iget ROOTDEV 2 (Ctx [] []) (demo_fs demo_dir) = Ok i (Ctx [] []) s' /\
  holds_inode (itab s') ROOTDEV 2 i.
Proof.
  destruct (iget_correct ROOTDEV 2 (Ctx [] []) (demo_fs demo_dir)) as [(i & t' & _ & Hr & _ & Hh & _)|(Hr & H)].
  - apply demo_itab_ok.
  - apply not_elem_of_nil.
  - exists i, (put_itab t' (demo_fs demo_dir)). split; [exact Hr|exact Hh].
  - exfalso. apply (H 0%nat); [vm_compute; lia|]. split; [rewrite demo_itab; vm_compute; reflexivity|]. split; rewrite demo_itab; reflexivity.
Defined.

(** The last link of the file is gone: its block becomes free. *)
Lemma iput_correct_witness : exists c' f v' t',
  iput 0%nat (Ctx [] []) (demo_fs (demo_inode 0)) = Ok tt c' (with_fi (demo_fs (demo_inode 0)) f t') /\
  used v' demo_sb 46 = false.
Proof.
  destruct (iput_correct demo_env demo_sb demo_layout ltac:(vm_compute; discriminate) demo_view [] (Ctx [] [])
    (demo_fs (demo_inode 0)) 0%nat (demo_inode 0) (demo_file_ok 0)) as (c' & f & v' & bl' & t' & Hr & _ & _ & _ & _ & _ & _ & Hu & _);
    [done|vm_compute; intuition discriminate|done|done|apply demo_quiet|apply not_elem_of_nil|apply not_elem_of_nil|done
    |vm_compute; lia|vm_compute; done|apply demo_txn|].
  exists c', f, v', t'. split; [exact Hr|]. clear Hr. rewrite Hu by (cbn; lia).
  rewrite bool_decide_true; [done|]. apply (bool_decide_unpack _). vm_compute. exact I.
Defined.
