(* ===== verification/MkFs.v ===== *)
(** mkfs/mkfs.c, the host program that makes the disk image.

    The image is a map from sectors to blocks; a read of a sector that was never written fails.  The state has the
    image and the two counters of the next free inode and block; [None] is die() or a failed assertion.  The files of
    the command line are read from the host: [host] gives the contents of a file, or nothing when it cannot be opened. *)
From S2P Require Import Prelude Machine Sleeplock BlockCache Log Printf Fs.
Local Open Scope Z_scope.

Record img : Type := Img { im_disk : gmap Z block; im_freeinode : Z; im_freeblock : Z }.

Definition MK (A : Type) : Type := img -> option (A * img).
Definition mk_ret {A} (a : A) : MK A := fun im => Some (a, im).
Definition mk_bind {A B} (m : MK A) (k : A -> MK B) : MK B :=
  fun im => match m im with Some (a, im') => k a im' | None => None end.
Definition die {A} : MK A := fun _ => None.
Definition assert_ (b : bool) : MK unit := if b then mk_ret tt else die.

Declare Scope mkfs_scope.
Delimit Scope mkfs_scope with mkfs.
Notation "'let*' x ':=' m 'in' k" := (mk_bind m (fun x => k)) (at level 10, x pattern, m at level 100, k at level 200) : mkfs_scope.
Local Open Scope mkfs_scope.

(** ** Byte order

    The bytes of the variable y, and its value on a little-endian host. *)
Definition xshort (x : Z) : Z := loadn 2 (mset (mset ∅ 0 x) 1 (Z.shiftr x 8)) 0.
Definition xint (x : Z) : Z := loadn 4 (mset (mset (mset (mset ∅ 0 x) 1 (Z.shiftr x 8)) 2 (Z.shiftr x 16)) 3 (Z.shiftr x 24)) 0.

(** ** Layout *)

Definition NINODES : Z := 200.
Definition nbitmap : Z := FSSIZE / BPB + 1.
Definition ninodeblocks : Z := NINODES / IPB + 1.
Definition nlog : Z := LOGSIZE.
Definition nmetas : Z := 2 + nlog + ninodeblocks + nbitmap.
Definition nblocks : Z := FSSIZE - nmetas.

Definition mk_sb : superblock :=
  Superblock FSMAGIC (xint FSSIZE) (xint nblocks) (xint NINODES) (xint nlog) (xint 2) (xint (2 + nlog)) (xint (2 + nlog + ninodeblocks)).

(** memmove(buf, &sb, sizeof(sb)) into a zeroed block. *)
Definition sb_block (sb : superblock) : block :=
  let d := storen 4 ∅ 0 (sb_magic sb) in
  let d := storen 4 d 4 (sb_size sb) in
  let d := storen 4 d 8 (sb_nblocks sb) in
  let d := storen 4 d 12 (sb_ninodes sb) in
  let d := storen 4 d 16 (sb_nlog sb) in
  let d := storen 4 d 20 (sb_logstart sb) in
  let d := storen 4 d 24 (sb_inodestart sb) in
  storen 4 d 28 (sb_bmapstart sb).

(** ** Sectors *)

Definition wsect (sec : Z) (buf : block) : MK unit :=
  fun im => Some (tt, Img (<[sec := buf]> (im_disk im)) (im_freeinode im) (im_freeblock im)).
Definition rsect (sec : Z) : MK block :=
  fun im => match im_disk im !! sec with Some d => Some (d, im) | None => None end.

(** [freeinode++] and [freeblock++] *)
Definition next_inode : MK Z := fun im => Some (im_freeinode im, Img (im_disk im) (u32 (im_freeinode im + 1)) (im_freeblock im)).
Definition next_block : MK Z := fun im => Some (im_freeblock im, Img (im_disk im) (im_freeinode im) (u32 (im_freeblock im + 1))).
Definition get_freeblock : MK Z := fun im => Some (im_freeblock im, im).

(** ** Inodes *)

Record dinode : Type := Dinode {
  d_type : Z;
  d_major : Z;
  d_minor : Z;
  d_nlink : Z;
  d_size : Z;
  d_addrs : gmap Z Z;
}.
Definition set_dsize (n : Z) (d : dinode) : dinode := Dinode (d_type d) (d_major d) (d_minor d) (d_nlink d) n (d_addrs d).
Definition set_daddr (k x : Z) (d : dinode) : dinode := Dinode (d_type d) (d_major d) (d_minor d) (d_nlink d) (d_size d) (<[k := x]> (d_addrs d)).

(** [*dip = *ip] at the byte [o] of a block, and back. *)
Definition din_put (o : Z) (ip : dinode) (b : block) : block :=
  let b := storen 2 b o (d_type ip) in
  let b := storen 2 b (o + 2) (d_major ip) in
  let b := storen 2 b (o + 4) (d_minor ip) in
  let b := storen 2 b (o + 6) (d_nlink ip) in
  let b := storen 4 b (o + 8) (d_size ip) in
  addrs_to NADDRS 0 (d_addrs ip) o b.
Definition din_get (o : Z) (b : block) : dinode :=
  Dinode (di_type b o) (di_major b o) (di_minor b o) (di_nlink b o) (di_size b o) (addrs_from NADDRS 0 b o ∅).

Definition winode (inum : Z) (ip : dinode) : MK unit :=
  let bn := IBLOCK inum mk_sb in
  let* buf := rsect bn in
  wsect bn (din_put (dip inum) ip buf).

Definition rinode (inum : Z) : MK dinode :=
  let bn := IBLOCK inum mk_sb in
  let* buf := rsect bn in
  mk_ret (din_get (dip inum) buf).

Definition ialloc (type : Z) : MK Z :=
  let* inum := next_inode in
  let* _ := winode inum (Dinode (xshort type) 0 0 (xshort 1) (xint 0) ∅) in
  mk_ret inum.

(** ** The bitmap *)

Fixpoint balloc_mark (k : nat) (i : Z) (buf : block) : block :=
  match k with
  | O => buf
  | S k' => balloc_mark k' (i + 1) (mset buf (i / 8) (Z.lor (mget buf (i / 8)) (Z.shiftl 1 (i mod 8))))
  end.

Definition balloc (used : Z) : MK unit :=
  let* _ := assert_ (used <? BPB) in
  wsect (sb_bmapstart mk_sb) (balloc_mark (Z.to_nat used) 0 ∅).

(** ** Appending to a file *)

(** The block of the file that holds the block [fbn], allocated when it is not there. *)
Definition iappend_block (fbn : Z) (din : dinode) : MK (Z * dinode) :=
  if fbn <? NDIRECT then
    let* din := (if xint (arr (d_addrs din) fbn) =? 0 then
                   let* x := next_block in mk_ret (set_daddr fbn (xint x) din)
                 else mk_ret din) in
    mk_ret (xint (arr (d_addrs din) fbn), din)
  else
    let* din := (if xint (arr (d_addrs din) NDIRECT) =? 0 then
                   let* x := next_block in mk_ret (set_daddr NDIRECT (xint x) din)
                 else mk_ret din) in
    let* indirect := rsect (xint (arr (d_addrs din) NDIRECT)) in
    let* indirect := (if word indirect (fbn - NDIRECT) =? 0 then
                        let* x := next_block in
                        let indirect := storen 4 indirect (4 * (fbn - NDIRECT)) (xint x) in
                        let* _ := wsect (xint (arr (d_addrs din) NDIRECT)) indirect in
                        mk_ret indirect
                      else mk_ret indirect) in
    mk_ret (xint (word indirect (fbn - NDIRECT)), din).

(** The while loop of iappend(); [p] is what is left to append. *)
Fixpoint iappend_loop (fuel : nat) (off : Z) (p : list Z) (din : dinode) : MK (Z * dinode) :=
  match p with
  | [] => mk_ret (off, din)
  | _ =>
      match fuel with
      | O => die
      | S f =>
          let fbn := off / BSIZE in
          let* _ := assert_ (fbn <? MAXFILE) in
          let* (x, din) := iappend_block fbn din in
          let n1 := Z.min (Z.of_nat (length p)) ((fbn + 1) * BSIZE - off) in
          let* buf := rsect x in
          let* _ := wsect x (put_bytes buf (off - fbn * BSIZE) (take (Z.to_nat n1) p)) in
          iappend_loop f (off + n1) (drop (Z.to_nat n1) p) din
      end
  end.

Definition iappend (inum : Z) (xp : list Z) : MK unit :=
  let* din := rinode inum in
  let* (off, din) := iappend_loop (length xp) (xint (d_size din)) xp din in
  winode inum (set_dsize (xint off) din).

(** ** main() *)

Fixpoint wzeroes (k : nat) (i : Z) : MK unit :=
  match k with
  | O => mk_ret tt
  | S k' => let* _ := wsect i ∅ in wzeroes k' (i + 1)
  end.

Definition ch_slash : Z := 47.
Definition ch_under : Z := 95.

(** The name of a file in the image. *)
Definition shortname (arg : list Z) : list Z :=
  let s := if bool_decide (take 5 arg = str "user/") then drop 5 arg else arg in
  match s with c :: s' => if c =? ch_under then s' else s | [] => s end.
Definition has_slash (arg : list Z) : bool :=
  let s := if bool_decide (take 5 arg = str "user/") then drop 5 arg else arg in
  existsb (Z.eqb ch_slash) s.

(** [while((cc = read(fd, buf, sizeof(buf))) > 0) iappend(inum, buf, cc)] *)
Fixpoint copy_file (fuel : nat) (inum : Z) (data : list Z) : MK unit :=
  match data with
  | [] => mk_ret tt
  | _ =>
      match fuel with
      | O => die
      | S f =>
          let* _ := iappend inum (take (Z.to_nat BSIZE) data) in
          copy_file f inum (drop (Z.to_nat BSIZE) data)
      end
  end.

Section Host.
Context (host : list Z -> option (list Z)).

Fixpoint add_files (rootino : Z) (argv : list (list Z)) : MK unit :=
  match argv with
  | [] => mk_ret tt
  | arg :: argv' =>
      let* _ := assert_ (negb (has_slash arg)) in
      match host arg with
      | None => die
      | Some data =>
          let* _ := assert_ (Z.of_nat (length (shortname arg)) <=? DIRSIZ) in
          let* inum := ialloc T_FILE in
          let* _ := iappend rootino (dirent (shortname arg) (xshort inum)) in
          let* _ := copy_file (length data) inum data in
          add_files rootino argv'
      end
  end.

Definition mkfs_body (argv : list (list Z)) : MK unit :=
  let* _ := wzeroes (Z.to_nat FSSIZE) 0 in
  let* _ := wsect 1 (sb_block mk_sb) in
  let* rootino := ialloc T_DIR in
  let* _ := assert_ (rootino =? ROOTINO) in
  let* _ := iappend rootino (dirent (str ".") (xshort rootino)) in
  let* _ := iappend rootino (dirent (str "..") (xshort rootino)) in
  let* _ := add_files rootino argv in
  let* din := rinode rootino in
  let off := xint (d_size din) in
  let off := (off / BSIZE + 1) * BSIZE in
  let* _ := winode rootino (set_dsize (xint off) din) in
  let* freeblock := get_freeblock in
  balloc freeblock.

(** The image made from the files of the command line. *)
Definition mkfs (argv : list (list Z)) : option img :=
  match mkfs_body argv (Img ∅ 1 nmetas) with Some (_, im) => Some im | None => None end.

End Host.
