(* ===== verification/MkFsInv.v ===== *)
(** The image made by [MkFs] is a file system the kernel can use.

    The predicates are those of the kernel's file system ([FsBlocks], [FsFile], [FsDir]).  Because mkfs writes the
    bitmap last, the invariant speaks of the view [gv] of the image in which the blocks allocated so far are already
    marked: every operation keeps the files well formed in it, and the final balloc() makes the image equal to it. *)
From stdpp Require Import functions.
From S2P Require Import Prelude Machine CString Sleeplock BlockCache Log Printf Fs FsBlocks FsFile FsWrite FsDir MkFs.
Local Open Scope Z_scope.
Local Open Scope mkfs_scope.

(** ** Byte order *)

Lemma xint_val x : xint x = u32 x.
Proof.
  unfold xint. rewrite !Z.shiftr_div_pow2 by lia. change (2 ^ 16) with (256 * 256). change (2 ^ 24) with (256 * 256 * 256). rewrite <- !Z.div_div by lia.
  exact (loadn_storen_eq 4 ∅ 0 x).
Qed.
Lemma xint_id x : 0 <= x < 2 ^ 32 -> xint x = x.
Proof. intros H. rewrite xint_val. by apply u32_small. Qed.
Lemma xshort_id x : 0 <= x < 2 ^ 16 -> xshort x = x.
Proof. intros H. unfold xshort. rewrite Z.shiftr_div_pow2 by lia. rewrite (loadn_storen_eq 2 ∅ 0 x : loadn 2 (mset (mset ∅ 0 x) 1 (x / 2 ^ 8)) 0 = _). by apply Z.mod_small. Qed.

(** ** Layout *)

Abbreviation S0 := mk_sb.
Definition bm : Z := sb_bmapstart S0.

Lemma S0_val : S0 = Superblock FSMAGIC 2000 1954 200 30 2 32 45.
Proof. reflexivity. Qed.
Lemma nmeta_val : nmeta S0 = 46.
Proof. reflexivity. Qed.
Lemma layout0 d out : layout (Tenv d 2 30 out) S0.
Proof. rewrite S0_val. split; vm_compute; intuition congruence. Qed.
Lemma BBLOCK0 b : 0 <= b < FSSIZE -> BBLOCK b S0 = bm.
Proof. intros Hb. unfold BBLOCK, bm. rewrite S0_val, BPB_val. cbn [sb_bmapstart]. unfold FSSIZE in Hb. rewrite Z.div_small by lia. done. Qed.

(** ** The bitmap *)

Lemma balloc_mark_bit k : forall i buf b, 0 <= i -> 0 <= b -> bit (balloc_mark k i buf) b = bool_decide (i <= b < i + Z.of_nat k) || bit buf b.
Proof.
  induction k as [|k IH]; intros i buf b Hi Hb; cbn [balloc_mark]; [by rewrite bool_decide_eq_false_2 by lia|].
  rewrite IH by lia. change (mset buf (i / 8) (Z.lor (mget buf (i / 8)) (Z.shiftl 1 (i mod 8)))) with (set_bit buf i). rewrite bit_set by lia.
  destruct (Z.eqb_spec i b) as [->|].
  - rewrite (bool_decide_eq_true_2 (b <= b < _)) by lia. cbn. by destruct (bool_decide _).
  - cbn. f_equal. apply bool_decide_ext. lia.
Qed.

(** The blocks below [fb] are marked. *)
Definition mark (fb : Z) (v : Z -> block) : Z -> block := <[bm := balloc_mark (Z.to_nat fb) 0 ∅]> v.

Lemma used_mark fb v b : 0 <= fb -> 0 <= b < FSSIZE -> used (mark fb v) S0 b = (b <? fb).
Proof.
  intros Hf Hb. unfold used, mark. rewrite BBLOCK0 by done. rewrite fn_lookup_insert. rewrite BPB_val. unfold FSSIZE in Hb. rewrite Z.mod_small by lia.
  rewrite balloc_mark_bit by lia. assert (bit ∅ b = false) as ->. { unfold bit. replace (mget ∅ (b / 8)) with 0 by done. apply Z.bits_0. }
  rewrite orb_false_r. destruct (Z.ltb_spec b fb); [apply bool_decide_eq_true_2|apply bool_decide_eq_false_2]; lia.
Qed.

Lemma data_mark fb v x : 0 <= fb <= FSSIZE -> data_block (mark fb v) S0 x <-> 46 <= x < fb.
Proof.
  intros Hf. unfold data_block. rewrite nmeta_val. change (sb_size S0) with FSSIZE. split.
  - intros [H1 H2]. rewrite used_mark in H2 by lia. lia.
  - intros Hx. rewrite used_mark by lia. lia.
Qed.
Lemma mark_other fb v x : x <> bm -> mark fb v x = v x.
Proof. intros H. unfold mark. by rewrite fn_lookup_insert_ne. Qed.

(** ** Files *)

Definition vw (im : img) (b : Z) : block := on_disk (im_disk im) b.
Definition gv (im : img) : Z -> block := mark (im_freeblock im) (vw im).

(** The inode the kernel loads. *)
Definition ino (inum : Z) (d : dinode) : inode :=
  Inode ROOTDEV inum 0 initsleeplock 0 (d_type d) (d_major d) (d_minor d) (d_nlink d) (d_size d) (d_addrs d).

(** A file of [n] bytes with the blocks of the first [m] bytes allocated, the indirect block when [bi]; the bytes after
    the end are zero. *)
Record fileI (v : Z -> block) (ip : inode) (n m : Z) (bi : bool) : Prop := {
  fi_ok : file_ok v S0 ip;
  fi_arr : forall k, 0 <= arr (i_addrs ip) k < 2 ^ 32;
  fi_data : forall bn, 0 <= bn < MAXFILE -> faddr v ip bn <> 0 <-> bn * BSIZE < m;
  fi_ind : ind ip <> 0 <-> bi = true;
  fi_tail : forall o, n <= o < MAXFILE * BSIZE -> fbyte v ip o = 0;
}.

Definition owns (v : Z -> block) (ip : inode) (x : Z) : Prop := x = ind ip \/ exists b, 0 <= b < MAXFILE /\ faddr v ip b = x.

Lemma outside_not_owns v ip x : outside v ip x <-> ~ owns v ip x.
Proof.
  split.
  - intros [H1 H2] [H|(b & Hb & H)]; [done|]. by apply (H2 b).
  - intros H. split; [intros E; apply H; by left|]. intros b Hb E. apply H. right. by exists b.
Qed.

Lemma faddr_same v v' ip bn : file_ok v S0 ip -> (forall x, data_block v S0 x -> v' x = v x) -> faddr v' ip bn = faddr v ip bn.
Proof. intros Hf Hx. apply (faddr_frame v v' S0); [done|]. intros Hi. by apply Hx, (fo_ind _ _ _ Hf Hi). Qed.

Lemma fbyte_same v v' ip o : file_ok v S0 ip -> 0 <= o < MAXFILE * BSIZE -> (forall x, data_block v S0 x -> v' x = v x) -> fbyte v' ip o = fbyte v ip o.
Proof.
  intros Hf Ho Hx. unfold fbyte. rewrite (faddr_same v v') by done. destruct (Z.eqb_spec (faddr v ip (o / BSIZE)) 0) as [|Hn]; [done|].
  rewrite Hx; [done|]. apply (fo_data _ _ _ Hf); [|done]. rewrite MAXFILE_val, BSIZE_val in *. zlia.
Qed.

(** A file does not change when its blocks do not and stay allocated. *)
Lemma fileI_frame v v' ip n m bi : 0 <= n -> fileI v ip n m bi ->
  (forall x, data_block v S0 x -> data_block v' S0 x /\ (owns v ip x -> v' x = v x)) ->
  fileI v' ip n m bi /\ (forall bn, faddr v' ip bn = faddr v ip bn) /\ (forall o, 0 <= o < MAXFILE * BSIZE -> fbyte v' ip o = fbyte v ip o).
Proof.
  intros Hn [Hok Har Hda Hin Hta] Hx.
  assert (forall bn, faddr v' ip bn = faddr v ip bn) as Hfa.
  { intros bn. apply (faddr_frame v v' S0); [done|]. intros Hi. apply Hx; [by apply (fo_ind _ _ _ Hok Hi)|by left]. }
  assert (forall o, 0 <= o < MAXFILE * BSIZE -> fbyte v' ip o = fbyte v ip o) as Hfb.
  { intros o Ho. unfold fbyte. rewrite Hfa. destruct (Z.eqb_spec (faddr v ip (o / BSIZE)) 0) as [|Hnz]; [done|].
    assert (0 <= o / BSIZE < MAXFILE) as Hb by (rewrite MAXFILE_val, BSIZE_val in *; zlia).
    rewrite (proj2 (Hx _ (fo_data _ _ _ Hok _ Hb Hnz))); [done|]. right. by eexists. }
  split; [|done]. split; try done.
  - split.
    + apply Hok.
    + intros bn Hb. rewrite Hfa. intros H. by apply Hx, (fo_data _ _ _ Hok).
    + intros Hi. destruct (fo_ind _ _ _ Hok Hi) as [H1 H2]. split; [by apply Hx|]. intros bn Hb. rewrite Hfa. by apply H2.
    + intros a b Ha Hb. rewrite !Hfa. by apply (fo_inj _ _ _ Hok).
  - intros bn Hb. rewrite Hfa. by apply Hda.
  - intros o Ho. rewrite Hfb by lia. by apply Hta.
Qed.

(** Views that agree on every block. *)
Lemma file_ext v v' ip : (forall x, v' x = v x) ->
  (forall bn, faddr v' ip bn = faddr v ip bn) /\ (forall o, fbyte v' ip o = fbyte v ip o) /\ (forall x, owns v' ip x <-> owns v ip x) /\
  (forall n m bi, fileI v ip n m bi -> fileI v' ip n m bi).
Proof.
  intros Hx. assert (forall bn, faddr v' ip bn = faddr v ip bn) as Hfa by (intros bn; unfold faddr; by rewrite Hx).
  assert (forall o, fbyte v' ip o = fbyte v ip o) as Hfb by (intros o; unfold fbyte; by rewrite Hfa, Hx).
  split; [done|]. split; [done|]. split; [intros x; unfold owns; by setoid_rewrite Hfa|]. intros n m bi [Hok Har Hda Hin Hta].
  split; [|done|by setoid_rewrite Hfa|done|by setoid_rewrite Hfb]. apply (file_ok_frame v); [done|]. intros x [H1 H2]. split; [|done]. split; [done|]. unfold used. by rewrite Hx.
Qed.

(** The number of blocks of a file of [n] bytes. *)
Definition nb (n : Z) : Z := (n + BSIZE - 1) / BSIZE + (if NDIRECT * BSIZE <? n then 1 else 0).
Definition big (n : Z) : bool := NDIRECT * BSIZE <? n.

(** ** Adding a block to a file

    What the parts of iappend() change: blocks of the file and blocks that were free. *)
Record grows (im im' : img) (ip ip' : inode) (cnt : Z) : Prop := {
  gw_ino : im_freeinode im' = im_freeinode im;
  gw_fb : im_freeblock im' = im_freeblock im + cnt /\ 0 <= cnt;
  gw_sect : forall b, is_Some (im_disk im !! b) -> is_Some (im_disk im' !! b);
  gw_zero : forall b i, im_freeblock im' <= b -> mget (vw im' b) i = mget (vw im b) i;
  gw_same : forall b, 0 < b < im_freeblock im -> outside (gv im) ip b -> vw im' b = vw im b;
  gw_out : forall b, 0 < b < im_freeblock im -> outside (gv im) ip b -> outside (gv im') ip' b;
  gw_in : forall b, b <> 0 -> owns (gv im) ip b -> owns (gv im') ip' b;
  gw_new : forall b, im_freeblock im <= b < im_freeblock im' -> owns (gv im') ip' b;
}.

Lemma img_grows_refl im ip : grows im im ip ip 0.
Proof. split; try done; lia. Qed.

Lemma img_grows_trans im1 im2 im3 ip1 ip2 ip3 c1 c2 : 46 <= im_freeblock im1 ->
  grows im1 im2 ip1 ip2 c1 -> grows im2 im3 ip2 ip3 c2 -> grows im1 im3 ip1 ip3 (c1 + c2).
Proof.
  intros H46 A B. pose proof (gw_fb _ _ _ _ _ A) as [Fa Ca]. pose proof (gw_fb _ _ _ _ _ B) as [Fb Cb]. split.
  - rewrite (gw_ino _ _ _ _ _ B). apply A.
  - lia.
  - intros b H. by apply (gw_sect _ _ _ _ _ B), (gw_sect _ _ _ _ _ A).
  - intros b i Hb. rewrite (gw_zero _ _ _ _ _ B), (gw_zero _ _ _ _ _ A) by lia. done.
  - intros b Hb Ho. rewrite (gw_same _ _ _ _ _ B), (gw_same _ _ _ _ _ A); try done; [lia|by apply (gw_out _ _ _ _ _ A)].
  - intros b Hb Ho. apply (gw_out _ _ _ _ _ B); [lia|by apply (gw_out _ _ _ _ _ A)].
  - intros b Hb Ho. by apply (gw_in _ _ _ _ _ B), (gw_in _ _ _ _ _ A).
  - intros b Hb. destruct (decide (b < im_freeblock im2)); [|apply (gw_new _ _ _ _ _ B); lia]. apply (gw_in _ _ _ _ _ B); [lia|]. apply (gw_new _ _ _ _ _ A). lia.
Qed.

(** *** In a fixed view *)

Definition zeroed (d : block) : Prop := forall i, mget d i = 0.

Lemma owns_data v ip n m bi x : fileI v ip n m bi -> owns v ip x -> x = 0 \/ data_block v S0 x.
Proof.
  intros F [->|(b & Hb & <-)].
  - destruct (decide (ind ip = 0)); [by left|]. right. by apply (fo_ind _ _ _ (fi_ok _ _ _ _ _ F)).
  - destruct (decide (faddr v ip b = 0)); [by left|]. right. by apply (fo_data _ _ _ (fi_ok _ _ _ _ _ F)).
Qed.
Lemma fresh_not_owned v ip r : r <> 0 -> ~ owns v ip r -> fresh v ip r.
Proof. intros H0 H. apply outside_not_owns in H as [H1 H2]. split; [done|]. split; [congruence|done]. Qed.

Lemma block_of n : 0 <= n -> n / BSIZE * BSIZE <= n < (n / BSIZE + 1) * BSIZE.
Proof. intros H. rewrite BSIZE_val. zlia. Qed.

(** The file ends at a block boundary when its next block is not there. *)
Lemma at_boundary v ip n bi : fileI v ip n n bi -> 0 <= n -> n / BSIZE < MAXFILE -> faddr v ip (n / BSIZE) = 0 -> n = n / BSIZE * BSIZE.
Proof.
  intros F Hn Hb Hz. pose proof (fi_data _ _ _ _ _ F (n / BSIZE)) as Hd. pose proof (block_of n Hn).
  assert (0 <= n / BSIZE) by (rewrite BSIZE_val; zlia). destruct (decide (n / BSIZE * BSIZE < n)); [|lia]. by apply Hd in Hz.
Qed.

Lemma add_direct v ip n bi r : fileI v ip n n bi -> 0 <= n -> n / BSIZE < NDIRECT -> faddr v ip (n / BSIZE) = 0 ->
  data_block v S0 r -> 0 <= r < 2 ^ 32 -> fresh v ip r -> zeroed (v r) ->
  let ip' := set_addr (n / BSIZE) r ip in
  fileI v ip' n (n + 1) bi /\ (forall o, fbyte v ip' o = fbyte v ip o) /\ faddr v ip' (n / BSIZE) = r /\
  (forall x, x <> 0 -> owns v ip' x <-> owns v ip x \/ x = r).
Proof.
  intros F Hn Hb Hz Hd Hr Hfr Hzr ip'. pose proof (block_of n Hn) as Hbo. assert (0 <= n / BSIZE) as H0 by (rewrite BSIZE_val; zlia).
  assert (n / BSIZE < MAXFILE) as Hm by (rewrite MAXFILE_val, NDIRECT_val in *; lia). pose proof (at_boundary _ _ _ _ F Hn Hm Hz) as En.
  assert (forall b, faddr v ip' b = if decide (n / BSIZE = b) then r else faddr v ip b) as Hfa by (intros b; by apply faddr_direct).
  assert (ind ip' = ind ip) as Ei by (unfold ind, ip'; cbn [set_addr i_addrs]; rewrite arr_insert, decide_False by lia; done).
  assert (forall o, fbyte v ip' o = fbyte v ip o) as Hfb.
  { intros o. unfold fbyte. rewrite Hfa. case_decide as E; [|done]. rewrite <- E, Hz. cbn [Z.eqb]. rewrite Hzr. by destruct (r =? 0). }
  split; [|split; [done|split; [by rewrite Hfa, decide_True|]]].
  - split.
    + by apply file_ok_direct; [apply F|..].
    + intros k. unfold ip'. cbn [set_addr i_addrs]. rewrite arr_insert. case_decide; [done|]. by apply (fi_arr _ _ _ _ _ F).
    + intros b Hbr. rewrite Hfa. pose proof (fi_data _ _ _ _ _ F b Hbr) as Hdb. destruct Hfr as [Hr0 _]. rewrite BSIZE_val in *. case_decide; [subst b; split; lia|]. rewrite Hdb. lia.
    + rewrite Ei. by apply (fi_ind _ _ _ _ _ F).
    + intros o Ho. rewrite Hfb. by apply (fi_tail _ _ _ _ _ F).
  - intros x Hx. unfold owns. rewrite Ei. split.
    + intros [->|(b & Hbr & E)]; [by left; left|]. rewrite Hfa in E. case_decide; [by right|]. left. right. by exists b.
    + intros [[->|(b & Hbr & E)]| ->]; [by left| |].
      * right. exists b. split; [done|]. rewrite Hfa, decide_False; [done|]. congruence.
      * right. exists (n / BSIZE). split; [lia|]. by rewrite Hfa, decide_True.
Qed.

Lemma add_ind v ip n m r : fileI v ip n m false -> 0 <= n -> data_block v S0 r -> 0 <= r < 2 ^ 32 -> fresh v ip r -> zeroed (v r) ->
  let ip' := set_addr NDIRECT r ip in
  fileI v ip' n m true /\ (forall b, 0 <= b < MAXFILE -> faddr v ip' b = faddr v ip b) /\ (forall o, 0 <= o < MAXFILE * BSIZE -> fbyte v ip' o = fbyte v ip o) /\ ind ip' = r /\
  (forall x, x <> 0 -> owns v ip' x <-> owns v ip x \/ x = r).
Proof.
  intros F Hn Hd Hr Hfr Hzr ip'. assert (ind ip = 0) as Hi by (destruct (decide (ind ip = 0)) as [|H]; [done|]; by apply (fi_ind _ _ _ _ _ F) in H).
  assert (forall b, 0 <= b < MAXFILE -> faddr v ip' b = faddr v ip b) as Hfa by (intros b Hb; apply faddr_newind; [done..|]; intros i _; apply Hzr).
  assert (ind ip' = r) as Ei by (unfold ind, ip'; cbn [set_addr i_addrs]; by rewrite arr_insert, decide_True).
  assert (forall o, 0 <= o < MAXFILE * BSIZE -> fbyte v ip' o = fbyte v ip o) as Hfb.
  { intros o Ho. unfold fbyte. rewrite Hfa; [done|]. rewrite MAXFILE_val, BSIZE_val in *. zlia. }
  split; [|split; [done|split; [done|split; [done|]]]].
  - split.
    + apply file_ok_newind; [apply F|done..|]. intros i _. apply Hzr.
    + intros k. unfold ip'. cbn [set_addr i_addrs]. rewrite arr_insert. case_decide; [done|]. by apply (fi_arr _ _ _ _ _ F).
    + intros b Hb. rewrite Hfa by done. by apply (fi_data _ _ _ _ _ F).
    + rewrite Ei. destruct Hfr. done.
    + intros o Ho. rewrite Hfb by lia. by apply (fi_tail _ _ _ _ _ F).
  - intros x Hx. unfold owns. rewrite Ei, Hi. split.
    + intros [->|(b & Hb & E)]; [by right|]. rewrite Hfa in E by done. left. right. by exists b.
    + intros [[->|(b & Hb & E)]| ->]; [done| |by left]. right. exists b. by rewrite Hfa.
Qed.

Lemma add_word v ip n r : fileI v ip n n true -> 0 <= n -> NDIRECT <= n / BSIZE < MAXFILE -> faddr v ip (n / BSIZE) = 0 ->
  data_block v S0 r -> 0 <= r < 2 ^ 32 -> fresh v ip r -> zeroed (v r) ->
  let v' := enter ip (n / BSIZE) r v in
  fileI v' ip n (n + 1) true /\ (forall o, 0 <= o < MAXFILE * BSIZE -> fbyte v' ip o = fbyte v ip o) /\ faddr v' ip (n / BSIZE) = r /\
  (forall x, x <> 0 -> owns v' ip x <-> owns v ip x \/ x = r).
Proof.
  intros F Hn Hb Hz Hd Hr Hfr Hzr v'. pose proof (block_of n Hn) as Hbo. pose proof (at_boundary _ _ _ _ F Hn ltac:(lia) Hz) as En.
  assert (ind ip <> 0) as Hi by (by apply (fi_ind _ _ _ _ _ F)). destruct (fo_ind _ _ _ (fi_ok _ _ _ _ _ F) Hi) as [Hdi Hni].
  assert (forall b, faddr v' ip b = if decide (n / BSIZE = b) then r else faddr v ip b) as Hfa by (intros b; apply faddr_enter; [done|lia|done]).
  assert (forall x, x <> ind ip -> v' x = v x) as Hv by (intros x Hx; unfold v', enter; by rewrite fn_lookup_insert_ne).
  assert (forall o, 0 <= o < MAXFILE * BSIZE -> fbyte v' ip o = fbyte v ip o) as Hfb.
  { intros o Ho. assert (0 <= o / BSIZE < MAXFILE) by (rewrite MAXFILE_val, BSIZE_val in *; zlia). unfold fbyte. rewrite Hfa. destruct Hfr as (Hr0 & Hri & _). case_decide as E.
    - rewrite <- E, Hz. cbn [Z.eqb]. rewrite Hv, Hzr by done. by destruct (r =? 0).
    - destruct (Z.eqb_spec (faddr v ip (o / BSIZE)) 0); [done|]. rewrite Hv; [done|]. by apply Hni. }
  assert (0 <= n / BSIZE) as H0 by (rewrite NDIRECT_val in *; lia).
  split; [|split; [done|split; [by rewrite Hfa, decide_True|]]].
  - split.
    + by apply (file_ok_enter (Tenv ∅ 2 30 0)); [apply layout0|apply F|..].
    + apply (fi_arr _ _ _ _ _ F).
    + intros b Hbr. rewrite Hfa. pose proof (fi_data _ _ _ _ _ F b Hbr) as Hdb. destruct Hfr as [Hr0 _]. rewrite BSIZE_val in *. case_decide; [subst b; split; lia|]. rewrite Hdb. lia.
    + by apply (fi_ind _ _ _ _ _ F).
    + intros o Ho. rewrite Hfb by lia. by apply (fi_tail _ _ _ _ _ F).
  - intros x Hx. unfold owns. split.
    + intros [->|(b & Hbr & E)]; [by left; left|]. rewrite Hfa in E. case_decide; [by right|]. left. right. by exists b.
    + intros [[->|(b & Hbr & E)]| ->]; [by left| |].
      * right. exists b. split; [done|]. rewrite Hfa, decide_False; [done|]. congruence.
      * right. exists (n / BSIZE). split; [lia|]. by rewrite Hfa, decide_True.
Qed.

(** *** On the image *)

(** Every sector is there, and the blocks that are not allocated are zero. *)
Record good (im : img) : Prop := {
  gd_sect : forall b, 0 <= b < FSSIZE -> is_Some (im_disk im !! b);
  gd_zero : forall b, im_freeblock im <= b -> zeroed (vw im b);
  gd_fb : 46 <= im_freeblock im <= FSSIZE;
}.

Lemma good_grows im im' ip ip' c : good im -> grows im im' ip ip' c -> im_freeblock im' <= FSSIZE -> good im'.
Proof.
  intros G W Hf. pose proof (gw_fb _ _ _ _ _ W) as [Ef Hc]. destruct G as [Gs Gz Gf]. split.
  - intros b Hb. by apply (gw_sect _ _ _ _ _ W), Gs.
  - intros b Hb i. rewrite (gw_zero _ _ _ _ _ W) by done. apply Gz. lia.
  - lia.
Qed.

Lemma gv_data im x : good im -> data_block (gv im) S0 x <-> 46 <= x < im_freeblock im.
Proof. intros G. apply data_mark. pose proof (gd_fb _ G). lia. Qed.
Lemma gv_vw im x : 46 <= x -> gv im x = vw im x.
Proof. intros H. apply mark_other. unfold bm. rewrite S0_val. cbn. lia. Qed.
Lemma rsect_ok im x : good im -> 0 <= x < FSSIZE -> rsect x im = Some (vw im x, im).
Proof. intros G H. unfold rsect, vw, on_disk. destruct (gd_sect _ G x H) as [d ->]. done. Qed.

Definition bump (im : img) : img := Img (im_disk im) (im_freeinode im) (im_freeblock im + 1).

Lemma next_block_ok im : good im -> im_freeblock im < FSSIZE -> next_block im = Some (im_freeblock im, bump im).
Proof. intros G H. unfold next_block, bump. pose proof (gd_fb _ G). unfold FSSIZE in *. by rewrite u32_small by lia. Qed.

(** The next block is free, belongs to no file and is zero; taking it changes no file. *)
Lemma bump_ok im ip n m bi : good im -> im_freeblock im < FSSIZE -> 0 <= n -> fileI (gv im) ip n m bi ->
  let r := im_freeblock im in
  let v := gv (bump im) in
  fileI v ip n m bi /\ (forall b, faddr v ip b = faddr (gv im) ip b) /\ (forall o, 0 <= o < MAXFILE * BSIZE -> fbyte v ip o = fbyte (gv im) ip o) /\
  (forall x, owns v ip x <-> owns (gv im) ip x) /\ data_block v S0 r /\ 0 <= r < 2 ^ 32 /\ fresh v ip r /\ zeroed (v r).
Proof.
  intros G Hf Hn F r v. pose proof (gd_fb _ G) as Hfb. assert (forall x, data_block v S0 x <-> 46 <= x < r + 1) as Hdv by (intros x; apply data_mark; cbn; lia).
  destruct (fileI_frame (gv im) v ip n m bi Hn F) as (F' & Hfa & Hby).
  { intros x Hx. apply gv_data in Hx; [|done]. split; [apply Hdv; lia|]. intros _. unfold v. rewrite !gv_vw by lia. done. }
  assert (forall x, owns v ip x <-> owns (gv im) ip x) as Ho by (intros x; unfold owns; by setoid_rewrite Hfa).
  split_and!; try done; [apply Hdv; lia|lia|unfold FSSIZE in *; lia| |].
  - apply fresh_not_owned; [lia|]. rewrite Ho. intros H. destruct (owns_data _ _ _ _ _ _ F H) as [|Hd]; [lia|]. apply gv_data in Hd; [lia|done].
  - unfold v. rewrite gv_vw by lia. by apply (gd_zero _ G).
Qed.

(** A file that got the next block. *)
Lemma grows_add im im' ip ip' : 46 <= im_freeblock im -> im_freeinode im' = im_freeinode im -> im_freeblock im' = im_freeblock im + 1 ->
  (forall b, is_Some (im_disk im !! b) -> is_Some (im_disk im' !! b)) ->
  (forall b, im_freeblock im <= b \/ outside (gv im) ip b -> vw im' b = vw im b) ->
  (forall x, x <> 0 -> owns (gv im') ip' x <-> owns (gv im) ip x \/ x = im_freeblock im) ->
  grows im im' ip ip' 1.
Proof.
  intros H46 Hi Hf Hs Hv Ho. split; try done.
  - intros b i Hb. rewrite Hv; [done|]. left. lia.
  - intros b Hb H. apply Hv. by right.
  - intros b Hb H. apply outside_not_owns. rewrite Ho by lia. apply outside_not_owns in H. intros [?|?]; [done|lia].
  - intros b Hb H. apply Ho; [done|]. by left.
  - intros b Hb. apply Ho; [lia|]. right. lia.
Qed.

Lemma ino_addr inum k x d : ino inum (set_daddr k x d) = set_addr k x (ino inum d).
Proof. done. Qed.

(** The same inode but for the addresses. *)
Definition same_head (d d' : dinode) : Prop := d' = Dinode (d_type d) (d_major d) (d_minor d) (d_nlink d) (d_size d) (d_addrs d').

Lemma nb_step n : 0 <= n -> nb (n + 1) - nb n = (if n mod BSIZE =? 0 then 1 else 0) + (if n =? NDIRECT * BSIZE then 1 else 0).
Proof.
  intros H. unfold nb. rewrite NDIRECT_val, BSIZE_val. destruct (Z.eqb_spec (n mod 1024) 0), (Z.eqb_spec n (12 * 1024)), (Z.ltb_spec (12 * 1024) n), (Z.ltb_spec (12 * 1024) (n + 1)); zlia.
Qed.

(** What finding the block of the byte [n] gives. *)
Definition block_got (im : img) (inum n : Z) (din : dinode) (r : option ((Z * dinode) * img)) : Prop :=
  exists x din' im', r = Some ((x, din'), im') /\ same_head din din' /\ grows im im' (ino inum din) (ino inum din') (nb (n + 1) - nb n) /\
    fileI (gv im') (ino inum din') n (n + 1) (big (n + 1)) /\ x = faddr (gv im') (ino inum din') (n / BSIZE) /\ x <> 0 /\
    forall o, 0 <= o < MAXFILE * BSIZE -> fbyte (gv im') (ino inum din') o = fbyte (gv im) (ino inum din) o.

(** The block is there already. *)
Lemma block_there im inum n din bi : fileI (gv im) (ino inum din) n n bi -> bi = big n -> 0 <= n -> n / BSIZE < MAXFILE -> faddr (gv im) (ino inum din) (n / BSIZE) <> 0 ->
  block_got im inum n din (Some ((faddr (gv im) (ino inum din) (n / BSIZE), din), im)).
Proof.
  intros F -> Hn Hm Hx. assert (0 <= n / BSIZE) by (rewrite BSIZE_val; zlia). pose proof (block_of n Hn) as Hbo.
  assert (n / BSIZE * BSIZE < n) as Hlt by (by apply (fi_data _ _ _ _ _ F)).
  assert (nb (n + 1) - nb n = 0 /\ big (n + 1) = big n) as [E1 E2].
  { rewrite nb_step by done. unfold big. rewrite NDIRECT_val, BSIZE_val in *. destruct (Z.eqb_spec (n mod 1024) 0), (Z.eqb_spec n (12 * 1024)); zlia. }
  exists (faddr (gv im) (ino inum din) (n / BSIZE)), din, im. rewrite E1, E2. split_and!; try done; [by destruct din|apply img_grows_refl|].
  destruct F as [F1 F2 F3 F4 F5]. split; try done. intros b Hb. rewrite F3 by done. rewrite BSIZE_val in *. zlia.
Qed.

Lemma iappend_direct im inum n din : good im -> fileI (gv im) (ino inum din) n n (big n) -> 0 <= n -> n / BSIZE < NDIRECT ->
  im_freeblock im + (nb (n + 1) - nb n) <= FSSIZE -> block_got im inum n din (iappend_block (n / BSIZE) din im).
Proof.
  intros G F Hn Hb Hf. pose proof (gd_fb _ G) as Gf. unfold iappend_block. rewrite (proj2 (Z.ltb_lt _ _)) by done. assert (n / BSIZE < MAXFILE) as Hm by (rewrite MAXFILE_val, NDIRECT_val in *; lia).
  pose proof (fi_arr _ _ _ _ _ F (n / BSIZE)) as Ha. cbn [ino i_addrs] in Ha. rewrite (xint_id (arr (d_addrs din) _)) by done.
  assert (faddr (gv im) (ino inum din) (n / BSIZE) = arr (d_addrs din) (n / BSIZE)) as Ef by (unfold faddr; rewrite (proj2 (Z.ltb_lt _ _)) by done; done).
  unfold mk_bind, mk_ret. destruct (Z.eqb_spec (arr (d_addrs din) (n / BSIZE)) 0) as [E0|E0].
  - assert (nb (n + 1) - nb n = 1 /\ big (n + 1) = big n) as [E1 E2].
    { pose proof (at_boundary _ _ _ _ F Hn Hm ltac:(congruence)). rewrite nb_step by done. unfold big. rewrite NDIRECT_val, BSIZE_val in *. destruct (Z.eqb_spec (n mod 1024) 0), (Z.eqb_spec n (12 * 1024)); zlia. }
    rewrite next_block_ok by (done || lia). destruct (bump_ok im _ n n (big n) G ltac:(lia) Hn F) as (F1 & Hfa & Hby & Ho & Hd & Hr & Hfr & Hz).
    destruct (add_direct _ _ n (big n) _ F1 Hn Hb ltac:(rewrite Hfa; congruence) Hd Hr Hfr Hz) as (F2 & Hby2 & Hx & Ho2).
    rewrite !(xint_id (im_freeblock im)) by done. cbn [set_daddr d_addrs]. rewrite arr_insert, decide_True by done. rewrite xint_id by done.
    eexists _, _, _. split; [done|]. rewrite E1, E2. change (ino inum (set_daddr ?k ?x ?d)) with (set_addr k x (ino inum d)).
    split; [done|]. split; [|split; [exact F2|split; [symmetry; exact Hx|split; [lia|]]]].
    + apply grows_add; try done; [by apply G|]. intros x Hx0. rewrite Ho2 by done. by rewrite Ho.
    + intros o Hr'. rewrite Hby2. by apply Hby.
  - rewrite <- Ef. rewrite <- Ef in E0. rewrite Ef at 1. rewrite xint_id by done. rewrite <- Ef. by apply (block_there _ _ _ _ (big n)).
Qed.

Definition ensure_ind (din : dinode) : MK dinode :=
  if xint (arr (d_addrs din) NDIRECT) =? 0 then let* x := next_block in mk_ret (set_daddr NDIRECT (xint x) din) else mk_ret din.

Lemma ensure_ind_ok im inum n din : good im -> fileI (gv im) (ino inum din) n n (big n) -> 0 <= n -> NDIRECT <= n / BSIZE < MAXFILE ->
  im_freeblock im + (nb (n + 1) - nb n) <= FSSIZE ->
  exists din1 im1 c, ensure_ind din im = Some (din1, im1) /\ same_head din din1 /\ c = (if n =? NDIRECT * BSIZE then 1 else 0) /\
    grows im im1 (ino inum din) (ino inum din1) c /\ fileI (gv im1) (ino inum din1) n n true /\ big (n + 1) = true /\
    forall o, 0 <= o < MAXFILE * BSIZE -> fbyte (gv im1) (ino inum din1) o = fbyte (gv im) (ino inum din) o.
Proof.
  intros G F Hn Hb Hf. pose proof (gd_fb _ G) as Gf. unfold ensure_ind. pose proof (fi_arr _ _ _ _ _ F NDIRECT) as Ha. cbn [ino i_addrs] in Ha. rewrite xint_id by done.
  assert (NDIRECT * BSIZE <= n) as Hge by (rewrite NDIRECT_val, BSIZE_val in *; zlia). assert (big (n + 1) = true) as Hbig by (unfold big; lia).
  pose proof (fi_ind _ _ _ _ _ F) as Hi. change (ind (ino inum din)) with (arr (d_addrs din) NDIRECT) in Hi.
  rewrite nb_step in Hf by done. destruct (Z.eqb_spec (arr (d_addrs din) NDIRECT) 0) as [E0|E0].
  - assert (big n = false) as Eb by (destruct (big n); [by apply Hi in E0|done]). assert (n = NDIRECT * BSIZE) as En by (unfold big in Eb; lia).
    rewrite (proj2 (Z.eqb_eq _ _) En) in *. rewrite Eb in F. assert (im_freeblock im < FSSIZE) by (destruct (n mod BSIZE =? 0); lia). unfold mk_bind, mk_ret.
    rewrite next_block_ok by done. destruct (bump_ok im _ n n false G ltac:(lia) Hn F) as (F1 & Hfa & Hby & Ho & Hd & Hr & Hfr & Hz).
    destruct (add_ind _ _ n n _ F1 Hn Hd Hr Hfr Hz) as (F2 & Hfa2 & Hby2 & Hx & Ho2). rewrite xint_id by done.
    eexists _, _, _. split; [done|]. split; [done|]. split; [done|]. split; [|split; [exact F2|split; [done|]]].
    + apply grows_add; try done; [lia|]. intros x Hx0. rewrite Ho2 by done. by rewrite Ho.
    + intros o Hr'. rewrite Hby2 by done. by apply Hby.
  - assert (big n = true) as Eb by (by apply Hi). rewrite Eb in F. assert (n <> NDIRECT * BSIZE) as En by (unfold big in Eb; lia).
    rewrite (proj2 (Z.eqb_neq _ _) En). eexists _, _, _. split; [done|]. split_and!; try done; [by destruct din|apply img_grows_refl].
Qed.

Lemma iappend_indirect im inum n din : good im -> fileI (gv im) (ino inum din) n n (big n) -> 0 <= n -> NDIRECT <= n / BSIZE < MAXFILE ->
  im_freeblock im + (nb (n + 1) - nb n) <= FSSIZE -> block_got im inum n din (iappend_block (n / BSIZE) din im).
Proof.
  intros G F Hn Hb Hf. unfold iappend_block. rewrite (proj2 (Z.ltb_ge _ _)) by lia. fold (ensure_ind din).
  destruct (ensure_ind_ok im inum n din G F Hn Hb Hf) as (din1 & im1 & c & E & Hh & Ec & W & F1 & Hbig & Hby). unfold mk_bind at 1. rewrite E. clear E.
  pose proof (gd_fb _ G) as Gf. pose proof (gw_fb _ _ _ _ _ W) as [Ef Hc]. rewrite nb_step in Hf by done. rewrite <- Ec in Hf.
  assert (good im1) as G1 by (apply (good_grows _ _ _ _ _ G W); destruct (n mod BSIZE =? 0); lia).
  set (ip1 := ino inum din1) in *. assert (ind ip1 <> 0) as Hi by (by apply (fi_ind _ _ _ _ _ F1)). destruct (fo_ind _ _ _ (fi_ok _ _ _ _ _ F1) Hi) as [Hdi Hni].
  apply gv_data in Hdi; [|done]. change (arr (d_addrs din1) NDIRECT) with (ind ip1). pose proof (gd_fb _ G1) as Gf1. assert (0 <= ind ip1 < 2 ^ 32) as Hir by (apply (fi_arr _ _ _ _ _ F1)).
  rewrite (xint_id (ind ip1)) by done. unfold mk_bind, mk_ret. rewrite rsect_ok by (done || lia).
  assert (faddr (gv im1) ip1 (n / BSIZE) = word (vw im1 (ind ip1)) (n / BSIZE - NDIRECT)) as Ew.
  { unfold faddr. rewrite (proj2 (Z.ltb_ge _ _)) by lia. destruct (Z.eqb_spec (ind ip1) 0); [done|]. by rewrite gv_vw by lia. }
  rewrite <- Ew. destruct (Z.eqb_spec (faddr (gv im1) ip1 (n / BSIZE)) 0) as [E0|E0].
  - assert (n mod BSIZE = 0) as Em by (rewrite (at_boundary _ _ _ _ F1 Hn ltac:(lia) E0) at 1; rewrite BSIZE_val; zlia). rewrite Em in Hf. cbn [Z.eqb] in Hf.
    rewrite next_block_ok by (done || lia). destruct (bump_ok im1 _ n n true G1 ltac:(lia) Hn F1) as (F2 & Hfa & Hby2 & Ho & Hd & Hr & Hfr & Hz).
    destruct (add_word _ _ n _ F2 Hn Hb ltac:(by rewrite Hfa) Hd Hr Hfr Hz) as (F3 & Hby3 & Hx & Ho3).
    rewrite !(xint_id (im_freeblock im1)) by done. unfold wsect. cbn [bump im_disk im_freeinode im_freeblock].
    set (d' := storen 4 (vw im1 (ind ip1)) _ _). set (im2 := Img _ _ _).
    assert (forall x, gv im2 x = enter ip1 (n / BSIZE) (im_freeblock im1) (gv (bump im1)) x) as Eg.
    { intros x. assert (ind ip1 <> bm) by (unfold bm; rewrite S0_val; cbn; lia). unfold enter, d', im2, gv, mark, vw, on_disk. cbn [im_disk im_freeblock bump].
      destruct (decide (x = ind ip1)) as [->|Hne]; [rewrite fn_lookup_insert_ne, fn_lookup_insert, lookup_insert_eq, fn_lookup_insert_ne by done; done|].
      rewrite (fn_lookup_insert_ne _ (ind ip1)) by done. destruct (decide (x = bm)) as [->|]; [by rewrite !fn_lookup_insert|]. rewrite !fn_lookup_insert_ne by done. by rewrite lookup_insert_ne. }
    destruct (file_ext _ (gv im2) ip1 Eg) as (Xf & Xb & Xo & XI). assert (word d' (n / BSIZE - NDIRECT) = im_freeblock im1) as ->.
    { unfold d'. rewrite word_store by lia. by rewrite Z.eqb_refl. }
    rewrite xint_id by done. exists (im_freeblock im1), din1, im2. split; [done|]. split; [done|]. rewrite nb_step, Em, <- Ec, Hbig by done. cbn [Z.eqb].
    split; [|split; [by apply XI|split; [by rewrite Xf|split; [lia|]]]].
    + replace (1 + c) with (c + 1) by lia. apply (img_grows_trans _ im1 _ _ ip1); [lia|done|]. apply (grows_add im1 im2 ip1 ip1); try done; [lia|..].
      * intros b Hb'. unfold im2. cbn [im_disk]. rewrite lookup_insert_is_Some. destruct (decide (ind ip1 = b)); tauto.
      * intros b Hb'. unfold im2, vw, on_disk. cbn [im_disk]. rewrite lookup_insert_ne; [done|]. destruct Hb' as [|[? _]]; [lia|congruence].
      * intros x Hx0. rewrite Xo, Ho3 by done. by rewrite Ho.
    + intros o Hr'. rewrite Xb, Hby3, Hby2 by done. by apply Hby.
  - assert (n mod BSIZE <> 0) as Em.
    { pose proof (proj1 (fi_data _ _ _ _ _ F1 (n / BSIZE) ltac:(rewrite NDIRECT_val in *; lia)) E0). rewrite BSIZE_val in *. zlia. }
    assert (big n = true) as Eb by (unfold big; rewrite NDIRECT_val, BSIZE_val in *; zlia). assert (n <> NDIRECT * BSIZE) as En by (unfold big in Eb; lia).
    rewrite (proj2 (Z.eqb_neq _ _) En) in Ec. rewrite xint_id by apply word_range. rewrite <- Ew.
    destruct (block_there im1 inum n din1 true F1 ltac:(done) Hn ltac:(lia) E0) as (x & d2 & im2 & E & H1 & H2 & H3 & H4 & H5 & H6).
    injection E as <- <- <-. eexists _, _, _. split; [done|]. split; [done|]. rewrite nb_step, (proj2 (Z.eqb_neq _ _) Em), (proj2 (Z.eqb_neq _ _) En) by done.
    split; [by rewrite Ec in W|]. done.
Qed.

(** ** Appending bytes *)

(** Within a block the number of blocks stays. *)
Lemma nb_block n k : 0 <= n -> 0 < k -> n + k <= (n / BSIZE + 1) * BSIZE -> nb (n + k) = nb (n + 1) /\ big (n + k) = big (n + 1).
Proof. intros. unfold nb, big. rewrite NDIRECT_val, BSIZE_val in *. destruct (Z.ltb_spec (12 * 1024) (n + k)), (Z.ltb_spec (12 * 1024) (n + 1)); zlia. Qed.

Lemma nb_mono a b : 0 <= a <= b -> nb a <= nb b.
Proof. intros. unfold nb. rewrite NDIRECT_val, BSIZE_val in *. destruct (Z.ltb_spec (12 * 1024) a), (Z.ltb_spec (12 * 1024) b); zlia. Qed.

Definition store (x : Z) (d : block) (im : img) : img := Img (<[x := d]> (im_disk im)) (im_freeinode im) (im_freeblock im).

Lemma store_ok im ip n bi bs : let x := faddr (gv im) ip (n / BSIZE) in let k := Z.of_nat (length bs) in
  good im -> fileI (gv im) ip n (n + 1) bi -> 0 <= n < MAXFILE * BSIZE -> x <> 0 -> 0 < k -> n + k <= (n / BSIZE + 1) * BSIZE ->
  let im' := store x (put_bytes (vw im x) (n - n / BSIZE * BSIZE) bs) im in
  grows im im' ip ip 0 /\ fileI (gv im') ip (n + k) (n + k) bi /\
  (forall o, 0 <= o < MAXFILE * BSIZE -> fbyte (gv im') ip o = if decide (n <= o < n + k) then u8 (nth (Z.to_nat (o - n)) bs 0) else fbyte (gv im) ip o).
Proof.
  intros x k G F Hn Hx Hk Hnk im'. assert (0 <= n / BSIZE < MAXFILE) as Hb by (rewrite MAXFILE_val, BSIZE_val in *; zlia).
  pose proof (fi_ok _ _ _ _ _ F) as Hok. pose proof (fo_data _ _ _ Hok _ Hb Hx) as Hd. pose proof (proj1 (gv_data im x G) Hd) as Hxr.
  assert (x <> ind ip) as Hxi. { destruct (decide (ind ip = 0)) as [->|Hi]; [done|]. by apply (fo_ind _ _ _ Hok Hi). }
  assert (n - n / BSIZE * BSIZE = n mod BSIZE) as Em by (rewrite BSIZE_val; zlia).
  assert (forall y, gv im' y = poke x (n mod BSIZE) bs (gv im) y) as Eg.
  { assert (x <> bm) by (unfold bm; rewrite S0_val; cbn; lia). intros y. unfold poke, im', store, gv, mark, vw, on_disk. cbn [im_disk im_freeblock]. rewrite Em.
    destruct (decide (y = x)) as [->|Hne]; [rewrite fn_lookup_insert_ne, lookup_insert_eq, fn_lookup_insert, fn_lookup_insert_ne by done; done|].
    rewrite (fn_lookup_insert_ne _ x) by done. destruct (decide (y = bm)) as [->|]; [by rewrite !fn_lookup_insert|]. rewrite !fn_lookup_insert_ne by done. by rewrite lookup_insert_ne. }
  destruct (poke_ok (Tenv ∅ 2 30 0) S0 (gv im) ip x (n mod BSIZE) bs (layout0 _ _) Hok Hd Hxi) as (Hfa & Hok' & _).
  destruct (file_ext _ (gv im') ip Eg) as (Xf & Xb & Xo & _).
  assert (forall o, 0 <= o < MAXFILE * BSIZE -> fbyte (gv im') ip o = if decide (n <= o < n + k) then u8 (nth (Z.to_nat (o - n)) bs 0) else fbyte (gv im) ip o) as Hby.
  { intros o Ho. rewrite Xb. apply (poke_fbyte (Tenv ∅ 2 30 0) S0); try done. rewrite BSIZE_val in *. zlia. }
  split; [|split; [|done]].
  - assert (forall b, b <> x -> vw im' b = vw im b) as Hv by (intros b Hne; unfold im', store, vw, on_disk; cbn [im_disk]; by rewrite lookup_insert_ne).
    assert (forall y, owns (gv im') ip y <-> owns (gv im) ip y) as Ho by (intros y; rewrite Xo; unfold owns; by setoid_rewrite Hfa).
    assert (owns (gv im) ip x) as Hox by (right; by eexists).
    split; try done; [cbn; lia|..].
    + intros b Hs. unfold im', store. cbn [im_disk]. rewrite lookup_insert_is_Some. destruct (decide (x = b)); tauto.
    + intros b i Hb'. rewrite Hv; [done|]. cbn in Hb'. lia.
    + intros b _ Hout. apply Hv. intros ->. by apply outside_not_owns in Hout.
    + intros b _ Hout. apply outside_not_owns. rewrite Ho. by apply outside_not_owns.
    + intros b _. apply Ho.
    + intros b Hb'. cbn in Hb'. lia.
  - destruct F as [_ F2 F3 F4 F5]. split; try done.
    + apply (file_ok_frame (poke x (n mod BSIZE) bs (gv im))); [done|]. intros y [H1 H2]. split; [|done]. split; [done|]. unfold used. by rewrite Eg.
    + intros bn Hbn. rewrite Xf, Hfa, F3 by done. rewrite BSIZE_val in *. zlia.
    + intros o Ho. rewrite Hby by lia. rewrite decide_False by lia. apply F5. lia.
Qed.

(** What appending [p] to a file of [n] bytes gives. *)
Record appended (im im' : img) (inum n : Z) (din din' : dinode) (p : list Z) : Prop := {
  ap_head : same_head din din';
  ap_grows : grows im im' (ino inum din) (ino inum din') (nb (n + Z.of_nat (length p)) - nb n);
  ap_file : fileI (gv im') (ino inum din') (n + Z.of_nat (length p)) (n + Z.of_nat (length p)) (big (n + Z.of_nat (length p)));
  ap_old : forall o, 0 <= o < n -> fbyte (gv im') (ino inum din') o = fbyte (gv im) (ino inum din) o;
  ap_new : forall j, (j < length p)%nat -> fbyte (gv im') (ino inum din') (n + Z.of_nat j) = u8 (nth j p 0);
}.

Lemma iappend_loop_ok fuel : forall im inum n din p, (length p <= fuel)%nat -> good im -> fileI (gv im) (ino inum din) n n (big n) -> 0 <= n ->
  n + Z.of_nat (length p) <= MAXFILE * BSIZE -> im_freeblock im + (nb (n + Z.of_nat (length p)) - nb n) <= FSSIZE ->
  exists din' im', iappend_loop fuel n p din im = Some ((n + Z.of_nat (length p), din'), im') /\ appended im im' inum n din din' p.
Proof.
  induction fuel as [|f IH]; intros im inum n din p Hfu G F Hn Hmax Hfs.
  all: destruct p as [|c0 p0]; [exists din, im; cbn [iappend_loop length]; rewrite Z.add_0_r; split; [done|]; split; cbn [length]; rewrite ?Z.add_0_r, ?Z.sub_diag; try done; [by destruct din|apply img_grows_refl|lia]|cbn [length] in Hfu; try lia].
  set (p := c0 :: p0) in *. assert (length p <= S f)%nat as Hfp by (unfold p; cbn [length]; lia). cbn [iappend_loop]. fold p. change (match p with [] => _ | _ :: _ => ?x end) with x.
  assert (0 < Z.of_nat (length p)) as Hl by (unfold p; cbn [length]; lia). pose proof (block_of n Hn) as Hbo.
  assert (n / BSIZE < MAXFILE) as Hm by (rewrite MAXFILE_val, BSIZE_val in *; zlia). unfold assert_. rewrite (proj2 (Z.ltb_lt _ _)) by done. unfold mk_bind at 1. cbn [mk_ret].
  set (n1 := Z.min (Z.of_nat (length p)) ((n / BSIZE + 1) * BSIZE - n)). assert (0 < n1) as Hn1 by lia.
  destruct (nb_block n n1 Hn Hn1 ltac:(lia)) as [Enb Ebig].
  pose proof (nb_mono (n + n1) (n + Z.of_nat (length p)) ltac:(lia)) as Hmono. pose proof (nb_mono n (n + n1) ltac:(lia)) as Hmono2.
  assert (block_got im inum n din (iappend_block (n / BSIZE) din im)) as (x & d1 & im1 & E1 & Hh1 & W1 & F1 & Ex & Hx0 & Hby1).
  { destruct (decide (n / BSIZE < NDIRECT)); [apply iappend_direct|apply iappend_indirect]; try done; lia. }
  unfold mk_bind at 1. rewrite E1. pose proof (gw_fb _ _ _ _ _ W1) as [Ef1 _]. pose proof (good_grows _ _ _ _ _ G W1 ltac:(lia)) as G1.
  assert (0 <= n / BSIZE < MAXFILE) as Hb by (rewrite BSIZE_val in *; zlia). pose proof (fo_data _ _ _ (fi_ok _ _ _ _ _ F1) _ Hb ltac:(congruence)) as Hd. apply gv_data in Hd; [|done].
  pose proof (gd_fb _ G1) as Gf1. unfold mk_bind at 1. rewrite rsect_ok by (done || lia). unfold mk_bind at 1. unfold wsect at 1.
  set (bs := take (Z.to_nat n1) p). assert (Z.of_nat (length bs) = n1) as Ebs by (unfold bs; rewrite length_take; lia).
  destruct (store_ok im1 (ino inum d1) n (big (n + 1)) bs G1 F1 ltac:(rewrite MAXFILE_val, BSIZE_val in *; lia) ltac:(congruence) ltac:(lia) ltac:(lia)) as (W2 & F2 & Hby2).
  rewrite <- Ex in W2, F2, Hby2. rewrite Ebs in F2, Hby2. fold (store x (put_bytes (vw im1 x) (n - n / BSIZE * BSIZE) bs) im1). set (im2 := store x _ im1) in *.
  rewrite <- Ebig in F2. pose proof (good_grows _ _ _ _ _ G1 W2 ltac:(cbn; lia)) as G2. assert (length (drop (Z.to_nat n1) p) = length p - Z.to_nat n1)%nat as El by apply length_drop.
  assert (n + n1 + Z.of_nat (length (drop (Z.to_nat n1) p)) = n + Z.of_nat (length p)) as El2 by (rewrite El; lia).
  destruct (IH im2 inum (n + n1) d1 (drop (Z.to_nat n1) p)) as (d3 & im3 & E3 & A); try done; try lia; [rewrite El2; cbn [im2 store im_freeblock]; lia|].
  rewrite E3. rewrite El2. exists d3, im3. split; [done|]. destruct A as [Ah Ag Af Ao An]. rewrite El2 in Ag, Af. split; try done.
  - unfold same_head in *. rewrite Ah, Hh1. done.
  - replace (nb (n + Z.of_nat (length p)) - nb n) with ((nb (n + 1) - nb n) + (0 + (nb (n + Z.of_nat (length p)) - nb (n + n1)))) by lia.
    pose proof (gd_fb _ G). eapply img_grows_trans; [lia|exact W1|]. eapply img_grows_trans; [lia|exact W2|exact Ag].
  - intros o Ho. rewrite Ao by lia. rewrite Hby2 by lia. rewrite decide_False by lia. apply Hby1. lia.
  - intros j Hj. destruct (decide (Z.of_nat j < n1)) as [Hlt|Hge].
    + rewrite Ao by lia. rewrite Hby2 by lia. rewrite decide_True by lia. f_equal. replace (Z.to_nat (n + Z.of_nat j - n)) with j by lia.
      unfold bs. rewrite nth_firstn, (proj2 (Nat.ltb_lt _ _)) by lia. done.
    + replace (n + Z.of_nat j) with (n + n1 + Z.of_nat (j - Z.to_nat n1)) by lia. rewrite An by lia. f_equal. rewrite nth_skipn. f_equal. lia.
Qed.

(** ** Inodes on the image *)

Definition node (im : img) (inum : Z) : dinode := din_get (dip inum) (vw im (IBLOCK inum S0)).
Definition wnode (im : img) (inum : Z) (d : dinode) : img := store (IBLOCK inum S0) (din_put (dip inum) d (vw im (IBLOCK inum S0))) im.

Lemma IBLOCK0 i : 0 <= i < 208 -> IBLOCK i S0 = i / 16 + 32 /\ 32 <= IBLOCK i S0 < 45.
Proof. intros H. unfold IBLOCK. rewrite S0_val, IPB_val. cbn [sb_inodestart]. rewrite u32_small by zlia. zlia. Qed.

Lemma rinode_ok im i : good im -> 0 <= i < 208 -> rinode i im = Some (node im i, im).
Proof. intros G H. destruct (IBLOCK0 i H) as [_ Hb]. unfold rinode, mk_bind, mk_ret. rewrite rsect_ok by (done || (unfold FSSIZE; lia)). done. Qed.
Lemma winode_ok im i d : good im -> 0 <= i < 208 -> winode i d im = Some (tt, wnode im i d).
Proof. intros G H. destruct (IBLOCK0 i H) as [_ Hb]. unfold winode, mk_bind. rewrite rsect_ok by (done || (unfold FSSIZE; lia)). done. Qed.

Lemma vw_wnode im i d b : 0 <= i < 208 -> b < 32 \/ 45 <= b -> vw (wnode im i d) b = vw im b.
Proof. intros H Hb. destruct (IBLOCK0 i H) as [_ Hi]. unfold vw, wnode, store, on_disk. cbn [im_disk]. by rewrite lookup_insert_ne by lia. Qed.
Lemma good_wnode im i d : good im -> 0 <= i < 208 -> good (wnode im i d).
Proof.
  intros G H. split.
  - intros b Hb. unfold wnode, store. cbn [im_disk]. rewrite lookup_insert_is_Some. pose proof (gd_sect _ G b Hb). destruct (decide (IBLOCK i S0 = b)); tauto.
  - intros b Hb. cbn in Hb. pose proof (gd_fb _ G). rewrite vw_wnode by lia. by apply (gd_zero _ G).
  - apply G.
Qed.

(** The same inode as far as the disk shows it. *)
Record deq (d d' : dinode) : Prop := {
  dq_head : d_type d' = d_type d /\ d_major d' = d_major d /\ d_minor d' = d_minor d /\ d_nlink d' = d_nlink d /\ d_size d' = d_size d;
  dq_addr : forall k, 0 <= k <= NDIRECT -> arr (d_addrs d') k = arr (d_addrs d) k;
}.

Lemma node_addr_range im i k : 0 <= arr (d_addrs (node im i)) k < 2 ^ 32.
Proof. unfold node, din_get. cbn [d_addrs]. rewrite addrs_from_get by lia. case_decide; [apply (loadn_range 4)|done]. Qed.

Lemma node_wnode_eq im i d : inode_fits (ino i d) -> deq d (node (wnode im i d) i).
Proof.
  intros Hf. pose proof (dinode_store_load (ino i d) (vw im (IBLOCK i S0)) Hf) as [(H1 & H2 & H3 & H4 & H5 & H6) _]. cbn [ino i_inum] in *.
  assert (vw (wnode im i d) (IBLOCK i S0) = dinode_store (ino i d) (vw im (IBLOCK i S0))) as Ev by (unfold vw at 1, wnode, store, on_disk; cbn [im_disk]; by rewrite lookup_insert_eq).
  unfold node, din_get. rewrite Ev. split; [done|]. intros k Hk. cbn [d_addrs]. rewrite addrs_from_get by lia. rewrite decide_True by (rewrite NDIRECT_val in Hk; change (Z.of_nat NADDRS) with 13; lia). by apply H6.
Qed.

Lemma din_get_ext o d d' : (forall n x, o <= x -> x + Z.of_nat n <= o + 64 -> loadn n d' x = loadn n d x) -> din_get o d' = din_get o d.
Proof.
  intros H. unfold din_get, di_type, di_major, di_minor, di_nlink, di_size. rewrite !H by lia. f_equal.
  assert (forall n i a, 0 <= i -> i + Z.of_nat n <= 13 -> addrs_from n i d' o a = addrs_from n i d o a) as Ha.
  { induction n as [|n IH]; intros i a Hi Hn; cbn [addrs_from]; [done|]. rewrite IH by lia. unfold di_addr. by rewrite H by lia. }
  apply Ha; [lia|]. by change (Z.of_nat NADDRS) with 13.
Qed.

Lemma dip_apart i j : 0 <= i -> 0 <= j -> i <> j -> i / 16 = j / 16 -> dip i + 64 <= dip j \/ dip j + 64 <= dip i.
Proof. intros. unfold dip. rewrite IPB_val. zlia. Qed.

Lemma node_wnode_ne im i j d : inode_fits (ino i d) -> 0 <= i < 208 -> 0 <= j < 208 -> i <> j -> node (wnode im i d) j = node im j.
Proof.
  intros Hf Hi Hj Hne. destruct (IBLOCK0 i Hi) as [Ei _], (IBLOCK0 j Hj) as [Ej _]. unfold node. destruct (decide (i / 16 = j / 16)) as [E|E].
  - assert (IBLOCK i S0 = IBLOCK j S0) as EB by lia. pose proof (dinode_store_load (ino i d) (vw im (IBLOCK i S0)) Hf) as [_ H]. cbn [ino i_inum] in H.
    apply din_get_ext. intros n x H1 H2. rewrite <- EB. unfold vw at 1, wnode, store, on_disk. cbn [im_disk]. rewrite lookup_insert_eq. apply H.
    destruct (dip_apart i j); lia.
  - f_equal. unfold vw, wnode, store, on_disk. cbn [im_disk]. by rewrite lookup_insert_ne by lia.
Qed.

(** A file is the same through an inode with the same addresses. *)
Lemma fileI_addrs v i d d' : (forall k, 0 <= k <= NDIRECT -> arr (d_addrs d') k = arr (d_addrs d) k) -> (forall k, 0 <= arr (d_addrs d') k < 2 ^ 32) ->
  (forall bn, 0 <= bn < MAXFILE -> faddr v (ino i d') bn = faddr v (ino i d) bn) /\
  (forall o, 0 <= o < MAXFILE * BSIZE -> fbyte v (ino i d') o = fbyte v (ino i d) o) /\
  (forall x, owns v (ino i d') x <-> owns v (ino i d) x) /\
  (forall n m bi, 0 <= n -> fileI v (ino i d) n m bi -> fileI v (ino i d') n m bi).
Proof.
  intros Ha Hr. assert (ind (ino i d') = ind (ino i d)) as Ei by (unfold ind; cbn [ino i_addrs]; apply Ha; rewrite NDIRECT_val; lia).
  assert (forall bn, 0 <= bn < MAXFILE -> faddr v (ino i d') bn = faddr v (ino i d) bn) as Hfa.
  { intros bn Hb. unfold faddr. rewrite Ei. cbn [ino i_addrs]. destruct (Z.ltb_spec bn NDIRECT); [|done]. apply Ha. lia. }
  assert (forall o, 0 <= o < MAXFILE * BSIZE -> fbyte v (ino i d') o = fbyte v (ino i d) o) as Hfb.
  { intros o Ho. unfold fbyte. rewrite Hfa; [done|]. rewrite MAXFILE_val, BSIZE_val in *. zlia. }
  split; [done|]. split; [done|]. split.
  { intros x. unfold owns. rewrite Ei. split; (intros [?|(b & Hb & E)]; [by left|right; exists b; split; [done|]; rewrite <- E; by rewrite Hfa]). }
  intros n m bi Hn [[F1 F2 F3 F4] Har Hda Hin Hta]. split; [split|..]; try done; rewrite ?Ei; try done.
  - intros bn Hb. rewrite Hfa by done. by apply F2.
  - intros Hi. destruct (F3 Hi) as [H1 H2]. split; [done|]. intros bn Hb. rewrite Hfa by done. by apply H2.
  - intros a b Hx Hy. rewrite !Hfa by done. by apply F4.
  - intros bn Hb. rewrite Hfa by done. by apply Hda.
  - intros o Ho. rewrite Hfb by lia. by apply Hta.
Qed.

(** ** The image under construction *)

(** The files so far, by type and contents; the file at index [k] has inode [k + 1]. *)
Abbreviation files := (list (Z * list Z)).
Definition inum_of (k : nat) : Z := 1 + Z.of_nat k.
Definition ipk (im : img) (k : nat) : inode := ino (inum_of k) (node im (inum_of k)).
Definition len (l : list Z) : Z := Z.of_nat (length l).
Definition blocks (fl : files) : Z := foldr (fun f acc => nb (len f.2) + acc) 0 fl.

Record file_is (im : img) (k : nat) (ty : Z) (data : list Z) : Prop := {
  fl_head : d_type (node im (inum_of k)) = ty /\ d_major (node im (inum_of k)) = 0 /\ d_minor (node im (inum_of k)) = 0 /\ d_nlink (node im (inum_of k)) = 1;
  fl_size : d_size (node im (inum_of k)) = len data /\ len data <= MAXFILE * BSIZE;
  fl_file : fileI (gv im) (ipk im k) (len data) (len data) (big (len data));
  fl_data : forall j, (j < length data)%nat -> fbyte (gv im) (ipk im k) (Z.of_nat j) = nth j data 0;
}.

Record mk_inv (im : img) (fl : files) : Prop := {
  mi_good : good im;
  mi_ino : im_freeinode im = inum_of (length fl) /\ (length fl < 200)%nat;
  mi_file : forall k ty data, fl !! k = Some (ty, data) -> file_is im k ty data;
  mi_apart : forall k1 k2 x, (k1 < length fl)%nat -> (k2 < length fl)%nat -> k1 <> k2 -> x <> 0 -> owns (gv im) (ipk im k1) x -> ~ owns (gv im) (ipk im k2) x;
  mi_all : forall x, 46 <= x < im_freeblock im -> exists k, (k < length fl)%nat /\ owns (gv im) (ipk im k) x;
  mi_free : forall i, inum_of (length fl) <= i < 208 -> d_type (node im i) = 0;
  mi_low : vw im 1 = sb_block S0 /\ forall b, 2 <= b < 32 -> zeroed (vw im b);
  mi_count : im_freeblock im = 46 + blocks fl;
}.

(** The blocks of a file stay as they are while another file grows. *)
Lemma fileI_other im im' ip ip' ip2 c n m bi : good im -> im_freeblock im' <= FSSIZE -> grows im im' ip ip' c -> 0 <= n -> fileI (gv im) ip2 n m bi ->
  (forall x, x <> 0 -> owns (gv im) ip2 x -> ~ owns (gv im) ip x) ->
  fileI (gv im') ip2 n m bi /\ (forall o, 0 <= o < MAXFILE * BSIZE -> fbyte (gv im') ip2 o = fbyte (gv im) ip2 o) /\ (forall x, owns (gv im') ip2 x <-> owns (gv im) ip2 x).
Proof.
  intros G Hf W Hn F Hap. pose proof (good_grows _ _ _ _ _ G W Hf) as G'. pose proof (gw_fb _ _ _ _ _ W) as [Ef Hc].
  destruct (fileI_frame (gv im) (gv im') ip2 n m bi Hn F) as (F' & Hfa & Hfb).
  { intros x Hx. apply gv_data in Hx; [|done]. split; [apply gv_data; [done|lia]|]. intros Ho. rewrite !gv_vw by lia.
    apply (gw_same _ _ _ _ _ W); [lia|]. apply outside_not_owns, Hap; [lia|done]. }
  split; [done|]. split; [done|]. intros x. unfold owns. by setoid_rewrite Hfa.
Qed.

Lemma gv_wnode im i d x : 0 <= i < 208 -> 45 <= x -> gv (wnode im i d) x = gv im x.
Proof.
  intros Hi Hx. destruct (decide (x = bm)) as [->|Hne]; [unfold gv, mark; by rewrite !fn_lookup_insert|].
  unfold gv. rewrite !mark_other by done. apply vw_wnode; [done|lia].
Qed.

Lemma fileI_wnode im i d ip n m bi : good im -> 0 <= i < 208 -> 0 <= n -> fileI (gv im) ip n m bi ->
  fileI (gv (wnode im i d)) ip n m bi /\ (forall o, 0 <= o < MAXFILE * BSIZE -> fbyte (gv (wnode im i d)) ip o = fbyte (gv im) ip o) /\
  (forall x, owns (gv (wnode im i d)) ip x <-> owns (gv im) ip x).
Proof.
  intros G Hi Hn F. pose proof (good_wnode im i d G Hi) as G'. destruct (fileI_frame (gv im) (gv (wnode im i d)) ip n m bi Hn F) as (F' & Hfa & Hfb).
  { intros x Hx. apply gv_data in Hx; [|done]. split; [by apply gv_data|]. intros _. apply gv_wnode; [done|lia]. }
  split; [done|]. split; [done|]. intros x. unfold owns. by setoid_rewrite Hfa.
Qed.

(** *** ialloc() *)

Lemma fileI_empty v i d : (forall k, 0 <= arr (d_addrs d) k < 2 ^ 32) -> (forall k, 0 <= k <= NDIRECT -> arr (d_addrs d) k = 0) ->
  fileI v (ino i d) 0 0 false /\ forall x, x <> 0 -> ~ owns v (ino i d) x.
Proof.
  intros Hr Hz. assert (ind (ino i d) = 0) as Ei by (unfold ind; cbn [ino i_addrs]; apply Hz; rewrite NDIRECT_val; lia).
  assert (forall bn, 0 <= bn < MAXFILE -> faddr v (ino i d) bn = 0) as Hfa.
  { intros bn Hb. unfold faddr. rewrite Ei. cbn [ino i_addrs]. destruct (Z.ltb_spec bn NDIRECT); [apply Hz; lia|done]. }
  split.
  - split; [split|..]; try done.
    + intros bn Hb H. by rewrite Hfa in H.
    + intros a b Ha Hb H. by rewrite Hfa in H.
    + intros bn Hb. rewrite Hfa by done. rewrite BSIZE_val. lia.
    + intros o Ho. unfold fbyte. rewrite Hfa; [done|]. rewrite MAXFILE_val, BSIZE_val in *. zlia.
  - intros x Hx [->|(b & Hb & <-)]; [done|]. by apply Hx, Hfa.
Qed.

Lemma file_is_keep im im' k ty data : file_is im k ty data -> node im' (inum_of k) = node im (inum_of k) ->
  (forall n m bi, 0 <= n -> fileI (gv im) (ipk im k) n m bi -> fileI (gv im') (ipk im k) n m bi) ->
  (forall o, 0 <= o < MAXFILE * BSIZE -> fbyte (gv im') (ipk im k) o = fbyte (gv im) (ipk im k) o) -> file_is im' k ty data.
Proof.
  intros [H1 H2 H3 H4] En HF Hb. assert (ipk im' k = ipk im k) as Ei by (unfold ipk; by rewrite En). unfold len in *.
  assert (0 <= Z.of_nat (length data)) as H0 by lia. split; rewrite ?En, ?Ei; try done; [by apply HF|]. intros j Hj. rewrite Hb by lia. by apply H4.
Qed.

Lemma blocks_app fl f : blocks (fl ++ [f]) = blocks fl + nb (len f.2).
Proof. induction fl as [|g fl IH]; cbn [blocks foldr app]; [lia|]. fold (blocks (fl ++ [f])). rewrite IH. fold (blocks fl). lia. Qed.

Lemma ialloc_ok im fl ty : mk_inv im fl -> (length fl < 199)%nat -> 0 <= ty < 2 ^ 15 ->
  exists im', ialloc ty im = Some (inum_of (length fl), im') /\ mk_inv im' (fl ++ [(ty, [])]).
Proof.
  intros I Hlen Hty. destruct (mi_ino _ _ I) as [Ei _]. unfold ialloc, mk_bind, next_inode. rewrite Ei. set (i := inum_of (length fl)) in *. assert (0 <= i < 200) as Hi by (unfold i, inum_of; lia).
  rewrite u32_small by lia. rewrite xshort_id, (xshort_id 1), xint_id by lia. set (im1 := Img _ _ _). set (d := Dinode ty 0 0 1 0 ∅).
  assert (good im1) as G1 by (destruct (mi_good _ _ I); by split). rewrite winode_ok by (done || lia). unfold mk_ret. exists (wnode im1 i d). split; [done|].
  assert (inode_fits (ino i d)) as Hfit. { unfold inode_fits. cbn. split_and!; try lia; [unfold s16|..]; try done. rewrite Z.mod_small by lia. destruct (Z.ltb_spec ty (2 ^ 15)); lia. }
  pose proof (node_wnode_eq im1 i d Hfit) as Hq. assert (forall j, 0 <= j < 208 -> i <> j -> node (wnode im1 i d) j = node im j) as Hne by (intros j Hj Hn; by rewrite node_wnode_ne by (done || lia)).
  set (im' := wnode im1 i d) in *. pose proof (good_wnode im1 i d G1 ltac:(lia)) as G'.
  assert (forall k, (k < length fl)%nat -> node im' (inum_of k) = node im (inum_of k)) as Hno by (intros k Hk; apply Hne; unfold i, inum_of in *; lia).
  assert (forall k, (k < length fl)%nat -> ipk im' k = ipk im k) as Hik by (intros k Hk; unfold ipk; by rewrite Hno).
  assert (forall k ty data, fl !! k = Some (ty, data) -> forall x, owns (gv im') (ipk im k) x <-> owns (gv im) (ipk im k) x) as Hown.
  { intros k t0 data Hk. destruct (mi_file _ _ I k _ _ Hk) as [_ _ F _]. apply (fileI_wnode im1 i d (ipk im k) (len data) (len data) (big (len data)) G1 ltac:(lia) ltac:(unfold len; lia) F). }
  assert (forall k, (k < length fl)%nat -> forall x, owns (gv im') (ipk im' k) x <-> owns (gv im) (ipk im k) x) as Hown'.
  { intros k Hk. destruct (lookup_lt_is_Some_2 fl k Hk) as [[t0 data] Hkk]. rewrite Hik by done. by apply (Hown k t0 data). }
  destruct (fileI_empty (gv im') i (node im' i)) as [Fe Hoe]; [apply node_addr_range| |].
  { intros k Hk. rewrite (dq_addr _ _ Hq) by done. done. }
  assert (forall x, x <> 0 -> ~ owns (gv im') (ipk im' (length fl)) x) as Hoe' by exact Hoe.
  split.
  - done.
  - rewrite length_app. cbn [length]. split; [|lia]. cbn. unfold i, inum_of. lia.
  - intros k t0 data Hk. apply lookup_app_Some in Hk as [Hk|[Hk1 Hk2]].
    + pose proof (lookup_lt_Some _ _ _ Hk) as Hlt. apply (file_is_keep im); [by apply (mi_file _ _ I)|by apply Hno|..].
      * intros n m bi Hn F. apply (fileI_wnode im1 i d (ipk im k) n m bi G1 ltac:(lia) Hn F).
      * intros o Ho. destruct (mi_file _ _ I k _ _ Hk) as [_ _ F _]. by apply (fileI_wnode im1 i d (ipk im k) (len data) (len data) (big (len data)) G1 ltac:(lia) ltac:(unfold len; lia) F).
    + apply list_lookup_singleton_Some in Hk2 as [Hk0 [= <- <-]]. assert (k = length fl) as -> by lia. destruct (dq_head _ _ Hq) as (H1 & H2 & H3 & H4 & H5).
      split; change (inum_of (length fl)) with i; [by rewrite H1, H2, H3, H4|rewrite H5; split; [done|by vm_compute]|exact Fe|]. cbn [length]. lia.
  - rewrite length_app. cbn [length]. intros k1 k2 x H1 H2 Hn Hx. destruct (decide (k1 = length fl)) as [->|]; [intros H; by apply Hoe' in H|].
    destruct (decide (k2 = length fl)) as [->|]; [by intros _; apply Hoe'|]. rewrite !Hown' by lia. apply (mi_apart _ _ I); lia.
  - intros x Hx. destruct (mi_all _ _ I x Hx) as (k & Hk & Ho). exists k. rewrite length_app. split; [lia|]. by apply Hown'.
  - rewrite length_app. cbn [length]. intros j Hj. rewrite Hne by (unfold i, inum_of in *; lia). apply (mi_free _ _ I). unfold inum_of in *. lia.
  - destruct (mi_low _ _ I) as [H1 H2]. split; [unfold im'; by rewrite vw_wnode by lia|]. intros b Hb. unfold im'. rewrite vw_wnode by lia. by apply H2.
  - rewrite blocks_app. change (nb (len [])) with 0. cbn [snd]. change (nb (len [])) with 0. rewrite Z.add_0_r. apply (mi_count _ _ I).
Qed.

(** *** iappend() *)

Lemma s16_twice x : s16 (s16 x) = s16 x.
Proof.
  unfold s16. pose proof (Z.mod_pos_bound x (2 ^ 16) ltac:(lia)). set (m := x mod 2 ^ 16) in *.
  destruct (Z.ltb_spec m (2 ^ 15)).
  - rewrite Z.mod_small by lia. destruct (Z.ltb_spec m (2 ^ 15)); lia.
  - assert ((m - 2 ^ 16) mod 2 ^ 16 = m) as -> by (replace (m - 2 ^ 16) with (m + -1 * 2 ^ 16) by lia; rewrite Z_mod_plus_full; by apply Z.mod_small). destruct (Z.ltb_spec m (2 ^ 15)); lia.
Qed.

Lemma blocks_insert fl : forall k ty data data', fl !! k = Some (ty, data) -> blocks (<[k := (ty, data')]> fl) = blocks fl - nb (len data) + nb (len data').
Proof.
  induction fl as [|f fl IH]; intros k ty data data' Hk; [done|]. destruct k as [|k]; cbn in Hk.
  - injection Hk as ->. cbn [insert list_insert blocks foldr snd]. lia.
  - change (<[S k := (ty, data')]> (f :: fl)) with (f :: <[k := (ty, data')]> fl). cbn [blocks foldr]. fold (blocks (<[k := (ty, data')]> fl)) (blocks fl). rewrite (IH _ _ _ _ Hk). lia.
Qed.

Lemma node_fits im i d' n : same_head (node im i) d' -> 0 <= n < 2 ^ 32 -> (forall k, 0 <= arr (d_addrs d') k < 2 ^ 32) -> inode_fits (ino i (set_dsize n d')).
Proof.
  intros Hh Hn Ha. rewrite Hh. unfold inode_fits. cbn. unfold node, din_get, di_type, di_major, di_minor, di_nlink. cbn [d_type d_major d_minor d_nlink]. rewrite !s16_twice.
  split_and!; try done; lia.
Qed.

(** Inode blocks belong to no file. *)
Lemma node_grows im im' ip ip' c n m bi j : good im -> grows im im' ip ip' c -> fileI (gv im) ip n m bi -> 0 <= j < 208 -> node im' j = node im j.
Proof.
  intros G W F Hj. destruct (IBLOCK0 j Hj) as [_ Hb]. pose proof (gd_fb _ G). unfold node. f_equal. apply (gw_same _ _ _ _ _ W); [lia|].
  apply outside_not_owns. intros Ho. destruct (owns_data _ _ _ _ _ _ F Ho) as [|Hd]; [lia|]. apply gv_data in Hd; [lia|done].
Qed.

Section Appended.
Context (im im1 : img) (fl : files) (k : nat) (ty : Z) (data p : list Z) (d' : dinode).
Context (I : mk_inv im fl) (Hk : fl !! k = Some (ty, data)) (Hp : Forall (fun b => 0 <= b < 256) p) (Hmax : len (data ++ p) <= MAXFILE * BSIZE).
Context (G1 : good im1) (A : appended im im1 (inum_of k) (len data) (node im (inum_of k)) d' p).
Let i : Z := inum_of k.
Let n' : Z := len (data ++ p).
Let dd : dinode := set_dsize n' d'.
Let im2 : img := wnode im1 i dd.

Lemma app_len : n' = len data + Z.of_nat (length p) /\ 0 <= len data /\ 0 <= n' < 2 ^ 32.
Proof.
  assert (MAXFILE * BSIZE < 2 ^ 32) by done. unfold n', len in *. rewrite length_app in *. lia.
Qed.
Lemma app_i : 0 <= i < 208 /\ (k < length fl < 200)%nat.
Proof. pose proof (lookup_lt_Some _ _ _ Hk). destruct (mi_ino _ _ I). unfold i, inum_of. lia. Qed.

Lemma app_node : deq dd (node im2 i) /\ forall j, 0 <= j < 208 -> j <> i -> node im2 j = node im j.
Proof.
  destruct app_len as (El & Hd0 & Hn). destruct app_i as [Hi _]. pose proof A as [Ah Ag Af _ _].
  assert (inode_fits (ino i dd)) as Hfit by (apply (node_fits im); [done|done|apply (fi_arr _ _ _ _ _ Af)]).
  split; [by apply node_wnode_eq|]. intros j Hj Hne. unfold im2. rewrite node_wnode_ne by done. destruct (mi_file _ _ I k ty data Hk) as [_ _ FF _].
  by apply (node_grows im im1 _ _ _ _ _ _ j (mi_good _ _ I) Ag FF).
Qed.

(** The file that grew. *)
Lemma app_this : fileI (gv im2) (ipk im2 k) n' n' (big n') /\ (forall o, 0 <= o < MAXFILE * BSIZE -> fbyte (gv im2) (ipk im2 k) o = fbyte (gv im1) (ino i d') o) /\
  (forall x, owns (gv im2) (ipk im2 k) x <-> owns (gv im1) (ino i d') x).
Proof.
  destruct app_len as (El & Hd0 & Hn). destruct app_i as [Hi _]. destruct app_node as [Hq _]. pose proof A as [_ _ Af _ _]. rewrite <- El in Af.
  destruct (fileI_wnode im1 i dd (ino i d') n' n' (big n') G1 Hi ltac:(lia) Af) as (F2 & B2 & O2).
  destruct (fileI_addrs (gv im2) i d' (node im2 i)) as (_ & B3 & O3 & F3); [apply (dq_addr _ _ Hq)|apply node_addr_range|].
  split; [apply F3; [lia|done]|]. split; [intros o Ho; unfold ipk; fold i; rewrite B3 by done; by apply B2|]. intros x. unfold ipk. fold i. by rewrite O3.
Qed.

(** The other files. *)
Lemma app_other k2 ty2 data2 : k2 <> k -> fl !! k2 = Some (ty2, data2) -> ipk im2 k2 = ipk im k2 /\ file_is im2 k2 ty2 data2 /\
  (forall x, owns (gv im2) (ipk im2 k2) x <-> owns (gv im) (ipk im k2) x).
Proof.
  intros Hne Hk2. destruct app_i as [Hi Hkl]. pose proof (lookup_lt_Some _ _ _ Hk2). destruct app_node as [_ Hno]. pose proof A as [_ Ag _ _ _]. pose proof (gd_fb _ G1).
  pose proof (mi_file _ _ I k2 _ _ Hk2) as FI. assert (node im2 (inum_of k2) = node im (inum_of k2)) as En by (apply Hno; unfold i, inum_of; lia).
  assert (ipk im2 k2 = ipk im k2) as Ei by (unfold ipk; by rewrite En).
  assert (forall x, x <> 0 -> owns (gv im) (ipk im k2) x -> ~ owns (gv im) (ipk im k) x) as Hap by (intros x Hx; apply (mi_apart _ _ I); lia).
  assert (forall n m bi, 0 <= n -> fileI (gv im) (ipk im k2) n m bi -> fileI (gv im2) (ipk im k2) n m bi /\
    (forall o, 0 <= o < MAXFILE * BSIZE -> fbyte (gv im2) (ipk im k2) o = fbyte (gv im) (ipk im k2) o) /\ (forall x, owns (gv im2) (ipk im k2) x <-> owns (gv im) (ipk im k2) x)) as Hfr.
  { intros n m bi Hn F. destruct (fileI_other im im1 _ _ (ipk im k2) _ n m bi (mi_good _ _ I) ltac:(lia) Ag Hn F Hap) as (F1 & B1 & O1).
    destruct (fileI_wnode im1 i dd (ipk im k2) n m bi G1 Hi Hn F1) as (F2 & B2 & O2). split; [done|]. split; [intros o Ho; unfold im2; by rewrite B2, B1|]. intros x. unfold im2. by rewrite O2, O1. }
  pose proof (fl_file _ _ _ _ FI) as F. destruct (Hfr (len data2) (len data2) (big (len data2)) ltac:(unfold len; lia) F) as (_ & B & O).
  split; [done|]. split; [|by rewrite Ei]. apply (file_is_keep im); [by apply (mi_file _ _ I)|done| |done]. intros n m bi Hn F'. by apply Hfr.
Qed.

Lemma appended_inv : mk_inv im2 (<[k := (ty, data ++ p)]> fl).
Proof.
  destruct app_len as (El & Hd0 & Hn). destruct app_i as [Hi Hkl]. destruct app_node as [Hq Hno]. destruct app_this as (F & B & O). pose proof A as [Ah Ag _ Ao An].
  pose proof (mi_good _ _ I) as G. pose proof (gd_fb _ G) as Gf. pose proof (gw_fb _ _ _ _ _ Ag) as [Ef Hc]. destruct (mi_file _ _ I k ty data Hk) as [Fh [Fs Fm] FF Fd].
  assert (im_freeblock im2 = im_freeblock im1 /\ im_freeinode im2 = im_freeinode im) as [Eb Ein] by (split; [done|]; by rewrite <- (gw_ino _ _ _ _ _ Ag)).
  assert (forall k2, (k2 < length fl)%nat -> k2 <> k -> forall x, owns (gv im2) (ipk im2 k2) x <-> owns (gv im) (ipk im k2) x) as Oo.
  { intros k2 H2 Hne. destruct (lookup_lt_is_Some_2 fl k2 H2) as [[t2 dt2] Hk2]. by apply (app_other k2 t2 dt2). }
  assert (forall k2 x, (k2 < length fl)%nat -> k2 <> k -> x <> 0 -> owns (gv im) (ipk im k2) x -> ~ owns (gv im2) (ipk im2 k) x) as Hap.
  { intros k2 x H2 Hne Hx Ho2. rewrite O. apply outside_not_owns. apply (gw_out _ _ _ _ _ Ag); [|apply outside_not_owns, (mi_apart _ _ I k2 k x); lia || done].
    destruct (lookup_lt_is_Some_2 fl k2 H2) as [[t2 dt2] Hk2]. destruct (mi_file _ _ I k2 _ _ Hk2) as [_ _ F2 _].
    destruct (owns_data _ _ _ _ _ _ F2 Ho2) as [|Hd]; [done|]. apply gv_data in Hd; [lia|done]. }
  split.
  - by apply good_wnode.
  - rewrite length_insert, Ein. apply (mi_ino _ _ I).
  - intros k2 t2 dt2 H2. destruct (decide (k2 = k)) as [->|Hne].
    + rewrite list_lookup_insert_eq in H2 by lia. injection H2 as <- <-. destruct (dq_head _ _ Hq) as (H1 & H2 & H3 & H4 & H5).
      assert (d_type d' = d_type (node im i) /\ d_major d' = d_major (node im i) /\ d_minor d' = d_minor (node im i) /\ d_nlink d' = d_nlink (node im i)) as (D1 & D2 & D3 & D4) by (by rewrite Ah).
      split; fold i; [rewrite H1, H2, H3, H4; cbn [dd set_dsize d_type d_major d_minor d_nlink]; by rewrite D1, D2, D3, D4|by rewrite H5|done|]. intros j Hj. rewrite B by (unfold n', len in *; lia).
      rewrite length_app in Hj. destruct (decide (j < length data)%nat).
      * rewrite app_nth1 by done. unfold i. rewrite Ao by (unfold len; lia). by apply Fd.
      * rewrite app_nth2 by lia. replace (Z.of_nat j) with (len data + Z.of_nat (j - length data)) by (unfold len; lia). unfold i. rewrite An by lia.
        apply u8_small. apply (Forall_lookup_1 _ _ (j - length data) _ Hp). destruct (nth_lookup_or_length p (j - length data) 0); [done|lia].
    + rewrite list_lookup_insert_ne in H2 by done. by apply (app_other k2 t2 dt2).
  - rewrite length_insert. intros k1 k2 x H1 H2 Hne Hx. destruct (decide (k1 = k)) as [->|N1], (decide (k2 = k)) as [->|N2]; try done.
    + rewrite (Oo k2) by done. intros Ho1 Ho2. by apply (Hap k2 x) in Ho1.
    + rewrite (Oo k1) by done. by apply Hap.
    + rewrite !Oo by done. by apply (mi_apart _ _ I).
  - rewrite length_insert, Eb. intros x Hx. destruct (decide (x < im_freeblock im)) as [Hlt|Hge].
    + destruct (mi_all _ _ I x ltac:(lia)) as (k2 & H2 & Ho). exists k2. split; [done|]. destruct (decide (k2 = k)) as [->|Hne]; [|by apply Oo].
      apply O, (gw_in _ _ _ _ _ Ag); [lia|done].
    + exists k. split; [lia|]. apply O, (gw_new _ _ _ _ _ Ag). lia.
  - rewrite length_insert. intros j Hj. rewrite Hno by (unfold i, inum_of in *; lia). by apply (mi_free _ _ I).
  - assert (forall b, 0 < b < 32 -> vw im2 b = vw im b) as Hv.
    { intros b Hb. unfold im2. rewrite vw_wnode by lia. apply (gw_same _ _ _ _ _ Ag); [lia|]. apply outside_not_owns. intros Ho.
      destruct (owns_data _ _ _ _ _ _ FF Ho) as [|Hd]; [lia|]. apply gv_data in Hd; [lia|done]. }
    destruct (mi_low _ _ I) as [H1 H2]. split; [by rewrite Hv by lia|]. intros b Hb. rewrite Hv by lia. by apply H2.
  - rewrite Eb, Ef, (blocks_insert _ _ _ _ _ Hk), <- El, (mi_count _ _ I). fold n'. lia.
Qed.
End Appended.

(** The effect of iappend() on the image. *)
Lemma iappend_ok im fl k ty data p : mk_inv im fl -> fl !! k = Some (ty, data) -> Forall (fun b => 0 <= b < 256) p -> len (data ++ p) <= MAXFILE * BSIZE ->
  im_freeblock im + (nb (len (data ++ p)) - nb (len data)) <= FSSIZE ->
  exists im', iappend (inum_of k) p im = Some (tt, im') /\ mk_inv im' (<[k := (ty, data ++ p)]> fl).
Proof.
  intros I Hk Hp Hmax Hfs. set (i := inum_of k). pose proof (lookup_lt_Some _ _ _ Hk) as Hkl. destruct (mi_ino _ _ I) as [Ei Hl200]. assert (0 <= i < 208) as Hi by (unfold i, inum_of; lia).
  pose proof (mi_good _ _ I) as G. destruct (mi_file _ _ I k ty data Hk) as [Fh [Fs Fm] FF Fd]. fold i in Fh, Fs. unfold ipk in FF, Fd. fold i in FF, Fd. set (d := node im i) in *.
  assert (len (data ++ p) = len data + Z.of_nat (length p)) as El by (unfold len; rewrite length_app; lia).
  assert (0 <= len data /\ MAXFILE * BSIZE < 2 ^ 32) as [Hd0 Hm32] by (split; [unfold len; lia|done]).
  unfold iappend, mk_bind. rewrite rinode_ok by done. fold d. rewrite Fs, xint_id by lia.
  destruct (iappend_loop_ok (length p) im i (len data) d p) as (d' & im1 & E & [Ah Ag Af Ao An]); try done; [by rewrite <- El..|]. rewrite E. rewrite <- El in *.
  rewrite xint_id by lia. pose proof (gw_fb _ _ _ _ _ Ag) as [Ef1 Hc1]. pose proof (good_grows _ _ _ _ _ G Ag ltac:(lia)) as G1.
  rewrite winode_ok by done. eexists. split; [done|]. apply (appended_inv im); try done. rewrite El in *. by split.
Qed.

(** ** main() *)

Lemma wzeroes_ok k : forall i im, exists im', wzeroes k i im = Some (tt, im') /\ im_freeinode im' = im_freeinode im /\ im_freeblock im' = im_freeblock im /\
  forall b, im_disk im' !! b = if decide (i <= b < i + Z.of_nat k) then Some ∅ else im_disk im !! b.
Proof.
  induction k as [|k IH]; intros i im; cbn [wzeroes].
  - exists im. split_and!; try done. intros b. by rewrite decide_False by lia.
  - unfold mk_bind, wsect. destruct (IH (i + 1) (Img (<[i := ∅]> (im_disk im)) (im_freeinode im) (im_freeblock im))) as (im' & E & H1 & H2 & H3).
    exists im'. split; [done|]. split; [done|]. split; [done|]. intros b. rewrite H3. cbn [im_disk].
    destruct (decide (i = b)) as [->|]; [rewrite lookup_insert_eq; repeat case_decide; done || lia|]. rewrite lookup_insert_ne by done. repeat case_decide; done || lia.
Qed.

Definition img0 : img := Img ∅ 1 nmetas.

Lemma start_ok : exists im, mk_inv im [] /\ forall A (k : unit -> MK A),
  (let* _ := wzeroes (Z.to_nat FSSIZE) 0 in let* x := wsect 1 (sb_block mk_sb) in k x) img0 = k tt im.
Proof.
  destruct (wzeroes_ok (Z.to_nat FSSIZE) 0 img0) as (im & E & H1 & H2 & H3). exists (Img (<[1 := sb_block mk_sb]> (im_disk im)) (im_freeinode im) (im_freeblock im)).
  split; [|intros A k; unfold mk_bind; by rewrite E].
  set (im1 := Img _ _ _).
  assert (forall b, vw im1 b = if decide (b = 1) then sb_block S0 else ∅) as Hv.
  { intros b. unfold vw, on_disk, im1. cbn [im_disk]. case_decide as Eb; [subst; by rewrite lookup_insert_eq|]. rewrite lookup_insert_ne, H3 by done. case_decide; [done|]. cbn [img0 im_disk]. by rewrite lookup_empty. }
  assert (forall b, b <> 1 -> zeroed (vw im1 b)) as Hz by (intros b Hb i; rewrite Hv, decide_False by done; done).
  split.
  - split; cbn; rewrite ?H2; [|intros b Hb; apply Hz; change (46 <= b) in Hb; lia|done]. intros b Hb. rewrite lookup_insert_is_Some, H3. rewrite decide_True by (unfold FSSIZE in *; lia).
    destruct (decide (1 = b)); [by left|right; split; [done|by eexists]].
  - split; [exact H1|cbn; lia].
  - done.
  - intros k1 k2 x Hk. cbn in Hk. lia.
  - intros x Hx. cbn in Hx. rewrite H2 in Hx. change (im_freeblock img0) with 46 in Hx. lia.
  - intros i Hi. unfold inum_of in Hi. cbn [length] in Hi. destruct (IBLOCK0 i ltac:(lia)) as [_ Hb]. unfold node. rewrite Hv, decide_False by lia. done.
  - split; [by rewrite Hv|]. intros b Hb. apply Hz. lia.
  - exact H2.
Qed.

(** What the image should hold: the directory entries, numbered from [n]. *)
Fixpoint numbered (n : Z) (names : list (list Z)) : list (list Z * Z) :=
  match names with [] => [] | nm :: r => (nm, n) :: numbered (n + 1) r end.
Definition ents (es : list (list Z * Z)) : list Z := concat (map (fun e => dirent e.1 e.2) es).

Lemma dirent_length nm i : length (dirent nm i) = 16%nat.
Proof. unfold dirent. rewrite length_app, strncpy_list_length. done. Qed.
Lemma dirent_bytes nm i : Forall (fun b => 0 <= b < 256) nm -> Forall (fun b => 0 <= b < 256) (dirent nm i).
Proof.
  intros H. unfold dirent. apply Forall_app. split; [repeat constructor; apply u8_range|].
  assert (forall n t, Forall (fun b => 0 <= b < 256) t -> Forall (fun b => 0 <= b < 256) (strncpy_list n t)) as Hs; [|by apply Hs].
  induction n as [|n IH]; intros t Ht; cbn [strncpy_list]; [constructor|]. destruct (hd 0 t =? 0); [apply Forall_replicate; lia|].
  destruct Ht as [|x t Hx Ht]; cbn [hd tl]; constructor; try lia; by apply IH.
Qed.
Lemma ents_length es : length (ents es) = (16 * length es)%nat.
Proof. induction es as [|e es IH]; [done|]. cbn [ents map concat]. rewrite length_app, dirent_length. fold (ents es). rewrite IH. cbn [length]. lia. Qed.
Lemma ents_app es1 es2 : ents (es1 ++ es2) = ents es1 ++ ents es2.
Proof. unfold ents. by rewrite map_app, concat_app. Qed.
Lemma numbered_length n names : length (numbered n names) = length names.
Proof. revert n. induction names as [|nm r IH]; intros n; cbn; [done|]. by rewrite IH. Qed.

(** Writing a whole file, block by block. *)
Lemma copy_file_ok fuel : forall im fl k ty data p, (length p <= fuel)%nat -> mk_inv im fl -> fl !! k = Some (ty, data) -> Forall (fun b => 0 <= b < 256) p ->
  len (data ++ p) <= MAXFILE * BSIZE -> im_freeblock im + (nb (len (data ++ p)) - nb (len data)) <= FSSIZE ->
  exists im', copy_file fuel (inum_of k) p im = Some (tt, im') /\ mk_inv im' (<[k := (ty, data ++ p)]> fl).
Proof.
  induction fuel as [|f IH]; intros im fl k ty data p Hf I Hk Hp Hm Hs.
  all: destruct p as [|c0 p0]; [exists im; cbn [copy_file]; rewrite app_nil_r, list_insert_id by done; done|cbn [length] in Hf; try lia].
  set (p := c0 :: p0) in *. cbn [copy_file]. fold p. change (match p with [] => _ | _ :: _ => ?x end) with x. set (a := take (Z.to_nat BSIZE) p). set (b := drop (Z.to_nat BSIZE) p).
  assert (p = a ++ b) as Ep by (symmetry; apply take_drop). rewrite Ep in Hp, Hm, Hs. apply Forall_app in Hp as [Ha Hb]. rewrite app_assoc in Hm, Hs.
  assert (len ((data ++ a) ++ b) = len (data ++ a) + len b /\ 0 <= len b /\ 0 <= len data <= len (data ++ a)) as (El & Hb0 & Hd0) by (unfold len; rewrite !length_app; lia).
  pose proof (nb_mono (len (data ++ a)) (len ((data ++ a) ++ b)) ltac:(lia)). pose proof (nb_mono (len data) (len (data ++ a)) ltac:(lia)).
  destruct (iappend_ok im fl k ty data a I Hk Ha ltac:(lia) ltac:(lia)) as (im1 & E1 & I1). unfold mk_bind. rewrite E1.
  pose proof (lookup_lt_Some _ _ _ Hk) as Hlt. assert (<[k := (ty, data ++ a)]> fl !! k = Some (ty, data ++ a)) as Hk1 by (by apply list_lookup_insert_eq).
  assert (length b < length p)%nat as Hlb by (unfold b, p; rewrite length_drop; cbn [length]; change (Z.to_nat BSIZE) with 1024%nat; lia).
  destruct (IH im1 _ k ty (data ++ a) b ltac:(unfold p in Hlb; cbn [length] in Hlb; lia) I1 Hk1 Hb Hm) as (im2 & E2 & I2).
  { rewrite (mi_count _ _ I1), (blocks_insert _ _ _ _ _ Hk). rewrite (mi_count _ _ I) in Hs. lia. }
  exists im2. split; [done|]. rewrite list_insert_insert_eq in I2. by rewrite Ep, app_assoc.
Qed.

Lemma blocks_cat a b : blocks (a ++ b) = blocks a + blocks b.
Proof. induction a as [|f a IH]; cbn [blocks foldr app]; [done|]. fold (blocks (a ++ b)) (blocks a). rewrite IH. lia. Qed.
Lemma nb_pos n : 0 <= n -> 0 <= nb n.
Proof. intros H. pose proof (nb_mono 0 n ltac:(lia)) as Hm. change (nb 0) with 0 in Hm. lia. Qed.
Lemma blocks_pos fl : 0 <= blocks fl.
Proof. induction fl as [|f fl IH]; cbn [blocks foldr]; [lia|]. fold (blocks fl). pose proof (nb_pos (len f.2) ltac:(unfold len; lia)). lia. Qed.

Section Mkfs.
Context (host : list Z -> option (list Z)).

(** A file of the command line that mkfs takes. *)
Record arg_ok (arg data : list Z) : Prop := {
  ao_host : host arg = Some data;
  ao_slash : has_slash arg = false;
  ao_name : len (shortname arg) <= DIRSIZ /\ Forall (fun b => 0 <= b < 256) (shortname arg);
  ao_data : len data <= MAXFILE * BSIZE /\ Forall (fun b => 0 <= b < 256) data;
}.

Lemma add_files_ok argv datas : Forall2 arg_ok argv datas -> forall im rd fl, mk_inv im ((T_DIR, rd) :: fl) ->
  (1 + length fl + length argv < 200)%nat -> len rd + 16 * Z.of_nat (length argv) <= MAXFILE * BSIZE ->
  let es := numbered (2 + Z.of_nat (length fl)) (map shortname argv) in
  let fl' := (T_DIR, rd ++ ents es) :: fl ++ map (pair T_FILE) datas in
  46 + blocks fl' <= FSSIZE ->
  exists im', add_files host ROOTINO argv im = Some (tt, im') /\ mk_inv im' fl'.
Proof.
  induction 1 as [|arg data argv datas Ha Hr IH]; intros im rd fl I Hn Hrd es fl' Hs.
  { exists im. split; [done|]. unfold fl', es. cbn. by rewrite !app_nil_r. }
  pose proof Ha as [Hh Hsl [Hnm Hnb] [Hdl Hdb]]. cbn [add_files]. unfold assert_ at 1. rewrite Hsl. cbn [negb]. unfold mk_bind at 1, mk_ret at 1. rewrite Hh.
  unfold assert_. fold (len (shortname arg)). rewrite (proj2 (Z.leb_le _ _)) by done. unfold mk_bind at 1, mk_ret at 1.
  cbn [length] in Hn, Hrd. destruct (ialloc_ok im _ T_FILE I ltac:(cbn [length]; lia) ltac:(unfold T_FILE; lia)) as (im1 & E1 & I1). unfold mk_bind at 1. rewrite E1.
  set (n := 2 + Z.of_nat (length fl)) in *. assert (inum_of (length ((T_DIR, rd) :: fl)) = n) as En by (unfold inum_of, n; cbn [length]; lia). rewrite En.
  rewrite xshort_id by lia. set (de := dirent (shortname arg) n). cbn [app] in I1. 
  assert (fl' = (T_DIR, (rd ++ de) ++ ents (numbered (n + 1) (map shortname argv))) :: (fl ++ [(T_FILE, data)]) ++ map (pair T_FILE) datas) as Efl.
  { unfold fl', es. cbn [map numbered ents concat fst snd]. by rewrite <- !app_assoc. }
  set (es' := numbered (n + 1) (map shortname argv)) in *. rewrite Efl in *. clear Efl fl' es.
  assert (len (rd ++ de) = len rd + 16) as Elr by (unfold len, de; rewrite length_app, dirent_length; lia).
  assert (len ((rd ++ de) ++ ents es') = len (rd ++ de) + len (ents es')) as Ele by (unfold len; rewrite (length_app (rd ++ de)); lia). assert (0 <= len rd /\ 0 <= len (ents es') /\ 0 <= len data) as (P1 & P2 & P3) by (unfold len; lia).
  pose proof (nb_mono (len (rd ++ de)) (len ((rd ++ de) ++ ents es')) ltac:(lia)) as Hm1. pose proof (nb_pos (len data) P3) as Hp1. pose proof (blocks_pos (map (pair T_FILE) datas)) as Hp2.
  assert (46 + nb (len (rd ++ de)) + blocks fl + nb (len data) <= FSSIZE) as Hs'.
  { cbn [blocks foldr snd] in Hs. fold (blocks ((fl ++ [(T_FILE, data)]) ++ map (pair T_FILE) datas)) in Hs. rewrite !blocks_cat in Hs. cbn [blocks foldr snd] in Hs. fold (blocks fl) (blocks (map (pair T_FILE) datas)) in Hs. lia. }
  destruct (iappend_ok im1 _ 0 T_DIR rd de I1 eq_refl) as (im2 & E2 & I2); [by apply dirent_bytes|lia| |].
  { rewrite (mi_count _ _ I1). change ((T_DIR, rd) :: fl ++ [(T_FILE, [])]) with (((T_DIR, rd) :: fl) ++ [(T_FILE, [])]). rewrite blocks_app. cbn [blocks foldr snd]. fold (blocks fl). change (nb (len [])) with 0. lia. }
  change (inum_of 0) with ROOTINO in E2. unfold mk_bind at 1. rewrite E2. change (<[0%nat := (T_DIR, rd ++ de)]> ((T_DIR, rd) :: fl ++ [(T_FILE, [])])) with ((T_DIR, rd ++ de) :: fl ++ [(T_FILE, [])]) in I2.
  assert (((T_DIR, rd ++ de) :: fl ++ [(T_FILE, [])]) !! S (length fl) = Some (T_FILE, [])) as Hk.
  { change ((fl ++ [(T_FILE, [])]) !! length fl = Some (T_FILE, [])). rewrite lookup_app_r by lia. by rewrite Nat.sub_diag. }
  destruct (copy_file_ok (length data) im2 _ (S (length fl)) T_FILE [] data ltac:(lia) I2 Hk Hdb Hdl) as (im3 & E3 & I3).
  { rewrite (mi_count _ _ I2). change ((T_DIR, rd ++ de) :: fl ++ [(T_FILE, [])]) with (((T_DIR, rd ++ de) :: fl) ++ [(T_FILE, [])]). rewrite blocks_app. cbn [blocks foldr snd app]. fold (blocks fl). change (nb (len [])) with 0. lia. }
  assert (inum_of (S (length fl)) = n) as En2 by (unfold inum_of, n; lia). rewrite En2 in E3. unfold mk_bind. rewrite E3.
  assert (<[S (length fl) := (T_FILE, [] ++ data)]> ((T_DIR, rd ++ de) :: fl ++ [(T_FILE, [])]) = (T_DIR, rd ++ de) :: fl ++ [(T_FILE, data)]) as Ei.
  { change (<[S (length fl) := ?x]> (?a :: ?l)) with (a :: <[length fl := x]> l). f_equal. rewrite <- (Nat.add_0_r (length fl)). by rewrite insert_app_r. }
  rewrite Ei in I3. specialize (IH im3 (rd ++ de) (fl ++ [(T_FILE, data)]) I3). cbv zeta in IH.
  assert (2 + Z.of_nat (length (fl ++ [(T_FILE, data)])) = n + 1) as En3 by (unfold n; rewrite length_app; cbn [length]; lia). rewrite En3 in IH.
  apply IH; [rewrite length_app; cbn [length]; lia|lia|done].
Qed.

(** The entries of the root directory. *)
Definition root_entries (names : list (list Z)) : list (list Z * Z) := (str ".", 1) :: (str "..", 1) :: numbered 2 names.
Definition all_files (names datas : list (list Z)) : files := (T_DIR, ents (root_entries names)) :: map (pair T_FILE) datas.

(** The body of main() up to the correction of the root's size. *)
Lemma mkfs_files argv datas : Forall2 arg_ok argv datas -> (length argv <= 198)%nat -> 46 + blocks (all_files (map shortname argv) datas) <= FSSIZE ->
  exists im, mk_inv im (all_files (map shortname argv) datas) /\
    mkfs_body host argv img0 =
    (let* din := rinode ROOTINO in
     let off := (xint (d_size din) / BSIZE + 1) * BSIZE in
     let* _ := winode ROOTINO (set_dsize (xint off) din) in
     let* freeblock := get_freeblock in
     balloc freeblock) im.
Proof.
  intros Ha Hn Hs. destruct start_ok as (im & I & E). unfold mkfs_body. rewrite E. clear E. destruct (ialloc_ok im [] T_DIR I ltac:(cbn; lia) ltac:(unfold T_DIR; lia)) as (im1 & E1 & I1).
  unfold mk_bind at 1. rewrite E1. change (inum_of (length [])) with ROOTINO. change (assert_ (ROOTINO =? ROOTINO)) with (mk_ret tt). unfold mk_bind at 1, mk_ret at 1.
  change (xshort ROOTINO) with 1. cbn [app] in I1. set (e1 := dirent (str ".") 1). set (e2 := dirent (str "..") 1).
  assert (Forall (fun b => 0 <= b < 256) e1 /\ Forall (fun b => 0 <= b < 256) e2) as [B1 B2] by (split; apply dirent_bytes; repeat constructor; done).
  assert (nb (len e1) = 1 /\ nb (len (e1 ++ e2)) = 1 /\ len (e1 ++ e2) <= MAXFILE * BSIZE) as (N1 & N2 & N3) by (split_and!; vm_compute; congruence).
  pose proof (mi_count _ _ I1) as C1. change (blocks [(T_DIR, [])]) with 0 in C1.
  destruct (iappend_ok im1 _ 0 T_DIR [] e1 I1 eq_refl B1) as (im2 & E2 & I2); [by vm_compute|cbn [app]; rewrite N1, C1; by vm_compute|].
  cbn [app insert list_insert] in I2. change (inum_of 0) with ROOTINO in E2. unfold mk_bind at 1. rewrite E2. pose proof (mi_count _ _ I2) as C2. change (blocks [(T_DIR, e1)]) with 1 in C2.
  destruct (iappend_ok im2 _ 0 T_DIR e1 e2 I2 eq_refl B2) as (im3 & E3 & I3); [done|rewrite N1, N2, C2; by vm_compute|].
  cbn [insert list_insert] in I3. change (inum_of 0) with ROOTINO in E3. unfold mk_bind at 1. rewrite E3.
  assert ((T_DIR, (e1 ++ e2) ++ ents (numbered (2 + Z.of_nat (length (@nil (Z * list Z)))) (map shortname argv))) :: [] ++ map (pair T_FILE) datas = all_files (map shortname argv) datas) as Efl.
  { unfold all_files, root_entries, ents. cbn [map concat fst snd app length]. by rewrite <- app_assoc. }
  destruct (add_files_ok argv datas Ha im3 (e1 ++ e2) [] I3) as (im4 & E4 & I4); [cbn [length]; lia| |by rewrite Efl|].
  { change (len (e1 ++ e2)) with 32. rewrite MAXFILE_val, BSIZE_val. lia. }
  rewrite Efl in I4. unfold mk_bind at 1. rewrite E4. by exists im4.
Qed.

End Mkfs.
