(* ===== verification/MkFsImage.v ===== *)
(** What mkfs() promises to the kernel.

    [image_ok] states of an image what the kernel's file system needs of the disk it is given: the superblock, the
    layout, an empty log, a bitmap that marks exactly the metadata and the blocks of files, and well-formed, disjoint
    files with the contents they were made from, bound to their names in the root directory. *)
From stdpp Require Import functions.
From S2P Require Import Prelude Machine CString Sleeplock BlockCache Log Printf Fs FsBlocks FsFile FsWrite FsDir MkFs MkFsInv.
Local Open Scope Z_scope.
Local Open Scope mkfs_scope.

(** The inode as ilock() loads it. *)
Definition kinode (v : Z -> block) (inum : Z) : inode :=
  dinode_load (v (IBLOCK inum S0)) (Inode ROOTDEV inum 0 initsleeplock 0 0 0 0 0 0 ∅).

(** The first entry with a name, and its offset. *)
Fixpoint find_entry (es : list (list Z * Z)) (k : nat) (name : list Z) : option (Z * Z) :=
  match es with
  | [] => None
  | (nm, inum) :: es' => if decide (key nm = key name) then Some (inum, DIRENT * Z.of_nat k) else find_entry es' (S k) name
  end.

Record image_ok (v : Z -> block) (names datas : list (list Z)) : Prop := {
  io_super : sb_of (v 1) = S0 /\ sb_magic S0 = FSMAGIC;
  io_layout : forall d out, layout (Tenv d (sb_logstart S0) (sb_nlog S0) out) S0;
  io_log : hdr_n (v (sb_logstart S0)) = 0;
  io_used : forall b, 0 <= b < sb_size S0 ->
    used v S0 b = true <-> b < nmeta S0 \/ exists inum, 1 <= inum < 2 + Z.of_nat (length datas) /\ owns v (kinode v inum) b;
  io_disjoint : forall i j b, 1 <= i < 2 + Z.of_nat (length datas) -> 1 <= j < 2 + Z.of_nat (length datas) -> i <> j -> b <> 0 ->
    owns v (kinode v i) b -> ~ owns v (kinode v j) b;
  io_file : forall k data, datas !! k = Some data ->
    let ip := kinode v (2 + Z.of_nat k) in
    i_type ip = T_FILE /\ i_nlink ip = 1 /\ i_size ip = Z.of_nat (length data) /\ file_ok v S0 ip /\ full v ip /\
    fslice v ip 0 (length data) = data;
  io_root :
    let ip := kinode v ROOTINO in
    i_type ip = T_DIR /\ i_nlink ip = 1 /\ i_size ip mod BSIZE = 0 /\ file_ok v S0 ip /\
    ((16 * (2 + length names)) mod 1024 <> 0 -> full v ip)%nat /\
    forall name, dir_find v ip name = find_entry (root_entries names) 0 name;
  io_free : forall i, 2 + Z.of_nat (length datas) <= i < sb_ninodes S0 -> i_type (kinode v i) = 0;
}.

(** ** Reading entries *)

Lemma fslice_is v ip n o l : (forall j, (j < n)%nat -> fbyte v ip (Z.of_nat (o + j)) = nth (o + j) l 0) -> (o + n <= length l)%nat ->
  fslice v ip (Z.of_nat o) n = take n (drop o l).
Proof.
  intros H Hl. apply (nth_ext _ _ 0 0); [rewrite fslice_length, length_take, length_drop; lia|]. rewrite fslice_length. intros j Hj.
  rewrite fslice_nth by done. rewrite nth_firstn, (proj2 (Nat.ltb_lt _ _)), nth_skipn by done. rewrite <- H by done. f_equal. lia.
Qed.

Lemma fslice_zero v ip n o : (forall j, (j < n)%nat -> fbyte v ip (o + Z.of_nat j) = 0) -> fslice v ip o n = replicate n 0.
Proof.
  intros H. apply (nth_ext _ _ 0 0); [by rewrite fslice_length, length_replicate|]. rewrite fslice_length. intros j Hj.
  rewrite fslice_nth by done. rewrite H by done. rewrite nth_lookup, lookup_replicate_2 by done. done.
Qed.

Lemma ents_entry es : forall k e, es !! k = Some e -> take 16 (drop (16 * k) (ents es)) = dirent e.1 e.2.
Proof.
  induction es as [|e0 es IH]; intros [|k] e Hk; [done..| |].
  - injection Hk as ->. cbn [ents map concat]. rewrite Nat.mul_0_r, drop_0. by rewrite take_app_length' by (by rewrite dirent_length).
  - cbn [ents map concat]. replace (16 * S k)%nat with (length (dirent e0.1 e0.2) + 16 * k)%nat by (rewrite dirent_length; lia).
    rewrite drop_app_add. by apply IH.
Qed.

Lemma dirent_inum nm i : 0 <= i < 65536 -> de_inum (dirent nm i) = i.
Proof. intros H. unfold de_inum, dirent. cbn [app nth]. unfold u8. zlia. Qed.
Lemma dirent_name nm i name : (namecmp name (de_name (dirent nm i)) =? 0) = bool_decide (key nm = key name).
Proof.
  unfold namecmp, de_name, dirent. cbn [app drop]. rewrite drop_0. apply eq_true_iff_eq. rewrite Z.eqb_eq, bool_decide_eq_true, strncmp_list_zero, cname_strncpy. unfold key. split; congruence.
Qed.

(** Looking a name up in a directory whose entries are known. *)
Lemma find_from_entries v ip name es : forall n k, Forall (fun e => 1 <= e.2 < 65536) es -> (length es <= n)%nat ->
  (forall j e, es !! j = Some e -> ent v ip (k + j) = dirent e.1 e.2) ->
  (forall j, (length es <= j < n)%nat -> de_inum (ent v ip (k + j)) = 0) ->
  match find_from v ip name n k with Some j => Some (de_inum (ent v ip j), DIRENT * Z.of_nat j) | None => None end = find_entry es k name.
Proof.
  induction es as [|[nm i] es IH]; intros n k Hi Hl He Hz.
  - pose proof (find_from_spec v ip name n k) as Hs. destruct (find_from v ip name n k) as [j|]; [|done]. destruct Hs as (Hj & H & _). unfold ent_is in H.
    specialize (Hz (j - k)%nat ltac:(cbn; lia)). replace (k + (j - k))%nat with j in Hz by lia. by rewrite Hz in H.
  - destruct n as [|n]; [cbn in Hl; lia|]. apply Forall_cons in Hi as [Hi1 Hi]. cbn [fst snd] in Hi1. pose proof (He 0%nat _ eq_refl) as H0. rewrite Nat.add_0_r in H0. cbn [fst snd] in H0.
    cbn [find_from find_entry]. unfold ent_is. rewrite H0, dirent_inum, dirent_name by lia. rewrite (proj2 (Z.eqb_neq i 0)) by lia. cbn [negb andb].
    destruct (decide (key nm = key name)) as [Ek|Ek]; [rewrite bool_decide_eq_true_2 by done; by rewrite H0, dirent_inum by lia|]. rewrite bool_decide_eq_false_2 by done.
    apply (IH n (S k)); [done|cbn in Hl; lia|..].
    + intros j e Hj. specialize (He (S j) e Hj). by replace (S k + j)%nat with (k + S j)%nat by lia.
    + intros j Hj. specialize (Hz (S j) ltac:(cbn; lia)). by replace (S k + j)%nat with (k + S j)%nat by lia.
Qed.

Lemma numbered_range n names : 0 <= n -> Forall (fun e => n <= e.2 < n + Z.of_nat (length names)) (numbered n names).
Proof.
  revert n. induction names as [|nm r IH]; intros n Hn; cbn [numbered]; [constructor|]. cbn [length]. constructor; [cbn; lia|].
  eapply Forall_impl; [apply IH; lia|]. cbn. lia.
Qed.

(** ** The image that is written *)

Section Final.
Context (im : img) (rd : list Z) (rest : files) (off : Z).
Context (I : mk_inv im ((T_DIR, rd) :: rest)) (Hoff : 0 <= off < 2 ^ 32).
Let imw : img := wnode im ROOTINO (set_dsize off (node im ROOTINO)).

(** Correcting the size of the root changes nothing else. *)
Lemma final_file k ty data : ((T_DIR, rd) :: rest) !! k = Some (ty, data) ->
  d_type (node imw (inum_of k)) = ty /\ d_nlink (node imw (inum_of k)) = 1 /\ d_size (node imw (inum_of k)) = (if decide (k = 0)%nat then off else len data) /\
  fileI (gv imw) (ipk imw k) (len data) (len data) (big (len data)) /\
  (forall o, 0 <= o < MAXFILE * BSIZE -> fbyte (gv imw) (ipk imw k) o = fbyte (gv im) (ipk im k) o) /\ (forall x, owns (gv imw) (ipk imw k) x <-> owns (gv im) (ipk im k) x).
Proof.
  intros Hk. destruct (mi_file _ _ I k ty data Hk) as [(F1 & F2 & F3 & F4) [F5 F6] F7 F8]. pose proof (lookup_lt_Some _ _ _ Hk) as Hlt. destruct (mi_ino _ _ I) as [_ Hl].
  pose proof (mi_good _ _ I) as G. assert (0 <= len data) as H0 by (unfold len; lia).
  destruct (fileI_wnode im ROOTINO (set_dsize off (node im ROOTINO)) (ipk im k) (len data) (len data) (big (len data)) G ltac:(unfold ROOTINO; lia) H0 F7) as (W1 & W2 & W3). fold imw in W1, W2, W3.
  assert (inode_fits (ino ROOTINO (set_dsize off (node im ROOTINO)))) as Hfit by (apply (node_fits im); [by destruct (node im ROOTINO)|done|apply node_addr_range]).
  destruct (decide (k = 0)%nat) as [->|Hne].
  - pose proof (node_wnode_eq im ROOTINO _ Hfit) as [(Q1 & Q2 & Q3 & Q4 & Q5) Qa]. fold imw in Q1, Q2, Q3, Q4, Q5, Qa. change (inum_of 0) with ROOTINO in *.
    destruct (fileI_addrs (gv imw) ROOTINO (node im ROOTINO) (node imw ROOTINO)) as (_ & A2 & A3 & A4); [apply Qa|apply node_addr_range|].
    split; [by rewrite Q1|]. split; [by rewrite Q4|]. split; [by rewrite Q5|]. split; [by apply A4|]. split; [intros o Ho; rewrite <- W2 by done; by apply A2|]. intros x. rewrite <- W3. apply A3.
  - assert (node imw (inum_of k) = node im (inum_of k)) as En by (apply node_wnode_ne; [done|unfold ROOTINO; lia|unfold inum_of; cbn in *; lia|unfold ROOTINO, inum_of; lia]).
    assert (ipk imw k = ipk im k) as Ei by (unfold ipk; by rewrite En). rewrite En, Ei. done.
Qed.

Lemma final_free i : inum_of (S (length rest)) <= i < 208 -> d_type (node imw i) = 0.
Proof.
  intros Hi. unfold imw. rewrite node_wnode_ne; [by apply (mi_free _ _ I)| |unfold ROOTINO; lia|unfold inum_of in *; lia|unfold ROOTINO, inum_of in *; lia].
  apply (node_fits im); [by destruct (node im ROOTINO)|done|apply node_addr_range].
Qed.

Lemma final_kinode i : 0 <= i < 208 -> kinode (gv imw) i = ino i (node imw i).
Proof. intros Hi. destruct (IBLOCK0 i Hi) as [_ Hb]. unfold kinode, gv. rewrite mark_other by (change bm with 45; lia). done. Qed.
End Final.

(** The image is as [image_ok] says, in any view that is the one with the bitmap written. *)
Section Image.
Context (im : img) (names datas : list (list Z)) (v : Z -> block).
Let rd : list Z := ents (root_entries names).
Let rest : files := map (pair T_FILE) datas.
Let off : Z := (len rd / BSIZE + 1) * BSIZE.
Let imw : img := wnode im ROOTINO (set_dsize off (node im ROOTINO)).
Context (I : mk_inv im ((T_DIR, rd) :: rest)) (Hlen : length names = length datas) (Ev : forall b, v b = gv imw b).

Lemma im_sizes : len rd = 16 * (2 + Z.of_nat (length datas)) /\ 0 <= off < 2 ^ 32 /\ (length datas <= 198)%nat /\ length rest = length datas /\ 46 <= im_freeblock im <= FSSIZE.
Proof.
  pose proof (mi_ino _ _ I) as [_ Hl]. cbn [length] in Hl. unfold rest in *. rewrite length_map in *.
  assert (len rd = 16 * (2 + Z.of_nat (length datas))) as Er by (unfold len, rd; rewrite ents_length; cbn [root_entries length]; rewrite numbered_length, Hlen; lia).
  split; [done|]. split; [unfold off; rewrite Er, BSIZE_val; zlia|]. split; [lia|]. split; [done|]. apply (gd_fb _ (mi_good _ _ I)).
Qed.

Lemma im_low b : 0 < b < 32 -> v b = vw im b.
Proof. intros Hb. rewrite Ev. unfold gv, imw. rewrite mark_other by (change bm with 45; lia). apply vw_wnode; [unfold ROOTINO|]; lia. Qed.

Lemma im_kinode i : 0 <= i < 208 -> kinode v i = ino i (node imw i).
Proof. intros Hi. unfold kinode. rewrite Ev. by apply (final_kinode im off). Qed.

(** The file with inode [k + 1] as the kernel sees it. *)
Lemma im_file k ty data : ((T_DIR, rd) :: rest) !! k = Some (ty, data) ->
  let ip := kinode v (inum_of k) in
  i_type ip = ty /\ i_nlink ip = 1 /\ i_size ip = (if decide (k = 0)%nat then off else len data) /\ len data <= MAXFILE * BSIZE /\
  fileI v ip (len data) (len data) (big (len data)) /\ (forall j, (j < length data)%nat -> fbyte v ip (Z.of_nat j) = nth j data 0) /\
  (forall x, owns v ip x <-> owns (gv im) (ipk im k) x).
Proof.
  intros Hk ip. destruct im_sizes as (_ & Hoff & Hd & Hr & _). pose proof (lookup_lt_Some _ _ _ Hk) as Hlt. cbn [length] in Hlt.
  assert (ip = ipk imw k) as -> by (unfold ip; rewrite im_kinode by (unfold inum_of; lia); done).
  destruct (final_file im rd rest off I Hoff k ty data Hk) as (F1 & F2 & F3 & F4 & F5 & F6). destruct (mi_file _ _ I k ty data Hk) as [_ [_ Hm] _ Hby].
  destruct (file_ext (gv imw) v (ipk imw k) Ev) as (_ & X2 & X3 & X4). split; [done|]. split; [done|]. split; [done|]. split; [done|]. split; [by apply X4|].
  split; [|intros x; rewrite X3; apply F6]. intros j Hj. rewrite X2. etransitivity; [apply F5; unfold len in Hm; lia|by apply Hby].
Qed.

Lemma im_used b : 0 <= b < FSSIZE -> used v S0 b = (b <? im_freeblock im).
Proof. intros Hb. destruct im_sizes as (_ & _ & _ & _ & Hf). unfold used. rewrite Ev. fold (used (gv imw) S0 b). unfold gv. rewrite used_mark; [done| |done]. cbn. lia. Qed.

Lemma im_owner i : 1 <= i < 2 + Z.of_nat (length datas) -> exists k data, i = inum_of k /\ ((T_DIR, rd) :: rest) !! k = Some data /\ (k < S (length rest))%nat.
Proof.
  intros Hi. destruct im_sizes as (_ & _ & _ & Hr & _). destruct (lookup_lt_is_Some_2 ((T_DIR, rd) :: rest) (Z.to_nat (i - 1))) as [d Hd]; [cbn [length]; lia|].
  exists (Z.to_nat (i - 1)), d. split; [unfold inum_of; lia|]. split; [done|lia].
Qed.

Lemma im_bitmap b : 0 <= b < FSSIZE -> used v S0 b = true <-> b < 46 \/ exists i, 1 <= i < 2 + Z.of_nat (length datas) /\ owns v (kinode v i) b.
Proof.
  intros Hb. rewrite im_used by done. rewrite Z.ltb_lt. destruct im_sizes as (_ & _ & _ & Hr & Hf). pose proof (mi_good _ _ I) as G. split.
  - intros Hlt. destruct (decide (b < 46)); [by left|]. right. destruct (mi_all _ _ I b ltac:(lia)) as (k & Hk & Ho). cbn [length] in Hk.
    destruct (lookup_lt_is_Some_2 ((T_DIR, rd) :: rest) k Hk) as [[ty data] Hd]. exists (inum_of k). split; [unfold inum_of; lia|]. by apply (im_file k ty data Hd).
  - intros [|(i & Hi & Ho)]; [lia|]. destruct (im_owner i Hi) as (k & [ty data] & -> & Hd & _). apply (im_file k ty data Hd) in Ho.
    destruct (mi_file _ _ I k _ _ Hd) as [_ _ F _]. destruct (owns_data _ _ _ _ _ _ F Ho) as [|H]; [lia|]. apply gv_data in H; [lia|done].
Qed.

Lemma im_root name : dir_find v (kinode v ROOTINO) name = find_entry (root_entries names) 0 name.
Proof.
  destruct im_sizes as (Er & Hoff & Hd & Hr & _). destruct (im_file 0 _ _ eq_refl) as (_ & _ & Hs & _ & F & Hb & _). change (inum_of 0) with ROOTINO in *. set (ip := kinode v ROOTINO) in *. rewrite decide_True in Hs by done.
  assert (length (root_entries names) = (2 + length datas)%nat) as El by (cbn [root_entries length]; rewrite numbered_length; lia).
  assert (nents ip = Z.to_nat (off / 16)) as En by (unfold nents; by rewrite Hs). assert (len rd <= off <= MAXFILE * BSIZE /\ off mod 16 = 0) as [Ho Hm] by (unfold off; rewrite Er, MAXFILE_val, BSIZE_val; zlia).
  unfold dir_find. rewrite En. apply find_from_entries.
  - unfold root_entries. repeat (constructor; [cbn; lia|]). eapply Forall_impl; [by apply (numbered_range 2 names)|]. cbn. intros [nm x]. cbn. lia.
  - rewrite El. zlia.
  - intros j e Hj. pose proof (lookup_lt_Some _ _ _ Hj) as Hlt. rewrite El in Hlt. cbn [Nat.add]. unfold ent. rewrite DIRENT_val. replace (16 * Z.of_nat j) with (Z.of_nat (16 * j)) by lia.
    rewrite (fslice_is v ip (Z.to_nat 16) (16 * j) rd); [by apply ents_entry| |unfold len in Er; lia]. intros i Hi. apply Hb. unfold len in Er. lia.
  - intros j Hj. rewrite El in Hj. cbn [Nat.add]. unfold ent. rewrite DIRENT_val, fslice_zero; [done|]. intros i Hi. apply (fi_tail _ _ _ _ _ F). rewrite Er. split; [lia|]. zlia.
Qed.

Lemma image_final : image_ok v names datas.
Proof.
  destruct im_sizes as (Er & Hoff & Hd & Hr & Hf). split.
  - rewrite im_low by lia. destruct (mi_low _ _ I) as [-> _]. split; reflexivity.
  - intros d out. apply layout0.
  - change (sb_logstart S0) with 2. rewrite im_low by lia. destruct (mi_low _ _ I) as [_ Hz]. unfold hdr_n. cbn [loadn]. by rewrite !(Hz 2 ltac:(lia)).
  - rewrite nmeta_val. change (sb_size S0) with FSSIZE. apply im_bitmap.
  - intros i j b Hi Hj Hne Hb. destruct (im_owner i Hi) as (k1 & [t1 d1] & -> & H1 & L1), (im_owner j Hj) as (k2 & [t2 d2] & -> & H2 & L2).
    destruct (im_file k1 t1 d1 H1) as (_ & _ & _ & _ & _ & _ & O1), (im_file k2 t2 d2 H2) as (_ & _ & _ & _ & _ & _ & O2). rewrite O1, O2. apply (mi_apart _ _ I); [done..| |done]. congruence.
  - intros k data Hk. assert (((T_DIR, rd) :: rest) !! S k = Some (T_FILE, data)) as Hk' by (change ((pair T_FILE <$> datas) !! k = Some (T_FILE, data)); by rewrite list_lookup_fmap, Hk).
    destruct (im_file (S k) T_FILE data Hk') as (F1 & F2 & F3 & F4 & F5 & F6 & _). replace (inum_of (S k)) with (2 + Z.of_nat k) in * by (unfold inum_of; lia). rewrite decide_False in F3 by done. cbv zeta.
    split; [done|]. split; [done|]. split; [done|]. split; [apply F5|]. split.
    + split; [rewrite F3; unfold len in *; lia|]. intros bn Hb. rewrite F3. intros Hlt. apply (fi_data _ _ _ _ _ F5); [|done]. rewrite MAXFILE_val, BSIZE_val in *. unfold len in *. lia.
    + rewrite (fslice_is v _ (length data) 0 data); [by rewrite drop_0, firstn_all|done|lia].
  - destruct (im_file 0 _ _ eq_refl) as (F1 & F2 & F3 & F4 & F5 & F6 & _). change (inum_of 0) with ROOTINO in *. rewrite decide_True in F3 by done. cbv zeta. split; [done|]. split; [done|]. split; [rewrite F3; unfold off; apply Z.mod_mul; by rewrite BSIZE_val|].
    split; [apply F5|]. split; [|apply im_root]. rewrite Hlen. intros Hnz.
    assert (len rd mod 1024 <> 0) as Hz by (rewrite Er; intros E; apply Hnz, Nat2Z.inj; rewrite Nat2Z.inj_mod; etransitivity; [|exact E]; f_equal; lia). split; [rewrite F3; unfold off; rewrite Er, MAXFILE_val, BSIZE_val; zlia|].
    intros bn Hb. rewrite F3. intros Hlt. apply (fi_data _ _ _ _ _ F5); unfold off in Hlt; rewrite ?Er, ?MAXFILE_val, ?BSIZE_val in *; zlia.
  - intros i Hi. change (sb_ninodes S0) with 200 in Hi. rewrite im_kinode by lia. apply (final_free im rd rest off I Hoff). unfold inum_of. lia.
Qed.
End Image.

(** C6: mkfs() makes an image the kernel's file system can use: the superblock and the layout are the kernel's, the log is
    empty, the bitmap marks exactly the metadata blocks and the blocks of files, no block belongs to two files, every
    file of the command line has its bytes, and the root directory finds each name (the first file of that name) and the
    dot entries, and nothing else.  It suffices that the names fit, that the files are at most MAXFILE blocks each,
    at most 198 in number, and that they and the directory fit on the disk. *)
Theorem mkfs_correct host argv datas : Forall2 (arg_ok host) argv datas -> (length argv <= 198)%nat ->
  nmeta S0 + blocks (all_files (map shortname argv) datas) <= FSSIZE ->
  exists im, mkfs host argv = Some im /\ image_ok (vw im) (map shortname argv) datas.
Proof.
  intros Ha Hn Hs. rewrite nmeta_val in Hs. destruct (mkfs_files host argv datas Ha Hn Hs) as (im & I & E). set (names := map shortname argv) in *.
  pose proof (mi_good _ _ I) as G. set (rd := ents (root_entries names)) in *. set (rest := map (pair T_FILE) datas). change (all_files names datas) with ((T_DIR, rd) :: rest) in I.
  assert (length rest = length datas /\ length names = length argv /\ length datas = length argv) as (L1 & L2 & L3).
  { clear - Ha. pose proof (Forall2_length _ _ _ Ha). unfold rest, names. rewrite !length_map. auto. }
  destruct (mi_file _ _ I 0 _ _ eq_refl) as [_ [Fs _] _ _]. change (inum_of 0) with ROOTINO in Fs.
  assert (len rd = 16 * (2 + Z.of_nat (length argv))) as Erd by (unfold len, rd; rewrite ents_length; cbn [root_entries length]; rewrite numbered_length, L2; lia).
  set (off := (len rd / BSIZE + 1) * BSIZE). assert (0 <= off < 2 ^ 32) as Hoff by (unfold off; rewrite BSIZE_val; zlia).
  unfold mkfs. change (Img ∅ 1 nmetas) with img0. rewrite E. clear E. unfold mk_bind. rewrite rinode_ok by (done || (unfold ROOTINO; lia)). rewrite Fs, (xint_id (len rd)) by lia. fold off. rewrite xint_id by done.
  rewrite winode_ok by (done || (unfold ROOTINO; lia)). set (imw := wnode im ROOTINO _). unfold get_freeblock, balloc, mk_bind, assert_. pose proof (gd_fb _ G) as Gf.
  change (im_freeblock imw) with (im_freeblock im). rewrite (proj2 (Z.ltb_lt _ BPB)) by (rewrite BPB_val; unfold FSSIZE in Gf; lia). unfold mk_ret, wsect. eexists. split; [done|]. set (im' := Img _ _ _).
  assert (forall b, vw im' b = gv imw b) as Ev.
  { intros b. unfold gv, mark, vw at 1, on_disk, im'. cbn [im_disk]. fold bm. destruct (decide (b = bm)) as [->|]; [by rewrite lookup_insert_eq, fn_lookup_insert|].
    by rewrite lookup_insert_ne, fn_lookup_insert_ne by done. }
  apply (image_final im names datas (vw im') I); [congruence|done].
Qed.
Definition demo_host (path : list Z) : option (list Z) :=
  if bool_decide (path = str "user/_cat") then Some (str "cat code") else if bool_decide (path = str "README") then Some (replicate 1500 65) else None.

Lemma mkfs_correct_witness : exists im, mkfs demo_host [str "user/_cat"; str "README"] = Some im /\
  dir_find (vw im) (kinode (vw im) ROOTINO) (str "README") = Some (3, 48) /\ fslice (vw im) (kinode (vw im) 2) 0 8 = str "cat code".
Proof.
  assert (Forall2 (arg_ok demo_host) [str "user/_cat"; str "README"] [str "cat code"; replicate 1500 65]) as Ha.
  { repeat (constructor; [split; [reflexivity|reflexivity|split; [by vm_compute|by apply (bool_decide_unpack _); vm_compute]|split; [by vm_compute|by apply (bool_decide_unpack _); vm_compute]]|]). constructor. }
  destruct (mkfs_correct demo_host _ _ Ha) as (im & E & [_ _ _ _ _ Hf Hr _]); [cbn; lia|by vm_compute|]. exists im. split; [exact E|]. split.
  - destruct Hr as (_ & _ & _ & _ & _ & H). rewrite H. reflexivity.
  - destruct (Hf 0%nat _ eq_refl) as (_ & _ & _ & _ & _ & H). exact H.
Defined.
