(* ===== verification/Kernel.v ===== *)
(** The kernel state (the global variables of the kernel, put together) and how the components run in it.

    [kst] holds the process table with physical memory, the log and the block cache, the inode table,
    the file table, the pipes by the address of their page, the console, the serial port, the tick counter and
    the registers of this CPU.  A routine of a component runs in it through a lens; what fs.c, pipe.c and
    console.c read of the running process is taken from its slot in the table.  The wakeups of
    a routine are delivered to the process table when it returns or goes to sleep, and a routine that sleeps
    leaves the running process SLEEPING on the channel. *)
From stdpp Require Import functions.
From S2P Require Import Prelude Machine CString Kalloc Vm Sleeplock BlockCache Log Pipe Printf Uart Console.
From S2P Require Import Proc Fs.
Local Open Scope Z_scope.

(** ** Open files (kernel/file.h) *)

Inductive ftype : Type := FD_NONE | FD_PIPE | FD_INODE | FD_DEVICE.
#[global] Instance ftype_eq_dec : EqDecision ftype.
Proof. solve_decision. Defined.

Record file : Type := File {
  f_type : ftype;
  f_ref : Z;
  f_readable : Z;
  f_writable : Z;
  f_pipe : Z;
  f_ip : nat;
  f_off : Z;
  f_major : Z;
}.
#[global] Instance file_inhabited : Inhabited file := populate (File FD_NONE 0 0 0 0 0 0 0).

Definition set_fref x f := File (f_type f) x (f_readable f) (f_writable f) (f_pipe f) (f_ip f) (f_off f) (f_major f).
Definition set_ftype x f := File x (f_ref f) (f_readable f) (f_writable f) (f_pipe f) (f_ip f) (f_off f) (f_major f).
Definition set_foff x f := File (f_type f) (f_ref f) (f_readable f) (f_writable f) (f_pipe f) (f_ip f) x (f_major f).
Definition set_fmajor x f := File (f_type f) (f_ref f) (f_readable f) (f_writable f) (f_pipe f) (f_ip f) (f_off f) x.
Definition set_fip x f := File (f_type f) (f_ref f) (f_readable f) (f_writable f) (f_pipe f) x (f_off f) (f_major f).
Definition set_fpipe x f := File (f_type f) (f_ref f) (f_readable f) (f_writable f) x (f_ip f) (f_off f) (f_major f).
Definition set_faccess r w f := File (f_type f) (f_ref f) r w (f_pipe f) (f_ip f) (f_off f) (f_major f).

#[global] Instance pipe_inhabited : Inhabited pipe := populate (Pipe ∅ 0 0 0 0).

Definition nfile : nat := Z.to_nat NFILE.

(** ** The registers of a CPU that trap.c uses *)

Record hart : Type := Hart {
  h_sstatus : Z;
  h_scause : Z;
  h_sepc : Z;
  h_stval : Z;
  h_stvec : Z;
  h_satp : Z;
  h_tp : Z;
  h_time : Z;
  h_stimecmp : Z;
  h_irq : Z;  (* the interrupt the PLIC has pending for this CPU, 0 for none *)
}.

(** ** The kernel state *)

Record kst (K : Type) : Type := KSt {
  k_pt : ptab;
  k_fy : fsys K;
  k_sb : superblock;
  k_itab : gmap nat inode;
  k_ftab : gmap nat file;
  k_pipes : gmap Z pipe;
  k_cons : cons;
  k_uart : uart;
  k_ticks : Z;
  k_first : Z;  (* static int first of forkret *)
  k_hart : hart;
}.
Arguments KSt {K} k_pt k_fy k_sb k_itab k_ftab k_pipes k_cons k_uart k_ticks k_first k_hart.
Arguments k_pt {K} k.
Arguments k_fy {K} k.
Arguments k_sb {K} k.
Arguments k_itab {K} k.
Arguments k_ftab {K} k.
Arguments k_pipes {K} k.
Arguments k_cons {K} k.
Arguments k_uart {K} k.
Arguments k_ticks {K} k.
Arguments k_first {K} k.
Arguments k_hart {K} k.

(** The process the CPU runs. *)
Definition cur_proc (t : ptab) : proc := match c_proc t with Some i => procs t !!! i | None => inhabitant end.
Definition put_mem (m : pmem) (t : ptab) : ptab := PTab (procs t) (nextpid t) (initproc t) (c_proc t) m.
(** sleep() of the running process, as the process table sees it. *)
Definition put_asleep (ch : chan) (t : ptab) : ptab :=
  match c_proc t with
  | Some i => put_procs (<[i := set_state SLEEPING (set_chan (Some ch) (procs t !!! i))]> (procs t)) t
  | None => t
  end.

Section Kernel.
Context {K : Type}.

Definition pt_lens : lens (kst K) ptab :=
  Lens k_pt (fun t k => KSt t (k_fy k) (k_sb k) (k_itab k) (k_ftab k) (k_pipes k) (k_cons k) (k_uart k) (k_ticks k) (k_first k) (k_hart k)).
Definition onpt {A} (m : M ptab A) : M (kst K) A := zoom pt_lens m.

Definition kmem_lens : lens (kst K) pmem := Lens (fun k => p_mem (k_pt k)) (fun m k => lput pt_lens (put_mem m (k_pt k)) k).
Definition onkmem {A} (m : M pmem A) : M (kst K) A := zoom kmem_lens m.

(** A process that sleeps in the middle of a routine. *)
Definition fall_asleep {A} (ch : chan) : M (kst K) A := fun c k =>
  Asleep ch c (lput pt_lens (put_asleep ch (k_pt k)) k).

(** The wakeups among the events, in the order they happened. *)
Fixpoint deliver (l : list event) : M ptab unit :=
  match l with
  | [] => retM tt
  | EvWakeup ch :: l' => wakeup ch ;;! deliver l'
  | EvPutc _ :: l' => deliver l'
  end.

(** A routine of a component: its wakeups reach the table, and its sleep is the sleep of the process. *)
Definition waking {A} (m : M (kst K) A) : M (kst K) A := fun c k =>
  match m (Ctx (held c) []) k with
  | Ok a c' k' => (onpt (deliver (rev (out c'))) ;;! retM a) (Ctx (held c') (out c' ++ out c)) k'
  | Panic msg => Panic msg
  | Asleep ch c' k' => (onpt (deliver (rev (out c'))) ;;! fall_asleep ch) (Ctx (held c') (out c' ++ out c)) k'
  | Diverge => Diverge
  end.

Definition fs_lens : lens (kst K) (fs K) :=
  Lens (fun k => Fs (k_fy k) (k_sb k) (k_itab k) (p_mem (k_pt k)) (p_pid (cur_proc (k_pt k))) (p_pagetable (cur_proc (k_pt k)))
                    (default 0%nat (p_cwd (cur_proc (k_pt k)))))
       (fun f k => KSt (put_mem (mm f) (k_pt k)) (fy f) (sb f) (itab f) (k_ftab k) (k_pipes k) (k_cons k) (k_uart k) (k_ticks k) (k_first k) (k_hart k)).
Definition onfs {A} (m : M (fs K) A) : M (kst K) A := waking (zoom fs_lens m).

Definition pipe_lens (pa : Z) : lens (kst K) pst :=
  Lens (fun k => PSt (k_pipes k !!! pa) (p_mem (k_pt k)) (negb (p_killed (cur_proc (k_pt k)) =? 0)))
       (fun p k => KSt (put_mem (the_mem p) (k_pt k)) (k_fy k) (k_sb k) (k_itab k) (k_ftab k) (<[pa := the_pipe p]> (k_pipes k)) (k_cons k) (k_uart k) (k_ticks k) (k_first k) (k_hart k)).
Definition onpipe {A} (pa : Z) (m : M pst A) : M (kst K) A := waking (zoom (pipe_lens pa) m).

Definition tty_lens : lens (kst K) tty :=
  Lens (fun k => Tty (k_cons k) (k_uart k) (p_mem (k_pt k)) (negb (p_killed (cur_proc (k_pt k)) =? 0)))
       (fun t k => KSt (put_mem (t_mem t) (k_pt k)) (k_fy k) (k_sb k) (k_itab k) (k_ftab k) (k_pipes k) (t_cons t) (t_uart t) (k_ticks k) (k_first k) (k_hart k)).
Definition ontty {A} (m : M tty A) : M (kst K) A := waking (zoom tty_lens m).

(** The page table of the running process. *)
Definition proc_root : M (kst K) Z := getsM (fun k => p_pagetable (cur_proc (k_pt k))).

Definition set_ftab (t : gmap nat file) (k : kst K) : kst K :=
  KSt (k_pt k) (k_fy k) (k_sb k) (k_itab k) t (k_pipes k) (k_cons k) (k_uart k) (k_ticks k) (k_first k) (k_hart k).
Definition set_pipe (pa : Z) (p : pipe) (k : kst K) : kst K :=
  KSt (k_pt k) (k_fy k) (k_sb k) (k_itab k) (k_ftab k) (<[pa := p]> (k_pipes k)) (k_cons k) (k_uart k) (k_ticks k) (k_first k) (k_hart k).
Definition set_ticks (x : Z) (k : kst K) : kst K :=
  KSt (k_pt k) (k_fy k) (k_sb k) (k_itab k) (k_ftab k) (k_pipes k) (k_cons k) (k_uart k) x (k_first k) (k_hart k).
Definition set_first (x : Z) (k : kst K) : kst K :=
  KSt (k_pt k) (k_fy k) (k_sb k) (k_itab k) (k_ftab k) (k_pipes k) (k_cons k) (k_uart k) (k_ticks k) x (k_hart k).
Definition set_hart (h : hart) (k : kst K) : kst K :=
  KSt (k_pt k) (k_fy k) (k_sb k) (k_itab k) (k_ftab k) (k_pipes k) (k_cons k) (k_uart k) (k_ticks k) (k_first k) h.
End Kernel.
