(* ===== verification/File.v ===== *)
(** Open files (kernel/file.c, and pipealloc of pipe.c), over the kernel state of [Kernel].

    A file is the index of its slot in ftable; the device switch has the console's entry
    only.  [FileInv] proves the theorems. *)
From stdpp Require Import functions.
From S2P Require Import Prelude Machine CString Kalloc Vm Sleeplock BlockCache Log Pipe Printf Uart Console.
From S2P Require Import Proc Fs Kernel.
Local Open Scope Z_scope.

Definition CONSOLE : Z := 1.

Section File.
Context {K : Type} `{BC : BlockCache K} `{KI : KernelImage}.
(** What the serial port reports about its transmitter. *)
Variable tx_idle : nat -> bool.
(** What the kernel stack held in the four bytes of padding of a struct stat. *)
Variable stack_pad : list Z.

(** begin_op() and end_op() of log.c. *)
Definition kbegin_op : M (kst K) unit := onfs (onlog begin_op).
Definition kend_op : M (kst K) unit := onfs (onlog end_op).

Definition getf (f : nat) : M (kst K) file := getsM (fun k => k_ftab k !!! f).
Definition modf (f : nat) (g : file -> file) : M (kst K) unit :=
  modifyM (fun k => set_ftab (<[f := g (k_ftab k !!! f)]> (k_ftab k)) k).

Fixpoint filealloc_scan (k i : nat) (t : gmap nat file) : option nat :=
  match k with
  | O => None
  | S k' => if f_ref (t !!! i) =? 0 then Some i else filealloc_scan k' (S i) t
  end.

Definition filealloc : M (kst K) (option nat) :=
  acquire L_ftable ;;!
  t <-! getsM k_ftab ;;
  match filealloc_scan nfile 0 t with
  | Some f =>
      modf f (set_fref 1) ;;!
      release L_ftable ;;!
      retM (Some f)
  | None => release L_ftable ;;! retM None
  end.

Definition filedup (f : nat) : M (kst K) nat :=
  acquire L_ftable ;;!
  x <-! getf f ;;
  if f_ref x <? 1 then panic "filedup"
  else
    modf f (set_fref (f_ref x + 1)) ;;!
    release L_ftable ;;!
    retM f.

Definition fileclose (f : nat) : M (kst K) unit :=
  acquire L_ftable ;;!
  x <-! getf f ;;
  if f_ref x <? 1 then panic "fileclose"
  else
    modf f (set_fref (f_ref x - 1)) ;;!
    if 0 <? f_ref x - 1 then release L_ftable
    else
      ff <-! getf f ;;
      modf f (set_fref 0) ;;!
      modf f (set_ftype FD_NONE) ;;!
      release L_ftable ;;!
      match f_type ff with
      | FD_PIPE => onpipe (f_pipe ff) (pipeclose (f_pipe ff) (negb (f_writable ff =? 0)))
      | FD_INODE | FD_DEVICE =>
          kbegin_op ;;!
          onfs (iput (f_ip ff)) ;;!
          kend_op
      | FD_NONE => retM tt
      end.

(** struct stat in memory: int dev, uint ino, short type, short nlink, padding, uint64 size. *)
Definition stat_bytes (st : stat) : list Z :=
  bytes_of (storen 2 (storen 2 (storen 4 (storen 4 ∅ 0 (st_dev st)) 4 (st_ino st)) 8 (st_type st)) 10 (st_nlink st)) 0 12 ++
  take 4 (stack_pad ++ [0; 0; 0; 0]) ++ bytes_of (storen 8 ∅ 0 (st_size st)) 0 8.

Definition filestat (f : nat) (addr : Z) : M (kst K) Z :=
  x <-! getf f ;;
  match f_type x with
  | FD_INODE | FD_DEVICE =>
      onfs (ilock (Some (f_ip x))) ;;!
      st <-! onfs (stati (f_ip x)) ;;
      onfs (iunlock (Some (f_ip x))) ;;!
      root <-! proc_root ;;
      r <-! onkmem (copyout root addr (stat_bytes st)) ;;
      if r <? 0 then retM (-1) else retM 0
  | _ => retM (-1)
  end.

(** devsw[]: consoleinit() sets the entry of the console and nothing sets another. *)
Definition devsw_set (major : Z) : bool := major =? CONSOLE.

Definition fileread (f : nat) (addr n : Z) : M (kst K) Z :=
  x <-! getf f ;;
  if f_readable x =? 0 then retM (-1)
  else
    match f_type x with
    | FD_PIPE =>
        root <-! proc_root ;;
        r <-! onpipe (f_pipe x) (piperead (f_pipe x) root addr n) ;;
        match r with PRet v => retM v | PSleep ch _ => fall_asleep ch end
    | FD_DEVICE =>
        if (f_major x <? 0) || (NDEV <=? f_major x) || negb (devsw_set (f_major x)) then retM (-1)
        else
          root <-! proc_root ;;
          r <-! ontty (consoleread root addr n) ;;
          match r with TRet v => retM v | TSleepR _ _ => fall_asleep Ch_cons_r | TSleepW _ _ => fall_asleep Ch_uart_tx_r end
    | FD_INODE =>
        onfs (ilock (Some (f_ip x))) ;;!
        r <-! onfs (readi (f_ip x) (Some addr) (f_off x) (u32 n)) ;;
        (if 0 <? fst r then modf f (set_foff (u32 (f_off x + fst r))) else retM tt) ;;!
        onfs (iunlock (Some (f_ip x))) ;;!
        retM (fst r)
    | FD_NONE => panic "fileread"
    end.

(** The number of bytes filewrite() hands to one transaction. *)
Definition WRITEMAX : Z := (MAXOPBLOCKS - 1 - 1 - 2) / 2 * BSIZE.

(** The loop of filewrite(): how far it got. *)
Fixpoint filewrite_loop (fuel : nat) (f : nat) (addr n i : Z) : M (kst K) Z :=
  if i <? n then
    match fuel with
    | O => diverge
    | S fl =>
        let n1 := if WRITEMAX <? n - i then WRITEMAX else n - i in
        kbegin_op ;;!
        x <-! getf f ;;
        onfs (ilock (Some (f_ip x))) ;;!
        r <-! onfs (writei (f_ip x) (inl (u64 (addr + i))) (f_off x) n1) ;;
        (if 0 <? r then modf f (set_foff (u32 (f_off x + r))) else retM tt) ;;!
        onfs (iunlock (Some (f_ip x))) ;;!
        kend_op ;;!
        if negb (r =? n1) then retM i
        else filewrite_loop fl f addr n (i + r)
    end
  else retM i.

Definition filewrite (f : nat) (addr n : Z) : M (kst K) Z :=
  x <-! getf f ;;
  if f_writable x =? 0 then retM (-1)
  else
    match f_type x with
    | FD_PIPE =>
        root <-! proc_root ;;
        r <-! onpipe (f_pipe x) (pipewrite (f_pipe x) root addr n) ;;
        match r with PRet v => retM v | PSleep ch _ => fall_asleep ch end
    | FD_DEVICE =>
        if (f_major x <? 0) || (NDEV <=? f_major x) || negb (devsw_set (f_major x)) then retM (-1)
        else
          root <-! proc_root ;;
          r <-! ontty (consolewrite tx_idle root addr n) ;;
          match r with TRet v => retM v | TSleepR _ _ => fall_asleep Ch_cons_r | TSleepW _ _ => fall_asleep Ch_uart_tx_r end
    | FD_INODE =>
        i <-! filewrite_loop (Z.to_nat n) f addr n 0 ;;
        retM (if i =? n then n else -1)
    | FD_NONE => panic "filewrite"
    end.

(** pipealloc(): the two ends, or [None] for -1. *)
Definition pipealloc : M (kst K) (option (nat * nat)) :=
  f0 <-! filealloc ;;
  match f0 with
  | None => retM None
  | Some f0 =>
      f1 <-! filealloc ;;
      match f1 with
      | None => fileclose f0 ;;! retM None
      | Some f1 =>
          pi <-! onkmem kalloc ;;
          if pi =? 0 then fileclose f0 ;;! fileclose f1 ;;! retM None
          else
            modifyM (fun k => set_pipe pi (fresh_pipe (pdata (k_pipes k !!! pi))) k) ;;!
            modf f0 (fun x => set_fpipe pi (set_faccess 1 0 (set_ftype FD_PIPE x))) ;;!
            modf f1 (fun x => set_fpipe pi (set_faccess 0 1 (set_ftype FD_PIPE x))) ;;!
            retM (Some (f0, f1))
      end
  end.
End File.
