(* ===== verification/Fork.v ===== *)
(** The process operations of kernel/proc.c that also work on files and inodes: fork(), exit() and userinit().
    They run in the kernel state of [Kernel] and call [Proc], [File] and [Fs]. *)
From stdpp Require Import functions.
From S2P Require Import Prelude Machine CString Kalloc Vm Sleeplock BlockCache Log Pipe Printf Uart Console.
From S2P Require Import Proc Fs Kernel File.
Local Open Scope Z_scope.

(** The bytes of the first user program. *)
Definition initcode : list Z :=
  [0x17; 0x05; 0x00; 0x00; 0x13; 0x05; 0x45; 0x02;
   0x97; 0x05; 0x00; 0x00; 0x93; 0x85; 0x35; 0x02;
   0x93; 0x08; 0x70; 0x00; 0x73; 0x00; 0x00; 0x00;
   0x93; 0x08; 0x20; 0x00; 0x73; 0x00; 0x00; 0x00;
   0xef; 0xf0; 0x9f; 0xff; 0x2f; 0x69; 0x6e; 0x69;
   0x74; 0x00; 0x00; 0x24; 0x00; 0x00; 0x00; 0x00;
   0x00; 0x00; 0x00; 0x00].

(** safestrcpy(p->name, s, sizeof(p->name)) for the bytes of a string before its NUL. *)
Definition NAMESIZE : nat := 16.
Definition name_of (s : list Z) : list Z := take (NAMESIZE - 1) s.

Section Fork.
Context {K : Type} `{BC : BlockCache K} `{KI : KernelImage}.
Variable forkret_addr : Z.

(** The loop of fork() over the descriptors from [fd] on. *)
Fixpoint fork_files (n : nat) (fd : Z) (i np : nat) : M (kst K) unit :=
  match n with
  | O => retM tt
  | S n' =>
      p <-! onpt (getp i) ;;
      (match p_ofile p !! fd with
       | Some f => f' <-! filedup f ;; onpt (modp np (fun q => set_ofile (<[fd := f']> (p_ofile q)) q))
       | None => retM tt
       end) ;;!
      fork_files n' (fd + 1) i np
  end.

Definition fork : M (kst K) Z :=
  i <-! onpt myproc ;;
  r <-! onpt (allocproc forkret_addr) ;;
  match r with
  | None => retM (-1)
  | Some np =>
      p <-! onpt (getp i) ;;
      q <-! onpt (getp np) ;;
      e <-! onkmem (uvmcopy (p_pagetable p) (p_pagetable q) (p_sz p)) ;;
      if e <? 0 then
        onpt (freeproc np) ;;!
        release (L_proc np) ;;!
        retM (-1)
      else
        onpt (modp np (set_psz (p_sz p))) ;;!
        onpt (modp np (set_trace_mask (p_trace_mask p))) ;;!
        onkmem (memmoveM (p_trapframe q) (p_trapframe p) TF_size) ;;!
        onpt (set_tf np TF_a0 0) ;;!
        fork_files (Z.to_nat NOFILE) 0 i np ;;!
        match p_cwd p with
        | None => undefined
        | Some d =>
            d' <-! onfs (idup d) ;;
            onpt (modp np (set_cwd (Some d'))) ;;!
            onpt (modp np (set_name (name_of (p_name p)))) ;;!
            release (L_proc np) ;;!
            onpt (fork_publish np i) ;;!
            retM (p_pid q)
        end
  end.

(** The loop of exit() over the descriptors from [fd] on. *)
Fixpoint exit_files (n : nat) (fd : Z) (i : nat) : M (kst K) unit :=
  match n with
  | O => retM tt
  | S n' =>
      p <-! onpt (getp i) ;;
      (match p_ofile p !! fd with
       | Some f => fileclose f ;;! onpt (modp i (fun q => set_ofile (delete fd (p_ofile q)) q))
       | None => retM tt
       end) ;;!
      exit_files n' (fd + 1) i
  end.

(** exit() up to the last swtch(). *)
Definition exit (status : Z) : M (kst K) unit :=
  i <-! onpt myproc ;;
  t <-! getsM k_pt ;;
  if decide (initproc t = Some i) then panic "init exiting"
  else
    exit_files (Z.to_nat NOFILE) 0 i ;;!
    kbegin_op ;;!
    p <-! onpt (getp i) ;;
    match p_cwd p with
    | None => undefined
    | Some d =>
        onfs (iput d) ;;!
        kend_op ;;!
        onpt (modp i (set_cwd None)) ;;!
        onpt (exit_last i status)
    end.

Definition userinit : M (kst K) unit :=
  r <-! onpt (allocproc forkret_addr) ;;
  match r with
  | None => undefined
  | Some i =>
      onpt (modifyM (fun t => PTab (procs t) (nextpid t) (Some i) (c_proc t) (p_mem t))) ;;!
      p <-! onpt (getp i) ;;
      onkmem (uvmfirst (p_pagetable p) initcode) ;;!
      onpt (modp i (set_psz PGSIZE)) ;;!
      onpt (set_tf i TF_epc 0) ;;!
      onpt (set_tf i TF_sp PGSIZE) ;;!
      onpt (modp i (set_name (name_of (str "initcode")))) ;;!
      d <-! onfs (namei (str "/")) ;;
      onpt (modp i (set_cwd d)) ;;!
      onpt (modp i (set_state RUNNABLE)) ;;!
      release (L_proc i)
  end.
End Fork.
