(* ===== verification/Exec.v ===== *)
(** exec() (kernel/exec.c, with the formats of kernel/elf.h), over the kernel state of [Kernel]. *)
From stdpp Require Import functions.
From S2P Require Import Prelude Machine CString Kalloc Vm Sleeplock BlockCache Log Pipe Printf Uart Console.
From S2P Require Import Proc Fs Kernel File Fork.
Local Open Scope Z_scope.

Definition ELF_MAGIC : Z := 0x464C457F.
Definition ELF_PROG_LOAD : Z := 1.

(** A little-endian number of [n] bytes at an offset of a struct read from the file. *)
Definition le (n : nat) (bs : list Z) (off : nat) : Z := fold_right (fun b v => b + 256 * v) 0 (take n (drop off bs)).

(** struct elfhdr, 64 bytes, by the fields exec() uses. *)
Definition ELFHDR : Z := 64.
Definition eh_magic (h : list Z) : Z := le 4 h 0.
Definition eh_entry (h : list Z) : Z := le 8 h 24.
Definition eh_phoff (h : list Z) : Z := le 8 h 32.
Definition eh_phnum (h : list Z) : Z := le 2 h 56.

(** struct proghdr, 56 bytes. *)
Definition PROGHDR : Z := 56.
Definition ph_type (h : list Z) : Z := le 4 h 0.
Definition ph_flags (h : list Z) : Z := le 4 h 4.
Definition ph_off (h : list Z) : Z := le 8 h 8.
Definition ph_vaddr (h : list Z) : Z := le 8 h 16.
Definition ph_filesz (h : list Z) : Z := le 8 h 32.
Definition ph_memsz (h : list Z) : Z := le 8 h 40.

Definition flags2perm (flags : Z) : Z :=
  let perm := if negb (Z.land flags 1 =? 0) then PTE_X else 0 in
  if negb (Z.land flags 2 =? 0) then Z.lor perm PTE_W else perm.

(** The bytes of an array of uint64 in memory. *)
Definition u64_bytes (x : Z) : list Z := bytes_of (store64 ∅ 0 x) 0 8.
Definition words_bytes (l : list Z) : list Z := mjoin (map u64_bytes l).

Section Stack.
Context `{KI : KernelImage}.

(** The loop that pushes the argument strings: [inl sp] where it failed, or the stack pointer and the
    addresses of the strings. *)
Fixpoint push_args (argv : list (list Z)) (pagetable stackbase sp : Z) (ustack : list Z) : M pmem (option (Z * list Z)) :=
  match argv with
  | [] => retM (Some (sp, ustack))
  | a :: argv' =>
      if MAXARG <=? Z.of_nat (length ustack) then retM None
      else
        let sp := u64 (sp - (Z.of_nat (length a) + 1)) in
        let sp := sp - sp mod 16 in
        if sp <? stackbase then retM None
        else
          r <-! copyout pagetable sp (a ++ [0]) ;;
          if r <? 0 then retM None
          else push_args argv' pagetable stackbase sp (ustack ++ [sp])
  end.

(** and the array of pointers below them; the result is the final stack pointer. *)
Definition push_argv (argv : list (list Z)) (pagetable sz : Z) : M pmem (option Z) :=
  let sp := sz in
  let stackbase := u64 (sp - USERSTACK * PGSIZE) in
  r <-! push_args argv pagetable stackbase sp [] ;;
  match r with
  | None => retM None
  | Some (sp, ustack) =>
      let sp := u64 (sp - (Z.of_nat (length ustack) + 1) * 8) in
      let sp := sp - sp mod 16 in
      if sp <? stackbase then retM None
      else
        e <-! copyout pagetable sp (words_bytes (ustack ++ [0])) ;;
        if e <? 0 then retM None else retM (Some sp)
  end.
End Stack.

(** The part of a path after its last slash. *)
Fixpoint last_elem (s last : list Z) : list Z :=
  match s with
  | [] => last
  | c :: s' => last_elem s' (if c =? slash then s' else last)
  end.

Section Exec.
Context {K : Type} `{BC : BlockCache K} `{KI : KernelImage}.

Fixpoint loadseg_loop (fuel : nat) (pagetable va : Z) (ip : nat) (offset sz i : Z) : M (kst K) Z :=
  if i <? sz then
    match fuel with
    | O => diverge
    | S f =>
        pa <-! onkmem (walkaddr pagetable (u64 (va + i))) ;;
        if pa =? 0 then panic "loadseg: address should exist"
        else
          let n := if sz - i <? PGSIZE then sz - i else PGSIZE in
          r <-! onfs (readi ip None (u32 (offset + i)) n) ;;
          onkmem (modifyM (fun m => PMem (put_bytes (pm_mem m) pa (snd r)) (freelist m))) ;;!
          if negb (fst r =? n) then retM (-1)
          else loadseg_loop f pagetable va ip offset sz (u32 (i + PGSIZE))
    end
  else retM 0.
(** offset and sz are uints. *)
Definition loadseg (pagetable va : Z) (ip : nat) (offset sz : Z) : M (kst K) Z :=
  loadseg_loop (Z.to_nat (sz / PGSIZE + 1)) pagetable va ip offset sz 0.

(** The loop over the program headers: whether it reached the end, and the size so far. *)
Fixpoint load_loop (n : nat) (pagetable : Z) (ip : nat) (off sz : Z) : M (kst K) (bool * Z) :=
  match n with
  | O => retM (true, sz)
  | S n' =>
      r <-! onfs (readi ip None (u32 off) PROGHDR) ;;
      let ph := snd r in
      if negb (fst r =? PROGHDR) then retM (false, sz)
      else if negb (ph_type ph =? ELF_PROG_LOAD) then load_loop n' pagetable ip (s32 (off + PROGHDR)) sz
      else if ph_memsz ph <? ph_filesz ph then retM (false, sz)
      else if u64 (ph_vaddr ph + ph_memsz ph) <? ph_vaddr ph then retM (false, sz)
      else if negb (ph_vaddr ph mod PGSIZE =? 0) then retM (false, sz)
      else
        sz1 <-! onkmem (uvmalloc pagetable sz (u64 (ph_vaddr ph + ph_memsz ph)) (flags2perm (s32 (ph_flags ph)))) ;;
        if sz1 =? 0 then retM (false, sz)
        else
          e <-! loadseg pagetable (ph_vaddr ph) ip (u32 (ph_off ph)) (u32 (ph_filesz ph)) ;;
          if e <? 0 then retM (false, sz1)
          else load_loop n' pagetable ip (s32 (off + PROGHDR)) sz1
  end.

(** The label bad: the new image is freed, and the inode given up if it is still held. *)
Definition exec_bad (pagetable sz : Z) (ip : option nat) : M (kst K) Z :=
  (if negb (pagetable =? 0) then onkmem (proc_freepagetable pagetable sz) else retM tt) ;;!
  (match ip with
   | Some ip => onfs (iunlockput ip) ;;! kend_op
   | None => retM tt
   end) ;;!
  retM (-1).

(** From the allocation of the stack on. *)
Definition exec_stack (i : nat) (path : list Z) (argv : list (list Z)) (pagetable sz entry : Z) : M (kst K) Z :=
  p <-! onpt (getp i) ;;
  let oldsz := p_sz p in
  let sz := PGROUNDUP sz in
  sz1 <-! onkmem (uvmalloc pagetable sz (u64 (sz + (USERSTACK + 1) * PGSIZE)) PTE_W) ;;
  if sz1 =? 0 then exec_bad pagetable sz None
  else
    let sz := sz1 in
    onkmem (uvmclear pagetable (u64 (sz - (USERSTACK + 1) * PGSIZE))) ;;!
    r <-! onkmem (push_argv argv pagetable sz) ;;
    match r with
    | None => exec_bad pagetable sz None
    | Some sp =>
        onpt (set_tf i TF_a1 sp) ;;!
        onpt (modp i (set_name (name_of (last_elem path path)))) ;;!
        let oldpagetable := p_pagetable p in
        onpt (modp i (set_pagetable pagetable)) ;;!
        onpt (modp i (set_psz sz)) ;;!
        onpt (set_tf i TF_epc entry) ;;!
        onpt (set_tf i TF_sp sp) ;;!
        onkmem (proc_freepagetable oldpagetable oldsz) ;;!
        retM (Z.of_nat (length argv))
    end.

(** argv: the strings before the null pointer. *)
Definition exec (path : list Z) (argv : list (list Z)) : M (kst K) Z :=
  i <-! onpt myproc ;;
  kbegin_op ;;!
  r <-! onfs (namei path) ;;
  match r with
  | None => kend_op ;;! retM (-1)
  | Some ip =>
      onfs (ilock (Some ip)) ;;!
      r <-! onfs (readi ip None 0 ELFHDR) ;;
      let elf := snd r in
      if negb (fst r =? ELFHDR) then exec_bad 0 0 (Some ip)
      else if negb (eh_magic elf =? ELF_MAGIC) then exec_bad 0 0 (Some ip)
      else
        p <-! onpt (getp i) ;;
        pagetable <-! onkmem (proc_pagetable (p_trapframe p)) ;;
        if pagetable =? 0 then exec_bad 0 0 (Some ip)
        else
          l <-! load_loop (Z.to_nat (eh_phnum elf)) pagetable ip (s32 (eh_phoff elf)) 0 ;;
          if negb (fst l) then exec_bad pagetable (snd l) (Some ip)
          else
            onfs (iunlockput ip) ;;!
            kend_op ;;!
            exec_stack i path argv pagetable (snd l) (eh_entry elf)
  end.
End Exec.
