(* ===== verification/Args.v ===== *)
(** System call arguments (the first half of kernel/syscall.c, and argfd() and fdalloc() of kernel/sysfile.c). *)
From stdpp Require Import functions.
From S2P Require Import Prelude Machine CString Kalloc Vm Sleeplock BlockCache Log Pipe Printf Uart Console.
From S2P Require Import Proc Fs Kernel File.
Local Open Scope Z_scope.

Section Args.
Context {K : Type} `{KI : KernelImage}.

(** The code and the uint64 that was fetched. *)
Definition fetchaddr (addr : Z) : M (kst K) (Z * Z) :=
  i <-! onpt myproc ;;
  p <-! onpt (getp i) ;;
  if (p_sz p <=? addr) || (p_sz p <? u64 (addr + 8)) then retM (-1, 0)
  else
    r <-! onkmem (copyin (p_pagetable p) addr 8) ;;
    if negb (fst r =? 0) then retM (-1, 0)
    else retM (0, fold_right (fun b v => b + 256 * v) 0 (snd r)).

(** The length of the string or -1, and the bytes that were stored in the buffer. *)
Definition fetchstr (addr max : Z) : M (kst K) (Z * list Z) :=
  i <-! onpt myproc ;;
  p <-! onpt (getp i) ;;
  r <-! onkmem (copyinstr (p_pagetable p) addr max) ;;
  if fst r <? 0 then retM (-1, snd r)
  else retM (Z.of_nat (length (snd r)) - 1, snd r).

Definition argraw (n : Z) : M (kst K) Z :=
  i <-! onpt myproc ;;
  if (0 <=? n) && (n <=? 5) then onpt (get_tf i (TF_a0 + 8 * n))
  else panic "argraw".

Definition argint (n : Z) : M (kst K) Z := x <-! argraw n ;; retM (s32 x).
Definition argaddr (n : Z) : M (kst K) Z := argraw n.
(** The result of fetchstr and the string in the buffer, without its NUL. *)
Definition argstr (n max : Z) : M (kst K) (Z * list Z) :=
  addr <-! argaddr n ;;
  r <-! fetchstr addr max ;;
  retM (fst r, take (Z.to_nat (fst r)) (snd r)).

(** The descriptor and its file, or [None] for -1. *)
Definition argfd (n : Z) : M (kst K) (option (Z * nat)) :=
  fd <-! argint n ;;
  i <-! onpt myproc ;;
  p <-! onpt (getp i) ;;
  if (fd <? 0) || (NOFILE <=? fd) then retM None
  else retM (match p_ofile p !! fd with Some f => Some (fd, f) | None => None end).

Fixpoint fdalloc_scan (n : nat) (fd : Z) (t : gmap Z nat) : option Z :=
  match n with
  | O => None
  | S n' => match t !! fd with None => Some fd | Some _ => fdalloc_scan n' (fd + 1) t end
  end.

Definition fdalloc (f : nat) : M (kst K) Z :=
  i <-! onpt myproc ;;
  p <-! onpt (getp i) ;;
  match fdalloc_scan (Z.to_nat NOFILE) 0 (p_ofile p) with
  | Some fd => onpt (modp i (fun p => set_ofile (<[fd := f]> (p_ofile p)) p)) ;;! retM fd
  | None => retM (-1)
  end.

(** myproc()->ofile[fd] = 0 *)
Definition fdclear (fd : Z) : M (kst K) unit :=
  i <-! onpt myproc ;; onpt (modp i (fun p => set_ofile (delete fd (p_ofile p)) p)).
End Args.
