(* ===== verification/Sysproc.v ===== *)
(** The system calls of kernel/sysproc.c.  A call returns the value that goes to the process, or sleeps;
    sys_exit does not return to the process. *)
From stdpp Require Import functions.
From S2P Require Import Prelude Machine CString Kalloc Vm Sleeplock BlockCache Log Pipe Printf Uart Console.
From S2P Require Import Proc Fs Kernel File Fork Args.
Local Open Scope Z_scope.

(** struct sysinfo in memory. *)
Definition sysinfo_bytes (freemem nproc load : Z) : list Z :=
  bytes_of (store64 (store64 (store64 ∅ 0 freemem) 8 nproc) 16 load) 0 24.

Section Sysproc.
Context {K : Type} `{BC : BlockCache K} `{KI : KernelImage}.
Variable forkret_addr : Z.

Definition sys_exit : M (kst K) unit :=
  n <-! argint 0 ;; exit n.

Definition sys_getpid : M (kst K) Z :=
  i <-! onpt myproc ;; p <-! onpt (getp i) ;; retM (p_pid p).

Definition sys_fork : M (kst K) Z := fork forkret_addr.

Definition sys_wait : M (kst K) Z :=
  p <-! argaddr 0 ;;
  i <-! onpt myproc ;;
  r <-! onpt (wait p) ;;
  match r with
  | Some v => retM v
  | None => fun c s => Asleep (Ch_proc i) c s
  end.

Definition sys_sbrk : M (kst K) Z :=
  n <-! argint 0 ;;
  i <-! onpt myproc ;;
  p <-! onpt (getp i) ;;
  let addr := p_sz p in
  r <-! onpt (growproc n) ;;
  if r <? 0 then retM (-1) else retM addr.

(** The loop of sys_sleep from the top, tickslock held; [None] when the process sleeps. *)
Definition sys_sleep_loop (ticks0 n : Z) : M (kst K) (option Z) :=
  ticks <-! getsM k_ticks ;;
  if u32 (ticks - ticks0) <? n then
    i <-! onpt myproc ;;
    k <-! onpt (killed i) ;;
    if negb (k =? 0) then release L_ticks ;;! retM (Some (-1))
    else onpt (psleep Ch_ticks L_ticks) ;;! retM None
  else release L_ticks ;;! retM (Some 0).
Definition sys_sleep_resume (ticks0 n : Z) : M (kst K) (option Z) :=
  onpt (psleep_resume L_ticks) ;;! sys_sleep_loop ticks0 n.

(** The start time and the rounded-up argument, with what the first turn of the loop returns. *)
Definition sys_sleep_start : M (kst K) (Z * Z * option Z) :=
  n <-! argint 0 ;;
  let n := if n <? 0 then 0 else n in
  acquire L_ticks ;;!
  ticks0 <-! getsM k_ticks ;;
  r <-! sys_sleep_loop ticks0 n ;;
  retM (ticks0, n, r).
Definition sys_sleep : M (kst K) Z :=
  r <-! sys_sleep_start ;;
  match snd r with
  | Some v => retM v
  | None => fun c s => Asleep Ch_ticks c s
  end.

Definition sys_kill : M (kst K) Z := pid <-! argint 0 ;; onpt (kill pid).

Definition sys_uptime : M (kst K) Z :=
  acquire L_ticks ;;!
  xticks <-! getsM k_ticks ;;
  release L_ticks ;;!
  retM xticks.

Definition sys_trace : M (kst K) Z :=
  mask <-! argint 0 ;;
  i <-! onpt myproc ;;
  onpt (modp i (set_trace_mask mask)) ;;!
  retM 0.

Definition sys_sysinfo : M (kst K) Z :=
  addr <-! argaddr 0 ;;
  freemem <-! onkmem kcollect_free ;;
  nproc <-! onpt kcollect_nproc ;;
  load <-! onpt kcollect_load ;;
  root <-! proc_root ;;
  r <-! onkmem (copyout root addr (sysinfo_bytes freemem nproc load)) ;;
  if r <? 0 then retM (-1) else retM 0.
End Sysproc.
