(* ===== verification/Sysfile.v ===== *)
(** The file system calls (kernel/sysfile.c). *)
From stdpp Require Import functions.
From S2P Require Import Prelude Machine CString Kalloc Vm Sleeplock BlockCache Log Pipe Printf Uart Console.
From S2P Require Import Proc Fs Kernel File Fork Exec Args.
Local Open Scope Z_scope.
(** omode & flag *)
Definition flag (omode f : Z) : bool := negb (Z.land omode f =? 0).

Section Sysfile.
Context {K : Type} `{BC : BlockCache K} `{KI : KernelImage}.
Variable tx_idle : nat -> bool.
Variable stack_pad : list Z.

Definition sys_dup : M (kst K) Z :=
  r <-! argfd 0 ;;
  match r with
  | None => retM (-1)
  | Some (_, f) =>
      fd <-! fdalloc f ;;
      if fd <? 0 then retM (-1)
      else filedup f ;;! retM fd
  end.

Definition sys_read : M (kst K) Z :=
  p <-! argaddr 1 ;;
  n <-! argint 2 ;;
  r <-! argfd 0 ;;
  match r with
  | None => retM (-1)
  | Some (_, f) => fileread f p n
  end.

Definition sys_write : M (kst K) Z :=
  p <-! argaddr 1 ;;
  n <-! argint 2 ;;
  r <-! argfd 0 ;;
  match r with
  | None => retM (-1)
  | Some (_, f) => filewrite tx_idle f p n
  end.

Definition sys_close : M (kst K) Z :=
  r <-! argfd 0 ;;
  match r with
  | None => retM (-1)
  | Some (fd, f) =>
      fdclear fd ;;!
      fileclose f ;;!
      retM 0
  end.

Definition sys_fstat : M (kst K) Z :=
  st <-! argaddr 1 ;;
  r <-! argfd 0 ;;
  match r with
  | None => retM (-1)
  | Some (_, f) => filestat stack_pad f st
  end.

(** ip->nlink++ and ip->nlink--; iupdate(ip) *)
Definition link_add (ip : nat) (d : Z) : M (fs K) unit :=
  modip ip (fun x => set_nlink (s16 (i_nlink x + d)) x) ;;! iupdate ip.

(** The label bad of sys_link. *)
Definition link_bad (ip : nat) : M (kst K) Z :=
  onfs (ilock (Some ip)) ;;!
  onfs (link_add ip (-1)) ;;!
  onfs (iunlockput ip) ;;!
  kend_op ;;!
  retM (-1).

Definition sys_link : M (kst K) Z :=
  old <-! argstr 0 MAXPATH ;;
  if fst old <? 0 then retM (-1)
  else
    new <-! argstr 1 MAXPATH ;;
    if fst new <? 0 then retM (-1)
    else
      kbegin_op ;;!
      r <-! onfs (namei (snd old)) ;;
      match r with
      | None => kend_op ;;! retM (-1)
      | Some ip =>
          onfs (ilock (Some ip)) ;;!
          x <-! onfs (getip ip) ;;
          if i_type x =? T_DIR then
            onfs (iunlockput ip) ;;! kend_op ;;! retM (-1)
          else
            onfs (link_add ip 1) ;;!
            onfs (iunlock (Some ip)) ;;!
            d <-! onfs (nameiparent (snd new)) ;;
            match fst d with
            | None => link_bad ip
            | Some dp =>
                onfs (ilock (Some dp)) ;;!
                y <-! onfs (getip dp) ;;
                x <-! onfs (getip ip) ;;
                e <-! (if negb (i_dev y =? i_dev x) then retM (-1) else onfs (dirlink dp (snd d) (i_inum x))) ;;
                if e <? 0 then onfs (iunlockput dp) ;;! link_bad ip
                else
                  onfs (iunlockput dp) ;;!
                  onfs (iput ip) ;;!
                  kend_op ;;!
                  retM 0
            end
      end.

Fixpoint isdirempty_loop (fuel : nat) (dp : nat) (off : Z) : M (fs K) bool :=
  x <-! getip dp ;;
  if off <? i_size x then
    match fuel with
    | O => diverge
    | S f =>
        r <-! readi dp None off DIRENT ;;
        if negb (fst r =? DIRENT) then panic "isdirempty: readi"
        else if negb (de_inum (snd r) =? 0) then retM false
        else isdirempty_loop f dp (off + DIRENT)
    end
  else retM true.
Definition isdirempty (dp : nat) : M (fs K) bool :=
  x <-! getip dp ;; isdirempty_loop (Z.to_nat (i_size x)) dp (2 * DIRENT).

(** The label bad of sys_unlink. *)
Definition unlink_bad (dp : nat) : M (kst K) Z :=
  onfs (iunlockput dp) ;;! kend_op ;;! retM (-1).

Definition sys_unlink : M (kst K) Z :=
  path <-! argstr 0 MAXPATH ;;
  if fst path <? 0 then retM (-1)
  else
    kbegin_op ;;!
    d <-! onfs (nameiparent (snd path)) ;;
    match fst d with
    | None => kend_op ;;! retM (-1)
    | Some dp =>
        onfs (ilock (Some dp)) ;;!
        let name := snd d in
        if (namecmp name (str ".") =? 0) || (namecmp name (str "..") =? 0) then unlink_bad dp
        else
          l <-! onfs (dirlookup dp name) ;;
          match l with
          | None => unlink_bad dp
          | Some (ip, off) =>
              onfs (ilock (Some ip)) ;;!
              x <-! onfs (getip ip) ;;
              if i_nlink x <? 1 then panic "unlink: nlink < 1"
              else
                e <-! (if i_type x =? T_DIR then onfs (isdirempty ip) else retM true) ;;
                if negb e then onfs (iunlockput ip) ;;! unlink_bad dp
                else
                  w <-! onfs (writei dp (inr (replicate (Z.to_nat DIRENT) 0)) off DIRENT) ;;
                  if negb (w =? DIRENT) then panic "unlink: writei"
                  else
                    (if i_type x =? T_DIR then onfs (link_add dp (-1)) else retM tt) ;;!
                    onfs (iunlockput dp) ;;!
                    onfs (link_add ip (-1)) ;;!
                    onfs (iunlockput ip) ;;!
                    kend_op ;;!
                    retM 0
          end
    end.

(** The label fail of create. *)
Definition create_fail (dp ip : nat) : M (fs K) (option nat) :=
  modip ip (set_nlink 0) ;;!
  iupdate ip ;;!
  iunlockput ip ;;!
  iunlockput dp ;;!
  retM None.

Definition create (path : list Z) (type major minor : Z) : M (fs K) (option nat) :=
  d <-! nameiparent path ;;
  match fst d with
  | None => retM None
  | Some dp =>
      let name := snd d in
      ilock (Some dp) ;;!
      l <-! dirlookup dp name ;;
      match l with
      | Some (ip, _) =>
          iunlockput dp ;;!
          ilock (Some ip) ;;!
          x <-! getip ip ;;
          if (type =? T_FILE) && ((i_type x =? T_FILE) || (i_type x =? T_DEVICE)) then retM (Some ip)
          else iunlockput ip ;;! retM None
      | None =>
          y <-! getip dp ;;
          a <-! ialloc (i_dev y) type ;;
          match a with
          | None => iunlockput dp ;;! retM None
          | Some ip =>
              ilock (Some ip) ;;!
              modip ip (fun x => set_nlink 1 (set_minor minor (set_major major x))) ;;!
              iupdate ip ;;!
              x <-! getip ip ;;
              e <-! (if type =? T_DIR then
                       e1 <-! dirlink ip (str ".") (i_inum x) ;;
                       if e1 <? 0 then retM e1 else dirlink ip (str "..") (i_inum y)
                     else retM 0) ;;
              if e <? 0 then create_fail dp ip
              else
                e <-! dirlink dp name (i_inum x) ;;
                if e <? 0 then create_fail dp ip
                else
                  (if type =? T_DIR then link_add dp 1 else retM tt) ;;!
                  iunlockput dp ;;!
                  retM (Some ip)
          end
      end
  end.

(** From the check of the device number on, the inode locked. *)
Definition open_inode (ip : nat) (omode : Z) : M (kst K) Z :=
  x <-! onfs (getip ip) ;;
  if (i_type x =? T_DEVICE) && ((i_major x <? 0) || (NDEV <=? i_major x)) then
    onfs (iunlockput ip) ;;! kend_op ;;! retM (-1)
  else
    o <-! filealloc ;;
    match o with
    | None => onfs (iunlockput ip) ;;! kend_op ;;! retM (-1)
    | Some f =>
        fd <-! fdalloc f ;;
        if fd <? 0 then
          fileclose f ;;! onfs (iunlockput ip) ;;! kend_op ;;! retM (-1)
        else
          (if i_type x =? T_DEVICE then modf f (fun y => set_fmajor (i_major x) (set_ftype FD_DEVICE y))
           else modf f (fun y => set_foff 0 (set_ftype FD_INODE y))) ;;!
          modf f (set_fip ip) ;;!
          modf f (set_faccess (if flag omode O_WRONLY then 0 else 1)
                              (if flag omode O_WRONLY || flag omode O_RDWR then 1 else 0)) ;;!
          (if flag omode O_TRUNC && (i_type x =? T_FILE) then onfs (itrunc ip) else retM tt) ;;!
          onfs (iunlock (Some ip)) ;;!
          kend_op ;;!
          retM fd
    end.

Definition sys_open : M (kst K) Z :=
  omode <-! argint 1 ;;
  path <-! argstr 0 MAXPATH ;;
  if fst path <? 0 then retM (-1)
  else
    kbegin_op ;;!
    if flag omode O_CREATE then
      r <-! onfs (create (snd path) T_FILE 0 0) ;;
      match r with
      | None => kend_op ;;! retM (-1)
      | Some ip => open_inode ip omode
      end
    else
      r <-! onfs (namei (snd path)) ;;
      match r with
      | None => kend_op ;;! retM (-1)
      | Some ip =>
          onfs (ilock (Some ip)) ;;!
          x <-! onfs (getip ip) ;;
          if (i_type x =? T_DIR) && negb (omode =? O_RDONLY) then
            onfs (iunlockput ip) ;;! kend_op ;;! retM (-1)
          else open_inode ip omode
      end.

Definition sys_mkdir : M (kst K) Z :=
  kbegin_op ;;!
  path <-! argstr 0 MAXPATH ;;
  r <-! (if fst path <? 0 then retM None else onfs (create (snd path) T_DIR 0 0)) ;;
  match r with
  | None => kend_op ;;! retM (-1)
  | Some ip => onfs (iunlockput ip) ;;! kend_op ;;! retM 0
  end.

Definition sys_mknod : M (kst K) Z :=
  kbegin_op ;;!
  major <-! argint 1 ;;
  minor <-! argint 2 ;;
  path <-! argstr 0 MAXPATH ;;
  r <-! (if fst path <? 0 then retM None else onfs (create (snd path) T_DEVICE (s16 major) (s16 minor))) ;;
  match r with
  | None => kend_op ;;! retM (-1)
  | Some ip => onfs (iunlockput ip) ;;! kend_op ;;! retM 0
  end.

Definition sys_chdir : M (kst K) Z :=
  i <-! onpt myproc ;;
  kbegin_op ;;!
  path <-! argstr 0 MAXPATH ;;
  r <-! (if fst path <? 0 then retM None else onfs (namei (snd path))) ;;
  match r with
  | None => kend_op ;;! retM (-1)
  | Some ip =>
      onfs (ilock (Some ip)) ;;!
      x <-! onfs (getip ip) ;;
      if negb (i_type x =? T_DIR) then
        onfs (iunlockput ip) ;;! kend_op ;;! retM (-1)
      else
        onfs (iunlock (Some ip)) ;;!
        p <-! onpt (getp i) ;;
        match p_cwd p with
        | None => undefined
        | Some d =>
            onfs (iput d) ;;!
            kend_op ;;!
            onpt (modp i (set_cwd (Some ip))) ;;!
            retM 0
        end
  end.

(** The pages of the argument strings are given back. *)
Fixpoint free_args (l : list Z) : M (kst K) unit :=
  match l with
  | [] => retM tt
  | a :: l' => onkmem (kfree a) ;;! free_args l'
  end.

(** The loop of sys_exec from argument [i] on: [None] for the label bad.  [pages] are the pages
    in argv so far, [argv] their strings. *)
Fixpoint exec_args (n : nat) (uargv i : Z) (pages : list Z) (argv : list (list Z)) :
    M (kst K) (list Z * option (list (list Z))) :=
  match n with
  | O => retM (pages, None)
  | S n' =>
      r <-! fetchaddr (u64 (uargv + 8 * i)) ;;
      if fst r <? 0 then retM (pages, None)
      else if snd r =? 0 then retM (pages, Some argv)
      else
        a <-! onkmem kalloc ;;
        if a =? 0 then retM (pages, None)
        else
          s <-! fetchstr (snd r) PGSIZE ;;
          onkmem (modifyM (fun m => PMem (put_bytes (pm_mem m) a (snd s)) (freelist m))) ;;!
          if fst s <? 0 then retM (pages ++ [a], None)
          else exec_args n' uargv (i + 1) (pages ++ [a]) (argv ++ [take (Z.to_nat (fst s)) (snd s)])
  end.

Definition sys_exec : M (kst K) Z :=
  uargv <-! argaddr 1 ;;
  path <-! argstr 0 MAXPATH ;;
  if fst path <? 0 then retM (-1)
  else
    r <-! exec_args (Z.to_nat MAXARG) uargv 0 [] [] ;;
    match snd r with
    | Some argv =>
        ret <-! exec (snd path) argv ;;
        free_args (fst r) ;;!
        retM ret
    | None => free_args (fst r) ;;! retM (-1)
    end.

Definition sys_pipe : M (kst K) Z :=
  fdarray <-! argaddr 0 ;;
  r <-! pipealloc ;;
  match r with
  | None => retM (-1)
  | Some (rf, wf) =>
      fd0 <-! fdalloc rf ;;
      fd1 <-! (if fd0 <? 0 then retM (-1) else fdalloc wf) ;;
      if fd1 <? 0 then
        (if 0 <=? fd0 then fdclear fd0 else retM tt) ;;!
        fileclose rf ;;!
        fileclose wf ;;!
        retM (-1)
      else
        root <-! proc_root ;;
        e0 <-! onkmem (copyout root fdarray (int_bytes fd0)) ;;
        e1 <-! (if e0 <? 0 then retM (-1) else onkmem (copyout root (u64 (fdarray + 4)) (int_bytes fd1))) ;;
        if e1 <? 0 then
          fdclear fd0 ;;!
          fdclear fd1 ;;!
          fileclose rf ;;!
          fileclose wf ;;!
          retM (-1)
        else retM 0
  end.
End Sysfile.
