(* ===== verification/Syscall.v ===== *)
(** System call dispatch (the second half of kernel/syscall.c, and kernel/syscall.h). *)
From stdpp Require Import functions.
From S2P Require Import Prelude Machine CString Kalloc Vm Sleeplock BlockCache Log Pipe Printf Uart Console.
From S2P Require Import Proc Fs Kernel File Fork Exec Args Sysproc Sysfile.
Local Open Scope Z_scope.

Definition SYS_fork : Z := 1.
Definition SYS_exit : Z := 2.
Definition SYS_wait : Z := 3.
Definition SYS_pipe : Z := 4.
Definition SYS_read : Z := 5.
Definition SYS_kill : Z := 6.
Definition SYS_exec : Z := 7.
Definition SYS_fstat : Z := 8.
Definition SYS_chdir : Z := 9.
Definition SYS_dup : Z := 10.
Definition SYS_getpid : Z := 11.
Definition SYS_sbrk : Z := 12.
Definition SYS_sleep : Z := 13.
Definition SYS_uptime : Z := 14.
Definition SYS_open : Z := 15.
Definition SYS_write : Z := 16.
Definition SYS_mknod : Z := 17.
Definition SYS_unlink : Z := 18.
Definition SYS_link : Z := 19.
Definition SYS_mkdir : Z := 20.
Definition SYS_close : Z := 21.
Definition SYS_trace : Z := 22.
Definition SYS_sysinfo : Z := 23.

(** The designated initialisers of an array: the entry of an index, none where there is no initialiser. *)
Definition table {A} (l : list (Z * A)) (n : Z) : option A :=
  match list_find (fun x => fst x = n) l with Some (_, x) => Some (snd x) | None => None end.

Definition syscall_names : list (Z * string) :=
  [(SYS_fork, "fork"); (SYS_exit, "exit"); (SYS_wait, "wait"); (SYS_pipe, "pipe"); (SYS_read, "read"); (SYS_kill, "kill");
   (SYS_exec, "exec"); (SYS_fstat, "fstat"); (SYS_chdir, "chdir"); (SYS_dup, "dup"); (SYS_getpid, "getpid"); (SYS_sbrk, "sbrk");
   (SYS_sleep, "sleep"); (SYS_uptime, "uptime"); (SYS_open, "open"); (SYS_write, "write"); (SYS_mknod, "mknod");
   (SYS_unlink, "unlink"); (SYS_link, "link"); (SYS_mkdir, "mkdir"); (SYS_close, "close"); (SYS_trace, "trace");
   (SYS_sysinfo, "sysinfo")]%string.

Definition syscall_argc : list (Z * Z) :=
  [(SYS_fork, 0); (SYS_exit, 1); (SYS_wait, 1); (SYS_pipe, 1); (SYS_read, 3); (SYS_kill, 1); (SYS_exec, 2); (SYS_fstat, 2);
   (SYS_chdir, 1); (SYS_dup, 1); (SYS_getpid, 0); (SYS_sbrk, 1); (SYS_sleep, 1); (SYS_uptime, 0); (SYS_open, 2); (SYS_write, 3);
   (SYS_mknod, 3); (SYS_unlink, 1); (SYS_link, 2); (SYS_mkdir, 1); (SYS_close, 1); (SYS_trace, 1); (SYS_sysinfo, 1)].

(** printf(")" " -> %d\n") and the line for an unknown call. *)
Definition trace_end : string := ") -> %d" ++ newline.
Definition unknown_call : string := "%d %s: unknown sys call %d" ++ newline.

(** The loop that prints the arguments from [i] on. *)
Fixpoint trace_args {S} (args : list Z) : M S unit :=
  match args with
  | [] => retM tt
  | a :: args' =>
      printf (str "%d") [VInt (s32 a)] ;;!
      (match args' with [] => retM tt | _ => printf (str " ") [] end) ;;!
      trace_args args'
  end.

Section Syscall.
Context {K : Type} `{BC : BlockCache K} `{KI : KernelImage}.
Variable tx_idle : nat -> bool.
Variable stack_pad : list Z.
Variable forkret_addr : Z.

(** A call that returns to its process. *)
Definition returns (m : M (kst K) Z) : M (kst K) (option Z) := r <-! m ;; retM (Some r).

(** syscalls[]; the value is [None] when the call does not return. *)
Definition syscalls : list (Z * M (kst K) (option Z)) :=
  [(SYS_fork, returns (sys_fork forkret_addr)); (SYS_exit, sys_exit ;;! retM None); (SYS_wait, returns sys_wait);
   (SYS_pipe, returns sys_pipe); (SYS_read, returns sys_read); (SYS_kill, returns sys_kill); (SYS_exec, returns sys_exec);
   (SYS_fstat, returns (sys_fstat stack_pad)); (SYS_chdir, returns sys_chdir); (SYS_dup, returns sys_dup);
   (SYS_getpid, returns sys_getpid); (SYS_sbrk, returns sys_sbrk); (SYS_sleep, returns sys_sleep); (SYS_uptime, returns sys_uptime);
   (SYS_open, returns sys_open); (SYS_write, returns (sys_write tx_idle)); (SYS_mknod, returns sys_mknod);
   (SYS_unlink, returns sys_unlink); (SYS_link, returns sys_link); (SYS_mkdir, returns sys_mkdir); (SYS_close, returns sys_close);
   (SYS_trace, returns sys_trace); (SYS_sysinfo, returns sys_sysinfo)].

(** args[0] to args[5] *)
Definition saved_args (i : nat) : M (kst K) (list Z) :=
  a0 <-! onpt (get_tf i TF_a0) ;;
  a1 <-! onpt (get_tf i (TF_a0 + 8)) ;;
  a2 <-! onpt (get_tf i (TF_a0 + 16)) ;;
  a3 <-! onpt (get_tf i (TF_a0 + 24)) ;;
  a4 <-! onpt (get_tf i (TF_a0 + 32)) ;;
  a5 <-! onpt (get_tf i (TF_a0 + 40)) ;;
  retM [a0; a1; a2; a3; a4; a5].

(** The trace line of a call that returned. *)
Definition trace_line (i : nat) (num : Z) (args : list Z) : M (kst K) unit :=
  p <-! onpt (getp i) ;;
  if Z.testbit (p_trace_mask p) num then
    printf (str "%d: syscall %s(") [VInt (p_pid p); VStr (str <$> table syscall_names num)] ;;!
    trace_args (take (Z.to_nat (default 0 (table syscall_argc num))) args) ;;!
    a0 <-! onpt (get_tf i TF_a0) ;;
    printf (str trace_end) [VInt (s32 a0)]
  else retM tt.

(** Whether the process goes on in user space. *)
Definition syscall : M (kst K) bool :=
  i <-! onpt myproc ;;
  a7 <-! onpt (get_tf i TF_a7) ;;
  let num := s32 a7 in
  match (if 0 <? num then table syscalls num else None) with
  | Some f =>
      args <-! saved_args i ;;
      r <-! f ;;
      match r with
      | None => retM false
      | Some v =>
          onpt (set_tf i TF_a0 (u64 v)) ;;!
          trace_line i num args ;;!
          retM true
      end
  | None =>
      p <-! onpt (getp i) ;;
      printf (str unknown_call) [VInt (p_pid p); VStr (Some (p_name p)); VInt num] ;;!
      onpt (set_tf i TF_a0 (u64 (-1))) ;;!
      retM true
  end.
End Syscall.
