(* ===== verification/Trap.v ===== *)
(** Traps and interrupts (kernel/trap.c, the register accessors of kernel/riscv.h it uses, the claim and
    complete operations of kernel/plic.c, and forkret() of kernel/proc.c).

    The registers of the CPU are the fields of [hart]; an accessor reads or writes
    its field.  A trap handler ends by entering user space, by giving up the CPU, or in exit(). *)
From stdpp Require Import functions.
From S2P Require Import Prelude Machine CString Kalloc Vm Sleeplock BlockCache Log Pipe Printf Uart Console.
From S2P Require Import Proc Fs Kernel File Fork Exec Args Sysproc Sysfile Syscall.
Local Open Scope Z_scope.

Definition SSTATUS_SPP : Z := Z.shiftl 1 8.
Definition SSTATUS_SPIE : Z := Z.shiftl 1 5.
Definition SSTATUS_SIE : Z := Z.shiftl 1 1.
Definition SATP_SV39 : Z := Z.shiftl 8 60.
Definition MAKE_SATP (pagetable : Z) : Z := Z.lor SATP_SV39 (Z.shiftr pagetable 12).
Definition UART0_IRQ : Z := 10.
Definition VIRTIO0_IRQ : Z := 1.

Definition TF_kernel_satp : Z := 0.
Definition TF_kernel_sp : Z := 8.
Definition TF_kernel_trap : Z := 16.
Definition TF_kernel_hartid : Z := 32.

(** How a handler leaves the kernel code of the process. *)
Inductive trap_out : Type :=
| ToUser (satp : Z)
| Exited
| Yields.

Section Trap.
Context {K : Type} `{BC : BlockCache K} `{KI : KernelImage}.
Variable tx_idle : nat -> bool.
Variable stack_pad : list Z.
Variable forkret_addr : Z.
(** The addresses of kernelvec and usertrap, and of uservec and userret in the trampoline page. *)
Variables kernelvec usertrap_addr uservec userret : Z.
(** The interrupt handler of the disk driver, on whatever state the block cache keeps of it. *)
Variable virtio_disk_intr : M (kst K) unit.

(** ** Registers *)

Definition csr (f : hart -> Z) : M (kst K) Z := getsM (fun k => f (k_hart k)).
Definition modh (f : hart -> hart) : M (kst K) unit := modifyM (fun k => set_hart (f (k_hart k)) k).

Definition r_sstatus : M (kst K) Z := csr h_sstatus.
Definition r_scause : M (kst K) Z := csr h_scause.
Definition r_sepc : M (kst K) Z := csr h_sepc.
Definition r_stval : M (kst K) Z := csr h_stval.
Definition r_satp : M (kst K) Z := csr h_satp.
Definition r_tp : M (kst K) Z := csr h_tp.
Definition r_time : M (kst K) Z := csr h_time.
Definition w_sstatus (x : Z) : M (kst K) unit :=
  modh (fun h => Hart x (h_scause h) (h_sepc h) (h_stval h) (h_stvec h) (h_satp h) (h_tp h) (h_time h) (h_stimecmp h) (h_irq h)).
Definition w_sepc (x : Z) : M (kst K) unit :=
  modh (fun h => Hart (h_sstatus h) (h_scause h) x (h_stval h) (h_stvec h) (h_satp h) (h_tp h) (h_time h) (h_stimecmp h) (h_irq h)).
Definition w_stvec (x : Z) : M (kst K) unit :=
  modh (fun h => Hart (h_sstatus h) (h_scause h) (h_sepc h) (h_stval h) x (h_satp h) (h_tp h) (h_time h) (h_stimecmp h) (h_irq h)).
Definition w_stimecmp (x : Z) : M (kst K) unit :=
  modh (fun h => Hart (h_sstatus h) (h_scause h) (h_sepc h) (h_stval h) (h_stvec h) (h_satp h) (h_tp h) (h_time h) x (h_irq h)).

Definition intr_on : M (kst K) unit := x <-! r_sstatus ;; w_sstatus (Z.lor x SSTATUS_SIE).
Definition intr_off : M (kst K) unit := x <-! r_sstatus ;; w_sstatus (Z.land x (Z.lnot SSTATUS_SIE)).
Definition intr_get : M (kst K) bool := x <-! r_sstatus ;; retM (negb (Z.land x SSTATUS_SIE =? 0)).

(** ** Device interrupts *)

(** The claim register gives the pending interrupt; writing it back lets the device interrupt again. *)
Definition plic_claim : M (kst K) Z := csr h_irq.
Definition plic_complete (irq : Z) : M (kst K) unit :=
  modh (fun h => Hart (h_sstatus h) (h_scause h) (h_sepc h) (h_stval h) (h_stvec h) (h_satp h) (h_tp h) (h_time h) (h_stimecmp h) 0).

Definition clockintr : M (kst K) unit :=
  id <-! r_tp ;;
  (if s32 id =? 0 then
     acquire L_ticks ;;!
     modifyM (fun k => set_ticks (u32 (k_ticks k + 1)) k) ;;!
     onpt (wakeup Ch_ticks) ;;!
     release L_ticks
   else retM tt) ;;!
  t <-! r_time ;;
  w_stimecmp (u64 (t + 1000000)).

Definition kuart_lens : lens (kst K) uart :=
  Lens k_uart (fun u k => KSt (k_pt k) (k_fy k) (k_sb k) (k_itab k) (k_ftab k) (k_pipes k) (k_cons k) u (k_ticks k) (k_first k) (k_hart k)).
Definition kcons_lens : lens (kst K) cons :=
  Lens k_cons (fun x k => KSt (k_pt k) (k_fy k) (k_sb k) (k_itab k) (k_ftab k) (k_pipes k) x (k_uart k) (k_ticks k) (k_first k) (k_hart k)).
Definition kuartintr : M (kst K) unit :=
  waking (uartintr tx_idle kuart_lens (consoleintr kcons_lens (onpt procdump))).

Definition SCAUSE_EXT : Z := 0x8000000000000009.
Definition SCAUSE_TIMER : Z := 0x8000000000000005.
Definition unexpected_irq : string := "unexpected interrupt irq=%d" ++ newline.

Definition devintr : M (kst K) Z :=
  scause <-! r_scause ;;
  if scause =? SCAUSE_EXT then
    irq <-! plic_claim ;;
    (if irq =? UART0_IRQ then kuartintr
     else if irq =? VIRTIO0_IRQ then virtio_disk_intr
     else if negb (irq =? 0) then printf (str unexpected_irq) [VInt irq]
     else retM tt) ;;!
    (if negb (irq =? 0) then plic_complete irq else retM tt) ;;!
    retM 1
  else if scause =? SCAUSE_TIMER then clockintr ;;! retM 2
  else retM 0.

(** ** Traps from user space *)

(** The argument of userret, with the registers set for sret. *)
Definition usertrapret : M (kst K) trap_out :=
  i <-! onpt myproc ;;
  intr_off ;;!
  w_stvec (TRAMPOLINE + (uservec - trampoline)) ;;!
  p <-! onpt (getp i) ;;
  satp <-! r_satp ;;
  onpt (set_tf i TF_kernel_satp satp) ;;!
  onpt (set_tf i TF_kernel_sp (u64 (p_kstack p + PGSIZE))) ;;!
  onpt (set_tf i TF_kernel_trap usertrap_addr) ;;!
  tp <-! r_tp ;;
  onpt (set_tf i TF_kernel_hartid tp) ;;!
  x <-! r_sstatus ;;
  w_sstatus (Z.lor (Z.land x (Z.lnot SSTATUS_SPP)) SSTATUS_SPIE) ;;!
  epc <-! onpt (get_tf i TF_epc) ;;
  w_sepc epc ;;!
  retM (ToUser (MAKE_SATP (p_pagetable p))).

Definition unexpected1 : string := "usertrap(): unexpected scause 0x%lx pid=%d" ++ newline.
Definition unexpected2 : string := "            sepc=0x%lx stval=0x%lx" ++ newline.

(** exit(-1) of a killed process, or [k]. *)
Definition exit_killed (i : nat) (k : M (kst K) trap_out) : M (kst K) trap_out :=
  d <-! onpt (killed i) ;;
  if negb (d =? 0) then exit (-1) ;;! retM Exited else k.

(** The end of usertrap from the check of killed on. *)
Definition usertrap_end (i : nat) (which_dev : Z) : M (kst K) trap_out :=
  exit_killed i
    (if which_dev =? 2 then onpt yield ;;! retM Yields
     else usertrapret).

(** What runs when a process that yielded in usertrap is scheduled again. *)
Definition usertrap_resume : M (kst K) trap_out := onpt yield_resume ;;! usertrapret.

Definition usertrap : M (kst K) trap_out :=
  st <-! r_sstatus ;;
  if negb (Z.land st SSTATUS_SPP =? 0) then panic "usertrap: not from user mode"
  else
    w_stvec kernelvec ;;!
    i <-! onpt myproc ;;
    epc <-! r_sepc ;;
    onpt (set_tf i TF_epc epc) ;;!
    cause <-! r_scause ;;
    if cause =? 8 then
      exit_killed i
        (epc <-! onpt (get_tf i TF_epc) ;;
         onpt (set_tf i TF_epc (u64 (epc + 4))) ;;!
         intr_on ;;!
         go <-! syscall tx_idle stack_pad forkret_addr ;;
         if (go : bool) then usertrap_end i 0 else retM Exited)
    else
      which_dev <-! devintr ;;
      (if which_dev =? 0 then
         p <-! onpt (getp i) ;;
         sepc <-! r_sepc ;;
         stval <-! r_stval ;;
         printf (str unexpected1) [VInt cause; VInt (p_pid p)] ;;!
         printf (str unexpected2) [VInt sepc; VInt stval] ;;!
         onpt (setkilled i)
       else retM tt) ;;!
      usertrap_end i which_dev.

(** The first time a process runs. *)
Definition forkret : M (kst K) trap_out :=
  i <-! onpt myproc ;;
  release (L_proc i) ;;!
  first <-! getsM k_first ;;
  (if negb (first =? 0) then
     onfs (fsinit ROOTDEV) ;;! modifyM (set_first 0)
   else retM tt) ;;!
  usertrapret.

(** ** Traps in the kernel *)

Definition kunexpected : string := "scause=0x%lx sepc=0x%lx stval=0x%lx" ++ newline.

(** The end of kerneltrap, also after a yield. *)
Definition kerneltrap_end (sepc sstatus : Z) : M (kst K) unit := w_sepc sepc ;;! w_sstatus sstatus.

(** [Some (sepc, sstatus)]: the interrupted code gave up the CPU and goes on with [kerneltrap_resume]. *)
Definition kerneltrap : M (kst K) (option (Z * Z)) :=
  sepc <-! r_sepc ;;
  sstatus <-! r_sstatus ;;
  scause <-! r_scause ;;
  if Z.land sstatus SSTATUS_SPP =? 0 then panic "kerneltrap: not from supervisor mode"
  else
    on <-! intr_get ;;
    if (on : bool) then panic "kerneltrap: interrupts enabled"
    else
      which_dev <-! devintr ;;
      if which_dev =? 0 then
        stval <-! r_stval ;;
        printf (str kunexpected) [VInt scause; VInt sepc; VInt stval] ;;!
        panic "kerneltrap"
      else
        t <-! getsM k_pt ;;
        if (which_dev =? 2) && bool_decide (is_Some (c_proc t)) then
          onpt yield ;;! retM (Some (sepc, sstatus))
        else kerneltrap_end sepc sstatus ;;! retM None.
Definition kerneltrap_resume (sepc sstatus : Z) : M (kst K) unit :=
  onpt yield_resume ;;! kerneltrap_end sepc sstatus.
End Trap.
