(* ===== verification/SysInv.v ===== *)
(** What a system call may change: the process table and the file table across the calls of the kernel.

    [quiet_step] is a change of the process table that creates and ends no process and touches no
    descriptor.  [keeps i m] says that the routine [m], run by process [i], makes only such
    changes and leaves the file table alone; it is closed under the constructs of the monad, so that it holds for most
    of the kernel by its structure. *)
From stdpp Require Import functions.
From S2P Require Import Prelude Machine CString Kalloc Vm Sleeplock BlockCache Log Pipe Printf Uart Console.
From S2P Require Import Proc ProcInv Fs Kernel File Fork Exec Args Sysproc Sysfile Syscall.
Local Open Scope Z_scope.

(** ** The process table *)

Record quiet (p p' : proc) : Prop := {
  q_same : p_pid p' = p_pid p /\ p_trapframe p' = p_trapframe p /\ p_parent p' = p_parent p /\ p_ofile p' = p_ofile p;
  q_pt : p_pagetable p <> 0 -> p_pagetable p' <> 0;
  q_pt0 : p_state p = UNUSED -> p_pagetable p' = p_pagetable p;
  q_unused : p_state p' = UNUSED <-> p_state p = UNUSED;
  q_zombie : p_state p' = ZOMBIE <-> p_state p = ZOMBIE;
  q_used : p_state p' = USED <-> p_state p = USED;
  q_chan : (p_state p = SLEEPING -> p_chan p <> None) -> p_state p' = SLEEPING -> p_chan p' <> None;
}.

Lemma quiet_refl p : quiet p p.
Proof. by split. Qed.

Lemma quiet_trans p q r : quiet p q -> quiet q r -> quiet p r.
Proof.
  intros [(A1 & A2 & A3 & A4) P P0 B C D E] [(A1' & A2' & A3' & A4') P' P0' B' C' D' E'].
  split; [split_and!; congruence|by intros ?%P%P'| |by rewrite B'|by rewrite C'|by rewrite D'|auto].
  intros Hu. rewrite P0' by (by apply B). by apply P0.
Qed.

Record quiet_step (s s' : ptab) : Prop := {
  qs_slot : forall j, quiet (procs s !!! j) (procs s' !!! j);
  qs_next : nextpid s' = nextpid s;
  qs_init : initproc s' = initproc s;
  qs_cpu : c_proc s' = c_proc s;
}.

Lemma quiet_step_refl s : quiet_step s s.
Proof. split; [intros; apply quiet_refl|done..]. Qed.
Lemma quiet_step_trans s s1 s2 : quiet_step s s1 -> quiet_step s1 s2 -> quiet_step s s2.
Proof. intros [A B C D] [A' B' C' D']. split; [|congruence..]. intros j. by apply (quiet_trans _ (procs s1 !!! j)). Qed.

Lemma quiet_alive p p' : quiet p p' -> alive p -> alive p'.
Proof. intros [_ _ _ Hu Hz Hd _] (H1 & H2 & H3). unfold alive. by rewrite Hu, Hz, Hd. Qed.

Lemma table_ok_quiet s s' : table_ok s -> quiet_step s s' -> table_ok s'.
Proof.
  intros [Hs Hu Hi Hn] [B En Ei _]. split; rewrite ?En; try done.
  - intros i Hlt. destruct (Hs i Hlt) as [S1 S2 S3 S4]. destruct (B i) as [(E1 & E2 & E3 & _) P P0 U Z D C]. split; rewrite ?E1, ?E2, ?E3.
    + intros H. apply U in H. destruct (S1 H) as (? & ? & ? & ?). rewrite P0 by done. done.
    + intros H. rewrite U in H. destruct (S2 H) as (? & ? & ?). split; [done|]. split; [done|]. by apply P.
    + by apply C.
    + intros x Hx. destruct (S4 x Hx) as [? Ha]. split; [done|]. by apply (quiet_alive (procs s !!! x)).
  - intros i j Hlt Hj Hne E. destruct (B i) as [(E1 & _) _ _ U _ _ _], (B j) as [(E2 & _) _ _ _ _ _ _].
    apply (Hu i j); [done|done|by rewrite <- U|congruence].
  - rewrite Ei. intros x Hx. destruct (Hi x Hx) as [? Ha]. split; [done|]. by apply (quiet_alive (procs s !!! x)).
Qed.

Lemma quiet_mem s s' : procs s' = procs s -> nextpid s' = nextpid s -> initproc s' = initproc s -> c_proc s' = c_proc s -> quiet_step s s'.
Proof. intros E1 E2 E3 E4. split; [|done..]. intros j. rewrite E1. apply quiet_refl. Qed.

Lemma quiet_slot s j p : quiet (procs s !!! j) p -> quiet_step s (put_procs (<[j := p]> (procs s)) s).
Proof.
  intros Hq. split; [|done..]. intros x. cbn. destruct (decide (x = j)) as [->|].
  - by rewrite lookup_total_insert_eq. - rewrite lookup_total_insert_ne by done. apply quiet_refl.
Qed.

Section Keeps.
(** The process that runs. *)
Context (i : nat).

Definition cur (s : ptab) : Prop := c_proc s = Some i /\ (i < nproc)%nat /\ p_state (procs s !!! i) = RUNNING.

Definition pkeeps {A} (m : M ptab A) : Prop := forall c s a c' s', cur s -> m c s = Ok a c' s' -> cur s' /\ quiet_step s s'.

Lemma pk_bind {A B} (m : M ptab A) (f : A -> M ptab B) : pkeeps m -> (forall a, pkeeps (f a)) -> pkeeps (bindM m f).
Proof.
  intros Hm Hf c s b c' s' Hc H. mbind H a c1 s1 H1. destruct (Hm _ _ _ _ _ Hc H1) as [Hc1 Q1]. destruct (Hf a _ _ _ _ _ Hc1 H) as [Hc2 Q2].
  split; [done|]. by apply (quiet_step_trans _ s1).
Qed.

Definition pure_state {S A} (m : M S A) : Prop := forall c s a c' s', m c s = Ok a c' s' -> s' = s.
Lemma pk_pure {A} (m : M ptab A) : pure_state m -> pkeeps m.
Proof. intros Hm c s a c' s' Hc H. rewrite (Hm _ _ _ _ _ H). split; [done|]. apply quiet_step_refl. Qed.

Lemma pk_onmem {A} (m : M pmem A) : pkeeps (onmem m).
Proof.
  intros c s a c' s' (H1 & H2 & H3) H. apply onmem_inv in H as (E1 & E2 & E3 & E4). split; [|by apply quiet_mem].
  unfold cur. by rewrite E1, E4.
Qed.

(** A field of the running process. *)
Lemma pk_modp f : (forall p, p_state p = RUNNING -> quiet p (f p) /\ p_state (f p) = RUNNING) -> pkeeps (modp i f).
Proof.
  intros Hf c s a c' s' (H1 & H2 & H3) H. apply modify_inv in H as (-> & ->). destruct (Hf _ H3) as [Hq Hr]. split; [|by apply quiet_slot].
  split; [done|]. split; [done|]. cbn. by rewrite lookup_total_insert_eq.
Qed.

Lemma pk_myproc {A} (f : nat -> M ptab A) : pkeeps (f i) -> pkeeps (bindM myproc f).
Proof.
  intros Hf c s a c' s' Hc H. mbind H x c1 s1 H1. apply myproc_inv in H1 as (E & -> & ->).
  pose proof (proj1 Hc) as Hc'. rewrite Hc' in E. injection E as <-. by apply (Hf c s a c' s').
Qed.

Lemma pure_ret {S A} (a : A) : pure_state (S := S) (retM a).
Proof. intros c s b c' s' [= _ _ <-]. done. Qed.
Lemma pure_panic {S A} msg : pure_state (S := S) (A := A) (panic msg).
Proof. intros c s b c' s' H. done. Qed.
Lemma pure_gets {S A} (f : S -> A) : pure_state (getsM f).
Proof. intros c s b c' s' [= _ _ <-]. done. Qed.
Lemma pure_acquire {S} lk : pure_state (S := S) (acquire lk).
Proof. intros c s b c' s' H. by apply acquire_inv in H as (-> & _). Qed.
Lemma pure_release {S} lk : pure_state (S := S) (release lk).
Proof. intros c s b c' s' H. by apply release_inv in H as (-> & _). Qed.
Lemma pure_emit {S} e : pure_state (S := S) (emit e).
Proof. intros c s b c' s' [= _ _ <-]. done. Qed.
Lemma pure_bind {S A B} (m : M S A) (f : A -> M S B) : pure_state m -> (forall a, pure_state (f a)) -> pure_state (bindM m f).
Proof. intros Hm Hf c s b c' s' H. mbind H a c1 s1 H1. apply Hm in H1 as ->. by apply Hf in H. Qed.

Ltac pure := repeat first [apply pure_bind; [|intros] | apply pure_ret | apply pure_panic | apply pure_gets | apply pure_acquire
  | apply pure_release | apply pure_emit | case_match].

Lemma pure_consputc {S} x : pure_state (S := S) (consputc x).
Proof. unfold consputc, uartputc_sync. pure. Qed.
Lemma pure_consputs {S} l : pure_state (S := S) (consputs l).
Proof. induction l as [|x l IH]; cbn [consputs]; [pure|]. apply pure_bind; [apply pure_consputc|by intros]. Qed.
Lemma pure_printint {S} xx base sign : pure_state (S := S) (printint xx base sign).
Proof. unfold printint, undefined. case_match; [apply pure_consputs|pure]. Qed.
Lemma pure_printptr_loop {S} k : forall x, pure_state (S := S) (printptr_loop k x).
Proof. induction k as [|k IH]; intros x; cbn [printptr_loop]; [pure|]. apply pure_bind; [apply pure_consputc|by intros]. Qed.
Lemma pure_printptr {S} x : pure_state (S := S) (printptr x).
Proof. unfold printptr. apply pure_bind; [apply pure_consputc|intros]. apply pure_bind; [apply pure_consputc|intros]. apply pure_printptr_loop. Qed.
Lemma pure_convert {S} c0 c1 c2 ap : pure_state (S := S) (convert c0 c1 c2 ap).
Proof.
  unfold convert, va_int, va_uint64, va_str, undefined.
  repeat first [apply pure_printint | apply pure_consputs | apply pure_consputc | apply pure_printptr | apply pure_ret | apply pure_panic
    | apply pure_bind; [|intros] | case_match].
Qed.
Lemma pure_printf_loop {S} fuel : forall fmt n ap, pure_state (S := S) (printf_loop fuel fmt n ap).
Proof.
  induction fuel as [|fuel IH]; intros fmt n ap; cbn [printf_loop]; case_match; try (apply pure_ret || apply pure_panic).
  { intros c s a c' s' Hd. done. }
  case_match; apply pure_bind; [apply pure_consputc|by intros|apply pure_convert|]. intros r. case_match; [apply IH|pure].
Qed.
Lemma pure_printf {S} fmt ap : pure_state (S := S) (printf fmt ap).
Proof. unfold printf. repeat first [apply pure_printf_loop | progress pure]. Qed.

(** *** The routines of proc.c *)

Lemma pk_getp {A} j (f : proc -> M ptab A) : (forall p, pkeeps (f p)) -> pkeeps (bindM (getp j) f).
Proof. intros Hf. apply pk_bind; [apply pk_pure, pure_gets|done]. Qed.

(** A slot that the routine looked at. *)
Lemma pk_look {A} j (f : proc -> M ptab A) :
  (forall c s a c' s', cur s -> f (procs s !!! j) c s = Ok a c' s' -> cur s' /\ quiet_step s s') -> pkeeps (bindM (getp j) f).
Proof. intros Hf c s a c' s' Hc H. rewrite bind_getp in H. by apply (Hf _ _ _ _ _ Hc H). Qed.

Lemma quiet_runnable p : p_state p = SLEEPING -> quiet p (set_state RUNNABLE p).
Proof. intros E. split; cbn; rewrite ?E; done. Qed.

(** Making a sleeper runnable. *)
Lemma cur_slot s j p : cur s -> quiet (procs s !!! j) p -> (j = i -> p_state p = RUNNING) ->
  cur (put_procs (<[j := p]> (procs s)) s) /\ quiet_step s (put_procs (<[j := p]> (procs s)) s).
Proof.
  intros (H1 & H2 & H3) Hq Hr. split; [|by apply quiet_slot]. split; [done|]. split; [done|]. cbn.
  destruct (decide (j = i)) as [->|]; [rewrite lookup_total_insert_eq; by apply Hr|by rewrite lookup_total_insert_ne].
Qed.

Lemma pk_wakeup_loop k : forall j ch, pkeeps (wakeup_loop k j ch).
Proof.
  induction k as [|k IH]; intros j ch; cbn [wakeup_loop]; [apply pk_pure, pure_ret|].
  intros c s a c' s' Hc H. rewrite bind_get in H. mbind H x c1 s1 H1.
  assert (cur s1 /\ quiet_step s s1) as [Hc1 Q1].
  { destruct (decide (c_proc s = Some j)) as [Ej|Ej]; [by apply (pk_pure (retM tt) (pure_ret tt) _ _ _ _ _ Hc H1)|].
    mbind H1 y c2 s2 H2. apply acquire_inv in H2 as (-> & _). rewrite bind_getp in H1. mbind H1 z c3 s3 H3. apply release_inv in H1 as (-> & _).
    destruct (decide (p_state (procs s !!! j) = SLEEPING /\ _)) as [[Es _]|]; [|by apply (pk_pure (retM tt) (pure_ret tt) _ _ _ _ _ Hc H3)].
    apply modify_inv in H3 as (_ & ->). apply cur_slot; [done|by apply quiet_runnable|]. intros ->. by destruct Hc as (Hc & _). }
  destruct (IH (S j) ch _ _ _ _ _ Hc1 H) as [Hc2 Q2]. split; [done|]. by apply (quiet_step_trans _ s1).
Qed.

Lemma pk_kill_loop k : forall j pid, pkeeps (kill_loop k j pid).
Proof.
  induction k as [|k IH]; intros j pid; cbn [kill_loop]; [apply pk_pure, pure_ret|].
  intros c s a c' s' Hc H. mbind H x c1 s1 H1. apply acquire_inv in H1 as (-> & _). rewrite bind_getp in H. destruct (p_pid (procs s !!! j) =? pid).
  - rewrite bind_modp in H. destruct (cur_slot s j (set_pkilled 1 (procs s !!! j)) Hc) as [Hc1 Q1].
    { split; cbn; done. } { intros ->. apply Hc. }
    mbind H y c2 s2 H2. mbind H z c3 s3 H3. apply release_inv in H3 as (-> & _). injection H as _ _ <-.
    destruct (decide (p_state (procs s !!! j) = SLEEPING)) as [Es|]; [|injection H2 as _ _ <-; by split].
    apply modify_inv in H2 as (_ & ->). cbn [put_procs procs] in *. rewrite lookup_total_insert_eq.
    destruct (cur_slot _ j (set_state RUNNABLE (set_pkilled 1 (procs s !!! j))) Hc1) as [Hc2 Q2].
    + cbn [put_procs procs]. rewrite lookup_total_insert_eq. by apply quiet_runnable.
    + intros ->. destruct Hc as (_ & _ & Hr). congruence.
    + split; [done|]. by eapply quiet_step_trans.
  - mbind H y c2 s2 H2. apply release_inv in H2 as (-> & _). by apply (IH _ _ _ _ _ _ _ Hc H).
Qed.

Lemma pk_killed j : pkeeps (killed j).
Proof. apply pk_pure. unfold killed. pure. Qed.
Lemma pk_kcollect_nproc : pkeeps kcollect_nproc.
Proof. apply pk_pure, pure_gets. Qed.
Lemma pk_kcollect_load : pkeeps kcollect_load.
Proof. apply pk_pure, pure_gets. Qed.

(** *** The kernel state *)

Section Kernel.
Context {K : Type} `{BC : BlockCache K} `{KI : KernelImage}.

(** Neither the reference count nor the type of an open file changed. *)
Definition same_file (x y : file) : Prop := f_ref y = f_ref x /\ f_type y = f_type x.

Record keeps_step (k k' : kst K) : Prop := {
  ks_cur : cur (k_pt k');
  ks_pt : quiet_step (k_pt k) (k_pt k');
  ks_ftab : forall f, same_file (k_ftab k !!! f) (k_ftab k' !!! f);
}.

Definition keeps {A} (m : M (kst K) A) : Prop := forall c k a c' k', cur (k_pt k) -> m c k = Ok a c' k' -> keeps_step k k'.

Lemma keeps_step_refl k : cur (k_pt k) -> keeps_step k k.
Proof. intros Hc. split; [done|apply quiet_step_refl|done]. Qed.
Lemma keeps_step_trans k k1 k2 : keeps_step k k1 -> keeps_step k1 k2 -> keeps_step k k2.
Proof. intros [A B C] [A' B' C']. split; [done|by apply (quiet_step_trans _ (k_pt k1))|]. intros f. destruct (C f), (C' f). split; congruence. Qed.

Lemma k_bind {A B} (m : M (kst K) A) (f : A -> M (kst K) B) : keeps m -> (forall a, keeps (f a)) -> keeps (bindM m f).
Proof.
  intros Hm Hf c k b c' k' Hc H. mbind H a c1 k1 H1. pose proof (Hm _ _ _ _ _ Hc H1) as S1.
  apply (keeps_step_trans _ k1); [done|]. apply (Hf a _ _ _ _ _ (ks_cur _ _ S1) H).
Qed.
Lemma k_pure {A} (m : M (kst K) A) : pure_state m -> keeps m.
Proof. intros Hm c k a c' k' Hc H. rewrite (Hm _ _ _ _ _ H). by apply keeps_step_refl. Qed.
Lemma k_onpt {A} (m : M ptab A) : pkeeps m -> keeps (onpt m).
Proof.
  intros Hm c k a c' k' Hc H. unfold onpt, zoom in H. destruct (m c (lget pt_lens k)) as [a1 c1 t| | |] eqn:E; try done.
  injection H as <- <- <-. destruct (Hm _ _ _ _ _ Hc E) as [Hc' Q]. by split.
Qed.
Lemma k_onkmem {A} (m : M pmem A) : keeps (onkmem m).
Proof.
  intros c k a c' k' Hc H. unfold onkmem, zoom in H. destruct (m c (lget kmem_lens k)) as [a1 c1 t| | |] eqn:E; try done.
  injection H as <- <- <-. split; [apply Hc|by apply quiet_mem|done].
Qed.
Lemma k_myproc {A} (f : nat -> M (kst K) A) : keeps (f i) -> keeps (bindM (onpt myproc) f).
Proof.
  intros Hf c k a c' k' Hc H. mbind H x c1 k1 H1. unfold onpt, zoom in H1. destruct (myproc c (lget pt_lens k)) as [a1 c2 t| | |] eqn:E; try done.
  injection H1 as <- <- <-. apply myproc_inv in E as (E & -> & ->). cbn in E. pose proof (proj1 Hc) as Hc'. rewrite Hc' in E. injection E as <-.
  destruct k. by apply (Hf c _ a c' k').
Qed.
Lemma pk_deliver l : pkeeps (deliver l).
Proof.
  induction l as [|e l IH]; cbn [deliver]; [apply pk_pure, pure_ret|]. destruct e; [|done]. apply pk_bind; [apply pk_wakeup_loop|done].
Qed.
Lemma k_waking {A} (m : M (kst K) A) : keeps m -> keeps (waking m).
Proof.
  intros Hm c k a c' k' Hc H. unfold waking in H. destruct (m (Ctx (held c) []) k) as [a1 c1 k1| |ch c1 k1|] eqn:E; try done.
  - pose proof (Hm _ _ _ _ _ Hc E) as S1. apply (keeps_step_trans _ k1); [done|].
    apply (k_bind (onpt (deliver (rev (out c1)))) (fun _ => retM a1)
      (k_onpt _ (pk_deliver _)) (fun _ => k_pure _ (pure_ret a1)) _ _ _ _ _ (ks_cur _ _ S1) H).
  - mbind H x c2 k2 H2. done.
Qed.
Lemma k_onfs {A} (m : M (fs K) A) : keeps (onfs m).
Proof.
  apply k_waking. intros c k a c' k' Hc H. unfold zoom in H. destruct (m c (lget fs_lens k)) as [a1 c1 t| | |] eqn:E; try done.
  injection H as <- <- <-. split; [apply Hc|by apply quiet_mem|done].
Qed.
Lemma k_onpipe {A} pa (m : M pst A) : keeps (onpipe pa m).
Proof.
  apply k_waking. intros c k a c' k' Hc H. unfold zoom in H. destruct (m c (lget (pipe_lens pa) k)) as [a1 c1 t| | |] eqn:E; try done.
  injection H as <- <- <-. split; [apply Hc|by apply quiet_mem|done].
Qed.
Lemma k_ontty {A} (m : M tty A) : keeps (ontty m).
Proof.
  apply k_waking. intros c k a c' k' Hc H. unfold zoom in H. destruct (m c (lget tty_lens k)) as [a1 c1 t| | |] eqn:E; try done.
  injection H as <- <- <-. split; [apply Hc|by apply quiet_mem|done].
Qed.
Lemma k_asleep {A} ch : keeps (A := A) (fall_asleep ch).
Proof. intros c k a c' k' Hc H. done. Qed.
Lemma k_sleeps {A} ch : keeps (A := A) (fun c s => Asleep ch c s).
Proof. intros c k a c' k' Hc H. done. Qed.

Lemma k_diverge {A} : keeps (diverge (A := A)).
Proof. intros c k a c' k' Hc H. done. Qed.
Lemma k_modf f g : (forall x, same_file x (g x)) -> keeps (modf f g).
Proof.
  intros Hg c k a c' k' Hc H. apply modify_inv in H as (-> & ->). split; [apply Hc|apply quiet_step_refl|]. intros f'. cbn.
  destruct (decide (f' = f)) as [->|]; [rewrite lookup_total_insert_eq; apply Hg|by rewrite lookup_total_insert_ne].
Qed.
Lemma k_setpipe pa p : keeps (modifyM (fun k => set_pipe pa (p k) k)).
Proof. intros c k a c' k' Hc H. apply modify_inv in H as (-> & ->). split; [apply Hc|apply quiet_step_refl|done]. Qed.

Lemma k_kbegin_op : keeps kbegin_op.
Proof. apply k_onfs. Qed.
Lemma k_kend_op : keeps kend_op.
Proof. apply k_onfs. Qed.
End Kernel.
End Keeps.

(** ** Calls that leave processes and descriptors alone *)

Ltac pure_prim := match goal with
  | |- pure_state (retM _) => apply pure_ret
  | |- pure_state (panic _) => apply pure_panic
  | |- pure_state undefined => apply pure_panic
  | |- pure_state (getsM _) => apply pure_gets
  | |- pure_state (getp _) => apply pure_gets
  | |- pure_state (getf _) => apply pure_gets
  | |- pure_state proc_root => apply pure_gets
  | |- pure_state kcollect_nproc => apply pure_gets
  | |- pure_state kcollect_load => apply pure_gets
  | |- pure_state (acquire _) => apply pure_acquire
  | |- pure_state (release _) => apply pure_release
  | |- pure_state (emit _) => apply pure_emit
  | |- pure_state (printf _ _) => apply pure_printf
  end.

(** One construct of a routine that keeps the process table. *)
Ltac pkeep1 := match goal with
  | |- pkeeps _ (bindM myproc _) => apply pk_myproc
  | |- pkeeps _ (bindM _ _) => apply pk_bind; [|intros]
  | |- pkeeps _ (onmem _) => apply pk_onmem
  | |- pkeeps _ (killed _) => apply pk_killed
  | |- pkeeps _ (wakeup _) => apply pk_wakeup_loop
  | |- pkeeps _ (kill _) => apply pk_kill_loop
  | |- pkeeps _ (get_tf _ _) => unfold get_tf
  | |- pkeeps _ (set_tf _ _ _) => unfold set_tf
  | |- pkeeps _ (modp _ _) => apply pk_modp; intros; split; [split; cbn|]; done
  | |- pkeeps _ (match ?x with _ => _ end) => destruct x eqn:?
  | |- pkeeps _ _ => apply pk_pure; pure_prim
  end.

(** One construct of a routine that keeps both tables. *)
Ltac keep1 := match goal with
  | |- keeps _ (bindM (onpt myproc) _) => apply k_myproc
  | |- keeps _ (bindM _ _) => apply k_bind; [|intros]
  | |- keeps _ (match ?x with _ => _ end) => destruct x eqn:?
  | |- keeps _ kbegin_op => apply k_kbegin_op
  | |- keeps _ kend_op => apply k_kend_op
  | |- keeps _ (onfs _) => apply k_onfs
  | |- keeps _ (onpipe _ _) => apply k_onpipe
  | |- keeps _ (ontty _) => apply k_ontty
  | |- keeps _ (onkmem _) => apply k_onkmem
  | |- keeps _ (fall_asleep _) => apply k_asleep
  | |- keeps _ (modf _ _) => apply k_modf; intros; split; reflexivity
  | |- keeps _ (onpt _) => apply k_onpt; solve [repeat pkeep1]
  | |- keeps _ diverge => apply k_diverge
  | |- keeps _ _ => apply k_pure; pure_prim
  end.
Ltac keep := repeat keep1.

Section Calls.
Context (i : nat) {K : Type} `{BC : BlockCache K} `{KI : KernelImage}.
Abbreviation keeps := (keeps i (K := K)).

Lemma k_fileread f a n : keeps (fileread f a n).
Proof. unfold fileread. keep. Qed.
Lemma k_filewrite_loop fuel : forall f a n j, keeps (filewrite_loop fuel f a n j).
Proof. induction fuel as [|fuel IH]; intros f a n j; cbn [filewrite_loop]; keep; apply IH. Qed.
Lemma k_filewrite tx f a n : keeps (filewrite tx f a n).
Proof. unfold filewrite. keep. apply k_filewrite_loop. Qed.
Lemma k_filestat pad f a : keeps (filestat pad f a).
Proof. unfold filestat. keep. Qed.
Lemma k_argraw n : keeps (argraw n).
Proof. unfold argraw. keep. Qed.
Lemma k_argint n : keeps (argint n).
Proof. unfold argint. apply k_bind; [apply k_argraw|]. intros; keep. Qed.
Lemma k_fetchaddr a : keeps (fetchaddr a).
Proof. unfold fetchaddr. keep. Qed.
Lemma k_fetchstr a n : keeps (fetchstr a n).
Proof. unfold fetchstr. keep. Qed.
Lemma k_argstr n m : keeps (argstr n m).
Proof. unfold argstr. apply k_bind; [apply k_argraw|intros]. apply k_bind; [apply k_fetchstr|intros]. keep. Qed.
Lemma k_argfd n : keeps (argfd n).
Proof. unfold argfd. apply k_bind; [apply k_argint|intros]. keep. Qed.
End Calls.

(** The same with the helpers of the system calls. *)
Ltac keep_call1 := match goal with
  | |- keeps _ (argint _) => apply k_argint
  | |- keeps _ (argaddr _) => apply k_argraw
  | |- keeps _ (fetchaddr _) => apply k_fetchaddr
  | |- keeps _ (fetchstr _ _) => apply k_fetchstr
  | |- keeps _ (argstr _ _) => apply k_argstr
  | |- keeps _ (argfd _) => apply k_argfd
  | |- keeps _ (fileread _ _ _) => apply k_fileread
  | |- keeps _ (filewrite _ _ _ _) => apply k_filewrite
  | |- keeps _ (filestat _ _ _) => apply k_filestat
  | _ => keep1
  end.
Ltac keep_call := repeat keep_call1.

Section Syscalls.
Context (i : nat) {K : Type} `{BC : BlockCache K} `{KI : KernelImage}.
Abbreviation keeps := (keeps i (K := K)).

Lemma k_sys_read : keeps sys_read.
Proof. unfold sys_read. keep_call. Qed.
Lemma k_sys_write tx : keeps (sys_write tx).
Proof. unfold sys_write. keep_call. Qed.
Lemma k_sys_fstat pad : keeps (sys_fstat pad).
Proof. unfold sys_fstat. keep_call. Qed.
Lemma k_sys_link : keeps sys_link.
Proof. unfold sys_link, link_bad. keep_call. Qed.
Lemma k_sys_unlink : keeps sys_unlink.
Proof. unfold sys_unlink, unlink_bad. keep_call. Qed.
Lemma k_sys_mkdir : keeps sys_mkdir.
Proof. unfold sys_mkdir. keep_call. Qed.
Lemma k_sys_mknod : keeps sys_mknod.
Proof. unfold sys_mknod. keep_call. Qed.
Lemma k_sys_chdir : keeps sys_chdir.
Proof. unfold sys_chdir. keep_call. Qed.
Lemma k_sys_getpid : keeps sys_getpid.
Proof. unfold sys_getpid. keep_call. Qed.
Lemma k_sys_sbrk : keeps sys_sbrk.
Proof. unfold sys_sbrk, growproc. keep_call. Qed.
Lemma k_sys_kill : keeps sys_kill.
Proof. unfold sys_kill. keep_call. Qed.
Lemma k_sys_uptime : keeps sys_uptime.
Proof. unfold sys_uptime. keep_call. Qed.
Lemma k_sys_trace : keeps sys_trace.
Proof. unfold sys_trace. keep_call. Qed.
Lemma k_sys_sysinfo : keeps sys_sysinfo.
Proof. unfold sys_sysinfo. keep_call. Qed.

(** *** Calls that may sleep

    A routine that ends with [None] has put the process to sleep; only what happens otherwise is claimed. *)
Definition keeps_some {A} (m : M (kst K) (option A)) : Prop :=
  forall c k a c' k', cur i (k_pt k) -> m c k = Ok (Some a) c' k' -> keeps_step i k k'.

Lemma ks_bind {A B} (m : M (kst K) A) (f : A -> M (kst K) (option B)) : keeps m -> (forall a, keeps_some (f a)) -> keeps_some (bindM m f).
Proof.
  intros Hm Hf c k b c' k' Hc H. mbind H a c1 k1 H1. pose proof (Hm _ _ _ _ _ Hc H1) as S1.
  apply (keeps_step_trans i _ k1); [done|]. apply (Hf a _ _ _ _ _ (ks_cur _ _ _ S1) H).
Qed.
Lemma ks_keeps {A} (m : M (kst K) (option A)) : keeps m -> keeps_some m.
Proof. intros Hm c k a c' k' Hc H. by apply (Hm c k (Some a) c' k'). Qed.
Lemma ks_none {A B} (m : M (kst K) A) : keeps_some (m ;;! retM (None (A := B))).
Proof. intros c k a c' k' Hc H. mbind H x c1 k1 H1. done. Qed.
Lemma ks_myproc {A} (f : nat -> M (kst K) (option A)) : keeps_some (f i) -> keeps_some (bindM (onpt myproc) f).
Proof.
  intros Hf c k a c' k' Hc H. mbind H x c1 k1 H1. unfold onpt, zoom in H1. destruct (myproc c (lget pt_lens k)) as [a1 c2 t| | |] eqn:E; try done.
  injection H1 as <- <- <-. apply myproc_inv in E as (E & -> & ->). cbn in E. pose proof (proj1 Hc) as Hc'. rewrite Hc' in E. injection E as <-.
  destruct k. by apply (Hf c _ a c' k').
Qed.

Lemma ks_sleep_loop t0 n : keeps_some (sys_sleep_loop t0 n).
Proof.
  unfold sys_sleep_loop. apply ks_bind; [keep|intros t]. case_match; [|apply ks_keeps; keep]. apply ks_myproc. apply ks_bind; [keep|intros d].
  case_match; [apply ks_keeps; keep|apply ks_none].
Qed.

Lemma k_sys_sleep : keeps sys_sleep.
Proof.
  intros c k a c' k' Hc H. unfold sys_sleep, sys_sleep_start in H. mbind H r c1 k1 H1.
  mbind H1 n c2 k2 H2. pose proof (k_argint i 0 _ _ _ _ _ Hc H2) as S2. mbind H1 x c3 k3 H3. apply acquire_inv in H3 as (-> & -> & _).
  mbind H1 t0 c4 k4 H4. injection H4 as <- <- <-. mbind H1 r' c5 k5 H5. injection H1 as <- <- <-. cbn [snd] in H.
  destruct r' as [v|]; [|done]. injection H as <- <- <-. apply (keeps_step_trans i _ k2); [done|].
  by apply (ks_sleep_loop _ _ _ _ _ _ _ (ks_cur _ _ _ S2) H5).
Qed.

(** *** exec *)

Lemma k_loadseg_loop fuel : forall pt va ip off sz j, keeps (loadseg_loop fuel pt va ip off sz j).
Proof. induction fuel as [|fuel IH]; intros pt va ip off sz j; cbn [loadseg_loop]; keep; apply IH. Qed.
Lemma k_load_loop n : forall pt ip off sz, keeps (load_loop n pt ip off sz).
Proof. induction n as [|n IH]; intros pt ip off sz; cbn [load_loop]; keep; apply IH || apply k_loadseg_loop. Qed.
Lemma k_exec_bad pt sz ip : keeps (exec_bad pt sz ip).
Proof. unfold exec_bad. keep. Qed.
Lemma pk_set_pagetable x : x <> 0 -> pkeeps i (modp i (set_pagetable x)).
Proof. intros Hx. apply pk_modp. intros p Hp. split; [|done]. split; cbn; try done. congruence. Qed.
Lemma k_exec_stack path argv pt sz entry : pt <> 0 -> keeps (exec_stack i path argv pt sz entry).
Proof. intros Hpt. unfold exec_stack. keep; first [apply k_exec_bad | apply k_onpt, pk_set_pagetable, Hpt]. Qed.
Lemma k_exec path argv : keeps (exec path argv).
Proof. unfold exec. keep; first [apply k_exec_bad | apply k_load_loop | apply k_exec_stack; lia]. Qed.
Lemma k_free_args l : keeps (free_args l).
Proof. induction l as [|x l IH]; cbn [free_args]; keep. apply IH. Qed.
Lemma k_exec_args n : forall ua j ps av, keeps (exec_args n ua j ps av).
Proof. induction n as [|n IH]; intros ua j ps av; cbn [exec_args]; keep_call. apply IH. Qed.
Lemma k_sys_exec : keeps sys_exec.
Proof. unfold sys_exec. keep_call; first [apply k_exec | apply k_free_args | apply k_exec_args]. Qed.
End Syscalls.
