(* ===== verification/FileInv.v ===== *)
(** The open files across system calls: the reference counts of kernel/file.c and the process table.

    [sys_ok] is the invariant of the two tables: the process table is well formed ([table_ok]), and the
    reference count of every file is the number of descriptors that hold it.  Between the two halves of a call
    the count is off by the references in flight, which [d] counts.  Every system call that runs to its end keeps the
    invariant, with whatever references other processes have in flight. *)
From stdpp Require Import functions.
From S2P Require Import Prelude Machine CString Kalloc Vm Sleeplock BlockCache Log Pipe Printf Uart Console.
From S2P Require Import Proc ProcInv Fs Kernel File Fork Exec Args Sysproc Sysfile Syscall SysInv.
Local Open Scope Z_scope.

(** ** Counting references *)

Fixpoint zsum (g : nat -> Z) (n : nat) : Z :=
  match n with
  | O => 0
  | S n' => zsum g n' + g n'
  end.

Lemma zsum_ext g g' n : (forall x, (x < n)%nat -> g' x = g x) -> zsum g' n = zsum g n.
Proof. induction n as [|n IH]; intros H; cbn; [done|]. rewrite IH, H by auto with lia. done. Qed.

Lemma zsum_upd g g' n j : (j < n)%nat -> (forall x, x <> j -> g' x = g x) -> zsum g' n = zsum g n - g j + g' j.
Proof.
  intros Hj Hg. induction n as [|n IH]; [lia|]. cbn. destruct (decide (j = n)) as [->|].
  - rewrite (zsum_ext g g'); [lia|]. intros x Hx. apply Hg. lia.
  - rewrite IH, (Hg n) by lia. lia.
Qed.

Lemma zsum_nonneg g n : (forall x, 0 <= g x) -> 0 <= zsum g n.
Proof. intros H. induction n as [|n IH]; cbn; [lia|]. specialize (H n). lia. Qed.
Lemma zsum_ge g n j : (forall x, 0 <= g x) -> (j < n)%nat -> g j <= zsum g n.
Proof.
  intros H Hj. induction n as [|n IH]; [lia|]. cbn. pose proof (zsum_nonneg g n H). destruct (decide (j = n)) as [->|]; [lia|].
  specialize (H n). specialize (IH ltac:(lia)). lia.
Qed.

(** One reference to [g], seen at [f]. *)
Definition one (g f : nat) : Z := if decide (g = f) then 1 else 0.

(** The descriptors of a process that hold file [f]. *)
Definition fds (f : nat) (m : gmap Z nat) : Z := Z.of_nat (size (filter (fun x => snd x = f) m)).

Lemma fds_insert f m fd g : m !! fd = None -> fds f (<[fd := g]> m) = fds f m + one g f.
Proof.
  intros Hn. unfold fds, one. destruct (decide (g = f)) as [E|E].
  - rewrite map_filter_insert_True by done. rewrite map_size_insert_None; [lia|]. by rewrite map_lookup_filter_None; left.
  - rewrite map_filter_insert_not' by (done || by intros y Hy; rewrite Hn in Hy). lia.
Qed.

Lemma fds_delete f m fd g : m !! fd = Some g -> fds f (delete fd m) = fds f m - one g f.
Proof.
  intros Hs. rewrite <- (insert_delete_id m fd g Hs) at 2. rewrite fds_insert by apply lookup_delete_eq. lia.
Qed.

Lemma fds_nonneg f m : 0 <= fds f m.
Proof. unfold fds. lia. Qed.
Lemma fds_pos f m fd : m !! fd = Some f -> 1 <= fds f m.
Proof. intros H. pose proof (fds_delete f m fd f H). pose proof (fds_nonneg f (delete fd m)). unfold one in *. rewrite decide_True in * by done. lia. Qed.
Lemma fds_empty f : fds f ∅ = 0.
Proof. unfold fds. by rewrite map_filter_empty, map_size_empty. Qed.

Definition refs (t : gmap nat proc) (f : nat) : Z := zsum (fun j => fds f (p_ofile (t !!! j))) nproc.

Lemma refs_nonneg t f : 0 <= refs t f.
Proof. apply zsum_nonneg. intros. apply fds_nonneg. Qed.
Lemma refs_pos t f j fd : (j < nproc)%nat -> p_ofile (t !!! j) !! fd = Some f -> 1 <= refs t f.
Proof. intros Hj H. etrans; [apply (fds_pos f (p_ofile (t !!! j)) fd H)|]. apply (zsum_ge (fun j => fds f (p_ofile (t !!! j)))); [|done]. intros. apply fds_nonneg. Qed.
Lemma refs_same t t' f : (forall j, p_ofile (t' !!! j) = p_ofile (t !!! j)) -> refs t' f = refs t f.
Proof. intros H. apply zsum_ext. intros x _. by rewrite H. Qed.
Lemma refs_slot t t' f j : (j < nproc)%nat -> (forall x, x <> j -> p_ofile (t' !!! x) = p_ofile (t !!! x)) ->
  refs t' f = refs t f - fds f (p_ofile (t !!! j)) + fds f (p_ofile (t' !!! j)).
Proof.
  intros Hj H. apply (zsum_upd (fun j => fds f (p_ofile (t !!! j))) (fun j => fds f (p_ofile (t' !!! j)))); [done|]. intros x Hx. by rewrite H.
Qed.

(** The descriptors are no part of the invariant of the table. *)
Lemma table_ok_ofile s j m : table_ok s -> table_ok (put_procs (<[j := set_ofile m (procs s !!! j)]> (procs s)) s).
Proof.
  intros [Hs Hu Hi Hn]. set (t := <[_ := _]> _).
  assert (forall x, exists q, procs s !!! x = q /\ (t !!! x = q \/ t !!! x = set_ofile m q)) as Ht.
  { intros x. eexists. split; [done|]. unfold t. destruct (decide (x = j)) as [->|]; [right; by rewrite lookup_total_insert_eq|left; by rewrite lookup_total_insert_ne]. }
  assert (forall x, alive (procs s !!! x) -> alive (t !!! x)) as Ha by (intros x; by destruct (Ht x) as (q & -> & [-> | ->])).
  split; cbn [put_procs procs initproc nextpid]; [| | |done].
  - intros x Hx. specialize (Hs x Hx). destruct (Ht x) as (q & E & Eq). rewrite E in Hs. destruct Hs as [S1 S2 S3 S4].
    assert (forall y, p_parent q = Some y -> (y < nproc)%nat /\ alive (t !!! y)) as S5 by (intros y [? ?]%S4; split; [done|by apply Ha]).
    by destruct Eq as [-> | ->]; split.
  - intros x y Hx Hy. specialize (Hu x y Hx Hy). destruct (Ht x) as (q & E & Eq), (Ht y) as (q' & E' & Eq'). rewrite E, E' in Hu.
    by destruct Eq as [-> | ->], Eq' as [-> | ->].
  - intros x Hx. destruct (Hi x Hx). split; [done|by apply Ha].
Qed.

(** The end of fork() changes the slot of the child. *)
Lemma fork_publish_shape np i c s c' s' : fork_publish np i c s = Ok tt c' s' ->
  exists q, slot_set np q s s' /\ p_state q = RUNNABLE /\ p_ofile q = p_ofile (procs s !!! np).
Proof.
  intros H. unfold fork_publish in H. mbind H x1 c1 s1 H1. apply acquire_inv in H1 as (-> & -> & _). rewrite bind_modp, bind_release in H.
  mbind H x2 c1 s1 H1. apply acquire_inv in H1 as (-> & -> & _). rewrite bind_modp in H. apply release_inv in H as (-> & _). cbn [put_procs procs].
  rewrite lookup_total_insert_eq. eexists. split; [split; cbn; [apply lookup_total_insert_eq| |done|done]|done].
  intros j Hj. by rewrite !lookup_total_insert_ne.
Qed.

Section FileInv.
Context {K : Type} `{BC : BlockCache K} `{KI : KernelImage}.

Record files_ok (d : nat -> Z) (k : kst K) : Prop := {
  fo_ref : forall f, (f < nfile)%nat -> f_ref (k_ftab k !!! f) = refs (procs (k_pt k)) f + d f;
  fo_type : forall f, (f < nfile)%nat -> f_ref (k_ftab k !!! f) = 0 -> f_type (k_ftab k !!! f) = FD_NONE;
  fo_range : forall j fd f, (j < nproc)%nat -> p_ofile (procs (k_pt k) !!! j) !! fd = Some f -> (f < nfile)%nat /\ 0 <= fd < NOFILE;
  fo_dead : forall j, (j < nproc)%nat -> p_state (procs (k_pt k) !!! j) = UNUSED \/ p_state (procs (k_pt k) !!! j) = ZOMBIE ->
    p_ofile (procs (k_pt k) !!! j) = ∅;
}.

Definition no_flight : nat -> Z := fun _ => 0.

Lemma files_ok_ext d d' k : (forall f, d' f = d f) -> files_ok d k -> files_ok d' k.
Proof. intros E [A B C D]. split; try done. intros f Hf. rewrite A, E by done. done. Qed.

Lemma files_ok_quiet d k k' : (forall f, same_file (k_ftab k !!! f) (k_ftab k' !!! f)) ->
  (forall j, quiet (procs (k_pt k) !!! j) (procs (k_pt k') !!! j)) -> files_ok d k -> files_ok d k'.
Proof.
  intros Hf Hq [A B C D].
  assert (forall j, p_ofile (procs (k_pt k') !!! j) = p_ofile (procs (k_pt k) !!! j)) as Ho by (intros j; apply (Hq j)).
  split.
  - intros f Hl. destruct (Hf f) as [-> _]. rewrite A by done. by rewrite (refs_same (procs (k_pt k)) (procs (k_pt k'))).
  - intros f Hl. destruct (Hf f) as [-> ->]. by apply B.
  - intros j fd f Hj. rewrite Ho. by apply C.
  - intros j Hj Hs. rewrite Ho. apply D; [done|]. destruct (Hq j) as [_ _ _ U Z _ _]. naive_solver.
Qed.

Section Steps.
Context (i : nat).

Record sys_ok (d : nat -> Z) (k : kst K) : Prop := {
  sy_cur : cur i (k_pt k);
  sy_table : table_ok (k_pt k);
  sy_files : files_ok d k;
}.

Lemma sys_keeps {A} d (m : M (kst K) A) c k a c' k' : keeps i m -> sys_ok d k -> m c k = Ok a c' k' -> sys_ok d k'.
Proof.
  intros Hm [Hc Ht Hf] H. destruct (Hm _ _ _ _ _ Hc H) as [Hc' Q F]. split; [done|by apply (table_ok_quiet (k_pt k))|].
  apply (files_ok_quiet d k); [done|apply Q|done].
Qed.

Lemma sys_ext d d' k : (forall f, d' f = d f) -> sys_ok d k -> sys_ok d' k.
Proof. intros E [A B C]. split; try done. by apply (files_ok_ext d). Qed.

(** *** The file table *)

Lemma getf_inv f c (k : kst K) x c' k' : getf f c k = Ok x c' k' -> x = k_ftab k !!! f /\ c' = c /\ k' = k.
Proof. intros [= <- <- <-]. done. Qed.

(** The reference count of one file changes by [n]. *)
Lemma sys_ref d k f x n : sys_ok d k -> (f < nfile)%nat -> f_ref x = f_ref (k_ftab k !!! f) + n -> (f_ref x = 0 -> f_type x = FD_NONE) ->
  sys_ok (fun g => d g + n * one f g) (set_ftab (<[f := x]> (k_ftab k)) k).
Proof.
  intros [Hc Ht [A B C D]] Hf Hx Hty. split; [done|done|]. split; try done; cbn; intros g Hg; destruct (decide (g = f)) as [->|Hne].
  - rewrite lookup_total_insert_eq, Hx, A by done. unfold one. rewrite decide_True by done. lia.
  - rewrite lookup_total_insert_ne, A by done. unfold one. rewrite decide_False by done. lia.
  - by rewrite lookup_total_insert_eq.
  - rewrite lookup_total_insert_ne by done. by apply B.
Qed.

Lemma filealloc_scan_spec n : forall x t f, filealloc_scan n x t = Some f -> (x <= f < x + n)%nat /\ f_ref (t !!! f) = 0.
Proof.
  induction n as [|n IH]; intros x t f H; cbn [filealloc_scan] in H; [done|]. destruct (Z.eqb_spec (f_ref (t !!! x)) 0) as [E|E].
  - injection H as <-. split; [lia|done]. - destruct (IH _ _ _ H). split; [lia|done].
Qed.

Lemma filealloc_sys d c k r c' k' : sys_ok d k -> filealloc c k = Ok r c' k' ->
  match r with
  | Some f => (f < nfile)%nat /\ (f_ref (k_ftab k !!! f) = 0 /\ f_ref (k_ftab k' !!! f) = 1 /\ forall g, g <> f -> k_ftab k' !!! g = k_ftab k !!! g) /\
      f_type (k_ftab k' !!! f) = FD_NONE /\ sys_ok (fun g => d g + one f g) k'
  | None => k' = k
  end.
Proof.
  intros S H. unfold filealloc in H. mbind H x c1 k1 H1. apply acquire_inv in H1 as (-> & -> & _). rewrite bind_gets in H.
  destruct (filealloc_scan nfile 0 (k_ftab k)) as [f|] eqn:E.
  - mbind H y c2 k2 H2. apply modify_inv in H2 as (_ & ->). mbind H z c3 k3 H3. apply release_inv in H3 as (-> & _). injection H as <- _ <-.
    apply filealloc_scan_spec in E as [Hf E]. split; [lia|].
    split; [split; [done|]; split; [cbn; by rewrite lookup_total_insert_eq|]; intros g Hg; cbn; by rewrite lookup_total_insert_ne|].
    pose proof (fo_type _ _ (sy_files _ _ S) f ltac:(lia) E) as Hty.
    split; [cbn; by rewrite lookup_total_insert_eq|].
    apply (sys_ext (fun g => d g + 1 * one f g)); [intros; lia|]. apply sys_ref; [done|lia|cbn; lia|done].
  - mbind H z c3 k3 H3. apply release_inv in H3 as (-> & _). by injection H as <- _ <-.
Qed.

Lemma filedup_sys d f c k r c' k' : sys_ok d k -> (f < nfile)%nat -> filedup f c k = Ok r c' k' ->
  r = f /\ k_pt k' = k_pt k /\ sys_ok (fun g => d g + one f g) k'.
Proof.
  intros S Hf H. unfold filedup in H. mbind H x c1 k1 H1. apply acquire_inv in H1 as (-> & -> & _). mbind H y c2 k2 H2. apply getf_inv in H2 as (-> & -> & ->).
  destruct (Z.ltb_spec (f_ref (k_ftab k !!! f)) 1); [done|]. mbind H z c3 k3 H3. apply modify_inv in H3 as (_ & ->).
  mbind H w c4 k4 H4. apply release_inv in H4 as (-> & _). injection H as <- _ <-. split; [done|]. split; [done|].
  apply (sys_ext (fun g => d g + 1 * one f g)); [intros; lia|]. apply sys_ref; [done|done|cbn; lia|cbn; lia].
Qed.

Lemma fileclose_full d f c k r c' k' : sys_ok d k -> (f < nfile)%nat -> fileclose f c k = Ok r c' k' ->
  sys_ok (fun g => d g - one f g) k' /\ quiet_step (k_pt k) (k_pt k').
Proof.
  intros S Hf H. unfold fileclose in H. mbind H x c1 k1 H1. apply acquire_inv in H1 as (-> & -> & _). mbind H y c2 k2 H2. apply getf_inv in H2 as (-> & -> & ->).
  destruct (Z.ltb_spec (f_ref (k_ftab k !!! f)) 1); [done|]. mbind H z c3 k3 H3. apply modify_inv in H3 as (_ & ->).
  destruct (Z.ltb_spec 0 (f_ref (k_ftab k !!! f) - 1)).
  - apply release_inv in H as (-> & _). split; [|apply quiet_step_refl]. apply (sys_ext (fun g => d g + (-1) * one f g)); [intros; lia|]. apply sys_ref; [done|done|cbn; lia|cbn; lia].
  - mbind H w c4 k4 H4. apply getf_inv in H4 as (-> & -> & ->). mbind H u c5 k5 H5. apply modify_inv in H5 as (_ & ->).
    mbind H v c6 k6 H6. apply modify_inv in H6 as (_ & ->). mbind H t c7 k7 H7. apply release_inv in H7 as (-> & _).
    cbn [set_ftab k_ftab] in H. rewrite !lookup_total_insert_eq in H. cbn [set_fref set_ftype f_type f_writable f_pipe f_ip] in H.
    match type of H with _ _ ?k1 = _ => assert (sys_ok (fun g => d g - one f g) k1) as S1 end.
    { pose proof (sys_ref d k f (set_ftype FD_NONE (set_fref 0 (k_ftab k !!! f))) (-1) S Hf ltac:(cbn; lia) ltac:(done)) as S1.
      apply (sys_ext _ (fun g => d g - one f g)) in S1; [|intros; lia]. destruct S1 as [Sc St [A B C D]]. split; [done|done|].
      split; [| |done|done]; cbn [k_ftab set_ftab k_pt] in *; intros g Hg; [rewrite <- A by done|specialize (B g Hg); revert B];
        (destruct (decide (g = f)) as [->|]; [rewrite !lookup_total_insert_eq|rewrite !lookup_total_insert_ne by done]; done). }
    match type of H with ?m _ ?k1 = _ => assert (keeps i m) as Hm by keep; split; [exact (sys_keeps _ _ _ _ _ _ _ Hm S1 H)|] end.
    exact (ks_pt _ _ _ (Hm _ _ _ _ _ (sy_cur _ _ S1) H)).
Qed.

Lemma fileclose_sys d f c k r c' k' : sys_ok d k -> (f < nfile)%nat -> fileclose f c k = Ok r c' k' -> sys_ok (fun g => d g - one f g) k'.
Proof. intros S Hf H. by apply (fileclose_full d f c k r c' k'). Qed.

(** *** Descriptors *)

Lemma onpt_inv {A} (m : M ptab A) c (k : kst K) a c' k' : onpt m c k = Ok a c' k' -> exists t, m c (k_pt k) = Ok a c' t /\ k' = lput pt_lens t k.
Proof. unfold onpt, zoom. cbn. destruct (m c (k_pt k)) as [a1 c1 t| | |]; try done. intros [= <- <- <-]. by exists t. Qed.
Lemma kmyproc_inv c (k : kst K) j c' k' : onpt myproc c k = Ok j c' k' -> c_proc (k_pt k) = Some j /\ c' = c /\ k' = k.
Proof. intros (t & H & ->)%onpt_inv. apply myproc_inv in H as (? & -> & ->). split; [done|]. split; [done|]. by destruct k. Qed.
Lemma kgetp_inv j c (k : kst K) p c' k' : onpt (getp j) c k = Ok p c' k' -> p = procs (k_pt k) !!! j /\ c' = c /\ k' = k.
Proof. intros (t & H & ->)%onpt_inv. injection H as <- <- <-. split; [done|]. split; [done|]. by destruct k. Qed.
Lemma kmodp_inv j f c (k : kst K) a c' k' : onpt (modp j f) c k = Ok a c' k' ->
  c' = c /\ k' = lput pt_lens (put_procs (<[j := f (procs (k_pt k) !!! j)]> (procs (k_pt k))) (k_pt k)) k.
Proof. intros (t & H & ->)%onpt_inv. apply modify_inv in H as (-> & ->). done. Qed.

(** The descriptors of one live process change. *)
Lemma sys_ofile d k j m : sys_ok d k -> (j < nproc)%nat -> p_state (procs (k_pt k) !!! j) <> UNUSED -> p_state (procs (k_pt k) !!! j) <> ZOMBIE ->
  (forall fd f, m !! fd = Some f -> (f < nfile)%nat /\ 0 <= fd < NOFILE) ->
  sys_ok (fun g => d g + fds g (p_ofile (procs (k_pt k) !!! j)) - fds g m)
    (lput pt_lens (put_procs (<[j := set_ofile m (procs (k_pt k) !!! j)]> (procs (k_pt k))) (k_pt k)) k).
Proof.
  intros [(Hc1 & Hc2 & Hc3) Ht [A B C D]] Hj Hu Hz Hm. cbn [lput pt_lens].
  assert (forall x, x <> j -> <[j := set_ofile m (procs (k_pt k) !!! j)]> (procs (k_pt k)) !!! x = procs (k_pt k) !!! x) as Ho
    by (intros x Hx; by apply lookup_total_insert_ne).
  split; cbn [k_pt].
  - split; [done|]. split; [done|]. cbn. destruct (decide (i = j)) as [->|]; [by rewrite lookup_total_insert_eq|by rewrite Ho].
  - by apply table_ok_ofile.
  - split; cbn [k_pt k_ftab put_procs procs].
    + intros f Hf. rewrite A by done. rewrite (refs_slot (procs (k_pt k)) (<[j := set_ofile m (procs (k_pt k) !!! j)]> (procs (k_pt k))) f j) by (done || intros x Hx; by rewrite Ho).
      rewrite lookup_total_insert_eq. cbn. lia.
    + done.
    + intros x fd f Hx. destruct (decide (x = j)) as [->|]; [rewrite lookup_total_insert_eq; apply Hm|rewrite Ho by done; by apply C].
    + intros x Hx. destruct (decide (x = j)) as [->|]; [rewrite lookup_total_insert_eq; cbn; naive_solver|rewrite Ho by done; by apply D].
Qed.

Lemma cur_live d k : sys_ok d k -> (i < nproc)%nat /\ p_state (procs (k_pt k) !!! i) <> UNUSED /\ p_state (procs (k_pt k) !!! i) <> ZOMBIE.
Proof. intros [(_ & ? & E) _ _]. rewrite E. done. Qed.

Lemma fdalloc_scan_spec n : forall x t fd, fdalloc_scan n x t = Some fd -> x <= fd < x + Z.of_nat n /\ t !! fd = None.
Proof.
  induction n as [|n IH]; intros x t fd H; cbn [fdalloc_scan] in H; [done|]. destruct (t !! x) eqn:E.
  - destruct (IH _ _ _ H). split; [lia|done]. - injection H as <-. split; [lia|done].
Qed.

Lemma fdalloc_sys d f c k r c' k' : sys_ok d k -> (f < nfile)%nat -> fdalloc f c k = Ok r c' k' ->
  (r = -1 /\ k' = k) \/
  (0 <= r < NOFILE /\ k_ftab k' = k_ftab k /\ p_ofile (procs (k_pt k) !!! i) !! r = None /\
   p_ofile (procs (k_pt k') !!! i) = <[r := f]> (p_ofile (procs (k_pt k) !!! i)) /\ sys_ok (fun g => d g - one f g) k').
Proof.
  intros S Hf H. unfold fdalloc in H. mbind H j c1 k1 H1. apply kmyproc_inv in H1 as (Ej & -> & ->). rewrite (proj1 (sy_cur _ _ S)) in Ej. injection Ej as <-.
  mbind H p c2 k2 H2. apply kgetp_inv in H2 as (-> & -> & ->). destruct (fdalloc_scan _ 0 _) as [fd|] eqn:E.
  - apply fdalloc_scan_spec in E as [Hr Hn]. mbind H u c3 k3 H3. apply kmodp_inv in H3 as (_ & ->). injection H as <- _ <-. right.
    split; [vm_compute (Z.of_nat _) in Hr; unfold NOFILE; lia|]. split; [done|].
    split; [done|]. split; [cbn; by rewrite lookup_total_insert_eq|].
    destruct (cur_live d k S) as (L1 & L2 & L3).
    apply (sys_ext (fun g => d g + fds g (p_ofile (procs (k_pt k) !!! i)) - fds g (<[fd := f]> (p_ofile (procs (k_pt k) !!! i))))).
    { intros g. rewrite fds_insert by done. lia. }
    apply sys_ofile; try done. intros fd' f' [[<- <-]|[_ H']]%lookup_insert_Some; [split; [done|vm_compute (Z.of_nat _) in Hr; unfold NOFILE; lia]|].
    by apply (fo_range _ _ (sy_files _ _ S) i).
  - injection H as <- _ <-. by left.
Qed.

Lemma fdclear_sys d fd f c k r c' k' : sys_ok d k -> p_ofile (procs (k_pt k) !!! i) !! fd = Some f -> fdclear fd c k = Ok r c' k' ->
  k_ftab k' = k_ftab k /\ p_ofile (procs (k_pt k') !!! i) = delete fd (p_ofile (procs (k_pt k) !!! i)) /\ sys_ok (fun g => d g + one f g) k'.
Proof.
  intros S Hfd H. unfold fdclear in H. mbind H j c1 k1 H1. apply kmyproc_inv in H1 as (Ej & -> & ->). rewrite (proj1 (sy_cur _ _ S)) in Ej. injection Ej as <-.
  apply kmodp_inv in H as (_ & ->). split; [done|]. split; [cbn; by rewrite lookup_total_insert_eq|]. destruct (cur_live d k S) as (L1 & L2 & L3).
  apply (sys_ext (fun g => d g + fds g (p_ofile (procs (k_pt k) !!! i)) - fds g (delete fd (p_ofile (procs (k_pt k) !!! i))))).
  { intros g. rewrite (fds_delete g _ fd f) by done. lia. }
  apply sys_ofile; try done. intros fd' f' [_ H']%lookup_delete_Some. by apply (fo_range _ _ (sy_files _ _ S) i).
Qed.

Lemma argfd_inv d n c k r c' k' : sys_ok d k -> argfd n c k = Ok r c' k' -> sys_ok d k' /\
  match r with
  | Some (fd, f) => p_ofile (procs (k_pt k') !!! i) !! fd = Some f /\ (f < nfile)%nat
  | None => True
  end.
Proof.
  intros S H. unfold argfd in H. mbind H fd c1 k1 H1. pose proof (sys_keeps d _ _ _ _ _ _ (k_argint i n) S H1) as S1.
  mbind H j c2 k2 H2. apply kmyproc_inv in H2 as (Ej & -> & ->). rewrite (proj1 (sy_cur _ _ S1)) in Ej. injection Ej as <-.
  mbind H p c3 k3 H3. apply kgetp_inv in H3 as (-> & -> & ->). destruct (_ || _); injection H as <- _ <-; [done|].
  split; [done|]. destruct (p_ofile _ !! fd) as [f|] eqn:E; [|done]. split; [done|]. by apply (fo_range _ _ (sy_files _ _ S1) i fd f); [apply S1|].
Qed.

(** *** Calls on descriptors *)

(** The references in flight when the call starts: those of calls of other processes that are asleep. *)
Section Calls.
Context (fl0 : nat -> Z).

Lemma sys_dup_sys c k r c' k' : sys_ok fl0 k -> sys_dup c k = Ok r c' k' -> sys_ok fl0 k'.
Proof.
  intros S H. unfold sys_dup in H. mbind H a c1 k1 H1. destruct (argfd_inv _ _ _ _ _ _ _ S H1) as [S1 Ha].
  destruct a as [[fd f]|]; [|by injection H as _ _ <-]. destruct Ha as [_ Hf]. mbind H x c2 k2 H2.
  destruct (fdalloc_sys _ _ _ _ _ _ _ S1 Hf H2) as [[-> ->]|(Hx & _ & _ & _ & S2)]; [by injection H as _ _ <-|].
  destruct (Z.ltb_spec x 0); [lia|]. mbind H y c3 k3 H3. injection H as _ _ <-. destruct (filedup_sys _ _ _ _ _ _ _ S2 Hf H3) as (_ & _ & S3).
  revert S3. apply sys_ext. intros g. lia.
Qed.

Lemma sys_close_sys c k r c' k' : sys_ok fl0 k -> sys_close c k = Ok r c' k' -> sys_ok fl0 k'.
Proof.
  intros S H. unfold sys_close in H. mbind H a c1 k1 H1. destruct (argfd_inv _ _ _ _ _ _ _ S H1) as [S1 Ha].
  destruct a as [[fd f]|]; [|by injection H as _ _ <-]. destruct Ha as [Hfd Hf]. mbind H x c2 k2 H2.
  destruct (fdclear_sys _ _ _ _ _ _ _ _ S1 Hfd H2) as (_ & _ & S2). mbind H y c3 k3 H3. injection H as _ _ <-.
  pose proof (fileclose_sys _ _ _ _ _ _ _ S2 Hf H3) as S3. revert S3. apply sys_ext. intros g. lia.
Qed.

(** A field of a file that is in use. *)
Lemma modf_sys d f g c k r c' k' : sys_ok d k -> (f < nfile)%nat -> f_ref (k_ftab k !!! f) <> 0 -> modf f g c k = Ok r c' k' ->
  (forall x, f_ref (g x) = f_ref x) -> sys_ok d k' /\ f_ref (k_ftab k' !!! f) <> 0 /\ k_pt k' = k_pt k /\ (forall f', f' <> f -> k_ftab k' !!! f' = k_ftab k !!! f').
Proof.
  intros S Hf Hr H Hg. apply modify_inv in H as (_ & ->). split; [|split; [|split; [done|]]].
  - apply (sys_ext (fun h => d h + 0 * one f h)); [intros; lia|]. apply sys_ref; [done|done|rewrite Hg; lia|by rewrite Hg].
  - cbn. by rewrite lookup_total_insert_eq, Hg.
  - intros f' Hne. cbn. by rewrite lookup_total_insert_ne.
Qed.

Lemma open_inode_sys ip omode c k r c' k' : sys_ok fl0 k -> open_inode ip omode c k = Ok r c' k' -> sys_ok fl0 k'.
Proof.
  intros S H. unfold open_inode in H. mbind H x c1 k1 H1. pose proof (sys_keeps _ _ _ _ _ _ _ (k_onfs i _) S H1) as S1. destruct (_ && _).
  { revert H. apply sys_keeps; [keep|done]. }
  mbind H o c2 k2 H2. pose proof (filealloc_sys _ _ _ _ _ _ S1 H2) as Ho. destruct o as [f|]; [|subst k2; revert H; apply sys_keeps; [keep|done]].
  destruct Ho as (Hf & (_ & Hr2 & _) & _ & S2). mbind H fd c3 k3 H3. destruct (fdalloc_sys _ _ _ _ _ _ _ S2 Hf H3) as [[-> ->]|(Hfd & Eft & _ & Hof & S3)].
  - cbn [Z.ltb Z.compare] in H. mbind H u c4 k4 H4. pose proof (fileclose_sys _ _ _ _ _ _ _ S2 Hf H4) as S4.
    apply (sys_ext _ fl0) in S4; [|intros g; lia]. revert H. apply sys_keeps; [keep|done].
  - destruct (Z.ltb_spec fd 0); [lia|]. apply (sys_ext _ fl0) in S3; [|intros g; lia].
    assert (f_ref (k_ftab k3 !!! f) <> 0) as Hr3 by (rewrite Eft; lia).
    mbind H u c4 k4 H4. assert (sys_ok fl0 k4 /\ f_ref (k_ftab k4 !!! f) <> 0) as [S4 Hr4].
    { destruct (i_type x =? T_DEVICE); destruct (modf_sys _ _ _ _ _ _ _ _ S3 Hf Hr3 H4 ltac:(intros; reflexivity)) as (? & ? & _); done. }
    mbind H v c5 k5 H5. destruct (modf_sys _ _ _ _ _ _ _ _ S4 Hf Hr4 H5 ltac:(intros; reflexivity)) as (S5 & Hr5 & _).
    mbind H w c6 k6 H6. destruct (modf_sys _ _ _ _ _ _ _ _ S5 Hf Hr5 H6 ltac:(intros; reflexivity)) as (S6 & Hr6 & _).
    revert H. apply sys_keeps; [keep|done].
Qed.

Lemma sys_open_sys c k r c' k' : sys_ok fl0 k -> sys_open c k = Ok r c' k' -> sys_ok fl0 k'.
Proof.
  intros S H. unfold sys_open in H. mbind H om c1 k1 H1. pose proof (sys_keeps _ _ _ _ _ _ _ (k_argint i 1) S H1) as S1.
  mbind H path c2 k2 H2. pose proof (sys_keeps _ _ _ _ _ _ _ (k_argstr i 0 MAXPATH) S1 H2) as S2.
  destruct (fst path <? 0); [by injection H as _ _ <-|]. mbind H u c3 k3 H3. pose proof (sys_keeps _ _ _ _ _ _ _ (k_kbegin_op i) S2 H3) as S3.
  destruct (flag om O_CREATE).
  - mbind H o c4 k4 H4. pose proof (sys_keeps _ _ _ _ _ _ _ (k_onfs i _) S3 H4) as S4.
    destruct o as [ip|]; [by apply open_inode_sys in H|]. revert H. apply sys_keeps; [keep|done].
  - mbind H o c4 k4 H4. pose proof (sys_keeps _ _ _ _ _ _ _ (k_onfs i _) S3 H4) as S4.
    destruct o as [ip|]; [|revert H; apply sys_keeps; [keep|done]].
    mbind H v c5 k5 H5. pose proof (sys_keeps _ _ _ _ _ _ _ (k_onfs i _) S4 H5) as S5.
    mbind H x c6 k6 H6. pose proof (sys_keeps _ _ _ _ _ _ _ (k_onfs i _) S5 H6) as S6.
    destruct (_ && _); [revert H; apply sys_keeps; [keep|done]|by apply open_inode_sys in H].
Qed.

Lemma keeps_ofile {A} d (m : M (kst K) A) c k a c' k' : keeps i m -> sys_ok d k -> m c k = Ok a c' k' ->
  sys_ok d k' /\ p_ofile (procs (k_pt k') !!! i) = p_ofile (procs (k_pt k) !!! i).
Proof.
  intros Hm S H. split; [by apply (sys_keeps d m c k a c' k')|]. destruct (Hm _ _ _ _ _ (sy_cur _ _ S) H) as [_ Q _]. apply (qs_slot _ _ Q i).
Qed.

Lemma fileclose2_sys d f0 f1 c k r c' k' : sys_ok (fun g => d g + one f0 g + one f1 g) k -> (f0 < nfile)%nat -> (f1 < nfile)%nat ->
  (fileclose f0 ;;! fileclose f1 ;;! retM (-1)) c k = Ok r c' k' -> sys_ok d k'.
Proof.
  intros S H0 H1 H. mbind H x c1 k1 Hx. pose proof (fileclose_sys _ _ _ _ _ _ _ S H0 Hx) as S1.
  mbind H y c2 k2 Hy. pose proof (fileclose_sys _ _ _ _ _ _ _ S1 H1 Hy) as S2. injection H as _ _ <-. revert S2. apply sys_ext. intros g. lia.
Qed.

Lemma pipealloc_sys c k r c' k' : sys_ok fl0 k -> pipealloc c k = Ok r c' k' ->
  match r with
  | Some (f0, f1) => (f0 < nfile)%nat /\ (f1 < nfile)%nat /\ sys_ok (fun g => fl0 g + one f0 g + one f1 g) k'
  | None => sys_ok fl0 k'
  end.
Proof.
  intros S H. unfold pipealloc in H. mbind H a c1 k1 H1. pose proof (filealloc_sys _ _ _ _ _ _ S H1) as Ha.
  destruct a as [f0|]; [|subst k1; injection H as <- _ <-; done]. destruct Ha as (Hf0 & (_ & R0 & _) & _ & S1).
  mbind H b c2 k2 H2. pose proof (filealloc_sys _ _ _ _ _ _ S1 H2) as Hb. destruct b as [f1|].
  2:{ subst k2. mbind H u c3 k3 H3. pose proof (fileclose_sys _ _ _ _ _ _ _ S1 Hf0 H3) as S3. injection H as <- _ <-. revert S3. apply sys_ext. intros g. lia. }
  destruct Hb as (Hf1 & (R1 & R1' & O1) & _ & S2). mbind H pi c3 k3 H3. pose proof (sys_keeps _ _ _ _ _ _ _ (k_onkmem i _) S2 H3) as S3. destruct (pi =? 0).
  { mbind H u c4 k4 H4. pose proof (fileclose_sys _ _ _ _ _ _ _ S3 Hf0 H4) as S4. mbind H v c5 k5 H5. pose proof (fileclose_sys _ _ _ _ _ _ _ S4 Hf1 H5) as S5.
    injection H as <- _ <-. revert S5. apply sys_ext. intros g. lia. }
  mbind H u c4 k4 H4. pose proof (sys_keeps _ _ _ _ _ _ _ (k_setpipe i pi _) S3 H4) as S4.
  assert (f_ref (k_ftab k4 !!! f0) <> 0 /\ f_ref (k_ftab k4 !!! f1) <> 0) as [Hr0 Hr1].
  { assert (forall f, f_ref (k_ftab k4 !!! f) = f_ref (k_ftab k2 !!! f)) as Hs.
    { intros f. destruct (ks_ftab _ _ _ (k_setpipe i pi _ _ _ _ _ _ (sy_cur _ _ S3) H4) f) as [-> _].
      by destruct (ks_ftab _ _ _ (k_onkmem i _ _ _ _ _ _ (sy_cur _ _ S2) H3) f) as [-> _]. }
    rewrite !Hs. destruct (decide (f0 = f1)) as [->|Hne]; [lia|]. rewrite O1 by done. lia. }
  mbind H v c5 k5 H5. destruct (modf_sys _ _ _ _ _ _ _ _ S4 Hf0 Hr0 H5 ltac:(intros; reflexivity)) as (S5 & R5 & _ & O5).
  mbind H w c6 k6 H6. assert (f_ref (k_ftab k5 !!! f1) <> 0) as Hr5 by (destruct (decide (f1 = f0)) as [->|Hne]; [done|by rewrite O5]).
  destruct (modf_sys _ _ _ _ _ _ _ _ S5 Hf1 Hr5 H6 ltac:(intros; reflexivity)) as (S6 & _).
  injection H as <- _ <-. split; [done|]. split; [done|]. revert S6. apply sys_ext. intros g. lia.
Qed.

Lemma sys_pipe_sys c k r c' k' : sys_ok fl0 k -> sys_pipe c k = Ok r c' k' -> sys_ok fl0 k'.
Proof.
  intros S H. unfold sys_pipe in H. mbind H ad c1 k1 H1. pose proof (sys_keeps _ _ _ _ _ _ _ (k_argraw i 0) S H1) as S1.
  mbind H pa c2 k2 H2. pose proof (pipealloc_sys _ _ _ _ _ S1 H2) as Hp. destruct pa as [[rf wf]|]; [|by injection H as _ _ <-].
  destruct Hp as (Hrf & Hwf & S2). mbind H fd0 c3 k3 H3. destruct (fdalloc_sys _ _ _ _ _ _ _ S2 Hrf H3) as [[-> ->]|(Hfd0 & _ & Hn0 & E0 & S3)].
  { cbn [Z.ltb Z.leb Z.compare] in H. rewrite !bind_ret in H. revert H. apply fileclose2_sys; [|done|done]. revert S2. apply sys_ext. intros g. lia. }
  destruct (Z.ltb_spec fd0 0) as [?|_]; [lia|]. mbind H fd1 c4 k4 H4. destruct (fdalloc_sys _ _ _ _ _ _ _ S3 Hwf H4) as [[-> ->]|(Hfd1 & _ & Hn1 & E1 & S4)].
  { cbn [Z.ltb Z.compare] in H. destruct (Z.leb_spec 0 fd0) as [_|?]; [|lia]. mbind H u c5 k5 H5.
    destruct (fdclear_sys _ fd0 rf _ _ _ _ _ S3 ltac:(by rewrite E0, lookup_insert_eq) H5) as (_ & _ & S5).
    revert H. apply fileclose2_sys; [|done|done]. revert S5. apply sys_ext. intros g. lia. }
  destruct (Z.ltb_spec fd1 0) as [?|_]; [lia|]. mbind H root c5 k5 H5. destruct (keeps_ofile _ _ _ _ _ _ _ (k_pure i _ (pure_gets _)) S4 H5) as [S5 E5].
  mbind H e0 c6 k6 H6. destruct (keeps_ofile _ _ _ _ _ _ _ (k_onkmem i _) S5 H6) as [S6 E6].
  mbind H e1 c7 k7 H7. assert (keeps i (K := K) (if e0 <? 0 then retM (-1) else onkmem (copyout root (u64 (ad + 4)) (int_bytes fd1)))) as Hk by keep.
  destruct (keeps_ofile _ _ _ _ _ _ _ Hk S6 H7) as [S7 E7]. rewrite E6, E5, E1, E0 in E7.
  assert (fd0 <> fd1) as Hne. { intros <-. rewrite E0, lookup_insert_eq in Hn1. done. }
  destruct (e1 <? 0).
  - mbind H u c8 k8 H8. destruct (fdclear_sys _ fd0 rf _ _ _ _ _ S7 ltac:(by rewrite E7, lookup_insert_ne, lookup_insert_eq by done) H8) as (_ & E8 & S8).
    mbind H v c9 k9 H9. destruct (fdclear_sys _ fd1 wf _ _ _ _ _ S8 ltac:(by rewrite E8, E7, lookup_delete_ne, lookup_insert_eq by done) H9) as (_ & _ & S9).
    revert H. apply fileclose2_sys; [|done|done]. revert S9. apply sys_ext. intros g. lia.
  - injection H as _ _ <-. revert S7. apply sys_ext. intros g. lia.
Qed.

(** *** fork *)

(** One slot other than the running process changes, with its descriptors. *)
Lemma sys_slot d k t j q : sys_ok d k -> (j < nproc)%nat -> j <> i -> slot_set j q (k_pt k) t -> table_ok t ->
  p_ofile q = p_ofile (procs (k_pt k) !!! j) -> (p_state q = UNUSED \/ p_state q = ZOMBIE -> p_ofile q = ∅) -> sys_ok d (lput pt_lens t k).
Proof.
  intros [(Hc1 & Hc2 & Hc3) Ht [A B C D]] Hj Hne [At Ot Ei Ec] Ht' Ho Hd.
  assert (forall x, p_ofile (procs t !!! x) = p_ofile (procs (k_pt k) !!! x)) as Hof.
  { intros x. destruct (decide (x = j)) as [->|]; [by rewrite At|by rewrite Ot]. }
  split; cbn [lput pt_lens k_pt]; [|done|].
  - split; [congruence|]. split; [done|]. rewrite Ot by done. done.
  - split; cbn [k_pt k_ftab].
    + intros f Hf. rewrite A by done. by rewrite (refs_same (procs (k_pt k)) (procs t)).
    + done.
    + intros x fd f Hx. rewrite Hof. by apply C.
    + intros x Hx Hs. destruct (decide (x = j)) as [->|]; [rewrite At in *; by apply Hd|]. rewrite Ot in * by done. by apply D.
Qed.

Lemma allocproc_sys fa d c k r c' k' : sys_ok d k -> nextpid (k_pt k) + 1 < 2 ^ 31 -> onpt (allocproc fa) c k = Ok r c' k' ->
  sys_ok d k' /\ match r with
                 | Some np => (np < nproc)%nat /\ np <> i /\ p_state (procs (k_pt k') !!! np) = USED /\ p_ofile (procs (k_pt k') !!! np) = ∅
                 | None => True
                 end.
Proof.
  intros S Hn (t & H & ->)%onpt_inv. pose proof (allocproc_table _ _ _ _ _ _ (sy_table _ _ S) Hn H) as Ht. apply allocproc_shape in H.
  pose proof (sy_cur _ _ S) as (_ & _ & Hrun). destruct r as [np|].
  - destruct H as (Hnp & [Hu _] & (q & Sq & Eq & _ & _ & _ & _ & _ & _ & Eo) & _). assert (np <> i) as Hne by (intros ->; congruence).
    assert (p_ofile (procs (k_pt k) !!! np) = ∅) as He by (apply (fo_dead _ _ (sy_files _ _ S)); auto).
    split; [|cbn; rewrite (ss_at _ _ _ _ Sq), Eo; done]. apply (sys_slot d k t np q); try done. rewrite Eq. by intros [?|?].
  - split; [|done]. destruct H as [[_ ->]|(j & Hj & Hu & Sq & _)]; [by destruct k|]. assert (j <> i) as Hne by (intros ->; congruence).
    apply (sys_slot d k t j (cleared (procs (k_pt k) !!! j))); try done. intros _. cbn. apply (fo_dead _ _ (sy_files _ _ S)); auto.
Qed.

(** A field of any slot that the invariant does not look at. *)
Lemma pk_field j f : (forall p, quiet p (f p) /\ p_state (f p) = p_state p) -> pkeeps i (modp j f).
Proof.
  intros Hf c s a c' s' Hc H. apply modify_inv in H as (_ & ->). apply cur_slot; [done|apply Hf|]. intros ->. destruct (Hf (procs s !!! i)) as [_ ->]. apply Hc.
Qed.

(** What the child must be while fork() fills it in. *)
Record child (np : nat) (fd : Z) (k : kst K) : Prop := {
  ch_lt : (np < nproc)%nat;
  ch_ne : np <> i;
  ch_used : p_state (procs (k_pt k) !!! np) = USED;
  ch_free : forall x, fd <= x -> p_ofile (procs (k_pt k) !!! np) !! x = None;
}.

Lemma child_keeps {A} np fd d (m : M (kst K) A) c k a c' k' : keeps i m -> sys_ok d k -> child np fd k -> m c k = Ok a c' k' ->
  sys_ok d k' /\ child np fd k'.
Proof.
  intros Hm S [C1 C2 C3 C4] H. split; [by apply (sys_keeps d m c k a c' k')|]. destruct (Hm _ _ _ _ _ (sy_cur _ _ S) H) as [_ Q _].
  destruct (qs_slot _ _ Q np) as [(_ & _ & _ & E) _ _ _ _ U _]. split; [done|done|by apply U|]. intros x Hx. rewrite E. by apply C4.
Qed.

Lemma child_field np fd d f c k a c' k' : sys_ok d k -> child np fd k -> onpt (modp np f) c k = Ok a c' k' ->
  (forall p, quiet p (f p) /\ p_state (f p) = p_state p) -> sys_ok d k' /\ child np fd k'.
Proof. intros S Ch H Hf. exact (child_keeps _ _ _ _ _ _ _ _ _ (k_onpt i _ (pk_field np f Hf)) S Ch H). Qed.

Lemma fork_files_sys n : forall np fd c k r c' k', sys_ok fl0 k -> child np fd k -> 0 <= fd -> fd + Z.of_nat n <= NOFILE ->
  fork_files n fd i np c k = Ok r c' k' -> sys_ok fl0 k' /\ child np (fd + Z.of_nat n) k'.
Proof.
  induction n as [|n IH]; intros np fd c k r c' k' S Ch H0 Hn H; cbn [fork_files] in H.
  { injection H as _ _ <-. by rewrite Z.add_0_r. }
  mbind H p c1 k1 H1. apply kgetp_inv in H1 as (-> & -> & ->). mbind H u c2 k2 H2.
  assert (sys_ok fl0 k2 /\ child np (fd + 1) k2) as [S2 Ch2].
  { destruct (p_ofile _ !! fd) as [f|] eqn:E.
    - destruct (fo_range _ _ (sy_files _ _ S) i fd f ltac:(apply S) E) as [Hf _]. mbind H2 f' c3 k3 H3.
      destruct (filedup_sys _ _ _ _ _ _ _ S Hf H3) as (-> & Ept & S3). apply kmodp_inv in H2 as (_ & ->). destruct Ch as [C1 C2 C3 C4].
      rewrite <- Ept in C3, C4. split.
      + apply (sys_ext (fun g => fl0 g + one f g + fds g (p_ofile (procs (k_pt k3) !!! np)) - fds g (<[fd := f]> (p_ofile (procs (k_pt k3) !!! np))))).
        { intros g. rewrite fds_insert by (apply C4; lia). lia. }
        apply sys_ofile; [done|done|by rewrite C3|by rewrite C3|]. intros x g [[<- <-]|[_ H']]%lookup_insert_Some; [split; [done|lia]|].
        by apply (fo_range _ _ (sy_files _ _ S3) np).
      + split; [done|done|cbn; by rewrite lookup_total_insert_eq|]. intros x Hx. cbn. rewrite lookup_total_insert_eq. cbn.
        rewrite lookup_insert_ne by lia. apply C4. lia.
    - injection H2 as _ _ <-. destruct Ch as [C1 C2 C3 C4]. split; [done|]. split; [done|done|done|]. intros x Hx. apply C4. lia. }
  destruct (IH np (fd + 1) _ _ _ _ _ S2 Ch2 ltac:(lia) ltac:(lia) H) as [S3 Ch3]. split; [done|]. by replace (fd + Z.of_nat (Datatypes.S n)) with (fd + 1 + Z.of_nat n) by lia.
Qed.

Lemma fork_sys fa c k r c' k' : sys_ok fl0 k -> nextpid (k_pt k) + 1 < 2 ^ 31 -> fork fa c k = Ok r c' k' -> sys_ok fl0 k'.
Proof.
  intros S Hn H. unfold fork in H. mbind H j c1 k1 H1. apply kmyproc_inv in H1 as (Ej & -> & ->). rewrite (proj1 (sy_cur _ _ S)) in Ej. injection Ej as <-.
  mbind H a c2 k2 H2. destruct (allocproc_sys _ _ _ _ _ _ _ S Hn H2) as [S2 Ha]. destruct a as [np|]; [|by injection H as _ _ <-].
  destruct Ha as (Hnp & Hne & Hu & He). assert (child np 0 k2) as Ch2 by (split; try done; intros x _; by rewrite He).
  mbind H p c3 k3 H3. apply kgetp_inv in H3 as (-> & -> & ->). mbind H q c4 k4 H4. apply kgetp_inv in H4 as (-> & -> & ->).
  mbind H e c5 k5 H5. destruct (child_keeps _ _ _ _ _ _ _ _ _ (k_onkmem i _) S2 Ch2 H5) as [S5 Ch5]. destruct (e <? 0).
  - mbind H u c6 k6 H6. apply onpt_inv in H6 as (t & H6 & ->). destruct u. destruct Ch5 as [C1 C2 C3 C4].
    assert (table_ok t) as Ht. { apply (freeproc_table np _ _ _ _ (sy_table _ _ S5)) in H6; [done|done|]. intros (_ & Hx & _). done. }
    apply freeproc_shape in H6 as [Sq _]. mbind H v c7 k7 H7. apply release_inv in H7 as (-> & _). injection H as _ _ <-.
    apply (sys_slot fl0 k5 t np (cleared (procs (k_pt k5) !!! np))); try done. intros _. cbn. apply map_eq. intros x. rewrite lookup_empty.
    destruct (p_ofile _ !! x) as [f|] eqn:E; [|done]. destruct (fo_range _ _ (sy_files _ _ S5) np x f Hnp E). rewrite C4 in E by lia. done.
  - mbind H u1 c6 k6 H6. destruct (child_field _ _ _ _ _ _ _ _ _ S5 Ch5 H6 ltac:(by split)) as [S6 Ch6].
    mbind H u2 c7 k7 H7. destruct (child_field _ _ _ _ _ _ _ _ _ S6 Ch6 H7 ltac:(by split)) as [S7 Ch7].
    mbind H u3 c8 k8 H8. destruct (child_keeps _ _ _ _ _ _ _ _ _ (k_onkmem i _) S7 Ch7 H8) as [S8 Ch8].
    mbind H u4 c9 k9 H9. assert (keeps i (K := K) (onpt (set_tf np TF_a0 0))) as Hk by keep.
    destruct (child_keeps _ _ _ _ _ _ _ _ _ Hk S8 Ch8 H9) as [S9 Ch9].
    mbind H u5 cA kA HA. destruct (fork_files_sys (Z.to_nat NOFILE) np 0 _ _ _ _ _ S9 Ch9 ltac:(lia) ltac:(unfold NOFILE; lia) HA) as [SA ChA].
    destruct (p_cwd _) as [dd|]; [|done]. mbind H d' cB kB HB. destruct (child_keeps _ _ _ _ _ _ _ _ _ (k_onfs i _) SA ChA HB) as [SB ChB].
    mbind H u6 cC kC HC. destruct (child_field _ _ _ _ _ _ _ _ _ SB ChB HC ltac:(by split)) as [SC ChC].
    mbind H u7 cD kD HD. destruct (child_field _ _ _ _ _ _ _ _ _ SC ChC HD ltac:(by split)) as [SD ChD].
    mbind H x8 cE kE HE. apply release_inv in HE as (-> & _). mbind H u9 cF kF HF. injection H as _ _ <-.
    apply onpt_inv in HF as (t & HF & ->). destruct u9. destruct ChD as [C1 C2 C3 C4]. destruct (cur_live _ _ SD) as (L1 & _).
    pose proof (fork_publish_table np i _ _ _ _ (sy_table _ _ SD) C1 C3 L1 (running_alive _ ltac:(apply SD)) HF) as Ht.
    destruct (fork_publish_shape _ _ _ _ _ _ HF) as (q & Sq & Eq & Eo).
    apply (sys_slot fl0 kD t np q); try done. rewrite Eq. by intros [?|?].
Qed.

(** *** wait *)

Lemma wait_sys addr d c k v c' k' : sys_ok d k -> onpt (wait addr) c k = Ok (Some v) c' k' -> sys_ok d k'.
Proof.
  intros S (t & H & ->)%onpt_inv. destruct (cur_live _ _ S) as (L1 & _). pose proof (sy_cur _ _ S) as (Hc & _ & Hr).
  unfold wait in H. mbind H x c1 s1 H1. apply acquire_inv in H1 as (-> & -> & _).
  pose proof (wait_round_table _ _ _ _ _ _ _ (sy_table _ _ S) Hc (running_alive _ Hr) H) as Ht.
  unfold wait_round in H. mbind H j c1 s1 H1. apply myproc_inv in H1 as (E & -> & ->). rewrite Hc in E. injection E as <-.
  mbind H q c1 s1 H1. apply wait_scan_shape in H1. destruct q as [w|b].
  - unfold retM in H. injection H as _ _ <-. destruct H1 as [(_ & E1 & E2 & E3 & E4)|(z & Hx & _ & Hz & _ & S1 & _)].
    + destruct S as [(Hc1 & Hc2 & Hc3) _ Hf]. split; cbn; [|done|].
      * split; [congruence|]. rewrite E1. done.
      * apply (files_ok_quiet d k); [done| |done]. intros j. cbn. rewrite E1. apply quiet_refl.
    + apply (sys_slot d k s1 z (cleared (procs (k_pt k) !!! z))); try done; [lia|congruence|].
      intros _. cbn. apply (fo_dead _ _ (sy_files _ _ S)); [lia|by right].
  - destruct H1 as (-> & -> & _). mbind H n c2 s2 H2.
    assert (s2 = k_pt k) as -> by (destruct b; [by apply killed_inv in H2 as (-> & _)|unfold retM in H2; by injection H2 as _ _ <-]).
    destruct (negb (n =? 0)); [|by mbind H y c3 s3 H3].
    mbind H y c3 s3 H3. apply release_inv in H3 as (-> & _). unfold retM in H. injection H as _ _ <-. by destruct k.
Qed.

Lemma sys_wait_sys c k r c' k' : sys_ok fl0 k -> sys_wait c k = Ok r c' k' -> sys_ok fl0 k'.
Proof.
  intros S H. unfold sys_wait in H. mbind H p c1 k1 H1. assert (keeps i (K := K) (argaddr 0)) as Hk by keep_call.
  pose proof (sys_keeps _ _ _ _ _ _ _ Hk S H1) as S1. mbind H j c2 k2 H2. apply kmyproc_inv in H2 as (_ & -> & ->).
  mbind H o c3 k3 H3. destruct o as [v|]; [|done]. unfold retM in H. injection H as _ _ <-. by eapply wait_sys.
Qed.

(** *** exit *)

Lemma exit_files_sys n : forall fd c k r c' k', sys_ok fl0 k -> 0 <= fd -> exit_files n fd i c k = Ok r c' k' ->
  (forall x, x < fd -> p_ofile (procs (k_pt k) !!! i) !! x = None) ->
  sys_ok fl0 k' /\ (forall x, x < fd + Z.of_nat n -> p_ofile (procs (k_pt k') !!! i) !! x = None) /\ initproc (k_pt k') = initproc (k_pt k).
Proof.
  induction n as [|n IH]; intros fd c k r c' k' S H0 H Hlow; cbn [exit_files] in H.
  { injection H as _ _ <-. rewrite Z.add_0_r. done. }
  mbind H p c1 k1 H1. apply kgetp_inv in H1 as (-> & -> & ->). mbind H u c2 k2 H2.
  assert (sys_ok fl0 k2 /\ (forall x, x < fd + 1 -> p_ofile (procs (k_pt k2) !!! i) !! x = None) /\ initproc (k_pt k2) = initproc (k_pt k)) as (S2 & L2 & I2).
  { destruct (p_ofile _ !! fd) as [f|] eqn:E.
    - destruct (fo_range _ _ (sy_files _ _ S) i fd f ltac:(apply S) E) as [Hf _]. mbind H2 v c3 k3 H3.
      destruct (fileclose_full _ _ _ _ _ _ _ S Hf H3) as [S3 Q3]. destruct (qs_slot _ _ Q3 i) as [(_ & _ & _ & Eo) _ _ _ _ _ _].
      apply kmodp_inv in H2 as (_ & ->). destruct (cur_live _ _ S3) as (L1 & L2 & L3). split; [|split].
      + apply (sys_ext (fun g => fl0 g - one f g + fds g (p_ofile (procs (k_pt k3) !!! i)) - fds g (delete fd (p_ofile (procs (k_pt k3) !!! i))))).
        { intros g. rewrite (fds_delete g _ fd f) by congruence. lia. }
        apply (sys_ofile (fun g => fl0 g - one f g)); try done. intros fd' f' [_ H']%lookup_delete_Some. by apply (fo_range _ _ (sy_files _ _ S3) i).
      + intros x Hx. cbn. rewrite lookup_total_insert_eq. cbn. apply lookup_delete_None. rewrite Eo.
        destruct (decide (x = fd)) as [->|]; [by left|right; apply Hlow; lia].
      + cbn. apply Q3.
    - injection H2 as _ _ <-. split; [done|]. split; [|done]. intros x Hx. destruct (decide (x = fd)) as [->|]; [done|apply Hlow; lia]. }
  destruct (IH (fd + 1) _ _ _ _ _ S2 ltac:(lia) H L2) as (S3 & L3 & I3). split; [done|]. split; [|congruence]. intros x Hx. apply L3. lia.
Qed.

Lemma exiting_keeps {A} (m : M (kst K) A) c k a c' k' : keeps i m -> sys_ok fl0 k -> p_ofile (procs (k_pt k) !!! i) = ∅ -> m c k = Ok a c' k' ->
  sys_ok fl0 k' /\ p_ofile (procs (k_pt k') !!! i) = ∅ /\ initproc (k_pt k') = initproc (k_pt k).
Proof.
  intros Hm S E H. destruct (keeps_ofile _ _ _ _ _ _ _ Hm S H) as [S' E']. split; [done|]. split; [congruence|].
  apply (qs_init _ _ (ks_pt _ _ _ (Hm _ _ _ _ _ (sy_cur _ _ S) H))).
Qed.

Lemma exit_last_sys st c k c' k' : sys_ok fl0 k -> is_Some (initproc (k_pt k)) -> initproc (k_pt k) <> Some i ->
  p_ofile (procs (k_pt k) !!! i) = ∅ -> onpt (exit_last i st) c k = Ok tt c' k' ->
  table_ok (k_pt k') /\ files_ok fl0 k' /\ p_state (procs (k_pt k') !!! i) = ZOMBIE.
Proof.
  intros S Hi Hni He (t & H & ->)%onpt_inv. apply exit_last_shape in H. destruct (cur_live _ _ S) as (L1 & _). pose proof (sy_cur _ _ S) as (_ & _ & Hr).
  cbn [lput pt_lens k_pt]. split; [by apply (exited_table i st (k_pt k)); [apply S|done|apply running_alive|..]|].
  assert (forall x, (x < nproc)%nat -> p_ofile (procs t !!! x) = p_ofile (procs (k_pt k) !!! x)) as Ho.
  { intros x Hx. destruct (ex_slot _ _ _ _ H x Hx) as (q & B & ->). pose proof (bn_ofile _ _ B) as E. unfold adopt in E. by destruct (decide (x = i)), (decide (p_parent _ = _)). }
  split.
  - destruct (sy_files _ _ S) as [A B C D]. split; cbn [k_ftab k_pt].
    + intros f Hf. rewrite A by done. f_equal. apply zsum_ext. intros x Hx. by rewrite Ho.
    + done.
    + intros j fd f Hj. rewrite Ho by done. by apply C.
    + intros j Hj Hs. rewrite Ho by done. destruct (decide (j = i)) as [->|Hne]; [done|]. apply D; [done|].
      destruct (ex_slot _ _ _ _ H j Hj) as (q & [_ U Z _ _ _] & Eq). rewrite decide_False in Eq by done. rewrite Eq in Hs.
      destruct (adopt_same i (initproc (k_pt k)) (procs (k_pt k) !!! j)) as (_ & A2 & _). rewrite A2 in U, Z. naive_solver.
  - destruct (ex_slot _ _ _ _ H i L1) as (q & _ & ->). by rewrite decide_True.
Qed.

Lemma exit_sys st c k r c' k' : sys_ok fl0 k -> is_Some (initproc (k_pt k)) -> exit st c k = Ok r c' k' ->
  table_ok (k_pt k') /\ files_ok fl0 k' /\ p_state (procs (k_pt k') !!! i) = ZOMBIE.
Proof.
  intros S Hi H. unfold exit in H. mbind H j c1 k1 H1. apply kmyproc_inv in H1 as (Ej & -> & ->). rewrite (proj1 (sy_cur _ _ S)) in Ej. injection Ej as <-.
  rewrite bind_gets in H. destruct (decide (initproc (k_pt k) = Some i)) as [|Hni]; [done|]. mbind H u c2 k2 H2.
  destruct (exit_files_sys (Z.to_nat NOFILE) 0 _ _ _ _ _ S ltac:(lia) H2) as (S2 & L2 & I2).
  { intros x Hx. destruct (p_ofile _ !! x) as [f|] eqn:E; [|done]. destruct (fo_range _ _ (sy_files _ _ S) i x f ltac:(apply S) E). lia. }
  assert (p_ofile (procs (k_pt k2) !!! i) = ∅) as E2.
  { apply map_eq. intros x. rewrite lookup_empty. destruct (p_ofile _ !! x) as [f|] eqn:E; [|done].
    destruct (fo_range _ _ (sy_files _ _ S2) i x f ltac:(apply S2) E). rewrite L2 in E by (unfold NOFILE in *; lia). done. }
  mbind H x c3 k3 H3. destruct (exiting_keeps _ _ _ _ _ _ (ltac:(keep) : keeps i kbegin_op) S2 E2 H3) as (S3 & E3 & I3).
  mbind H p c4 k4 H4. apply kgetp_inv in H4 as (-> & -> & ->). destruct (p_cwd _) as [dd|]; [|done].
  mbind H y c5 k5 H5. destruct (exiting_keeps _ _ _ _ _ _ (k_onfs i _) S3 E3 H5) as (S5 & E5 & I5).
  mbind H z c6 k6 H6. destruct (exiting_keeps _ _ _ _ _ _ (ltac:(keep) : keeps i kend_op) S5 E5 H6) as (S6 & E6 & I6).
  mbind H w c7 k7 H7. destruct (exiting_keeps _ _ _ _ _ _ (k_onpt i _ (pk_field i (set_cwd None) ltac:(by split))) S6 E6 H7) as (S7 & E7 & I7).
  apply (exit_last_sys st c7 k7 c' k'); [done|congruence|congruence|done|by destruct r].
Qed.

(** *** The dispatcher *)

Variable tx_idle : nat -> bool.
Variable stack_pad : list Z.
Variable forkret_addr : Z.

(** What an entry of syscalls[] does to the invariant. *)
Definition call_ok (m : M (kst K) (option Z)) : Prop := forall c k r c' k', sys_ok fl0 k -> nextpid (k_pt k) + 1 < 2 ^ 31 ->
  is_Some (initproc (k_pt k)) -> m c k = Ok r c' k' ->
  match r with
  | Some _ => sys_ok fl0 k'
  | None => table_ok (k_pt k') /\ files_ok fl0 k' /\ p_state (procs (k_pt k') !!! i) = ZOMBIE
  end.

Lemma call_returns (m : M (kst K) Z) :
  (forall c k r c' k', sys_ok fl0 k -> nextpid (k_pt k) + 1 < 2 ^ 31 -> m c k = Ok r c' k' -> sys_ok fl0 k') -> call_ok (returns m).
Proof. intros Hm c k r c' k' S Hn _ H. unfold returns in H. mbind H v c1 k1 H1. injection H as <- _ <-. by eapply Hm. Qed.

Lemma call_keeps (m : M (kst K) Z) : keeps i m -> call_ok (returns m).
Proof. intros Hm. apply call_returns. intros c k r c' k' S _ H. by eapply sys_keeps. Qed.

Lemma call_exit : call_ok (sys_exit ;;! retM None).
Proof.
  intros c k r c' k' S _ Hi H. mbind H v c1 k1 H1. injection H as <- _ <-. unfold sys_exit in H1. mbind H1 n c2 k2 H2.
  pose proof (k_argint i 0 _ _ _ _ _ (sy_cur _ _ S) H2) as Q. apply (exit_sys n c2 k2 v c1 k1); [|by rewrite (qs_init _ _ (ks_pt _ _ _ Q))|done].
  exact (sys_keeps _ _ _ _ _ _ _ (k_argint i 0) S H2).
Qed.

Lemma syscalls_ok : Forall (fun e => call_ok (snd e)) (syscalls tx_idle stack_pad forkret_addr).
Proof.
  unfold syscalls. repeat apply Forall_cons_2; cbn [snd]; try apply Forall_nil_2.
  - apply call_returns. intros c k r c' k' S Hn H. by eapply (fork_sys forkret_addr).
  - apply call_exit.
  - apply call_returns. intros c k r c' k' S _ H. by eapply sys_wait_sys.
  - apply call_returns. intros c k r c' k' S _ H. by eapply sys_pipe_sys.
  - apply call_keeps, k_sys_read.
  - apply call_keeps, k_sys_kill.
  - apply call_keeps, k_sys_exec.
  - apply call_keeps, k_sys_fstat.
  - apply call_keeps, k_sys_chdir.
  - apply call_returns. intros c k r c' k' S _ H. by eapply sys_dup_sys.
  - apply call_keeps, k_sys_getpid.
  - apply call_keeps, k_sys_sbrk.
  - apply call_keeps, k_sys_sleep.
  - apply call_keeps, k_sys_uptime.
  - apply call_returns. intros c k r c' k' S _ H. by eapply sys_open_sys.
  - apply call_keeps, k_sys_write.
  - apply call_keeps, k_sys_mknod.
  - apply call_keeps, k_sys_unlink.
  - apply call_keeps, k_sys_link.
  - apply call_keeps, k_sys_mkdir.
  - apply call_returns. intros c k r c' k' S _ H. by eapply sys_close_sys.
  - apply call_keeps, k_sys_trace.
  - apply call_keeps, k_sys_sysinfo.
Qed.

Lemma k_trace_args l : keeps i (K := K) (trace_args l).
Proof. induction l as [|x l IH]; cbn [trace_args]; keep. apply IH. Qed.
Lemma k_trace_line num args : keeps i (K := K) (trace_line i num args).
Proof. unfold trace_line. keep. apply k_trace_args. Qed.
Lemma k_saved_args : keeps i (K := K) (saved_args i).
Proof. unfold saved_args. keep. Qed.

(** C3: a system call that runs to its end without sleeping, whichever it is and whatever its arguments, leaves the two
    tables consistent: the process table is well formed, the caller is still the running process, unused
    files have type FD_NONE, dead processes have no descriptors, and the reference count of every file differs from the number of descriptors
    of all processes that hold it by what it did before the call - by 0 when no other process is asleep in a call, and otherwise by the references that
    those calls have in flight ([fl0]; -1 for a file that an exiting process is about to drop from its descriptors).  exit(), which does not return, leaves the
    caller a zombie and the rest of the invariant holds.  What a call does after it slept is not covered. *)
Theorem syscall_invariant c k b c' k' : sys_ok fl0 k -> nextpid (k_pt k) + 1 < 2 ^ 31 -> is_Some (initproc (k_pt k)) ->
  syscall tx_idle stack_pad forkret_addr c k = Ok b c' k' ->
  if b then sys_ok fl0 k'
  else table_ok (k_pt k') /\ files_ok fl0 k' /\ p_state (procs (k_pt k') !!! i) = ZOMBIE.
Proof.
  intros S Hn Hi H. unfold syscall in H. mbind H j c1 k1 H1. apply kmyproc_inv in H1 as (Ej & -> & ->).
  rewrite (proj1 (sy_cur _ _ S)) in Ej. injection Ej as <-. mbind H a7 c2 k2 H2.
  assert (keeps i (K := K) (onpt (get_tf i TF_a7))) as Hk by keep. pose proof (Hk _ _ _ _ _ (sy_cur _ _ S) H2) as Q.
  pose proof (sys_keeps _ _ _ _ _ _ _ Hk S H2) as S2. rewrite <- (qs_next _ _ (ks_pt _ _ _ Q)) in Hn. rewrite <- (qs_init _ _ (ks_pt _ _ _ Q)) in Hi.
  clear H2 Q S. cbv zeta in H. destruct (if 0 <? s32 a7 then _ else None) as [f|] eqn:E.
  - mbind H args c3 k3 H3. pose proof (k_saved_args _ _ _ _ _ (sy_cur _ _ S2) H3) as Q. pose proof (sys_keeps _ _ _ _ _ _ _ k_saved_args S2 H3) as S3.
    rewrite <- (qs_next _ _ (ks_pt _ _ _ Q)) in Hn. rewrite <- (qs_init _ _ (ks_pt _ _ _ Q)) in Hi. mbind H r c4 k4 H4.
    assert (call_ok f) as Hf.
    { destruct (0 <? s32 a7); [|done]. unfold table in E. destruct (list_find _ _) as [[n e]|] eqn:El; [|done]. injection E as <-.
      apply list_find_Some in El as (El & _). pose proof syscalls_ok as Hall. rewrite Forall_lookup in Hall. by apply (Hall n). }
    specialize (Hf _ _ _ _ _ S3 Hn Hi H4). destruct r as [v|]; [|by injection H as <- _ <-].
    mbind H x c5 k5 H5. assert (keeps i (K := K) (onpt (set_tf i TF_a0 (u64 v)))) as Hs by keep. pose proof (sys_keeps _ _ _ _ _ _ _ Hs Hf H5) as S5.
    mbind H y c6 k6 H6. injection H as <- _ <-. exact (sys_keeps _ _ _ _ _ _ _ (k_trace_line _ _) S5 H6).
  - assert (b = true) as ->. { repeat (let x := fresh in let y := fresh in let z := fresh in let w := fresh in mbind H x y z w). by injection H. }
    revert H. apply sys_keeps; [keep|done].
Qed.
End Calls.
End Steps.
End FileInv.
