(* ===== verification/ForkMem.v ===== *)
(** The memory that fork() gives to the child: the pages of the parent copied by uvmcopy() into the page table
    that allocproc() made, and the trapframe. *)
From S2P Require Import Prelude Machine CString Kalloc Vm PageTable UserMem UserFree UserFork Printf Proc ProcInv ProcMem.
Local Open Scope Z_scope.

Section ForkMem.
Context `{KI : KernelImage}.

(** ** Counting pages *)

Definition table_pages (T : gmap (list Z) Z) : list Z := (map_to_list T).*2.

Lemma elem_of_table_pages T x : x ∈ table_pages T <-> table_page T x.
Proof.
  unfold table_pages, table_page. rewrite list_elem_of_fmap. split.
  - intros ([q y] & -> & H). exists q. by apply elem_of_map_to_list.
  - intros [q H]. exists (q, x). split; [done|]. by apply elem_of_map_to_list.
Qed.

Lemma NoDup_table_pages s fl root T L : pt_inv s fl root T L -> NoDup (fl ++ table_pages T).
Proof.
  intros [(_ & Hn & _) R Hd]. apply NoDup_app. split; [done|]. split.
  - intros x Hx Ht. apply elem_of_table_pages in Ht as [q Hq]. by apply (Hd q x).
  - unfold table_pages. apply NoDup_fmap_2_strong; [|apply NoDup_map_to_list].
    intros [q x] [q' x'] H H' E. cbn in E. subst x'. apply elem_of_map_to_list in H, H'. f_equal. by apply (pr_inj _ _ _ _ R q q' x).
Qed.

(** As many pages, all of them among the old ones: none is lost. *)
Lemma pages_same s s' fl fl' root T T' L L' : pt_inv s fl root T L -> pt_inv s' fl' root T' L' ->
  (forall x, x ∈ fl' -> x ∈ fl) -> (forall x, table_page T' x -> table_page T x \/ x ∈ fl) ->
  (length fl' + size T' = length fl + size T)%nat -> forall x, x ∈ fl' \/ table_page T' x <-> x ∈ fl \/ table_page T x.
Proof.
  intros H H' Hf Ht Hc. assert (fl' ++ table_pages T' ≡ₚ fl ++ table_pages T) as E.
  { apply submseteq_length_Permutation.
    - apply NoDup_submseteq; [by eapply NoDup_table_pages|]. intros x. rewrite !elem_of_app, !elem_of_table_pages. intros [Hx|Hx]; [left; auto|].
      destruct (Ht x Hx); auto.
    - rewrite !length_app. unfold table_pages. rewrite !length_fmap, !length_map_to_list. lia. }
  intros x. rewrite <- !elem_of_table_pages, <- !elem_of_app. by rewrite E.
Qed.

Lemma table_page_ok m fl p T L x : proc_mem m fl p T L -> table_page T x -> page_ok x.
Proof. intros H [q Hq]. apply (pr_page _ _ _ _ (pi_rep _ _ _ _ _ (ai_pt _ _ _ _ _ (sp_as _ _ _ _ _ _ _ (pm_space _ _ _ _ _ H)))) q x Hq). Qed.

Lemma pages_of_size sz : 0 <= sz <= TRAPFRAME -> (sz + PGSIZE - 1) / PGSIZE = PGROUNDUP sz / PGSIZE.
Proof.
  intros H. rewrite TRAPFRAME_val in H. rewrite PGROUNDUP_spec by (unfold PGSIZE in *; lia). unfold PGSIZE. zlia.
Qed.

(** The child's pages hold what the parent's did. *)
Definition copied (m m' : gmap Z Z) (fl : list Z) (L L' : gmap Z Z) : Prop :=
  forall va v, L !! va = Some v -> va < TRAPFRAME ->
    exists p, L' !! va = Some (leaf_pte p (PTE_FLAGS v)) /\ p ∈ fl /\ page_ok p /\
      forall o, 0 <= o < PGSIZE -> mget m' (p + o) = mget m (PTE2PA v + o).

Lemma user_range m fl p T L va : proc_mem m fl p T L -> va < TRAPFRAME ->
  is_Some (L !! va) <-> in_range 0 (Z.to_nat ((p_sz p + PGSIZE - 1) / PGSIZE)) va.
Proof.
  intros [[_ Hsz _ _ Hd] _ _ _] Hva. assert (TRAPFRAME < TRAMPOLINE) by (vm_compute; reflexivity). rewrite pages_of_size by done. apply Hd; lia.
Qed.

Lemma range_user m fl p T L va : proc_mem m fl p T L -> in_range 0 (Z.to_nat ((p_sz p + PGSIZE - 1) / PGSIZE)) va -> va < TRAPFRAME.
Proof. intros [[_ Hsz _ _ _] _ _ _]. rewrite pages_of_size by done. intros H. by apply (in_range_low _ (p_sz p) va Hsz eq_refl). Qed.

Lemma kernel_leaves_user tf va : va < TRAPFRAME -> kernel_leaves tf !! va = None.
Proof.
  intros H. assert (TRAPFRAME < TRAMPOLINE) by (vm_compute; reflexivity). unfold kernel_leaves. by rewrite lookup_insert_ne, lookup_singleton_ne by lia.
Qed.

(** The child after the copy: the address space of the parent on pages that were free. *)
Lemma child_mem m0 m' fl fl' p q T L Tn T' L' : let n := Z.to_nat ((p_sz p + PGSIZE - 1) / PGSIZE) in
  proc_mem m0 fl p T L -> proc_mem m0 fl q Tn (kernel_leaves (p_trapframe q)) ->
  copy_rel L (p_pagetable q) m0 fl Tn (kernel_leaves (p_trapframe q)) n m' fl' T' L' ->
  proc_mem m' fl' (set_psz (p_sz p) q) T' L' /\ copied (pm_mem m0) (pm_mem m') fl L L'.
Proof.
  intros n Hp [[_ _ K1 K2 _] Hr Hf (A1 & A2 & _)] C. assert (TRAPFRAME < TRAMPOLINE) as Htt by (vm_compute; reflexivity).
  pose proof (sp_sz _ _ _ _ _ _ _ (pm_space _ _ _ _ _ Hp)) as Hsz.
  assert (forall va, TRAPFRAME <= va -> ~ in_range 0 n va) as Hhi by (intros va Hva H%(range_user _ _ _ _ _ _ Hp); lia).
  split; [split; cbn [set_psz p_pagetable p_sz p_trapframe]; [|done|done|]|].
  - split; [apply C|done| | |].
    + rewrite (cr_old _ _ _ _ _ _ _ _ _ _ _ C) by (apply Hhi; lia). done.
    + rewrite (cr_old _ _ _ _ _ _ _ _ _ _ _ C) by (apply Hhi; lia). done.
    + intros va H1 H2. rewrite <- pages_of_size by done. fold n. destruct (decide (in_range 0 n va)) as [Hin|Hin].
      * destruct (cr_new _ _ _ _ _ _ _ _ _ _ _ C va Hin) as (v & x & _ & -> & _). done.
      * rewrite (cr_old _ _ _ _ _ _ _ _ _ _ _ C) by done. unfold kernel_leaves. rewrite lookup_insert_ne, lookup_singleton_ne by done. split; [by intros []|done].
  - split; [intros H; by apply A1, (cr_fl _ _ _ _ _ _ _ _ _ _ _ C)|]. split.
    + intros H. by destruct (cr_tab _ _ _ _ _ _ _ _ _ _ _ C _ H).
    + intros (va & v & Hv & Hlt & E). destruct (decide (in_range 0 n va)) as [Hin|Hin].
      * destruct (cr_new _ _ _ _ _ _ _ _ _ _ _ C va Hin) as (w & x & Hw & Hx & Hpo & Hxf & _). rewrite Hx in Hv. injection Hv as <-.
        assert (in_range 0 n va) as Hin' by done. rewrite PTE2PA_copied in E by done. by subst x.
      * rewrite (cr_old _ _ _ _ _ _ _ _ _ _ _ C), kernel_leaves_user in Hv by done. done.
  - intros va v Hv Hlt. assert (in_range 0 n va) as Hin by (apply (user_range _ _ _ _ _ _ Hp Hlt); by exists v).
    destruct (cr_new _ _ _ _ _ _ _ _ _ _ _ C va Hin) as (w & x & Hw & Hx & Hpo & Hxf & Hb). rewrite Hv in Hw. injection Hw as <-. by exists x.
Qed.

(** uvmcopy() as fork() calls it. *)
Lemma fork_copy c m fl p T L q Tn : proc_mem m fl p T L -> proc_mem m fl q Tn (kernel_leaves (p_trapframe q)) ->
  (forall x, table_page Tn x -> ~ proc_page (p_trapframe p) T L x) -> L_kmem ∉ held c ->
  exists r m' fl' T', uvmcopy (p_pagetable p) (p_pagetable q) (p_sz p) c m = Ok r c m' /\ proc_mem m' fl' p T L /\
    changes_only (fun x => table_page Tn x \/ x ∈ fl) (pm_mem m) (pm_mem m') /\
    (forall x, x ∈ fl' -> x ∈ fl) /\ (forall x, table_page T' x -> table_page Tn x \/ x ∈ fl) /\
    ((r = 0 /\ exists L', proc_mem m' fl' (set_psz (p_sz p) q) T' L' /\ copied (pm_mem m) (pm_mem m') fl L L') \/
     (r = -1 /\ proc_mem m' fl' q T' (kernel_leaves (p_trapframe q)) /\ forall x, x ∈ fl' \/ table_page T' x <-> x ∈ fl \/ table_page Tn x)).
Proof.
  intros Hp Hq Hd Hc. pose proof (pm_space _ _ _ _ _ Hp) as [Ha Hsz _ _ _]. pose proof (pm_space _ _ _ _ _ Hq) as [Hqa Hqsz _ _ Hqd].
  destruct (uvmcopy_run c m fl (p_pagetable p) T L (p_pagetable q) Tn (kernel_leaves (p_trapframe q)) (p_sz p)) as (r & m' & fl' & T' & L' & k & Hr & C & Hpa & Hres); try done.
  { intros x Hx. specialize (Hd x Hx). unfold proc_page in Hd. tauto. }
  { intros x Hx. pose proof (range_user _ _ _ _ _ _ Hp Hx). split; [by apply (user_range _ _ _ _ _ _ Hp)|by apply kernel_leaves_user]. }
  exists r, m', fl', T'. split; [done|]. split.
  { apply (proc_mem_frame (fun x => table_page Tn x \/ x ∈ fl) m m' fl fl'); [done|apply Hpa|apply C|apply C|].
    intros x [Hx|Hx]; [split; [by apply (table_page_ok _ _ _ _ _ _ Hq)|intros H; by apply (Hd x Hx); right; left]|].
    destruct (fl_page _ _ _ _ _ x Hp Hx) as [Hok Hn]. split; [done|]. intros H. apply Hn. by right; left. }
  split; [apply C|]. split; [apply C|]. split; [apply C|]. destruct Hres as [[-> ->]|(-> & -> & _)].
  - left. split; [done|]. exists L'. by apply (child_mem m m' fl fl' p q T L Tn T' L').
  - right. split; [done|]. assert (L' = kernel_leaves (p_trapframe q)) as ->.
    { apply map_eq. intros x. apply (cr_old _ _ _ _ _ _ _ _ _ _ _ C). unfold in_range. lia. }
    split.
    + destruct Hq as [[_ S1 S2 S3 S4] Q2 Q3 (A1 & A2 & A3)]. split; [split; try done; apply C|done|done|]. split; [intros H; by apply A1, C|]. split; [|done].
      intros H. by destruct (cr_tab _ _ _ _ _ _ _ _ _ _ _ C _ H).
    + apply (pages_same m m' fl fl' (p_pagetable q) Tn T' (kernel_leaves (p_trapframe q)) (kernel_leaves (p_trapframe q))); [apply Hqa|apply C|apply C|apply C|].
      pose proof (cr_count _ _ _ _ _ _ _ _ _ _ _ C) as Hcnt. unfold page_count in Hcnt. lia.
Qed.

(** *np->trapframe = *p->trapframe; np->trapframe->a0 = 0. *)
Definition frame_copy (m : pmem) (dst src : Z) : pmem := PMem (store64 (memmove (pm_mem m) dst src TF_size) (dst + TF_a0) 0) (freelist m).

Lemma mget_storen_zero n : forall m a b, a <= b < a + Z.of_nat n -> mget (storen n m a 0) b = 0.
Proof.
  induction n as [|n IH]; intros m a b Hb; [lia|]. cbn [storen]. change (0 / 256) with 0. destruct (decide (b = a)) as [->|].
  - rewrite mget_storen_out by lia. by rewrite mget_mset_eq.
  - apply IH. lia.
Qed.

Lemma frame_copy_only m dst src : changes_only (fun x => x = dst) (pm_mem m) (pm_mem (frame_copy m dst src)).
Proof.
  intros b Hb. specialize (Hb dst eq_refl). unfold outside, PGSIZE in Hb. unfold frame_copy. cbn [pm_mem]. rewrite mget_store64_out by (unfold TF_a0; lia).
  apply (memmove_correct (pm_mem m) dst src TF_size 0 b); unfold TF_size; lia.
Qed.

Lemma frame_copy_bytes m dst src o : 0 <= o < TF_size ->
  mget (pm_mem (frame_copy m dst src)) (dst + o) = if decide (TF_a0 <= o < TF_a0 + 8) then 0 else mget (pm_mem m) (src + o).
Proof.
  intros Ho. unfold frame_copy. cbn [pm_mem]. case_decide.
  - unfold store64. apply mget_storen_zero. lia.
  - rewrite mget_store64_out by lia. by apply (memmove_correct (pm_mem m) dst src TF_size o 0); [unfold TF_size; lia|].
Qed.

Lemma frame_copy_mem m fl p q T L Tq Lq : proc_mem m fl p T L -> proc_mem m fl q Tq Lq -> ~ proc_page (p_trapframe p) T L (p_trapframe q) ->
  proc_mem (frame_copy m (p_trapframe q) (p_trapframe p)) fl p T L /\ proc_mem (frame_copy m (p_trapframe q) (p_trapframe p)) fl q Tq Lq.
Proof.
  intros Hp Hq Hn. pose proof (frame_copy_only m (p_trapframe q) (p_trapframe p)) as Hch. destruct (pm_apart _ _ _ _ _ Hq) as (A1 & A2 & A3).
  pose proof (pm_frame _ _ _ _ _ Hq) as Hf.
  assert (kmem_inv (frame_copy m (p_trapframe q) (p_trapframe p)) fl) as Hk.
  { apply (kmem_inv_frame (fun x => x = p_trapframe q) m); [apply Hp|done|done|]. by intros x ->. }
  split; eapply (proc_mem_frame (fun x => x = p_trapframe q)); try done; intros x ->; split; try done. intros H. apply Hn. by right; left.
Qed.
End ForkMem.
