(* ===== verification/ForkCorrect.v ===== *)
(** fork() of kernel/proc.c: it always returns, and the child it makes is a copy of the parent. *)
From stdpp Require Import functions.
From S2P Require Import Prelude Machine CString Kalloc Vm PageTable UserMem UserFree UserFork Sleeplock BlockCache Log Pipe Printf Uart Console.
From S2P Require Import Proc ProcInv ProcMem ForkMem Fs Kernel File Fork SysInv FileInv.
Local Open Scope Z_scope.

Section ForkCorrect.
Context {K : Type} `{BC : BlockCache K} `{KI : KernelImage}.

Lemma bind_onpt {A B} (m : M ptab A) (f : A -> M (kst K) B) c k a c' t : m c (k_pt k) = Ok a c' t -> bindM (onpt m) f c k = f a c' (lput pt_lens t k).
Proof. intros H. unfold bindM, onpt, zoom. cbn [lget pt_lens]. by rewrite H. Qed.
Lemma bind_onkmem {A B} (m : M pmem A) (f : A -> M (kst K) B) c k a c' t : m c (p_mem (k_pt k)) = Ok a c' t ->
  bindM (onkmem m) f c k = f a c' (lput kmem_lens t k).
Proof. intros H. unfold bindM, onkmem, zoom. cbn [lget kmem_lens]. by rewrite H. Qed.

(** ** The state while the child is filled in *)

(** Since [k0] only slot [np], the memory, the file table and the inode table have changed. *)
Record filling (np : nat) (k0 : kst K) (q : proc) (m : pmem) (ft : gmap nat file) (it : gmap nat inode) (k : kst K) : Prop := {
  fl_slot : procs (k_pt k) !!! np = q;
  fl_other : forall j, j <> np -> procs (k_pt k) !!! j = procs (k_pt k0) !!! j;
  fl_pt : nextpid (k_pt k) = nextpid (k_pt k0) /\ initproc (k_pt k) = initproc (k_pt k0) /\ c_proc (k_pt k) = c_proc (k_pt k0);
  fl_mem : p_mem (k_pt k) = m;
  fl_ftab : k_ftab k = ft;
  fl_itab : k_itab k = it;
  fl_rest : k_fy k = k_fy k0 /\ k_sb k = k_sb k0 /\ k_pipes k = k_pipes k0 /\ k_cons k = k_cons k0 /\ k_uart k = k_uart k0 /\
    k_ticks k = k_ticks k0 /\ k_first k = k_first k0 /\ k_hart k = k_hart k0;
}.

Lemma filling_start np k : filling np k (procs (k_pt k) !!! np) (p_mem (k_pt k)) (k_ftab k) (k_itab k) k.
Proof. by split. Qed.

Lemma filling_modp {np k0 q m ft it k} : filling np k0 q m ft it k -> forall g {B} (f : unit -> M (kst K) B) c,
  exists k', bindM (onpt (modp np g)) f c k = f tt c k' /\ filling np k0 (g q) m ft it k'.
Proof.
  intros [A1 A2 A3 A4 A5 A6 A7] g B f c. eexists. split; [by apply bind_onpt|]. split; try done; cbn; [by rewrite lookup_total_insert_eq, A1|].
  intros j Hj. rewrite lookup_total_insert_ne by done. by apply A2.
Qed.

(** A routine of the memory. *)
Lemma filling_mem {A np k0 q m ft it k} : filling np k0 q m ft it k -> forall (r : M pmem A) c a c' m', r c m = Ok a c' m' ->
  forall B (f : A -> M (kst K) B), exists k', bindM (onkmem r) f c k = f a c' k' /\ filling np k0 q m' ft it k'.
Proof.
  intros [A1 A2 A3 A4 A5 A6 A7] r c a c' m' H B f. eexists. split; [apply bind_onkmem; by rewrite A4|]. by split.
Qed.

Lemma filling_set_tf {np k0 q m ft it k} : filling np k0 q m ft it k -> forall off v {B} (f : unit -> M (kst K) B) c,
  exists k', bindM (onpt (set_tf np off v)) f c k = f tt c k' /\
    filling np k0 q (PMem (store64 (pm_mem m) (p_trapframe q + off) v) (freelist m)) ft it k'.
Proof.
  intros [A1 A2 A3 A4 A5 A6 A7] off v B f c. eexists. split; [by apply bind_onpt|]. split; try done. cbn. by rewrite A1, A4.
Qed.

Lemma filling_idup {np k0 q m ft it k} : filling np k0 q m ft it k -> forall d c, L_itable ∉ held c -> forall B (f : nat -> M (kst K) B),
  exists k', bindM (onfs (idup d)) f c k = f d c k' /\ filling np k0 q m ft (<[d := set_ref (i_ref (it !!! d) + 1) (it !!! d)]> it) k'.
Proof.
  intros [A1 A2 A3 A4 A5 A6 A7] d c Hc B f. destruct k as [t fy0 sb0 it0 ft0 pp cc uu tk fi ha], c as [h o]. cbn in *. subst it0 ft0.
  eexists. split.
  - unfold bindM at 1, onfs, waking, zoom, idup. cbn [held out lget fs_lens]. rewrite bind_acquire by done. unfold modip. mrun. unfold retM at 1. cbn [held out rev deliver].
    unfold bindM, onpt, zoom, retM. cbn [lget lput pt_lens fs_lens app fy sb itab mm k_pt]. reflexivity.
  - by split.
Qed.

(** The descriptors: the child shares the files of the parent. *)
Lemma fork_files_run n : forall i np k0 q m ft it k fd c, filling np k0 q m ft it k -> i <> np -> L_ftable ∉ held c ->
  (forall x, fd <= x -> p_ofile q !! x = None) ->
  (forall x f, p_ofile (procs (k_pt k0) !!! i) !! x = Some f -> 1 <= f_ref (ft !!! f)) ->
  exists k' o ft', fork_files n fd i np c k = Ok tt c k' /\ filling np k0 (set_ofile o q) m ft' it k' /\
    (forall x, o !! x = if decide (fd <= x < fd + Z.of_nat n) then p_ofile (procs (k_pt k0) !!! i) !! x else p_ofile q !! x) /\
    (forall f, f_ref (ft' !!! f) = f_ref (ft !!! f) + fds f o - fds f (p_ofile q)).
Proof.
  induction n as [|n IH]; intros i np k0 q m ft it k fd c F Hne Hc Hnone Hpos; cbn [fork_files].
  { exists k, (p_ofile q), ft. split; [done|]. split; [by destruct q|]. split; [|intros; lia]. intros x. rewrite decide_False by lia. done. }
  rewrite (bind_onpt (getp i) _ c k _ _ _ eq_refl). replace (lput pt_lens (k_pt k) k) with k by by destruct k.
  rewrite (fl_other _ _ _ _ _ _ _ F i Hne). destruct (p_ofile (procs (k_pt k0) !!! i) !! fd) as [f|] eqn:E.
  - unfold filedup. pose proof (Hpos fd f E) as Hf.
    set (k1 := set_ftab (<[f := set_fref (f_ref (ft !!! f) + 1) (ft !!! f)]> ft) k).
    assert (filling np k0 q m (<[f := set_fref (f_ref (ft !!! f) + 1) (ft !!! f)]> ft) it k1) as F1 by (destruct F; by split).
    destruct (filling_modp F1 (fun q => set_ofile (<[fd := f]> (p_ofile q)) q) (fun _ => retM tt) c) as (k2 & Hr & F2).
    destruct (IH i np k0 _ m _ it k2 (fd + 1) c F2 Hne Hc) as (k3 & o & ft' & Hr3 & F3 & Ho & Hft).
    { intros x Hx. cbn. rewrite lookup_insert_ne by lia. apply Hnone. lia. }
    { intros x g Hg. specialize (Hpos x g Hg). destruct (decide (g = f)) as [->|]; [rewrite lookup_total_insert_eq; cbn; lia|by rewrite lookup_total_insert_ne]. }
    exists k3, o, ft'. split; [|split; [exact F3|split]].
    + rewrite (bind_Ok _ _ _ _ tt c k2); [done|]. rewrite (bind_Ok _ _ _ _ f c k1).
      * unfold bindM in Hr. destruct (onpt (modp np _) c k1) as [[] c9 k9| | |]; try done.
      * rewrite bind_acquire by done. unfold getf, modf. mrun. rewrite (fl_ftab _ _ _ _ _ _ _ F). destruct (Z.ltb_spec (f_ref (ft !!! f)) 1); [lia|]. mrun.
        rewrite (fl_ftab _ _ _ _ _ _ _ F). by destruct c.
    + intros x. rewrite Ho. cbn [set_ofile p_ofile]. destruct (decide (x = fd)) as [->|].
      * rewrite decide_False, decide_True by lia. by rewrite lookup_insert_eq, E.
      * rewrite lookup_insert_ne by done. repeat case_decide; try done; lia.
    + intros g. rewrite Hft. cbn [set_ofile p_ofile]. rewrite fds_insert by (apply Hnone; lia). unfold one. case_decide; subst.
      * rewrite lookup_total_insert_eq. cbn. lia. * rewrite lookup_total_insert_ne by done. lia.
  - rewrite bind_ret. destruct (IH i np k0 q m ft it k (fd + 1) c F Hne Hc) as (k3 & o & ft' & Hr3 & F3 & Ho & Hft); [intros x Hx; apply Hnone; lia|done|].
    exists k3, o, ft'. split; [done|]. split; [done|]. split; [|done]. intros x. rewrite Ho. destruct (decide (x = fd)) as [->|].
    + rewrite decide_False, decide_True by lia. rewrite E. apply Hnone. lia.
    + repeat case_decide; try done; lia.
Qed.

Lemma filling_publish np k0 q m ft it k i c : filling np k0 q m ft it k -> held c = [] ->
  exists k', onpt (fork_publish np i) c k = Ok tt c k' /\ filling np k0 (set_state RUNNABLE (set_parent (Some i) q)) m ft it k'.
Proof.
  intros [A1 A2 A3 A4 A5 A6 A7] Hh. destruct c as [h o]. cbn in Hh. subst h. eexists. split.
  - unfold onpt, zoom, fork_publish. rewrite bind_acquire by apply not_elem_of_nil. mrun. rewrite bind_acquire by apply not_elem_of_nil. mrun. reflexivity.
  - split; try done; cbn [lget lput pt_lens k_pt put_procs procs]; [by rewrite !lookup_total_insert_eq, A1|]. intros j Hj. rewrite !lookup_total_insert_ne by done. by apply A2.
Qed.

(** ** The child *)

Record forked (i np d : nat) (fl : list Z) (L : gmap Z Z) (k k' : kst K) (fl' : list Z) : Prop := {
  fk_new : (np < nproc)%nat /\ p_state (procs (k_pt k) !!! np) = UNUSED;
  fk_other : forall j, j <> np -> procs (k_pt k') !!! j = procs (k_pt k) !!! j;
  fk_child : let p := procs (k_pt k) !!! i in let q := procs (k_pt k') !!! np in
    p_state q = RUNNABLE /\ p_pid q = nextpid (k_pt k) /\ p_parent q = Some i /\ p_sz q = p_sz p /\ p_trace_mask q = p_trace_mask p /\
    p_ofile q = p_ofile p /\ p_cwd q = Some d /\ p_name q = name_of (p_name p);
  fk_mem : exists T' L', proc_mem (p_mem (k_pt k')) fl' (procs (k_pt k') !!! np) T' L' /\
    copied (pm_mem (p_mem (k_pt k))) (pm_mem (p_mem (k_pt k'))) fl L L' /\
    forall x, proc_page (p_trapframe (procs (k_pt k') !!! np)) T' L' x -> x ∈ fl;
  fk_frame : forall o, 0 <= o < TF_size -> mget (pm_mem (p_mem (k_pt k'))) (p_trapframe (procs (k_pt k') !!! np) + o) =
    if decide (TF_a0 <= o < TF_a0 + 8) then 0 else mget (pm_mem (p_mem (k_pt k))) (p_trapframe (procs (k_pt k) !!! i) + o);
  fk_refs : forall f, f_ref (k_ftab k' !!! f) = f_ref (k_ftab k !!! f) + fds f (p_ofile (procs (k_pt k) !!! i));
  fk_cwd : k_itab k' = <[d := set_ref (i_ref (k_itab k !!! d) + 1) (k_itab k !!! d)]> (k_itab k);
}.

(** Runs one step of the goal with lemma [t] on the state. *)
Tactic Notation "fill" uconstr(t) ident(k) ident(F) :=
  match goal with |- exists _ _, bindM _ ?f ?c _ = _ /\ _ => let x := constr:(t f c) in destruct x as (k & -> & F) end.

(** The statements of fork() between the copy of the memory and the return. *)
Definition fork_fill_rest (i np d : nat) (p q : proc) : M (kst K) Z :=
  fork_files (Z.to_nat NOFILE) 0 i np ;;!
  d' <-! onfs (idup d) ;;
  onpt (modp np (set_cwd (Some d'))) ;;!
  onpt (modp np (set_name (name_of (p_name p)))) ;;!
  release (L_proc np) ;;!
  onpt (fork_publish np i) ;;!
  retM (p_pid q).
Definition fork_fill (i np d : nat) (p q : proc) : M (kst K) Z :=
  onpt (modp np (set_psz (p_sz p))) ;;!
  onpt (modp np (set_trace_mask (p_trace_mask p))) ;;!
  onkmem (memmoveM (p_trapframe q) (p_trapframe p) TF_size) ;;!
  onpt (set_tf np TF_a0 0) ;;!
  fork_fill_rest i np d p q.

Definition filled (i d : nat) (p q : proc) : proc :=
  set_state RUNNABLE (set_parent (Some i) (set_name (name_of (p_name p)) (set_cwd (Some d)
    (set_ofile (p_ofile p) (set_trace_mask (p_trace_mask p) (set_psz (p_sz p) q)))))).

Lemma fork_fill_run i np d k o : i <> np -> p_ofile (procs (k_pt k) !!! np) = ∅ ->
  (forall x f, p_ofile (procs (k_pt k) !!! i) !! x = Some f -> 0 <= x < NOFILE /\ 1 <= f_ref (k_ftab k !!! f)) ->
  let p := procs (k_pt k) !!! i in let q := procs (k_pt k) !!! np in
  exists k' ft, fork_fill i np d p q (Ctx [L_proc np] o) k = Ok (p_pid q) (Ctx [] o) k' /\
    filling np k (filled i d p q) (frame_copy (p_mem (k_pt k)) (p_trapframe q) (p_trapframe p)) ft
      (<[d := set_ref (i_ref (k_itab k !!! d) + 1) (k_itab k !!! d)]> (k_itab k)) k' /\
    forall f, f_ref (ft !!! f) = f_ref (k_ftab k !!! f) + fds f (p_ofile p).
Proof.
  intros Hne He Hf p q. assert (forall l : lock, l <> L_proc np -> l ∉ [L_proc np]) as Hl by (intros l H; by apply not_elem_of_cons; split; [|apply not_elem_of_nil]).
  pose proof (filling_start np k) as F. fold q in F. unfold fork_fill.
  fill (filling_modp F (set_psz (p_sz p))) k2 F2.
  fill (filling_modp F2 (set_trace_mask (p_trace_mask p))) k3 F3.
  destruct (filling_mem F3 (memmoveM (p_trapframe q) (p_trapframe p) TF_size) (Ctx [L_proc np] o) tt _ _ eq_refl _
    (fun _ => onpt (set_tf np TF_a0 0) ;;! fork_fill_rest i np d p q)) as (k4 & -> & F4).
  fill (filling_set_tf F4 TF_a0 0) k5 F5. unfold fork_fill_rest.
  destruct (fork_files_run (Z.to_nat NOFILE) i np _ _ _ _ _ _ 0 (Ctx [L_proc np] o) F5 Hne) as (k6 & oo & ft & Hr & F6 & Ho & Hft).
  { by apply Hl. } { intros x _. cbn. fold q in He. by rewrite He. } { intros x f Hx. by apply (Hf x f). }
  rewrite (bind_Ok _ _ _ _ _ _ _ Hr). assert (oo = p_ofile p) as ->.
  { apply map_eq. intros x. rewrite Ho. cbn. fold q in He. rewrite He. case_decide; [done|]. rewrite lookup_empty. destruct (p_ofile p !! x) as [f|] eqn:E; [|done].
    destruct (Hf x f E) as [Hx _]. unfold NOFILE in *. lia. }
  destruct (filling_idup F6 d (Ctx [L_proc np] o) ltac:(by apply Hl) _ (fun d' => onpt (modp np (set_cwd (Some d'))) ;;!
    onpt (modp np (set_name (name_of (p_name p)))) ;;! release (L_proc np) ;;! onpt (fork_publish np i) ;;! retM (p_pid q))) as (k7 & -> & F7).
  fill (filling_modp F7 (set_cwd (Some d))) k8 F8. fill (filling_modp F8 (set_name (name_of (p_name p)))) k9 F9. rewrite bind_release.
  destruct (filling_publish _ _ _ _ _ _ _ i (Ctx [] o) F9 eq_refl) as (kA & HrA & FA). rewrite (bind_Ok _ _ _ _ _ _ _ HrA).
  exists kA, ft. split; [done|]. split; [exact FA|]. intros f. rewrite Hft. cbn. fold q in He. rewrite He, fds_empty. lia.
Qed.

(** ** fork *)

Variable forkret_addr : Z.

(** What fork() needs of the state: the invariant of the tables, a parent with its memory, and clean unused slots. *)
Record fork_pre (i d : nat) (fl : list Z) (T : gmap (list Z) Z) (L : gmap Z Z) (k : kst K) : Prop := {
  fp_sys : sys_ok i no_flight k;
  fp_mem : proc_mem (p_mem (k_pt k)) fl (procs (k_pt k) !!! i) T L;
  fp_clean : forall j, (j < nproc)%nat -> p_state (procs (k_pt k) !!! j) = UNUSED -> p_sz (procs (k_pt k) !!! j) = 0;
  fp_cwd : p_cwd (procs (k_pt k) !!! i) = Some d;
}.

Lemma fork_pre_files i d fl T L k x f : fork_pre i d fl T L k -> p_ofile (procs (k_pt k) !!! i) !! x = Some f ->
  0 <= x < NOFILE /\ 1 <= f_ref (k_ftab k !!! f).
Proof.
  intros [[Hc _ [A _ C _]] _ _ _] H. destruct Hc as (_ & Hi & _). destruct (C i x f Hi H) as [Hf Hx]. split; [done|].
  rewrite A by done. pose proof (refs_pos _ _ _ _ Hi H). unfold no_flight. lia.
Qed.

(** allocproc() in fork(). *)
Lemma fork_alloc i d fl T L k c : fork_pre i d fl T L k -> held c = [] ->
  exists r c' t fl', allocproc forkret_addr c (k_pt k) = Ok r c' t /\ proc_mem (p_mem t) fl' (procs (k_pt k) !!! i) T L /\
    changes_only (fun x => x ∈ fl) (pm_mem (p_mem (k_pt k))) (pm_mem (p_mem t)) /\ c_proc t = c_proc (k_pt k) /\
    match r with
    | Some np => (np < nproc)%nat /\ np <> i /\ p_state (procs (k_pt k) !!! np) = UNUSED /\ c' = Ctx [L_proc np] (out c) /\
        (forall j, j <> np -> procs t !!! j = procs (k_pt k) !!! j) /\
        p_pid (procs t !!! np) = nextpid (k_pt k) /\ p_ofile (procs t !!! np) = ∅ /\
        exists Tn, proc_mem (p_mem t) fl' (procs t !!! np) Tn (kernel_leaves (p_trapframe (procs t !!! np))) /\
          forall x, x ∈ fl <-> x ∈ fl' \/ x = p_trapframe (procs t !!! np) \/ table_page Tn x
    | None => c' = c /\ (forall x, x ∈ fl' <-> x ∈ fl) /\ forall j, p_state (procs (k_pt k) !!! j) <> UNUSED -> procs t !!! j = procs (k_pt k) !!! j
    end.
Proof.
  intros [S Hm Hz _] Hh. pose proof (sy_cur _ _ _ S) as (_ & Hi & Hr).
  destruct (allocproc_run forkret_addr c (k_pt k) fl) as (r & c' & t & fl' & Hrun & _ & Hcp & Hch & Hcase).
  - apply Hm. - unfold alloc_locks, no_plock. rewrite Hh. split_and!; intros; apply not_elem_of_nil.
  - intros j Hj Hu. split; [by apply (tk_slot _ (sy_table _ _ _ S) j Hj)|by apply Hz].
  - exists r, c', t, fl'. split; [done|]. destruct r as [np|].
    + destruct Hcase as (Hn & Hu & -> & Ho & (tf & pt & E) & Tn & Hq & Hx). assert (np <> i) as Hne by (intros ->; congruence).
      split; [apply (free_frame fl (p_mem (k_pt k))); [done|apply Hq|intros x H; apply Hx; by left|done]|].
      split; [done|]. split; [done|]. rewrite Hh. split_and!; try done; [by rewrite E| |by exists Tn].
      rewrite E. cbn. apply (fo_dead _ _ (sy_files _ _ _ S)); auto.
    + destruct Hcase as (-> & Hk' & Hx & Ho). split; [|done]. apply (free_frame fl (p_mem (k_pt k))); try done. intros x. apply Hx.
Qed.

(** The memory is exhausted: the new slot is given back. *)
Lemma fork_undo i fl T L (k : kst K) t m (fl1 fl2 : list Z) np Tn T' o : proc_mem m fl2 (procs (k_pt k) !!! i) T L -> np <> i ->
  proc_mem (p_mem (k_pt k)) fl (procs (k_pt k) !!! i) T L ->
  (forall j, j <> np -> procs t !!! j = procs (k_pt k) !!! j) ->
  (forall x, x ∈ fl <-> x ∈ fl1 \/ x = p_trapframe (procs t !!! np) \/ table_page Tn x) ->
  proc_mem m fl2 (procs t !!! np) T' (kernel_leaves (p_trapframe (procs t !!! np))) ->
  (forall x, x ∈ fl2 \/ table_page T' x <-> x ∈ fl1 \/ table_page Tn x) ->
  changes_only (fun x => x ∈ fl) (pm_mem (p_mem (k_pt k))) (pm_mem m) ->
  exists t' fl', (onpt (freeproc np) ;;! release (L_proc np) ;;! retM (-1)) (Ctx [L_proc np] o) (lput kmem_lens m (lput pt_lens t k)) =
      Ok (-1) (Ctx [] o) (lput pt_lens t' k) /\
    proc_mem (p_mem t') fl' (procs (k_pt k) !!! i) T L /\ changes_only (fun x => x ∈ fl) (pm_mem (p_mem (k_pt k))) (pm_mem (p_mem t')) /\
    (forall x, x ∈ fl' <-> x ∈ fl) /\ forall j, j <> np -> procs t' !!! j = procs (k_pt k) !!! j.
Proof.
  intros Hp2 Hne Hp0 Ho Hfl Hq Hpg Hch. set (t2 := put_mem m t).
  destruct (freeproc_run np (Ctx [L_proc np] o) t2 fl2 T' (kernel_leaves (p_trapframe (procs t !!! np))) Hq) as (tt' & m3 & fl3 & Hr & Hk & _ & Ho3 & Hx3 & Hch3).
  { apply not_elem_of_cons. split; [done|apply not_elem_of_nil]. }
  cbn [t2 put_mem procs p_mem] in Hx3, Hch3, Ho3.
  assert (forall x, proc_page (p_trapframe (procs t !!! np)) T' (kernel_leaves (p_trapframe (procs t !!! np))) x -> x ∈ fl) as Hin.
  { intros x [->|[H|(va & v & Hv & Hlt & _)]]; [apply Hfl; by right; left| |by rewrite kernel_leaves_user in Hv].
    apply Hfl. destruct (proj1 (Hpg x) (or_intror H)); auto. }
  assert (forall x, x ∈ fl3 <-> x ∈ fl) as Hsame.
  { intros x. rewrite Hx3. split; [intros [H|H]; [apply Hfl; destruct (proj1 (Hpg x) (or_introl H)); auto|by apply Hin]|].
    intros [H|[->|H]]%Hfl; [| right; by left|]; (destruct (proj2 (Hpg x) ltac:(tauto)); [by left|right; by right; left]). }
  assert (changes_only (fun x => x ∈ fl) (pm_mem (p_mem (k_pt k))) (pm_mem m3)) as Hch'.
  { revert Hch Hch3. apply changes_only_trans; [done|exact Hin]. }
  change t2 with (k_pt (lput kmem_lens m (lput pt_lens t k))) in Hr at 1.
  eexists (PTab tt' (nextpid t2) (initproc t2) (c_proc t2) m3), fl3. split; [rewrite (bind_onpt _ _ _ _ _ _ _ Hr); apply bind_release|]. cbn [p_mem procs].
  split; [apply (free_frame fl (p_mem (k_pt k))); try done; intros x; apply Hsame|]. split; [done|]. split; [done|]. intros j Hj. rewrite Ho3 by done. by apply Ho.
Qed.

(** The copies of the pages survive the copy of the trapframe, and the parent's pages are those that fork() found. *)
Lemma copied_frame m0 m1 m2 (fl fl1 : list Z) p T L L' dst : proc_mem m0 fl p T L -> changes_only (fun x => x ∈ fl) (pm_mem m0) (pm_mem m1) ->
  (forall x, x ∈ fl1 -> x ∈ fl) -> page_ok dst -> dst ∉ fl1 ->
  copied (pm_mem m1) (pm_mem m2) fl1 L L' -> copied (pm_mem m0) (pm_mem (frame_copy m2 dst (p_trapframe p))) fl L L'.
Proof.
  intros Hp Hch Hsub Hd Hdn Hc va v Hv Hlt. destruct (Hc va v Hv Hlt) as (x & Hx & Hxf & Hok & Hb). exists x. split; [done|]. split; [auto|]. split; [done|].
  intros o Ho. rewrite (unchanged_byte _ _ _ x o (frame_copy_only m2 dst (p_trapframe p)) Hok Ho); [|intros y ->; split; [done|by intros ->]].
  rewrite Hb by done. apply (unchanged_byte _ _ _ _ _ Hch); [by apply (ai_own _ _ _ _ _ (sp_as _ _ _ _ _ _ _ (pm_space _ _ _ _ _ Hp)) va v)|done|].
  intros y Hy. destruct (fl_page _ _ _ _ _ y Hp Hy) as [Hyo Hn]. split; [done|]. intros ->. apply Hn. right; right. by exists va, v.
Qed.

(** The successful end of fork(), from the copy of the memory on. *)
Lemma fork_finish i d fl T L k t np fl1 Tn m2 fl2 T2 L2 o : fork_pre i d fl T L k -> np <> i -> (np < nproc)%nat -> p_state (procs (k_pt k) !!! np) = UNUSED ->
  (forall j, j <> np -> procs t !!! j = procs (k_pt k) !!! j) -> p_pid (procs t !!! np) = nextpid (k_pt k) -> p_ofile (procs t !!! np) = ∅ ->
  changes_only (fun x => x ∈ fl) (pm_mem (p_mem (k_pt k))) (pm_mem (p_mem t)) ->
  proc_mem (p_mem t) fl1 (procs t !!! np) Tn (kernel_leaves (p_trapframe (procs t !!! np))) ->
  (forall x, x ∈ fl <-> x ∈ fl1 \/ x = p_trapframe (procs t !!! np) \/ table_page Tn x) ->
  proc_mem m2 fl2 (procs (k_pt k) !!! i) T L -> changes_only (fun x => table_page Tn x \/ x ∈ fl1) (pm_mem (p_mem t)) (pm_mem m2) ->
  (forall x, x ∈ fl2 -> x ∈ fl1) -> (forall x, table_page T2 x -> table_page Tn x \/ x ∈ fl1) ->
  proc_mem m2 fl2 (set_psz (p_sz (procs (k_pt k) !!! i)) (procs t !!! np)) T2 L2 -> copied (pm_mem (p_mem t)) (pm_mem m2) fl1 L L2 ->
  exists k', fork_fill i np d (procs (k_pt k) !!! i) (procs t !!! np) (Ctx [L_proc np] o) (lput kmem_lens m2 (lput pt_lens t k)) =
      Ok (nextpid (k_pt k)) (Ctx [] o) k' /\ proc_mem (p_mem (k_pt k')) fl2 (procs (k_pt k) !!! i) T L /\
    changes_only (fun x => x ∈ fl) (pm_mem (p_mem (k_pt k))) (pm_mem (p_mem (k_pt k'))) /\ forked i np d fl L k k' fl2.
Proof.
  intros Hpre Hne Hnp Hu Ho Hpid Hof Hch1 Hq1 Hfl Hp2 Hch2 Hf2 Ht2 Hq2 Hcp. set (k1 := lput kmem_lens m2 (lput pt_lens t k)).
  pose proof (fp_mem _ _ _ _ _ _ Hpre) as Hp0. destruct (fork_fill_run i np d k1 o) as (k' & ft & Hr & F & Hft); cbn [k1 lput kmem_lens pt_lens k_pt put_mem procs k_ftab].
  { done. } { done. } { rewrite Ho by done. intros x f. by apply (fork_pre_files i d fl T L k). }
  cbn [k1 lput kmem_lens pt_lens k_pt put_mem procs k_ftab k_itab p_mem] in Hr, F, Hft. rewrite Ho in Hr, F, Hft by done. rewrite Hpid in Hr.
  destruct F as [F1 F2 F3 F4 F5 F6 F7]. set (p := procs (k_pt k) !!! i) in *. set (q := procs t !!! np) in *.
  assert (p_trapframe q ∈ fl) as Htf by (apply Hfl; by right; left).
  assert (~ proc_page (p_trapframe p) T L (p_trapframe q)) as Hnp' by (by destruct (fl_page _ _ _ _ _ _ Hp0 Htf)).
  destruct (frame_copy_mem m2 fl2 p (set_psz (p_sz p) q) T L T2 L2 Hp2 Hq2 Hnp') as [Hp3 Hq3]. cbn [set_psz p_trapframe] in Hp3, Hq3.
  assert (changes_only (fun x => x ∈ fl) (pm_mem (p_mem (k_pt k))) (pm_mem m2)) as Hch02.
  { revert Hch1 Hch2. apply changes_only_trans; [done|]. intros x Hx. apply Hfl. tauto. }
  exists k'. split; [exact Hr|]. rewrite F4. split; [done|]. split.
  { apply (changes_only_trans (fun x => x ∈ fl) (fun x => x = p_trapframe q) _ _ (pm_mem m2)); [done|by intros x ->|done|apply frame_copy_only]. }
  split; rewrite ?F1, ?F4, ?F5; try done.
  - intros j Hj. rewrite F2 by done. by apply Ho.
  - exists T2, L2. split; [by apply (proc_mem_same _ _ _ _ _ _ Hq3)|]. split.
    + apply (copied_frame (p_mem (k_pt k)) (p_mem t) m2 fl fl1 p T L L2); try done; [intros x Hx; apply Hfl; by left|apply Hq1|apply Hq1].
    + intros x [->|[Hx|(va & v & Hv & Hlt & E)]]; [done|apply Hfl; destruct (Ht2 x Hx); auto|].
      destruct (proj1 (user_range _ _ _ _ _ va Hq2 Hlt) (ex_intro _ v Hv)) as [Hin Hin']. cbn [set_psz p_sz] in Hin, Hin'.
      destruct (proj2 (user_range _ _ _ _ _ va Hp0 Hlt) (conj Hin Hin')) as [w Hw]. destruct (Hcp va w Hw Hlt) as (y & Hy & Hyf & Hok & _).
      rewrite Hy in Hv. injection Hv as <-. apply Hfl. left. rewrite PTE2PA_copied in E by done. by subst.
  - intros b Hb. cbn [filled set_state set_parent set_name set_cwd set_ofile set_trace_mask set_psz p_trapframe]. rewrite frame_copy_bytes by done. case_decide; [done|].
    apply (unchanged_byte _ _ _ _ _ Hch02); [apply Hp0|unfold TF_size, PGSIZE in *; lia|]. intros y Hy.
    destruct (fl_page _ _ _ _ _ y Hp0 Hy) as [Hyo Hn]. split; [done|]. intros ->. apply Hn. by left.
Qed.

(** C4: fork().  It always returns, with the locks the caller had.  Either it returns -1, with the free pages, the open files and
    every process as they were; or it returns the pid of a new runnable child whose parent is the caller.  The child has a copy
    of every page of the parent, on pages that were free, with the same permissions; its registers are the parent's, but
    fork() returns 0 in it; and it inherits the size, the trace mask, the open files, the current directory and the name,
    with one more reference for each file and for the directory.  In both cases the parent keeps its memory and its slot,
    and only free pages are written. *)
Theorem fork_correct i d fl T L k c : fork_pre i d fl T L k -> held c = [] ->
  exists r k' fl', fork forkret_addr c k = Ok r c k' /\
    proc_mem (p_mem (k_pt k')) fl' (procs (k_pt k') !!! i) T L /\ procs (k_pt k') !!! i = procs (k_pt k) !!! i /\
    changes_only (fun x => x ∈ fl) (pm_mem (p_mem (k_pt k))) (pm_mem (p_mem (k_pt k'))) /\
    ((r = -1 /\ k_ftab k' = k_ftab k /\ k_itab k' = k_itab k /\ (forall x, x ∈ fl' <-> x ∈ fl) /\
      forall j, p_state (procs (k_pt k) !!! j) <> UNUSED -> procs (k_pt k') !!! j = procs (k_pt k) !!! j) \/
     (r = nextpid (k_pt k) /\ exists np, forked i np d fl L k k' fl')).
Proof.
  intros Hpre Hh. destruct c as [h o]. cbn in Hh. subst h. pose proof (sy_cur _ _ _ (fp_sys _ _ _ _ _ _ Hpre)) as (Hc & Hi & Hrun). unfold fork.
  rewrite (bind_onpt myproc _ _ k i (Ctx [] o) (k_pt k)) by (unfold myproc; by rewrite bind_get, Hc). replace (lput pt_lens (k_pt k) k) with k by by destruct k.
  destruct (fork_alloc i d fl T L k (Ctx [] o) Hpre eq_refl) as (r & c1 & t & fl1 & Hr1 & Hp1 & Hch1 & Hcp & Hcase). rewrite (bind_onpt _ _ _ _ _ _ _ Hr1).
  destruct r as [np|].
  2:{ destruct Hcase as (-> & Hx & Ho). exists (-1), (lput pt_lens t k), fl1. cbn [lput pt_lens k_pt k_ftab k_itab]. rewrite (Ho i) by congruence.
      split_and!; try done. by left. }
  destruct Hcase as (Hnp & Hne & Hu & -> & Ho & Hpid & Hof & Tn & Hq1 & Hfl). do 2 rewrite (bind_onpt (getp _) _ _ _ _ _ _ eq_refl).
  cbn [lput pt_lens k_pt k_fy k_sb k_itab k_ftab k_pipes k_cons k_uart k_ticks k_first k_hart]. rewrite Ho by done.
  destruct (fork_copy (Ctx [L_proc np] o) (p_mem t) fl1 (procs (k_pt k) !!! i) T L (procs t !!! np) Tn Hp1 Hq1) as (e & m2 & fl2 & T2 & Hr2 & Hp2 & Hch2 & Hf2 & Ht2 & Hres).
  { intros x Hx. apply (fl_page _ _ _ _ _ x (fp_mem _ _ _ _ _ _ Hpre)). apply Hfl. by right; right. }
  { apply not_elem_of_cons. split; [done|apply not_elem_of_nil]. }
  rewrite (bind_onkmem _ _ _ (lput pt_lens t k) _ _ _ Hr2). destruct Hres as [(-> & L2 & Hq2 & Hcp2)|(-> & Hq2 & Hpg)].
  - cbn [Z.ltb Z.compare]. rewrite (fp_cwd _ _ _ _ _ _ Hpre).
    destruct (fork_finish i d fl T L k t np fl1 Tn m2 fl2 T2 L2 o) as (k' & Hr & Hp & Hch & Hfk); try done.
    exists (nextpid (k_pt k)), k', fl2. split; [exact Hr|]. rewrite (fk_other _ _ _ _ _ _ _ _ Hfk i) by done. split_and!; try done. right. split; [done|by exists np].
  - cbn [Z.ltb Z.compare]. destruct (fork_undo i fl T L k t m2 fl1 fl2 np Tn T2 o) as (t' & fl3 & Hr & Hp & Hch & Hx & Ho'); try done; [apply Hpre| |].
    { revert Hch1 Hch2. apply changes_only_trans; [done|]. intros x Hx. apply Hfl. tauto. }
    exists (-1), (lput pt_lens t' k), fl3. split; [exact Hr|]. cbn [lput pt_lens k_pt k_ftab k_itab]. rewrite (Ho' i) by done. split_and!; try done. left.
    split_and!; try done. intros j Hj. apply Ho'. by intros ->.
Qed.
End ForkCorrect.
