(* ===== verification/SysExamples.v ===== *)
(** Concrete states of the whole kernel at which the theorems on system calls and traps apply: init, which
    waits for its child, and the child, which runs with the console open as descriptor 0. *)
From stdpp Require Import functions.
From S2P Require Import Prelude Machine CString Kalloc Vm PageTable UserMem UserCopy Concrete Sleeplock BlockCache Bio Log.
From S2P Require Import DiskExamples Pipe PipeExamples Printf Uart Console ConsoleExamples Proc ProcInv Fs FsExamples.
From S2P Require Import Kernel File Fork Args Sysfile Syscall SysInv FileInv ProcMem ProcExamples ForkMem ForkCorrect.
Local Open Scope Z_scope.

Definition demo_tf : Z := 0x80070000.
Definition demo_init : proc :=
  Proc SLEEPING (Some (Ch_proc 0)) 0 0 1 None 0 0 demo_root demo_tf (Context 0 0) ∅ (Some 0%nat) (str "init") 0.
Definition demo_sh (mask : Z) : proc :=
  Proc RUNNING None 0 0 2 (Some 0%nat) 0 (2 * PGSIZE) demo_root demo_tf (Context 0 0) {[0 := 0%nat]} (Some 0%nat) (str "sh") mask.

(** The child has made system call [num] with first argument [a0]. *)
Definition demo_call (num a0 : Z) : pmem :=
  PMem (store64 (store64 (pm_mem demo_user) (demo_tf + TF_a7) num) (demo_tf + TF_a0) a0) (freelist demo_user).
Definition demo_kst (mask num a0 : Z) : kst bio :=
  KSt (PTab {[0%nat := demo_init; 1%nat := demo_sh mask]} 3 (Some 0%nat) (Some 1%nat) (demo_call num a0))
    (Fsys (demo_log []) demo_cache) demo_sb {[0%nat := demo_dir]} {[0%nat := File FD_DEVICE 1 1 1 0 0 0 CONSOLE]} ∅
    demo_cons demo_uart 7 0 (Hart 0 0 0 0 0 0 0 0 0 0).

Lemma demo_slots mask j : ({[0%nat := demo_init; 1%nat := demo_sh mask]} : gmap nat proc) !!! j =
  (match j with 0 => demo_init | 1 => demo_sh mask | _ => inhabitant end)%nat.
Proof. destruct j as [|[|j]]; try done. by rewrite lookup_total_insert_ne, lookup_total_singleton_ne by done. Qed.

Lemma demo_table mask num a0 : table_ok (k_pt (demo_kst mask num a0)).
Proof.
  split; cbn [k_pt demo_kst procs nextpid initproc].
  - intros j _. rewrite demo_slots. destruct j as [|[|j]]; split; try done; intros x [= <-]. rewrite demo_slots. split; [vm_compute; lia|]. split_and!; done.
  - intros j j'. rewrite !demo_slots. by destruct j as [|[|j]], j' as [|[|j']].
  - intros x [= <-]. split; [vm_compute; lia|]. split_and!; done.
  - lia.
Qed.

Lemma demo_sys_ok mask num a0 : sys_ok 1 no_flight (demo_kst mask num a0).
Proof.
  split; [split; [done|]; split; [vm_compute; lia|done]|apply demo_table|].
  split; cbn [k_pt k_ftab demo_kst procs].
  - intros f _. destruct f as [|f]; [vm_compute; reflexivity|]. rewrite lookup_total_singleton_ne by done. unfold refs, no_flight.
    rewrite (zsum_ext (fun _ => 0)); [vm_compute; reflexivity|]. intros j _. rewrite demo_slots. destruct j as [|[|j]]; [apply fds_empty| |apply fds_empty].
    cbn [demo_sh p_ofile]. unfold fds. by rewrite map_filter_singleton_False.
  - intros [|f] _; [done|]. by rewrite lookup_total_singleton_ne.
  - intros j fd f _. rewrite demo_slots. destruct j as [|[|j]]; try done. cbn [demo_sh p_ofile]. intros [<- <-]%lookup_singleton_Some. split; [vm_compute; lia|done].
  - intros j _. rewrite demo_slots. destruct j as [|[|j]]; try done; by intros [?|?].
Qed.

(** dup(0) gives descriptor 1, and the file has two references. *)
Lemma syscall_invariant_witness : exists c' k', syscall (fun _ => true) [] demo_tf ctx0 (demo_kst 0 SYS_dup 0) = Ok true c' k' /\
  sys_ok 1 no_flight k' /\ f_ref (k_ftab k' !!! 0%nat) = 2.
Proof.
  assert (match syscall (fun _ => true) [] demo_tf ctx0 (demo_kst 0 SYS_dup 0) with Ok b _ k' => Some (b, f_ref (k_ftab k' !!! 0%nat)) | _ => None end =
    Some (true, 2)) as H by (vm_compute; reflexivity).
  destruct (syscall _ _ _ _ _) as [b c' k'| | |] eqn:E; try discriminate H. injection H as -> H. exists c', k'. split; [reflexivity|]. split; [|exact H].
  apply (syscall_invariant 1 no_flight (fun _ => true) [] demo_tf ctx0 (demo_kst 0 SYS_dup 0) true c' k'); [apply demo_sys_ok|cbn; lia|by exists 0%nat|exact E].
Defined.

(** A process with the memory that allocproc() gave to slot 0. *)
Definition demo_alloc : ptab :=
  match alloc_mem demo_forkret 0 (Ctx [L_proc 0] []) demo_zero with Ok _ _ s => s | _ => demo_zero end.
Definition demo_parent_at (pt tf : Z) : proc :=
  Proc RUNNING None 0 0 2 None 0 0 pt tf (Context 0 0) {[0 := 0%nat]} (Some 0%nat) (str "sh") 4.
Definition demo_fork_at (pt tf : Z) (m : pmem) : kst bio :=
  KSt (PTab {[0%nat := demo_parent_at pt tf]} 3 None (Some 0%nat) m)
    (Fsys (demo_log []) demo_cache) demo_sb {[0%nat := demo_dir]} {[0%nat := File FD_DEVICE 1 1 1 0 0 0 CONSOLE]} ∅
    demo_cons demo_uart 7 0 (Hart 0 0 0 0 0 0 0 0 0 0).
Definition demo_parent : proc := demo_parent_at (p_pagetable (procs demo_alloc !!! 0%nat)) (p_trapframe (procs demo_alloc !!! 0%nat)).
Definition demo_fork : kst bio :=
  demo_fork_at (p_pagetable (procs demo_alloc !!! 0%nat)) (p_trapframe (procs demo_alloc !!! 0%nat)) (p_mem demo_alloc).

Lemma demo_fork_slots pt tf j : ({[0%nat := demo_parent_at pt tf]} : gmap nat proc) !!! j = (match j with 0 => demo_parent_at pt tf | _ => inhabitant end)%nat.
Proof. destruct j as [|j]; [done|]. by rewrite lookup_total_singleton_ne by done. Qed.

Lemma demo_fork_sys pt tf m : pt <> 0 -> tf <> 0 -> sys_ok 0 no_flight (demo_fork_at pt tf m).
Proof.
  intros Hpt Htf. split; [split; [done|]; split; [vm_compute; lia|done]| |].
  - split; cbn [k_pt demo_fork_at procs nextpid initproc]; [| |done|lia].
    + intros j _. rewrite demo_fork_slots. by destruct j as [|j]; split.
    + intros j j'. rewrite !demo_fork_slots. by destruct j, j'.
  - split; cbn [k_pt procs k_ftab demo_fork_at].
    + intros f _. unfold refs, no_flight. rewrite (zsum_upd (fun _ => 0) _ nproc 0%nat); [|vm_compute; lia|].
      * rewrite demo_fork_slots. cbn [demo_parent_at p_ofile]. change (zsum (fun _ => 0) nproc) with 0. unfold fds. destruct f as [|f].
        -- by rewrite map_filter_singleton_True, map_size_singleton.
        -- rewrite lookup_total_singleton_ne by done. by rewrite map_filter_singleton_False, map_size_empty.
      * intros [|x] Hx; [done|]. rewrite demo_fork_slots. apply fds_empty.
    + intros [|f] _; [done|]. by rewrite lookup_total_singleton_ne.
    + intros j fd f _. rewrite demo_fork_slots. destruct j as [|j]; [|done]. cbn [demo_parent_at p_ofile]. intros [<- <-]%lookup_singleton_Some. split; [vm_compute; lia|done].
    + intros j _. rewrite demo_fork_slots. destruct j as [|j]; [by intros [?|?]|done].
Qed.

Lemma demo_fork_mem : exists fl T L, proc_mem (p_mem demo_alloc) fl demo_parent T L.
Proof.
  destruct (alloc_mem_run demo_forkret 0 ctx0 demo_zero demo_fl demo_kmem) as (r & c' & s' & fl' & Hr & _ & _ & Hc);
    [apply not_elem_of_nil|done|done|].
  assert (demo_alloc = s') as E by (unfold demo_alloc; cbn [ctx0 held out] in Hr; by rewrite Hr).
  assert (answer (alloc_mem demo_forkret 0 (Ctx (L_proc 0 :: held ctx0) (out ctx0)) demo_zero) = Some (Some 0%nat)) as Ha by (vm_compute; reflexivity).
  rewrite Hr in Ha. injection Ha as ->. destruct Hc as (_ & _ & (tf & pt & Ep) & T & Hm & _). exists fl', T. eexists.
  unfold demo_parent, demo_parent_at. rewrite E. apply (proc_mem_same _ _ (procs s' !!! 0%nat)); [exact Hm|reflexivity| |reflexivity]. cbn [p_sz]. rewrite Ep. reflexivity.
Qed.

Lemma demo_fork_pre_at pt tf m fl T L : proc_mem m fl (demo_parent_at pt tf) T L -> fork_pre 0 0 fl T L (demo_fork_at pt tf m).
Proof.
  intros Hm. split; [|exact Hm| |done].
  - apply demo_fork_sys; [apply Hm|]. pose proof (page_ok_pos _ (pm_frame _ _ _ _ _ Hm)) as Hp. cbn [demo_parent_at p_trapframe] in Hp. lia.
  - intros j _. cbn [k_pt demo_fork_at procs]. rewrite demo_fork_slots. by destruct j.
Qed.

Lemma demo_fork_pre : exists fl T L, fork_pre 0 0 fl T L demo_fork.
Proof. destruct demo_fork_mem as (fl & T & L & Hm). exists fl, T, L. exact (demo_fork_pre_at _ _ _ _ _ _ Hm). Qed.

Lemma fork_correct_witness : exists k', fork demo_forkret ctx0 demo_fork = Ok 3 ctx0 k' /\ exists np fl L fl', forked 0 np 0 fl L demo_fork k' fl'.
Proof.
  assert (answer (fork demo_forkret ctx0 demo_fork) = Some 3) as Ha by (vm_compute; reflexivity).
  destruct demo_fork_pre as (fl & T & L & Hp).
  destruct (fork_correct demo_forkret 0 0 fl T L demo_fork ctx0 Hp eq_refl) as (r & k' & fl' & Hr & _ & _ & _ & [(-> & _)|(-> & np & Hf)]);
    rewrite Hr in Ha; [discriminate Ha|]. exists k'. split; [exact Hr|]. exists np, fl, L, fl'. exact Hf.
Defined.
