(* ===== verification/Asm.v ===== *)
(** The assembly code of the kernel: kernel/trampoline.S, kernel/swtch.S, kernel/kernelvec.S and kernel/entry.S, with
    start() of kernel/start.c, which entry.S calls.

    [run] executes straight-line code on the registers of one hart and on physical memory, through the Sv39 page table
    that satp names.  The accessed and dirty bits of the entries, which this kernel never reads, are left alone, and a
    misaligned access faults.  The code itself is taken to be mapped: the trampoline page is at the same address in
    every page table. *)
From S2P Require Import Prelude Machine CString Kalloc Vm PageTable.
Local Open Scope Z_scope.

Inductive reg : Type :=
| RA | SP | GP | TP | T0 | T1 | T2 | S0 | S1 | A0 | A1 | A2 | A3 | A4 | A5 | A6 | A7
| S2 | S3 | S4 | S5 | S6 | S7 | S8 | S9 | S10 | S11 | T3 | T4 | T5 | T6.
#[global] Instance reg_eq_dec : EqDecision reg.
Proof. solve_decision. Defined.

Inductive creg : Type :=
| Satp | Sscratch | Mhartid | Mstatus | Mepc | Medeleg | Mideleg | Sie | Pmpaddr0 | Pmpcfg0 | Mie | Menvcfg | Mcounteren | Stimecmp | Time.
#[global] Instance creg_eq_dec : EqDecision creg.
Proof. solve_decision. Defined.

Record machine : Type := Mach { x : reg -> Z; csr : creg -> Z; ram : gmap Z Z }.

Definition upd {A} `{EqDecision A} (f : A -> Z) (r : A) (v : Z) : A -> Z := fun q => if decide (q = r) then v else f q.
Definition setx (r : reg) (v : Z) (s : machine) : machine := Mach (upd (x s) r v) (csr s) (ram s).
Definition setc (c : creg) (v : Z) (s : machine) : machine := Mach (x s) (upd (csr s) c v) (ram s).
Definition setram (m : gmap Z Z) (s : machine) : machine := Mach (x s) (csr s) m.

(** ** Address translation in supervisor mode *)

Fixpoint sv39_walk (l : nat) (m : gmap Z Z) (flag table va : Z) : option Z :=
  let pte := load64 m (table + 8 * PX (Z.of_nat l) va) in
  let span := 2 ^ PXSHIFT (Z.of_nat l) in
  if negb (has pte PTE_V) || (2 ^ 54 <=? pte) then None
  else if Z.land pte RWX =? 0 then
    match l with O => None | S l' => sv39_walk l' m flag (PTE2PA pte) va end
  else if has pte flag && negb (has pte PTE_U) && (PTE2PA pte mod span =? 0) then Some (PTE2PA pte + va mod span)
  else None.

Definition translate (satp : Z) (m : gmap Z Z) (flag va : Z) : option Z :=
  if Z.shiftr satp 60 =? 0 then Some va
  else if Z.shiftr satp 60 =? 8 then
    if (va <? 2 ^ 38) || (2 ^ 64 - 2 ^ 38 <=? va) then sv39_walk 2 m flag (Z.shiftl (Z.land satp (Z.ones 44)) 12) va else None
  else None.

(** ** Instructions *)

Inductive instr : Type :=
| Sd (r : reg) (off : Z) (b : reg)
| Ld (r : reg) (off : Z) (b : reg)
| Li (r : reg) (v : Z)
| Addi (r a : reg) (v : Z)
| Add (r a b : reg)
| Mul (r a b : reg)
| Csrw (c : creg) (r : reg)
| Csrr (r : reg) (c : creg)
| SfenceVma
| Jr (r : reg)
| Call (link : Z)          (* [link] is the address of the next instruction *)
| Ret
| Sret.

(** How a piece of code is left. *)
Inductive stop : Type := Jumps (a : Z) | Calls | Returns | Ends | Faults.

Definition addr (s : machine) (off : Z) (b : reg) : Z := u64 (x s b + off).
Definition access (s : machine) (flag off : Z) (b : reg) : option Z :=
  if addr s off b mod 8 =? 0 then translate (csr s Satp) (ram s) flag (addr s off b) else None.

Fixpoint run (l : list instr) (s : machine) : stop * machine :=
  match l with
  | [] => (Ends, s)
  | i :: l =>
      match i with
      | Sd r off b => match access s PTE_W off b with Some a => run l (setram (store64 (ram s) a (x s r)) s) | None => (Faults, s) end
      | Ld r off b => match access s PTE_R off b with Some a => run l (setx r (load64 (ram s) a) s) | None => (Faults, s) end
      | Li r v => run l (setx r v s)
      | Addi r a v => run l (setx r (u64 (x s a + v)) s)
      | Add r a b => run l (setx r (u64 (x s a + x s b)) s)
      | Mul r a b => run l (setx r (u64 (x s a * x s b)) s)
      | Csrw c r => run l (setc c (x s r) s)
      | Csrr r c => run l (setx r (csr s c) s)
      | SfenceVma => run l s
      | Jr r => (Jumps (x s r), s)
      | Call link => (Calls, setx RA link s)
      | Ret => (Jumps (x s RA), s)
      | Sret => (Returns, s)
      end
  end.

(** ** kernel/trampoline.S *)

Definition uservec : list instr := [
  Csrw Sscratch A0;
  Li A0 TRAPFRAME;
  Sd RA 40 A0; Sd SP 48 A0; Sd GP 56 A0; Sd TP 64 A0; Sd T0 72 A0; Sd T1 80 A0; Sd T2 88 A0; Sd S0 96 A0; Sd S1 104 A0;
  Sd A1 120 A0; Sd A2 128 A0; Sd A3 136 A0; Sd A4 144 A0; Sd A5 152 A0; Sd A6 160 A0; Sd A7 168 A0;
  Sd S2 176 A0; Sd S3 184 A0; Sd S4 192 A0; Sd S5 200 A0; Sd S6 208 A0; Sd S7 216 A0; Sd S8 224 A0; Sd S9 232 A0; Sd S10 240 A0; Sd S11 248 A0;
  Sd T3 256 A0; Sd T4 264 A0; Sd T5 272 A0; Sd T6 280 A0;
  Csrr T0 Sscratch;
  Sd T0 112 A0;
  Ld SP 8 A0;
  Ld TP 32 A0;
  Ld T0 16 A0;
  Ld T1 0 A0;
  SfenceVma;
  Csrw Satp T1;
  SfenceVma;
  Jr T0 ].

Definition userret : list instr := [
  SfenceVma;
  Csrw Satp A0;
  SfenceVma;
  Li A0 TRAPFRAME;
  Ld RA 40 A0; Ld SP 48 A0; Ld GP 56 A0; Ld TP 64 A0; Ld T0 72 A0; Ld T1 80 A0; Ld T2 88 A0; Ld S0 96 A0; Ld S1 104 A0;
  Ld A1 120 A0; Ld A2 128 A0; Ld A3 136 A0; Ld A4 144 A0; Ld A5 152 A0; Ld A6 160 A0; Ld A7 168 A0;
  Ld S2 176 A0; Ld S3 184 A0; Ld S4 192 A0; Ld S5 200 A0; Ld S6 208 A0; Ld S7 216 A0; Ld S8 224 A0; Ld S9 232 A0; Ld S10 240 A0; Ld S11 248 A0;
  Ld T3 256 A0; Ld T4 264 A0; Ld T5 272 A0; Ld T6 280 A0;
  Ld A0 112 A0;
  Sret ].

(** struct trapframe: where each user register is kept. *)
Definition tf_off (r : reg) : Z :=
  match r with
  | RA => 40 | SP => 48 | GP => 56 | TP => 64 | T0 => 72 | T1 => 80 | T2 => 88 | S0 => 96 | S1 => 104 | A0 => 112 | A1 => 120
  | A2 => 128 | A3 => 136 | A4 => 144 | A5 => 152 | A6 => 160 | A7 => 168 | S2 => 176 | S3 => 184 | S4 => 192 | S5 => 200
  | S6 => 208 | S7 => 216 | S8 => 224 | S9 => 232 | S10 => 240 | S11 => 248 | T3 => 256 | T4 => 264 | T5 => 272 | T6 => 280
  end.

(** ** kernel/swtch.S *)

Definition swtch : list instr := [
  Sd RA 0 A0; Sd SP 8 A0; Sd S0 16 A0; Sd S1 24 A0; Sd S2 32 A0; Sd S3 40 A0; Sd S4 48 A0; Sd S5 56 A0; Sd S6 64 A0; Sd S7 72 A0;
  Sd S8 80 A0; Sd S9 88 A0; Sd S10 96 A0; Sd S11 104 A0;
  Ld RA 0 A1; Ld SP 8 A1; Ld S0 16 A1; Ld S1 24 A1; Ld S2 32 A1; Ld S3 40 A1; Ld S4 48 A1; Ld S5 56 A1; Ld S6 64 A1; Ld S7 72 A1;
  Ld S8 80 A1; Ld S9 88 A1; Ld S10 96 A1; Ld S11 104 A1;
  Ret ].

(** struct context. *)
Definition ctx_off (r : reg) : option Z :=
  match r with
  | RA => Some 0 | SP => Some 8 | S0 => Some 16 | S1 => Some 24 | S2 => Some 32 | S3 => Some 40 | S4 => Some 48 | S5 => Some 56
  | S6 => Some 64 | S7 => Some 72 | S8 => Some 80 | S9 => Some 88 | S10 => Some 96 | S11 => Some 104 | _ => None
  end.

(** ** kernel/kernelvec.S: before and after the call of kerneltrap() *)

Definition kernelvec (link : Z) : list instr := [
  Addi SP SP (-256);
  Sd RA 0 SP; Sd SP 8 SP; Sd GP 16 SP; Sd TP 24 SP; Sd T0 32 SP; Sd T1 40 SP; Sd T2 48 SP; Sd A0 72 SP; Sd A1 80 SP; Sd A2 88 SP;
  Sd A3 96 SP; Sd A4 104 SP; Sd A5 112 SP; Sd A6 120 SP; Sd A7 128 SP; Sd T3 216 SP; Sd T4 224 SP; Sd T5 232 SP; Sd T6 240 SP;
  Call link ].

Definition kernelvec_end : list instr := [
  Ld RA 0 SP; Ld SP 8 SP; Ld GP 16 SP; Ld T0 32 SP; Ld T1 40 SP; Ld T2 48 SP; Ld A0 72 SP; Ld A1 80 SP; Ld A2 88 SP;
  Ld A3 96 SP; Ld A4 104 SP; Ld A5 112 SP; Ld A6 120 SP; Ld A7 128 SP; Ld T3 216 SP; Ld T4 224 SP; Ld T5 232 SP; Ld T6 240 SP;
  Addi SP SP 256;
  Sret ].

(** ** kernel/entry.S and start(), which run in machine mode *)

Definition entry (stack0 link : Z) : list instr := [
  Li SP stack0;
  Li A0 (1024 * 4);
  Csrr A1 Mhartid;
  Addi A1 A1 1;
  Mul A0 A0 A1;
  Add SP SP A0;
  Call link ].

Definition MSTATUS_MPP_MASK : Z := Z.shiftl 3 11.
Definition MSTATUS_MPP_S : Z := Z.shiftl 1 11.
Definition SIE_SEIE : Z := Z.shiftl 1 9.
Definition SIE_STIE : Z := Z.shiftl 1 5.
Definition SIE_SSIE : Z := Z.shiftl 1 1.
Definition MIE_STIE : Z := Z.shiftl 1 5.

Definition timerinit (s : machine) : machine :=
  let s := setc Mie (Z.lor (csr s Mie) MIE_STIE) s in
  let s := setc Menvcfg (Z.lor (csr s Menvcfg) (Z.shiftl 1 63)) s in
  let s := setc Mcounteren (Z.lor (csr s Mcounteren) 2) s in
  setc Stimecmp (u64 (csr s Time + 1000000)) s.

(** The privilege mode and the address at which mret goes on. *)
Definition mret (s : machine) : Z * Z := (Z.land (Z.shiftr (csr s Mstatus) 11) 3, csr s Mepc).

Definition start (main : Z) (s : machine) : (Z * Z) * machine :=
  let y := csr s Mstatus in
  let y := Z.land y (Z.lnot MSTATUS_MPP_MASK) in
  let y := Z.lor y MSTATUS_MPP_S in
  let s := setc Mstatus y s in
  let s := setc Mepc main s in
  let s := setc Satp 0 s in
  let s := setc Medeleg 0xffff s in
  let s := setc Mideleg 0xffff s in
  let s := setc Sie (Z.lor (Z.lor (Z.lor (csr s Sie) SIE_SEIE) SIE_STIE) SIE_SSIE) s in
  let s := setc Pmpaddr0 0x3fffffffffffff s in
  let s := setc Pmpcfg0 0xf s in
  let s := timerinit s in
  let id := s32 (csr s Mhartid) in
  let s := setx TP (u64 id) s in
  (mret s, s).
