(* ===== verification/AsmCorrect.v ===== *)
(** The assembly code saves and restores what it has to (see [Asm]).

    A [window] is a range of virtual addresses that the page table maps to a range of physical memory, and still does
    whatever is written to the memory [P], which the range is part of.  Sequences of stores and loads in a window are run by [run_stores] and [run_loads];
    the theorems on the trampoline, the context switch and the kernel trap entry are instances. *)
From S2P Require Import Prelude Machine CString Kalloc Vm PageTable UserMem Proc ProcMem Concrete ProcExamples Trap Asm.
Local Open Scope Z_scope.

Lemma regs_eq {A} `{EqDecision A} (f : A -> Z) r v : upd f r v r = v.
Proof. unfold upd. by rewrite decide_True. Qed.
Lemma regs_ne {A} `{EqDecision A} (f : A -> Z) r v q : q <> r -> upd f r v q = f q.
Proof. intros H. unfold upd. by rewrite decide_False. Qed.

(** ** Windows *)

Definition window (P : Z -> Prop) (satp : Z) (m : gmap Z Z) (va pa lo hi : Z) : Prop :=
  va mod 8 = 0 /\ (forall a, pa + lo <= a < pa + hi -> P a) /\
  forall m', (forall a, ~ P a -> mget m' a = mget m a) ->
  forall o flag, flag = PTE_R \/ flag = PTE_W -> lo <= o -> o + 8 <= hi -> o mod 8 = 0 -> translate satp m' flag (u64 (va + o)) = Some (pa + o).

Lemma window_ext P satp m m' va pa lo hi : (forall a, ~ P a -> mget m' a = mget m a) -> window P satp m va pa lo hi -> window P satp m' va pa lo hi.
Proof. intros He (Hv & Hin & H). split_and!; [done|done|]. intros m2 H2. apply H. intros a Ha. rewrite H2, He; done. Qed.

Definition fits (lo hi : Z) (l : list (reg * Z)) : Prop := Forall (fun e => lo <= e.2 /\ e.2 + 8 <= hi /\ e.2 mod 8 = 0) l.

Lemma access_window P s flag o b pa lo hi : window P (csr s Satp) (ram s) (x s b) pa lo hi -> flag = PTE_R \/ flag = PTE_W ->
  lo <= o /\ o + 8 <= hi /\ o mod 8 = 0 -> access s flag o b = Some (pa + o).
Proof.
  intros (Hv & _ & H) Hf (H1 & H2 & H3). unfold access, addr. assert (u64 (x s b + o) mod 8 = 0) as -> by (unfold u64; zlia). cbn. by apply H.
Qed.

(** One instruction at a time. *)
Lemma run_li r v l s : run (Li r v :: l) s = run l (setx r v s). Proof. done. Qed.
Lemma run_addi r a v l s : run (Addi r a v :: l) s = run l (setx r (u64 (x s a + v)) s). Proof. done. Qed.
Lemma run_add r a b l s : run (Add r a b :: l) s = run l (setx r (u64 (x s a + x s b)) s). Proof. done. Qed.
Lemma run_mul r a b l s : run (Mul r a b :: l) s = run l (setx r (u64 (x s a * x s b)) s). Proof. done. Qed.
Lemma run_call a l s : run (Call a :: l) s = (Calls, setx RA a s). Proof. done. Qed.
Lemma run_csrw c r l s : run (Csrw c r :: l) s = run l (setc c (x s r) s). Proof. done. Qed.
Lemma run_csrr r c l s : run (Csrr r c :: l) s = run l (setx r (csr s c) s). Proof. done. Qed.
Lemma run_jr r l s : run (Jr r :: l) s = (Jumps (x s r), s). Proof. done. Qed.
Lemma run_sfence l s : run (SfenceVma :: l) s = run l s. Proof. done. Qed.
Lemma run_sd r o b l s a : access s PTE_W o b = Some a -> run (Sd r o b :: l) s = run l (setram (store64 (ram s) a (x s r)) s).
Proof. intros E. cbn [run]. by rewrite E. Qed.
Lemma run_ld r o b l s a : access s PTE_R o b = Some a -> run (Ld r o b :: l) s = run l (setx r (load64 (ram s) a) s).
Proof. intros E. cbn [run]. by rewrite E. Qed.

Fixpoint store_all (m : gmap Z Z) (f : reg -> Z) (pa : Z) (l : list (reg * Z)) : gmap Z Z :=
  match l with [] => m | (r, o) :: l => store_all (store64 m (pa + o) (f r)) f pa l end.
Fixpoint load_all (f : reg -> Z) (m : gmap Z Z) (pa : Z) (l : list (reg * Z)) : reg -> Z :=
  match l with [] => f | (r, o) :: l => load_all (upd f r (load64 m (pa + o))) m pa l end.
Definition sds (b : reg) (l : list (reg * Z)) : list instr := map (fun e => Sd e.1 e.2 b) l.
Definition lds (b : reg) (l : list (reg * Z)) : list instr := map (fun e => Ld e.1 e.2 b) l.

Lemma run_stores P b k pa lo hi : forall l s, window P (csr s Satp) (ram s) (x s b) pa lo hi -> fits lo hi l ->
  run (sds b l ++ k) s = run k (setram (store_all (ram s) (x s) pa l) s).
Proof.
  induction l as [|[r o] l IH]; intros s W Hf; [by destruct s|]. apply Forall_cons in Hf as [Ho Hf]. cbn [sds map app run fst snd store_all].
  rewrite (access_window P s PTE_W o b pa lo hi W ltac:(auto) Ho). rewrite IH; [done| |done]. cbn [setram csr ram x].
  apply (window_ext P _ (ram s)); [|done]. intros a Ha. apply mget_store64_out. cbn in Ho. destruct W as (_ & W & _). specialize (W a).
  destruct (decide (pa + o <= a < pa + o + 8)); [|lia]. destruct Ha. apply W. lia.
Qed.

Lemma store_all_out f pa : forall l m a, Forall (fun e => a < pa + e.2 \/ pa + e.2 + 8 <= a) l -> mget (store_all m f pa l) a = mget m a.
Proof.
  induction l as [|[r o] l IH]; intros m a Hl; [done|]. apply Forall_cons in Hl as [Ho Hl]. cbn [store_all]. rewrite IH by done. apply mget_store64_out. cbn in Ho. lia.
Qed.
Lemma store_all_fits f pa lo hi l m a : fits lo hi l -> a < pa + lo \/ pa + hi <= a -> mget (store_all m f pa l) a = mget m a.
Proof. intros Hf Ha. apply store_all_out. eapply Forall_impl; [exact Hf|]. intros e He. cbn in He. lia. Qed.

Lemma store_all_keeps f pa lo hi o : forall l m, fits lo hi l -> o mod 8 = 0 -> o ∉ l.*2 -> load64 (store_all m f pa l) (pa + o) = load64 m (pa + o).
Proof.
  intros l m Hf Ho Hn. apply load64_ext. intros b Hb. apply store_all_out. apply Forall_forall. intros [r o'] He. unfold fits in Hf. rewrite Forall_forall in Hf. destruct (Hf _ He) as (_ & _ & H8). cbn in *.
  assert (o' <> o) by (intros ->; apply Hn; apply list_elem_of_fmap; by exists (r, o)). zlia.
Qed.
Lemma store_all_in f pa lo hi r o : forall l m, fits lo hi l -> NoDup (l.*2) -> (r, o) ∈ l -> load64 (store_all m f pa l) (pa + o) = u64 (f r).
Proof.
  induction l as [|[r' o'] l IH]; intros m Hf Hn Hin; [by apply not_elem_of_nil in Hin|]. pose proof Hf as Hf'. apply Forall_cons in Hf' as [Ho Hl]. apply NoDup_cons in Hn as [Hn1 Hn2].
  cbn [store_all]. apply elem_of_cons in Hin as [[= <- <-]|Hin]; [|by apply IH]. rewrite (store_all_keeps f pa lo hi) by (done || apply Ho). apply load64_store64_eq.
Qed.

Lemma run_loads P b k pa lo hi : forall l s, window P (csr s Satp) (ram s) (x s b) pa lo hi -> fits lo hi l -> (forall o, (b, o) ∈ l -> load64 (ram s) (pa + o) = x s b) ->
  run (lds b l ++ k) s = run k (Mach (load_all (x s) (ram s) pa l) (csr s) (ram s)).
Proof.
  induction l as [|[r o] l IH]; intros s W Hf Hb; [by destruct s|]. apply Forall_cons in Hf as [Ho Hf]. cbn [lds map app run fst snd load_all].
  rewrite (access_window P s PTE_R o b pa lo hi W ltac:(auto) Ho).
  assert (upd (x s) r (load64 (ram s) (pa + o)) b = x s b) as E.
  { destruct (decide (b = r)) as [->|Hne]; [|by apply regs_ne]. rewrite regs_eq. apply Hb. left. }
  rewrite IH; cbn [setx x csr ram]; rewrite ?E; [done|done|done|]. intros o' Ho'. apply Hb. by right.
Qed.

Lemma load_all_out m pa r : forall l f, r ∉ l.*1 -> load_all f m pa l r = f r.
Proof. induction l as [|[q o] l IH]; intros f Hn; [done|]. cbn in Hn. apply not_elem_of_cons in Hn as [H1 H2]. cbn [load_all]. rewrite IH by done. by apply regs_ne. Qed.
Lemma load_all_in m pa r o : forall l f, NoDup (l.*1) -> (r, o) ∈ l -> load_all f m pa l r = load64 m (pa + o).
Proof.
  induction l as [|[q o'] l IH]; intros f Hn Hin; [by apply not_elem_of_nil in Hin|]. apply NoDup_cons in Hn as [H1 H2]. cbn [load_all]. apply elem_of_cons in Hin as [[= <- <-]|Hin]; [|by apply IH].
  rewrite load_all_out by done. apply regs_eq.
Qed.

(** ** Pages *)

Lemma satp_root root : 0 <= root < 2 ^ 56 -> root mod PGSIZE = 0 ->
  Z.shiftr (MAKE_SATP root) 60 = 8 /\ Z.shiftl (Z.land (MAKE_SATP root) (Z.ones 44)) 12 = root.
Proof.
  intros Hr Ha. unfold MAKE_SATP, SATP_SV39. rewrite Z.shiftr_lor, Z.land_lor_distr_l, Z.shiftl_lor. rewrite !Z.shiftr_shiftr by lia. change (12 + 60) with 72.
  rewrite (Z.shiftr_div_pow2 root 72), Z.div_small by lia. split; [done|]. rewrite (Z.land_ones (Z.shiftr root 12)), Z.shiftr_div_pow2 by lia. unfold PGSIZE in Ha.
  change (2 ^ 12) with 4096. change (2 ^ 44) with 17592186044416. change (2 ^ 56) with 72057594037927936 in Hr. rewrite Z.mod_small by zlia.
  change (Z.shiftl (Z.land (Z.shiftl 8 60) (Z.ones 44)) 12) with 0. rewrite Z.lor_0_l, Z.shiftl_mul_pow2 by lia. change (2 ^ 12) with 4096. zlia.
Qed.

Section Pages.
Context `{KI : KernelImage}.

(** One level of the walk, at a directory entry and at a leaf. *)
Lemma walk_dir l m flag table va y : 0 <= y < 2 ^ 56 -> y mod PGSIZE = 0 -> load64 m (table + 8 * PX (Z.of_nat (S l)) va) = mkpte y PTE_V ->
  sv39_walk (S l) m flag table va = sv39_walk l m flag y va.
Proof.
  intros H1 H2 E. cbn [sv39_walk]. rewrite E, mkpte_V_has. assert ((2 ^ 54 <=? mkpte y PTE_V) = false) as ->.
  { rewrite mkpte_val by done. apply Z.leb_gt. unfold PGSIZE in *. change (2 ^ 56) with 72057594037927936 in H1. change (2 ^ 54) with 18014398509481984. change PTE_V with 1. zlia. }
  rewrite land_RWX_flags, PTE_FLAGS_mkpte, PTE2PA_mkpte by done. done.
Qed.
Lemma walk_leaf m flag table va pa perm : phys_page pa -> leaf_perm perm -> has perm PTE_U = false -> has perm flag = true -> flag = PTE_R \/ flag = PTE_W ->
  load64 m (table + 8 * PX (Z.of_nat 0) va) = leaf_pte pa perm -> sv39_walk 0 m flag table va = Some (pa + va mod PGSIZE).
Proof.
  intros Hpa Hperm HU Hf Hf' E. destruct (leaf_pte_ok pa perm Hpa Hperm) as (Hr & HV & HR & Hp & Hfl). cbn [sv39_walk]. rewrite E, HV. cbn [negb orb].
  assert ((2 ^ 54 <=? leaf_pte pa perm) = false) as ->.
  { destruct Hpa as [P1 P2]. assert (0 <= Z.lor perm PTE_V < 1024) by (apply lor_small; [apply Hperm|done]). rewrite leaf_pte_mkpte, mkpte_val by done. apply Z.leb_gt. unfold PGSIZE in *.
    change (2 ^ 56) with 72057594037927936 in P1. change (2 ^ 54) with 18014398509481984. zlia. }
  rewrite (proj2 (Z.eqb_neq _ _) HR), Hp. change (2 ^ PXSHIFT (Z.of_nat 0)) with PGSIZE. destruct Hpa as [_ ->].
  assert (forall k, 0 < k < 10 -> has (leaf_pte pa perm) (Z.shiftl 1 k) = has perm (Z.shiftl 1 k)) as Hb.
  { intros k Hk. rewrite <- has_flags, Hfl by lia. rewrite has_lor by lia. assert (has PTE_V (Z.shiftl 1 k) = false) as ->; [|apply orb_false_r].
    rewrite has_testbit by lia. apply (Z.bits_above_log2 1); cbn; lia. }
  assert (has (leaf_pte pa perm) flag = true) as -> by (destruct Hf' as [-> | ->]; rewrite <- Hf; apply (Hb 1) || apply (Hb 2); lia).
  assert (has (leaf_pte pa perm) PTE_U = false) as -> by (rewrite <- HU; apply (Hb 4); lia). done.
Qed.

Lemma translate_leaf m root T L va pa perm flag : pt_rep m root T L -> 0 <= va < MAXVA -> L !! (va - va mod PGSIZE) = Some (leaf_pte pa perm) ->
  phys_page pa -> leaf_perm perm -> has perm PTE_U = false -> has perm flag = true -> flag = PTE_R \/ flag = PTE_W ->
  translate (MAKE_SATP root) m flag va = Some (pa + va mod PGSIZE).
Proof.
  intros R Hva HL Hpa Hperm HU Hfl Hfl'. destruct (pr_page _ _ _ _ R _ _ (pr_root _ _ _ _ R)) as (_ & _ & Hok). pose proof (page_ok_phys _ Hok) as [Hr1 Hr2].
  destruct (satp_root root Hr1 Hr2) as [E1 E2]. unfold translate. rewrite E1, E2. cbn [Z.eqb Pos.eqb]. rewrite MAXVA_val in Hva.
  assert ((va <? 2 ^ 38) || (2 ^ 64 - 2 ^ 38 <=? va) = true) as -> by lia.
  destruct (pr_dom _ _ _ _ R _ _ HL) as (i2 & i1 & i0 & Ev & Hi0 & [z Hz]). destruct (pr_page _ _ _ _ R _ _ Hz) as (_ & Hix & Hzok). apply Forall_cons in Hix as [Hi2 Hix]. apply Forall_cons in Hix as [Hi1 _].
  pose proof (PX_range 2 va ltac:(lia)) as P2. pose proof (PX_range 1 va ltac:(lia)) as P1. pose proof (PX_range 0 va ltac:(lia)) as P0. rewrite <- va_of_PX in Ev by lia.
  apply va_of_inj in Ev as (<- & <- & <-); try done. destruct (pr_closed _ _ _ _ R [PX 2 va] (PX 1 va) z Hz) as [y Hy]. destruct (pr_page _ _ _ _ R _ _ Hy) as (_ & _ & Hyok).
  pose proof (page_ok_phys _ Hyok) as [Y1 Y2]. pose proof (page_ok_phys _ Hzok) as [Z1 Z2].
  rewrite (walk_dir 1 m flag root va y Y1 Y2). 2: { change (Z.of_nat 2) with 2. rewrite (pr_dir _ _ _ _ R [] root) by (apply R || done || cbn; lia). cbn [app]. by rewrite Hy. }
  rewrite (walk_dir 0 m flag y va z Z1 Z2). 2: { change (Z.of_nat 1) with 1. rewrite (pr_dir _ _ _ _ R [PX 2 va] y) by (done || cbn; lia). cbn [app]. by rewrite Hz. }
  apply (walk_leaf m flag z va pa perm); try done. change (Z.of_nat 0) with 0. rewrite (pr_leaf _ _ _ _ R _ _ _ _ Hz P0), va_of_PX by lia. by rewrite HL.
Qed.

(** A page of data: mapped for reading and writing, and not one of the tables. *)
Record data_page (m : gmap Z Z) (root : Z) (T : gmap (list Z) Z) (L : gmap Z Z) (va pa : Z) : Prop := {
  dp_rep : pt_rep m root T L;
  dp_va : 0 <= va < MAXVA /\ va mod PGSIZE = 0;
  dp_leaf : L !! va = Some (leaf_pte pa (Z.lor PTE_R PTE_W));
  dp_pa : page_ok pa;
  dp_data : ~ table_page T pa;
}.

Lemma page_window m root T L va pa k lo hi : data_page m root T L va pa -> k mod 8 = 0 -> 0 <= k + lo -> k + hi <= PGSIZE ->
  window (fun a => pa <= a < pa + PGSIZE) (MAKE_SATP root) m (va + k) (pa + k) lo hi.
Proof.
  intros [R [Hv Ha] HL Hpa Hd] Hk Hlo Hhi. pose proof (page_ok_phys _ Hpa) as Hph. split_and!; [unfold PGSIZE in Ha; zlia|lia|].
  intros m' Hm o flag Hf H1 H2 H8. assert (pt_rep m' root T L) as R'.
  { apply (pt_rep_ext m); [|done]. intros q z b Hz Hb. symmetry. apply Hm. destruct (pr_page _ _ _ _ R _ _ Hz) as (_ & _ & Hzo).
    assert (z <> pa) as Hne by (intros ->; apply Hd; by exists q). pose proof (page_ok_apart z pa Hzo Hpa Hne). lia. }
  rewrite MAXVA_val in Hv. assert ((va + k + o) mod PGSIZE = k + o) as E by (unfold PGSIZE in *; zlia).
  rewrite u64_small by (unfold PGSIZE in *; lia). rewrite (translate_leaf m' root T L (va + k + o) pa (Z.lor PTE_R PTE_W) flag R'); rewrite ?E; try done.
  - f_equal. lia.
  - rewrite MAXVA_val. unfold PGSIZE in *. change (2 ^ 38) with 274877906944 in *. zlia.
  - replace (va + k + o - (k + o)) with va by lia. done.
  - by destruct Hf as [-> | ->].
Qed.
End Pages.

(** ** The trampoline *)

Definition user_regs : list (reg * Z) := [
  (RA, 40); (SP, 48); (GP, 56); (TP, 64); (T0, 72); (T1, 80); (T2, 88); (S0, 96); (S1, 104); (A1, 120); (A2, 128); (A3, 136);
  (A4, 144); (A5, 152); (A6, 160); (A7, 168); (S2, 176); (S3, 184); (S4, 192); (S5, 200); (S6, 208); (S7, 216); (S8, 224); (S9, 232);
  (S10, 240); (S11, 248); (T3, 256); (T4, 264); (T5, 272); (T6, 280)].
Lemma user_regs_off r : r <> A0 -> (r, tf_off r) ∈ user_regs.
Proof. intros H. apply list_elem_of_In. destruct r; try done; cbn; tauto. Qed.
Lemma user_regs_fit : fits 0 288 user_regs /\ NoDup (user_regs.*1) /\ NoDup (user_regs.*2) /\ (A0 ∉ user_regs.*1) /\ 112 ∉ user_regs.*2.
Proof. split_and!; [repeat constructor; done|..]; apply (bool_decide_unpack _); vm_compute; reflexivity. Qed.

Section Trampoline.
Context (P : Z -> Prop) (satp tf : Z).

Lemma uservec_parts : uservec = Csrw Sscratch A0 :: Li A0 TRAPFRAME :: sds A0 user_regs ++ Csrr T0 Sscratch :: Sd T0 112 A0 ::
  lds A0 [(SP, 8); (TP, 32); (T0, 16); (T1, 0)] ++ [SfenceVma; Csrw Satp T1; SfenceVma; Jr T0].
Proof. reflexivity. Qed.

(** The memory after the saves. *)
Definition saved (m : gmap Z Z) (f : reg -> Z) (a0 : Z) : gmap Z Z := store64 (store_all m f tf user_regs) (tf + 112) a0.

Lemma saved_out m f a0 a : a < tf + 40 \/ tf + 288 <= a -> mget (saved m f a0) a = mget m a.
Proof.
  intros Ha. unfold saved. rewrite mget_store64_out by lia. apply store_all_out. apply Forall_forall. intros e He. apply list_elem_of_In in He. cbn in He. destruct_or! He; subst; cbn; lia.
Qed.
Lemma saved_in m f a0 r : load64 (saved m f a0) (tf + tf_off r) = if decide (r = A0) then u64 a0 else u64 (f r).
Proof.
  destruct user_regs_fit as (Hfit & _ & Hnd & _ & _). unfold saved. destruct (decide (r = A0)) as [->|Hr]; [apply load64_store64_eq|].
  rewrite load64_store64_out by (destruct r; cbn; lia || done). apply (store_all_in _ tf 0 288); [done|done|by apply user_regs_off].
Qed.
Lemma saved_window m f a0 : window P satp m TRAPFRAME tf 0 288 -> window P satp (saved m f a0) TRAPFRAME tf 0 288.
Proof.
  intros W. apply (window_ext P _ m); [|done]. intros a Ha. apply saved_out. destruct W as (_ & W & _). specialize (W a). destruct (decide (tf + 0 <= a < tf + 288)); [destruct Ha; apply W; lia|lia].
Qed.

Lemma uservec_run s : csr s Satp = satp -> window P satp (ram s) TRAPFRAME tf 0 288 -> (forall r, 0 <= x s r < 2 ^ 64) ->
  exists s', run uservec s = (Jumps (load64 (ram s) (tf + 16)), s') /\ csr s' Satp = load64 (ram s) tf /\
    x s' SP = load64 (ram s) (tf + 8) /\ x s' TP = load64 (ram s) (tf + 32) /\
    (forall r, load64 (ram s') (tf + tf_off r) = x s r) /\ (forall a, a < tf + 40 \/ tf + 288 <= a -> mget (ram s') a = mget (ram s) a).
Proof.
  intros Hs W Hx. destruct user_regs_fit as (Hfit & _ & Hnd & HA & H112). rewrite uservec_parts, run_csrw, run_li.
  set (s1 := setx A0 TRAPFRAME (setc Sscratch (x s A0) s)). assert (csr s1 Satp = satp /\ x s1 A0 = TRAPFRAME /\ ram s1 = ram s /\ csr s1 Sscratch = x s A0) as (C1 & X1 & R1 & K1) by (split_and!; done || exact Hs).
  rewrite (run_stores P A0 _ tf 0 288) by (rewrite ?C1, ?X1, ?R1; done). rewrite run_csrr. set (s2 := setx T0 _ _).
  assert (csr s2 Satp = satp /\ x s2 A0 = TRAPFRAME /\ ram s2 = store_all (ram s) (x s1) tf user_regs /\ x s2 T0 = x s A0) as (C2 & X2 & R2 & K2) by (split_and!; done || exact Hs).
  assert (window P satp (ram s2) TRAPFRAME tf 0 288) as W2.
  { apply (window_ext P _ (ram s)); [|done]. intros a Ha. rewrite R2. apply (store_all_fits _ _ 0 288); [done|]. destruct W as (_ & W & _). specialize (W a).
    destruct (decide (tf + 0 <= a < tf + 288)); [destruct Ha; apply W; lia|lia]. }
  rewrite (run_sd _ _ _ _ s2 (tf + 112)) by (apply (access_window P s2 PTE_W 112 A0 tf 0 288); [by rewrite C2, X2|auto|done]).
  rewrite R2, K2. fold (saved (ram s) (x s1) (x s A0)). pose proof (saved_window (ram s) (x s1) (x s A0) W) as W3.
  pose proof (saved_out (ram s) (x s1) (x s A0)) as Ho. pose proof (saved_in (ram s) (x s1) (x s A0)) as Hi. set (m := saved _ _ _) in *. clearbody m.
  assert (forall o, 0 <= o -> o + 8 <= 40 -> load64 m (tf + o) = load64 (ram s) (tf + o)) as Hlow by (intros o H1 H2; apply load64_ext; intros b Hb; apply Ho; lia).
  rewrite (run_loads P A0 _ tf 0 288); [|cbn [setram csr x ram]; by rewrite C2, X2|by repeat constructor|intros o Hin; apply list_elem_of_In in Hin; cbn in Hin; naive_solver].
  rewrite run_sfence, run_csrw, run_sfence, run_jr. eexists. split; [f_equal; f_equal; cbn [x setc load_all]; rewrite regs_ne, regs_eq by done; by apply Hlow|]. cbn [x csr ram setc setram load_all]. rewrite ?regs_eq. split; [rewrite (Hlow 0) by lia; by rewrite Z.add_0_r|].
  split; [rewrite !regs_ne, regs_eq by done; by apply Hlow|]. split; [rewrite !regs_ne, regs_eq by done; by apply Hlow|]. split; [|exact Ho].
  intros r. rewrite Hi. destruct (decide (r = A0)) as [->|Hr]; [by rewrite u64_small|]. unfold s1, setx, setc. cbn [x]. rewrite regs_ne by done. by rewrite u64_small.
Qed.

Lemma userret_parts : userret = SfenceVma :: Csrw Satp A0 :: SfenceVma :: Li A0 TRAPFRAME :: lds A0 user_regs ++ [Ld A0 112 A0; Sret].
Proof. reflexivity. Qed.

Lemma userret_run s : x s A0 = satp -> window P satp (ram s) TRAPFRAME tf 0 288 ->
  exists s', run userret s = (Returns, s') /\ ram s' = ram s /\ csr s' Satp = satp /\ forall r, x s' r = load64 (ram s) (tf + tf_off r).
Proof.
  intros Hs W. destruct user_regs_fit as (Hfit & Hnd & _ & HA & _). rewrite userret_parts, run_sfence, run_csrw, run_sfence, run_li.
  set (s1 := setx A0 TRAPFRAME (setc Satp (x s A0) s)). assert (csr s1 Satp = satp /\ x s1 A0 = TRAPFRAME /\ ram s1 = ram s) as (C1 & X1 & R1) by (split_and!; [exact Hs|done|done]).
  rewrite (run_loads P A0 _ tf 0 288); [|by rewrite C1, X1, R1|done|intros o Ho; destruct HA; apply list_elem_of_fmap; by exists (A0, o)].
  set (s2 := Mach _ _ _). assert (x s2 A0 = TRAPFRAME) as X2 by (unfold s2; cbn [x]; by rewrite load_all_out).
  assert (forall r, r <> A0 -> x s2 r = load64 (ram s) (tf + tf_off r)) as Hr by (intros r Hr; unfold s2; cbn [x]; rewrite (load_all_in _ tf r (tf_off r)) by (done || by apply user_regs_off); by rewrite R1).
  assert (ram s2 = ram s /\ csr s2 Satp = satp) as [R2 C2] by (split; [done|exact C1]). clearbody s2.
  rewrite (run_ld _ _ _ _ s2 (tf + 112)) by (apply (access_window P s2 PTE_R 112 A0 tf 0 288); [by rewrite X2, R2, C2|auto|done]).
  eexists. split; [reflexivity|]. split; [done|]. split; [done|]. intros r. unfold setx. cbn [x ram]. rewrite R2. destruct (decide (r = A0)) as [->|Hne]; [by rewrite regs_eq|]. rewrite regs_ne by done. by apply Hr.
Qed.
End Trampoline.

Section UserTraps.
Context `{KI : KernelImage}.

Lemma trapframe_window m f fl p T L : proc_mem (PMem m f) fl p T L ->
  window (fun a => p_trapframe p <= a < p_trapframe p + PGSIZE) (MAKE_SATP (p_pagetable p)) m TRAPFRAME (p_trapframe p) 0 288.
Proof.
  intros [[[[_ R _] _ _] _ _ Hf _] _ Hok (_ & Ht & _)]. pose proof (page_window m (p_pagetable p) T L TRAPFRAME (p_trapframe p) 0 0 288) as W. rewrite !Z.add_0_r in W.
  apply W; [|done|done|done]. split; [exact R|split; vm_compute; done|done|done|done].
Qed.

(** C7: a trap from user space and the return to it.  uservec, started by a trap with any user registers in an address
    space of a process, saves all 31 registers in the trapframe of the process, changes no other memory, and jumps to
    kernel_trap with the kernel's stack, hart id and page table from the trapframe.  userret, called with the satp of
    the process, leaves the kernel with every register as the trapframe says.  So a register whose slot the kernel has
    left alone is, after the return, what it was before the trap. *)
Theorem trap_roundtrip s f fl p T L : proc_mem (PMem (ram s) f) fl p T L -> csr s Satp = MAKE_SATP (p_pagetable p) -> (forall r, 0 <= x s r < 2 ^ 64) ->
  let tf := p_trapframe p in
  exists s', run uservec s = (Jumps (load64 (ram s) (tf + TF_kernel_trap)), s') /\ csr s' Satp = load64 (ram s) (tf + TF_kernel_satp) /\
    x s' SP = load64 (ram s) (tf + TF_kernel_sp) /\ x s' TP = load64 (ram s) (tf + TF_kernel_hartid) /\
    (forall r, load64 (ram s') (tf + tf_off r) = x s r) /\ (forall a, a < tf + 40 \/ tf + 288 <= a -> mget (ram s') a = mget (ram s) a) /\
  forall t f' fl' T' L', proc_mem (PMem (ram t) f') fl' p T' L' -> x t A0 = MAKE_SATP (p_pagetable p) ->
  exists t', run userret t = (Returns, t') /\ ram t' = ram t /\ csr t' Satp = MAKE_SATP (p_pagetable p) /\
    (forall r, x t' r = load64 (ram t) (tf + tf_off r)) /\
    (forall r, load64 (ram t) (tf + tf_off r) = load64 (ram s') (tf + tf_off r) -> x t' r = x s r).
Proof.
  intros M Hs Hx tf. destruct (uservec_run _ _ tf s Hs (trapframe_window _ _ _ _ _ _ M) Hx) as (s' & H1 & H2 & H3 & H4 & H5 & H6).
  exists s'. split_and!; try done; [by change TF_kernel_satp with 0; rewrite Z.add_0_r|]. intros t f' fl' T' L' M' Ht.
  destruct (userret_run _ _ tf t Ht (trapframe_window _ _ _ _ _ _ M')) as (t' & K1 & K2 & K3 & K4). exists t'. split_and!; try done. intros r Hr. by rewrite K4, Hr, H5.
Qed.
End UserTraps.

(** The process that allocproc() makes, with registers that are all different. *)
Lemma trap_roundtrip_witness : exists s p, csr s Satp = MAKE_SATP (p_pagetable p) /\ x s S11 = 248 /\
  exists s', run uservec s = (Jumps (load64 (ram s) (p_trapframe p + TF_kernel_trap)), s') /\ load64 (ram s') (p_trapframe p + 248) = 248.
Proof.
  destruct demo_child as (t & i & fl & T & L & Hm & _). set (p := Proc.procs t !!! i) in *. set (s := Mach tf_off (fun _ => MAKE_SATP (p_pagetable p)) (pm_mem (p_mem t))).
  assert (proc_mem (PMem (ram s) (freelist (p_mem t))) fl p T L) as M by (cbn [ram s]; by destruct (p_mem t)).
  destruct (trap_roundtrip s (freelist (p_mem t)) fl p T L M eq_refl) as (s' & H1 & _ & _ & _ & H5 & _); [intros r; destruct r; vm_compute; intuition discriminate|].
  exists s, p. split; [reflexivity|]. split; [reflexivity|]. exists s'. split; [exact H1|]. exact (H5 S11).
Defined.

(** ** The context switch *)

Definition callee_saved : list (reg * Z) := [
  (RA, 0); (SP, 8); (S0, 16); (S1, 24); (S2, 32); (S3, 40); (S4, 48); (S5, 56); (S6, 64); (S7, 72); (S8, 80); (S9, 88); (S10, 96); (S11, 104)].
Lemma callee_saved_off r o : ctx_off r = Some o <-> (r, o) ∈ callee_saved.
Proof. rewrite list_elem_of_In. split; [destruct r; cbn; intros [= <-]; tauto|]. cbn. intros H. destruct_or! H; try done; by injection H as <- <-. Qed.
Lemma callee_saved_fit : fits 0 112 callee_saved /\ NoDup (callee_saved.*1) /\ NoDup (callee_saved.*2).
Proof. split_and!; [repeat constructor; done|..]; apply (bool_decide_unpack _); vm_compute; reflexivity. Qed.

Lemma swtch_parts : swtch = sds A0 callee_saved ++ lds A1 callee_saved ++ [Ret].
Proof. reflexivity. Qed.

Lemma swtch_run P s old new : window P (csr s Satp) (ram s) (x s A0) old 0 112 -> window P (csr s Satp) (ram s) (x s A1) new 0 112 ->
  exists s', run swtch s = (Jumps (load64 (ram s') new), s') /\ csr s' = csr s /\ ram s' = store_all (ram s) (x s) old callee_saved /\
    (forall r, x s' r = match ctx_off r with Some o => load64 (ram s') (new + o) | None => x s r end).
Proof.
  intros W1 W2. destruct callee_saved_fit as (Hf & Hn1 & Hn2). rewrite swtch_parts, (run_stores P A0 _ old 0 112 callee_saved s W1 Hf). set (m := store_all _ _ _ _).
  assert (window P (csr s Satp) m (x s A1) new 0 112) as W3.
  { apply (window_ext P _ (ram s)); [|done]. intros a Ha. apply (store_all_fits _ _ 0 112); [done|]. destruct W1 as (_ & W & _). specialize (W a). destruct (decide (old + 0 <= a < old + 112)); [destruct Ha; apply W; lia|lia]. }
  rewrite (run_loads P A1 _ new 0 112); [|done|done|intros o Ho; apply callee_saved_off in Ho; done]. cbn [setram ram x csr].
  assert (forall r, load_all (x s) m new callee_saved r = match ctx_off r with Some o => load64 m (new + o) | None => x s r end) as Hr.
  { intros r. destruct (ctx_off r) as [o|] eqn:E; [apply load_all_in; [done|by apply callee_saved_off]|]. apply load_all_out. intros Hin. apply list_elem_of_fmap in Hin as ([r' o] & -> & Hin). apply callee_saved_off in Hin. cbn in E. congruence. }
  exists (Mach (load_all (x s) m new callee_saved) (csr s) m). split; [|split_and!; done]. change (run [Ret] ?t) with (Jumps (x t RA), t). cbn [x ram]. rewrite Hr. cbn [ctx_off]. by rewrite Z.add_0_r.
Qed.

(** C21: the context switch.  swtch(old, new) saves the callee-saved registers of its caller in [old], changes no other
    memory, and goes on where [new] says with the registers of [new].  When later, on any hart and with any registers, a
    swtch(other, old) is made while [old] still holds what was saved, the first caller goes on behind its call with
    all its callee-saved registers as they were. *)
Theorem swtch_roundtrip P s old new : window P (csr s Satp) (ram s) (x s A0) old 0 112 -> window P (csr s Satp) (ram s) (x s A1) new 0 112 ->
  old + 112 <= new \/ new + 112 <= old -> (forall r, 0 <= x s r < 2 ^ 64) ->
  exists s', run swtch s = (Jumps (load64 (ram s) new), s') /\ csr s' = csr s /\
    (forall r o, ctx_off r = Some o -> x s' r = load64 (ram s) (new + o) /\ load64 (ram s') (old + o) = x s r) /\
    (forall r, ctx_off r = None -> x s' r = x s r) /\ (forall a, a < old \/ old + 112 <= a -> mget (ram s') a = mget (ram s) a) /\
  forall Q t other, window Q (csr t Satp) (ram t) (x t A0) other 0 112 -> window Q (csr t Satp) (ram t) (x t A1) old 0 112 ->
  other + 112 <= old \/ old + 112 <= other -> (forall a, old <= a < old + 112 -> mget (ram t) a = mget (ram s') a) ->
  exists t', run swtch t = (Jumps (x s RA), t') /\ forall r o, ctx_off r = Some o -> x t' r = x s r.
Proof.
  intros W1 W2 Hd Hx. destruct callee_saved_fit as (Hf & Hn1 & Hn2). destruct (swtch_run P s old new W1 W2) as (s' & Hr & Hc & Hm & Hreg).
  assert (forall r o, ctx_off r = Some o -> 0 <= o /\ o + 8 <= 112) as Hb by (intros r o; destruct r; cbn; intros [= <-]; lia).
  assert (forall (f : reg -> Z) m base z, base + 112 <= z \/ z + 112 <= base -> forall o, 0 <= o -> o + 8 <= 112 -> load64 (store_all m f base callee_saved) (z + o) = load64 m (z + o)) as Hout.
  { intros f m base z Hz o H1 H2. apply load64_ext. intros b Hbb. apply (store_all_fits _ _ 0 112); [done|lia]. }
  assert (forall r o, ctx_off r = Some o -> load64 (ram s') (old + o) = x s r) as Hsave.
  { intros r o Ho. rewrite Hm, (store_all_in _ old 0 112 r) by (done || by apply callee_saved_off). by rewrite u64_small. }
  pose proof (Hout (x s) (ram s) old new Hd) as Hnew. rewrite <- Hm in Hnew.
  exists s'. split_and!; [rewrite Hr; do 2 f_equal; rewrite <- (Z.add_0_r new); by apply Hnew|done| | | |].
  - intros r o Ho. split; [|by apply Hsave]. rewrite Hreg, Ho. destruct (Hb r o Ho). by apply Hnew.
  - intros r Ho. by rewrite Hreg, Ho.
  - intros a Ha. rewrite Hm. apply (store_all_fits _ _ 0 112); [done|lia].
  - intros Q t other V1 V2 Hd' Hkeep. destruct (swtch_run Q t other old V1 V2) as (t' & Kr & _ & Km & Kreg).
    assert (forall o, 0 <= o -> o + 8 <= 112 -> load64 (ram t') (old + o) = load64 (ram s') (old + o)) as Hold.
    { intros o H1 H2. rewrite Km, Hout by done. apply load64_ext. intros b Hbb. apply Hkeep. lia. }
    exists t'. split.
    + rewrite Kr. do 2 f_equal. rewrite <- (Z.add_0_r old), Hold by lia. by apply (Hsave RA).
    + intros r o Ho. rewrite Kreg, Ho. destruct (Hb r o Ho). rewrite Hold by done. by apply Hsave.
Qed.

(** Without paging every aligned range is a window. *)
Lemma bare_window m va n : va mod 8 = 0 -> 0 <= va -> va + n < 2 ^ 64 -> window (fun _ => True) 0 m va va 0 n.
Proof. intros H1 H2 H3. split_and!; [done|done|]. intros m' _ o flag _ Ho1 Ho2 _. unfold translate. cbn. by rewrite u64_small by lia. Qed.

Definition demo_hart : machine := Mach (fun r => match r with A0 => 0x80010000 | A1 => 0x80010100 | _ => tf_off r end) (fun _ => 0) (store64 ∅ 0x80010100 0x80000abc).

Lemma swtch_roundtrip_witness : exists s', run swtch demo_hart = (Jumps 0x80000abc, s') /\ load64 (ram s') 0x80010008 = 48.
Proof.
  destruct (swtch_roundtrip (fun _ => True) demo_hart 0x80010000 0x80010100) as (s' & H1 & _ & H3 & _).
  - apply bare_window; done.
  - apply bare_window; done.
  - left. done.
  - intros r. destruct r; vm_compute; intuition discriminate.
  - exists s'. split; [rewrite H1; vm_compute; reflexivity|]. exact (proj2 (H3 SP 8 eq_refl)).
Defined.

(** ** Traps in the kernel *)

Definition frame_saved : list (reg * Z) := [
  (RA, 0); (SP, 8); (GP, 16); (TP, 24); (T0, 32); (T1, 40); (T2, 48); (A0, 72); (A1, 80); (A2, 88); (A3, 96); (A4, 104); (A5, 112); (A6, 120);
  (A7, 128); (T3, 216); (T4, 224); (T5, 232); (T6, 240)].
Definition frame_restored : list (reg * Z) := filter (fun e => e.1 <> TP) frame_saved.
Lemma frame_fit : fits 0 256 frame_saved /\ NoDup (frame_saved.*2) /\ fits 0 256 frame_restored /\ NoDup (frame_restored.*1).
Proof. split_and!; [by repeat constructor|apply (bool_decide_unpack _); vm_compute; reflexivity|by repeat constructor|apply (bool_decide_unpack _); vm_compute; reflexivity]. Qed.

(** The registers the C code of kerneltrap() gives back as they were. *)
Definition preserved (r : reg) : bool := match r with SP | S0 | S1 | S2 | S3 | S4 | S5 | S6 | S7 | S8 | S9 | S10 | S11 => true | _ => false end.

Lemma frame_cases r : (exists o, (r, o) ∈ frame_restored) \/ ((r ∉ frame_restored.*1) /\ (preserved r = true \/ r = TP)).
Proof.
  destruct (decide (r ∈ frame_restored.*1)) as [H|H]; [left; apply list_elem_of_fmap in H as ([q o] & -> & H); by exists o|right]. split; [done|].
  revert H. destruct r; try (intros _; by auto); intros []; apply (bool_decide_unpack _); vm_compute; reflexivity.
Qed.
Lemma restored_saved r o : (r, o) ∈ frame_restored -> (r, o) ∈ frame_saved.
Proof. intros H. by apply list_elem_of_filter in H as [_ H]. Qed.

Lemma kernelvec_parts link : kernelvec link = Addi SP SP (-256) :: sds SP frame_saved ++ [Call link].
Proof. reflexivity. Qed.
Lemma kernelvec_end_parts : kernelvec_end = lds SP frame_restored ++ [Addi SP SP 256; Sret].
Proof. reflexivity. Qed.

(** C28: a trap in the kernel.  kernelvec, on a kernel stack with room for 256 bytes, saves the caller-saved registers
    there, writes nothing else and calls kerneltrap().  When that returns as compiled C code does, with the stack
    pointer and the callee-saved registers as they were and the frame untouched, the interrupted kernel code goes on
    with every register as it was before the trap but tp, which keeps the hart the thread is on now. *)
Theorem kernelvec_roundtrip P s pa link : window P (csr s Satp) (ram s) (x s SP - 256) pa 0 256 -> 256 <= x s SP -> (forall r, 0 <= x s r < 2 ^ 64) ->
  exists s', run (kernelvec link) s = (Calls, s') /\ x s' SP = x s SP - 256 /\ x s' RA = link /\ csr s' = csr s /\
    (forall r, r <> SP -> r <> RA -> x s' r = x s r) /\ (forall a, a < pa \/ pa + 256 <= a -> mget (ram s') a = mget (ram s) a) /\
  forall t, window P (csr t Satp) (ram t) (x s SP - 256) pa 0 256 -> (forall r, preserved r = true -> x t r = x s' r) ->
  (forall a, pa <= a < pa + 256 -> mget (ram t) a = mget (ram s') a) ->
  exists t', run kernelvec_end t = (Returns, t') /\ ram t' = ram t /\ csr t' = csr t /\ forall r, x t' r = if decide (r = TP) then x t TP else x s r.
Proof.
  intros W Hsp Hx. destruct frame_fit as (F1 & N1 & F2 & N2). rewrite kernelvec_parts, run_addi. set (s1 := setx SP _ s). pose proof (Hx SP) as HxSP.
  assert (x s1 SP = x s SP - 256) as E1 by (unfold s1, setx; cbn [x]; rewrite regs_eq; apply u64_small; lia).
  assert (forall r, r <> SP -> x s1 r = x s r) as E2 by (intros r Hr; unfold s1, setx; cbn [x]; by apply regs_ne).
  assert (csr s1 = csr s /\ ram s1 = ram s) as [E3 E4] by done. clearbody s1. rewrite (run_stores P SP _ pa 0 256) by (rewrite ?E1, ?E3, ?E4; done). rewrite E4. set (m := store_all _ _ _ _).
  exists (setx RA link (setram m s1)). split; [done|]. unfold setx. cbn [x csr ram setram]. rewrite regs_eq, regs_ne, E1 by done. split_and!; [done|done|done| | |].
  - intros r H1 H2. rewrite regs_ne by done. by apply E2.
  - intros a Ha. apply (store_all_fits _ _ 0 256); [done|lia].
  - intros t Wt Hp Hk. assert (x t SP = x s SP - 256) as ET by (rewrite Hp, regs_ne, E1 by done; done).
    assert (forall r o, (r, o) ∈ frame_saved -> load64 (ram t) (pa + o) = x s1 r) as Hl.
    { intros r o Hin. assert (load64 (ram t) (pa + o) = load64 m (pa + o)) as ->.
      { apply load64_ext. intros b Hb. apply Hk. unfold fits in F1. rewrite Forall_forall in F1. pose proof (F1 _ Hin) as Hfo. cbn in Hfo. lia. }
      unfold m. rewrite (store_all_in _ pa 0 256 r) by done. apply u64_small. destruct (decide (r = SP)) as [->|Hne]; [rewrite E1; lia|]. rewrite E2 by done. apply Hx. }
    rewrite kernelvec_end_parts. rewrite (run_loads P SP _ pa 0 256); [|by rewrite ET|done|intros o Ho; apply restored_saved in Ho; by rewrite (Hl SP o Ho), E1, ET].
    rewrite run_addi. eexists. split; [reflexivity|]. split; [done|]. split; [done|]. unfold setx. cbn [x].
    assert (forall r, load_all (x t) (ram t) pa frame_restored r = if decide (r = TP) then x t TP else x s1 r) as Hr.
    { intros r. destruct (frame_cases r) as [[o Ho]|[Hn Hpr]].
      - rewrite (load_all_in _ pa r o) by done. rewrite decide_False by (intros ->; by apply list_elem_of_filter in Ho as [? _]). by apply Hl, restored_saved.
      - rewrite load_all_out by done. destruct (decide (r = TP)) as [->|Hne]; [done|]. destruct Hpr as [Hpr|]; [|done]. rewrite Hp by done. rewrite regs_ne; [done|]. by intros ->. }
    intros r. destruct (decide (r = SP)) as [->|Hne]; [rewrite regs_eq, Hr, !decide_False, E1 by done; rewrite u64_small; lia|]. rewrite regs_ne, Hr by done. destruct (decide (r = TP)); [done|]. by apply E2.
Qed.

Lemma kernelvec_roundtrip_witness : exists s', run (kernelvec 0x80005000) (setx SP 0x80020000 demo_hart) = (Calls, s') /\ x s' SP = 0x8001ff00 /\
  exists t', run kernelvec_end s' = (Returns, t') /\ x t' A1 = 0x80010100.
Proof.
  destruct (kernelvec_roundtrip (fun _ => True) (setx SP 0x80020000 demo_hart) 0x8001ff00 0x80005000) as (s' & H1 & H2 & _ & Hc & _ & _ & Ht).
  - apply bare_window; done.
  - vm_compute. discriminate.
  - intros r. destruct r; vm_compute; intuition discriminate.
  - exists s'. split; [exact H1|]. split; [exact H2|]. destruct (Ht s') as (t' & K1 & _ & _ & K2); [rewrite Hc; apply bare_window; done|done|done|].
    exists t'. split; [exact K1|]. exact (K2 A1).
Defined.

(** ** Booting *)

Lemma x_setx_eq r v s : x (setx r v s) r = v. Proof. apply regs_eq. Qed.
Lemma x_setx_ne r v s q : q <> r -> x (setx r v s) q = x s q. Proof. apply regs_ne. Qed.
Lemma x_setc c v s : x (setc c v s) = x s. Proof. done. Qed.
Lemma csr_setx r v s : csr (setx r v s) = csr s. Proof. done. Qed.
Lemma csr_setc_eq c v s : csr (setc c v s) c = v. Proof. apply regs_eq. Qed.
Lemma csr_setc_ne c v s d : d <> c -> csr (setc c v s) d = csr s d. Proof. apply regs_ne. Qed.
Ltac regs := repeat first [rewrite x_setx_eq | rewrite x_setx_ne by done | rewrite x_setc | rewrite csr_setx | rewrite csr_setc_eq | rewrite csr_setc_ne by done].

Lemma start_regs main s : exists t, start main s = ((Z.land (Z.shiftr (Z.lor (Z.land (csr s Mstatus) (Z.lnot MSTATUS_MPP_MASK)) MSTATUS_MPP_S) 11) 3, main), t) /\
  x t SP = x s SP /\ x t TP = u64 (s32 (csr s Mhartid)) /\ csr t Satp = 0 /\ csr t Sie = Z.lor (Z.lor (Z.lor (csr s Sie) SIE_SEIE) SIE_STIE) SIE_SSIE /\
  csr t Pmpaddr0 = 0x3fffffffffffff /\ csr t Stimecmp = u64 (csr s Time + 1000000).
Proof. exists (snd (start main s)). split_and!; reflexivity. Qed.

(** entry.S gives each hart its own page of stack0, and start() goes on in main() in supervisor mode without paging,
    with the hart id in tp, all of memory accessible and the supervisor's interrupts enabled. *)
Theorem boot_correct s stack0 link main : 0 <= csr s Mhartid < NCPU -> 0 <= stack0 -> stack0 + NCPU * 4096 < 2 ^ 64 ->
  exists s', run (entry stack0 link) s = (Calls, s') /\ x s' SP = stack0 + (csr s Mhartid + 1) * 4096 /\
  exists t, start main s' = ((1, main), t) /\ x t SP = x s' SP /\ x t TP = csr s Mhartid /\ csr t Satp = 0 /\
    Z.land (csr t Sie) 0x222 = 0x222 /\ csr t Pmpaddr0 = 2 ^ 54 - 1 /\ csr t Stimecmp = u64 (csr s Time + 1000000).
Proof.
  intros Hh H0 Hs. unfold NCPU in *. unfold entry. rewrite !run_li, run_csrr, run_addi, run_mul, run_add, run_call. eexists. split; [reflexivity|]. regs. split.
  - rewrite (u64_small (csr s Mhartid + 1)) by lia. rewrite (u64_small (_ * _)) by lia. rewrite u64_small by lia. lia.
  - set (s' := setx RA link _). destruct (start_regs main s') as (t & Ht & H1 & H2 & H3 & H4 & H5 & H6). exists t. rewrite Ht, H1, H2, H4, H5, H6. unfold s'. regs. split_and!; try done.
    + f_equal. f_equal. apply Z.bits_inj'. intros k Hk. unfold MSTATUS_MPP_MASK, MSTATUS_MPP_S. rewrite Z.land_spec, Z.shiftr_spec, Z.lor_spec, Z.land_spec, Z.lnot_spec by lia.
      destruct (Z.eq_dec k 0) as [->|K1]; [change (Z.testbit (Z.shiftl 1 11) (0 + 11)) with true; by rewrite orb_true_r|].
      destruct (Z.eq_dec k 1) as [->|K2]; [change (Z.testbit (Z.shiftl 3 11) (1 + 11)) with true; by rewrite andb_false_r|].
      rewrite (Z.bits_above_log2 3 k), (Z.bits_above_log2 1 k) by (cbn; lia). apply andb_false_r.
    + rewrite s32_id, u64_small by lia. done.
    + rewrite <- Z.lor_assoc, <- Z.lor_assoc. rewrite Z.land_lor_distr_l. change (Z.land (Z.lor SIE_SEIE (Z.lor SIE_STIE SIE_SSIE)) 546) with 546.
      apply Z.bits_inj'. intros k Hk. rewrite Z.lor_spec, Z.land_spec. destruct (Z.testbit 546 k); [by rewrite orb_true_r|by rewrite andb_false_r].
Qed.
