(* ===== verification/Initcode.v ===== *)
(** The first user program: user/initcode.S, and its bytes in kernel/proc.c.

    [decode] reads the four kinds of instructions the program is made of, in the RV64I encoding. *)
From S2P Require Import Prelude Machine CString Printf Proc Kernel Fork Syscall.
Local Open Scope Z_scope.

Inductive uinstr : Type := Auipc (rd imm : Z) | Addi (rd rs imm : Z) | Ecall | Jal (rd off : Z).

(** [n] bits of [v] from bit [i] on. *)
Definition field (v i n : Z) : Z := Z.land (Z.shiftr v i) (Z.ones n).
Definition signed (n v : Z) : Z := if v <? 2 ^ (n - 1) then v else v - 2 ^ n.

Definition decode (v : Z) : option uinstr :=
  let rd := field v 7 5 in
  if field v 0 7 =? 0x17 then Some (Auipc rd (signed 20 (field v 12 20)))
  else if (field v 0 7 =? 0x13) && (field v 12 3 =? 0) then Some (Addi rd (field v 15 5) (signed 12 (field v 20 12)))
  else if v =? 0x73 then Some Ecall
  else if field v 0 7 =? 0x6f then
    Some (Jal rd (signed 21 (Z.lor (Z.lor (Z.shiftl (field v 31 1) 20) (Z.shiftl (field v 12 8) 12)) (Z.lor (Z.shiftl (field v 20 1) 11) (Z.shiftl (field v 21 10) 1)))))
  else None.

Definition A0 : Z := 10.
Definition A1 : Z := 11.
Definition A7 : Z := 17.

(** user/initcode.S with the labels [init], [argv] and [exit]: la is auipc and addi, li is addi from x0. *)
Definition la (rd at_ sym : Z) : list uinstr := [Auipc rd 0; Addi rd rd (sym - at_)].
Definition initcode_S (init argv exit : Z) : list uinstr :=
  la A0 0 init ++
  la A1 8 argv ++
  [Addi A7 0 SYS_exec; Ecall] ++
  [Addi A7 0 SYS_exit; Ecall; Jal 1 (exit - 32)].

(** *** Running it *)

Record ustate : Type := UState { upc : Z; ureg : Z -> Z }.
Definition rget (s : ustate) (r : Z) : Z := if r =? 0 then 0 else ureg s r.
Definition rset (r v : Z) (s : ustate) : ustate := UState (upc s) (fun q => if q =? r then v else ureg s q).
Definition adv (pc : Z) (s : ustate) : ustate := UState pc (ureg s).

(** Runs to the next ecall. *)
Fixpoint until_ecall (fuel : nat) (m : gmap Z Z) (s : ustate) : option ustate :=
  match fuel with
  | O => None
  | S f =>
      match decode (loadn 4 m (upc s)) with
      | Some (Auipc rd imm) => until_ecall f m (adv (upc s + 4) (rset rd (u64 (upc s + imm * 4096)) s))
      | Some (Addi rd rs imm) => until_ecall f m (adv (upc s + 4) (rset rd (u64 (rget s rs + imm)) s))
      | Some (Jal rd off) => until_ecall f m (adv (u64 (upc s + off)) (rset rd (u64 (upc s + 4)) s))
      | Some Ecall => Some s
      | None => None
      end
  end.

(** The page userinit() makes. *)
Definition init_page : gmap Z Z := put_bytes ∅ 0 initcode.

Lemma initcode_decodes : map (fun i => decode (loadn 4 init_page (Z.of_nat i * 4))) (seq 0 9) = map Some (initcode_S 36 43 24).
Proof. vm_compute. reflexivity. Qed.

(** the bytes of initcode are the instructions of initcode.S, and the first process calls exec with the address of
    the string /init and of an argument array that holds that address and a null pointer.  If exec comes back, with
    whatever registers, the process calls exit, and again if exit came back. *)
Theorem initcode_correct :
  map (fun i => decode (loadn 4 init_page (Z.of_nat i * 4))) (seq 0 9) = map Some (initcode_S 36 43 24) /\
  (forall r, exists s, until_ecall 10 init_page (UState 0 r) = Some s /\ upc s = 20 /\ rget s A7 = SYS_exec /\ rget s A0 = 36 /\ rget s A1 = 43) /\
  bytes_of init_page 36 6 = str "/init" ++ [0] /\ load64 init_page 43 = 36 /\ load64 init_page 51 = 0 /\
  (forall r, exists s, until_ecall 10 init_page (UState 24 r) = Some s /\ upc s = 28 /\ rget s A7 = SYS_exit) /\
  (forall r, exists s, until_ecall 10 init_page (UState 32 r) = Some s /\ upc s = 28 /\ rget s A7 = SYS_exit).
Proof.
  split; [apply initcode_decodes|]. split; [intros r; eexists; split; [vm_compute; reflexivity|]; vm_compute; done|]. split; [vm_compute; reflexivity|]. split; [vm_compute; reflexivity|]. split; [vm_compute; reflexivity|].
  split; intros r; eexists; (split; [vm_compute; reflexivity|]; vm_compute; done).
Qed.
