(* ===== verification/UserLib.v ===== *)
(** The user library of user/ulib.c, over the memory of a process.

    A pointer is an address and a routine that writes returns the new memory.  The loops that look for a NUL are
    unbounded in the source: they take fuel and return [None] when it runs out, and the theorems show that any
    fuel beyond the length of the string is enough.  [str_at] says what string an address holds. *)
From S2P Require Import Prelude Machine.
Local Open Scope Z_scope.

(** ** The routines *)

(** [while(( *s++ = *t++) != 0);] *)
Fixpoint strcpy (fuel : nat) (m : gmap Z Z) (s t : Z) : option (gmap Z Z) :=
  match fuel with
  | O => None
  | S f =>
      let c := mget m t in
      let m := mset m s c in
      if c =? 0 then Some m else strcpy f m (s + 1) (t + 1)
  end.

Fixpoint strcmp (fuel : nat) (m : gmap Z Z) (p q : Z) : option Z :=
  match fuel with
  | O => None
  | S f =>
      if negb (mget m p =? 0) && (mget m p =? mget m q) then strcmp f m (p + 1) (q + 1)
      else Some (mget m p - mget m q)
  end.

Fixpoint strlen_loop (fuel : nat) (m : gmap Z Z) (s n : Z) : option Z :=
  match fuel with
  | O => None
  | S f => if mget m (s + n) =? 0 then Some n else strlen_loop f m s (n + 1)
  end.
Definition strlen (fuel : nat) (m : gmap Z Z) (s : Z) : option Z := strlen_loop fuel m s 0.

Fixpoint memset_loop (k : nat) (i : Z) (m : gmap Z Z) (dst c : Z) : gmap Z Z :=
  match k with
  | O => m
  | S k' => memset_loop k' (i + 1) (mset m (dst + i) c) dst c
  end.
Definition memset (m : gmap Z Z) (dst c n : Z) : gmap Z Z := memset_loop (Z.to_nat n) 0 m dst c.

(** The address of the character, or 0. *)
Fixpoint strchr (fuel : nat) (m : gmap Z Z) (s c : Z) : option Z :=
  match fuel with
  | O => None
  | S f => if mget m s =? 0 then Some 0 else if mget m s =? u8 c then Some s else strchr f m (s + 1) c
  end.

(** gets() on what read() of the console returns: the bytes that are to come, an end of file after them. *)
Fixpoint gets_loop (k : nat) (m : gmap Z Z) (buf i : Z) (input : list Z) : gmap Z Z * Z * list Z :=
  match k with
  | O => (m, i, input)
  | S k' =>
      match input with
      | [] => (m, i, [])
      | c :: input' =>
          let m := mset m (buf + i) c in
          if (c =? 10) || (c =? 13) then (m, i + 1, input') else gets_loop k' m buf (i + 1) input'
      end
  end.
Definition gets (m : gmap Z Z) (buf max : Z) (input : list Z) : gmap Z Z * list Z :=
  let '(m, i, input) := gets_loop (Z.to_nat (max - 1)) m buf 0 input in
  (mset m (buf + i) 0, input).

(** stat() over the system calls of the world [W]. *)
Definition stat {W : Type} (open : Z -> Z -> W -> Z * W) (fstat : Z -> Z -> W -> Z * W) (close : Z -> W -> Z * W) (n st : Z) (w : W) : Z * W :=
  let '(fd, w) := open n 0 w in
  if fd <? 0 then (-1, w)
  else
    let '(r, w) := fstat fd st w in
    let '(_, w) := close fd w in
    (r, w).

Fixpoint atoi_loop (fuel : nat) (m : gmap Z Z) (s n : Z) : option Z :=
  match fuel with
  | O => None
  | S f =>
      let c := mget m s in
      if (48 <=? c) && (c <=? 57) then atoi_loop f m (s + 1) (s32 (n * 10 + c - 48)) else Some n
  end.
Definition atoi (fuel : nat) (m : gmap Z Z) (s : Z) : option Z := atoi_loop fuel m s 0.

Fixpoint move_up (n : nat) (m : gmap Z Z) (d s : Z) : gmap Z Z :=
  match n with O => m | S n' => move_up n' (mset m d (mget m s)) (d + 1) (s + 1) end.
Fixpoint move_down (n : nat) (m : gmap Z Z) (d s : Z) : gmap Z Z :=
  match n with O => m | S n' => move_down n' (mset m (d - 1) (mget m (s - 1))) (d - 1) (s - 1) end.
Definition memmove (m : gmap Z Z) (dst src n : Z) : gmap Z Z :=
  if src >? dst then move_up (Z.to_nat n) m dst src else move_down (Z.to_nat n) m (dst + n) (src + n).

Fixpoint memcmp_loop (n : nat) (m : gmap Z Z) (p1 p2 : Z) : Z :=
  match n with
  | O => 0
  | S n' => if negb (mget m p1 =? mget m p2) then mget m p1 - mget m p2 else memcmp_loop n' m (p1 + 1) (p2 + 1)
  end.
Definition memcmp (m : gmap Z Z) (s1 s2 n : Z) : Z := memcmp_loop (Z.to_nat n) m s1 s2.
Definition memcpy (m : gmap Z Z) (dst src n : Z) : gmap Z Z := memmove m dst src n.

(** ** Strings in memory *)

Fixpoint str_at (m : gmap Z Z) (p : Z) (l : list Z) : Prop :=
  match l with
  | [] => mget m p = 0
  | c :: l' => mget m p = c /\ c <> 0 /\ str_at m (p + 1) l'
  end.

Lemma str_at_ext m m' l : forall p, (forall a, p <= a <= p + Z.of_nat (length l) -> mget m' a = mget m a) -> str_at m p l -> str_at m' p l.
Proof.
  induction l as [|c l IH]; intros p H; cbn [str_at length] in *; [rewrite H by lia; done|].
  intros (H1 & H2 & H3). rewrite H by lia. split; [done|]. split; [done|]. apply IH; [|done]. intros a Ha. apply H. lia.
Qed.

Lemma str_at_range m l : forall p, str_at m p l -> Forall (fun c => 0 < c < 256) l.
Proof.
  induction l as [|c l IH]; intros p; cbn [str_at]; [constructor|]. intros (H1 & H2 & H3). constructor; [|by eapply IH].
  pose proof (mget_range m p). lia.
Qed.

Lemma str_at_byte m l : forall p i c, str_at m p l -> l !! i = Some c -> mget m (p + Z.of_nat i) = c.
Proof.
  induction l as [|x l IH]; intros p i c; cbn [str_at]; [done|]. intros (H1 & H2 & H3). destruct i as [|i]; cbn.
  - intros [= <-]. by rewrite Z.add_0_r.
  - intros H. rewrite <- (IH (p + 1) i c H3 H). f_equal. lia.
Qed.

Lemma str_at_nul m l : forall p, str_at m p l -> mget m (p + Z.of_nat (length l)) = 0.
Proof.
  induction l as [|x l IH]; intros p; cbn [str_at length]; [by rewrite Z.add_0_r|]. intros (_ & _ & H3). rewrite <- (IH (p + 1) H3). f_equal. lia.
Qed.

(** An address holds one string. *)
Lemma str_at_fun m l : forall p l', str_at m p l -> str_at m p l' -> l = l'.
Proof.
  induction l as [|c l IH]; intros p [|c' l']; cbn [str_at]; [done|naive_solver..|]. intros (H1 & _ & H3) (H1' & _ & H3'). f_equal; [congruence|by eapply IH].
Qed.

(** ** What the routines do *)

Lemma strlen_loop_ok m s l : forall n fuel, str_at m (s + n) l -> (length l < fuel)%nat -> strlen_loop fuel m s n = Some (n + Z.of_nat (length l)).
Proof.
  induction l as [|c l IH]; intros n fuel H Hf; destruct fuel as [|f]; try lia; cbn [strlen_loop str_at length] in *; [rewrite H; cbn; f_equal; lia|].
  destruct H as (-> & H2 & H3). rewrite (proj2 (Z.eqb_neq _ _) H2). rewrite IH; [f_equal; lia| |lia]. by rewrite Z.add_assoc.
Qed.
Lemma strlen_ok m s l fuel : str_at m s l -> (length l < fuel)%nat -> strlen fuel m s = Some (Z.of_nat (length l)).
Proof. intros H Hf. unfold strlen. by rewrite (strlen_loop_ok m s l) by (by rewrite ?Z.add_0_r). Qed.

Lemma strcmp_ok m l : forall p q l' fuel, str_at m p l -> str_at m q l' -> (length l < fuel)%nat ->
  exists r, strcmp fuel m p q = Some r /\ (r = 0 <-> l = l').
Proof.
  induction l as [|c l IH]; intros p q l' fuel Hp Hq Hf; destruct fuel as [|f]; try lia; cbn [strcmp str_at length] in *.
  - rewrite Hp. cbn. eexists. split; [done|]. destruct l' as [|c' l']; cbn [str_at] in Hq; [rewrite Hq; done|]. destruct Hq as (-> & ? & _). split; [lia|done].
  - destruct Hp as (-> & H2 & H3). rewrite (proj2 (Z.eqb_neq _ _) H2). cbn [negb andb]. destruct l' as [|c' l']; cbn [str_at] in Hq.
    + rewrite Hq, (proj2 (Z.eqb_neq _ _) H2). eexists. split; [done|]. split; [lia|done].
    + destruct Hq as (-> & Hq2 & Hq3). destruct (Z.eqb_spec c c') as [->|Hne].
      * destruct (IH (p + 1) (q + 1) l' f H3 Hq3 ltac:(lia)) as (r & Hr & E). exists r. split; [done|]. rewrite E. split; congruence.
      * eexists. split; [done|]. split; [lia|congruence].
Qed.

Lemma strcpy_ok l : forall m s t fuel, str_at m t l -> (length l < fuel)%nat -> (s + Z.of_nat (length l) < t \/ t + Z.of_nat (length l) < s) ->
  exists m', strcpy fuel m s t = Some m' /\ str_at m' s l /\ forall a, a < s \/ s + Z.of_nat (length l) < a -> mget m' a = mget m a.
Proof.
  induction l as [|c l IH]; intros m s t fuel H Hf Hd; destruct fuel as [|f]; try lia; cbn [strcpy str_at length] in *.
  - rewrite H. cbn. eexists. split; [done|]. split; [by rewrite mget_mset_eq|]. intros a Ha. apply mget_mset_ne. lia.
  - pose proof (mget_range m t). destruct H as (E & H2 & H3). rewrite E, (proj2 (Z.eqb_neq _ _) H2).
    destruct (IH (mset m s c) (s + 1) (t + 1) f) as (m' & Hr & Hs & Ho); [|lia|lia|].
    { eapply str_at_ext; [|exact H3]. intros a Ha. apply mget_mset_ne. lia. }
    exists m'. split; [done|]. split.
    + rewrite Ho, mget_mset_eq, u8_small by lia. done.
    + intros a Ha. rewrite Ho by lia. apply mget_mset_ne. lia.
Qed.

(** strchr() finds the first occurrence. *)
Lemma strchr_ok m c l : forall s fuel, str_at m s l -> (length l < fuel)%nat -> 0 <= c < 256 ->
  match list_find (fun x => x = c) l with
  | Some (i, _) => strchr fuel m s c = Some (s + Z.of_nat i)
  | None => strchr fuel m s c = Some 0
  end.
Proof.
  induction l as [|x l IH]; intros s fuel H Hf Hc; destruct fuel as [|f]; try lia; cbn [strchr str_at length list_find] in *; [by rewrite H|].
  destruct H as (-> & H2 & H3). rewrite (proj2 (Z.eqb_neq _ _) H2), (u8_small c) by done.
  destruct (decide (x = c)) as [->|Hne]; [rewrite Z.eqb_refl, Z.add_0_r; done|]. rewrite (proj2 (Z.eqb_neq _ _) Hne).
  specialize (IH (s + 1) f H3 ltac:(lia) Hc). destruct (list_find _ l) as [[i y]|]; cbn; [|done]. rewrite IH. f_equal. lia.
Qed.

Lemma memset_loop_bytes k : forall i m dst c b,
  mget (memset_loop k i m dst c) b = if (dst + i <=? b) && (b <? dst + i + Z.of_nat k) then u8 c else mget m b.
Proof.
  induction k as [|k IH]; intros i m dst c b; cbn [memset_loop]; [case_match eqn:E; [lia|done]|]. rewrite IH. destruct (decide (b = dst + i)) as [->|Hne].
  - rewrite mget_mset_eq. do 2 case_match; lia || done.
  - rewrite mget_mset_ne by lia. do 2 case_match; lia || done.
Qed.
Lemma memset_bytes m dst c n b : 0 <= n -> mget (memset m dst c n) b = if (dst <=? b) && (b <? dst + n) then u8 c else mget m b.
Proof. intros Hn. unfold memset. rewrite memset_loop_bytes. by rewrite Z.add_0_r, Z2Nat.id by lia. Qed.

(** memmove() copies the old bytes whether or not the areas overlap. *)
Lemma move_up_bytes n : forall m d s b, d < s \/ s + Z.of_nat n <= d ->
  mget (move_up n m d s) b = if (d <=? b) && (b <? d + Z.of_nat n) then mget m (s + (b - d)) else mget m b.
Proof.
  induction n as [|n IH]; intros m d s b H; cbn [move_up]; [case_match eqn:E; [lia|done]|]. rewrite IH by lia. destruct (decide (b = d)) as [->|Hne].
  - rewrite mget_mset_eq, u8_small by apply mget_range. do 2 case_match; try lia. f_equal; lia.
  - rewrite (mget_mset_ne _ d b) by lia. case_match eqn:E1; case_match eqn:E2; try lia. rewrite mget_mset_ne by lia. f_equal; lia.
Qed.
Lemma move_down_bytes n : forall m d s b, s <= d ->
  mget (move_down n m d s) b = if (d - Z.of_nat n <=? b) && (b <? d) then mget m (s + (b - d)) else mget m b.
Proof.
  induction n as [|n IH]; intros m d s b H; cbn [move_down]; [case_match eqn:E; [lia|done]|]. rewrite IH by lia. destruct (decide (b = d - 1)) as [->|Hne].
  - rewrite mget_mset_eq, u8_small by apply mget_range. do 2 case_match; try lia. f_equal; lia.
  - rewrite (mget_mset_ne _ (d - 1) b) by lia. case_match eqn:E1; case_match eqn:E2; try lia. rewrite mget_mset_ne by lia. f_equal; lia.
Qed.
Lemma memmove_bytes m dst src n b : 0 <= n -> mget (memmove m dst src n) b = if (dst <=? b) && (b <? dst + n) then mget m (src + (b - dst)) else mget m b.
Proof.
  intros Hn. unfold memmove. destruct (Z.gtb_spec src dst).
  - rewrite move_up_bytes by lia. by rewrite Z2Nat.id by lia.
  - rewrite move_down_bytes, Z2Nat.id by lia. replace (dst + n - n) with dst by lia. case_match; [|done]. f_equal. lia.
Qed.

Lemma memcmp_loop_zero n : forall m p q, memcmp_loop n m p q = 0 <-> forall i, 0 <= i < Z.of_nat n -> mget m (p + i) = mget m (q + i).
Proof.
  induction n as [|n IH]; intros m p q; cbn [memcmp_loop]; [split; [lia|done]|]. destruct (Z.eqb_spec (mget m p) (mget m q)) as [E|E]; cbn [negb].
  - rewrite IH. split; intros H i Hi.
    + destruct (decide (i = 0)) as [->|]; [by rewrite !Z.add_0_r|]. replace (p + i) with (p + 1 + (i - 1)) by lia. replace (q + i) with (q + 1 + (i - 1)) by lia. apply H. lia.
    + replace (p + 1 + i) with (p + (i + 1)) by lia. replace (q + 1 + i) with (q + (i + 1)) by lia. apply H. lia.
  - split; [lia|]. intros H. specialize (H 0 ltac:(lia)). rewrite !Z.add_0_r in H. done.
Qed.

(** The value of decimal digits, and atoi() on them. *)
Definition dec (n : Z) (l : list Z) : Z := foldl (fun n c => n * 10 + c - 48) n l.
Definition is_digit (c : Z) : Prop := 48 <= c <= 57.

Lemma dec_le l : forall n, Forall is_digit l -> 0 <= n -> n <= dec n l.
Proof. induction l as [|c l IH]; intros n; cbn; [lia|]. intros [H1 H2]%Forall_cons Hn. unfold is_digit in H1. pose proof (IH (n * 10 + c - 48) H2 ltac:(lia)). unfold dec in *. lia. Qed.

Lemma atoi_ok m ds : forall s rest fuel n, str_at m s (ds ++ rest) -> Forall is_digit ds -> (forall c r, rest = c :: r -> ~ is_digit c) ->
  (length ds < fuel)%nat -> 0 <= n -> dec n ds < 2 ^ 31 -> atoi_loop fuel m s n = Some (dec n ds).
Proof.
  induction ds as [|c ds IH]; intros s rest fuel n Hs Hd Hr Hf Hn Hb; destruct fuel as [|f]; try (cbn in Hf; lia); cbn [atoi_loop app length str_at] in *.
  - assert (~ is_digit (mget m s)) as Hnd.
    { destruct rest as [|c r]; cbn [str_at] in Hs; [rewrite Hs; unfold is_digit; lia|]. destruct Hs as (-> & _). by eapply Hr. }
    unfold is_digit in Hnd. case_match; [lia|done].
  - destruct Hs as (-> & _ & Hs). apply Forall_cons in Hd as [Hc Hd]. unfold is_digit in Hc. case_match; [|lia]. cbn [dec foldl] in *. fold (dec (n * 10 + c - 48) ds) in *.
    pose proof (dec_le ds (n * 10 + c - 48) Hd ltac:(lia)). replace (s32 (n * 10 + c - 48)) with (n * 10 + c - 48) by (unfold s32; case_match; zlia).
    apply (IH (s + 1) rest); try done; lia.
Qed.
