(* ===== verification/UserPrintf.v ===== *)
(** Formatted output of user programs, user/printf.c.

    putc() writes one byte to the descriptor: the output is the list of the bytes.  A format is the list of its bytes
    without the NUL, the variable arguments are the values in the argument registers; [None] is a run that C leaves
    undefined: a store beyond the buffer of printint() or an argument that is missing. *)
From S2P Require Import Prelude Printf.
Local Open Scope Z_scope.

Definition udigits (d : Z) : Z := nth (Z.to_nat d) (str "0123456789ABCDEF") 0.

(** The do-while loop of printint(); [buf] holds what it has stored, the newest byte first. *)
Fixpoint udigit_loop (fuel : nat) (x base : Z) (buf : list Z) : list Z :=
  match fuel with
  | O => buf
  | S f =>
      let buf := udigits (x mod base) :: buf in
      let x := x / base in
      if x =? 0 then buf else udigit_loop f x base buf
  end.

(** The parameter xx is an int: an argument of 64 bits is cut to it. *)
Definition uprintint (arg base : Z) (sgn : bool) : option (list Z) :=
  let xx := s32 arg in
  let neg := sgn && (xx <? 0) in
  let x := if neg then u32 (- xx) else u32 xx in
  let buf := udigit_loop 32 x base [] in
  let buf := if neg then 45 :: buf else buf in
  if (length buf <=? 16)%nat then Some buf else None.

Fixpoint uprintptr_loop (k : nat) (x : Z) : list Z :=
  match k with O => [] | S k' => udigits (Z.shiftr x 60) :: uprintptr_loop k' (u64 (Z.shiftl x 4)) end.
Definition uprintptr (x : Z) : list Z := 48 :: 120 :: uprintptr_loop 16 x.

(** One conversion: what is written, how far i moves on, and the arguments that are left. *)
Definition uconvert (c0 c1 c2 : Z) (ap : list varg) : option (list Z * nat * list varg) :=
  let num (k : nat) (base : Z) (sgn : bool) :=
    match ap with VInt x :: ap' => match uprintint x base sgn with Some o => Some (o, k, ap') | None => None end | _ => None end in
  if c0 =? ch_d then num 0%nat 10 true
  else if (c0 =? ch_l) && (c1 =? ch_d) then num 1%nat 10 true
  else if (c0 =? ch_l) && (c1 =? ch_l) && (c2 =? ch_d) then num 2%nat 10 true
  else if c0 =? ch_u then num 0%nat 10 false
  else if (c0 =? ch_l) && (c1 =? ch_u) then num 1%nat 10 false
  else if (c0 =? ch_l) && (c1 =? ch_l) && (c2 =? ch_u) then num 2%nat 10 false
  else if c0 =? ch_x then num 0%nat 16 false
  else if (c0 =? ch_l) && (c1 =? ch_x) then num 1%nat 16 false
  else if (c0 =? ch_l) && (c1 =? ch_l) && (c2 =? ch_x) then num 2%nat 16 false
  else if c0 =? ch_p then match ap with VInt x :: ap' => Some (uprintptr (u64 x), 0%nat, ap') | _ => None end
  else if c0 =? ch_s then match ap with VStr s :: ap' => Some (match s with Some s => s | None => str "(null)" end, 0%nat, ap') | _ => None end
  else if c0 =? ch_percent then Some ([ch_percent], 0%nat, ap)
  else Some ([ch_percent; c0], 0%nat, ap).

(** The loop of vprintf(); [pct] is the state after a percent sign. *)
Fixpoint vprintf_loop (fuel : nat) (fmt : list Z) (i : nat) (pct : bool) (ap : list varg) : option (list Z) :=
  let c0 := nth i fmt 0 in
  if c0 =? 0 then Some []
  else
    match fuel with
    | O => None
    | S f =>
        if negb pct then
          if c0 =? ch_percent then vprintf_loop f fmt (i + 1) true ap
          else match vprintf_loop f fmt (i + 1) false ap with Some o => Some (c0 :: o) | None => None end
        else
          let c1 := nth (i + 1) fmt 0 in
          let c2 := if c1 =? 0 then 0 else nth (i + 2) fmt 0 in
          match uconvert c0 c1 c2 ap with
          | None => None
          | Some (o, k, ap) => match vprintf_loop f fmt (i + k + 1) false ap with Some o' => Some (o ++ o') | None => None end
          end
    end.
Definition vprintf (fmt : list Z) (ap : list varg) : option (list Z) := vprintf_loop (length fmt) fmt 0 false ap.

(** ** printint() *)

(** The digits are those of the kernel's printint(), in capitals. *)
Definition capital (c : Z) : Z := if 97 <=? c then c - 32 else c.

Lemma udigits_capital d : 0 <= d < 16 -> udigits d = capital (digits d).
Proof.
  intros Hd. assert (Forall (fun d => udigits d = capital (digits d)) (map Z.of_nat (seq 0 16))) as H by (repeat constructor).
  rewrite Forall_forall in H. apply H. apply list_elem_of_fmap. exists (Z.to_nat d). split; [lia|]. apply elem_of_seq. lia.
Qed.
Lemma udigit_loop_capital base fuel : 2 <= base <= 16 -> forall x buf, udigit_loop fuel x base (map capital buf) = map capital (digit_loop fuel x base buf).
Proof.
  intros Hb. induction fuel as [|f IH]; intros x buf; cbn [udigit_loop digit_loop]; [done|]. pose proof (Z.mod_pos_bound x base ltac:(lia)).
  rewrite udigits_capital by lia. change (capital (digits (x mod base)) :: map capital buf) with (map capital (digits (x mod base) :: buf)). destruct (x / base =? 0); [done|]. apply IH.
Qed.

Lemma decimal_capital x fuel : map capital (digit_loop fuel x 10 []) = digit_loop fuel x 10 [].
Proof.
  assert (forall fuel x buf, map capital buf = buf -> map capital (digit_loop fuel x 10 buf) = digit_loop fuel x 10 buf) as H; [|by apply H].
  clear. induction fuel as [|f IH]; intros x buf Hbuf; cbn [digit_loop]; [done|]. pose proof (Z.mod_pos_bound x 10 ltac:(lia)) as Hm.
  assert (capital (digits (x mod 10)) = digits (x mod 10)) as Hd.
  { assert (Forall (fun d => capital (digits d) = digits d) (map Z.of_nat (seq 0 10))) as H by (repeat constructor).
    rewrite Forall_forall in H. apply H. apply list_elem_of_fmap. exists (Z.to_nat (x mod 10)). split; [lia|]. apply elem_of_seq. lia. }
  assert (map capital (digits (x mod 10) :: buf) = digits (x mod 10) :: buf) as Hb by (cbn [map]; by rewrite Hd, Hbuf).
  destruct (x / 10 =? 0); [done|]. by apply IH.
Qed.

(** A number of 32 bits has at most ten digits in either base. *)
Lemma udigit_loop_32 base x : base = 10 \/ base = 16 -> 0 <= x < 2 ^ 32 ->
  exists l, udigit_loop 32 x base [] = l /\ (length l <= 10)%nat /\
    (base = 10 -> l <> [] /\ Forall (fun c => 48 <= c) l /\ read_digits 10 l = x).
Proof.
  intros Hb Hx. assert (2 <= base <= 16) as Hbb by lia. assert (0 < 32)%nat as H0 by lia.
  pose proof (udigit_loop_capital base 32 Hbb x []) as EC. change (map capital []) with (@nil Z) in EC.
  assert (2 ^ 32 <= base ^ 10) as H10 by (destruct Hb as [-> | ->]; vm_compute; discriminate).
  assert (0 <= x < base ^ Z.of_nat 32) as H32.
  { split; [apply Hx|]. eapply Z.lt_le_trans; [apply Hx|]. etrans; [apply H10|]. apply Z.pow_le_mono_r; lia. }
  destruct (digit_loop_spec base 32 Hbb x [] H32 H0) as (l & E & Hn & Hd & Hf & _ & _ & Hl). rewrite app_nil_r in E. clear H32.
  exists (map capital l). split; [by rewrite EC, E|]. rewrite length_map. split.
  - destruct (decide (length l <= 10)%nat) as [|Hgt]; [done|]. specialize (Hl ltac:(lia)).
    assert (base ^ 10 <= base ^ (Z.of_nat (length l) - 1)) as Hm by (apply Z.pow_le_mono_r; lia).
    exfalso. eapply Z.lt_irrefl, Z.lt_le_trans; [apply Hx|]. etrans; [apply H10|]. etrans; [apply Hm|apply Hl].
  - intros ->. assert (map capital l = l) as -> by (rewrite <- E; apply decimal_capital). done.
Qed.

(** printint() of user programs never overruns its buffer of 16 bytes, and prints in decimal the low 32 bits of its
    argument, as a signed or an unsigned number: so %ld and %lu print a 64-bit argument only when it fits in 32 bits. *)
Theorem uprintint_correct arg base sgn : base = 10 \/ base = 16 ->
  exists l, uprintint arg base sgn = Some l /\ (length l <= 11)%nat /\ (base = 10 -> read_int 10 l = if sgn then s32 arg else u32 arg).
Proof.
  intros Hb. unfold uprintint. pose proof (s32_range arg) as Hr. set (neg := sgn && (s32 arg <? 0)). set (x := if neg then u32 (- s32 arg) else u32 (s32 arg)).
  assert (0 <= x < 2 ^ 32 /\ x = if neg then - s32 arg else u32 arg) as (Hx & Ex).
  { unfold x. destruct neg eqn:En; unfold u32 in *; [|split; [zlia|]; unfold s32; case_match; zlia]. unfold neg in En. rewrite Z.mod_small by lia. lia. }
  clearbody x. destruct (udigit_loop_32 base x Hb Hx) as (l & -> & Hl & Hv).
  assert (length (if neg then 45%Z :: l else l) <= 11)%nat as Hl' by (destruct neg; cbn [length]; lia).
  rewrite (proj2 (Nat.leb_le _ 16)) by lia. eexists. split; [done|]. split; [done|]. intros E10. destruct (Hv E10) as (Hn & Hf & Hd). destruct neg eqn:En.
  - cbn [read_int]. rewrite Z.eqb_refl, Hd, Ex. unfold neg in En. destruct sgn; [lia|done].
  - destruct l as [|a l]; [done|]. apply Forall_cons in Hf as [Ha _]. cbn [read_int]. rewrite (proj2 (Z.eqb_neq a 45)) by lia. rewrite Hd, Ex. destruct sgn; [|done].
    unfold neg in En. cbn [andb] in En. unfold u32, s32 in *. destruct (_ <? 2 ^ 31) eqn:E2 in En |- *; zlia.
Qed.
Lemma uprintint_correct_witness : exists l, uprintint (2 ^ 32 - 7) 10 true = Some l /\ read_int 10 l = - 7.
Proof. destruct (uprintint_correct (2 ^ 32 - 7) 10 true (or_introl eq_refl)) as (l & E & _ & Hv). exists l. split; [done|]. exact (Hv eq_refl). Defined.

(** ** The types of a format *)

Inductive kind := KInt | KStr.

(** The conversion a format starts with after the percent sign: the argument it takes, if any, and its length. *)
Definition directive (fmt : list Z) : list kind * nat :=
  let num c := (c =? ch_d) || (c =? ch_u) || (c =? ch_x) in
  match fmt with
  | [] => ([], 1%nat)
  | c :: r =>
      if num c || (c =? ch_p) then ([KInt], 1%nat)
      else if c =? ch_s then ([KStr], 1%nat)
      else if negb (c =? ch_l) then ([], 1%nat)
      else match r with
           | c1 :: r1 =>
               if num c1 then ([KInt], 2%nat)
               else match r1 with c2 :: _ => if (c1 =? ch_l) && num c2 then ([KInt], 3%nat) else ([], 1%nat) | [] => ([], 1%nat) end
           | [] => ([], 1%nat)
           end
  end.

(** The arguments a format takes; [skip] bytes belong to a conversion already read. *)
Fixpoint kinds (pct : bool) (skip : nat) (fmt : list Z) : list kind :=
  match fmt with
  | [] => []
  | c :: r =>
      match skip with
      | S k => kinds false k r
      | O =>
          if pct then (directive fmt).1 ++ kinds false ((directive fmt).2 - 1) r
          else if c =? ch_percent then kinds true 0 r else kinds false 0 r
      end
  end.

Fixpoint typed (ks : list kind) (ap : list varg) : bool :=
  match ks, ap with
  | [], _ => true
  | KInt :: ks, VInt _ :: ap => typed ks ap
  | KStr :: ks, VStr _ :: ap => typed ks ap
  | _, _ => false
  end.

Lemma kinds_skip fmt : forall k, kinds false k fmt = kinds false 0 (drop k fmt).
Proof. induction fmt as [|c r IH]; intros [|k]; try done. cbn [kinds drop]. apply IH. Qed.

Lemma uprintint_some arg base sgn : base = 10 \/ base = 16 -> exists l, uprintint arg base sgn = Some l.
Proof.
  intros Hb. unfold uprintint. set (neg := sgn && _). set (x := if neg then u32 (- s32 arg) else u32 (s32 arg)).
  assert (0 <= x < 2 ^ 32) as Hx by (unfold x, u32; destruct neg; apply Z.mod_pos_bound; lia).
  destruct (udigit_loop_32 base x Hb Hx) as (l & -> & Hl & _). rewrite (proj2 (Nat.leb_le _ 16)); [by eexists|]. destruct neg; cbn [length]; lia.
Qed.

(** A conversion takes the arguments its type says and moves on by its length. *)
Lemma uconvert_typed c0 r ap ks : c0 <> 0 -> typed ((directive (c0 :: r)).1 ++ ks) ap = true ->
  let c1 := nth 0 r 0 in
  exists o ap', uconvert c0 c1 (if c1 =? 0 then 0 else nth 1 r 0) ap = Some (o, ((directive (c0 :: r)).2 - 1)%nat, ap') /\ typed ks ap' = true.
Proof.
  intros H0 Ht c1. pose proof uprintint_some as Hp.
  assert (forall a base sgn (k : nat), base = 10 \/ base = 16 -> typed (KInt :: ks) a = true ->
    exists o ap', match a with VInt x :: ap' => match uprintint x base sgn with Some o => Some (o, k, ap') | None => None end | _ => None end = Some (o, k, ap') /\ typed ks ap' = true) as Hnum.
  { intros [|[x|s] a] base sgn k Hb Ha; try done. destruct (Hp x base sgn Hb) as [l ->]. by exists l, a. }
  unfold uconvert, directive in *. destruct (Z.eqb_spec c0 ch_l) as [->|Hl].
  - change (ch_l =? ch_d) with false in *. change (ch_l =? ch_u) with false in *. change (ch_l =? ch_x) with false in *.
    change (ch_l =? ch_p) with false in *. change (ch_l =? ch_s) with false in *. change (ch_l =? ch_percent) with false. cbn [negb andb orb] in *.
    destruct r as [|d1 r]; [by eexists _, _|]. cbn [nth] in c1. subst c1. cbn [nth].
    destruct (Z.eqb_spec d1 ch_l) as [->|Hl1].
    + change (ch_l =? ch_d) with false in *. change (ch_l =? ch_u) with false in *. change (ch_l =? ch_x) with false in *. change (ch_l =? 0) with false. cbn [negb andb orb] in *.
      destruct r as [|d2 r]; [by eexists _, _|]. cbn [nth]. destruct (d2 =? ch_d), (d2 =? ch_u), (d2 =? ch_x); cbn [orb fst snd app] in *; first [by apply (Hnum ap _ _ 2%nat); auto | by eexists _, _].
    + assert (forall b, (if b : bool then ([KInt], 2%nat) else match r with _ :: _ => ([] : list kind, 1%nat) | [] => ([], 1%nat) end) = if b then ([KInt], 2%nat) else ([], 1%nat)) as Hsame by (intros []; by destruct r).
      cbn [andb] in *. rewrite Hsame in *. destruct (d1 =? ch_d), (d1 =? ch_u), (d1 =? ch_x); cbn [orb fst snd app] in *; first [by apply (Hnum ap _ _ 1%nat); auto | by eexists _, _].
  - cbn [andb negb] in *. destruct (c0 =? ch_d), (c0 =? ch_u), (c0 =? ch_x); cbn [orb fst snd app] in *; try by apply (Hnum ap _ _ 0%nat); auto.
    destruct (c0 =? ch_p); cbn [orb fst snd app] in *; [destruct ap as [|[x|x] ap]; try done; by eexists _, _|].
    destruct (c0 =? ch_s); cbn [orb fst snd app] in *; [destruct ap as [|[x|x] ap]; try done; by eexists _, _|].
    destruct (c0 =? ch_percent); by eexists _, _.
Qed.

(** printf() goes through every format whose arguments have the types its conversions name: no argument is missing, no
    buffer overruns and the loop ends, whatever the bytes of the format, a conversion cut off by its end included. *)
Theorem vprintf_typed fmt ap : typed (kinds false 0 fmt) ap = true -> exists o, vprintf fmt ap = Some o.
Proof.
  intros Ht. unfold vprintf.
  assert (forall fuel i pct ap, (length fmt <= i + fuel)%nat -> typed (kinds pct 0 (drop i fmt)) ap = true -> exists o, vprintf_loop fuel fmt i pct ap = Some o) as H; [|by apply H; [lia|]].
  clear. induction fuel as [|f IH]; intros i pct ap Hf Ht; cbn [vprintf_loop].
  - rewrite (nth_overflow fmt) by lia. by eexists.
  - destruct (Z.eqb_spec (nth i fmt 0) 0) as [|Hn]; [by eexists|].
    assert (exists r, drop i fmt = nth i fmt 0 :: r /\ drop (i + 1) fmt = r) as (r & E & E1).
    { destruct (lookup_lt_is_Some_2 fmt i) as [c Hc]; [destruct (decide (i < length fmt)%nat); [done|]; by rewrite (nth_overflow fmt) in Hn by lia|].
      exists (drop (i + 1) fmt). split; [|done]. rewrite (drop_S _ _ _ Hc). rewrite (nth_lookup_Some _ _ _ _ Hc). by rewrite Nat.add_1_r. }
    rewrite E in Ht. cbn [kinds] in Ht. destruct pct; cbn [negb].
    + destruct (uconvert_typed _ r ap _ Hn Ht) as (o & ap' & Hc & Ht').
      assert (nth (i + 1) fmt 0 = nth 0 r 0 /\ nth (i + 2) fmt 0 = nth 1 r 0) as [-> ->] by (subst r; rewrite !nth_skipn; split; f_equal; lia).
      rewrite Hc. set (k := ((directive _).2 - 1)%nat) in *. clearbody k. rewrite kinds_skip, <- E1, drop_drop in Ht'.
      destruct (IH (i + k + 1)%nat false ap') as [o' ->]; [lia| |by eexists].
      rewrite <- Ht'. do 3 f_equal. lia.
    + destruct (nth i fmt 0 =? ch_percent); rewrite <- E1 in Ht; [by apply IH; [lia|]|].
      destruct (IH (i + 1)%nat false ap) as [o ->]; [lia|done|by eexists].
Qed.
Lemma vprintf_typed_witness : exists o, vprintf (str "%d: %s %lx%") [VInt (-3); VStr None; VInt 4096] = Some o.
Proof. apply vprintf_typed. reflexivity. Defined.

(** vprintf() on a format of every kind, and an argument of %ld that does not fit in an int. *)
Example vprintf_runs : vprintf (str "%d%%: %lx %s %q") [VInt (-12); VInt 48879; VStr None] = Some (str "-12%: BEEF (null) %q").
Proof. reflexivity. Qed.
Example vprintf_long_cut : vprintf (str "%ld") [VInt (2 ^ 32 + 5)] = Some (str "5").
Proof. reflexivity. Qed.
