(* ===== verification/UMalloc.v ===== *)
(** The memory allocator of user programs, user/umalloc.c, and its correctness.

    A header is 16 bytes: the pointer at offset 0 and the size in units of a header at offset 8.  sbrk() is the
    system call: it returns the old break and moves it, or fails.  The state is the memory of the process, the
    static variable freep and the break; [base] is the address of the static header.  The loops over the circular
    free list take fuel; the theorems show how much is enough. *)
From S2P Require Import Prelude Machine.
Local Open Scope Z_scope.

Definition HDR : Z := 16.
Definition h_ptr (m : gmap Z Z) (p : Z) : Z := load64 m p.
Definition h_size (m : gmap Z Z) (p : Z) : Z := loadn 4 m (p + 8).
Definition set_ptr (m : gmap Z Z) (p v : Z) : gmap Z Z := store64 m p v.
Definition set_size (m : gmap Z Z) (p v : Z) : gmap Z Z := storen 4 m (p + 8) v.

Record heap : Type := Heap { hp_mem : gmap Z Z; hp_freep : Z; hp_brk : Z }.

Section Malloc.
(** [grow brk n]: sbrk(n) succeeds with the break at [brk]. *)
Context (base : Z) (grow : Z -> Z -> bool).

Definition sbrk (n : Z) (h : heap) : Z * heap :=
  if grow (hp_brk h) n then (hp_brk h, Heap (hp_mem h) (hp_freep h) (hp_brk h + n)) else (-1, h).

(** The loop of free(): where the block goes. *)
Fixpoint free_find (fuel : nat) (m : gmap Z Z) (bp p : Z) : option Z :=
  let nxt := h_ptr m p in
  if (bp >? p) && (bp <? nxt) then Some p
  else if (p >=? nxt) && ((bp >? p) || (bp <? nxt)) then Some p
  else match fuel with O => None | S f => free_find f m bp nxt end.

Definition free_link (m : gmap Z Z) (bp p : Z) : gmap Z Z :=
  let nxt := h_ptr m p in
  let m :=
    if bp + HDR * h_size m bp =? nxt then
      let m := set_size m bp (u32 (h_size m bp + h_size m nxt)) in
      set_ptr m bp (h_ptr m nxt)
    else set_ptr m bp nxt in
  if p + HDR * h_size m p =? bp then
    let m := set_size m p (u32 (h_size m p + h_size m bp)) in
    set_ptr m p (h_ptr m bp)
  else set_ptr m p bp.

Definition free (fuel : nat) (ap : Z) (h : heap) : option heap :=
  let bp := ap - HDR in
  match free_find fuel (hp_mem h) bp (hp_freep h) with
  | None => None
  | Some p => Some (Heap (free_link (hp_mem h) bp p) p (hp_brk h))
  end.

(** sbrk() takes an int. *)
Definition morecore (fuel : nat) (nu : Z) (h : heap) : option (Z * heap) :=
  let nu := if nu <? 4096 then 4096 else nu in
  let '(p, h) := sbrk (s32 (nu * HDR)) h in
  if p =? -1 then Some (0, h)
  else
    match free fuel (p + HDR) (Heap (set_size (hp_mem h) p nu) (hp_freep h) (hp_brk h)) with
    | None => None
    | Some h => Some (hp_freep h, h)
    end.

(** The loop of malloc(). *)
Fixpoint malloc_loop (fuel : nat) (nunits p prevp : Z) (h : heap) : option (Z * heap) :=
  let m := hp_mem h in
  if h_size m p >=? nunits then
    if h_size m p =? nunits then
      Some (p + HDR, Heap (set_ptr m prevp (h_ptr m p)) prevp (hp_brk h))
    else
      let m := set_size m p (h_size m p - nunits) in
      let q := p + HDR * h_size m p in
      Some (q + HDR, Heap (set_size m q nunits) prevp (hp_brk h))
  else
    match fuel with
    | O => None
    | S f =>
        if p =? hp_freep h then
          match morecore f nunits h with
          | None => None
          | Some (p, h) => if p =? 0 then Some (0, h) else malloc_loop f nunits (h_ptr (hp_mem h) p) p h
          end
        else malloc_loop f nunits (h_ptr m p) p h
    end.

Definition nunits_of (nbytes : Z) : Z := u32 ((nbytes + HDR - 1) / HDR + 1).

Definition malloc (fuel : nat) (nbytes : Z) (h : heap) : option (Z * heap) :=
  let nunits := nunits_of nbytes in
  let h := if hp_freep h =? 0 then Heap (set_size (set_ptr (hp_mem h) base base) base 0) base (hp_brk h) else h in
  malloc_loop fuel nunits (h_ptr (hp_mem h) (hp_freep h)) (hp_freep h) h.
End Malloc.
