(* ===== verification/UMallocInv.v ===== *)
(** The allocator of [UMalloc] keeps the heap tiled.

    The heap from [start] to the break is a sequence of tiles, each free or allocated; the free list is the static
    header followed by the free tiles in the order of their addresses, and no two free tiles touch.  malloc() and
    free() are proved to change the tiling as they should, to touch no byte of an allocated tile and to return. *)
From S2P Require Import Prelude Machine UMalloc.
Local Open Scope Z_scope.

#[local] Arguments h_ptr : simpl never.
#[local] Arguments h_size : simpl never.
#[local] Arguments set_ptr : simpl never.
#[local] Arguments set_size : simpl never.

(** ** Headers *)

Definition apart (a b : Z) : Prop := a + HDR <= b \/ b + HDR <= a.

Lemma size_set_size m a v : 0 <= v < 2 ^ 32 -> h_size (set_size m a v) a = v.
Proof. intros H. unfold h_size, set_size. rewrite loadn_storen_eq. apply Z.mod_small. lia. Qed.
Lemma ptr_set_ptr m a v : 0 <= v < 2 ^ 64 -> h_ptr (set_ptr m a v) a = v.
Proof. intros H. unfold h_ptr, set_ptr. rewrite load64_store64_eq. by apply Z.mod_small. Qed.
Lemma size_set_ptr m a b v : a = b \/ apart a b -> h_size (set_ptr m a v) b = h_size m b.
Proof. intros H. unfold h_size, set_ptr, store64. apply loadn_storen_out. unfold apart, HDR in H. lia. Qed.
Lemma ptr_set_size m a b v : a = b \/ apart a b -> h_ptr (set_size m a v) b = h_ptr m b.
Proof. intros H. unfold h_ptr, load64, set_size. apply loadn_storen_out. unfold apart, HDR in H. lia. Qed.
Lemma size_set_size_ne m a b v : apart a b -> h_size (set_size m a v) b = h_size m b.
Proof. intros H. unfold h_size, set_size. apply loadn_storen_out. unfold apart, HDR in H. lia. Qed.
Lemma ptr_set_ptr_ne m a b v : apart a b -> h_ptr (set_ptr m a v) b = h_ptr m b.
Proof. intros H. unfold h_ptr, set_ptr. apply load64_store64_out. unfold apart, HDR in H. lia. Qed.
Lemma size_range m a : 0 <= h_size m a < 2 ^ 32.
Proof. unfold h_size. pose proof (loadn_range 4 m (a + 8)). lia. Qed.

Lemma byte_set_size m a v x : x < a \/ a + HDR <= x -> mget (set_size m a v) x = mget m x.
Proof. intros H. unfold set_size. apply mget_storen_out. unfold HDR in H. lia. Qed.
Lemma byte_set_ptr m a v x : x < a \/ a + HDR <= x -> mget (set_ptr m a v) x = mget m x.
Proof. intros H. unfold set_ptr. apply mget_store64_out. unfold HDR in H. lia. Qed.

(** ** Lists of blocks *)

Abbreviation blk := (Z * Z)%type.

Definition hd_addr (L : list blk) (nxt : Z) : Z := match L with [] => nxt | (a, _) :: _ => a end.

(** The headers of the blocks are linked in this order, the last one to [nxt]. *)
Fixpoint chain (m : gmap Z Z) (L : list blk) (nxt : Z) : Prop :=
  match L with
  | [] => True
  | (a, n) :: L' => h_size m a = n /\ h_ptr m a = hd_addr L' nxt /\ chain m L' nxt
  end.

Lemma hd_addr_app L1 L2 nxt : hd_addr (L1 ++ L2) nxt = hd_addr L1 (hd_addr L2 nxt).
Proof. by destruct L1 as [|[]]. Qed.

Lemma chain_app m L1 L2 nxt : chain m (L1 ++ L2) nxt <-> chain m L1 (hd_addr L2 nxt) /\ chain m L2 nxt.
Proof. induction L1 as [|[a n] L1 IH]; cbn [app chain]; [tauto|]. rewrite IH, hd_addr_app. tauto. Qed.

Lemma chain_frame m m' L nxt : chain m L nxt -> (forall a n, (a, n) ∈ L -> h_size m' a = h_size m a /\ h_ptr m' a = h_ptr m a) -> chain m' L nxt.
Proof.
  induction L as [|[a n] L IH]; [done|]. cbn [chain]. intros (H1 & H2 & H3) H. destruct (H a n ltac:(by left)) as [-> ->]. split; [done|]. split; [done|].
  apply IH; [done|]. intros b k Hb. apply (H b k). by right.
Qed.

(** The addresses increase, from above [lo]. *)
Fixpoint inc (lo : Z) (L : list blk) : Prop := match L with [] => True | (a, _) :: L' => lo < a /\ inc a L' end.
Lemma inc_lt L : forall lo, inc lo L -> forall b k, (b, k) ∈ L -> lo < b.
Proof.
  induction L as [|[c j] L IH]; intros lo Hi b k Hb; [by apply elem_of_nil in Hb|]. destruct Hi as [Hc Hi].
  apply elem_of_cons in Hb as [[= -> ->]|Hb]; [done|]. pose proof (IH c Hi b k Hb). lia.
Qed.
Lemma inc_app lo L1 L2 : inc lo (L1 ++ L2) -> inc lo L1 /\ forall a n, (a, n) ∈ L1 -> forall b k, (b, k) ∈ L2 -> a < b.
Proof.
  revert lo. induction L1 as [|[a n] L1 IH]; intros lo H; cbn [app inc] in *; [split; [done|]; intros ? ? Hin; by apply elem_of_nil in Hin|].
  destruct H as [H1 H2]. destruct (IH a H2) as [H3 H4]. split; [done|]. intros x k Hin b k' Hb. apply elem_of_cons in Hin as [[= -> ->]|Hin]; [|by eapply H4].
  apply (inc_lt (L1 ++ L2) a H2 b k'). apply elem_of_app. by right.
Qed.

(** ** Tiles *)

(** The size of a tile in units and whether it is free. *)
Abbreviation tile := (Z * bool)%type.

Fixpoint units (T : list tile) : Z := match T with [] => 0 | (n, _) :: T' => n + units T' end.
Fixpoint tiles (f : bool) (a : Z) (T : list tile) : list blk :=
  match T with
  | [] => []
  | (n, g) :: T' => (if eqb f g then [(a, n)] else []) ++ tiles f (a + HDR * n) T'
  end.
Definition frees (a : Z) (T : list tile) : list blk := tiles true a T.
Definition allocs (a : Z) (T : list tile) : list blk := tiles false a T.
Definition sized (T : list tile) : Prop := Forall (fun t => 1 <= t.1) T.

Lemma units_app T1 T2 : units (T1 ++ T2) = units T1 + units T2.
Proof. induction T1 as [|[n f] T1 IH]; cbn [app units]; lia. Qed.
Lemma units_nonneg T : sized T -> 0 <= units T.
Proof. induction 1 as [|[n f] T H _ IH]; cbn [units] in *; [lia|]. cbn in H. lia. Qed.

Lemma tiles_app f a T1 T2 : tiles f a (T1 ++ T2) = tiles f a T1 ++ tiles f (a + HDR * units T1) T2.
Proof.
  revert a. induction T1 as [|[n g] T1 IH]; intros a; cbn [app tiles units]; [f_equal; lia|]. rewrite IH, <- app_assoc. do 3 f_equal. lia.
Qed.

Lemma tiles_split f a T x n : (x, n) ∈ tiles f a T -> exists T1 T2, T = T1 ++ (n, f) :: T2 /\ x = a + HDR * units T1.
Proof.
  revert a. induction T as [|[k g] T IH]; intros a; cbn [tiles]; [by intros ?%elem_of_nil|]. rewrite elem_of_app. intros [H|H].
  - destruct (Bool.eqb_spec f g) as [<-|]; [|by apply elem_of_nil in H]. apply list_elem_of_singleton in H as [= <- <-]. exists [], T. split; [done|]. cbn. lia.
  - destruct (IH _ H) as (T1 & T2 & -> & ->). exists ((k, g) :: T1), T2. split; [done|]. cbn [units]. lia.
Qed.

Lemma tiles_range f a T x n : sized T -> (x, n) ∈ tiles f a T -> a <= x /\ x + HDR * n <= a + HDR * units T /\ 1 <= n.
Proof.
  intros Hs (T1 & T2 & -> & ->)%tiles_split. apply Forall_app in Hs as [Hs1 [Hn Hs2]%Forall_cons]. cbn in Hn. rewrite units_app. cbn [units].
  pose proof (units_nonneg T1 Hs1). pose proof (units_nonneg T2 Hs2). unfold HDR. lia.
Qed.

Lemma tiles_inc f T : forall a lo, sized T -> lo < a -> inc lo (tiles f a T).
Proof.
  induction T as [|[n g] T IH]; intros a lo Hs Hlo; cbn [tiles]; [done|]. apply Forall_cons in Hs as [Hn Hs]. cbn in Hn. unfold HDR.
  destruct (Bool.eqb f g); cbn [app inc]; [split; [done|]; apply IH; [done|lia]|apply IH; [done|lia]].
Qed.

Lemma tiles_length f T : forall a, (length (tiles f a T) <= length T)%nat.
Proof. induction T as [|[n g] T IH]; intros a; cbn [tiles length]; [lia|]. specialize (IH (a + HDR * n)). rewrite length_app. destruct (eqb f g); cbn; lia. Qed.

Lemma tiles_disj f g T : forall a x n y k, sized T -> (x, n) ∈ tiles f a T -> (y, k) ∈ tiles g a T -> (f = g /\ x = y /\ n = k) \/ x + HDR * n <= y \/ y + HDR * k <= x.
Proof.
  induction T as [|[j b] T IH]; intros a x n y k Hs Hx Hy; cbn [tiles] in *; [by apply elem_of_nil in Hx|]. apply Forall_cons in Hs as [Hj Hs]. cbn in Hj.
  assert (forall c z i, (z, i) ∈ (if eqb c b then [(a, j)] else []) -> c = b /\ z = a /\ i = j) as Hh.
  { intros c z i Hz. destruct (Bool.eqb_spec c b) as [->|]; [|by apply elem_of_nil in Hz]. by apply list_elem_of_singleton in Hz as [= -> ->]. }
  apply elem_of_app in Hx as [Hx|Hx]; apply elem_of_app in Hy as [Hy|Hy].
  - apply Hh in Hx as (-> & -> & ->). apply Hh in Hy as (-> & -> & ->). by left.
  - apply Hh in Hx as (-> & -> & ->). apply tiles_range in Hy; [|done]. lia.
  - apply Hh in Hy as (-> & -> & ->). apply tiles_range in Hx; [|done]. lia.
  - by apply (IH (a + HDR * j)).
Qed.

(** No two free tiles touch; [p] says whether the tile before is free. *)
Fixpoint gaps (p : bool) (T : list tile) : Prop := match T with [] => True | (_, f) :: T' => p && f = false /\ gaps f T' end.
Definition last_free (p : bool) (T : list tile) : bool := foldl (fun _ t => t.2) p T.

Lemma gaps_app T1 : forall p T2, gaps p (T1 ++ T2) <-> gaps p T1 /\ gaps (last_free p T1) T2.
Proof. induction T1 as [|[n f] T1 IH]; intros p T2; cbn [app gaps last_free foldl snd]; [tauto|]. rewrite IH. unfold last_free. tauto. Qed.
Lemma gaps_false p T : gaps p T -> gaps false T.
Proof. destruct T as [|[n f] T]; [done|]. cbn. tauto. Qed.

Section Heap.
Context (base start : Z) (Hbase : 0 < base) (Hstart : base + HDR <= start).

(** The heap of a process whose allocator has the tiling [T]. *)
Record heap_ok (h : heap) (T : list tile) : Prop := {
  ho_sized : sized T;
  ho_brk : hp_brk h = start + HDR * units T;
  ho_bound : hp_brk h < 2 ^ 32;
  ho_gaps : gaps false T;
  ho_alloc : forall a n, (a, n) ∈ allocs start T -> h_size (hp_mem h) a = n;
  ho_ring : chain (hp_mem h) ((base, 0) :: frees start T) base;
  ho_freep : hp_freep h ∈ base :: map fst (frees start T);
}.

(** ** free() *)

(** Walking up to the last block below [bp]. *)
Lemma find_up m bp p np nxt Q : forall lo fuel, chain m (Q ++ [(p, np)]) nxt -> inc lo (Q ++ [(p, np)]) -> (forall a n, (a, n) ∈ Q ++ [(p, np)] -> a < bp) ->
  bp < nxt \/ nxt <= p -> (length Q <= fuel)%nat -> free_find fuel m bp (hd_addr (Q ++ [(p, np)]) nxt) = Some p.
Proof using.
  induction Q as [|[a n] Q IH]; intros lo fuel C I Hlt Hn Hf; cbn [app hd_addr] in *.
  - destruct C as (_ & E & _). cbn in E. specialize (Hlt p np ltac:(by left)). destruct fuel; cbn [free_find]; rewrite E; (destruct Hn; [rewrite (proj2 (Z.gtb_lt _ _)) by lia; rewrite (proj2 (Z.ltb_lt _ _)) by lia; done|]);
      (destruct ((bp >? p) && (bp <? nxt)); [done|]); rewrite (proj2 (Z.geb_le _ _)) by lia; rewrite (proj2 (Z.gtb_lt _ _)) by lia; done.
  - destruct C as (_ & E & C). destruct I as [I1 I2]. cbn [length] in Hf. destruct fuel as [|f]; [lia|]. cbn [free_find]. rewrite E.
    assert (a < hd_addr (Q ++ [(p, np)]) nxt < bp) as Hh.
    { assert (exists x k, hd_addr (Q ++ [(p, np)]) nxt = x /\ (x, k) ∈ Q ++ [(p, np)] /\ a < x) as (x & k & -> & Hx & Hax) by (destruct Q as [|[x k] Q]; [exists p, np|exists x, k]; cbn in *; (split; [done|split; [by left|tauto]])).
      split; [done|]. apply (Hlt x k). by right. }
    destruct (Z.gtb_spec bp a), (Z.ltb_spec bp (hd_addr (Q ++ [(p, np)]) nxt)); cbn [andb]; try lia; destruct (Z.geb_spec a (hd_addr (Q ++ [(p, np)]) nxt)); cbn [andb]; try lia;
      apply (IH a); try done; try lia; intros b k Hb; apply (Hlt b k); by right.
Qed.

(** Walking from a block above [bp] to the static header. *)
Lemma find_down m bp Q : forall fuel, chain m Q base -> inc bp Q -> start <= bp -> (length Q <= fuel)%nat ->
  free_find fuel m bp (hd_addr Q base) = free_find (fuel - length Q) m bp base.
Proof using Hstart.
  induction Q as [|[a n] Q IH]; intros fuel C I Hs Hf; cbn [hd_addr length] in *; [by rewrite Nat.sub_0_r|].
  destruct C as (_ & E & C). destruct I as [I1 I2]. destruct fuel as [|f]; [lia|]. cbn [free_find]. rewrite E. unfold HDR in Hstart.
  destruct (Z.gtb_spec bp a); [lia|]. cbn [andb orb].
  assert (inc bp Q) as I3 by (destruct Q as [|[x k] Q]; [done|]; cbn in *; split; [lia|tauto]).
  replace ((a >=? hd_addr Q base) && (bp <? hd_addr Q base)) with false; [apply IH; [done|done|done|lia]|].
  symmetry. apply andb_false_iff. destruct Q as [|[x k] Q]; cbn [hd_addr]; [right; lia|left]. cbn in I2. lia.
Qed.

Lemma inc_suffix L1 : forall lo L2, inc lo (L1 ++ L2) -> exists lo', inc lo' L2.
Proof using. induction L1 as [|[a n] L1 IH]; intros lo L2 H; [by exists lo|]. destruct H as [_ H]. by apply (IH a). Qed.

Lemma in_split_addr x (L : list blk) : x ∈ map fst L -> exists L1 n L2, L = L1 ++ (x, n) :: L2.
Proof using.
  intros ([y n] & -> & Hin)%list_elem_of_fmap. apply list_elem_of_split in Hin as (L1 & L2 & ->). by exists L1, n, L2.
Qed.

(** The tiles around an allocated one, and the free list around it. *)
Record at_tile (h : heap) (T T1 T2 : list tile) (n bp : Z) : Prop := {
  at_T : T = T1 ++ (n, false) :: T2;
  at_bp : bp = start + HDR * units T1;
}.

Lemma sized_at h T T1 T2 n bp : heap_ok h T -> at_tile h T T1 T2 n bp -> sized T1 /\ sized T2.
Proof using. intros H [-> _]. pose proof (ho_sized _ _ H) as Hs. unfold sized in *. rewrite Forall_app, Forall_cons in Hs. tauto. Qed.

Lemma frees_at h T T1 T2 n bp : heap_ok h T -> at_tile h T T1 T2 n bp ->
  frees start T = frees start T1 ++ frees (bp + HDR * n) T2 /\ 1 <= n /\ start <= bp /\
  (forall a k, (a, k) ∈ frees start T1 -> a + HDR * k <= bp /\ start <= a /\ 1 <= k) /\
  (forall a k, (a, k) ∈ frees (bp + HDR * n) T2 -> bp + HDR * n <= a /\ a + HDR * k <= hp_brk h /\ 1 <= k) /\
  bp + HDR * n <= hp_brk h.
Proof using.
  intros H [-> ->]. destruct (proj1 (Forall_app _ _ _) (ho_sized _ _ H)) as [Hs1 [Hn Hs2]%Forall_cons]. cbn in Hn. pose proof (units_nonneg _ Hs1). pose proof (units_nonneg _ Hs2).
  rewrite (ho_brk _ _ H), units_app. cbn [units]. unfold HDR in *. split; [unfold frees; rewrite tiles_app; cbn [tiles eqb app]; done|].
  split; [done|]. split; [lia|]. split; [|split; [|lia]].
  - intros a k Hin. apply tiles_range in Hin; [|done]. unfold HDR in Hin. lia.
  - intros a k Hin. apply tiles_range in Hin; [|done]. unfold HDR in Hin. lia.
Qed.

Lemma find_ok h T T1 T2 n bp fuel : heap_ok h T -> at_tile h T T1 T2 n bp -> (length (frees start T) + 1 <= fuel)%nat ->
  exists PL p np, (base, 0) :: frees start T1 = PL ++ [(p, np)] /\ free_find fuel (hp_mem h) bp (hp_freep h) = Some p.
Proof using Hbase Hstart.
  intros H A Hf. destruct (frees_at _ _ _ _ _ _ H A) as (E & Hn & Hbp & HF1 & HF2 & _). set (F1 := frees start T1) in *. set (F2 := frees (bp + HDR * n) T2) in *. unfold HDR in *.
  destruct (exists_last (l := (base, 0) :: F1) ltac:(done)) as (PL & [p np] & EL). exists PL, p, np. split; [done|].
  pose proof (ho_ring _ _ H) as R. rewrite E, app_comm_cons in R. apply chain_app in R as [R1 R2].
  assert (forall a k, (a, k) ∈ (base, 0) :: F1 -> base <= a < bp) as Hlt.
  { intros a k [[= -> ->]|Hin]%elem_of_cons; [lia|]. apply HF1 in Hin. lia. }
  assert (bp < hd_addr F2 base \/ hd_addr F2 base <= p) as Hnxt.
  { destruct F2 as [|[x k] F2'] eqn:EF; cbn [hd_addr]; [right; apply (Hlt p np); rewrite EL; apply elem_of_app; right; by left|left]. destruct (HF2 x k ltac:(by left)). lia. }
  assert (inc (base - 1) ((base, 0) :: F1)) as I1 by (cbn [inc]; split; [lia|]; apply tiles_inc; [by apply (sized_at h T T1 T2 n bp)|unfold HDR; lia]).
  assert (forall Q fuel, (exists P1, (base, 0) :: F1 = P1 ++ Q ++ [(p, np)]) -> (length F1 <= fuel)%nat -> free_find fuel (hp_mem h) bp (hd_addr (Q ++ [(p, np)]) (hd_addr F2 base)) = Some p) as Hup.
  { intros Q fuel' (P1 & EQ) Hf'. rewrite EQ in R1, I1. destruct (inc_suffix _ _ _ I1) as (lo & I2). apply chain_app in R1 as [_ R1].
    apply (find_up _ _ _ np _ Q lo); [done|done| |done|].
    - intros a k Hin. apply (Hlt a k). rewrite EQ. apply elem_of_app. by right.
    - apply (f_equal length) in EQ. rewrite !length_app in EQ. cbn [length] in EQ. lia. }
  rewrite E, length_app in Hf. pose proof (ho_freep _ _ H) as Hfp. rewrite E, map_app in Hfp. change (base :: map fst F1 ++ map fst F2) with (map fst ((base, 0) :: F1) ++ map fst F2) in Hfp.
  apply elem_of_app in Hfp as [Hfp|Hfp]; apply in_split_addr in Hfp as (P1 & k & P2 & EP).
  - assert (exists Q, (hp_freep h, k) :: P2 = Q ++ [(p, np)]) as (Q & EQ).
    { destruct (exists_last (l := (hp_freep h, k) :: P2) ltac:(done)) as (Q & x & EQ). exists Q. rewrite EQ. do 2 f_equal. rewrite EP, EQ, app_assoc in EL. by apply app_inj_tail in EL as [_ ->]. }
    specialize (Hup Q fuel). rewrite <- EQ in Hup. cbn [hd_addr] in Hup. apply Hup; [by exists P1|lia].
  - rewrite EP in R2. apply chain_app in R2 as [_ R2]. assert (inc bp F2) as I2 by (apply tiles_inc; [by apply (sized_at h T T1 T2 n bp)|lia]).
    rewrite EP in I2, Hf. rewrite length_app in Hf. cbn [length] in Hf.
    assert (inc bp ((hp_freep h, k) :: P2)) as I3. { destruct (inc_suffix _ _ _ I2) as (lo & I3). cbn [inc] in *. split; [|tauto]. destruct (HF2 (hp_freep h) k); [rewrite EP; apply elem_of_app; right; by left|lia]. }
    pose proof (find_down (hp_mem h) bp ((hp_freep h, k) :: P2) fuel R2 I3 Hbp ltac:(cbn [length]; lia)) as Hd. cbn [hd_addr length] in Hd. rewrite Hd.
    specialize (Hup PL (fuel - S (length P2))%nat ltac:(by exists []) ltac:(lia)). rewrite <- EL in Hup. exact Hup.
Qed.

(** Only the header at [a] differs. *)
Definition only_hdr (m m' : gmap Z Z) (a : Z) : Prop :=
  (forall b, apart a b -> h_size m' b = h_size m b /\ h_ptr m' b = h_ptr m b) /\ forall x, x < a \/ a + HDR <= x -> mget m' x = mget m x.

Lemma write_hdr m a n v : 0 <= n < 2 ^ 32 -> 0 <= v < 2 ^ 64 ->
  let m' := set_ptr (set_size m a n) a v in h_size m' a = n /\ h_ptr m' a = v /\ only_hdr m m' a.
Proof using.
  intros Hn Hv m'. unfold m'. rewrite size_set_ptr, size_set_size, ptr_set_ptr by (done || by left). split; [done|]. split; [done|]. split.
  - intros b Hb. rewrite size_set_ptr, size_set_size_ne, ptr_set_ptr_ne, ptr_set_size by (done || by right). done.
  - intros x Hx. by rewrite byte_set_ptr, byte_set_size.
Qed.
Lemma write_ptr m a v : 0 <= v < 2 ^ 64 -> let m' := set_ptr m a v in h_size m' a = h_size m a /\ h_ptr m' a = v /\ only_hdr m m' a.
Proof using.
  intros Hv m'. unfold m'. rewrite size_set_ptr, ptr_set_ptr by (done || by left). split; [done|]. split; [done|]. split.
  - intros b Hb. rewrite size_set_ptr, ptr_set_ptr_ne by (done || by right). done.
  - intros x Hx. by rewrite byte_set_ptr.
Qed.

Lemma chain_only m m' a L nxt : only_hdr m m' a -> (forall b n, (b, n) ∈ L -> apart a b) -> chain m L nxt -> chain m' L nxt.
Proof using. intros [H _] Ha C. apply (chain_frame m); [done|]. intros b n Hb. apply H. by apply (Ha b n). Qed.

(** Joining a block of [n] units at [bp] with the free block after it. *)
Definition join_next (bp n : Z) (F2 : list blk) : Z * list blk :=
  match F2 with (x, k) :: F2' => if bp + HDR * n =? x then (n + k, F2') else (n, F2) | [] => (n, []) end.
(** The free list with the block between [p] and the blocks of [F2]. *)
Definition joined (PL : list blk) (p np bp n : Z) (F2 : list blk) : list blk :=
  let (n', F2') := join_next bp n F2 in
  if p + HDR * np =? bp then PL ++ (p, np + n') :: F2' else PL ++ (p, np) :: (bp, n') :: F2'.

Definition addr64 (L : list blk) : Prop := forall a n, (a, n) ∈ L -> 0 <= a < 2 ^ 64 /\ 0 <= n.

Lemma link_next m bp n p F2 : h_size m bp = n -> h_ptr m p = hd_addr F2 base -> chain m F2 base -> (forall a k, (a, k) ∈ F2 -> apart bp a /\ n + k < 2 ^ 32) ->
  addr64 F2 -> 0 <= base < 2 ^ 64 -> bp + HDR * n <> base ->
  let nxt := h_ptr m p in
  let m1 := if bp + HDR * h_size m bp =? nxt then
              let m := set_size m bp (u32 (h_size m bp + h_size m nxt)) in set_ptr m bp (h_ptr m nxt)
            else set_ptr m bp nxt in
  h_size m1 bp = fst (join_next bp n F2) /\ h_ptr m1 bp = hd_addr (snd (join_next bp n F2)) base /\ only_hdr m m1 bp.
Proof using.
  intros Hsz Hp C Ha H64 Hb Hne nxt. unfold nxt. rewrite Hp, Hsz. destruct F2 as [|[x k] F2]; cbn [hd_addr join_next fst snd].
  - rewrite (proj2 (Z.eqb_neq _ _) Hne). destruct (write_ptr m bp base Hb) as (A1 & A2 & A3). rewrite A1. done.
  - destruct C as (C1 & C2 & C3). destruct (H64 x k ltac:(by left)). destruct (Ha x k ltac:(by left)) as [Ap Hk]. pose proof (size_range m bp) as Hr.
    destruct (Z.eqb_spec (bp + HDR * n) x) as [E|E].
    + cbn zeta. rewrite C1. assert (h_ptr (set_size m bp (u32 (n + k))) x = h_ptr m x) as -> by (apply ptr_set_size; by right). rewrite C2.
      assert (0 <= hd_addr F2 base < 2 ^ 64) as Hh by (destruct F2 as [|[y j] F2]; cbn; [done|apply (H64 y j); right; by left]).
      replace (u32 (n + k)) with (n + k) by (unfold u32; rewrite Z.mod_small; lia). destruct (write_hdr m bp (n + k) _ ltac:(lia) Hh) as (A1 & A2 & A3). done.
    + destruct (write_ptr m bp x ltac:(lia)) as (A1 & A2 & A3). rewrite A1. done.
Qed.

Lemma link_ok m PL p np bp n F2 : chain m (PL ++ [(p, np)]) (hd_addr F2 base) -> chain m F2 base -> h_size m bp = n ->
  (forall a k, (a, k) ∈ PL ++ (p, np) :: F2 -> apart bp a) -> (forall a k, (a, k) ∈ PL ++ F2 -> apart p a) ->
  addr64 ((bp, n) :: (p, np) :: F2) -> (forall a k, (a, k) ∈ F2 -> np + n + k < 2 ^ 32) -> np + n < 2 ^ 32 -> 0 <= base < 2 ^ 64 -> bp + HDR * n <> base ->
  chain (free_link m bp p) (joined PL p np bp n F2) base /\
  (forall x, (x < bp \/ bp + HDR <= x) -> (x < p \/ p + HDR <= x) -> mget (free_link m bp p) x = mget m x) /\
  (forall b, apart bp b -> apart p b -> h_size (free_link m bp p) b = h_size m b).
Proof using.
  intros C1 C2 Hsz Hbp Hp H64 Hk Hnp Hb Hne. apply chain_app in C1 as [C0 (Cs & Cp & _)]. cbn [hd_addr] in C0, Cp.
  destruct (H64 bp n ltac:(by left)) as [B1 B2]. destruct (H64 p np ltac:(right; by left)) as [P1 P2].
  assert (apart bp p) as Hbpp by (apply (Hbp p np); apply elem_of_app; right; by left).
  destruct (link_next m bp n p F2 Hsz Cp C2) as (S1 & S2 & S3); [intros a k Hin; split; [apply (Hbp a k); apply elem_of_app; right; by right|specialize (Hk a k Hin); lia]|intros a k Hin; apply (H64 a k); right; by right|done|done|].
  unfold free_link. cbn zeta in S1, S2, S3 |- *. set (m1 := if bp + HDR * h_size m bp =? h_ptr m p then _ else _) in *. clearbody m1.
  unfold joined. destruct (join_next bp n F2) as [n' F2'] eqn:EJ. cbn [fst snd] in S1, S2.
  assert ((forall a k, (a, k) ∈ F2' -> (a, k) ∈ F2) /\ chain m F2' base /\ np + n' < 2 ^ 32 /\ 0 <= n') as (HF' & C2' & Hn' & Hn0).
  { destruct F2 as [|[x k] F2]; cbn [join_next] in EJ; [injection EJ as <- <-; done|]. destruct (bp + HDR * n =? x); injection EJ as <- <-; [|done].
    destruct (H64 x k ltac:(right; right; by left)). specialize (Hk x k ltac:(by left)). split; [intros; by right|]. split; [apply C2|]. lia. }
  destruct S3 as [S3 S4]. destruct (S3 p Hbpp) as [Ep1 Ep2]. rewrite Ep1, Cs.
  assert (0 <= hd_addr F2' base < 2 ^ 64) as Hh by (destruct F2' as [|[y j] F2']; cbn; [done|apply (H64 y j); do 2 right; apply (HF' y j); by left]).
  assert (chain m1 PL p) as D0 by (apply (chain_only m m1 bp); [done|intros b k Hin; apply (Hbp b k); apply elem_of_app; by left|done]).
  assert (chain m1 F2' base) as D2 by (apply (chain_only m m1 bp); [done|intros b k Hin; apply (Hbp b k); apply elem_of_app; right; right; by apply HF'|done]).
  assert (forall m2, only_hdr m1 m2 p -> chain m2 PL p /\ chain m2 F2' base /\ h_size m2 bp = n' /\ h_ptr m2 bp = hd_addr F2' base /\
    (forall x, (x < bp \/ bp + HDR <= x) -> (x < p \/ p + HDR <= x) -> mget m2 x = mget m x) /\ (forall b, apart bp b -> apart p b -> h_size m2 b = h_size m b)) as Hm2.
  { intros m2 [O1 O2]. split; [apply (chain_only m1 m2 p); [done|intros b k Hin; apply (Hp b k); apply elem_of_app; by left|done]|].
    split; [apply (chain_only m1 m2 p); [done|intros b k Hin; apply (Hp b k); apply elem_of_app; right; by apply HF'|done]|].
    destruct (O1 bp) as [-> ->]; [unfold apart in *; lia|]. split; [done|]. split; [done|]. split; [intros x Hx1 Hx2; by rewrite O2, S4|].
    intros b Hb1 Hb2. destruct (O1 b Hb2) as [-> _]. by destruct (S3 b Hb1). }
  destruct (Z.eqb_spec (p + HDR * np) bp) as [E|E].
  - rewrite S1. assert (h_ptr (set_size m1 p (u32 (np + n'))) bp = hd_addr F2' base) as -> by (rewrite ptr_set_size; [done|right; unfold apart in *; lia]).
    replace (u32 (np + n')) with (np + n') by (unfold u32; rewrite Z.mod_small; lia).
    destruct (write_hdr m1 p (np + n') (hd_addr F2' base) ltac:(lia) Hh) as (W1 & W2 & W3). destruct (Hm2 _ W3) as (M1 & M2 & _ & _ & M5 & M6).
    split; [|done]. apply chain_app. cbn [hd_addr chain]. done.
  - destruct (write_ptr m1 p bp ltac:(lia)) as (W1 & W2 & W3). destruct (Hm2 _ W3) as (M1 & M2 & M3 & M4 & M5 & M6).
    split; [|done]. apply chain_app. cbn [hd_addr chain]. split; [done|]. split; [congruence|]. done.
Qed.

(** The tile after the freed one joins it when it is free. *)
Lemma tile_next bp n T2 : sized T2 -> gaps false T2 -> exists n' T2r, join_next bp n (frees (bp + HDR * n) T2) = (n', frees (bp + HDR * n') T2r) /\
  n <= n' /\ n + units T2 = n' + units T2r /\ allocs (bp + HDR * n) T2 = allocs (bp + HDR * n') T2r /\ sized T2r /\ gaps true T2r.
Proof using.
  intros Hs Hg. destruct T2 as [|[k f] T2]; [exists n, []; done|]. apply Forall_cons in Hs as [Hk Hs]. cbn in Hk. destruct f.
  - exists (n + k), T2. unfold frees, allocs. cbn [tiles eqb app join_next units]. rewrite Z.eqb_refl. replace (bp + HDR * n + HDR * k) with (bp + HDR * (n + k)) by lia.
    split; [done|]. split; [lia|]. split; [lia|]. split; [done|]. split; [done|]. apply Hg.
  - exists n, ((k, false) :: T2). split; [|split; [lia|]; split; [done|]; split; [done|]; split; [by constructor|]; split; [done|apply Hg]].
    unfold frees. cbn [tiles eqb app]. pose proof (tiles_inc true T2 (bp + HDR * n + HDR * k) (bp + HDR * n) Hs ltac:(unfold HDR; lia)) as Hi.
    destruct (tiles true (bp + HDR * n + HDR * k) T2) as [|[x j] F]; [done|]. cbn [join_next]. destruct Hi as [Hi _]. by rewrite (proj2 (Z.eqb_neq (bp + HDR * n) x)) by lia.
Qed.

(** The tile before it likewise; [p] is the last free block before it. *)
Lemma tile_prev T1 bp n' T2r PL p np : sized T1 -> gaps false T1 -> bp = start + HDR * units T1 -> (base, 0) :: frees start T1 = PL ++ [(p, np)] -> sized T2r -> 1 <= n' -> gaps true T2r ->
  exists T', (if p + HDR * np =? bp then PL ++ (p, np + n') :: frees (bp + HDR * n') T2r else PL ++ (p, np) :: (bp, n') :: frees (bp + HDR * n') T2r) = (base, 0) :: frees start T' /\
    allocs start T' = allocs start T1 ++ allocs (bp + HDR * n') T2r /\ units T' = units T1 + n' + units T2r /\ sized T' /\ gaps false T' /\
    exists a k, (a, k) ∈ frees start T' /\ n' <= k.
Proof using Hstart.
  intros Hs Hg Hbp EL Hs2 Hn Hg2. pose proof (units_nonneg T1 Hs) as Hu. unfold HDR in *.
  assert ((exists T1r k, T1 = T1r ++ [(k, true)]) \/ last_free false T1 = false) as [(T1r & k & ->)|Hlast].
  { destruct T1 as [|[k f] T1r] using rev_ind; [by right|]. destruct f; [left; by exists T1r, k|right]. unfold last_free. by rewrite foldl_app. }
  - unfold sized in Hs. rewrite Forall_app, Forall_cons in Hs. destruct Hs as (Hs1 & Hk & _). cbn in Hk. apply gaps_app in Hg as [Hg1 [Hg3 _]]. rewrite andb_true_r in Hg3.
    unfold frees in EL. rewrite tiles_app in EL. cbn [tiles eqb app] in EL. rewrite app_comm_cons in EL. apply app_inj_tail in EL as [<- [= <- <-]]. rewrite units_app in Hbp, Hu. cbn [units] in Hbp, Hu. unfold HDR in *.
    rewrite (proj2 (Z.eqb_eq _ bp)) by lia. exists (T1r ++ (k + n', true) :: T2r). unfold frees, allocs. rewrite !tiles_app, !units_app. cbn [tiles eqb app units]. rewrite app_nil_r. unfold HDR.
    replace (start + 16 * units T1r + 16 * (k + n')) with (bp + 16 * n') by lia.
    split; [done|]. split; [done|]. split; [lia|]. split; [apply Forall_app; split; [done|]; constructor; [cbn; lia|done]|]. split; [apply gaps_app; split; [done|]; split; [by rewrite Hg3|done]|].
    eexists _, _. split; [apply elem_of_app; right; by left|lia].
  - assert (p + 16 * np <> bp) as Hne.
    { destruct T1 as [|[k f] T1r _] using rev_ind; [cbn in EL; destruct PL as [|? [|]]; try discriminate EL; injection EL as <- <-; cbn in Hbp; lia|].
      unfold last_free in Hlast. rewrite foldl_app in Hlast. cbn in Hlast. subst f. unfold sized in Hs. rewrite Forall_app, Forall_cons in Hs. destruct Hs as (Hs1 & Hk & _). cbn in Hk.
      unfold frees in EL. rewrite tiles_app in EL. cbn [tiles eqb app] in EL. rewrite app_nil_r in EL. rewrite units_app in Hbp. cbn [units] in Hbp. pose proof (units_nonneg T1r Hs1).
      assert ((p, np) ∈ (base, 0) :: tiles true start T1r) as Hin by (rewrite EL; apply elem_of_app; right; by left). apply elem_of_cons in Hin as [[= -> ->]|Hin]; [lia|].
      apply tiles_range in Hin; [|done]. unfold HDR in Hin. lia. }
    rewrite (proj2 (Z.eqb_neq _ _) Hne). exists (T1 ++ (n', true) :: T2r). unfold frees, allocs in *. rewrite !tiles_app, !units_app. cbn [tiles eqb app units]. unfold HDR. rewrite <- Hbp.
    split; [by rewrite app_comm_cons, EL, <- app_assoc|]. split; [done|]. split; [lia|]. split; [apply Forall_app; split; [done|]; by constructor|].
    split; [apply gaps_app; split; [done|]; split; [by rewrite Hlast|done]|]. eexists _, _. split; [apply elem_of_app; right; by left|lia].
Qed.

Lemma free_apart T a n b k : sized T -> (a, n) ∈ (base, 0) :: frees start T -> (b, k) ∈ allocs start T -> apart a b.
Proof using Hstart.
  intros Hs Ha Hb. pose proof (tiles_range _ _ _ _ _ Hs Hb) as Rb. unfold apart, HDR in *. apply elem_of_cons in Ha as [[= -> ->]|Ha]; [lia|].
  pose proof (tiles_range _ _ _ _ _ Hs Ha) as Ra. destruct (tiles_disj true false T start a n b k Hs Ha Hb) as [[? _]|H]; [done|]. unfold HDR in *. lia.
Qed.
Lemma free_apart_free T a n b k : sized T -> (a, n) ∈ (base, 0) :: frees start T -> (b, k) ∈ (base, 0) :: frees start T -> a <> b -> apart a b.
Proof using Hstart.
  intros Hs Ha Hb Hne. unfold apart, HDR in *. apply elem_of_cons in Ha as [[= -> ->]|Ha]; apply elem_of_cons in Hb as [[= -> ->]|Hb]; [done| | |].
  - apply tiles_range in Hb; [|done]. lia. - apply tiles_range in Ha; [|done]. lia.
  - pose proof (tiles_range _ _ _ _ _ Hs Ha) as Ra. pose proof (tiles_range _ _ _ _ _ Hs Hb) as Rb. destruct (tiles_disj true true T start a n b k Hs Ha Hb) as [(_ & ? & _)|H]; [done|]. unfold HDR in *. lia.
Qed.

(** The bytes of the tiles that stay allocated. *)
Definition kept (T' : list tile) (h h' : heap) : Prop := forall a k x, (a, k) ∈ allocs start T' -> a <= x < a + HDR * k -> mget (hp_mem h') x = mget (hp_mem h) x.

Lemma free_ok h T T1 T2 n bp fuel : heap_ok h T -> at_tile h T T1 T2 n bp -> (length (frees start T) + 1 <= fuel)%nat ->
  exists h' T', free fuel (bp + HDR) h = Some h' /\ heap_ok h' T' /\ allocs start T' = allocs start T1 ++ allocs (bp + HDR * n) T2 /\
    hp_brk h' = hp_brk h /\ kept T' h h' /\ (length (frees start T') <= length (frees start T) + 1)%nat /\ exists a k, (a, k) ∈ frees start T' /\ n <= k.
Proof using Hbase Hstart.
  intros H A Hf. destruct (find_ok h T T1 T2 n bp fuel H A Hf) as (PL & p & np & EL & Ef). destruct (frees_at _ _ _ _ _ _ H A) as (E & Hn & Hbp & HF1 & HF2 & Hbk).
  destruct (sized_at _ _ _ _ _ _ H A) as [Hs1 Hs2]. pose proof (ho_gaps _ _ H) as Hg. rewrite (at_T _ _ _ _ _ _ A) in Hg. apply gaps_app in Hg as [Hg1 [_ Hg2]].
  pose proof (ho_ring _ _ H) as R. rewrite E, app_comm_cons, EL in R. apply chain_app in R as [R1 R2]. set (F2 := frees (bp + HDR * n) T2) in *. pose proof (ho_sized _ _ H) as Hsz. pose proof (ho_bound _ _ H) as Hbd.
  assert (forall a k, (a, k) ∈ PL ++ (p, np) :: F2 -> (a, k) ∈ (base, 0) :: frees start T) as Hring by (intros a k Hin; rewrite E, app_comm_cons, EL, <- app_assoc; done).
  assert (forall a k, (a, k) ∈ (base, 0) :: frees start T -> 0 <= a < 2 ^ 32 /\ 0 <= k < 2 ^ 28) as Hrg.
  { intros a k [[= -> ->]|Hin]%elem_of_cons; [unfold HDR in *; lia|]. apply tiles_range in Hin; [|done]. rewrite <- (ho_brk _ _ H) in Hin. unfold HDR in *. lia. }
  assert ((bp, n) ∈ allocs start T) as Hbin by (rewrite (at_T _ _ _ _ _ _ A); unfold allocs; rewrite tiles_app, <- (at_bp _ _ _ _ _ _ A); cbn [tiles eqb]; apply elem_of_app; right; by left).
  assert (forall a k, (a, k) ∈ PL ++ F2 -> a <> p) as Hnp.
  { pose proof (tiles_inc true T start base Hsz ltac:(unfold HDR in Hstart; lia)) as I. fold (frees start T) in I. assert (inc (base - 1) (PL ++ (p, np) :: F2)) as I2.
    { replace (PL ++ (p, np) :: F2) with ((base, 0) :: frees start T) by (rewrite E, app_comm_cons, EL, <- app_assoc; done). cbn. split; [lia|done]. }
    intros a k Hin ->. apply elem_of_app in Hin as [Hin|Hin].
    - destruct (inc_app _ _ _ I2) as [_ Hl]. specialize (Hl p k Hin p np ltac:(by left)). lia.
    - change ((p, np) :: F2) with ([(p, np)] ++ F2) in I2. destruct (inc_suffix _ _ _ I2) as (lo & I3). destruct (inc_app _ _ _ I3) as [_ Hl]. specialize (Hl p np ltac:(by left) p k Hin). lia. }
  destruct (Hrg p np ltac:(apply Hring, elem_of_app; right; by left)) as [Hp64 Hnp64]. assert (n < 2 ^ 28) as Hn28 by (unfold HDR in *; lia).
  destruct (link_ok (hp_mem h) PL p np bp n F2 R1 R2 (ho_alloc _ _ H bp n Hbin)) as (L1 & L2 & L3).
  { intros a k Hin. apply Hring in Hin. pose proof (free_apart T a k bp n Hsz Hin Hbin) as Ha. unfold apart in *. lia. }
  { intros a k Hin. pose proof (Hnp a k Hin). apply elem_of_app in Hin. apply (free_apart_free T p np a k Hsz); [apply Hring, elem_of_app; right; by left| |congruence].
    apply Hring, elem_of_app. destruct Hin; [by left|right; by right]. }
  { intros a k [[= -> ->]|[[= -> ->]|Hin]%elem_of_cons]%elem_of_cons; [unfold HDR in *; lia|lia|]. destruct (Hrg a k); [apply Hring, elem_of_app; right; by right|lia]. }
  { intros a k Hin. destruct (Hrg a k); [apply Hring, elem_of_app; right; by right|lia]. }
  { lia. } { unfold HDR in *. lia. } { unfold HDR in *. lia. }
  destruct (tile_next bp n T2 Hs2 Hg2) as (n' & T2r & EJ & Hn' & Hu & Ea & Hs2r & Hg2r).
  destruct (tile_prev T1 bp n' T2r PL p np Hs1 Hg1 (at_bp _ _ _ _ _ _ A) EL Hs2r ltac:(lia) Hg2r) as (T' & ET & EA & EU & Hs' & Hg' & a0 & k0 & Hin0 & Hk0).
  unfold joined in L1. fold F2 in EJ. rewrite EJ in L1. rewrite ET in L1. rewrite <- Ea in EA.
  assert (forall a k, (a, k) ∈ allocs start T' -> (a, k) ∈ allocs start T /\ a <> bp) as Hsub.
  { intros a k Hin. rewrite EA in Hin. split.
    - rewrite (at_T _ _ _ _ _ _ A). unfold allocs in *. rewrite tiles_app, <- (at_bp _ _ _ _ _ _ A). cbn [tiles eqb app]. apply elem_of_app. apply elem_of_app in Hin as [Hin|Hin]; [by left|right; by right].
    - intros ->. apply elem_of_app in Hin as [Hin|Hin]; apply tiles_range in Hin; try done; rewrite ?(at_bp _ _ _ _ _ _ A) in *; unfold HDR in *; lia. }
  exists (Heap (free_link (hp_mem h) bp p) p (hp_brk h)), T'. unfold free. replace (bp + HDR - HDR) with bp by lia. rewrite Ef. split; [done|]. split; [|split; [done|]; split; [done|]; split; [|split; [|exists a0, k0; split; [done|lia]]]].
  - split; cbn [hp_brk hp_mem hp_freep]; try done.
    + rewrite (ho_brk _ _ H), EU, (at_T _ _ _ _ _ _ A), units_app. cbn [units]. lia.
    + intros a k Hin. destruct (Hsub a k Hin) as [Hin' Hne]. rewrite L3; [by apply (ho_alloc _ _ H)| |apply (free_apart T p np a k Hsz); [apply Hring, elem_of_app; right; by left|done]].
      destruct (tiles_disj false false T start bp n a k Hsz Hbin Hin') as [(_ & ? & _)|Hd]; [congruence|]. pose proof (tiles_range _ _ _ _ _ Hsz Hin'). unfold apart, HDR in *. lia.
    + change (base :: map fst (frees start T')) with (map fst ((base, 0) :: frees start T')). rewrite <- ET. destruct (p + HDR * np =? bp); rewrite map_app; apply elem_of_app; right; by left.
  - intros a k x Hin Hx. destruct (Hsub a k Hin) as [Hin' Hne]. cbn [hp_mem]. apply L2.
    + destruct (tiles_disj false false T start bp n a k Hsz Hbin Hin') as [(_ & ? & _)|Hd]; [congruence|]. unfold HDR in *. lia.
    + pose proof (free_apart T p np a k Hsz ltac:(apply Hring, elem_of_app; right; by left) Hin') as Hap.
      assert ((p, np) ∈ (base, 0) :: frees start T) as Hpin by (apply Hring, elem_of_app; right; by left). apply elem_of_cons in Hpin as [[= -> ->]|Hpin].
      * apply tiles_range in Hin'; [|done]. unfold HDR in *. lia.
      * pose proof (tiles_range _ _ _ _ _ Hsz Hpin). destruct (tiles_disj true false T start p np a k Hsz Hpin Hin') as [[? _]|Hd]; [done|]. unfold HDR in *. lia.
  - assert (length (frees (bp + HDR * n') T2r) <= length F2)%nat as Hl2.
    { assert (frees (bp + HDR * n') T2r = snd (join_next bp n F2)) as -> by (by rewrite EJ). destruct F2 as [|[x j] F2']; [done|]. cbn [join_next]. destruct (_ =? x); cbn; lia. }
    apply (f_equal length) in ET, EL. rewrite E. rewrite !length_app in *. destruct (p + HDR * np =? bp); rewrite length_app in ET; cbn [length] in *; lia.
Qed.

(** ** malloc() *)

(** What malloc() does with a block that is large enough. *)
Definition grab (h : heap) (nunits p prevp : Z) : Z * heap :=
  let m := hp_mem h in
  if h_size m p =? nunits then (p + HDR, Heap (set_ptr m prevp (h_ptr m p)) prevp (hp_brk h))
  else
    let m := set_size m p (h_size m p - nunits) in
    let q := p + HDR * h_size m p in
    (q + HDR, Heap (set_size m q nunits) prevp (hp_brk h)).

Lemma inc_unique L1 : forall lo L1' p n n' L2 L2', inc lo (L1 ++ (p, n) :: L2) -> L1 ++ (p, n) :: L2 = L1' ++ (p, n') :: L2' -> L1 = L1' /\ n = n' /\ L2 = L2'.
Proof using.
  induction L1 as [|[a k] L1 IH]; intros lo [|[a' k'] L1'] p n n' L2 L2' I E; cbn [app inc] in *; injection E.
  - by intros -> ->.
  - intros -> -> ->. destruct I as [_ I]. pose proof (inc_lt _ _ I a' n' ltac:(apply elem_of_app; right; by left)). lia.
  - intros <- -> ->. destruct I as [_ I]. pose proof (inc_lt _ _ I p n ltac:(apply elem_of_app; right; by left)). lia.
  - intros E' -> ->. destruct I as [_ I]. destruct (IH _ _ _ _ _ _ _ I E') as (-> & -> & ->). done.
Qed.

Lemma ring_inc h T : heap_ok h T -> inc (base - 1) ((base, 0) :: frees start T).
Proof using Hstart. intros H. cbn. split; [lia|]. apply tiles_inc; [apply H|unfold HDR in Hstart; lia]. Qed.

(** The blocks around the one that is taken. *)
Lemma ring_at h T p n prevp : heap_ok h T -> (p, n) ∈ frees start T -> prevp ∈ base :: map fst (frees start T) -> h_ptr (hp_mem h) prevp = p ->
  exists T1 T2 PL k, T = T1 ++ (n, true) :: T2 /\ p = start + HDR * units T1 /\ (base, 0) :: frees start T1 = PL ++ [(prevp, k)] /\
    frees start T = frees start T1 ++ (p, n) :: frees (p + HDR * n) T2 /\ start <= p /\ sized T1 /\ sized T2 /\ 1 <= n.
Proof using Hstart.
  intros H Hp Hpp Hl. destruct (tiles_split _ _ _ _ _ Hp) as (T1 & T2 & -> & ->). pose proof (ho_sized _ _ H) as Hs. unfold sized in Hs. rewrite Forall_app, Forall_cons in Hs. destruct Hs as (Hs1 & Hn & Hs2). cbn in Hn.
  pose proof (units_nonneg T1 Hs1). set (p := start + HDR * units T1) in *.
  assert (frees start (T1 ++ (n, true) :: T2) = frees start T1 ++ (p, n) :: frees (p + HDR * n) T2) as E by (unfold frees; rewrite tiles_app; done).
  pose proof (ring_inc h _ H) as I. pose proof (ho_ring _ _ H) as R. change (base :: map fst (frees start (T1 ++ (n, true) :: T2))) with (map fst ((base, 0) :: frees start (T1 ++ (n, true) :: T2))) in Hpp.
  apply in_split_addr in Hpp as (A & k & B & EA). rewrite EA in R. apply chain_app in R as [_ (_ & R & _)]. rewrite Hl in R.
  destruct B as [|[x j] B]; cbn [hd_addr] in R; [unfold HDR in *; lia|]. subst x. rewrite E, app_comm_cons in EA, I. rewrite (cons_middle (prevp, k)), app_assoc in EA.
  destruct (inc_unique _ _ _ _ _ _ _ _ I EA) as (EL & -> & _). exists T1, T2, A, k. split; [done|]. split; [done|]. split; [done|]. split; [done|]. split; [unfold HDR in *; lia|]. done.
Qed.

(** The tiling after an allocation: one more allocated tile, in its place among the others. *)
Definition allocated (T T' : list tile) (q n : Z) : Prop := exists A1 A2, allocs start T = A1 ++ A2 /\ allocs start T' = A1 ++ (q, n) :: A2.

Section Grab.
Context (h : heap) (T T1 T2 : list tile) (p n prevp k : Z) (PL : list blk) (H : heap_ok h T).
Context (ET : T = T1 ++ (n, true) :: T2) (Ep : p = start + HDR * units T1) (EL : (base, 0) :: frees start T1 = PL ++ [(prevp, k)]).
Context (EF : frees start T = frees start T1 ++ (p, n) :: frees (p + HDR * n) T2) (Hp : start <= p) (Hs1 : sized T1) (Hs2 : sized T2) (Hn : 1 <= n).

Lemma grab_ring : chain (hp_mem h) PL prevp /\ h_size (hp_mem h) prevp = k /\ h_ptr (hp_mem h) prevp = p /\ h_size (hp_mem h) p = n /\
  h_ptr (hp_mem h) p = hd_addr (frees (p + HDR * n) T2) base /\ chain (hp_mem h) (frees (p + HDR * n) T2) base.
Proof using H EL EF.
  pose proof (ho_ring _ _ H) as R. rewrite EF, app_comm_cons, EL in R. apply chain_app in R as [R1 (R2 & R3 & R4)]. apply chain_app in R1 as [R1 (R5 & R6 & _)]. done.
Qed.

(** Every other free block is away from the tile. *)
Lemma grab_away a j : (a, j) ∈ PL ++ (prevp, k) :: frees (p + HDR * n) T2 -> a + HDR <= p \/ p + HDR * n <= a.
Proof using EL Ep Hp Hs1 Hs2 Hstart.
  intros Hin. assert ((a, j) ∈ (base, 0) :: frees start T1 \/ (a, j) ∈ frees (p + HDR * n) T2) as [Ha|Ha].
  { rewrite EL. apply elem_of_app in Hin as [Hin|[->|Hin]%elem_of_cons]; [left; apply elem_of_app; by left|left; apply elem_of_app; right; by left|by right]. }
  - apply elem_of_cons in Ha as [[= -> ->]|Ha]; [unfold HDR in *; lia|]. apply tiles_range in Ha; [|done]. unfold HDR in *. lia.
  - apply tiles_range in Ha; [|done]. unfold HDR in *. lia.
Qed.
Lemma grab_allocs a j : (a, j) ∈ allocs start T -> (a + HDR * j <= p \/ p + HDR * n <= a) /\ 1 <= j /\ apart prevp a /\ (prevp + HDR <= a \/ a + HDR * j <= prevp).
Proof using H ET EF EL Hstart.
  intros Hin. pose proof (ho_sized _ _ H) as Hs. assert ((prevp, k) ∈ (base, 0) :: frees start T) as Hpin by (rewrite EF, app_comm_cons, EL, <- app_assoc; apply elem_of_app; right; by left).
  pose proof (tiles_range _ _ _ _ _ Hs Hin) as Ra. split; [|split; [lia|split; [by apply (free_apart T prevp k a j)|]]].
  - assert ((p, n) ∈ frees start T) as Hpf by (rewrite EF; apply elem_of_app; right; by left). destruct (tiles_disj true false T start p n a j Hs Hpf Hin) as [[? _]|Hd]; [done|lia].
  - apply elem_of_cons in Hpin as [[= -> ->]|Hpin]; [unfold HDR in *; lia|]. pose proof (tiles_range _ _ _ _ _ Hs Hpin). destruct (tiles_disj true false T start prevp k a j Hs Hpin Hin) as [[? _]|Hd]; [done|]. unfold HDR in *. lia.
Qed.
Lemma grab_prev_ne a j : (a, j) ∈ PL ++ frees (p + HDR * n) T2 -> apart prevp a.
Proof using H EL EF Hstart.
  intros Hin. assert ((prevp, k) ∈ (base, 0) :: frees start T) as Hpin by (rewrite EF, app_comm_cons, EL, <- app_assoc; apply elem_of_app; right; by left).
  assert ((a, j) ∈ (base, 0) :: frees start T) as Hain by (rewrite EF, app_comm_cons, EL; apply elem_of_app in Hin as [Hin|Hin]; apply elem_of_app; [left; apply elem_of_app; by left|right; by right]).
  apply (free_apart_free T prevp k a j (ho_sized _ _ H) Hpin Hain). intros <-. pose proof (ring_inc h T H) as I. rewrite EF, app_comm_cons, EL, <- app_assoc in I. cbn [app] in I.
  apply elem_of_app in Hin as [Hin|Hin].
  - destruct (inc_app _ _ _ I) as [_ Hl]. specialize (Hl prevp j Hin prevp k ltac:(by left)). lia.
  - destruct (inc_suffix _ _ _ I) as (lo & I2). destruct I2 as [_ I2]. pose proof (inc_lt _ _ I2 prevp j ltac:(by right)). lia.
Qed.

Lemma grab_exact : grab h n p prevp = (p + HDR, Heap (set_ptr (hp_mem h) prevp (h_ptr (hp_mem h) p)) prevp (hp_brk h)) /\
  exists T', heap_ok (snd (grab h n p prevp)) T' /\ allocated T T' p n /\ kept T h (snd (grab h n p prevp)).
Proof using All.
  destruct grab_ring as (R1 & R2 & R3 & R4 & R5 & R6). unfold grab. rewrite R4, Z.eqb_refl. split; [done|]. cbn [snd]. rewrite R5. set (F2 := frees (p + HDR * n) T2) in *.
  pose proof (ho_bound _ _ H) as Hbd. pose proof (ho_brk _ _ H) as Hbk. rewrite ET, units_app in Hbk. cbn [units] in Hbk. pose proof (units_nonneg _ Hs1). pose proof (units_nonneg _ Hs2).
  assert (0 <= hd_addr F2 base < 2 ^ 64) as Hh.
  { assert (forall a j, (a, j) ∈ F2 -> 0 <= a < 2 ^ 64) as Ha by (intros a j Ha; apply tiles_range in Ha; [|done]; unfold HDR in *; lia). destruct F2 as [|[x j] F2']; [cbn; unfold HDR in *; lia|]. apply (Ha x j). by left. }
  destruct (write_ptr (hp_mem h) prevp (hd_addr F2 base) Hh) as (W1 & W2 & W3). set (m' := set_ptr _ _ _) in *. exists (T1 ++ (n, false) :: T2).
  assert (allocs start (T1 ++ (n, false) :: T2) = allocs start T1 ++ (p, n) :: allocs (p + HDR * n) T2) as EA by (unfold allocs; rewrite tiles_app, <- Ep; done).
  assert (allocs start T = allocs start T1 ++ allocs (p + HDR * n) T2) as EA0 by (rewrite ET; unfold allocs; rewrite tiles_app, <- Ep; done).
  assert (frees start (T1 ++ (n, false) :: T2) = frees start T1 ++ F2) as EF' by (unfold frees; rewrite tiles_app, <- Ep; done).
  split; [|split; [by exists (allocs start T1), (allocs (p + HDR * n) T2)|]].
  - split; cbn [hp_brk hp_mem hp_freep]; try done.
    + apply Forall_app. split; [done|]. by constructor.
    + rewrite units_app. cbn [units]. lia.
    + pose proof (ho_gaps _ _ H) as Hg. rewrite ET in Hg. apply gaps_app in Hg as [G1 [_ G2]]. apply gaps_app. split; [done|]. split; [by rewrite andb_false_r|by eapply gaps_false].
    + intros a j Hin. rewrite EA in Hin. assert ((a, j) = (p, n) \/ (a, j) ∈ allocs start T) as [[= -> ->]|Ha] by (rewrite EA0; rewrite elem_of_app in *; rewrite elem_of_cons in Hin; tauto).
      * destruct W3 as [W3 _]. destruct (W3 p) as [-> _]; [|done]. destruct (grab_away prevp k) as [?|?]; [apply elem_of_app; right; by left|unfold apart; lia|unfold apart, HDR in *; lia].
      * destruct (grab_allocs a j Ha) as (_ & _ & Hap & _). destruct W3 as [W3 _]. destruct (W3 a Hap) as [-> _]. by apply (ho_alloc _ _ H).
    + rewrite EF', app_comm_cons, EL. apply chain_app. split; [apply chain_app; split|].
      * apply (chain_only (hp_mem h) m' prevp); [done|intros b j Hb; apply (grab_prev_ne b j); apply elem_of_app; by left|done].
      * cbn. split; [congruence|done].
      * apply (chain_only (hp_mem h) m' prevp); [done|intros b j Hb; apply (grab_prev_ne b j); apply elem_of_app; by right|done].
    + change (base :: map fst (frees start (T1 ++ (n, false) :: T2))) with (map fst ((base, 0) :: frees start (T1 ++ (n, false) :: T2))). rewrite EF', app_comm_cons, EL, !map_app. apply elem_of_app. left. apply elem_of_app. right. by left.
  - intros a j x Hin Hx. cbn [hp_mem]. destruct W3 as [_ W3]. apply W3. destruct (grab_allocs a j Hin) as (_ & _ & _ & Hd). lia.
Qed.

Lemma grab_split nu : 1 <= nu < n ->
  exists q T', fst (grab h nu p prevp) = q + HDR /\ heap_ok (snd (grab h nu p prevp)) T' /\ allocated T T' q nu /\ kept T h (snd (grab h nu p prevp)).
Proof using All.
  intros Hnu. destruct grab_ring as (R1 & R2 & R3 & R4 & R5 & R6). unfold grab. rewrite R4, (proj2 (Z.eqb_neq n nu)) by lia. cbn zeta.
  pose proof (ho_bound _ _ H) as Hbd. pose proof (ho_brk _ _ H) as Hbk. rewrite ET, units_app in Hbk. cbn [units] in Hbk. pose proof (units_nonneg _ Hs1). pose proof (units_nonneg _ Hs2).
  rewrite size_set_size by (unfold HDR in *; lia). set (q := p + HDR * (n - nu)). cbn [fst snd]. set (F2 := frees (p + HDR * n) T2) in *. set (m' := set_size (set_size (hp_mem h) p (n - nu)) q nu).
  assert (p + HDR <= q /\ q + HDR * nu = p + HDR * n /\ HDR = 16) as (Q1 & Q2 & _) by (unfold q, HDR; lia).
  assert (h_size m' p = n - nu /\ h_ptr m' p = hd_addr F2 base /\ h_size m' q = nu) as (W1 & W2 & W4).
  { unfold m'. rewrite size_set_size_ne, size_set_size by (unfold apart, HDR in *; lia). rewrite !ptr_set_size by (unfold apart, HDR in *; lia). rewrite size_set_size by (unfold HDR in *; lia). done. }
  assert (forall b, b + HDR <= p \/ p + HDR * n <= b -> h_size m' b = h_size (hp_mem h) b /\ h_ptr m' b = h_ptr (hp_mem h) b) as W3.
  { intros b Hb. unfold m'. rewrite !size_set_size_ne by (unfold apart, HDR in *; lia). rewrite !ptr_set_size by (unfold apart, HDR in *; lia). done. }
  exists q, (T1 ++ (n - nu, true) :: (nu, false) :: T2). split; [done|].
  assert (allocs start (T1 ++ (n - nu, true) :: (nu, false) :: T2) = allocs start T1 ++ (q, nu) :: allocs (p + HDR * n) T2) as EA by (unfold allocs; rewrite tiles_app, <- Ep; cbn [tiles eqb app]; fold q; by rewrite Q2).
  assert (allocs start T = allocs start T1 ++ allocs (p + HDR * n) T2) as EA0 by (rewrite ET; unfold allocs; rewrite tiles_app, <- Ep; done).
  assert (frees start (T1 ++ (n - nu, true) :: (nu, false) :: T2) = frees start T1 ++ (p, n - nu) :: F2) as EF' by (unfold frees; rewrite tiles_app, <- Ep; cbn [tiles eqb app]; fold q; by rewrite Q2).
  split; [|split; [by exists (allocs start T1), (allocs (p + HDR * n) T2)|]].
  - split; cbn [hp_brk hp_mem hp_freep]; try done.
    + apply Forall_app. split; [done|]. constructor; [cbn; lia|]. constructor; [cbn; lia|done].
    + rewrite units_app. cbn [units]. lia.
    + pose proof (ho_gaps _ _ H) as Hg. rewrite ET in Hg. apply gaps_app in Hg as [G1 [G3 G2]]. apply gaps_app. split; [done|]. split; [done|]. split; [done|by eapply gaps_false].
    + intros a j Hin. rewrite EA in Hin. assert ((a, j) = (q, nu) \/ (a, j) ∈ allocs start T) as [[= -> ->]|Ha] by (rewrite EA0; rewrite elem_of_app in *; rewrite elem_of_cons in Hin; tauto); [done|].
      destruct (grab_allocs a j Ha) as (Hd & Hj & _). destruct (W3 a) as [-> _]; [unfold HDR in *; lia|]. by apply (ho_alloc _ _ H).
    + rewrite EF', app_comm_cons, EL. apply chain_app. split; [apply chain_app; split|].
      * apply (chain_frame (hp_mem h)); [done|]. intros b j Hb. apply W3, (grab_away b j), elem_of_app. by left.
      * cbn. destruct (W3 prevp) as [-> ->]; [apply (grab_away prevp k), elem_of_app; right; by left|done].
      * cbn. split; [done|]. split; [done|]. apply (chain_frame (hp_mem h)); [done|]. intros b j Hb. apply W3, (grab_away b j), elem_of_app. right. by right.
    + change (base :: map fst (frees start (T1 ++ (n - nu, true) :: (nu, false) :: T2))) with (map fst ((base, 0) :: frees start (T1 ++ (n - nu, true) :: (nu, false) :: T2))). rewrite EF', app_comm_cons, EL, !map_app. apply elem_of_app. left. apply elem_of_app. right. by left.
  - intros a j x Hin Hx. cbn [hp_mem]. destruct (grab_allocs a j Hin) as (Hd & _). unfold m'. rewrite !byte_set_size by (unfold HDR in *; lia). done.
Qed.
End Grab.

Lemma grab_ok h T p n prevp nu : heap_ok h T -> (p, n) ∈ frees start T -> prevp ∈ base :: map fst (frees start T) -> h_ptr (hp_mem h) prevp = p -> 1 <= nu <= n ->
  exists q T', fst (grab h nu p prevp) = q + HDR /\ heap_ok (snd (grab h nu p prevp)) T' /\ allocated T T' q nu /\ kept T h (snd (grab h nu p prevp)).
Proof using Hbase Hstart.
  intros H Hp Hpp Hl Hnu. destruct (ring_at h T p n prevp H Hp Hpp Hl) as (T1 & T2 & PL & k & E1 & E2 & E3 & E4 & E5 & E6 & E7 & E8). destruct (decide (nu = n)) as [->|Hne].
  - destruct (grab_exact h T T1 T2 p n prevp k PL H E1 E2 E3 E4 E5 E6 E7 E8) as (G1 & T' & G2). exists p, T'. split; [by rewrite G1|done].
  - apply (grab_split h T T1 T2 p n prevp k PL H E1 E2 E3 E4 E5 E6 E7 E8 nu). lia.
Qed.

(** *** The search *)

Section Search.
(** sbrk() cannot give more than the machine's memory. *)
Context (grow : Z -> Z -> bool) (Hgrow : forall b n, grow b n = true -> b + n < 2 ^ 32).

(** A run over part of the free list takes a block there, or comes to its end with all of them too small. *)
Lemma scan h T nu S : forall nxt prevp fuel, heap_ok h T -> chain (hp_mem h) S nxt -> h_ptr (hp_mem h) prevp = hd_addr S nxt -> prevp ∈ base :: map fst (frees start T) ->
  hp_freep h ∉ map fst S -> (forall a n, (a, n) ∈ S -> (a, n) ∈ (base, 0) :: frees start T) ->
  (exists p n pp, (p, n) ∈ S /\ nu <= n /\ pp ∈ base :: map fst (frees start T) /\ h_ptr (hp_mem h) pp = p /\
     malloc_loop grow (length S + fuel) nu (hd_addr S nxt) prevp h = Some (grab h nu p pp)) \/
  (exists pp, pp ∈ base :: map fst (frees start T) /\ h_ptr (hp_mem h) pp = nxt /\ (forall a n, (a, n) ∈ S -> n < nu) /\
     malloc_loop grow (length S + fuel) nu (hd_addr S nxt) prevp h = malloc_loop grow fuel nu nxt pp h).
Proof using.
  induction S as [|[a n] S IH]; intros nxt prevp fuel H C Hl Hp Hfp Hin; cbn [hd_addr length Nat.add] in *.
  - right. exists prevp. split; [done|]. split; [done|]. split; [|done]. intros a n Ha. by apply elem_of_nil in Ha.
  - destruct C as (C1 & C2 & C3). cbn [map fst] in Hfp. apply not_elem_of_cons in Hfp as [Hne Hfp]. cbn [malloc_loop]. rewrite C1. destruct (Z.geb_spec n nu) as [Hge|Hlt].
    + left. exists a, n, prevp. split; [by left|]. split; [lia|]. split; [done|]. split; [done|]. unfold grab. rewrite C1. by destruct (n =? nu).
    + rewrite (proj2 (Z.eqb_neq a (hp_freep h))) by congruence. rewrite C2.
      assert (a ∈ base :: map fst (frees start T)) as Ha by (change (base :: map fst (frees start T)) with (map fst ((base, 0) :: frees start T)); apply list_elem_of_fmap; exists (a, n); split; [done|]; apply Hin; by left).
      destruct (IH nxt a fuel H C3 C2 Ha Hfp ltac:(intros b j Hb; apply Hin; by right)) as [(p & n' & pp & B1 & B2 & B3 & B4 & B5)|(pp & B1 & B2 & B3 & B4)].
      * left. exists p, n', pp. split; [by right|]. done.
      * right. exists pp. split; [done|]. split; [done|]. split; [|done]. intros b j [[= -> ->]|Hb]%elem_of_cons; [lia|by apply (B3 b)].
Qed.

(** A round of the whole list. *)
Lemma scan_ring h T nu fuel : heap_ok h T -> 1 <= nu -> (length (frees start T) + 1 <= fuel)%nat ->
  (exists p n pp, (p, n) ∈ frees start T /\ nu <= n /\ pp ∈ base :: map fst (frees start T) /\ h_ptr (hp_mem h) pp = p /\
     malloc_loop grow fuel nu (h_ptr (hp_mem h) (hp_freep h)) (hp_freep h) h = Some (grab h nu p pp)) \/
  ((forall a n, (a, n) ∈ frees start T -> n < nu) /\
   malloc_loop grow fuel nu (h_ptr (hp_mem h) (hp_freep h)) (hp_freep h) h =
     match morecore grow (fuel - length (frees start T) - 1) nu h with
     | None => None
     | Some (p, h) => if p =? 0 then Some (0, h) else malloc_loop grow (fuel - length (frees start T) - 1) nu (h_ptr (hp_mem h) p) p h
     end).
Proof using Hbase Hstart.
  intros H Hnu Hf. pose proof (ho_freep _ _ H) as Hfp. pose proof (ho_ring _ _ H) as R. pose proof (ring_inc h T H) as I.
  assert (forall p n, (p, n) ∈ (base, 0) :: frees start T -> nu <= n -> (p, n) ∈ frees start T) as Hnb by (intros p n [[= -> ->]|?]%elem_of_cons ?; [lia|done]).
  pose proof Hfp as Hfp'. change (base :: map fst (frees start T)) with (map fst ((base, 0) :: frees start T)) in Hfp'. apply in_split_addr in Hfp' as (A & nf & B & EA).
  assert (length A + S (length B) = length (frees start T) + 1)%nat as Hlen by (apply (f_equal length) in EA; rewrite length_app in EA; cbn [length] in EA; lia).
  rewrite EA in R, I. apply chain_app in R as [R1 (R2 & R3 & R4)]. cbn [hd_addr] in R1.
  assert ((hp_freep h ∉ map fst A) /\ (hp_freep h ∉ map fst B)) as [HA HB].
  { split; intros Hin; apply list_elem_of_fmap in Hin as ([x j] & E & Hin); cbn in E; subst x.
    - destruct (inc_app _ _ _ I) as [_ Hl]. specialize (Hl _ _ Hin (hp_freep h) nf ltac:(by left)). lia.
    - destruct (inc_suffix _ _ _ I) as (lo & [_ I2]). pose proof (inc_lt _ _ I2 _ _ Hin). lia. }
  remember (fuel - length (frees start T) - 1)%nat as f eqn:Ef. assert (fuel = (length B + (length A + S f))%nat) as -> by lia. clear Ef. rewrite R3.
  destruct (scan h T nu B base (hp_freep h) (length A + S f)%nat H R4 R3 Hfp HB) as [(p & n & pp & B1 & B2 & B3 & B4 & B5)|(pp & B1 & B2 & B3 & ->)].
  { intros a n Hin. rewrite EA. apply elem_of_app. right. by right. }
  { left. exists p, n, pp. split; [apply Hnb; [rewrite EA; apply elem_of_app; right; by right|done]|]. done. }
  assert (hd_addr A (hp_freep h) = base) as Eh by (destruct A as [|[x j] A]; cbn [app hd_addr] in EA |- *; injection EA; congruence).
  assert (forall pp, pp ∈ base :: map fst (frees start T) -> h_ptr (hp_mem h) pp = hp_freep h -> (forall a n, (a, n) ∈ A -> n < nu) ->
    (exists p n pp', (p, n) ∈ frees start T /\ nu <= n /\ pp' ∈ base :: map fst (frees start T) /\ h_ptr (hp_mem h) pp' = p /\ malloc_loop grow (S f) nu (hp_freep h) pp h = Some (grab h nu p pp')) \/
    ((forall a n, (a, n) ∈ frees start T -> n < nu) /\ malloc_loop grow (S f) nu (hp_freep h) pp h =
     match morecore grow f nu h with None => None | Some (p, h) => if p =? 0 then Some (0, h) else malloc_loop grow f nu (h_ptr (hp_mem h) p) p h end)) as Hlast.
  { intros pp' P1 P2 P3. cbn [malloc_loop]. rewrite R2. destruct (Z.geb_spec nf nu) as [Hge|Hlt].
    - left. exists (hp_freep h), nf, pp'. split; [apply Hnb; [rewrite EA; apply elem_of_app; right; by left|lia]|]. split; [lia|]. split; [done|]. split; [done|]. unfold grab. rewrite R2. by destruct (nf =? nu).
    - right. rewrite Z.eqb_refl. split; [|done]. intros a n Hin. assert ((a, n) ∈ A ++ (hp_freep h, nf) :: B) as Hin' by (rewrite <- EA; by right).
      apply elem_of_app in Hin' as [Ha|[[= -> ->]|Ha]%elem_of_cons]; [by apply (P3 a)|lia|by apply (B3 a)]. }
  pose proof (scan h T nu A (hp_freep h) pp (S f) H R1 (eq_trans B2 (eq_sym Eh)) B1 HA) as Hsc. rewrite Eh in Hsc.
  destruct Hsc as [(p & n & pp' & A1 & A2 & A3 & A4 & A5)|(pp' & A1 & A2 & A3 & ->)].
  { intros a n Hin. rewrite EA. apply elem_of_app. by left. }
  { left. exists p, n, pp'. split; [apply Hnb; [rewrite EA; apply elem_of_app; by left|done]|]. done. }
  apply Hlast; done.
Qed.

(** morecore() adds a free block of the size that was asked for, or fails with the heap as it was. *)
Lemma morecore_ok h T nu fuel : heap_ok h T -> 1 <= nu < 2 ^ 27 -> (length (frees start T) + 1 <= fuel)%nat ->
  morecore grow fuel nu h = Some (0, h) /\ grow (hp_brk h) (HDR * Z.max 4096 nu) = false \/
  exists h' T', morecore grow fuel nu h = Some (hp_freep h', h') /\ heap_ok h' T' /\ allocs start T' = allocs start T /\ kept T h h' /\ hp_freep h' <> 0 /\ (length (frees start T') <= length (frees start T) + 1)%nat /\
    exists a k, (a, k) ∈ frees start T' /\ nu <= k.
Proof using Hbase Hstart Hgrow.
  intros H Hnu Hf. unfold morecore. set (n := if nu <? 4096 then 4096 else nu). assert (nu <= n < 2 ^ 27) as Hn by (unfold n; destruct (Z.ltb_spec nu 4096); lia).
  replace (s32 (n * HDR)) with (n * HDR) by (unfold s32, HDR; case_match; zlia). unfold sbrk. destruct (grow (hp_brk h) (n * HDR)) eqn:Eg; [right|left; split; [done|]; rewrite <- Eg; f_equal; unfold n, HDR; destruct (Z.ltb_spec nu 4096); lia].
  pose proof (Hgrow _ _ Eg) as Hb. pose proof (ho_brk _ _ H) as Hbk. pose proof (units_nonneg _ (ho_sized _ _ H)) as Hu. cbn [hp_mem hp_freep hp_brk].
  rewrite (proj2 (Z.eqb_neq (hp_brk h) (-1))) by (unfold HDR in *; lia).
  set (h1 := Heap (set_size (hp_mem h) (hp_brk h) n) (hp_freep h) (hp_brk h + n * HDR)). set (T1 := T ++ [(n, false)]).
  assert (allocs start T1 = allocs start T ++ [(hp_brk h, n)]) as EA by (unfold allocs, T1; rewrite tiles_app, <- Hbk; done).
  assert (frees start T1 = frees start T) as EF by (unfold frees, T1; rewrite tiles_app; cbn [tiles eqb app]; by rewrite app_nil_r).
  assert (forall a k, (a, k) ∈ (base, 0) :: frees start T -> apart (hp_brk h) a) as Hap.
  { intros a k [[= -> ->]|Hin]%elem_of_cons; [unfold apart, HDR in *; lia|]. apply tiles_range in Hin; [|apply H]. unfold apart, HDR in *. lia. }
  assert (heap_ok h1 T1) as H1.
  { split; unfold h1; cbn [hp_brk hp_mem hp_freep].
    - apply Forall_app. split; [apply H|]. constructor; [cbn; lia|constructor].
    - unfold T1. rewrite units_app. cbn [units]. unfold HDR in *. lia.
    - lia.
    - apply gaps_app. split; [apply H|]. cbn. by rewrite andb_false_r.
    - intros a k Hin. rewrite EA in Hin. apply elem_of_app in Hin as [Hin|[= -> ->]%list_elem_of_singleton]; [|apply size_set_size; lia].
      rewrite size_set_size_ne; [by apply (ho_alloc _ _ H)|]. apply tiles_range in Hin; [|apply H]. unfold apart, HDR in *. lia.
    - rewrite EF. apply (chain_frame (hp_mem h)); [apply H|]. intros a k Hin. pose proof (Hap a k Hin) as Ha. rewrite size_set_size_ne by done. by rewrite ptr_set_size by (by right).
    - rewrite EF. apply H. }
  destruct (free_ok h1 T1 T [] n (hp_brk h) fuel H1 ltac:(by split) ltac:(rewrite EF; done)) as (h' & T' & Efr & H' & EA' & _ & Hk & Hlf & a & k & Hin & Hk'). rewrite EF in Hlf.
  exists h', T'. fold h1. rewrite Efr. split; [done|]. split; [done|]. rewrite EA', app_nil_r. split; [done|]. split; [|split; [|split; [done|exists a, k; split; [done|lia]]]].
  - intros b j x Hb' Hx. rewrite (Hk b j x); [|rewrite EA', app_nil_r; done|done]. unfold h1. cbn [hp_mem]. apply byte_set_size. apply tiles_range in Hb'; [|apply H]. unfold HDR in *. lia.
  - pose proof (ho_freep _ _ H') as Hfp. intros E. rewrite E in Hfp. apply elem_of_cons in Hfp as [Hfp|Hfp]; [lia|]. apply list_elem_of_fmap in Hfp as ([x j] & Ex & Hx). cbn in Ex. subst x.
    apply tiles_range in Hx; [|apply H']. unfold HDR in *. lia.
Qed.

Lemma nunits_ok nbytes : 0 <= nbytes < 2 ^ 31 - 64 -> 1 <= nunits_of nbytes < 2 ^ 27 /\ nbytes + HDR <= HDR * nunits_of nbytes.
Proof using. intros H. unfold nunits_of, HDR, u32. rewrite Z.mod_small by zlia. zlia. Qed.

(** The outcome of malloc(): no memory, or a block. *)
Definition malloc_result (h : heap) (T : list tile) (nbytes : Z) (r : option (Z * heap)) : Prop :=
  exists p h', r = Some (p, h') /\
    (p = 0 /\ grow (hp_brk h) (HDR * Z.max 4096 (nunits_of nbytes)) = false /\ heap_ok h' T /\ kept T h h' \/
     exists n T', heap_ok h' T' /\ allocated T T' (p - HDR) n /\ nbytes + HDR <= HDR * n /\ kept T h h').

Lemma malloc_loop_ok h T nbytes fuel : heap_ok h T -> 0 <= nbytes < 2 ^ 31 - 64 -> (2 * length (frees start T) + 4 <= fuel)%nat ->
  malloc_result h T nbytes (malloc_loop grow fuel (nunits_of nbytes) (h_ptr (hp_mem h) (hp_freep h)) (hp_freep h) h).
Proof using Hbase Hstart Hgrow.
  intros H Hb Hf. destruct (nunits_ok nbytes Hb) as [Hnu Hsz]. set (nu := nunits_of nbytes) in *.
  destruct (scan_ring h T nu fuel H ltac:(lia) ltac:(lia)) as [(p & n & pp & B1 & B2 & B3 & B4 & ->)|[_ ->]].
  { destruct (grab_ok h T p n pp nu H B1 B3 B4 ltac:(lia)) as (q & T' & G1 & G2 & G3 & G4). exists (q + HDR), (snd (grab h nu p pp)). split; [rewrite <- G1; by destruct (grab h nu p pp)|].
    right. exists nu, T'. replace (q + HDR - HDR) with q by lia. done. }
  destruct (morecore_ok h T nu (fuel - length (frees start T) - 1) H Hnu ltac:(lia)) as [[-> Eg]|(h' & T' & -> & H' & EA & Hk & Hne & Hl & a & k & Hin & Hak)].
  { exists 0, h. split; [done|]. left. split; [done|]. split; [done|]. split; [done|]. by intros ? ? ? ? ?. }
  rewrite (proj2 (Z.eqb_neq _ _) Hne).
  destruct (scan_ring h' T' nu (fuel - length (frees start T) - 1) H' ltac:(lia) ltac:(lia)) as [(p & n & pp & B1 & B2 & B3 & B4 & ->)|[Hall _]]; [|specialize (Hall a k Hin); lia].
  destruct (grab_ok h' T' p n pp nu H' B1 B3 B4 ltac:(lia)) as (q & T2 & G1 & G2 & (A1 & A2 & E1 & E2) & G4). exists (q + HDR), (snd (grab h' nu p pp)). split; [rewrite <- G1; by destruct (grab h' nu p pp)|].
  right. exists nu, T2. replace (q + HDR - HDR) with q by lia. split; [done|]. split; [exists A1, A2; by rewrite <- EA|]. split; [done|].
  intros b j x Hb' Hx. rewrite (G4 b j x); [by apply (Hk b j)|by rewrite EA|done].
Qed.
End Search.

(** Before the first call there is no list. *)
Definition heap_inv (h : heap) (T : list tile) : Prop := heap_ok h T \/ T = [] /\ hp_freep h = 0 /\ hp_brk h = start /\ start < 2 ^ 32.

Lemma first_call m : start < 2 ^ 32 -> heap_ok (Heap (set_size (set_ptr m base base) base 0) base start) [].
Proof using Hbase Hstart.
  intros Hs. split; cbn [hp_brk hp_mem hp_freep units].
  - constructor. - lia. - done. - done.
  - intros a n Hin. by apply elem_of_nil in Hin.
  - cbn. rewrite size_set_size, ptr_set_size, ptr_set_ptr by (lia || by left || (unfold HDR in Hstart; lia)). done.
  - by left.
Qed.

(** C9: malloc() returns: 0, with every allocated block intact and only when the kernel refuses to extend the heap that has
    no block large enough; or a block of at least the size asked for, inside the heap, disjoint from every allocated block,
    whose bytes do not change, with the free list sorted, joined and covering the rest of the heap. *)
Theorem malloc_correct grow h T nbytes fuel : (forall b n, grow b n = true -> b + n < 2 ^ 32) -> heap_inv h T -> 0 <= nbytes < 2 ^ 31 - 64 -> (2 * length T + 4 <= fuel)%nat ->
  exists p h', malloc base grow fuel nbytes h = Some (p, h') /\ kept T h h' /\
    (p = 0 /\ grow (hp_brk h) (HDR * Z.max 4096 (nunits_of nbytes)) = false /\ heap_ok h' T \/
     exists n T', heap_ok h' T' /\ allocated T T' (p - HDR) n /\ nbytes <= HDR * (n - 1) /\ start + HDR <= p /\ p + HDR * (n - 1) <= hp_brk h' /\
       forall a k, (a, k) ∈ allocs start T -> a + HDR * k <= p - HDR \/ p + HDR * (n - 1) <= a).
Proof using Hbase Hstart.
  intros Hgrow Hi Hb Hf. pose proof (tiles_length true T start) as Hlen.
  set (h0 := if hp_freep h =? 0 then Heap (set_size (set_ptr (hp_mem h) base base) base 0) base (hp_brk h) else h).
  assert (heap_ok h0 T /\ hp_brk h0 = hp_brk h /\ kept T h h0) as (H0 & Eb & K0).
  { unfold h0. destruct Hi as [H|(-> & Ef & Ebk & Hs)].
    - pose proof (ho_freep _ _ H) as Hfp. rewrite (proj2 (Z.eqb_neq (hp_freep h) 0)); [done|]. apply elem_of_cons in Hfp as [->|Hfp]; [lia|]. apply list_elem_of_fmap in Hfp as ([x j] & -> & Hx). apply tiles_range in Hx; [|apply H]. unfold HDR in *. cbn. lia.
    - rewrite Ef. cbn [Z.eqb]. rewrite Ebk. split; [by apply first_call|]. split; [done|]. intros a k x Hin. by apply elem_of_nil in Hin. }
  destruct (malloc_loop_ok grow Hgrow h0 T nbytes fuel H0 Hb ltac:(unfold frees; lia)) as (p & h' & Hr & Hcase). exists p, h'.
  split; [exact Hr|]. rewrite Eb in Hcase. assert (forall h', kept T h0 h' -> kept T h h') as Hk by (intros h1 K a k x Hin Hx; rewrite (K a k x Hin Hx); by apply (K0 a k)).
  destruct Hcase as [(-> & Eg & H' & K)|(n & T' & H' & (A1 & A2 & E1 & E2) & Hn & K)]; (split; [by apply Hk|]); [by left|right].
  exists n, T'. assert ((p - HDR, n) ∈ allocs start T') as Hin by (rewrite E2; apply elem_of_app; right; by left). pose proof (tiles_range _ _ _ _ _ (ho_sized _ _ H') Hin) as Hr'. rewrite <- (ho_brk _ _ H') in Hr'.
  split; [done|]. split; [by exists A1, A2|]. split; [unfold HDR in *; lia|]. split; [lia|]. split; [unfold HDR in *; lia|]. intros a k Ha.
  pose proof (tiles_inc false T' start (start - 1) (ho_sized _ _ H') ltac:(lia)) as I. unfold allocs in E2. rewrite E2 in I.
  assert ((a, k) ∈ allocs start T' /\ a <> p - HDR) as [Ha' Hne].
  { rewrite E1 in Ha. unfold allocs. rewrite E2. apply elem_of_app in Ha as [Ha|Ha].
    - split; [apply elem_of_app; by left|]. destruct (inc_app _ _ _ I) as [_ Hl]. specialize (Hl a k Ha (p - HDR) n ltac:(by left)). lia.
    - split; [apply elem_of_app; right; by right|]. destruct (inc_suffix _ _ _ I) as (lo & [_ I2]). pose proof (inc_lt _ _ I2 a k Ha). lia. }
  destruct (tiles_disj false false T' start _ _ _ _ (ho_sized _ _ H') Hin Ha') as [(_ & ? & _)|Hd]; [congruence|]. unfold HDR in *. lia.
Qed.

(** C19: free() of an allocated block returns; the block leaves the allocated ones, no byte of another allocated block changes,
    and the free list is again sorted, with the block joined to its free neighbours and the whole heap covered. *)
Theorem free_correct h T p n fuel : heap_ok h T -> (p - HDR, n) ∈ allocs start T -> (length T + 1 <= fuel)%nat ->
  exists h' T', free fuel p h = Some h' /\ heap_ok h' T' /\ allocated T' T (p - HDR) n /\ hp_brk h' = hp_brk h /\ kept T' h h'.
Proof using Hbase Hstart.
  intros H Hin Hf. destruct (tiles_split _ _ _ _ _ Hin) as (T1 & T2 & ET & Ep).
  pose proof (tiles_length true T start) as Hlen. fold (frees start T) in Hlen.
  destruct (free_ok h T T1 T2 n (p - HDR) fuel H ltac:(by split) ltac:(lia)) as (h' & T' & Ef & H' & EA & Eb & K & _). replace (p - HDR + HDR) with p in Ef by lia.
  exists h', T'. split; [done|]. split; [done|]. split; [|done]. exists (allocs start T1), (allocs (p - HDR + HDR * n) T2). split; [done|].
  rewrite ET. unfold allocs. rewrite tiles_app, <- Ep. done.
Qed.
End Heap.

(** A static header at 0x1000 and a heap from 0x2000 on. *)
Definition demo_grow (b n : Z) : bool := b + n <? 0x100000.
Definition demo_heap0 : heap := Heap ∅ 0 0x2000.
Definition demo_heap : heap := match malloc 0x1000 demo_grow 4 100 demo_heap0 with Some (_, h) => h | None => demo_heap0 end.

Lemma malloc_correct_witness : exists p h', malloc 0x1000 demo_grow 4 100 demo_heap0 = Some (p, h') /\ kept 0x2000 [] demo_heap0 h' /\
  (p = 0 /\ demo_grow (hp_brk demo_heap0) (HDR * Z.max 4096 (nunits_of 100)) = false /\ heap_ok 0x1000 0x2000 h' [] \/
   exists n T', heap_ok 0x1000 0x2000 h' T' /\ allocated 0x2000 [] T' (p - HDR) n /\ 100 <= HDR * (n - 1) /\ 0x2000 + HDR <= p /\ p + HDR * (n - 1) <= hp_brk h' /\
     forall a k, (a, k) ∈ allocs 0x2000 [] -> a + HDR * k <= p - HDR \/ p + HDR * (n - 1) <= a).
Proof.
  apply (malloc_correct 0x1000 0x2000 ltac:(lia) ltac:(unfold HDR; lia) demo_grow demo_heap0 [] 100 4); [|by right|lia|cbn; lia].
  intros b n Hg. unfold demo_grow in Hg. lia.
Defined.

Lemma demo_heap_ok : heap_ok 0x1000 0x2000 demo_heap [(4088, true); (8, false)].
Proof.
  split; try (vm_compute; done).
  - repeat constructor; cbn; lia.
  - intros a n Hin. vm_compute in Hin. apply list_elem_of_singleton in Hin as [= -> ->]. vm_compute. done.
  - vm_compute. by left.
Qed.
Lemma free_correct_witness : exists h' T', free 3 0x11f90 demo_heap = Some h' /\ heap_ok 0x1000 0x2000 h' T' /\
  allocated 0x2000 T' [(4088, true); (8, false)] (0x11f90 - HDR) 8 /\ hp_brk h' = hp_brk demo_heap /\ kept 0x2000 T' demo_heap h'.
Proof.
  apply (free_correct 0x1000 0x2000 ltac:(lia) ltac:(unfold HDR; lia) demo_heap [(4088, true); (8, false)] 0x11f90 8 3 demo_heap_ok); [|cbn; lia].
  vm_compute. by left.
Defined.
