(* ===== verification/Grep.v ===== *)
(** user/grep.c: the matcher and the loop over the lines of a file.

    A string is the list of its bytes without the NUL; [re+1] is its tail.  The matcher is compared with a
    reference semantics of patterns, and the loop is proved to print the matching lines however read() cuts
    the file into pieces. *)
From S2P Require Import Prelude.
Local Open Scope Z_scope.

Definition ch_star : Z := 42.
Definition ch_dollar : Z := 36.
Definition ch_dot : Z := 46.
Definition ch_caret : Z := 94.
Definition ch_nl : Z := 10.

(** ** The matcher *)

(** matchstar(c, re, text), with [here] for matchhere(re, .). *)
Fixpoint matchstar (c : Z) (here : list Z -> bool) (text : list Z) : bool :=
  here text ||
  match text with
  | [] => false
  | t :: text' => ((t =? c) || (c =? ch_dot)) && matchstar c here text'
  end.

Fixpoint matchhere (re text : list Z) : bool :=
  match re with
  | [] => true
  | c :: re1 =>
      let one := match text with
                 | [] => false
                 | t :: text' => ((c =? ch_dot) || (c =? t)) && matchhere re1 text'
                 end in
      match re1 with
      | [] => if c =? ch_dollar then match text with [] => true | _ => false end else one
      | d :: re2 => if d =? ch_star then matchstar c (matchhere re2) text else one
      end
  end.

Fixpoint match_loop (re text : list Z) : bool :=
  matchhere re text || match text with [] => false | _ :: text' => match_loop re text' end.

Definition match_ (re text : list Z) : bool :=
  match re with
  | c :: re1 => if c =? ch_caret then matchhere re1 text else match_loop re text
  | [] => match_loop re text
  end.

(** ** The lines of a file *)

(** strchr(p, '\n') in a buffer that ends with a NUL: a NUL in the data hides what follows it. *)
Fixpoint strchr_nl (b : list Z) : option nat :=
  match b with
  | [] => None
  | c :: b' => if c =? 0 then None else if c =? ch_nl then Some O else option_map S (strchr_nl b')
  end.

(** The inner loop: what is written and what is left of the buffer. *)
Fixpoint grep_lines (fuel : nat) (pattern b : list Z) : list Z * list Z :=
  match fuel with
  | O => ([], b)
  | S f =>
      match strchr_nl b with
      | None => ([], b)
      | Some q =>
          let o := if match_ pattern (firstn q b) then firstn (q + 1) b else [] in
          let (o', r) := grep_lines f pattern (skipn (q + 1) b) in
          (o ++ o', r)
      end
  end.

Definition BUFSIZE : nat := 1024.

(** grep() on a file with the contents [input]: read() call [k] returns at most [chunk k] bytes, at least one
    while there is input and room. *)
Section Read.
Context (chunk : nat -> nat).

Fixpoint grep_loop (fuel k : nat) (pattern b input : list Z) : option (list Z) :=
  match fuel with
  | O => None
  | S f =>
      let n := Nat.min (BUFSIZE - length b - 1) (Nat.min (chunk k) (length input)) in
      match n with
      | O => Some []
      | _ =>
          let b := b ++ firstn n input in
          let (o, b) := grep_lines (length b) pattern b in
          match grep_loop f (S k) pattern b (skipn n input) with
          | Some o' => Some (o ++ o')
          | None => None
          end
      end
  end.

Definition grep (pattern input : list Z) : option (list Z) := grep_loop (S (length input)) 0 pattern [] input.
End Read.

(** ** Patterns *)

(** A pattern is a sequence of characters and of characters with a star, at the end perhaps a dollar sign. *)
Inductive item : Type := One (c : Z) | Many (c : Z).

Fixpoint items (re : list Z) : list item * bool :=
  match re with
  | [] => ([], false)
  | c :: re1 =>
      let one := let (l, e) := items re1 in (One c :: l, e) in
      match re1 with
      | [] => if c =? ch_dollar then ([], true) else one
      | d :: re2 => if d =? ch_star then let (l, e) := items re2 in (Many c :: l, e) else one
      end
  end.

Definition accepts (c x : Z) : Prop := c = ch_dot \/ c = x.

(** The words of a sequence of items. *)
Inductive lang : list item -> list Z -> Prop :=
| lang_nil : lang [] []
| lang_one c x l w : accepts c x -> lang l w -> lang (One c :: l) (x :: w)
| lang_many c l u w : Forall (accepts c) u -> lang l w -> lang (Many c :: l) (u ++ w).

(** The pattern matches at the start of the text. *)
Definition here (p : list item * bool) (text : list Z) : Prop :=
  exists w suf, text = w ++ suf /\ lang (fst p) w /\ (snd p = true -> suf = []).

Lemma matchstar_spec c h text : matchstar c h text = true <-> exists u v, text = u ++ v /\ Forall (accepts c) u /\ h v = true.
Proof.
  induction text as [|t text IH]; cbn [matchstar].
  - rewrite orb_false_r. split; [intros H; by exists [], []|]. intros (u & v & E & _ & H). symmetry in E. apply app_nil in E as [-> ->]. done.
  - rewrite orb_true_iff, andb_true_iff, orb_true_iff, !Z.eqb_eq, IH. split.
    + intros [H|[Hc (u & v & -> & Hu & H)]]; [by exists [], (t :: text)|]. exists (t :: u), v. split; [done|]. split; [|done]. constructor; [|done]. unfold accepts. intuition congruence.
    + intros ([|x u] & v & E & Hu & H); cbn in E; [left; by subst|]. injection E as -> ->. apply Forall_cons in Hu as [Hx Hu]. right. split; [unfold accepts in Hx; intuition congruence|by exists u, v].
Qed.

Lemma here_one c p text : here (One c :: fst p, snd p) text <-> exists t text', text = t :: text' /\ accepts c t /\ here p text'.
Proof.
  split.
  - intros (w & suf & -> & L & E). inversion L as [|? x ? w' Ha L'|]; subst. exists x, (w' ++ suf). split; [done|]. split; [done|]. by exists w', suf.
  - intros (t & text' & -> & Ha & w & suf & -> & L & E). exists (t :: w), suf. split; [done|]. split; [by constructor|done].
Qed.
Lemma here_many c p text : here (Many c :: fst p, snd p) text <-> exists u v, text = u ++ v /\ Forall (accepts c) u /\ here p v.
Proof.
  split.
  - intros (w & suf & -> & L & E). inversion L as [| |? ? u w' Hu L']; subst. exists u, (w' ++ suf). rewrite app_assoc. split; [done|]. split; [done|]. by exists w', suf.
  - intros (u & v & -> & Hu & w & suf & -> & L & E). exists (u ++ w), suf. rewrite app_assoc. split; [done|]. split; [by constructor|done].
Qed.

Lemma matchhere_spec n : forall re text, (length re <= n)%nat -> matchhere re text = true <-> here (items re) text.
Proof.
  induction n as [|n IH]; intros [|c re1] text Hn; cbn [length] in Hn; try lia.
  1,2: split; [intros _; exists [], text; by repeat constructor|done].
  assert (match text with [] => false | t :: text' => ((c =? ch_dot) || (c =? t)) && matchhere re1 text' end = true <->
    here (let (l, e) := items re1 in (One c :: l, e)) text) as Hone.
  { destruct (items re1) as [l e] eqn:E. rewrite (here_one c (l, e)), <- E. destruct text as [|t text]; [split; [done|naive_solver]|].
    rewrite andb_true_iff, orb_true_iff, !Z.eqb_eq, IH by lia. split; [intros [H1 H2]; by exists t, text|]. by intros (? & ? & [= <- <-] & H). }
  cbn [matchhere items]. destruct re1 as [|d re2].
  - destruct (Z.eqb_spec c ch_dollar) as [->|]; [|exact Hone]. split; [destruct text; [intros _; exists [], []; by repeat constructor|done]|].
    intros (w & suf & -> & L & E). cbn in *. inversion L. rewrite E by done. done.
  - destruct (Z.eqb_spec d ch_star) as [->|]; [|exact Hone]. cbn [length] in Hn. destruct (items re2) as [l e] eqn:E. rewrite matchstar_spec, (here_many c (l, e)), <- E.
    split; intros (u & v & H1 & H2 & H3); exists u, v; [rewrite <- IH by lia|rewrite IH by lia]; done.
Qed.

Lemma match_loop_spec re text : match_loop re text = true <-> exists pre rest, text = pre ++ rest /\ matchhere re rest = true.
Proof.
  induction text as [|t text IH]; cbn [match_loop].
  - rewrite orb_false_r. split; [intros H; by exists [], []|]. intros (p & r & E & H). symmetry in E. apply app_nil in E as [-> ->]. done.
  - rewrite orb_true_iff, IH. split.
    + intros [H|(p & r & -> & H)]; [by exists [], (t :: text)|by exists (t :: p), r].
    + intros ([|x p] & r & E & H); cbn in E; [left; by subst|]. injection E as -> ->. right. by exists p, r.
Qed.

(** C33: match() finds the pattern exactly when the text has an occurrence of it: a part that is a word of the pattern's
    items, at the start of the text when the pattern starts with a caret and at its end when it ends with a dollar sign. *)
Theorem match_correct re text :
  match_ re text = true <->
  exists pre w suf, text = pre ++ w ++ suf /\
    let (anchored, re') := match re with c :: re1 => if c =? ch_caret then (true, re1) else (false, re) | [] => (false, re) end in
    lang (fst (items re')) w /\ (anchored = true -> pre = []) /\ (snd (items re') = true -> suf = []).
Proof.
  assert (forall re', match_loop re' text = true <-> exists pre w suf, text = pre ++ w ++ suf /\ lang (fst (items re')) w /\
    (false = true -> pre = []) /\ (snd (items re') = true -> suf = [])) as Hl.
  { intros re'. rewrite match_loop_spec. split.
    - intros (pre & rest & -> & (w & suf & -> & L & E)%(matchhere_spec _ _ _ (le_n _))). exists pre, w, suf. done.
    - intros (pre & w & suf & -> & L & _ & E). exists pre, (w ++ suf). split; [done|]. rewrite (matchhere_spec _ _ _ (le_n _)). by exists w, suf. }
  destruct re as [|c re1]; cbn [match_]; [apply Hl|]. destruct (Z.eqb_spec c ch_caret) as [->|]; [|apply Hl].
  rewrite (matchhere_spec _ _ _ (le_n _)). split.
  - intros (w & suf & -> & L & E). by exists [], w, suf.
  - intros (pre & w & suf & -> & L & H & E). rewrite H by done. by exists w, suf.
Qed.

(** ** The loop *)

Definition unlines (ls : list (list Z)) : list Z := concat (map (fun l => l ++ [ch_nl]) ls).
Definition line_ok (l : list Z) : Prop := Forall (fun c => c <> 0 /\ c <> ch_nl) l /\ (length l <= BUFSIZE - 2)%nat.
Definition matching (pattern : list Z) (ls : list (list Z)) : list (list Z) := filter (fun l => match_ pattern l = true) ls.

Lemma strchr_nl_line l r : Forall (fun c => c <> 0 /\ c <> ch_nl) l -> strchr_nl (l ++ ch_nl :: r) = Some (length l).
Proof.
  induction 1 as [|c l [H1 H2] _ IH]; [done|]. cbn [strchr_nl app length]. rewrite (proj2 (Z.eqb_neq _ _) H1), (proj2 (Z.eqb_neq _ _) H2), IH. done.
Qed.
Lemma strchr_nl_none b : ch_nl ∉ b -> strchr_nl b = None.
Proof.
  induction b as [|c b IH]; [done|]. intros [H1 H2]%not_elem_of_cons. cbn [strchr_nl]. destruct (c =? 0); [done|].
  rewrite (proj2 (Z.eqb_neq c ch_nl)) by congruence. by rewrite IH.
Qed.

Lemma unlines_cons l ls t : unlines (l :: ls) ++ t = l ++ ch_nl :: unlines ls ++ t.
Proof. unfold unlines. cbn [map concat]. by rewrite <- !app_assoc. Qed.

Lemma grep_lines_spec pattern ls t : forall fuel, Forall line_ok ls -> ch_nl ∉ t -> (length ls <= fuel)%nat ->
  grep_lines fuel pattern (unlines ls ++ t) = (unlines (matching pattern ls), t).
Proof.
  induction ls as [|l ls IH]; intros fuel Hok Ht Hf.
  - destruct fuel as [|f]; [done|]. change (unlines [] ++ t) with t. cbn [grep_lines]. by rewrite (strchr_nl_none t).
  - cbn [length] in Hf. destruct fuel as [|f]; [lia|]. apply Forall_cons in Hok as [[Hl _] Hok]. rewrite unlines_cons. cbn [grep_lines]. rewrite strchr_nl_line by done.
    rewrite take_app_length. replace (length l + 1)%nat with (length (l ++ [ch_nl])) by (rewrite length_app; done).
    change (l ++ ch_nl :: unlines ls ++ t) with (l ++ [ch_nl] ++ (unlines ls ++ t)). rewrite app_assoc, take_app_length, drop_app_length, IH by (done || lia).
    unfold matching. rewrite filter_cons. destruct (match_ pattern l); cbn; [|done]. unfold unlines. cbn [map concat]. done.
Qed.

(** A prefix of the lines of a file is whole lines and the start of the next one. *)
Lemma prefix_lines ls : forall b r t, b ++ r = unlines ls ++ t -> ch_nl ∉ t ->
  exists ls1 ls2 u, ls = ls1 ++ ls2 /\ b = unlines ls1 ++ u /\ u ++ r = unlines ls2 ++ t /\ (Forall (fun l => ch_nl ∉ l) ls -> ch_nl ∉ u).
Proof.
  induction ls as [|l ls IH]; intros b r t E Ht.
  - exists [], [], b. split; [done|]. split; [done|]. split; [done|]. intros _ Hb. apply Ht. cbn in E. rewrite <- E. apply elem_of_app. by left.
  - destruct (decide (length b <= length l)%nat) as [Hle|Hgt].
    + exists [], (l :: ls), b. split; [done|]. split; [done|]. split; [done|]. intros [Hl _]%Forall_cons Hb. apply Hl.
      rewrite unlines_cons in E. assert (b = firstn (length b) l) as Eb; [|rewrite Eb in Hb; by apply (subseteq_take (length b)) in Hb].
      rewrite <- (take_app_le l (ch_nl :: unlines ls ++ t)), <- E, take_app_length by done. done.
    + rewrite unlines_cons in E. change (ch_nl :: unlines ls ++ t) with ([ch_nl] ++ (unlines ls ++ t)) in E. rewrite app_assoc in E.
      assert (exists b', b = (l ++ [ch_nl]) ++ b') as (b' & ->).
      { exists (drop (length (l ++ [ch_nl])) b). rewrite <- (take_drop (length (l ++ [ch_nl])) b) at 1. f_equal.
        rewrite <- (take_app_le b r) by (rewrite length_app; cbn; lia). rewrite E. by rewrite take_app_length. }
      rewrite <- app_assoc in E. apply app_inv_head in E. destruct (IH b' r t E Ht) as (ls1 & ls2 & u & -> & -> & E2 & Hu).
      exists (l :: ls1), ls2, u. split; [done|]. split; [rewrite unlines_cons, <- app_assoc; done|]. split; [done|]. intros [_ H]%Forall_cons. by apply Hu.
Qed.

Lemma line_ok_nl l : line_ok l -> ch_nl ∉ l.
Proof. intros [H _] Hin. rewrite Forall_forall in H. by destruct (H _ Hin). Qed.

Lemma unlines_length ls t : (length ls <= length (unlines ls ++ t))%nat.
Proof. induction ls as [|l ls IH]; [cbn; lia|]. rewrite unlines_cons, length_app. cbn [length]. lia. Qed.

Lemma unlines_app ls1 ls2 : unlines (ls1 ++ ls2) = unlines ls1 ++ unlines ls2.
Proof. unfold unlines. by rewrite map_app, concat_app. Qed.

(** The part of a line that is in the buffer leaves room. *)
Lemma prefix_room ls b r t : b ++ r = unlines ls ++ t -> ch_nl ∉ b -> Forall line_ok ls -> ls <> [] -> (length b < BUFSIZE - 1)%nat /\ r <> [].
Proof.
  intros E Hb Hok Hne. destruct ls as [|l ls]; [done|]. apply Forall_cons in Hok as [[_ Hl] _]. rewrite unlines_cons in E.
  assert (length b <= length l)%nat as Hle.
  { destruct (decide (length b <= length l)%nat) as [|Hgt]; [done|]. destruct Hb. apply list_elem_of_lookup. exists (length l).
    rewrite <- (lookup_app_l b r) by lia. rewrite E. by rewrite list_lookup_middle. }
  split; [unfold BUFSIZE in *; lia|]. intros ->. rewrite app_nil_r in E. apply (f_equal length) in E. rewrite length_app in E. cbn in E. lia.
Qed.

Lemma grep_loop_spec chunk pattern fuel : forall k b input ls t, (forall k, 0 < chunk k)%nat -> b ++ input = unlines ls ++ t -> ch_nl ∉ b -> ch_nl ∉ t -> Forall line_ok ls ->
  (length input < fuel)%nat -> grep_loop chunk fuel k pattern b input = Some (unlines (matching pattern ls)).
Proof.
  induction fuel as [|f IH]; intros k b input ls t Hc E Hb Ht Hok Hf; [lia|]. cbn [grep_loop].
  destruct (Nat.min _ _) as [|n'] eqn:En.
  - destruct ls as [|l ls]; [done|]. destruct (prefix_room _ _ _ _ E Hb Hok ltac:(done)) as [H1 H2]. specialize (Hc k).
    assert (length input <> 0)%nat by (intros H%nil_length_inv; done). lia.
  - rewrite <- En. set (n := Nat.min _ _) in *. assert (0 < n <= length input)%nat as Hn by lia. clearbody n.
    assert ((b ++ firstn n input) ++ skipn n input = unlines ls ++ t) as E' by (by rewrite <- app_assoc, take_drop).
    destruct (prefix_lines ls _ _ _ E' Ht) as (ls1 & ls2 & u & -> & Eb & Eu & Hu). specialize (Hu (Forall_impl _ _ _ Hok line_ok_nl)). apply Forall_app in Hok as [Hok1 Hok2].
    rewrite Eb, grep_lines_spec by (done || apply unlines_length). rewrite (IH _ _ _ ls2 t) by (done || (rewrite length_drop; lia)).
    unfold matching. by rewrite filter_app, unlines_app.
Qed.

(** C32: On a file of lines that fit the buffer and have no NUL, grep() returns and prints exactly the lines that match, in
    order, however read() cuts the file into pieces.  What follows the last newline is not looked at. *)
Theorem grep_correct chunk pattern ls t : (forall k, 0 < chunk k)%nat -> Forall line_ok ls -> ch_nl ∉ t ->
  grep chunk pattern (unlines ls ++ t) = Some (unlines (filter (fun l => match_ pattern l = true) ls)).
Proof. intros Hc Hok Ht. unfold grep. apply (grep_loop_spec chunk pattern _ 0 [] _ ls t Hc); [done|by apply not_elem_of_nil|done|done|lia]. Qed.

Lemma grep_correct_witness : Forall line_ok [[97; 98]; [99]] /\
  grep (fun _ => 2%nat) [97; 46] (unlines [[97; 98]; [99]] ++ [97]) = Some (unlines (filter (fun l => match_ [97; 46] l = true) [[97; 98]; [99]])).
Proof.
  assert (Forall line_ok [[97; 98]; [99]]) as H by (repeat constructor; cbn; try done; lia).
  split; [exact H|]. apply grep_correct; [intros; lia|exact H|]. intros [E|E]%elem_of_cons; [done|by apply elem_of_nil in E].
Defined.

(** A line that does not fit the buffer ends the loop: nothing of it or after it is printed. *)
Lemma grep_long_line pattern l r : Forall (fun c => c <> 0 /\ c <> ch_nl) l -> length l = (BUFSIZE - 1)%nat ->
  grep (fun _ => BUFSIZE) pattern (l ++ r) = Some [].
Proof.
  intros Hl Hn. assert (ch_nl ∉ l) as Hnl by (intros Hin; rewrite Forall_forall in Hl; by destruct (Hl _ Hin)).
  assert (grep_lines (length l) pattern l = ([], l)) as E by (apply (grep_lines_spec pattern [] l); [constructor|done|cbn; lia]).
  assert (Nat.min (BUFSIZE - 0 - 1) (Nat.min BUFSIZE (length (l ++ r))) = length l) as Em by (rewrite length_app, Hn; unfold BUFSIZE; lia).
  assert (BUFSIZE - length l - 1 = 0)%nat as E0 by (rewrite Hn; unfold BUFSIZE; lia). unfold grep.
  destruct (length (l ++ r)) as [|f] eqn:Elen; [rewrite length_app, Hn in Elen; unfold BUFSIZE in Elen; lia|]. cbn [grep_loop length]. rewrite Elen, Em.
  destruct (length l) as [|n] eqn:El; [unfold BUFSIZE in Hn; lia|]. cbn [app]. rewrite <- El in E |- *. rewrite take_app_length, E.
  cbn [grep_loop]. rewrite El, E0. done.
Qed.
