(* ===== verification/Sh.v ===== *)
(** The parser of the shell, user/sh.c, over the memory that holds the command line.

    A pointer into the line is an address.  The constructors allocate with malloc, whose result the source does not
    check; the tree they build is the value of type [cmd].  parseexec() keeps a pointer to the EXEC node inside the
    redirections it wraps around it: here the redirections are a list until the node is complete. *)
From S2P Require Import Prelude Machine UserLib.
Local Open Scope Z_scope.

Definition MAXARGS : nat := 10.

(** ** Commands *)

(** An argument or a file name from [q] to [eq], [eq] excluded. *)
Definition span : Type := Z * Z.
Record redir : Type := Redir { r_file : span; r_mode : Z; r_fd : Z }.

Inductive cmd : Type :=
| EXEC (argv : list span)
| REDIR (c : cmd) (r : redir)
| PIPE (left right : cmd)
| LIST (left right : cmd)
| BACK (c : cmd).

(** The redirections around a command, the outermost first. *)
Definition wrap (rs : list redir) (c : cmd) : cmd := foldr (fun r c => REDIR c r) c rs.

(** ** Tokens *)

Definition whitespace : list Z := [32; 9; 13; 10; 11].
Definition ch_lt : Z := 60.
Definition ch_bar : Z := 124.
Definition ch_gt : Z := 62.
Definition ch_amp : Z := 38.
Definition ch_semi : Z := 59.
Definition ch_lp : Z := 40.
Definition ch_rp : Z := 41.
Definition ch_plus : Z := 43.
Definition ch_a : Z := 97.
Definition symbols : list Z := [ch_lt; ch_bar; ch_gt; ch_amp; ch_semi; ch_lp; ch_rp].

(** strchr() of a string constant, as a condition. *)
Definition in_str (set : list Z) (c : Z) : bool := existsb (Z.eqb c) set.

(** [while(s < es && strchr(whitespace, *s)) s++], and the loop over the characters of a word; the fuel is the
    number of bytes up to [es]. *)
Fixpoint skip_loop (k : nat) (m : gmap Z Z) (s es : Z) : Z :=
  match k with
  | O => s
  | S k' => if (s <? es) && in_str whitespace (mget m s) then skip_loop k' m (s + 1) es else s
  end.
Definition skip (m : gmap Z Z) (s es : Z) : Z := skip_loop (Z.to_nat (es - s)) m s es.

Fixpoint word_loop (k : nat) (m : gmap Z Z) (s es : Z) : Z :=
  match k with
  | O => s
  | S k' =>
      if (s <? es) && negb (in_str whitespace (mget m s)) && negb (in_str symbols (mget m s))
      then word_loop k' m (s + 1) es else s
  end.
Definition word_end (m : gmap Z Z) (s es : Z) : Z := word_loop (Z.to_nat (es - s)) m s es.

(** The kind of the token, its span and the new *ps. *)
Definition gettoken (m : gmap Z Z) (ps es : Z) : Z * span * Z :=
  let s := skip m ps es in
  let q := s in
  let c := mget m s in
  let '(ret, s) :=
    if c =? 0 then (c, s)
    else if in_str [ch_bar; ch_lp; ch_rp; ch_semi; ch_amp; ch_lt] c then (c, s + 1)
    else if c =? ch_gt then
      let s := s + 1 in
      if mget m s =? ch_gt then (ch_plus, s + 1) else (c, s)
    else (ch_a, word_end m s es) in
  let eq := s in
  (ret, (q, eq), skip m s es).

Definition peek (m : gmap Z Z) (ps es : Z) (toks : list Z) : bool * Z :=
  let s := skip m ps es in
  (negb (mget m s =? 0) && in_str toks (mget m s), s).

(** ** The parser *)

(** A parsing routine returns with the new *ps, or panic() ends the process. *)
Inductive pres (A : Type) : Type :=
| POk (a : A) (s : Z)
| PPanic (msg : string)
| PFuel.
Arguments POk {A} a s.
Arguments PPanic {A} msg.
Arguments PFuel {A}.

Definition pbind {A B} (r : pres A) (k : A -> Z -> pres B) : pres B :=
  match r with POk a s => k a s | PPanic msg => PPanic msg | PFuel => PFuel end.

Section Parse.
Context (m : gmap Z Z) (es : Z).

Fixpoint parseredirs (k : nat) (rs : list redir) (s : Z) : pres (list redir) :=
  let '(b, s) := peek m s es [ch_lt; ch_gt] in
  if negb b then POk rs s
  else
    match k with
    | O => PFuel
    | S k' =>
        let '(tok, _, s) := gettoken m s es in
        let '(tok2, w, s) := gettoken m s es in
        if negb (tok2 =? ch_a) then PPanic "missing file for redirection"
        else if tok =? ch_lt then parseredirs k' (Redir w O_RDONLY 0 :: rs) s
        else if tok =? ch_gt then parseredirs k' (Redir w (Z.lor (Z.lor O_WRONLY O_CREATE) O_TRUNC) 1 :: rs) s
        else if tok =? ch_plus then parseredirs k' (Redir w (Z.lor O_WRONLY O_CREATE) 1 :: rs) s
        else parseredirs k' rs s
    end.
Definition redirs (rs : list redir) (s : Z) : pres (list redir) := parseredirs (Z.to_nat (es - s)) rs s.

(** The loop of parseexec(). *)
Fixpoint exec_loop (k : nat) (argv : list span) (rs : list redir) (s : Z) : pres cmd :=
  let '(b, s) := peek m s es [ch_bar; ch_rp; ch_amp; ch_semi] in
  if b then POk (wrap rs (EXEC argv)) s
  else
    match k with
    | O => PFuel
    | S k' =>
        let '(tok, w, s) := gettoken m s es in
        if tok =? 0 then POk (wrap rs (EXEC argv)) s
        else if negb (tok =? ch_a) then PPanic "syntax"
        else
          let argv := argv ++ [w] in
          if (MAXARGS <=? length argv)%nat then PPanic "too many args"
          else pbind (redirs rs s) (fun rs s => exec_loop k' argv rs s)
    end.

(** The loop of parseline(). *)
Fixpoint back_loop (k : nat) (c : cmd) (s : Z) : pres cmd :=
  let '(b, s) := peek m s es [ch_amp] in
  if negb b then POk c s
  else
    match k with
    | O => PFuel
    | S k' => let '(_, _, s) := gettoken m s es in back_loop k' (BACK c) s
    end.

Fixpoint parseline (fuel : nat) (s : Z) {struct fuel} : pres cmd :=
  match fuel with
  | O => PFuel
  | S f =>
      pbind (parsepipe f s) (fun c s =>
      pbind (back_loop (Z.to_nat (es - s)) c s) (fun c s =>
      let '(b, s) := peek m s es [ch_semi] in
      if b then
        let '(_, _, s) := gettoken m s es in
        pbind (parseline f s) (fun c' s => POk (LIST c c') s)
      else POk c s))
  end
with parsepipe (fuel : nat) (s : Z) {struct fuel} : pres cmd :=
  match fuel with
  | O => PFuel
  | S f =>
      pbind (parseexec f s) (fun c s =>
      let '(b, s) := peek m s es [ch_bar] in
      if b then
        let '(_, _, s) := gettoken m s es in
        pbind (parsepipe f s) (fun c' s => POk (PIPE c c') s)
      else POk c s)
  end
with parseexec (fuel : nat) (s : Z) {struct fuel} : pres cmd :=
  match fuel with
  | O => PFuel
  | S f =>
      let '(b, s) := peek m s es [ch_lp] in
      if b then parseblock f s
      else pbind (redirs [] s) (fun rs s => exec_loop (S (Z.to_nat (es - s))) [] rs s)
  end
with parseblock (fuel : nat) (s : Z) {struct fuel} : pres cmd :=
  match fuel with
  | O => PFuel
  | S f =>
      let '(b, s) := peek m s es [ch_lp] in
      if negb b then PPanic "parseblock"
      else
        let '(_, _, s) := gettoken m s es in
        pbind (parseline f s) (fun c s =>
        let '(b, s) := peek m s es [ch_rp] in
        if negb b then PPanic "syntax - missing )"
        else
          let '(_, _, s) := gettoken m s es in
          pbind (redirs [] s) (fun rs s => POk (wrap rs c) s))
  end.
End Parse.

(** ** Ending the strings *)

Fixpoint nulterminate_args (m : gmap Z Z) (l : list span) : gmap Z Z :=
  match l with [] => m | (_, eq) :: l' => nulterminate_args (mset m eq 0) l' end.

Fixpoint nulterminate (m : gmap Z Z) (c : cmd) : gmap Z Z :=
  match c with
  | EXEC argv => nulterminate_args m argv
  | REDIR c r => mset (nulterminate m c) (snd (r_file r)) 0
  | PIPE l r => nulterminate (nulterminate m l) r
  | LIST l r => nulterminate (nulterminate m l) r
  | BACK c => nulterminate m c
  end.

(** The nesting of the parser is at most four calls per token. *)
Definition parsecmd (fuel : nat) (m : gmap Z Z) (s : Z) : pres (gmap Z Z * cmd) :=
  match strlen fuel m s with
  | None => PFuel
  | Some n =>
      let es := s + n in
      pbind (parseline m es (4 * Z.to_nat n + 4) s) (fun c s =>
      let '(_, s) := peek m s es [] in
      if negb (s =? es) then PPanic "syntax" else POk (nulterminate m c, c) s)
  end.
