(* ===== verification/ShParse.v ===== *)
(** The shell's parser implements its grammar.

    [lexes] splits a line into tokens, [g_line] and its companions are the grammar of command lines over tokens.
    The routines of [Sh] are proved sound and complete for them, to return on every line, and to leave each argument
    as a string of its own in memory. *)
From S2P Require Import Prelude Machine UserLib Sh.
Local Open Scope Z_scope.

(** ** The lexical rules *)

Inductive token : Type := Tok (t : Z) (w : span).

Definition plain (c : Z) : bool := negb (in_str whitespace c) && negb (in_str symbols c).

(** The tokens of the line from [a] up to [es]. *)
Inductive lexes (m : gmap Z Z) (es : Z) : Z -> list token -> Prop :=
| lx_end : lexes m es es []
| lx_blank a ts : a < es -> in_str whitespace (mget m a) = true -> lexes m es (a + 1) ts -> lexes m es a ts
| lx_sym a ts : a < es -> in_str [ch_bar; ch_lp; ch_rp; ch_semi; ch_amp; ch_lt] (mget m a) = true -> lexes m es (a + 1) ts ->
    lexes m es a (Tok (mget m a) (a, a + 1) :: ts)
| lx_gt a ts : a < es -> mget m a = ch_gt -> mget m (a + 1) <> ch_gt -> lexes m es (a + 1) ts -> lexes m es a (Tok ch_gt (a, a + 1) :: ts)
| lx_app a ts : a + 1 < es -> mget m a = ch_gt -> mget m (a + 1) = ch_gt -> lexes m es (a + 2) ts -> lexes m es a (Tok ch_plus (a, a + 2) :: ts)
| lx_word a b ts : a < b <= es -> (forall x, a <= x < b -> plain (mget m x) = true) -> (b = es \/ plain (mget m b) = false) -> lexes m es b ts ->
    lexes m es a (Tok ch_a (a, b) :: ts).

(** ** The grammar *)

(** What a redirection operator and a file name make. *)
Definition redir_of (t : Z) (w : span) : option redir :=
  if t =? ch_lt then Some (Redir w O_RDONLY 0)
  else if t =? ch_gt then Some (Redir w (Z.lor (Z.lor O_WRONLY O_CREATE) O_TRUNC) 1)
  else if t =? ch_plus then Some (Redir w (Z.lor O_WRONLY O_CREATE) 1)
  else None.

Inductive g_redirs : list token -> list redir -> Prop :=
| g_rnil : g_redirs [] []
| g_rcons t u w r ts rs : redir_of t w = Some r -> g_redirs ts rs -> g_redirs (Tok t u :: Tok ch_a w :: ts) (r :: rs).

(** Words and redirections in any order. *)
Inductive g_items : list token -> list span -> list redir -> Prop :=
| g_inil : g_items [] [] []
| g_iword w ts ws rs : g_items ts ws rs -> g_items (Tok ch_a w :: ts) (w :: ws) rs
| g_iredir t u w r ts ws rs : redir_of t w = Some r -> g_items ts ws rs -> g_items (Tok t u :: Tok ch_a w :: ts) ws (r :: rs).

Inductive g_exec : list token -> cmd -> Prop :=
| g_simple ts ws rs : g_items ts ws rs -> (length ws < MAXARGS)%nat -> g_exec ts (wrap (rev rs) (EXEC ws))
| g_block u v ts tr c rs : g_line ts c -> g_redirs tr rs -> g_exec (Tok ch_lp u :: ts ++ Tok ch_rp v :: tr) (wrap (rev rs) c)
with g_pipe : list token -> cmd -> Prop :=
| g_pone ts c : g_exec ts c -> g_pipe ts c
| g_pbar ts u ts' c c' : g_exec ts c -> g_pipe ts' c' -> g_pipe (ts ++ Tok ch_bar u :: ts') (PIPE c c')
with g_back : list token -> cmd -> Prop :=
| g_bpipe ts c : g_pipe ts c -> g_back ts c
| g_bamp ts u c : g_back ts c -> g_back (ts ++ [Tok ch_amp u]) (BACK c)
with g_line : list token -> cmd -> Prop :=
| g_lone ts c : g_back ts c -> g_line ts c
| g_lsemi ts u ts' c c' : g_back ts c -> g_line ts' c' -> g_line (ts ++ Tok ch_semi u :: ts') (LIST c c').

Scheme g_exec_mut := Induction for g_exec Sort Prop
with g_pipe_mut := Induction for g_pipe Sort Prop
with g_back_mut := Induction for g_back Sort Prop
with g_line_mut := Induction for g_line Sort Prop.
Combined Scheme g_mut from g_exec_mut, g_pipe_mut, g_back_mut, g_line_mut.

(** ** The lexer *)

Lemma in_str_app a b c : in_str (a ++ b) c = in_str a c || in_str b c.
Proof. apply existsb_app. Qed.
Lemma in_str_true set c : in_str set c = true <-> c ∈ set.
Proof.
  unfold in_str. rewrite existsb_exists. split.
  - intros (x & H1 & H2%Z.eqb_eq). subst. by apply list_elem_of_In.
  - intros H. exists c. split; [by apply list_elem_of_In|apply Z.eqb_refl].
Qed.

(** The kinds of a character exclude each other. *)
Definition kind_excl (c : Z) : Prop :=
  (in_str whitespace c = true -> in_str symbols c = false /\ c <> 0) /\
  (in_str [ch_bar; ch_lp; ch_rp; ch_semi; ch_amp; ch_lt] c = true -> c <> ch_gt /\ c <> 0 /\ in_str symbols c = true /\ c <> ch_a /\ c <> ch_plus) /\
  (plain c = true -> c <> ch_gt /\ in_str [ch_bar; ch_lp; ch_rp; ch_semi; ch_amp; ch_lt] c = false /\ in_str whitespace c = false /\ in_str symbols c = false).
Lemma kinds c : kind_excl c.
Proof.
  split; [|split].
  - rewrite in_str_true. intros H. assert (c = 32 \/ c = 9 \/ c = 13 \/ c = 10 \/ c = 11) as Hc by (unfold whitespace in H; set_solver). naive_solver.
  - rewrite in_str_true. intros H. assert (c = ch_bar \/ c = ch_lp \/ c = ch_rp \/ c = ch_semi \/ c = ch_amp \/ c = ch_lt) as Hc by set_solver. naive_solver.
  - unfold plain. rewrite andb_true_iff, !negb_true_iff. intros [H1 H2]. split; [intros ->; done|]. split; [|done].
    apply not_true_iff_false. rewrite in_str_true. intros E. assert (c ∈ symbols) as Hs%in_str_true by (unfold symbols; set_solver). congruence.
Qed.

Section Lex.
Context (m : gmap Z Z) (s0 es : Z) (Hnul : mget m es = 0) (Hnz : forall a, s0 <= a < es -> mget m a <> 0).

Lemma skip_loop_spec k : forall s, s <= es -> es - s <= Z.of_nat k ->
  s <= skip_loop k m s es <= es /\ (forall x, s <= x < skip_loop k m s es -> in_str whitespace (mget m x) = true) /\
  (skip_loop k m s es = es \/ in_str whitespace (mget m (skip_loop k m s es)) = false).
Proof using.
  induction k as [|k IH]; intros s Hs Hk; cbn [skip_loop]; [split; [lia|]; split; [lia|left; lia]|].
  destruct (Z.ltb_spec s es); cbn [andb]; [|split; [lia|]; split; [lia|left; lia]].
  destruct (in_str whitespace (mget m s)) eqn:E; [|split; [lia|]; split; [lia|by right]].
  destruct (IH (s + 1) ltac:(lia) ltac:(lia)) as (H1 & H2 & H3). split; [lia|]. split; [|done].
  intros x Hx. destruct (decide (x = s)) as [->|]; [done|]. apply H2. lia.
Qed.
Lemma skip_spec s : s <= es -> s <= skip m s es <= es /\ (forall x, s <= x < skip m s es -> in_str whitespace (mget m x) = true) /\
  (skip m s es = es \/ in_str whitespace (mget m (skip m s es)) = false).
Proof using. intros Hs. apply skip_loop_spec; lia. Qed.

Lemma word_loop_spec k : forall s, s <= es -> es - s <= Z.of_nat k ->
  s <= word_loop k m s es <= es /\ (forall x, s <= x < word_loop k m s es -> plain (mget m x) = true) /\
  (word_loop k m s es = es \/ plain (mget m (word_loop k m s es)) = false).
Proof using.
  induction k as [|k IH]; intros s Hs Hk; cbn [word_loop]; [split; [lia|]; split; [lia|left; lia]|].
  destruct (Z.ltb_spec s es); cbn [andb]; [|split; [lia|]; split; [lia|left; lia]]. fold (plain (mget m s)).
  destruct (plain (mget m s)) eqn:E; [|split; [lia|]; split; [lia|by right]].
  destruct (IH (s + 1) ltac:(lia) ltac:(lia)) as (H1 & H2 & H3). split; [lia|]. split; [|done].
  intros x Hx. destruct (decide (x = s)) as [->|]; [done|]. apply H2. lia.
Qed.
Lemma word_spec s : s <= es -> s <= word_end m s es <= es /\ (forall x, s <= x < word_end m s es -> plain (mget m x) = true) /\
  (word_end m s es = es \/ plain (mget m (word_end m s es)) = false).
Proof using. intros Hs. apply word_loop_spec; lia. Qed.

(** Two ends of the same run of plain characters are equal. *)
Lemma run_end (f : Z -> bool) a b b' : a <= b <= es -> a <= b' <= es -> (forall x, a <= x < b -> f x = true) -> (forall x, a <= x < b' -> f x = true) ->
  (b = es \/ f b = false) -> (b' = es \/ f b' = false) -> b = b'.
Proof using.
  intros Hb Hb' H H' E E'. destruct (decide (b < b')) as [Hlt|]; [destruct E as [->|E]; [lia|]; rewrite H' in E; [done|lia]|].
  destruct (decide (b' < b)) as [Hlt|]; [destruct E' as [->|E']; [lia|]; rewrite H in E'; [done|lia]|lia].
Qed.

Lemma lexes_skip s ts : s <= es -> lexes m es s ts -> lexes m es (skip m s es) ts.
Proof using.
  clear Hnul Hnz. intros Hs L. destruct (skip_spec s Hs) as (H1 & H2 & _). set (e := skip m s es) in *. clearbody e. revert s ts Hs L H1 H2.
  assert (forall n s ts, Z.to_nat (e - s) = n -> s <= e <= es -> lexes m es s ts -> (forall x, s <= x < e -> in_str whitespace (mget m x) = true) -> lexes m es e ts) as H;
    [|intros s ts Hs L H1 H2; by apply (H _ s ts eq_refl)].
  induction n as [|n IH]; intros s ts Hn Hs L Hx; [by replace e with s by lia|]. specialize (Hx s ltac:(lia)) as Hb. destruct (kinds (mget m s)) as (K1 & K2 & K3).
  destruct (K1 Hb) as [K4 K5]. apply (IH (s + 1)); [lia|lia| |intros; apply Hx; lia].
  inversion L as [|? ? ? ? L'|? ? ? E|? ? ? E|? ? ? E|? b ? ? Hp]; subst; [lia|done| | | |].
  - destruct (K2 E) as (_ & _ & E' & _). congruence.
  - rewrite E in Hb. done.
  - rewrite E in Hb. done.
  - specialize (Hp s ltac:(lia)). destruct (K3 Hp) as (_ & _ & E' & _). congruence.
Qed.

Lemma lexes_unskip s ts : s <= es -> lexes m es (skip m s es) ts -> lexes m es s ts.
Proof using.
  intros Hs. destruct (skip_spec s Hs) as (H1 & H2 & _). set (e := skip m s es) in *. clearbody e. intros L.
  assert (forall n s, Z.to_nat (e - s) = n -> s <= e -> (forall x, s <= x < e -> in_str whitespace (mget m x) = true) -> lexes m es s ts) as H; [|apply (H _ s eq_refl); [lia|done]].
  induction n as [|n IH]; intros a Hn Ha Hx; [by replace a with e by lia|]. apply lx_blank; [lia|apply Hx; lia|]. apply IH; [lia|lia|]. intros; apply Hx; lia.
Qed.

(** The first token decides what the lexer sees. *)
Lemma first_token s ts : s0 <= s <= es -> (s = es \/ in_str whitespace (mget m s) = false) -> lexes m es s ts ->
  match ts with
  | [] => s = es
  | Tok t (q, e) :: ts' => q = s /\ s < es /\ s < e <= es /\ lexes m es e ts' /\
      (t = mget m s /\ in_str [ch_bar; ch_lp; ch_rp; ch_semi; ch_amp; ch_lt] t = true /\ e = s + 1 \/
       t = ch_gt /\ mget m s = ch_gt /\ mget m (s + 1) <> ch_gt /\ e = s + 1 \/
       t = ch_plus /\ mget m s = ch_gt /\ mget m (s + 1) = ch_gt /\ e = s + 2 \/
       t = ch_a /\ plain (mget m s) = true /\ e = word_end m s es)
  end.
Proof using Hnul Hnz.
  intros Hs Hw L. inversion L as [|? ? Ha Hb|? ? Ha Hb|? ? Ha Hb|? ? Ha Hb|? b ? Hab Hp Hl L']; subst; try done.
  - destruct Hw as [->|Hw]; [lia|congruence].
  - split; [done|]. split; [done|]. split; [lia|]. split; [done|]. by left.
  - split; [done|]. split; [done|]. split; [lia|]. split; [done|]. right. by left.
  - split; [done|]. split; [lia|]. split; [lia|]. split; [done|]. right. right. by left.
  - split; [done|]. split; [lia|]. split; [lia|]. split; [done|]. right. right. right. split; [done|]. split; [apply Hp; lia|].
    destruct (word_spec s ltac:(lia)) as (W1 & W2 & W3). apply (run_end (fun x => plain (mget m x)) s); try done; lia.
Qed.

Lemma gettoken_lexes s ts : s0 <= s <= es -> lexes m es s ts ->
  match ts with
  | [] => exists w, gettoken m s es = (0, w, es)
  | Tok t w :: ts' => t <> 0 /\ exists s', gettoken m s es = (t, w, s') /\ lexes m es s' ts' /\ s < s' <= es
  end.
Proof using Hnul Hnz.
  intros Hs L. apply lexes_skip in L; [|lia]. destruct (skip_spec s ltac:(lia)) as (S1 & _ & S2). unfold gettoken. set (a := skip m s es) in *.
  pose proof (first_token a ts ltac:(lia) S2 L) as F. destruct ts as [|[t [q e]] ts'].
  - rewrite F, Hnul. cbn [Z.eqb]. exists (es, es). repeat f_equal. destruct (skip_spec es ltac:(lia)). lia.
  - destruct F as (-> & F1 & F2 & F3 & F4). pose proof (Hnz a ltac:(lia)) as Hz. rewrite (proj2 (Z.eqb_neq _ _) Hz). destruct (kinds (mget m a)) as (K1 & K2 & K3).
    assert (forall r, (r, (a, e), skip m e es) = (t, (a, e), skip m e es) -> t <> 0 ->
      t <> 0 /\ exists s', (r, (a, e), skip m e es) = (t, (a, e), s') /\ lexes m es s' ts' /\ s < s' <= es) as Hdone.
    { intros r Hr Ht. split; [done|]. exists (skip m e es). split; [done|]. split; [apply lexes_skip; [lia|done]|]. destruct (skip_spec e ltac:(lia)). lia. }
    destruct F4 as [(-> & E & ->)|[(-> & E & E2 & ->)|[(-> & E & E2 & ->)|(-> & E & ->)]]].
    + rewrite E. by apply Hdone.
    + rewrite E. change (in_str _ ch_gt) with false. rewrite Z.eqb_refl. rewrite (proj2 (Z.eqb_neq _ _) E2). by apply Hdone.
    + rewrite E. change (in_str _ ch_gt) with false. rewrite Z.eqb_refl, E2, Z.eqb_refl. replace (a + 1 + 1) with (a + 2) by lia. by apply Hdone.
    + destruct (K3 E) as (E1 & -> & _). rewrite (proj2 (Z.eqb_neq _ _) E1). by apply Hdone.
Qed.

(** What peek() sees of a token. *)
Definition sees (toks : list Z) (ts : list token) : bool :=
  match ts with
  | [] => false
  | Tok t _ :: _ => if t =? ch_plus then in_str toks ch_gt else if t =? ch_a then false else in_str toks t
  end.

Lemma peek_lexes s ts toks : s0 <= s <= es -> lexes m es s ts -> forallb (in_str symbols) toks = true ->
  exists s', peek m s es toks = (sees toks ts, s') /\ lexes m es s' ts /\ s <= s' <= es /\ s' = skip m s es.
Proof using Hnul Hnz.
  intros Hs L Ht. apply lexes_skip in L; [|lia]. destruct (skip_spec s ltac:(lia)) as (S1 & _ & S2). unfold peek. set (a := skip m s es) in *.
  exists a. split; [|done]. f_equal. pose proof (first_token a ts ltac:(lia) S2 L) as F. destruct ts as [|[t [q e]] ts']; [by rewrite F, Hnul|].
  destruct F as (-> & F1 & F2 & F3 & F4). pose proof (Hnz a ltac:(lia)) as Hz. rewrite (proj2 (Z.eqb_neq _ _) Hz). cbn [negb andb sees].
  destruct (kinds (mget m a)) as (K1 & K2 & K3). destruct F4 as [(-> & E & ->)|[(-> & E & E2 & ->)|[(-> & E & E2 & ->)|(-> & E & ->)]]].
  - destruct (K2 E) as (_ & _ & _ & E1 & E2). by rewrite (proj2 (Z.eqb_neq _ _) E1), (proj2 (Z.eqb_neq _ _) E2).
  - by rewrite E. - by rewrite E.
  - cbn. apply not_true_iff_false. intros E'. assert (in_str symbols (mget m a) = true) by (rewrite forallb_forall in Ht; apply Ht, list_elem_of_In, in_str_true; done). destruct (K3 E) as (_ & _ & _ & E''). congruence.
Qed.

Lemma lexes_length s ts : s0 <= s <= es -> lexes m es s ts -> Z.of_nat (length ts) <= es - s.
Proof using. intros Hs L. induction L; cbn [length] in *; lia. Qed.

Lemma lexes_kind s ts t w : lexes m es s ts -> Tok t w ∈ ts -> in_str (ch_a :: ch_plus :: symbols) t = true.
Proof using.
  induction 1 as [|? ? ? ? L IH|? ? ? E L IH|? ? ? ? ? L IH|? ? ? ? ? L IH|? ? ? ? ? ? L IH]; intros Hin;
    [by apply elem_of_nil in Hin|by apply IH| | | |]; (apply elem_of_cons in Hin as [[= -> ->]|Hin]; [|by apply IH]); try done.
  destruct (kinds (mget m a)) as (_ & K & _). destruct (K E) as (_ & _ & K' & _). apply in_str_true. apply in_str_true in K'. do 2 right. done.
Qed.

Lemma lexes_total s : s0 <= s <= es -> exists ts, lexes m es s ts.
Proof using Hnul Hnz.
  intros Hs. assert (forall n s, Z.to_nat (es - s) = n -> s0 <= s <= es -> exists ts, lexes m es s ts) as H; [|by apply (H _ s eq_refl)].
  clear s Hs. induction n as [n IH] using lt_wf_ind. intros s Hn Hs. destruct (decide (s = es)) as [->|Hne]; [exists []; constructor|].
  assert (forall b, s < b <= es -> exists ts, lexes m es b ts) as IH' by (intros b Hb; apply (IH (Z.to_nat (es - b))); lia). clear IH.
  destruct (in_str whitespace (mget m s)) eqn:Ew; [destruct (IH' (s + 1) ltac:(lia)) as (ts & L); exists ts; apply lx_blank; [lia|done|done]|].
  destruct (in_str symbols (mget m s)) eqn:Es.
  - destruct (Z.eqb_spec (mget m s) ch_gt) as [E|E].
    + destruct (Z.eqb_spec (mget m (s + 1)) ch_gt) as [E2|E2].
      * assert (s + 1 <> es) by (intros H; rewrite H, Hnul in E2; done). destruct (IH' (s + 2) ltac:(lia)) as (ts & L). eexists. apply lx_app; [lia|done|done|done].
      * destruct (IH' (s + 1) ltac:(lia)) as (ts & L). eexists. apply lx_gt; [lia|done|done|done].
    + destruct (IH' (s + 1) ltac:(lia)) as (ts & L). eexists. apply lx_sym; [lia| |done]. apply in_str_true. apply in_str_true in Es. unfold symbols in Es. set_solver.
  - destruct (word_spec s ltac:(lia)) as (W1 & W2 & W3). assert (plain (mget m s) = true) as Hp by (unfold plain; by rewrite Ew, Es).
    assert (word_end m s es <> s) by (intros E; rewrite E in W3; destruct W3; [done|congruence]).
    destruct (IH' (word_end m s es) ltac:(lia)) as (ts & L). eexists. apply (lx_word m es s (word_end m s es)); [lia|done|done|done].
Qed.
End Lex.

(** ** The parser *)

Definition is_redir : list Z := [ch_lt; ch_gt].
Definition ends_exec : list Z := [ch_bar; ch_rp; ch_amp; ch_semi].

Lemma sees_redir t u ts w : sees is_redir (Tok t u :: ts) = true <-> is_Some (redir_of t w).
Proof.
  unfold sees, redir_of. destruct (Z.eqb_spec t ch_plus) as [->|]; [done|]. destruct (Z.eqb_spec t ch_a) as [->|]; [split; [done|by intros [? ?]]|].
  unfold is_redir. cbn [in_str existsb]. destruct (t =? ch_lt); [done|]. destruct (t =? ch_gt); [done|]. split; [done|by intros [? ?]].
Qed.

Lemma items_redirs tr l ts ws rs : g_redirs tr l -> g_items ts ws rs -> g_items (tr ++ ts) ws (l ++ rs).
Proof. induction 1 as [|t u w r tr l Hr _ IH]; intros H; [done|]. cbn. constructor; [done|]. by apply IH. Qed.

(** A simple command is redirections and then nothing, or a word and more. *)
Lemma items_split ts ws rs : g_items ts ws rs -> exists tr l ts' rs', ts = tr ++ ts' /\ g_redirs tr l /\ rs = l ++ rs' /\
  (ts' = [] /\ ws = [] /\ rs' = [] \/ exists w ts'' ws', ts' = Tok ch_a w :: ts'' /\ ws = w :: ws' /\ g_items ts'' ws' rs').
Proof.
  induction 1 as [|w ts ws rs H IH|t u w r ts ws rs Hr H IH].
  - exists [], [], [], []. split; [done|]. split; [constructor|]. split; [done|]. by left.
  - exists [], [], (Tok ch_a w :: ts), rs. split; [done|]. split; [constructor|]. split; [done|]. right. by exists w, ts, ws.
  - destruct IH as (tr & l & ts' & rs' & -> & G & -> & IH). exists (Tok t u :: Tok ch_a w :: tr), (r :: l), ts', rs'. split; [done|]. split; [by constructor|]. done.
Qed.

Definition follow (ts : list token) : Prop := ts = [] \/ sees ends_exec ts = true.
Lemma follow_redir ts : follow ts -> sees is_redir ts = false.
Proof.
  intros [->|H]; [done|]. destruct ts as [|[t u] ts]; [done|]. unfold sees in *. destruct (t =? ch_plus); [done|]. destruct (t =? ch_a); [done|].
  apply not_true_iff_false. rewrite in_str_true in *. intros H'. unfold is_redir, ends_exec in *. set_solver.
Qed.

Section Parser.
Context (m : gmap Z Z) (s0 es : Z) (Hnul : mget m es = 0) (Hnz : forall a, s0 <= a < es -> mget m a <> 0).

(** One call of peek() or gettoken() on a line with known tokens. *)
Ltac look H s' L' B' :=
  match type of H with lexes m es ?s ?ts =>
    match goal with |- context [peek m s es ?toks] =>
      let E := fresh "E" in
      destruct (peek_lexes m s0 es Hnul Hnz s ts toks ltac:(lia) H eq_refl) as (s' & E & L' & B' & _); rewrite E; clear E
    end
  end.
Ltac take_tok H s' L' B' Nz :=
  match type of H with lexes m es ?s (Tok ?t ?w :: ?ts) =>
    let E := fresh "E" in
    destruct (gettoken_lexes m s0 es Hnul Hnz s (Tok t w :: ts) ltac:(lia) H) as (Nz & s' & E & L' & B'); rewrite E; clear E
  end.

Lemma lexes_nil ts : lexes m es es ts -> s0 <= es -> ts = [].
Proof using. intros L Hs. pose proof (lexes_length m s0 es es ts ltac:(lia) L). destruct ts; [done|cbn in *; lia]. Qed.

Lemma redirs_sound k : forall rs s ts, s0 <= s <= es -> lexes m es s ts -> es - s <= Z.of_nat k ->
  match parseredirs m es k rs s with
  | POk rs' s' => exists ts1 ts2 l, ts = ts1 ++ ts2 /\ g_redirs ts1 l /\ rs' = rev l ++ rs /\ lexes m es s' ts2 /\ s <= s' <= es /\ sees is_redir ts2 = false
  | PPanic _ => True
  | PFuel => False
  end.
Proof using Hnul Hnz.
  induction k as [|k IH]; intros rs s ts Hs L Hk; cbn [parseredirs]; look L s1 L1 B1; fold is_redir; destruct (sees is_redir ts) eqn:Es; cbn [negb].
  1: { replace s with es in L by lia. rewrite (lexes_nil ts L) in Es by lia. done. }
  1,3: exists [], ts, []; split; [done|]; split; [constructor|]; split; [done|]; split; [done|]; split; [lia|done].
  destruct ts as [|[t u] ts]; [done|]. take_tok L1 s2 L2 B2 N2. destruct ts as [|[t2 w] ts].
  { destruct (gettoken_lexes m s0 es Hnul Hnz s2 [] ltac:(lia) L2) as (w & ->). done. }
  take_tok L2 s3 L3 B3 N3. destruct (Z.eqb_spec t2 ch_a) as [->|]; cbn [negb]; [|done]. pose proof (proj1 (sees_redir t u _ w) Es) as [r Hr].
  assert (match parseredirs m es k (r :: rs) s3 with
    | POk rs' s' => exists ts1 ts2 l, Tok t u :: Tok ch_a w :: ts = ts1 ++ ts2 /\ g_redirs ts1 l /\ rs' = rev l ++ rs /\ lexes m es s' ts2 /\ s <= s' <= es /\ sees is_redir ts2 = false
    | PPanic _ => True | PFuel => False end) as Hgo.
  { specialize (IH (r :: rs) s3 ts ltac:(lia) L3 ltac:(lia)). destruct (parseredirs m es k (r :: rs) s3) as [rs' s'|msg|]; try done.
    destruct IH as (ts1 & ts2 & l & -> & G & -> & L' & B' & S'). exists (Tok t u :: Tok ch_a w :: ts1), ts2, (r :: l). split; [done|]. split; [by econstructor|].
    split; [cbn [rev]; by rewrite <- app_assoc|]. split; [done|]. split; [lia|done]. }
  unfold redir_of in Hr. destruct (t =? ch_lt); [by injection Hr as <-|]. destruct (t =? ch_gt); [by injection Hr as <-|]. destruct (t =? ch_plus); [by injection Hr as <-|done].
Qed.

Lemma redirs_complete ts1 l : g_redirs ts1 l -> forall k rs s ts2, s0 <= s <= es -> lexes m es s (ts1 ++ ts2) -> es - s <= Z.of_nat k -> sees is_redir ts2 = false ->
  exists s', parseredirs m es k rs s = POk (rev l ++ rs) s' /\ lexes m es s' ts2 /\ s <= s' <= es.
Proof using Hnul Hnz.
  induction 1 as [|t u w r ts l Hr G IH]; intros k rs s ts2 Hs L Hk Hn; cbn [app] in L.
  - destruct k; cbn [parseredirs]; look L s1 L1 B1; fold is_redir; rewrite Hn; exists s1; (split; [done|split; [done|lia]]).
  - assert (sees is_redir (Tok t u :: Tok ch_a w :: ts ++ ts2) = true) as Hsee by (apply (sees_redir t u _ w); by rewrite Hr).
    pose proof (lexes_length m s0 es s _ ltac:(lia) L) as Hlen. cbn [length] in Hlen. destruct k as [|k]; [lia|]. cbn [parseredirs]. look L s1 L1 B1. fold is_redir. rewrite Hsee. cbn [negb].
    take_tok L1 s2 L2 B2 N2. take_tok L2 s3 L3 B3 N3. rewrite Z.eqb_refl. cbn [negb].
    destruct (IH k (r :: rs) s3 ts2 ltac:(lia) L3 ltac:(lia) Hn) as (s' & E & L' & B'). exists s'. cbn [rev]. rewrite <- app_assoc. cbn [app].
    split; [|split; [done|lia]]. unfold redir_of in Hr. destruct (t =? ch_lt); [by injection Hr as <-|]. destruct (t =? ch_gt); [by injection Hr as <-|]. destruct (t =? ch_plus); [by injection Hr as <-|done].
Qed.

Lemma exec_sound k : forall argv rs s ts, s0 <= s <= es -> lexes m es s ts -> es - s < Z.of_nat k -> (length argv < MAXARGS)%nat ->
  match exec_loop m es k argv rs s with
  | POk c s' => exists ts1 ts2 ws l, ts = ts1 ++ ts2 /\ g_items ts1 ws l /\ (length (argv ++ ws) < MAXARGS)%nat /\ c = wrap (rev l ++ rs) (EXEC (argv ++ ws)) /\
      lexes m es s' ts2 /\ s <= s' <= es
  | PPanic _ => True
  | PFuel => False
  end.
Proof using Hnul Hnz.
  induction k as [|k IH]; intros argv rs s ts Hs L Hk Ha; [lia|]. cbn [exec_loop]. look L s1 L1 B1. fold ends_exec.
  assert (forall s' ts2, ts = ts2 -> lexes m es s' ts2 -> s <= s' <= es -> exists ts1 ts2 ws l, ts = ts1 ++ ts2 /\ g_items ts1 ws l /\ (length (argv ++ ws) < MAXARGS)%nat /\
    wrap rs (EXEC argv) = wrap (rev l ++ rs) (EXEC (argv ++ ws)) /\ lexes m es s' ts2 /\ s <= s' <= es) as Hdone.
  { intros s' ts2 <- L' B'. exists [], ts, [], []. rewrite app_nil_r. split; [done|]. split; [constructor|]. done. }
  destruct (sees ends_exec ts) eqn:Es; [apply (Hdone s1 ts); [done|done|lia]|]. destruct ts as [|[t w] ts].
  { destruct (gettoken_lexes m s0 es Hnul Hnz s1 [] ltac:(lia) L1) as (w & ->). rewrite Z.eqb_refl. apply (Hdone es []); [done|constructor|lia]. }
  take_tok L1 s2 L2 B2 N2. rewrite (proj2 (Z.eqb_neq _ _) N2). destruct (Z.eqb_spec t ch_a) as [->|]; cbn [negb]; [|done].
  destruct (Nat.leb_spec MAXARGS (length (argv ++ [w]))) as [|Hlen]; [done|]. unfold redirs.
  pose proof (redirs_sound (Z.to_nat (es - s2)) rs s2 ts ltac:(lia) L2 ltac:(lia)) as HR. destruct (parseredirs _ _ _ _ _) as [rs' s3|msg|]; cbn [pbind]; try done.
  destruct HR as (tr & ts' & l & -> & G & -> & L3 & B3 & _). specialize (IH (argv ++ [w]) (rev l ++ rs) s3 ts' ltac:(lia) L3 ltac:(lia) Hlen).
  destruct (exec_loop _ _ _ _ _ _) as [c s'|msg|]; try done. destruct IH as (ts1 & ts2 & ws & l' & -> & GI & Hn & -> & L' & B').
  exists (Tok ch_a w :: tr ++ ts1), ts2, (w :: ws), (l ++ l'). rewrite <- app_assoc in *. cbn [app] in *. rewrite rev_app_distr, <- !app_assoc.
  split; [done|]. split; [constructor; by apply items_redirs|]. split; [done|]. split; [done|]. split; [done|lia].
Qed.

Lemma exec_complete n : forall w ts1 ws l k argv rs s ts2, (length ts1 < n)%nat -> g_items ts1 ws l -> s0 <= s <= es -> lexes m es s (Tok ch_a w :: ts1 ++ ts2) -> follow ts2 ->
  es - s < Z.of_nat k -> (length (argv ++ w :: ws) < MAXARGS)%nat ->
  exists s', exec_loop m es k argv rs s = POk (wrap (rev l ++ rs) (EXEC (argv ++ w :: ws))) s' /\ lexes m es s' ts2 /\ s <= s' <= es.
Proof using Hnul Hnz.
  induction n as [|n IH]; intros w ts1 ws l k argv rs s ts2 Hn GI Hs L Hfo Hk Ha; [lia|]. destruct k as [|k]; [lia|]. cbn [exec_loop]. look L s1 L1 B1. fold ends_exec.
  change (sees ends_exec (Tok ch_a w :: ts1 ++ ts2)) with false. cbv iota. take_tok L1 s2 L2 B2 N2. cbn [Z.eqb ch_a negb]. rewrite Pos.eqb_refl. cbn [negb].
  rewrite length_app in Ha. cbn [length] in Ha. destruct (Nat.leb_spec MAXARGS (length (argv ++ [w]))) as [Hle|_]; [rewrite length_app in Hle; cbn in Hle; lia|]. unfold redirs.
  destruct (items_split _ _ _ GI) as (tr & lr & ts' & rs' & -> & GR & -> & Hcase). rewrite <- app_assoc in L2.
  assert (sees is_redir (ts' ++ ts2) = false) as Hsee by (destruct Hcase as [(-> & _)|(w' & ts'' & ws' & -> & _)]; [by apply follow_redir|done]).
  destruct (redirs_complete tr lr GR (Z.to_nat (es - s2)) rs s2 (ts' ++ ts2) ltac:(lia) L2 ltac:(lia) Hsee) as (s3 & -> & L3 & B3). cbn [pbind].
  destruct Hcase as [(-> & -> & ->)|(w' & ts'' & ws' & -> & -> & GI')].
  - rewrite app_nil_r. cbn [app] in L3. destruct k as [|k]; [lia|]. cbn [exec_loop]. look L3 s4 L4 B4. fold ends_exec. destruct Hfo as [->|Hfo].
    + cbn [sees]. destruct (gettoken_lexes m s0 es Hnul Hnz s4 [] ltac:(lia) L4) as (w' & ->). rewrite Z.eqb_refl. exists es. split; [done|]. split; [constructor|lia].
    + rewrite Hfo. exists s4. split; [done|]. split; [done|lia].
  - rewrite length_app in Hn. cbn [length] in Hn. destruct (IH w' ts'' ws' rs' k (argv ++ [w]) (rev lr ++ rs) s3 ts2 ltac:(lia) GI' ltac:(lia) L3 Hfo ltac:(lia)) as (s' & E & L' & B').
    { rewrite !length_app in *. cbn [length] in *. lia. }
    exists s'. rewrite E, <- app_assoc, rev_app_distr, <- !app_assoc. split; [done|]. split; [done|lia].
Qed.

(** A routine consumes tokens that its nonterminal [G] derives. *)
Definition sound (G : list token -> cmd -> Prop) (s : Z) (ts : list token) (r : pres cmd) : Prop :=
  match r with
  | POk c s' => exists ts1 ts2, ts = ts1 ++ ts2 /\ G ts1 c /\ lexes m es s' ts2 /\ s <= s' <= es
  | PPanic _ => True
  | PFuel => False
  end.

Lemma back_sound k : forall c s ts ts0, s0 <= s <= es -> lexes m es s ts -> es - s <= Z.of_nat k -> g_back ts0 c ->
  sound (fun ts1 c => g_back (ts0 ++ ts1) c) s ts (back_loop m es k c s).
Proof using Hnul Hnz.
  induction k as [|k IH]; intros c s ts ts0 Hs L Hk G; cbn [back_loop]; look L s1 L1 B1; destruct (sees [ch_amp] ts) eqn:Es; cbn [negb].
  1: { replace s with es in L by lia. rewrite (lexes_nil ts L) in Es by lia. done. }
  1,3: exists [], ts; rewrite app_nil_r; split; [done|]; split; [done|]; split; [done|lia].
  destruct ts as [|[t u] ts]; [done|]. assert (t = ch_amp) as ->.
  { unfold sees in Es. destruct (t =? ch_plus); [done|]. destruct (t =? ch_a); [done|]. by apply in_str_true, list_elem_of_singleton in Es. }
  take_tok L1 s2 L2 B2 N2. specialize (IH (BACK c) s2 ts (ts0 ++ [Tok ch_amp u]) ltac:(lia) L2 ltac:(lia) ltac:(by constructor)).
  destruct (back_loop m es k (BACK c) s2) as [c' s'|msg|]; cbn in *; try done. destruct IH as (ts1 & ts2 & -> & G' & L' & B'). exists (Tok ch_amp u :: ts1), ts2.
  rewrite <- app_assoc in G'. split; [done|]. split; [done|]. split; [done|lia].
Qed.

Lemma sees_one c t u ts : c <> ch_plus -> c <> ch_a -> c <> ch_gt -> sees [c] (Tok t u :: ts) = true <-> t = c.
Proof using.
  intros H1 H2 H3. unfold sees. destruct (Z.eqb_spec t ch_plus) as [->|]; [rewrite in_str_true, list_elem_of_singleton; naive_solver|].
  destruct (Z.eqb_spec t ch_a) as [->|]; [naive_solver|]. by rewrite in_str_true, list_elem_of_singleton.
Qed.

Lemma parseline_S f s : parseline m es (S f) s =
  pbind (parsepipe m es f s) (fun c s => pbind (back_loop m es (Z.to_nat (es - s)) c s) (fun c s =>
  let '(b, s) := peek m s es [ch_semi] in
  if b then let '(_, _, s) := gettoken m s es in pbind (parseline m es f s) (fun c' s => POk (LIST c c') s) else POk c s)).
Proof using. reflexivity. Qed.
Lemma parsepipe_S f s : parsepipe m es (S f) s =
  pbind (parseexec m es f s) (fun c s =>
  let '(b, s) := peek m s es [ch_bar] in
  if b then let '(_, _, s) := gettoken m s es in pbind (parsepipe m es f s) (fun c' s => POk (PIPE c c') s) else POk c s).
Proof using. reflexivity. Qed.
Lemma parseexec_S f s : parseexec m es (S f) s =
  let '(b, s) := peek m s es [ch_lp] in
  if b then parseblock m es f s else pbind (redirs m es [] s) (fun rs s => exec_loop m es (S (Z.to_nat (es - s))) [] rs s).
Proof using. reflexivity. Qed.
Lemma parseblock_S f s : parseblock m es (S f) s =
  let '(b, s) := peek m s es [ch_lp] in
  if negb b then PPanic "parseblock"
  else let '(_, _, s) := gettoken m s es in
    pbind (parseline m es f s) (fun c s =>
    let '(b, s) := peek m s es [ch_rp] in
    if negb b then PPanic "syntax - missing )"
    else let '(_, _, s) := gettoken m s es in pbind (redirs m es [] s) (fun rs s => POk (wrap rs c) s)).
Proof using. reflexivity. Qed.

Lemma parse_sound fuel : forall s ts, s0 <= s <= es -> lexes m es s ts ->
  ((4 * length ts + 4 <= fuel)%nat -> sound g_line s ts (parseline m es fuel s)) /\
  ((4 * length ts + 3 <= fuel)%nat -> sound g_pipe s ts (parsepipe m es fuel s)) /\
  ((4 * length ts + 2 <= fuel)%nat -> sound g_exec s ts (parseexec m es fuel s)) /\
  ((4 * length ts + 1 <= fuel)%nat -> sound g_exec s ts (parseblock m es fuel s)).
Proof using Hnul Hnz.
  induction fuel as [|f IH]; intros s ts Hs L; [split; [|split; [|split]]; intros; lia|]. split; [|split; [|split]]; intros Hf.
  - rewrite parseline_S. destruct (IH s ts Hs L) as (_ & HP & _). specialize (HP ltac:(lia)). destruct (parsepipe m es f s) as [c s1|msg|]; cbn [pbind]; try done.
    destruct HP as (ts1 & ts2 & -> & G & L1 & B1). pose proof (back_sound (Z.to_nat (es - s1)) c s1 ts2 ts1 ltac:(lia) L1 ltac:(lia) ltac:(by constructor)) as HB.
    destruct (back_loop m es _ c s1) as [c' s2|msg|]; cbn [pbind]; try done. destruct HB as (tb & ts3 & -> & GB & L2 & B2). look L2 s3 L3 B3. rewrite app_assoc.
    destruct (sees [ch_semi] ts3) eqn:Es; [|exists (ts1 ++ tb), ts3; split; [done|]; split; [by constructor|]; split; [done|lia]].
    destruct ts3 as [|[t u] ts3]; [done|]. apply sees_one in Es as ->; [|done..]. take_tok L3 s4 L4 B4 N4. rewrite !length_app in Hf. cbn [length] in Hf.
    destruct (IH s4 ts3 ltac:(lia) L4) as (HL & _). specialize (HL ltac:(lia)). destruct (parseline m es f s4) as [c2 s5|msg|]; cbn [pbind]; try done.
    destruct HL as (tl & ts4 & -> & GL & L5 & B5). exists ((ts1 ++ tb) ++ Tok ch_semi u :: tl), ts4. rewrite <- !app_assoc. split; [done|]. split; [|split; [done|lia]].
    rewrite app_assoc. by constructor.
  - rewrite parsepipe_S. destruct (IH s ts Hs L) as (_ & _ & HE & _). specialize (HE ltac:(lia)). destruct (parseexec m es f s) as [c s1|msg|]; cbn [pbind]; try done.
    destruct HE as (ts1 & ts2 & -> & G & L1 & B1). look L1 s2 L2 B2. destruct (sees [ch_bar] ts2) eqn:Es; [|exists ts1, ts2; split; [done|]; split; [by constructor|]; split; [done|lia]].
    destruct ts2 as [|[t u] ts2]; [done|]. apply sees_one in Es as ->; [|done..]. take_tok L2 s3 L3 B3 N3. rewrite !length_app in Hf. cbn [length] in Hf.
    destruct (IH s3 ts2 ltac:(lia) L3) as (_ & HP & _). specialize (HP ltac:(lia)). destruct (parsepipe m es f s3) as [c2 s4|msg|]; cbn [pbind]; try done.
    destruct HP as (tp & ts3 & -> & GP & L4 & B4). exists (ts1 ++ Tok ch_bar u :: tp), ts3. rewrite <- app_assoc. split; [done|]. split; [by constructor|]. split; [done|lia].
  - rewrite parseexec_S. look L s1 L1 B1. destruct (sees [ch_lp] ts) eqn:Es.
    { destruct (IH s1 ts ltac:(lia) L1) as (_ & _ & _ & HB). specialize (HB ltac:(lia)). destruct (parseblock m es f s1) as [c s2|msg|]; try done.
      destruct HB as (ts1 & ts2 & -> & G & L2 & B2). exists ts1, ts2. split; [done|]. split; [done|]. split; [done|lia]. }
    unfold redirs. pose proof (redirs_sound (Z.to_nat (es - s1)) [] s1 ts ltac:(lia) L1 ltac:(lia)) as HR. destruct (parseredirs _ _ _ _ _) as [rs s2|msg|]; cbn [pbind]; try done.
    destruct HR as (tr & ts' & l & -> & G & -> & L2 & B2 & _).
    pose proof (exec_sound (S (Z.to_nat (es - s2))) [] (rev l ++ []) s2 ts' ltac:(lia) L2 ltac:(lia) ltac:(unfold MAXARGS; cbn; lia)) as HX.
    destruct (exec_loop _ _ _ _ _ _) as [c s3|msg|]; try done. destruct HX as (ts1 & ts2 & ws & l' & -> & GI & Hn & -> & L3 & B3).
    exists (tr ++ ts1), ts2. rewrite <- app_assoc. split; [done|]. split; [|split; [done|lia]]. rewrite app_nil_r, <- rev_app_distr. apply g_simple; [by apply items_redirs|done].
  - rewrite parseblock_S. look L s1 L1 B1. destruct (sees [ch_lp] ts) eqn:Es; cbn [negb]; [|done]. destruct ts as [|[t u] ts]; [done|]. apply sees_one in Es as ->; [|done..].
    take_tok L1 s2 L2 B2 N2. cbn [length] in Hf. destruct (IH s2 ts ltac:(lia) L2) as (HL & _). specialize (HL ltac:(lia)). destruct (parseline m es f s2) as [c s3|msg|]; cbn [pbind]; try done.
    destruct HL as (tl & ts2 & -> & GL & L3 & B3). look L3 s4 L4 B4. destruct (sees [ch_rp] ts2) eqn:Es; cbn [negb]; [|done].
    destruct ts2 as [|[t v] ts2]; [done|]. apply sees_one in Es as ->; [|done..]. take_tok L4 s5 L5 B5 N5.
    unfold redirs. pose proof (redirs_sound (Z.to_nat (es - s5)) [] s5 ts2 ltac:(lia) L5 ltac:(lia)) as HR. destruct (parseredirs _ _ _ _ _) as [rs s6|msg|]; cbn [pbind]; try done.
    destruct HR as (tr & ts' & l & -> & G & -> & L6 & B6 & _). exists (Tok ch_lp u :: tl ++ Tok ch_rp v :: tr), ts'. cbn [app]. rewrite <- app_assoc. split; [done|].
    split; [rewrite app_nil_r; by constructor|]. split; [done|lia].
Qed.

(** On tokens that [G] derives, followed by a token that may follow them, a routine returns the command. *)
Definition next_in (set : list Z) (ts : list token) : Prop := ts = [] \/ sees set ts = true.
Definition complete (run : nat -> Z -> pres cmd) (n : nat) (set : list Z) (ts1 : list token) (c : cmd) : Prop :=
  forall fuel s ts2, s0 <= s <= es -> lexes m es s (ts1 ++ ts2) -> next_in set ts2 -> (4 * length (ts1 ++ ts2) + n <= fuel)%nat ->
  exists s', run fuel s = POk c s' /\ lexes m es s' ts2 /\ s <= s' <= es.

Lemma next_in_sub set set' ts : (forall c, in_str set c = true -> in_str set' c = true) -> next_in set ts -> next_in set' ts.
Proof using.
  intros H [->|Hs]; [by left|right]. destruct ts as [|[t u] ts]; [done|]. unfold sees in *. destruct (t =? ch_plus); [by apply H|]. destruct (t =? ch_a); [done|by apply H].
Qed.
Lemma next_in_not set x ts : in_str set x = false -> x <> ch_gt -> next_in set ts -> sees [x] ts = false.
Proof using.
  intros H Hx [->|Hs]; [done|]. destruct ts as [|[t u] ts]; [done|]. unfold sees in *. apply not_true_iff_false. destruct (t =? ch_plus); [by rewrite in_str_true, list_elem_of_singleton|].
  destruct (t =? ch_a); [done|]. rewrite in_str_true, list_elem_of_singleton. intros ->. congruence.
Qed.
Lemma sees_tok c u ts : c <> ch_plus -> c <> ch_a -> c <> ch_gt -> sees [c] (Tok c u :: ts) = true.
Proof using. intros. by apply sees_one. Qed.

Lemma simple_complete ts ws rs : g_items ts ws rs -> (length ws < MAXARGS)%nat -> complete (parseexec m es) 2 ends_exec ts (wrap (rev rs) (EXEC ws)).
Proof using Hnul Hnz.
  intros GI Hn fuel s ts2 Hs L Hfo Hf. destruct fuel as [|f]; [lia|]. rewrite parseexec_S. look L s1 L1 B1.
  destruct (items_split _ _ _ GI) as (tr & lr & ts' & rs' & -> & GR & -> & Hcase). rewrite <- app_assoc in *.
  assert (sees is_redir (ts' ++ ts2) = false) as Hsee by (destruct Hcase as [(-> & _)|(w' & ts'' & ws' & -> & _)]; [by apply follow_redir|done]).
  assert (sees [ch_lp] (tr ++ ts' ++ ts2) = false) as Hlp.
  { destruct GR as [|t u w r tr lr Hr GR]; cbn [app].
    - destruct Hcase as [(-> & _)|(w' & ts'' & ws' & -> & _)]; [|done]. cbn [app]. by apply (next_in_not ends_exec).
    - apply not_true_iff_false. rewrite sees_one by done. intros ->. done. }
  rewrite Hlp. unfold redirs. destruct (redirs_complete tr lr GR (Z.to_nat (es - s1)) [] s1 (ts' ++ ts2) ltac:(lia) L1 ltac:(lia) Hsee) as (s3 & -> & L3 & B3). cbn [pbind].
  destruct Hcase as [(-> & -> & ->)|(w' & ts'' & ws' & -> & -> & GI')].
  - rewrite !app_nil_r. cbn [app] in L3. cbn [exec_loop]. look L3 s4 L4 B4. fold ends_exec. destruct Hfo as [->|Hfo].
    + cbn [sees]. destruct (gettoken_lexes m s0 es Hnul Hnz s4 [] ltac:(lia) L4) as (w' & ->). rewrite Z.eqb_refl. exists es. split; [done|]. split; [constructor|lia].
    + rewrite Hfo. exists s4. split; [done|]. split; [done|lia].
  - destruct (exec_complete (S (length ts'')) w' ts'' ws' rs' (S (Z.to_nat (es - s3))) [] (rev lr ++ []) s3 ts2 ltac:(lia) GI' ltac:(lia) L3 Hfo ltac:(lia) Hn) as (s' & E & L' & B').
    exists s'. rewrite E, app_nil_r, rev_app_distr. split; [done|]. split; [done|lia].
Qed.

Lemma block_complete u v ts tr c rs : complete (parseline m es) 4 [ch_rp] ts c -> g_redirs tr rs ->
  complete (parseexec m es) 2 ends_exec (Tok ch_lp u :: ts ++ Tok ch_rp v :: tr) (wrap (rev rs) c).
Proof using Hnul Hnz.
  intros HL GR fuel s ts2 Hs L Hfo Hf. cbn [app length] in *. rewrite <- app_assoc in *. cbn [app] in *. destruct fuel as [|[|f]]; [lia..|].
  rewrite parseexec_S. look L s1 L1 B1. rewrite sees_tok by done. rewrite parseblock_S. look L1 s2 L2 B2. rewrite sees_tok by done. cbn [negb]. take_tok L2 s3 L3 B3 N3.
  destruct (HL f s3 (Tok ch_rp v :: tr ++ ts2) ltac:(lia) L3 ltac:(right; by apply sees_tok) ltac:(lia)) as (s4 & -> & L4 & B4). cbn [pbind].
  look L4 s5 L5 B5. rewrite sees_tok by done. cbn [negb]. take_tok L5 s6 L6 B6 N6. unfold redirs.
  destruct (redirs_complete tr rs GR (Z.to_nat (es - s6)) [] s6 ts2 ltac:(lia) L6 ltac:(lia) (follow_redir _ Hfo)) as (s7 & -> & L7 & B7). cbn [pbind].
  exists s7. rewrite app_nil_r. split; [done|]. split; [done|lia].
Qed.

Lemma pipe_complete_one ts c : complete (parseexec m es) 2 ends_exec ts c -> complete (parsepipe m es) 3 [ch_rp; ch_amp; ch_semi] ts c.
Proof using Hnul Hnz.
  intros HE fuel s ts2 Hs L Hn Hf. destruct fuel as [|f]; [lia|]. rewrite parsepipe_S.
  destruct (HE f s ts2 Hs L) as (s1 & -> & L1 & B1); [eapply next_in_sub; [|exact Hn]; intros x; rewrite !in_str_true; unfold ends_exec; set_solver|lia|]. cbn [pbind].
  look L1 s2 L2 B2. rewrite (next_in_not _ _ _ (eq_refl : in_str [ch_rp; ch_amp; ch_semi] ch_bar = false)) by done. exists s2. split; [done|]. split; [done|lia].
Qed.
Lemma pipe_complete_bar ts u ts' c c' : complete (parseexec m es) 2 ends_exec ts c -> complete (parsepipe m es) 3 [ch_rp; ch_amp; ch_semi] ts' c' ->
  complete (parsepipe m es) 3 [ch_rp; ch_amp; ch_semi] (ts ++ Tok ch_bar u :: ts') (PIPE c c').
Proof using Hnul Hnz.
  intros HE HP fuel s ts2 Hs L Hn Hf. rewrite <- app_assoc in *. cbn [app] in *. rewrite length_app in Hf. cbn [length] in Hf. destruct fuel as [|f]; [lia|]. rewrite parsepipe_S.
  destruct (HE f s (Tok ch_bar u :: ts' ++ ts2) Hs L ltac:(by right) ltac:(rewrite length_app; cbn [length]; lia)) as (s1 & -> & L1 & B1). cbn [pbind].
  look L1 s2 L2 B2. rewrite sees_tok by done. take_tok L2 s3 L3 B3 N3. destruct (HP f s3 ts2 ltac:(lia) L3 Hn ltac:(lia)) as (s4 & -> & L4 & B4). cbn [pbind].
  exists s4. split; [done|]. split; [done|lia].
Qed.

(** parsepipe() and then turns of the loop for ampersands. *)
Definition back_complete (ts1 : list token) (c : cmd) : Prop :=
  forall fuel s ts2, s0 <= s <= es -> lexes m es s (ts1 ++ ts2) -> next_in [ch_rp; ch_amp; ch_semi] ts2 -> (4 * length (ts1 ++ ts2) + 3 <= fuel)%nat ->
  exists c0 s1 k2 s2, parsepipe m es fuel s = POk c0 s1 /\ back_loop m es (Z.to_nat (es - s1)) c0 s1 = back_loop m es k2 c s2 /\
    lexes m es s2 ts2 /\ s <= s2 <= es /\ es - s2 <= Z.of_nat k2.

Lemma back_complete_amp ts u c : back_complete ts c -> back_complete (ts ++ [Tok ch_amp u]) (BACK c).
Proof using Hnul Hnz.
  intros HB fuel s ts2 Hs L Hn Hf. rewrite <- app_assoc in *. cbn [app] in *.
  destruct (HB fuel s (Tok ch_amp u :: ts2) Hs L ltac:(by right) Hf) as (c0 & s1 & k2 & s2 & Ep & Eb & L2 & B2 & Hk).
  pose proof (lexes_length m s0 es s2 _ ltac:(lia) L2) as Hlen. cbn [length] in Hlen. destruct k2 as [|k2]; [lia|]. cbn [back_loop] in Eb. revert Eb.
  look L2 s3 L3 B3. rewrite sees_tok by done. cbn [negb]. take_tok L3 s4 L4 B4 N4. intros Eb. exists c0, s1, k2, s4. split; [done|]. split; [done|]. split; [done|]. split; lia.
Qed.

Lemma back_done k c s ts : s0 <= s <= es -> lexes m es s ts -> next_in [ch_rp; ch_semi] ts -> exists s', back_loop m es k c s = POk c s' /\ lexes m es s' ts /\ s <= s' <= es.
Proof using Hnul Hnz.
  intros Hs L Hn. destruct k; cbn [back_loop]; look L s1 L1 B1; rewrite (next_in_not _ _ _ (eq_refl : in_str [ch_rp; ch_semi] ch_amp = false)) by done; cbn [negb]; exists s1; (split; [done|split; [done|lia]]).
Qed.

Lemma line_complete ts c : back_complete ts c -> complete (parseline m es) 4 [ch_rp] ts c.
Proof using Hnul Hnz.
  intros HB fuel s ts2 Hs L Hn Hf. destruct fuel as [|f]; [lia|]. rewrite parseline_S.
  destruct (HB f s ts2 Hs L) as (c0 & s1 & k2 & s2 & -> & E & L2 & B2 & _); [eapply next_in_sub; [|exact Hn]; intros x; rewrite !in_str_true; set_solver|lia|]. cbn [pbind]. rewrite E.
  destruct (back_done k2 c s2 ts2 ltac:(lia) L2) as (s3 & -> & L3 & B3); [eapply next_in_sub; [|exact Hn]; intros x; rewrite !in_str_true; set_solver|]. cbn [pbind].
  look L3 s4 L4 B4. rewrite (next_in_not _ _ _ (eq_refl : in_str [ch_rp] ch_semi = false)) by done. exists s4. split; [done|]. split; [done|lia].
Qed.
Lemma line_complete_semi ts u ts' c c' : back_complete ts c -> complete (parseline m es) 4 [ch_rp] ts' c' -> complete (parseline m es) 4 [ch_rp] (ts ++ Tok ch_semi u :: ts') (LIST c c').
Proof using Hnul Hnz.
  intros HB HL fuel s ts2 Hs L Hn Hf. rewrite <- app_assoc in *. cbn [app] in *. rewrite length_app in Hf. cbn [length] in Hf. destruct fuel as [|f]; [lia|]. rewrite parseline_S.
  destruct (HB f s (Tok ch_semi u :: ts' ++ ts2) Hs L ltac:(by right) ltac:(rewrite length_app; cbn [length]; lia)) as (c0 & s1 & k2 & s2 & -> & E & L2 & B2 & _). cbn [pbind]. rewrite E.
  destruct (back_done k2 c s2 _ ltac:(lia) L2 ltac:(by right)) as (s3 & -> & L3 & B3). cbn [pbind]. look L3 s4 L4 B4. rewrite sees_tok by done. take_tok L4 s5 L5 B5 N5.
  destruct (HL f s5 ts2 ltac:(lia) L5 Hn ltac:(lia)) as (s6 & -> & L6 & B6). cbn [pbind]. exists s6. split; [done|]. split; [done|lia].
Qed.

Lemma parse_complete ts c : g_line ts c -> complete (parseline m es) 4 [ch_rp] ts c.
Proof using Hnul Hnz.
  revert ts c. apply (g_line_mut (fun ts c _ => complete (parseexec m es) 2 ends_exec ts c) (fun ts c _ => complete (parsepipe m es) 3 [ch_rp; ch_amp; ch_semi] ts c)
    (fun ts c _ => back_complete ts c) (fun ts c _ => complete (parseline m es) 4 [ch_rp] ts c)).
  - intros. by apply simple_complete. - intros. by apply block_complete. - intros. by apply pipe_complete_one. - intros. by apply pipe_complete_bar.
  - intros ts c _ HP fuel s ts2 Hs L Hn Hf. destruct (HP fuel s ts2 Hs L Hn Hf) as (s' & E & L' & B'). exists c, s', (Z.to_nat (es - s')), s'.
    split; [done|]. split; [done|]. split; [done|]. split; lia.
  - intros. by apply back_complete_amp. - intros. by apply line_complete. - intros. by apply line_complete_semi.
Qed.
End Parser.

(** ** Whole command lines *)

Lemma str_at_line m s l : str_at m s l -> mget m (s + Z.of_nat (length l)) = 0 /\ forall a, s <= a < s + Z.of_nat (length l) -> mget m a <> 0.
Proof.
  intros H. split; [by apply str_at_nul|]. intros a Ha. destruct (lookup_lt_is_Some_2 l (Z.to_nat (a - s)) ltac:(lia)) as [c Hc].
  pose proof (str_at_byte m l s _ c H Hc) as E. replace (s + Z.of_nat (Z.to_nat (a - s))) with a in E by lia. rewrite E.
  pose proof (str_at_range m l s H) as HF. rewrite Forall_lookup in HF. specialize (HF _ _ Hc). cbn in HF. lia.
Qed.

(** What parseline() leaves decides whether the line is accepted. *)
Lemma leftovers m s0 es s ts : mget m es = 0 -> (forall a, s0 <= a < es -> mget m a <> 0) -> s0 <= s <= es -> lexes m es s ts -> skip m s es = es <-> ts = [].
Proof.
  intros Hnul Hnz Hs L. apply (lexes_skip m es) in L; [|lia]. destruct (skip_spec m es s ltac:(lia)) as (S1 & _ & S2).
  pose proof (first_token m s0 es Hnul Hnz (skip m s es) ts ltac:(lia) S2 L) as F. destruct ts as [|[t [q e]] ts]; [done|]. split; [|done]. lia.
Qed.

(** C14: The shell parses every command line: it returns the command that the grammar gives the tokens of the line, or ends
    with an error message exactly when the grammar gives none; it always returns. *)
Theorem parsecmd_correct m s l fuel : str_at m s l -> (length l < fuel)%nat ->
  exists ts, lexes m (s + Z.of_nat (length l)) s ts /\
    ((exists c, g_line ts c /\ parsecmd fuel m s = POk (nulterminate m c, c) (s + Z.of_nat (length l))) \/
     ((forall c, ~ g_line ts c) /\ exists msg, parsecmd fuel m s = PPanic msg)).
Proof.
  intros Hl Hf. destruct (str_at_line m s l Hl) as [Hnul Hnz]. set (es := s + Z.of_nat (length l)) in *. destruct (lexes_total m s es Hnul Hnz s ltac:(lia)) as (ts & L).
  exists ts. split; [done|]. unfold parsecmd. rewrite (strlen_ok m s l fuel Hl Hf). fold es. rewrite Nat2Z.id. pose proof (lexes_length m s es s ts ltac:(lia) L) as Hlen.
  destruct (parse_sound m s es Hnul Hnz (4 * length l + 4) s ts ltac:(lia) L) as (HS & _). specialize (HS ltac:(lia)).
  assert (forall c, g_line ts c -> exists s', parseline m es (4 * length l + 4) s = POk c s' /\ lexes m es s' [] /\ s <= s' <= es) as HC.
  { intros c G. apply (parse_complete m s es Hnul Hnz ts c G (4 * length l + 4)%nat s []); [lia|by rewrite app_nil_r|by left|rewrite app_nil_r; lia]. }
  destruct (parseline m es (4 * length l + 4) s) as [c s1|msg|]; cbn [pbind]; [|right; split; [|by exists msg]; intros c G; by destruct (HC c G) as (? & ? & _)|done].
  destruct HS as (ts1 & ts2 & -> & G & L1 & B1). unfold peek. pose proof (leftovers m s es s1 ts2 Hnul Hnz ltac:(lia) L1) as Hleft.
  destruct (Z.eqb_spec (skip m s1 es) es) as [E|E]; cbn [negb].
  - left. exists c. apply Hleft in E as E'. subst ts2. rewrite app_nil_r, E. done.
  - right. split; [|by eexists]. intros c' G'. destruct (HC c' G') as (s' & [= -> ->] & L' & B'). apply E. by apply (leftovers m s es s' [] Hnul Hnz).
Qed.

(** The words of a command. *)
Fixpoint words (c : cmd) : list span :=
  match c with
  | EXEC argv => argv
  | REDIR c r => words c ++ [r_file r]
  | PIPE l r | LIST l r => words l ++ words r
  | BACK c => words c
  end.

Lemma words_wrap rs c : words (wrap rs c) = words c ++ rev (map r_file rs).
Proof. induction rs as [|r rs IH]; cbn; [by rewrite app_nil_r|]. fold (wrap rs c). by rewrite IH, <- app_assoc. Qed.

Lemma redirs_words ts rs : g_redirs ts rs -> forall r, r ∈ rs -> Tok ch_a (r_file r) ∈ ts.
Proof.
  induction 1 as [|t u w r ts rs Hr _ IH]; intros r' Hin; [by apply elem_of_nil in Hin|]. apply elem_of_cons in Hin as [->|Hin]; [|do 2 right; by apply IH].
  assert (r_file r = w) as -> by (unfold redir_of in Hr; repeat case_match; naive_solver). right. by left.
Qed.
Lemma items_words ts ws rs : g_items ts ws rs -> (forall w, w ∈ ws -> Tok ch_a w ∈ ts) /\ (forall r, r ∈ rs -> Tok ch_a (r_file r) ∈ ts).
Proof.
  induction 1 as [|w ts ws rs _ [IH1 IH2]|t u w r ts ws rs Hr _ [IH1 IH2]].
  - split; intros ? Hin; by apply elem_of_nil in Hin.
  - split; intros x Hin; [apply elem_of_cons in Hin as [->|Hin]; [by left|right; by apply IH1]|right; by apply IH2].
  - split; intros x Hin; [do 2 right; by apply IH1|]. apply elem_of_cons in Hin as [->|Hin]; [|do 2 right; by apply IH2].
    assert (r_file r = w) as -> by (unfold redir_of in Hr; repeat case_match; naive_solver). right. by left.
Qed.

Lemma line_words ts c : g_line ts c -> forall w, w ∈ words c -> Tok ch_a w ∈ ts.
Proof.
  assert (forall rs (ts : list token), (forall r, r ∈ rs -> Tok ch_a (r_file r) ∈ ts) -> forall w, w ∈ rev (map r_file (rev rs)) -> Tok ch_a w ∈ ts) as Hrev.
  { intros rs ts' H w Hw. rewrite <- map_rev, rev_involutive in Hw. apply list_elem_of_fmap in Hw as (r & -> & Hr). by apply H. }
  revert ts c. apply (g_line_mut (fun ts c _ => forall w, w ∈ words c -> Tok ch_a w ∈ ts) (fun ts c _ => forall w, w ∈ words c -> Tok ch_a w ∈ ts)
    (fun ts c _ => forall w, w ∈ words c -> Tok ch_a w ∈ ts) (fun ts c _ => forall w, w ∈ words c -> Tok ch_a w ∈ ts)); try done.
  - intros ts ws rs GI _ w. rewrite words_wrap, elem_of_app. destruct (items_words _ _ _ GI) as [H1 H2]. intros [Hw|Hw]; [by apply H1|by apply (Hrev rs)].
  - intros u v ts tr c rs _ IH GR w. rewrite words_wrap, elem_of_app. intros [Hw|Hw]; right; apply elem_of_app; [left; by apply IH|right; right].
    apply (Hrev rs tr); [|done]. by apply redirs_words.
  - intros ts u ts' c c' _ IH _ IH' w. cbn. rewrite !elem_of_app, elem_of_cons. intros [Hw|Hw]; [left; by apply IH|right; right; by apply IH'].
  - intros ts u c _ IH w Hw. apply elem_of_app. left. by apply IH.
  - intros ts u ts' c c' _ IH _ IH' w. cbn. rewrite !elem_of_app, elem_of_cons. intros [Hw|Hw]; [left; by apply IH|right; right; by apply IH'].
Qed.

Lemma lexes_word m es s ts q e : s <= es -> lexes m es s ts -> Tok ch_a (q, e) ∈ ts ->
  s <= q < e /\ e <= es /\ (forall x, q <= x < e -> plain (mget m x) = true) /\ (e = es \/ plain (mget m e) = false).
Proof.
  intros Hs. induction 1 as [|a ts Ha Hb L IH|a ts Ha Hb L IH|a ts Ha Hb Hc L IH|a ts Ha Hb Hc L IH|a b ts Ha Hp Hl L IH]; intros Hin;
    [by apply elem_of_nil in Hin|destruct (IH ltac:(lia) Hin); split; [lia|tauto]| | | |];
    (apply elem_of_cons in Hin as [E|Hin]; [|destruct (IH ltac:(lia) Hin); split; [lia|tauto]]).
  - injection E as E _ _. destruct (kinds (mget m a)) as (_ & K & _). destruct (K Hb) as (_ & _ & _ & K' & _). congruence.
  - discriminate E. - discriminate E.
  - injection E as -> ->. split; [lia|]. split; [lia|]. done.
Qed.

Lemma nulterminate_args_byte l : forall m a, mget (nulterminate_args m l) a = if decide (a ∈ map snd l) then 0 else mget m a.
Proof.
  induction l as [|[q e] l IH]; intros m a; [done|]. cbn [nulterminate_args map snd]. rewrite IH. destruct (decide (a ∈ map snd l)) as [Hin|Hin].
  - rewrite decide_True by (by right). done.
  - destruct (decide (a = e)) as [->|Hne]; [rewrite mget_mset_eq, decide_True by (by left); done|]. rewrite mget_mset_ne by done. rewrite decide_False; [done|].
    by intros [->|?]%elem_of_cons.
Qed.
Lemma nulterminate_byte c : forall m a, mget (nulterminate m c) a = if decide (a ∈ map snd (words c)) then 0 else mget m a.
Proof.
  induction c as [argv|c IH r|l IHl r IHr|l IHl r IHr|c IH]; intros m a; cbn [nulterminate words]; [apply nulterminate_args_byte| | | |apply IH].
  - rewrite map_app. destruct (decide (a = snd (r_file r))) as [->|Hne].
    + rewrite mget_mset_eq, decide_True; [done|]. apply elem_of_app. right. by left.
    + rewrite mget_mset_ne, IH by done. apply decide_ext. rewrite elem_of_app. cbn. rewrite list_elem_of_singleton. tauto.
  - rewrite IHr, IHl, map_app. repeat case_decide; rewrite ?elem_of_app in *; done || tauto.
  - rewrite IHr, IHl, map_app. repeat case_decide; rewrite ?elem_of_app in *; done || tauto.
Qed.

Lemma str_at_bytes m m' q n : forall k, (k <= n)%nat -> (forall x, q <= x < q + Z.of_nat n -> mget m' x = mget m x /\ mget m x <> 0) -> mget m' (q + Z.of_nat n) = 0 ->
  str_at m' (q + Z.of_nat (n - k)) (map (fun i => mget m (q + Z.of_nat i)) (seq (n - k) k)).
Proof.
  induction k as [|k IH]; intros Hk Hx H0; [rewrite Nat.sub_0_r; done|]. cbn [seq map str_at]. destruct (Hx (q + Z.of_nat (n - S k)) ltac:(lia)) as [-> Hz]. split; [done|]. split; [done|].
  specialize (IH ltac:(lia) Hx H0). replace (n - k)%nat with (S (n - S k)) in IH by lia. replace (q + Z.of_nat (n - S k) + 1) with (q + Z.of_nat (S (n - S k))) by lia. exact IH.
Qed.

Lemma parsecmd_inv m s l fuel m' c s' : str_at m s l -> (length l < fuel)%nat -> parsecmd fuel m s = POk (m', c) s' ->
  exists ts, lexes m (s + Z.of_nat (length l)) s ts /\ g_line ts c /\ m' = nulterminate m c.
Proof.
  intros Hl Hf Hp. destruct (str_at_line m s l Hl) as [Hnul Hnz].
  set (es := s + Z.of_nat (length l)) in *. destruct (lexes_total m s es Hnul Hnz s ltac:(lia)) as (ts & L). exists ts. split; [done|].
  unfold parsecmd in Hp. rewrite (strlen_ok m s l fuel Hl Hf), Nat2Z.id in Hp. fold es in Hp. pose proof (lexes_length m s es s ts ltac:(lia) L) as Hlen.
  destruct (parse_sound m s es Hnul Hnz (4 * length l + 4) s ts ltac:(lia) L) as (HS & _). specialize (HS ltac:(lia)).
  destruct (parseline m es (4 * length l + 4) s) as [c1 s1|msg|]; cbn [pbind] in Hp; try done. destruct HS as (ts1 & ts2 & -> & G & L1 & B1). unfold peek in Hp.
  destruct (Z.eqb_spec (skip m s1 es) es) as [E|E]; cbn [negb] in Hp; [|done]. apply (leftovers m s es s1 ts2 Hnul Hnz ltac:(lia) L1) in E. subst ts2.
  injection Hp as <- <- _. by rewrite app_nil_r.
Qed.

(** When the shell accepts a line, nulterminate() leaves every argument and file name of the command as a string of its
    own: the bytes of the word, ended by a NUL, inside the line; ending one word does not touch another, and nothing
    outside the line changes. *)
Theorem parsecmd_words m s l fuel m' c s' : str_at m s l -> (length l < fuel)%nat -> parsecmd fuel m s = POk (m', c) s' ->
  (forall q e, (q, e) ∈ words c -> s <= q < e /\ e <= s + Z.of_nat (length l) /\ str_at m' q (bytes_of m q (Z.to_nat (e - q))) /\
     Forall (fun x => plain x = true) (bytes_of m q (Z.to_nat (e - q)))) /\
  (forall a, a < s \/ s + Z.of_nat (length l) < a -> mget m' a = mget m a).
Proof.
  intros Hl Hf Hp. destruct (str_at_line m s l Hl) as [Hnul Hnz].
  destruct (parsecmd_inv m s l fuel m' c s' Hl Hf Hp) as (ts & L & G & ->).
  set (es := s + Z.of_nat (length l)) in *. assert (forall q e, (q, e) ∈ words c -> s <= q < e /\ e <= es /\ (forall x, q <= x < e -> plain (mget m x) = true) /\ (e = es \/ plain (mget m e) = false)) as Hw.
  { intros q e Hin. apply (lexes_word m es s ts q e ltac:(lia) L). by apply (line_words ts c). }
  split.
  - intros q e Hin. destruct (Hw q e Hin) as (B1 & B2 & Hpl & Hend). split; [done|]. split; [done|]. split.
    + pose proof (str_at_bytes m (nulterminate m c) q (Z.to_nat (e - q)) (Z.to_nat (e - q)) ltac:(lia)) as Hs. rewrite Nat.sub_diag, Z.add_0_r in Hs. apply Hs.
      * intros x Hx. split; [|apply Hnz; lia]. rewrite nulterminate_byte, decide_False; [done|]. intros ([q2 e2] & -> & Hin2)%list_elem_of_fmap. cbn [snd] in *.
        destruct (Hw q2 e2 Hin2) as (_ & _ & _ & [->|E]); [lia|]. rewrite Hpl in E; [done|lia].
      * replace (q + Z.of_nat (Z.to_nat (e - q))) with e by lia. rewrite nulterminate_byte, decide_True; [done|]. apply list_elem_of_fmap. by exists (q, e).
    + apply Forall_forall. intros x Hx. unfold bytes_of in Hx. apply list_elem_of_fmap in Hx as (i & -> & Hi%elem_of_seq). apply Hpl. lia.
  - intros a Ha. rewrite nulterminate_byte, decide_False; [done|]. intros ([q e] & -> & Hin)%list_elem_of_fmap. destruct (Hw q e Hin). cbn [snd] in *. lia.
Qed.

(** The line "echo a>b;(ls|wc)&" and a newline. *)
Definition demo_line : list Z := [101; 99; 104; 111; 32; 97; 62; 98; 59; 40; 108; 115; 124; 119; 99; 41; 38; 10].
Definition demo_line_mem : gmap Z Z := put_bytes ∅ 1000 demo_line.
Lemma demo_line_at : str_at demo_line_mem 1000 demo_line.
Proof. vm_compute. repeat (split; [done|]). done. Qed.

Lemma parsecmd_correct_witness : exists ts, lexes demo_line_mem (1000 + Z.of_nat (length demo_line)) 1000 ts /\
  ((exists c, g_line ts c /\ parsecmd 100 demo_line_mem 1000 = POk (nulterminate demo_line_mem c, c) (1000 + Z.of_nat (length demo_line))) \/
   ((forall c, ~ g_line ts c) /\ exists msg, parsecmd 100 demo_line_mem 1000 = PPanic msg)).
Proof. apply (parsecmd_correct demo_line_mem 1000 demo_line 100 demo_line_at). cbn. lia. Defined.

Definition demo_cmd : cmd := LIST (REDIR (EXEC [(1000, 1004); (1005, 1006)]) (Redir (1007, 1008) 0x601 1)) (BACK (PIPE (EXEC [(1010, 1012)]) (EXEC [(1013, 1015)]))).
Lemma demo_parse : parsecmd 100 demo_line_mem 1000 = POk (nulterminate demo_line_mem demo_cmd, demo_cmd) 1018.
Proof. vm_compute. reflexivity. Qed.

Lemma parsecmd_words_witness :
  (forall q e, (q, e) ∈ words demo_cmd -> 1000 <= q < e /\ e <= 1000 + Z.of_nat (length demo_line) /\ str_at (nulterminate demo_line_mem demo_cmd) q (bytes_of demo_line_mem q (Z.to_nat (e - q))) /\
     Forall (fun x => plain x = true) (bytes_of demo_line_mem q (Z.to_nat (e - q)))) /\
  (forall a, a < 1000 \/ 1000 + Z.of_nat (length demo_line) < a -> mget (nulterminate demo_line_mem demo_cmd) a = mget demo_line_mem a).
Proof. apply (parsecmd_words demo_line_mem 1000 demo_line 100 (nulterminate demo_line_mem demo_cmd) demo_cmd 1018 demo_line_at); [cbn; lia|exact demo_parse]. Defined.
