(* ===== verification/ShRun.v ===== *)
(** How the shell runs a command: runcmd(), fork1(), getcmd() and the loop of main() in user/sh.c.

    runcmd() is a tree of system calls.  Its meaning is the list of programs that are started with the open files each
    of them has, for every way the calls may succeed or fail.  The theorem is that closing, duplicating and opening
    descriptors, each call taking the lowest free one, connects the programs the way the command says. *)
From S2P Require Import Prelude Machine UserLib Sh ShParse.
Local Open Scope Z_scope.

(** ** The system calls of runcmd() *)

Inductive prog : Type :=
| Exit (n : Z)
| Exec (argv : list span) (failed : prog)
| Print (fd : Z) (msg : string) (k : prog)
| Close (fd : Z) (k : prog)
| Open (file : span) (mode : Z) (k : Z -> prog)
| Dup (fd : Z) (k : prog)
| Pipe (failed : prog) (k : Z -> Z -> prog)
| Fork (failed child parent : prog)
| Wait (k : prog).

Definition sh_panic (msg : string) : prog := Print 2 msg (Exit 1).

(** [if(fork1() == 0) child; parent] *)
Definition fork1 (child parent : prog) : prog := Fork (sh_panic "fork") child parent.

Fixpoint runcmd (c : cmd) : prog :=
  match c with
  | EXEC argv =>
      match argv with
      | [] => Exit 1
      | _ => Exec argv (Print 2 "exec failed" (Exit 0))
      end
  | REDIR c r =>
      Close (r_fd r) (Open (r_file r) (r_mode r) (fun fd =>
        if fd <? 0 then Print 2 "open failed" (Exit 1) else runcmd c))
  | LIST l r => fork1 (runcmd l) (Wait (runcmd r))
  | PIPE l r =>
      Pipe (sh_panic "pipe") (fun p0 p1 =>
        fork1 (Close 1 (Dup p1 (Close p0 (Close p1 (runcmd l)))))
          (fork1 (Close 0 (Dup p0 (Close p0 (Close p1 (runcmd r)))))
            (Close p0 (Close p1 (Wait (Wait (Exit 0)))))))
  | BACK c => fork1 (runcmd c) (Exit 0)
  end.

(** ** Reading commands *)

Definition getcmd (m : gmap Z Z) (buf nbuf : Z) (input : list Z) : Z * gmap Z Z * list Z :=
  let m := memset m buf 0 nbuf in
  let '(m, input) := gets m buf nbuf input in
  ((if mget m buf =? 0 then -1 else 0), m, input).

(** One turn of the loop of main(): what the line asks for, or the end of the input. *)
Inductive action : Type := Chdir (path : Z) | Run (r : pres (gmap Z Z * cmd)) | Eof.

Definition main_turn (fuel : nat) (m : gmap Z Z) (buf nbuf : Z) (input : list Z) : option (action * gmap Z Z * list Z) :=
  let '(r, m, input) := getcmd m buf nbuf input in
  if r <? 0 then Some (Eof, m, input)
  else if (mget m buf =? 99) && (mget m (buf + 1) =? 100) && (mget m (buf + 2) =? 32) then
    match strlen fuel m buf with
    | None => None
    | Some n => Some (Chdir (buf + 3), mset m (buf + n - 1) 0, input)
    end
  else Some (Run (parsecmd fuel m buf), m, input).

(** ** What a tree of system calls does *)

(** An open file of a process; a pipe is named by the process that made it, a process by the forks that led to it. *)
Inductive fobj : Type := Inherited (n : nat) | Console | Opened (file : span) (mode : Z) | ReadEnd (id : list bool) | WriteEnd (id : list bool).
Abbreviation fdt := (gmap Z fobj).

Definition lowest (t : fdt) (fd : Z) : Prop := 0 <= fd < NOFILE /\ t !! fd = None /\ forall x, 0 <= x < fd -> t !! x <> None.

Fixpoint lowest_fd (k : nat) (fd : Z) (t : fdt) : option Z :=
  match k with
  | O => None
  | S k' => match t !! fd with None => Some fd | Some _ => lowest_fd k' (fd + 1) t end
  end.

(** The first loop of main() opens the console until it gets a descriptor above 2; [k] is the number of turns. *)
Fixpoint open_console (k : nat) (t : fdt) : option fdt :=
  match k with
  | O => None
  | S k' =>
      match lowest_fd (Z.to_nat NOFILE) 0 t with
      | None => Some t
      | Some fd => if 3 <=? fd then Some t else open_console k' (<[fd := Console]> t)
      end
  end.

(** A program that was started, and its open files. *)
Record started : Type := Started { st_argv : list span; st_fds : fdt }.

(** [runs p pid t out ok]: in the process [pid] with the open files [t] the calls of [p] start the programs [out];
    [ok] is false when a call failed.  After a fork the child and the parent go on under names of their own. *)
Inductive runs : prog -> list bool -> fdt -> list started -> bool -> Prop :=
| rn_exit x pid t : runs (Exit x) pid t [] true
| rn_exec argv k pid t : runs (Exec argv k) pid t [Started argv t] true
| rn_exec_fail argv k pid t o ok : runs k pid t o ok -> runs (Exec argv k) pid t o false
| rn_print fd msg k pid t o ok : runs k pid t o ok -> runs (Print fd msg k) pid t o ok
| rn_close fd k pid t o ok : runs k pid (delete fd t) o ok -> runs (Close fd k) pid t o ok
| rn_open f md k pid t fd o ok : lowest t fd -> runs (k fd) pid (<[fd := Opened f md]> t) o ok -> runs (Open f md k) pid t o ok
| rn_open_fail f md k pid t o ok : runs (k (-1)) pid t o ok -> runs (Open f md k) pid t o false
| rn_dup fd k pid t x fd' o ok : t !! fd = Some x -> lowest t fd' -> runs k pid (<[fd' := x]> t) o ok -> runs (Dup fd k) pid t o ok
| rn_dup_fail fd k pid t o ok : t !! fd = None \/ (forall x, ~ lowest t x) -> runs k pid t o ok -> runs (Dup fd k) pid t o false
| rn_pipe k0 k pid t p0 p1 o ok : lowest t p0 -> lowest (<[p0 := ReadEnd pid]> t) p1 ->
    runs (k p0 p1) pid (<[p1 := WriteEnd pid]> (<[p0 := ReadEnd pid]> t)) o ok -> runs (Pipe k0 k) pid t o ok
| rn_pipe_fail k0 k pid t o ok : runs k0 pid t o ok -> runs (Pipe k0 k) pid t o false
| rn_fork k0 k1 k2 pid t o1 ok1 o2 ok2 : runs k1 (pid ++ [false]) t o1 ok1 -> runs k2 (pid ++ [true]) t o2 ok2 ->
    runs (Fork k0 k1 k2) pid t (o1 ++ o2) (ok1 && ok2)
| rn_fork_fail k0 k1 k2 pid t o ok : runs k0 pid t o ok -> runs (Fork k0 k1 k2) pid t o false
| rn_wait k pid t o ok : runs k pid t o ok -> runs (Wait k) pid t o ok.

(** ** What a command asks for *)

(** The programs of a command and their open files: a redirection replaces one descriptor, the left side of a pipe has its
    write end as standard output, the right side its read end as standard input, and nothing else changes. *)
Fixpoint asks (c : cmd) (pid : list bool) (t : fdt) : list started :=
  match c with
  | EXEC argv => match argv with [] => [] | _ => [Started argv t] end
  | REDIR c r => asks c pid (<[r_fd r := Opened (r_file r) (r_mode r)]> t)
  | LIST l r => asks l (pid ++ [false]) t ++ asks r (pid ++ [true]) t
  | PIPE l r => asks l (pid ++ [false]) (<[1 := WriteEnd pid]> t) ++ asks r ((pid ++ [true]) ++ [false]) (<[0 := ReadEnd pid]> t)
  | BACK c => asks c (pid ++ [false]) t
  end.

(** The redirections of the parser are to descriptors 0 and 1. *)
Fixpoint std_redirs (c : cmd) : bool :=
  match c with
  | EXEC _ => true
  | REDIR c r => ((r_fd r =? 0) || (r_fd r =? 1)) && std_redirs c
  | PIPE l r | LIST l r => std_redirs l && std_redirs r
  | BACK c => std_redirs c
  end.

(** ** Descriptors *)

Definition std (t : fdt) : Prop := is_Some (t !! 0) /\ is_Some (t !! 1).

Lemma lowest_fun t x y : lowest t x -> lowest t y -> x = y.
Proof. intros (Hx & Ex & Lx) (Hy & Ey & Ly). destruct (Z.lt_trichotomy x y) as [H|[H|H]]; [destruct (Ly x); [lia|done]|done|destruct (Lx y); [lia|done]]. Qed.

(** After close(0) or close(1) the descriptor is the lowest free one. *)
Lemma lowest_closed t fd : std t -> fd = 0 \/ fd = 1 -> lowest (delete fd t) fd.
Proof.
  intros [[x0 H0] [x1 H1]] Hfd. split; [unfold NOFILE; lia|]. split; [apply lookup_delete_eq|]. intros x Hx. assert (x = 0) as -> by lia. assert (fd = 1) as -> by lia.
  rewrite lookup_delete_ne by done. congruence.
Qed.

Lemma lowest_std t fd : std t -> lowest t fd -> fd <> 0 /\ fd <> 1 /\ 0 <= fd.
Proof. intros [[x0 H0] [x1 H1]] (H & E & _). split; [|split]; [congruence..|lia]. Qed.

Lemma std_insert t fd x : std t -> std (<[fd := x]> t).
Proof. intros [H0 H1]. split; rewrite lookup_insert_is_Some; [destruct (decide (fd = 0))|destruct (decide (fd = 1))]; tauto. Qed.

Lemma lowest_fd_spec k fd t : match lowest_fd k fd t with
  | Some r => fd <= r < fd + Z.of_nat k /\ t !! r = None /\ forall x, fd <= x < r -> t !! x <> None
  | None => forall x, fd <= x < fd + Z.of_nat k -> t !! x <> None end.
Proof.
  revert fd. induction k as [|k IH]; intros fd; cbn [lowest_fd]; [lia|]. destruct (t !! fd) eqn:E.
  - specialize (IH (fd + 1)). destruct (lowest_fd k (fd + 1) t) as [r|].
    + destruct IH as (H1 & H2 & H3). split; [lia|]. split; [done|]. intros x Hx. destruct (decide (x = fd)) as [->|]; [congruence|]. apply H3. lia.
    + intros x Hx. destruct (decide (x = fd)) as [->|]; [congruence|]. apply IH. lia.
  - split; [lia|]. split; [done|]. lia.
Qed.

(** After the loop of main() descriptors 0, 1 and 2 are open, whatever the shell inherited, and no open one has changed. *)
Lemma open_console_ok t : exists t', open_console 4 t = Some t' /\ std t' /\ is_Some (t' !! 2) /\ forall fd x, t !! fd = Some x -> t' !! fd = Some x.
Proof.
  assert (forall k n t, 4 <= Z.of_nat k + n -> 0 <= n <= 3 -> (forall x, 0 <= x < n -> is_Some (t !! x)) ->
    exists t', open_console k t = Some t' /\ (forall x, 0 <= x < 3 -> is_Some (t' !! x)) /\ forall fd x, t !! fd = Some x -> t' !! fd = Some x) as H.
  { clear t. induction k as [|k IH]; intros n t Hk Hn Ht; cbn [open_console].
    - lia.
    - pose proof (lowest_fd_spec (Z.to_nat NOFILE) 0 t) as Hl. destruct (lowest_fd _ 0 t) as [fd|].
      + destruct Hl as (H1 & H2 & H3). destruct (Z.leb_spec 3 fd).
        * exists t. split; [done|]. split; [|done]. intros x Hx. destruct (t !! x) eqn:E; [by eexists|]. destruct (H3 x); [lia|done].
        * assert (n <= fd) by (destruct (decide (n <= fd)); [done|]; destruct (Ht fd) as [y Hy]; [lia|congruence]).
          destruct (IH (fd + 1) (<[fd := Console]> t)) as (t' & E & Ho & Hk'); [lia..| |].
          { intros x Hx. destruct (decide (x = fd)) as [->|]; [rewrite lookup_insert_eq; by eexists|]. rewrite lookup_insert_ne by done.
            destruct (t !! x) eqn:E; [by eexists|]. destruct (H3 x); [lia|done]. }
          exists t'. split; [done|]. split; [done|]. intros y x Hy. apply Hk'. rewrite lookup_insert_ne; [done|congruence].
      + exists t. split; [done|]. split; [|done]. intros x Hx. destruct (t !! x) eqn:E; [by eexists|]. destruct (Hl x); [unfold NOFILE; lia|done]. }
  destruct (H 4%nat 0 t) as (t' & E & Ho & Hk); [lia..|]. exists t'. split; [done|]. split; [split; apply Ho; lia|]. split; [apply Ho; lia|done].
Qed.

(** [close(fd); dup(p); close(p0); close(p1)] puts the end [x] at the descriptor and drops both ends. *)
Lemma plumb t fd p p0 p1 x0 x1 x k pid o ok : std t -> fd = 0 \/ fd = 1 -> lowest t p0 -> lowest (<[p0 := x0]> t) p1 -> (p = p0 /\ x = x0 \/ p = p1 /\ x = x1) ->
  runs (Close fd (Dup p (Close p0 (Close p1 k)))) pid (<[p1 := x1]> (<[p0 := x0]> t)) o ok <-> runs k pid (<[fd := x]> t) o ok.
Proof.
  intros Hs Hfd L0 L1 Hp. destruct (lowest_std t p0 Hs L0) as (A1 & A2 & A3). destruct (lowest_std _ p1 (std_insert t p0 x0 Hs) L1) as (B1 & B2 & B3).
  assert (p0 <> p1) as Hne by (intros <-; destruct L1 as (_ & E & _); by rewrite lookup_insert_eq in E).
  assert (t !! p1 = None) as Ep1 by (destruct L1 as (_ & E & _); by rewrite lookup_insert_ne in E). pose proof (proj1 (proj2 L0)) as Ep0.
  set (t1 := <[p1 := x1]> (<[p0 := x0]> t)) in *. assert (std t1) as Hs1 by (by apply std_insert, std_insert).
  assert (delete fd t1 !! p = Some x) as Ex.
  { rewrite lookup_delete_ne by (destruct Hp as [[-> _]|[-> _]]; lia). unfold t1. destruct Hp as [[-> ->]|[-> ->]]; [rewrite lookup_insert_ne by done|]; apply lookup_insert_eq. }
  assert (delete p1 (delete p0 (<[fd := x]> (delete fd t1))) = <[fd := x]> t) as Et.
  { apply map_eq. intros i. unfold t1. destruct (decide (i = p1)) as [->|]; [rewrite lookup_delete_eq, lookup_insert_ne by lia; done|]. rewrite lookup_delete_ne by done.
    destruct (decide (i = p0)) as [->|]; [rewrite lookup_delete_eq, lookup_insert_ne by lia; done|]. rewrite lookup_delete_ne by done.
    destruct (decide (i = fd)) as [->|]; [by rewrite !lookup_insert_eq|]. rewrite !(lookup_insert_ne _ fd), lookup_delete_ne, !lookup_insert_ne by done. done. }
  pose proof (lowest_closed t1 fd Hs1 Hfd) as Hl. rewrite <- Et. split.
  - intros R. inversion R as [| | | |? ? ? ? ? ? R1| | | | | | | | |]; subst. inversion R1 as [| | | | | | |? ? ? ? y fd' ? ? Ey L R2|? ? ? ? ? ? [E|E]| | | | |]; subst;
      [|congruence|by destruct (E fd)].
    rewrite Ex in Ey. injection Ey as <-. assert (fd' = fd) as -> by (eapply lowest_fun; [exact L|done]).
    inversion R2 as [| | | |? ? ? ? ? ? R3| | | | | | | | |]; subst. inversion R3 as [| | | |? ? ? ? ? ? R4| | | | | | | | |]; subst. done.
  - intros R. apply rn_close. eapply rn_dup; [exact Ex|exact Hl|]. by apply rn_close, rn_close.
Qed.

(** The shell does not start programs after a failed call. *)
Lemma runs_panic msg pid t o ok : runs (sh_panic msg) pid t o ok -> o = [].
Proof. intros R. inversion R as [| | |? ? ? ? ? ? ? R1| | | | | | | | | |]; subst. by inversion R1. Qed.

(** ** Success *)

(** Two descriptors are free. *)
Definition room (t : fdt) : Prop := exists p0 p1, lowest t p0 /\ forall x, lowest (<[p0 := x]> t) p1.

Lemma lowest_ext t t' fd : (forall i, t !! i = None <-> t' !! i = None) -> lowest t fd -> lowest t' fd.
Proof. intros H (H1 & H2 & H3). split; [done|]. split; [by apply H|]. intros x Hx E. apply (H3 x Hx). by apply H. Qed.
Lemma room_insert t fd x : std t -> fd = 0 \/ fd = 1 -> room t -> room (<[fd := x]> t).
Proof.
  intros [[y0 E0] [y1 E1]] Hfd (p0 & p1 & L0 & L1).
  assert (forall i, t !! i = None <-> <[fd := x]> t !! i = None) as H.
  { intros i. destruct (decide (i = fd)) as [->|]; [rewrite lookup_insert_eq; destruct Hfd as [-> | ->]; split; congruence|by rewrite lookup_insert_ne]. }
  exists p0, p1. split; [by apply (lowest_ext t)|]. intros y. apply (lowest_ext (<[p0 := y]> t)); [|done].
  intros i. destruct (decide (i = p0)) as [->|]; [by rewrite !lookup_insert_eq|]. rewrite !(lookup_insert_ne _ p0) by done. apply H.
Qed.

(** With two free descriptors all the calls can succeed. *)
Lemma runcmd_all c : forall pid t, std t -> std_redirs c = true -> room t -> runs (runcmd c) pid t (asks c pid t) true.
Proof.
  induction c as [argv|c IH r|l IHl r IHr|l IHl r IHr|c IH]; intros pid t Hs Hr Hm; cbn [runcmd std_redirs asks] in *.
  - destruct argv; constructor.
  - apply andb_true_iff in Hr as [Hfd Hr]. assert (r_fd r = 0 \/ r_fd r = 1) as Hfd' by lia. apply rn_close. apply (rn_open _ _ _ _ _ (r_fd r)); [by apply lowest_closed|].
    rewrite insert_delete_eq. destruct (Z.ltb_spec (r_fd r) 0); [lia|]. apply IH; [by apply std_insert|done|by apply room_insert].
  - apply andb_true_iff in Hr as [Hr1 Hr2]. pose proof Hm as (p0 & p1 & L0 & L1). apply (rn_pipe _ _ _ _ p0 p1); [done|by apply L1|]. specialize (L1 (ReadEnd pid)).
    unfold fork1. apply (rn_fork _ _ _ _ _ _ true _ true); [|rewrite <- (app_nil_r (asks r _ _)); apply (rn_fork _ _ _ _ _ _ true _ true)].
    + apply (plumb t 1 p1 p0 p1 _ _ (WriteEnd pid)); [done|by right|done|done|by right|]. apply IHl; [by apply std_insert|done|apply room_insert; [done|by right|done]].
    + apply (plumb t 0 p0 p0 p1 _ _ (ReadEnd pid)); [done|by left|done|done|by left|]. apply IHr; [by apply std_insert|done|apply room_insert; [done|by left|done]].
    + repeat constructor.
  - apply andb_true_iff in Hr as [Hr1 Hr2]. apply (rn_fork _ _ _ _ _ _ true _ true); [by apply IHl|]. constructor. by apply IHr.
  - rewrite <- (app_nil_r (asks c _ _)). apply (rn_fork _ _ _ _ _ _ true _ true); [by apply IH|constructor].
Qed.

(** The parser only makes such redirections. *)
Lemma wrap_std rs c : std_redirs (wrap rs c) = forallb (fun r => (r_fd r =? 0) || (r_fd r =? 1)) rs && std_redirs c.
Proof. induction rs as [|r rs IH]; [done|]. cbn. fold (wrap rs c). by rewrite IH, andb_assoc. Qed.
Lemma redir_of_std t w r : redir_of t w = Some r -> (r_fd r =? 0) || (r_fd r =? 1) = true.
Proof. unfold redir_of. repeat case_match; naive_solver. Qed.

Lemma line_std ts c : g_line ts c -> std_redirs c = true.
Proof.
  assert (forall l c, Forall (fun r => (r_fd r =? 0) || (r_fd r =? 1) = true) l -> std_redirs c = true -> std_redirs (wrap (rev l) c) = true) as Hw.
  { intros l c' Hl Hc. rewrite wrap_std, Hc, andb_true_r. apply forallb_forall. intros r Hr%in_rev. rewrite Forall_forall in Hl. apply Hl. by apply list_elem_of_In. }
  revert ts c. apply (g_line_mut (fun _ c _ => std_redirs c = true) (fun _ c _ => std_redirs c = true) (fun _ c _ => std_redirs c = true) (fun _ c _ => std_redirs c = true)); cbn; try done.
  - intros ts ws rs G _. apply Hw; [|done]. induction G; [constructor|done|]. constructor; [by eapply redir_of_std|done].
  - intros u v ts tr c rs _ IH G. apply Hw; [|done]. induction G; constructor; [by eapply redir_of_std|done].
  - intros ts u ts' c c' _ -> _ ->. done.
  - intros ts u ts' c c' _ -> _ ->. done.
Qed.

(** C20: Whatever calls fail, the programs a command starts are among those it asks for, each with exactly the open files it
    asks for, and when no call fails all of them are started: redirections and pipes are connected through the lowest free
    descriptor, and no program keeps an end of a pipe that is not its standard input or output. *)
Theorem runcmd_plumbs c pid t out ok : std t -> std_redirs c = true -> runs (runcmd c) pid t out ok ->
  out `sublist_of` asks c pid t /\ (ok = true -> out = asks c pid t).
Proof.
  revert pid t out ok. induction c as [argv|c IH r|l IHl r IHr|l IHl r IHr|c IH]; intros pid t out ok Hs Hr R; cbn [runcmd std_redirs asks] in *.
  - destruct argv as [|w ws]; inversion R as [| |? ? ? ? ? ? R1| | | | | | | | | | |]; subst; try done.
    inversion R1 as [| | |? ? ? ? ? ? ? R2| | | | | | | | | |]; subst. inversion R2; subst. split; [apply sublist_nil_l|done].
  - apply andb_true_iff in Hr as [Hfd Hr]. assert (r_fd r = 0 \/ r_fd r = 1) as Hfd' by lia. inversion R as [| | | |? ? ? ? ? ? R1| | | | | | | | |]; subst.
    inversion R1 as [| | | | |? ? ? ? ? fd ? ? L R2|? ? ? ? ? ? ? R2| | | | | | |]; subst.
    + assert (fd = r_fd r) as -> by (eapply lowest_fun; [exact L|by apply lowest_closed]). destruct (Z.ltb_spec (r_fd r) 0); [lia|].
      apply IH in R2; [|split; rewrite lookup_insert_is_Some; destruct Hs; destruct (decide (r_fd r = 0)), (decide (r_fd r = 1)); rewrite ?lookup_delete_ne by done; tauto|done].
      by rewrite insert_delete_eq in R2.
    + destruct (Z.ltb_spec (-1) 0); [|lia]. inversion R2 as [| | |? ? ? ? ? ? ? R3| | | | | | | | | |]; subst. inversion R3; subst. split; [apply sublist_nil_l|done].
  - apply andb_true_iff in Hr as [Hr1 Hr2]. inversion R as [| | | | | | | | |? ? ? ? p0 p1 ? ? L0 L1 R1|? ? ? ? ? ? R1| | |]; subst; [|apply runs_panic in R1 as ->; split; [apply sublist_nil_l|done]].
    inversion R1 as [| | | | | | | | | | |? ? ? ? ? o1 ok1 o2 ok2 Rl Rr|? ? ? ? ? ? ? Rf|]; subst; [|apply runs_panic in Rf as ->; split; [apply sublist_nil_l|done]].
    apply (plumb t 1 p1 p0 p1 _ _ (WriteEnd pid)) in Rl; [|done|by right|done|done|by right]. apply IHl in Rl as [Sl El]; [|by apply std_insert|done].
    inversion Rr as [| | | | | | | | | | |? ? ? ? ? o3 ok3 o4 ok4 Rr' Rp|? ? ? ? ? ? ? Rf|]; subst.
    + apply (plumb t 0 p0 p0 p1 _ _ (ReadEnd pid)) in Rr'; [|done|by left|done|done|by left]. apply IHr in Rr' as [Sr Er]; [|by apply std_insert|done].
      assert (o4 = []) as -> by (repeat match goal with H : runs (Close _ _) _ _ _ _ |- _ => inversion H; clear H; subst | H : runs (Wait _) _ _ _ _ |- _ => inversion H; clear H; subst end; match goal with H : runs (Exit _) _ _ _ _ |- _ => by inversion H end).
      rewrite app_nil_r. split; [by apply sublist_app|]. intros [H1 [H2 _]%andb_true_iff]%andb_true_iff. by rewrite El, Er.
    + apply runs_panic in Rf as ->. rewrite app_nil_r. split; [by apply sublist_inserts_r|]. intros [_ H2]%andb_true_iff. done.
  - apply andb_true_iff in Hr as [Hr1 Hr2]. inversion R as [| | | | | | | | | | |? ? ? ? ? o1 ok1 o2 ok2 Rl Rr|? ? ? ? ? ? ? Rf|]; subst; [|apply runs_panic in Rf as ->; split; [apply sublist_nil_l|done]].
    apply IHl in Rl as [Sl El]; [|done|done]. inversion Rr as [| | | | | | | | | | | | |? ? ? ? ? Rr']; subst. apply IHr in Rr' as [Sr Er]; [|done|done].
    split; [by apply sublist_app|]. intros [H1 H2]%andb_true_iff. by rewrite El, Er.
  - inversion R as [| | | | | | | | | | |? ? ? ? ? o1 ok1 o2 ok2 Rl Rr|? ? ? ? ? ? ? Rf|]; subst; [|apply runs_panic in Rf as ->; split; [apply sublist_nil_l|done]].
    apply IH in Rl as [Sl El]; [|done|done]. inversion Rr; subst. rewrite app_nil_r. split; [done|]. intros [H1 _]%andb_true_iff. by apply El.
Qed.

(** Descriptors 0, 1 and 2 as the shell has them. *)
Definition demo_fds : fdt := <[0 := Inherited 0]> (<[1 := Inherited 1]> (<[2 := Inherited 2]> ∅)).
Lemma demo_room : room demo_fds.
Proof.
  exists 3, 4. split; [|intros x]; (split; [unfold NOFILE; lia|split; [done|]]); intros i Hi; [assert (i = 0 \/ i = 1 \/ i = 2) by lia|assert (i = 0 \/ i = 1 \/ i = 2 \/ i = 3) by lia]; naive_solver.
Qed.

Lemma runcmd_plumbs_witness : exists out ok, runs (runcmd demo_cmd) [] demo_fds out ok /\ out `sublist_of` asks demo_cmd [] demo_fds /\ (ok = true -> out = asks demo_cmd [] demo_fds).
Proof.
  assert (std demo_fds) as Hs by (split; by eexists). assert (runs (runcmd demo_cmd) [] demo_fds (asks demo_cmd [] demo_fds) true) as R by (apply runcmd_all; [done|done|apply demo_room]).
  exists (asks demo_cmd [] demo_fds), true. split; [exact R|]. exact (runcmd_plumbs demo_cmd [] demo_fds _ _ Hs eq_refl R).
Defined.
