(* ===== verification/Filters.v ===== *)
(** Small user programs on a stream of bytes: user/wc.c, user/cat.c, user/xargs.c, and the generator of user/grind.c and
    user/attacktest.c.

    read() call [k] returns at most [chunk k] bytes, at least one while there is input, so the theorems hold for a file, a
    pipe and the console alike. *)
From S2P Require Import Prelude Machine.
Local Open Scope Z_scope.

(** ** wc() *)

Record counts : Type := Counts { c_l : Z; c_w : Z; c_c : Z; c_inword : bool }.

(** strchr of the five blanks, which does not find the NUL. *)
Definition blank (b : Z) : bool := (b =? 32) || (b =? 13) || (b =? 9) || (b =? 10) || (b =? 11).

Definition wc_byte (s : counts) (b : Z) : counts :=
  let s := Counts (c_l s) (c_w s) (s32 (c_c s + 1)) (c_inword s) in
  let s := if b =? 10 then Counts (s32 (c_l s + 1)) (c_w s) (c_c s) (c_inword s) else s in
  if blank b then Counts (c_l s) (c_w s) (c_c s) false
  else if negb (c_inword s) then Counts (c_l s) (s32 (c_w s + 1)) (c_c s) true
  else s.

Definition BUF : nat := 512.

Section Read.
Context (chunk : nat -> nat).
(** read() call [k] fails. *)
Context (bad : nat -> bool).

Fixpoint wc_loop (fuel k : nat) (s : counts) (input : list Z) : option (option counts) :=
  match fuel with
  | O => None
  | S f =>
      if bad k then Some None
      else
        let n := Nat.min BUF (Nat.min (chunk k) (length input)) in
        match n with
        | O => Some (Some s)
        | _ => wc_loop f (S k) (foldl wc_byte s (firstn n input)) (skipn n input)
        end
  end.
(** [Some None] is the read error. *)
Definition wc (input : list Z) : option (option counts) := wc_loop (S (length input)) 0 (Counts 0 0 0 false) input.

(** ** cat() *)

(** write() call [k] of [n] bytes returns [wr k n]. *)
Context (wr : nat -> nat -> Z).

Inductive cat_res : Type := CatDone | CatWriteError | CatReadError.

Fixpoint cat_loop (fuel k : nat) (input : list Z) : option (list Z * cat_res) :=
  match fuel with
  | O => None
  | S f =>
      if bad k then Some ([], CatReadError)
      else
        let n := Nat.min BUF (Nat.min (chunk k) (length input)) in
        match n with
        | O => Some ([], CatDone)
        | _ =>
            if negb (wr k n =? Z.of_nat n) then Some (firstn (Z.to_nat (wr k n)) (firstn n input), CatWriteError)
            else match cat_loop f (S k) (skipn n input) with
                 | Some (o, r) => Some (firstn n input ++ o, r)
                 | None => None
                 end
        end
  end.
Definition cat (input : list Z) : option (list Z * cat_res) := cat_loop (S (length input)) 0 input.
End Read.

(** ** xargs *)

(** The string in a buffer. *)
Fixpoint cstr (b : list Z) : list Z := match b with [] => [] | x :: b => if x =? 0 then [] else x :: cstr b end.

(** The commands that are run, with their arguments, and whether the 512 bytes of buf were left; fork() is taken to succeed. *)
Fixpoint xargs_loop (args : list (list Z)) (buf : list Z) (m : nat) (input : list Z) : list (list (list Z)) * bool :=
  match input with
  | [] => ([], false)
  | b :: input =>
      if (BUF <=? m)%nat then ([], true)
      else
        let buf := <[m := b]> buf in
        if b =? 10 then
          let buf := <[m := 0]> buf in
          let (o, r) := xargs_loop args buf 0 input in ((args ++ [cstr buf]) :: o, r)
        else xargs_loop args buf (S m) input
  end.
Definition xargs (argv : list (list Z)) (garbage input : list Z) : option (list (list (list Z)) * bool) :=
  if (length argv <? 2)%nat then None else Some (xargs_loop (tl argv) garbage 0 input).

(** ** do_rand() *)

Definition do_rand (ctx : Z) : Z :=
  let x := u64 ctx mod 0x7ffffffe + 1 in
  let hi := Z.quot x 127773 in
  let lo := Z.rem x 127773 in
  let x := 16807 * lo - 2836 * hi in
  let x := if x <? 0 then x + 0x7fffffff else x in
  x - 1.

(** *** Counting *)

(** The words of a text: its longest runs of characters that are not blank. *)
Fixpoint words (input : list Z) : list (list Z) :=
  match input with
  | [] => []
  | b :: input =>
      if blank b then words input
      else match input with
           | [] => [[b]]
           | b' :: _ => if blank b' then [b] :: words input
                        else match words input with v :: vs => (b :: v) :: vs | [] => [[b]] end
           end
  end.
Definition lines_in (input : list Z) : Z := Z.of_nat (length (filter (fun b => b = 10) input)).

(** The words are not empty, have no blanks, and are what is left of the text without its blanks. *)
Lemma words_concat input : concat (words input) = filter (fun b => blank b = false) input.
Proof.
  induction input as [|b input IH]; [done|]. cbn [words]. destruct (blank b) eqn:Eb; [rewrite filter_cons_False by (by rewrite Eb); done|]. rewrite filter_cons_True by done.
  destruct input as [|b' input]; [done|]. destruct (blank b') eqn:Eb'; cbn [concat]; rewrite <- IH; [done|]. destruct (words (b' :: input)) as [|v vs]; done.
Qed.
Lemma words_nonempty input : Forall (fun v => v <> []) (words input).
Proof.
  induction input as [|b input IH]; [constructor|]. cbn [words]. destruct (blank b); [done|]. destruct input as [|b' input]; [by repeat constructor|].
  destruct (blank b'); [by constructor|]. destruct (words (b' :: input)) as [|v vs]; [by repeat constructor|]. apply Forall_cons in IH as [_ IH]. by constructor.
Qed.

(** The number of words when the text before ended inside a word or not. *)
Definition more_words (inw : bool) (input : list Z) : Z :=
  Z.of_nat (length (words input)) - (if inw && match input with b :: _ => negb (blank b) | [] => false end then 1 else 0).

Lemma words_head b b' input : blank b = false -> blank b' = false -> length (words (b :: b' :: input)) = length (words (b' :: input)).
Proof.
  intros E1 E2. change (words (b :: b' :: input)) with (if blank b then words (b' :: input) else if blank b' then [b] :: words (b' :: input) else match words (b' :: input) with v :: vs => (b :: v) :: vs | [] => [[b]] end).
  rewrite E1, E2. destruct (words (b' :: input)) as [|v vs] eqn:E; [|done]. pose proof (words_concat (b' :: input)) as H. rewrite E, filter_cons_True in H by done. done.
Qed.
Lemma more_words_cons inw b input : more_words inw (b :: input) =
  if blank b then more_words false input else (if inw then 0 else 1) + more_words true input.
Proof.
  unfold more_words. destruct (blank b) eqn:Eb; [cbn [words]; rewrite Eb; cbn [negb andb]; rewrite andb_false_r; done|]. cbn [negb andb]. rewrite andb_true_r.
  destruct input as [|b' input]; [cbn [words]; rewrite Eb; destruct inw; done|]. destruct (blank b') eqn:Eb'.
  - cbn [negb]. change (words (b :: b' :: input)) with (if blank b then words (b' :: input) else if blank b' then [b] :: words (b' :: input) else match words (b' :: input) with v :: vs => (b :: v) :: vs | [] => [[b]] end).
    rewrite Eb, Eb'. cbn [length andb]. destruct inw; lia.
  - rewrite words_head by done. cbn [negb andb]. destruct inw; lia.
Qed.

Definition below (n : Z) (s : counts) : Prop := (0 <= c_l s <= n) /\ (0 <= c_w s <= n) /\ 0 <= c_c s <= n.

Lemma wc_byte_spec s b n : below n s -> n + 1 < 2 ^ 31 -> below (n + 1) (wc_byte s b) /\
  wc_byte s b = Counts (c_l s + (if b =? 10 then 1 else 0)) (c_w s + (if negb (blank b) && negb (c_inword s) then 1 else 0)) (c_c s + 1) (negb (blank b)).
Proof.
  intros (H1 & H2 & H3) Hn. unfold wc_byte. destruct (b =? 10) eqn:E10; destruct (blank b) eqn:Eb; destruct (c_inword s) eqn:Ei; cbn [c_l c_w c_c c_inword negb andb]; rewrite ?Ei;
    cbn [c_l c_w c_c c_inword negb andb]; rewrite !s32_id by lia; (split; [unfold below; cbn [c_l c_w c_c]; lia|f_equal; lia || done]).
Qed.

Lemma wc_fold input : forall s n, below n s -> n + Z.of_nat (length input) < 2 ^ 31 -> exists e,
  foldl wc_byte s input = Counts (c_l s + lines_in input) (c_w s + more_words (c_inword s) input) (c_c s + Z.of_nat (length input)) e.
Proof.
  induction input as [|b input IH]; intros s n Hs Hn; [exists (c_inword s); destruct s; unfold lines_in, more_words; cbn; rewrite andb_false_r; f_equal; lia|]. cbn [length] in Hn.
  destruct (wc_byte_spec s b n Hs ltac:(lia)) as [Hb E]. destruct (IH (wc_byte s b) (n + 1) Hb ltac:(lia)) as [e He]. exists e. cbn [foldl]. rewrite He, E. cbn [c_l c_w c_c c_inword].
  rewrite more_words_cons. unfold lines_in. f_equal.
  - destruct (Z.eqb_spec b 10) as [->|Hne]; [rewrite filter_cons_True by done; cbn [length]; lia|rewrite filter_cons_False by done; lia].
  - destruct (blank b); cbn [negb andb]; [lia|]. destruct (c_inword s); cbn [negb]; lia.
  - cbn [length]. lia.
Qed.

Section Streams.
Context (chunk : nat -> nat) (bad : nat -> bool).

Lemma wc_loop_run fuel : forall k s input, (forall i, 0 < chunk i)%nat -> (forall i, bad i = false) -> (length input < fuel)%nat ->
  wc_loop chunk bad fuel k s input = Some (Some (foldl wc_byte s input)).
Proof.
  induction fuel as [|f IH]; intros k s input Hc Hb Hf; [lia|]. cbn [wc_loop]. rewrite Hb. specialize (Hc k) as Hck. destruct (Nat.min BUF (Nat.min (chunk k) (length input))) as [|n] eqn:En.
  - destruct input; [done|]. unfold BUF in En. cbn [length] in En. lia.
  - rewrite IH; [|done|done|rewrite length_skipn; lia]. do 2 f_equal. by rewrite <- foldl_app, firstn_skipn.
Qed.

(** wc prints the number of lines, words and bytes of its input, however read() cuts it into pieces: the newlines,
    the longest runs of bytes that are not blank, and the length. *)
Theorem wc_correct input : (forall i, 0 < chunk i)%nat -> (forall i, bad i = false) -> Z.of_nat (length input) < 2 ^ 31 ->
  exists e, wc chunk bad input = Some (Some (Counts (lines_in input) (Z.of_nat (length (words input))) (Z.of_nat (length input)) e)) /\
    concat (words input) = filter (fun b => blank b = false) input /\ Forall (fun v => v <> []) (words input).
Proof.
  intros Hc Hb Hn. destruct (wc_fold input (Counts 0 0 0 false) 0 ltac:(unfold below; cbn; lia) ltac:(lia)) as [e He]. exists e. unfold wc. rewrite wc_loop_run, He by (done || lia).
  split; [|split; [apply words_concat|apply words_nonempty]]. do 2 f_equal. cbn [c_l c_w c_c c_inword]. unfold more_words. cbn [andb]. f_equal; lia.
Qed.

(** cat copies its input as far as the writes succeed. *)
Lemma cat_loop_run wr fuel : forall k input, (forall i, 0 < chunk i)%nat -> (length input < fuel)%nat ->
  exists o r, cat_loop chunk bad wr fuel k input = Some (o, r) /\ (exists rest, input = o ++ rest) /\ (r = CatDone -> o = input) /\
    ((forall i n, wr i n = Z.of_nat n) -> (forall i, bad i = false) -> r = CatDone).
Proof.
  induction fuel as [|f IH]; intros k input Hc Hf; [lia|]. cbn [cat_loop]. destruct (bad k) eqn:Eb.
  { exists [], CatReadError. split; [done|]. split; [by exists input|]. split; [done|]. intros _ H. by rewrite H in Eb. }
  specialize (Hc k) as Hck. destruct (Nat.min BUF (Nat.min (chunk k) (length input))) as [|n] eqn:En.
  { exists [], CatDone. split; [done|]. split; [by exists input|]. split; [|done]. intros _. destruct input; [done|]. unfold BUF in En. cbn [length] in En. lia. }
  destruct (Z.eqb_spec (wr k (S n)) (Z.of_nat (S n))) as [Ew|Ew]; cbn [negb].
  - destruct (IH (S k) (skipn (S n) input) Hc ltac:(rewrite length_skipn; lia)) as (o & r & -> & (rest & Hr) & Hd & Hw). exists (firstn (S n) input ++ o), r. split; [done|].
    split; [exists rest; by rewrite <- app_assoc, <- Hr, firstn_skipn|]. split; [intros E; by rewrite Hd, firstn_skipn|done].
  - eexists _, CatWriteError. split; [done|]. split; [|split; [done|intros H; by rewrite H in Ew]]. eexists (skipn (Z.to_nat (wr k (S n))) (firstn (S n) input) ++ skipn (S n) input).
    by rewrite app_assoc, firstn_skipn, firstn_skipn.
Qed.

Theorem cat_correct wr input : (forall i, 0 < chunk i)%nat -> exists o r, cat chunk bad wr input = Some (o, r) /\ o `prefix_of` input /\ (r = CatDone -> o = input) /\
  ((forall i n, wr i n = Z.of_nat n) -> (forall i, bad i = false) -> r = CatDone).
Proof. intros Hc. destruct (cat_loop_run wr (S (length input)) 0 input Hc ltac:(lia)) as (o & r & H & (rest & Hr) & H1 & H2). exists o, r. split_and!; try done. by exists rest. Qed.
End Streams.

Lemma wc_correct_witness : exists e, wc (fun _ => 3%nat) (fun _ => false) [97; 98; 32; 99; 10; 10; 100] = Some (Some (Counts 2 3 7 e)).
Proof.
  destruct (wc_correct (fun _ => 3%nat) (fun _ => false) [97; 98; 32; 99; 10; 10; 100]) as (e & H & _); [intros; lia|reflexivity|reflexivity|]. exists e. exact H.
Defined.

(** *** xargs *)

Lemma cstr_line x r : 0 ∉ x -> cstr (x ++ 0 :: r) = x.
Proof.
  induction x as [|b x IH]; intros H; [done|]. apply not_elem_of_cons in H as [H1 H2]. cbn [app cstr]. rewrite (proj2 (Z.eqb_neq _ _)) by congruence. by rewrite IH.
Qed.

Lemma xargs_line args x : forall buf m done input, length buf = BUF -> firstn m buf = done -> length done = m -> (m + length x < BUF)%nat -> 10 ∉ x -> (0 ∉ done ++ x) ->
  exists buf', length buf' = BUF /\ xargs_loop args buf m (x ++ 10 :: input) = let (o, r) := xargs_loop args buf' 0 input in ((args ++ [done ++ x]) :: o, r).
Proof.
  induction x as [|b x IH]; intros buf m dn input Hl Hd Hm Hx Hn H0; cbn [app length xargs_loop] in *; rewrite (proj2 (Nat.leb_gt _ _)) by lia.
  - exists (<[m := 0]> (<[m := 10]> buf)). split; [by rewrite !length_insert|]. cbn. destruct (xargs_loop _ _ _ _). do 4 f_equal. rewrite app_nil_r in *. rewrite <- (take_drop_middle (<[m:=0]> (<[m:=10]> buf)) m 0) by (apply list_lookup_insert_eq; rewrite length_insert; lia).
    rewrite !take_insert, !decide_False by lia. rewrite Hd. by apply cstr_line.
  - apply not_elem_of_cons in Hn as [Hb Hn]. rewrite (proj2 (Z.eqb_neq _ _)) by congruence.
    destruct (IH (<[m := b]> buf) (S m) (dn ++ [b]) input) as (buf' & Hl' & He).
    + by rewrite length_insert.
    + rewrite (take_S_r _ _ b) by (apply list_lookup_insert_eq; lia). by rewrite take_insert, decide_False, Hd by lia.
    + rewrite length_app. cbn. lia.
    + lia.
    + done.
    + by rewrite <- app_assoc.
    + exists buf'. split; [done|]. rewrite He. by rewrite <- app_assoc.
Qed.

(** xargs runs its command once for each line, with the line as the last argument.  What follows the last newline is dropped. *)
Theorem xargs_correct argv garbage ls t : (2 <= length argv)%nat -> length garbage = BUF -> Forall (fun x => (length x < BUF)%nat /\ (10 ∉ x) /\ 0 ∉ x) ls ->
  10 ∉ t -> (length t <= BUF)%nat -> xargs argv garbage (concat (map (fun x => x ++ [10]) ls) ++ t) = Some (map (fun x => tl argv ++ [x]) ls, false).
Proof.
  intros Ha Hg Hls Ht Hlt. unfold xargs. rewrite (proj2 (Nat.ltb_ge _ _)) by lia. f_equal. generalize (tl argv). intros args. clear Ha argv. revert garbage Hg. induction Hls as [|x ls (H1 & H2 & H3) Hls IH]; intros buf Hb.
  - cbn [map concat app]. assert (forall u b m, 10 ∉ u -> (m + length u <= BUF)%nat -> xargs_loop args b m u = ([], false)) as Hend.
    { induction u as [|z u IHu]; intros b m Hu Hm; [done|]. apply not_elem_of_cons in Hu as [Hz Hu]. cbn [length xargs_loop] in *. rewrite (proj2 (Nat.leb_gt _ _)), (proj2 (Z.eqb_neq _ _)) by (lia || congruence). apply IHu; [done|lia]. }
    by apply Hend.
  - cbn [map concat]. rewrite <- !app_assoc. cbn [app]. destruct (xargs_line args x buf 0 [] (concat (map (fun x => x ++ [10]) ls) ++ t)) as (buf' & Hb' & ->); try done. by rewrite IH.
Qed.

(** A line of 512 bytes or more runs over the end of the buffer. *)
Lemma xargs_overrun args x : forall buf m input, (BUF <= m + length x)%nat -> 10 ∉ x -> input <> [] -> snd (xargs_loop args buf m (x ++ input)) = true.
Proof.
  induction x as [|b x IH]; intros buf m input Hm Hn Hi; cbn [app length] in *; [destruct input; [done|]; cbn [xargs_loop]; by rewrite (proj2 (Nat.leb_le _ _)) by lia|].
  apply not_elem_of_cons in Hn as [Hb Hn]. cbn [xargs_loop]. destruct (BUF <=? m)%nat; [done|]. rewrite (proj2 (Z.eqb_neq _ _)) by congruence. apply IH; [lia|done|done].
Qed.

(** *** do_rand() *)

Definition M31 : Z := 0x7fffffff.

(** Schrage's method: the product modulo 2^31-1 without a product of more than 32 bits; the next value lies in the range
    of the generator, and different states have different successors. *)
Theorem do_rand_correct a : 0 <= a < 2 ^ 64 ->
  do_rand a = (16807 * (a mod (M31 - 1) + 1)) mod M31 - 1 /\ 0 <= do_rand a <= M31 - 2 /\
  (forall b, 0 <= a <= M31 - 2 -> 0 <= b <= M31 - 2 -> do_rand a = do_rand b -> a = b).
Proof.
  assert (forall a, 0 <= a < 2 ^ 64 -> do_rand a = (16807 * (a mod (M31 - 1) + 1)) mod M31 - 1) as Hs.
  { clear a. intros a Ha. unfold do_rand. rewrite u64_small by done. unfold M31. change (0x7fffffff - 1) with 0x7ffffffe. set (y := a mod 0x7ffffffe + 1). assert (1 <= y <= 0x7ffffffe) as Hy by (unfold y; zlia).
    rewrite Z.quot_div_nonneg, Z.rem_mod_nonneg by lia. clearbody y. destruct (Z.ltb_spec (16807 * (y mod 127773) - 2836 * (y / 127773)) 0); zlia. }
  assert (forall x, 1 <= x < M31 -> (16807 * x) mod M31 <> 0) as Hnz.
  { intros x Hx E. apply Z.mod_divide in E; [|done]. apply Z.gauss in E; [apply Z.divide_pos_le in E; lia|vm_compute; reflexivity]. }
  intros Ha. split; [by apply Hs|]. rewrite (Hs a Ha). assert (1 <= a mod (M31 - 1) + 1 < M31) as Hy by (unfold M31; zlia).
  pose proof (Hnz _ Hy). pose proof (Z.mod_pos_bound (16807 * (a mod (M31 - 1) + 1)) M31 ltac:(done)) as Hb. split; [lia|].
  intros b Ha' Hb' E. rewrite (Hs b) in E by (unfold M31 in Hb'; lia). rewrite !(Z.mod_small _ (M31 - 1)) in E by lia.
  assert ((M31 | a - b)) as Hd.
  { apply (Z.gauss M31 16807); [|vm_compute; reflexivity]. apply Z.mod_divide; [done|]. replace (16807 * (a - b)) with (16807 * (a + 1) - 16807 * (b + 1)) by lia.
    rewrite Zminus_mod. replace ((16807 * (a + 1)) mod M31) with ((16807 * (b + 1)) mod M31) by lia. by rewrite Z.sub_diag. }
  destruct (Z.eq_dec a b) as [|Hne]; [done|]. exfalso. destruct Hd as [q Hq]. unfold M31 in *. nia.
Qed.
