(* ===== verification/Find.v ===== *)
(** user/find.c and user/ls.c: walking directories by path.

    A path is the list of its bytes without the NUL.  The file system is a parameter: what open(), fstat() and the reads
    of directory entries give for a path while the process has a descriptor left; it does not change while the program runs.
    find() keeps one descriptor and one stack frame for every directory it is in, and both are bounded: [fds] descriptors are
    free, and the stack has room for [frames] calls below each other, with what these call in the library; a further one runs
    into the guard page below the stack, which kills the process. *)
From S2P Require Import Prelude Machine.
Local Open Scope Z_scope.

Definition DIRSIZ : nat := 14.
Definition T_DIR : Z := 1.
Definition T_FILE : Z := 2.
Definition T_DEVICE : Z := 3.
Definition slash : Z := 47.
Definition dot : Z := 46.

(** struct stat as far as the programs print it, and a directory entry. *)
Record st : Type := St { s_type : Z; s_ino : Z; s_size : Z }.
Record dirent : Type := Dirent { inum : Z; name : list Z }.

Inductive opened : Type :=
| NoOpen                               (* open() fails *)
| NoStat                               (* fstat() fails *)
| Open (s : st) (es : list dirent).    (* the whole entries that can be read *)

(** The string in a field of DIRSIZ bytes that is followed by a NUL. *)
Fixpoint cname (k : nat) (b : list Z) : list Z :=
  match k, b with
  | S k', x :: b' => if x =? 0 then [] else x :: cname k' b'
  | _, _ => []
  end.

(** The loop goes back from the end of the path to a slash. *)
Fixpoint before_slash (rpath : list Z) (p : list Z) : list Z :=
  match rpath with [] => p | x :: r => if x =? slash then p else before_slash r (x :: p) end.
Definition fmtname (path : list Z) : list Z := before_slash (rev path) [].

Definition blank_pad (p : list Z) : list Z := if (DIRSIZ <=? length p)%nat then p else p ++ repeat 32 (DIRSIZ - length p).
(** fmtname() of ls.c. *)
Definition ls_fmtname (path : list Z) : list Z := blank_pad (fmtname path).

Definition too_long (path : list Z) : bool := (512 <? length path + 1 + DIRSIZ + 1)%nat.

Inductive event : Type :=
| Found (path : list Z)
| CannotOpen (path : list Z)
| CannotStat (path : list Z)
| PathTooLong
| Usage
| Listed (nm : list Z) (s : st).

Section Walk.
Context (fs : list Z -> opened).

(** ** find() *)

Definition dots (nm : list Z) : bool := bool_decide (nm = [dot]) || bool_decide (nm = [dot; dot]).

(** What is printed, and whether the process was killed. *)
Fixpoint find (frames fds : nat) (path target : list Z) : list event * bool :=
  match frames with
  | O => ([], true)
  | S frames' =>
      let o1 := if bool_decide (fmtname path = target) then [Found path] else [] in
      match fds with
      | O => (o1 ++ [CannotOpen path], false)
      | S fds' =>
          match fs path with
          | NoOpen => (o1 ++ [CannotOpen path], false)
          | NoStat => (o1 ++ [CannotStat path], false)
          | Open s es =>
              if negb (s_type s =? T_DIR) then (o1, false)
              else if too_long path then (o1 ++ [PathTooLong], false)
              else
                let r :=
                  (fix each (es : list dirent) : list event * bool :=
                     match es with
                     | [] => ([], false)
                     | e :: es =>
                         if inum e =? 0 then each es
                         else
                           let nm := cname DIRSIZ (name e) in
                           if dots nm then each es
                           else
                             let '(o, killed) := find frames' fds' (path ++ slash :: nm) target in
                             if killed then (o, true) else let '(o', killed') := each es in (o ++ o', killed')
                     end) es in
                (o1 ++ fst r, snd r)
          end
      end
  end.

(** main(): the status it exits with; [None] when it was killed. *)
Definition find_main (frames fds : nat) (argv : list (list Z)) : list event * option Z :=
  match argv with
  | _ :: path :: target :: _ => let '(o, killed) := find frames fds path target in (o, if killed then None else Some 0)
  | _ => ([Usage], Some 1)
  end.

(** ** ls() *)

(** stat() of a path. *)
Definition stat (path : list Z) : option st := match fs path with Open s _ => Some s | _ => None end.

Definition ls_entry (path : list Z) (e : dirent) : list event :=
  if inum e =? 0 then []
  else
    let buf := path ++ slash :: cname DIRSIZ (name e) in
    match stat buf with
    | None => [CannotStat buf]
    | Some s => [Listed (ls_fmtname buf) s]
    end.

Definition ls (path : list Z) : list event :=
  match fs path with
  | NoOpen => [CannotOpen path]
  | NoStat => [CannotStat path]
  | Open s es =>
      if (s_type s =? T_DEVICE) || (s_type s =? T_FILE) then [Listed (ls_fmtname path) s]
      else if s_type s =? T_DIR then
        if too_long path then [PathTooLong] else concat (map (ls_entry path) es)
      else []
  end.

(** ** What find() visits *)

(** The name of an entry: the bytes of its field before a NUL, or all of them. *)
Definition entry_name (e : dirent) (nm : list Z) : Prop :=
  (0 ∉ nm) /\ exists rest, take DIRSIZ (name e) = nm ++ rest /\ (rest = [] \/ exists rest', rest = 0 :: rest').

(** The last component of a path. *)
Definition last_component (path nm : list Z) : Prop := (slash ∉ nm) /\ (path = nm \/ exists pre, path = pre ++ slash :: nm).

(** [reach n p q]: [q] is [n] levels below [p], through directories with paths of at most 496 bytes: a slash, a name and a NUL
    still fit the buffer.  The entries . and .. are not followed. *)
Inductive reach : nat -> list Z -> list Z -> Prop :=
| reach_here p : reach 0 p p
| reach_below n p q s es e nm : fs p = Open s es -> s_type s = T_DIR -> (length p <= 496)%nat ->
    In e es -> inum e <> 0 -> entry_name e nm -> nm <> [dot] -> nm <> [dot; dot] ->
    reach n (p ++ slash :: nm) q -> reach (S n) p q.

Lemma cname_name e nm : entry_name e nm <-> nm = cname DIRSIZ (name e).
Proof.
  unfold entry_name. generalize DIRSIZ (name e). clear e. intros k. revert nm. induction k as [|k IH]; intros nm b.
  { cbn [take cname]. split; [intros (_ & r & E & _); by destruct nm|intros ->; split; [apply not_elem_of_nil|exists []; split; [done|by left]]]. }
  destruct b as [|x b]; cbn [take cname].
  { split; [intros (_ & r & E & _); by destruct nm|intros ->; split; [apply not_elem_of_nil|exists []; split; [done|by left]]]. }
  destruct (Z.eqb_spec x 0) as [->|Hx].
  - split; [|intros ->; split; [apply not_elem_of_nil|exists (0 :: take k b); split; [done|right; by eexists]]].
    intros (Hn & r & E & _). destruct nm as [|y nm]; [done|]. injection E as <- _. destruct Hn. by left.
  - split.
    + intros (Hn & r & E & Hr). destruct nm as [|y nm].
      * destruct Hr as [->|[r' ->]]; [discriminate E|]. injection E as ? _. done.
      * injection E as <- E. f_equal. apply IH. apply not_elem_of_cons in Hn as [_ Hn]. split; [done|]. by exists r.
    + intros ->. destruct (proj2 (IH _ b) eq_refl) as (Hn & r & E & Hr). split; [by apply not_elem_of_cons|]. exists r. by rewrite E.
Qed.

Lemma before_slash_spec r : forall p, exists u v, r = u ++ v /\ (slash ∉ u) /\ (v = [] \/ exists v', v = slash :: v') /\ before_slash r p = rev u ++ p.
Proof.
  induction r as [|x r IH]; intros p; cbn [before_slash]; [exists [], []; split; [done|]; split; [apply not_elem_of_nil|]; split; [by left|done]|].
  destruct (Z.eqb_spec x slash) as [->|Hx].
  - exists [], (slash :: r). split; [done|]. split; [apply not_elem_of_nil|]. split; [right; by eexists|done].
  - destruct (IH (x :: p)) as (u & v & -> & Hu & Hv & E). exists (x :: u), v. split; [done|]. split; [by apply not_elem_of_cons|]. split; [done|].
    rewrite E. cbn [rev]. by rewrite <- app_assoc.
Qed.

(** A path has one last component. *)
Lemma last_component_unique path a b : last_component path a -> last_component path b -> a = b.
Proof.
  assert (forall u v (a b : list Z), slash ∉ a -> slash ∉ b -> u ++ slash :: a = v ++ slash :: b -> a = b) as H.
  { induction u as [|x u IH]; intros [|y v] a' b' Ha Hb E; cbn in E; [by injection E|injection E as E1 E2..].
    - subst. destruct Ha. apply elem_of_app. right. by left. - subst. destruct Hb. apply elem_of_app. right. by left. - by apply (IH v). }
  intros [Ha [->|[u ->]]] [Hb [Eb|[v Eb]]]; [done| | |by apply (H u v)].
  - exfalso. apply Ha. rewrite Eb. apply elem_of_app. right. by left.
  - exfalso. apply Hb. rewrite <- Eb. apply elem_of_app. right. by left.
Qed.

Lemma fmtname_last path : last_component path (fmtname path).
Proof.
  unfold fmtname. destruct (before_slash_spec (rev path) []) as (u & v & E & Hu & Hv & ->). rewrite app_nil_r.
  split; [by rewrite list_elem_of_In, <- in_rev, <- list_elem_of_In|]. apply (f_equal (@rev Z)) in E. rewrite rev_involutive, rev_app_distr in E. rewrite E.
  destruct Hv as [->|[v' ->]]; [by left|]. right. exists (rev v'). cbn [rev]. by rewrite <- app_assoc.
Qed.
Lemma fmtname_spec path nm : fmtname path = nm <-> last_component path nm.
Proof. split; [intros <-; apply fmtname_last|]. intros H. apply (last_component_unique path); [apply fmtname_last|done]. Qed.

Lemma dots_spec nm : dots nm = false <-> nm <> [dot] /\ nm <> [dot; dot].
Proof. unfold dots. rewrite orb_false_iff, !bool_decide_eq_false. done. Qed.
Lemma too_long_spec path : too_long path = false <-> (length path <= 496)%nat.
Proof. unfold too_long, DIRSIZ. rewrite Nat.ltb_ge. lia. Qed.

(** The entries that are followed. *)
Definition followed (e : dirent) : Prop := inum e <> 0 /\ dots (cname DIRSIZ (name e)) = false.
Definition below (path : list Z) (e : dirent) : list Z := path ++ slash :: cname DIRSIZ (name e).

Lemma reach_S n p q : reach (S n) p q <-> exists s es e, fs p = Open s es /\ s_type s = T_DIR /\ too_long p = false /\ In e es /\ followed e /\ reach n (below p e) q.
Proof.
  split.
  - intros H. inversion H as [|? ? ? s es e nm H1 H2 H3 H4 H5 H6 H7 H8 H9]; subst. apply cname_name in H6 as ->. exists s, es, e. rewrite too_long_spec. unfold followed. by rewrite dots_spec.
  - intros (s & es & e & H1 & H2 & H3%too_long_spec & H4 & [H5 [H6 H7]%dots_spec] & H8). by apply (reach_below n p q s es e (cname DIRSIZ (name e))); [..|apply cname_name| | |].
Qed.

Definition each_of (frames fds : nat) (path target : list Z) : list dirent -> list event * bool :=
  fix each (es : list dirent) : list event * bool :=
    match es with
    | [] => ([], false)
    | e :: es =>
        if inum e =? 0 then each es
        else
          let nm := cname DIRSIZ (name e) in
          if dots nm then each es
          else
            let '(o, killed) := find frames fds (path ++ slash :: nm) target in
            if killed then (o, true) else let '(o', killed') := each es in (o ++ o', killed')
    end.

(** What find() is to give for a path: it is killed when there is a path [frames] levels down that it gets to; the lines it prints are right, and complete when it was not killed. *)
Record find_ok (frames fds : nat) (path target : list Z) (r : list event * bool) : Prop := {
  fk_killed : snd r = true <-> (frames <= fds)%nat /\ exists q, reach frames path q;
  fk_sound : forall q, In (Found q) (fst r) -> last_component q target /\ exists n, (n <= fds)%nat /\ reach n path q;
  fk_complete : snd r = false -> forall q n, last_component q target -> (n <= fds)%nat -> reach n path q -> In (Found q) (fst r);
}.

(** The loop over the entries, given what the calls for them do. *)
Lemma each_spec frames fds path target es : (forall p, find_ok frames fds p target (find frames fds p target)) -> let r := each_of frames fds path target es in
  (snd r = true <-> (frames <= fds)%nat /\ exists e q, In e es /\ followed e /\ reach frames (below path e) q) /\
  (forall q, In (Found q) (fst r) -> last_component q target /\ exists e n, In e es /\ followed e /\ (n <= fds)%nat /\ reach n (below path e) q) /\
  (snd r = false -> forall e q n, In e es -> followed e -> last_component q target -> (n <= fds)%nat -> reach n (below path e) q -> In (Found q) (fst r)).
Proof.
  intros IHf. induction es as [|e es IH]; cbn [each_of]; [split; [naive_solver|]; split; [done|naive_solver]|]. fold (each_of frames fds path target).
  destruct IH as (A & B & C). assert (~ followed e \/ (followed e /\ (inum e =? 0) = false /\ dots (cname DIRSIZ (name e)) = false)) as [Hf|(Hf & -> & ->)].
  { unfold followed. destruct (Z.eqb_spec (inum e) 0), (dots (cname DIRSIZ (name e))); naive_solver. }
  - assert ((if inum e =? 0 then each_of frames fds path target es else if dots (cname DIRSIZ (name e)) then each_of frames fds path target es else
      let '(o, killed) := find frames fds (path ++ slash :: cname DIRSIZ (name e)) target in if killed then (o, true) else let '(o', killed') := each_of frames fds path target es in (o ++ o', killed'))
      = each_of frames fds path target es) as -> by (unfold followed in Hf; destruct (Z.eqb_spec (inum e) 0), (dots (cname DIRSIZ (name e))); tauto).
    cbv zeta. rewrite A. split; [split; [naive_solver|]; intros (Hl & e' & q & [<-|He] & H1 & H2); [done|naive_solver]|].
    split; [intros q Hq; destruct (B q Hq) as (? & e' & n & ? & ?); split; [done|]; exists e', n; split; [by right|done]|]. intros Hk e' q n [<-|He]; [done|]. by apply C.
  - destruct (IHf (below path e)) as [Fk Fs Fc]. unfold below in Fk, Fs, Fc. cbv zeta. destruct (find frames fds (path ++ slash :: cname DIRSIZ (name e)) target) as [o [|]]; cbn [fst snd] in *.
    + destruct (proj1 Fk eq_refl) as (Hl & q & Hq). split; [split; [intros _; split; [done|]; exists e, q; split; [by left|done]|done]|]. split; [|done].
      intros q' Hq'. destruct (Fs q' Hq') as (? & n & ? & ?). split; [done|]. exists e, n. split; [by left|done].
    + destruct (each_of frames fds path target es) as [o' k']. cbn [fst snd] in *. split; [|split].
      * rewrite A. split; [intros (Hl & e' & q & ? & ?); split; [done|]; exists e', q; split; [by right|done]|].
        intros (Hl & e' & q & [<-|He] & ? & Hr); [|split; [done|by exists e', q]]. exfalso. enough (false = true) by done. apply Fk. split; [done|by exists q].
      * intros q [Hq|Hq]%in_app_iff; [destruct (Fs q Hq) as (? & n & ? & ?); split; [done|]; exists e, n; split; [by left|done]|].
        destruct (B q Hq) as (? & e' & n & ? & ?). split; [done|]. exists e', n. split; [by right|done].
      * intros -> e' q n [<-|He] H1 H2 H3 H4; apply in_app_iff; [left; by apply (Fc eq_refl q n)|right; by apply (C eq_refl e' q n)].
Qed.

(** A call that follows no entry, but has room on the stack. *)
Lemma find_ok_here frames fds path target o : (forall q, ~ In (Found q) o) -> fds = 0%nat \/ (forall n q, ~ reach (S n) path q) ->
  find_ok (S frames) fds path target ((if bool_decide (fmtname path = target) then [Found path] else []) ++ o, false).
Proof.
  intros Ho Hn. split; cbn [fst snd].
  - split; [done|]. intros [Hl [q Hq]]. destruct Hn as [->|Hn]; [lia|by apply Hn in Hq].
  - intros q [Hq|Hq]%in_app_iff; [|by apply Ho in Hq]. case_bool_decide as Ht; [|done]. destruct Hq as [[= <-]|[]].
    split; [by apply fmtname_spec|]. exists 0%nat. split; [lia|constructor].
  - intros _ q n Ht Hl Hr. destruct n as [|n]; [|destruct Hn as [->|Hn]; [lia|by apply Hn in Hr]]. inversion Hr; subst.
    apply in_app_iff. left. rewrite bool_decide_eq_true_2 by by apply fmtname_spec. by left.
Qed.

Lemma find_run frames : forall fds path target, find_ok frames fds path target (find frames fds path target).
Proof.
  induction frames as [|f IH]; intros fds path target.
  { cbn [find]. split; cbn [fst snd]; [|done|done]. split; [intros _; split; [lia|]; exists path; constructor|done]. }
  assert (forall o, (forall q, ~ In (Found q) o) -> (forall s es, fs path = Open s es -> s_type s = T_DIR -> too_long path = false -> False) ->
    find_ok (S f) fds path target ((if bool_decide (fmtname path = target) then [Found path] else []) ++ o, false)) as Hhere.
  { intros o Ho Hno. apply find_ok_here; [done|right]. intros n q (s & es & e & H1 & H2 & H3 & _)%reach_S. by apply (Hno s es). }
  cbn [find]. destruct fds as [|d]; [apply find_ok_here; [by intros q [|[]]|by left]|]. destruct (fs path) as [| |s es] eqn:Ef; [apply Hhere; [by intros q [|[]]|done]..|].
  destruct (Z.eqb_spec (s_type s) T_DIR) as [Et|Et]; cbn [negb]; [|rewrite <- (app_nil_r (if bool_decide _ then _ else _)); apply Hhere; [by intros q []|naive_solver]].
  destruct (too_long path) eqn:El; [apply Hhere; [by intros q [|[]]|done]|]. fold (each_of f d path target).
  destruct (each_spec f d path target es (fun p => IH d p target)) as (A & B & C). cbv zeta in A, B, C. set (r := each_of f d path target es) in *.
  split; cbn [fst snd].
  - rewrite A. split.
    + intros (Hl & e & q & He & Hf & Hr). split; [lia|]. exists q. apply reach_S. by exists s, es, e.
    + intros (Hl & q & (s' & es' & e & E & _ & _ & He & Hf & Hr)%reach_S). rewrite Ef in E. injection E as <- <-. split; [lia|by exists e, q].
  - intros q [Hq|Hq]%in_app_iff.
    + case_bool_decide as Ht; [|done]. destruct Hq as [[= <-]|[]]. split; [by apply fmtname_spec|]. exists 0%nat. split; [lia|constructor].
    + destruct (B q Hq) as (Ht & e & n & He & Hf & Hl & Hr). split; [done|]. exists (S n). split; [lia|]. apply reach_S. by exists s, es, e.
  - intros Hk q [|n] Ht Hl Hr; apply in_app_iff.
    + left. inversion Hr; subst. rewrite bool_decide_eq_true_2 by by apply fmtname_spec. by left.
    + right. apply reach_S in Hr as (s' & es' & e & E & _ & _ & He & Hf & Hr). rewrite Ef in E. injection E as <- <-. apply (C Hk e q n); done || lia.
Qed.

(** C31: find() on any file system that does not change meanwhile, with room for [frames] calls below each other on the stack and [fds] free descriptors.
    It ends.  The process is killed exactly when there is a path [frames] levels below the argument that the descriptors let it get to.  Every path it
    prints has the name looked for as its last component and is at most [fds] levels below the argument, reached through directories with paths
    that fit the buffer, not following . and ..; and when the process was not killed it has printed all of these. *)
Theorem find_correct frames fds path target : let r := find frames fds path target in
  (snd r = true <-> (frames <= fds)%nat /\ exists q, reach frames path q) /\
  (forall q, In (Found q) (fst r) -> last_component q target /\ exists n, (n <= fds)%nat /\ reach n path q) /\
  (snd r = false -> forall q n, last_component q target -> (n <= fds)%nat -> reach n path q -> In (Found q) (fst r)).
Proof. destruct (find_run frames fds path target) as [A B C]. done. Qed.

(** ls() prints one line for each entry in use, with the name padded to 14 characters. *)
Lemma ls_fmtname_length path : (DIRSIZ <= length (ls_fmtname path))%nat.
Proof. unfold ls_fmtname, blank_pad. destruct (Nat.leb_spec DIRSIZ (length (fmtname path))); [done|]. rewrite length_app, repeat_length. lia. Qed.

(** The name printed for an entry is the name in the directory. *)
Lemma fmtname_entry path nm : slash ∉ nm -> fmtname (path ++ slash :: nm) = nm.
Proof. intros H. apply fmtname_spec. split; [done|]. right. by exists path. Qed.

Theorem ls_directory path s es : fs path = Open s es -> s_type s = T_DIR -> too_long path = false -> Forall (fun e => slash ∉ cname DIRSIZ (name e)) es ->
  (forall e, In e es -> inum e <> 0 -> is_Some (stat (path ++ slash :: cname DIRSIZ (name e)))) ->
  exists ss, ls path = zip_with Listed (map (fun e => blank_pad (cname DIRSIZ (name e))) (filter (fun e => inum e <> 0) es)) ss /\
    Forall2 (fun e s => stat (path ++ slash :: cname DIRSIZ (name e)) = Some s) (filter (fun e => inum e <> 0) es) ss.
Proof.
  intros Ho Ht Hl Hs Hst. assert (ls path = concat (map (ls_entry path) es)) as -> by (unfold ls; by rewrite Ho, Ht, Hl).
  clear Ho. induction Hs as [|e es He Hs IH]; [by exists []|].
  destruct IH as (ss & E & F); [intros e' He'; apply Hst; by right|]. cbn [map concat]. rewrite E. unfold ls_entry at 1. destruct (Z.eqb_spec (inum e) 0) as [E0|E0].
  - exists ss. rewrite filter_cons_False by (by intros H). done.
  - rewrite filter_cons_True by done. destruct (Hst e (or_introl eq_refl) E0) as [s' Hs']. exists (s' :: ss). rewrite Hs'. split; [|by constructor]. cbn [map zip_with app]. unfold ls_fmtname. by rewrite fmtname_entry.
Qed.
End Walk.

(** A directory with a file, a removed entry and a directory below it that is entered by the same name again. *)
Definition demo_fs (path : list Z) : opened :=
  if bool_decide (path = [97]) then Open (St T_DIR 1 64) [Dirent 1 [46]; Dirent 1 [46; 46]; Dirent 2 [98]; Dirent 0 [99]; Dirent 3 [100; 0; 55]]
  else if bool_decide (path = [97; 47; 100]) then Open (St T_DIR 3 16) [Dirent 4 [98]]
  else Open (St T_FILE 4 0) [].

(** Both files named b are printed; with two frames the process is killed when it enters a/d/b. *)
Lemma find_demo : find demo_fs 7 13 [97] [98] = ([Found [97; 47; 98]; Found [97; 47; 100; 47; 98]], false) /\
  find demo_fs 2 13 [97] [98] = ([Found [97; 47; 98]], true) /\ find demo_fs 7 1 [97] [98] = ([Found [97; 47; 98]; CannotOpen [97; 47; 98]; CannotOpen [97; 47; 100]], false).
Proof. split; [reflexivity|]. split; reflexivity. Qed.

Lemma find_correct_witness : (exists q, reach demo_fs 2 [97] q) /\ ~ (exists q, reach demo_fs 7 [97] q) /\ last_component [97; 47; 100; 47; 98] [98].
Proof.
  split; [|split].
  - apply (proj1 (find_correct demo_fs 2 13 [97] [98])). reflexivity.
  - intros H. assert (snd (find demo_fs 7 13 [97] [98]) = true) as E; [|discriminate E]. apply (proj1 (find_correct demo_fs 7 13 [97] [98])). split; [lia|exact H].
  - apply (proj1 (proj2 (find_correct demo_fs 7 13 [97] [98]))). right. left. reflexivity.
Defined.
