(* ===== verification/Pingpong.v ===== *)
(** user/pingpong.c: a byte to the child and back over two pipes.

    The parent and the child each make one system call per step, in any order the kernel may choose; a read of an empty
    pipe blocks while some process has the pipe open for writing.  The program reaches few states, so that the theorem
    is proved by visiting all of them. *)
From S2P Require Import Prelude.
Local Open Scope Z_scope.

Inductive ppc : Type :=
| PPipe1 | PPipe2 | PFork | PClose1 | PClose2 | PWrite | PRead | PPrint | PClose3 | PClose4 | PWait | PExit (code : Z).
Inductive cpc : Type :=
| CNone | CClose1 | CClose2 | CRead | CPrint | CWrite | CClose3 | CClose4 | CExit (code : Z).

(** Which ends of p2c and c2p a process has open. *)
Record ends : Type := Ends { r1 : bool; w1 : bool; r2 : bool; w2 : bool }.
Definition no_ends : ends := Ends false false false false.

Inductive msg : Type := ReceivedPing | ReceivedPong | Complaint.

Record pp : Type := PP { par : ppc; chi : cpc; pe : ends; ce : ends; p2c : list Z; c2p : list Z; pbuf : Z; cbuf : Z; outp : list msg }.

#[global] Instance ppc_dec : EqDecision ppc.
Proof. solve_decision. Defined.
#[global] Instance cpc_dec : EqDecision cpc.
Proof. solve_decision. Defined.
#[global] Instance ends_dec : EqDecision ends.
Proof. solve_decision. Defined.
#[global] Instance msg_dec : EqDecision msg.
Proof. solve_decision. Defined.
#[global] Instance pp_dec : EqDecision pp.
Proof. solve_decision. Defined.

Definition begin : pp := PP PPipe1 CNone no_ends no_ends [] [] 0 0 [].

(** A message on standard error and exit(1), which closes everything. *)
Definition pfail (s : pp) : pp := PP (PExit 1) (chi s) no_ends (ce s) (p2c s) (c2p s) (pbuf s) (cbuf s) (outp s ++ [Complaint]).
Definition cfail (s : pp) : pp := PP (par s) (CExit 1) (pe s) no_ends (p2c s) (c2p s) (pbuf s) (cbuf s) (outp s ++ [Complaint]).
Definition pgo (p : ppc) (e : ends) (s : pp) : pp := PP p (chi s) e (ce s) (p2c s) (c2p s) (pbuf s) (cbuf s) (outp s).
Definition cgo (c : cpc) (e : ends) (s : pp) : pp := PP (par s) c (pe s) e (p2c s) (c2p s) (pbuf s) (cbuf s) (outp s).

(** The next system call of the parent; [ok] is whether the kernel has room for a pipe or a process. *)
Definition parent_step (ok : bool) (s : pp) : option pp :=
  let e := pe s in
  match par s with
  | PPipe1 => Some (if ok then pgo PPipe2 (Ends true true false false) s else pfail s)
  | PPipe2 => Some (if ok then pgo PFork (Ends true true true true) s else pfail s)
  | PFork => Some (if ok then PP PClose1 CClose1 e e (p2c s) (c2p s) (pbuf s) (pbuf s) (outp s) else pfail s)
  | PClose1 => Some (pgo PClose2 (Ends false (w1 e) (r2 e) (w2 e)) s)
  | PClose2 => Some (pgo PWrite (Ends (r1 e) (w1 e) (r2 e) false) s)
  | PWrite =>
      Some (if w1 e && (r1 e || r1 (ce s)) then PP PRead (chi s) e (ce s) (p2c s ++ [66]) (c2p s) 66 (cbuf s) (outp s) else pfail s)
  | PRead =>
      match c2p s with
      | b :: q => Some (PP PPrint (chi s) e (ce s) (p2c s) q b (cbuf s) (outp s))
      | [] => if w2 e || w2 (ce s) then None else Some (pfail s)
      end
  | PPrint => Some (PP PClose3 (chi s) e (ce s) (p2c s) (c2p s) (pbuf s) (cbuf s) (outp s ++ [ReceivedPong]))
  | PClose3 => Some (pgo PClose4 (Ends (r1 e) false (r2 e) (w2 e)) s)
  | PClose4 => Some (pgo PWait (Ends (r1 e) (w1 e) false (w2 e)) s)
  | PWait => match chi s with CExit _ | CNone => Some (pgo (PExit 0) no_ends s) | _ => None end
  | PExit _ => None
  end.

Definition child_step (s : pp) : option pp :=
  let e := ce s in
  match chi s with
  | CClose1 => Some (cgo CClose2 (Ends (r1 e) false (r2 e) (w2 e)) s)
  | CClose2 => Some (cgo CRead (Ends (r1 e) (w1 e) false (w2 e)) s)
  | CRead =>
      match p2c s with
      | b :: q => Some (PP (par s) CPrint (pe s) e q (c2p s) (pbuf s) b (outp s))
      | [] => if w1 e || w1 (pe s) then None else Some (cfail s)
      end
  | CPrint => Some (PP (par s) CWrite (pe s) e (p2c s) (c2p s) (pbuf s) (cbuf s) (outp s ++ [ReceivedPing]))
  | CWrite =>
      Some (if w2 e && (r2 e || r2 (pe s)) then PP (par s) CClose3 (pe s) e (p2c s) (c2p s ++ [cbuf s]) (pbuf s) (cbuf s) (outp s) else cfail s)
  | CClose3 => Some (cgo CClose4 (Ends false (w1 e) (r2 e) (w2 e)) s)
  | CClose4 => Some (cgo (CExit 0) no_ends s)
  | CNone | CExit _ => None
  end.

Inductive move : Type := Parent (ok : bool) | Child.
Definition pp_step (m : move) (s : pp) : option pp := match m with Parent ok => parent_step ok s | Child => child_step s end.
Fixpoint pp_run (l : list move) (s : pp) : option pp :=
  match l with [] => Some s | m :: l => match pp_step m s with Some s' => pp_run l s' | None => None end end.

(** ** All the states *)

Definition moves : list move := [Parent true; Parent false; Child].
Definition next (s : pp) : list pp := omap (fun m => pp_step m s) moves.

Fixpoint explore (fuel : nat) (todo seen : list pp) : list pp :=
  match fuel, todo with
  | S f, s :: todo => if bool_decide (s ∈ seen) then explore f todo seen else explore f (next s ++ todo) (s :: seen)
  | _, _ => seen
  end.
Definition states : list pp := Eval vm_compute in explore 400 [begin] [].

Definition prank (p : ppc) : nat :=
  match p with
  | PPipe1 => 11 | PPipe2 => 10 | PFork => 9 | PClose1 => 8 | PClose2 => 7 | PWrite => 6 | PRead => 5 | PPrint => 4 | PClose3 => 3 | PClose4 => 2 | PWait => 1 | PExit _ => 0
  end.
Definition crank (c : cpc) : nat :=
  match c with CNone => 8 | CClose1 => 7 | CClose2 => 6 | CRead => 5 | CPrint => 4 | CWrite => 3 | CClose3 => 2 | CClose4 => 1 | CExit _ => 0 end.
Definition remaining (s : pp) : nat := (prank (par s) + crank (chi s))%nat.

(** Both have exited with 0 after ping and pong, or the kernel had no room and nothing else was printed. *)
Definition ended (s : pp) : bool :=
  bool_decide (par s = PExit 0 /\ chi s = CExit 0 /\ outp s = [ReceivedPing; ReceivedPong] /\ pbuf s = 66) ||
  bool_decide (par s = PExit 1 /\ chi s = CNone /\ outp s = [Complaint]).

Definition state_ok (s : pp) : bool :=
  forallb (fun m => match pp_step m s with Some s' => bool_decide (s' ∈ states) && (remaining s' <? remaining s)%nat | None => true end) moves &&
  (ended s || existsb (fun m => match pp_step m s with Some _ => true | None => false end) moves).

Lemma states_ok : forallb state_ok states = true.
Proof. vm_compute. reflexivity. Qed.
Lemma begin_in : begin ∈ states.
Proof. apply (bool_decide_unpack _). vm_compute. reflexivity. Qed.

Lemma step_in m s s' : s ∈ states -> pp_step m s = Some s' -> s' ∈ states /\ (remaining s' < remaining s)%nat.
Proof.
  intros Hs Hm. pose proof (proj1 (forallb_forall _ _) states_ok s ltac:(by apply list_elem_of_In)) as H. apply andb_true_iff in H as [H _].
  assert (In m moves) as Hin by (destruct m as [[]|]; cbn; tauto). pose proof (proj1 (forallb_forall _ _) H m Hin) as Hk. cbn beta in Hk. rewrite Hm in Hk. apply andb_true_iff in Hk as [H1 H2].
  split; [by apply bool_decide_eq_true in H1|by apply Nat.ltb_lt].
Qed.
Lemma run_in l : forall s s', s ∈ states -> pp_run l s = Some s' -> s' ∈ states /\ (length l + remaining s' <= remaining s)%nat.
Proof.
  induction l as [|m l IH]; intros s s' Hs Hr; cbn [pp_run length] in *; [injection Hr as <-; split; [done|lia]|]. destruct (pp_step m s) as [t|] eqn:E; [|done].
  destruct (step_in m s t Hs E) as [Ht Hlt]. destruct (IH t s' Ht Hr) as [H1 H2]. split; [done|lia].
Qed.

(** C36: user/pingpong.c, however its processes are scheduled and whatever the kernel has room for.  A run has at most 19
    system calls; there is no deadlock; and when no process can go on, either both have exited with 0 after the child
    printed its ping and then the parent its pong, and the byte came back unchanged, or the kernel refused a pipe or the
    child and the program has complained and exited with 1. *)
Theorem pingpong_correct l s : pp_run l begin = Some s ->
  (length l <= 19)%nat /\
  ((exists m s', pp_step m s = Some s') \/
   (par s = PExit 0 /\ chi s = CExit 0 /\ outp s = [ReceivedPing; ReceivedPong] /\ pbuf s = 66) \/
   (par s = PExit 1 /\ chi s = CNone /\ outp s = [Complaint])).
Proof.
  intros Hr. destruct (run_in l begin s begin_in Hr) as [Hs Hlen]. split; [change (remaining begin) with 19%nat in Hlen; lia|].
  pose proof (proj1 (forallb_forall _ _) states_ok s ltac:(by apply list_elem_of_In)) as H. apply andb_true_iff in H as [_ H]. apply orb_true_iff in H as [H|H].
  - right. apply orb_true_iff in H as [H|H]; apply bool_decide_eq_true in H; auto.
  - left. apply existsb_exists in H as (m & _ & H). destruct (pp_step m s) as [s'|] eqn:E; [|done]. by exists m, s'.
Qed.

Definition demo_run : list move :=
  [Parent true; Parent true; Parent true; Child; Parent true; Child; Parent true; Parent true; Child; Child; Child; Parent true; Child; Parent true; Parent true; Parent true; Child; Parent true].

Lemma pingpong_correct_witness : exists s, pp_run demo_run begin = Some s /\ outp s = [ReceivedPing; ReceivedPong] /\ (length demo_run <= 19)%nat.
Proof. eexists. split; [vm_compute; reflexivity|]. split; [reflexivity|]. eapply (pingpong_correct demo_run). vm_compute. reflexivity. Defined.
