(* ===== verification/Primes.v ===== *)
(** user/primes.c: the prime sieve as a pipeline of processes.

    Every process has its own program counter, local variables and descriptor table; the pipes are queues of integers.
    [step j] lets process [j] make its next system call: a read of an empty pipe that still has a writer, a write to a
    full pipe and a wait for a running child block.  A run is any sequence of such steps, so the theorems hold for every
    way the kernel may schedule the processes.

    A pipe holds 512 bytes and every transfer is of 4 bytes under the lock of the pipe, so a queue holds up to 128
    integers and no transfer is split.  A process prints before it forks the next one, so lines are never mixed and
    printf() is one step.  The kernel's file table has room for [maxfile] ends of pipes, its process table
    for [maxproc] processes of the pipeline.  Process [j + 1] is the child of process [j]. *)
From Stdlib Require Import Znumtheory.
From S2P Require Import Prelude Machine Pipe.
Local Open Scope Z_scope.

Inductive fend : Type := Rd | Wr.
#[global] Instance fend_eq_dec : EqDecision fend.
Proof. solve_decision. Defined.

(** Where a process is: the next call it makes. *)
Inductive pcs : Type :=
| MPipe | MFork | MClose0 | MWrite | MWait                    (* main() *)
| CClose1                                                     (* its child, before sieve(p[0]) *)
| SRead | SPrint | SPipe | SFork                              (* sieve() *)
| KClose1 | KCloseL                                           (* the child, before sieve(p[0]) *)
| SClose0 | SLoop | SWrite | SCloseL | SClose1 | SWait        (* the parent *)
| SEof | Exited
| WriteError                                                  (* main() gave up *)
| Wild.                                                       (* an uninitialised variable is used *)
#[global] Instance pcs_eq_dec : EqDecision pcs.
Proof. solve_decision. Defined.

Record proc : Type := Proc {
  pc : pcs;
  left_fd : Z;
  p0 : Z;
  p1 : Z;
  prime_ : Z;
  n_ : Z;
  child : bool;
  fds : gmap Z (nat * fend);
}.

Record net : Type := Net { procs : list proc; pipes : list (list Z); out : list Z }.

Definition goto (c : pcs) (p : proc) : proc := Proc c (left_fd p) (p0 p) (p1 p) (prime_ p) (n_ p) (child p) (fds p).
Definition set_left (x : Z) (p : proc) : proc := Proc (pc p) x (p0 p) (p1 p) (prime_ p) (n_ p) (child p) (fds p).
Definition set_prime (x : Z) (p : proc) : proc := Proc (pc p) (left_fd p) (p0 p) (p1 p) x (n_ p) (child p) (fds p).
Definition set_n (x : Z) (p : proc) : proc := Proc (pc p) (left_fd p) (p0 p) (p1 p) (prime_ p) x (child p) (fds p).
Definition set_child (b : bool) (p : proc) : proc := Proc (pc p) (left_fd p) (p0 p) (p1 p) (prime_ p) (n_ p) b (fds p).
Definition set_pipe (a b : Z) (k : nat) (p : proc) : proc :=
  Proc (pc p) (left_fd p) a b (prime_ p) (n_ p) (child p) (<[b := (k, Wr)]> (<[a := (k, Rd)]> (fds p))).
Definition close_all (p : proc) : proc := Proc (pc p) (left_fd p) (p0 p) (p1 p) (prime_ p) (n_ p) (child p) ∅.
Definition close (fd : Z) (p : proc) : proc := Proc (pc p) (left_fd p) (p0 p) (p1 p) (prime_ p) (n_ p) (child p) (delete fd (fds p)).

(** Does some process have this end of a pipe open? *)
Definition holds (e : nat * fend) (p : proc) : bool := existsb (fun x => bool_decide (x.2 = e)) (map_to_list (fds p)).
Definition is_open (e : nat * fend) (s : net) : bool := existsb (holds e) (procs s).
Definition files (s : net) : nat :=
  length (filter (fun k => is_open (k, Rd) s = true) (seq 0 (length (pipes s)))) +
  length (filter (fun k => is_open (k, Wr) s = true) (seq 0 (length (pipes s)))).
(** The entries of the process table in use: an exited process keeps its own until its parent has waited for it. *)
Definition exited (s : net) (j : nat) : bool := match procs s !! j with Some p => bool_decide (pc p = Exited) | None => true end.
Definition live (s : net) : nat := length (filter (fun j => exited s j && exited s (pred j) = false) (seq 0 (length (procs s)))).

(** The lowest free descriptor; 0, 1 and 2 are the console. *)
Fixpoint free_fd (k : nat) (fd : Z) (t : gmap Z (nat * fend)) : Z :=
  match k with
  | O => fd
  | S k' => match t !! fd with None => fd | Some _ => free_fd k' (fd + 1) t end
  end.
Definition lowest (t : gmap Z (nat * fend)) : Z := free_fd 13 3 t.

Definition PIPEINTS : nat := Z.to_nat (PIPESIZE / 4).

Inductive rres : Type := RVal (x : Z) (q : list Z) (k : nat) | REof | RErr | RBlock.
Definition pipe_get (fd : Z) (p : proc) (s : net) : rres :=
  match fds p !! fd with
  | Some (k, Rd) =>
      match pipes s !! k with
      | Some (x :: q) => RVal x q k
      | Some [] => if is_open (k, Wr) s then RBlock else REof
      | None => RErr
      end
  | _ => RErr
  end.

Inductive wres : Type := WDone (k : nat) (q : list Z) | WErr | WBlock.
Definition pipe_put (fd x : Z) (p : proc) (s : net) : wres :=
  match fds p !! fd with
  | Some (k, Wr) =>
      if negb (is_open (k, Rd) s) then WErr
      else match pipes s !! k with
           | Some q => if (length q <? PIPEINTS)%nat then WDone k (q ++ [x]) else WBlock
           | None => WErr
           end
  | _ => WErr
  end.

Section Sieve.
Context (maxfile maxproc : nat).

Definition put (j : nat) (p : proc) (s : net) : net := Net (<[j := p]> (procs s)) (pipes s) (out s).

(** pipe(p): two descriptors, or -1 with p left as it was, which the program does not look at. *)
Definition do_pipe (j : nat) (p : proc) (ok : pcs) (s : net) : net :=
  if (files s + 2 <=? maxfile)%nat then
    let k := length (pipes s) in
    let a := lowest (fds p) in
    let b := lowest (<[a := (k, Rd)]> (fds p)) in
    let s := put j (goto ok (set_pipe a b k p)) s in
    Net (procs s) (pipes s ++ [[]]) (out s)
  else put j (goto Wild p) s.

(** [if(fork() == 0)] child [else] parent; a fork that fails goes on as the parent. *)
Definition do_fork (j : nat) (p : proc) (cpc ppc : pcs) (s : net) : net :=
  if (live s <? maxproc)%nat then
    Net (<[j := goto ppc (set_child true p)]> (procs s) ++ [goto cpc (set_child false p)]) (pipes s) (out s)
  else put j (goto ppc p) s.

Definition do_close (j : nat) (p : proc) (fd : Z) (next : pcs) (s : net) : option net := Some (put j (goto next (close fd p)) s).

Definition got (j : nat) (p : proc) (k : nat) (q : list Z) (s : net) : net := Net (<[j := p]> (procs s)) (<[k := q]> (pipes s)) (out s).

(** The next call of process [j]; [None] when it blocks or has exited. *)
Definition step (j : nat) (s : net) : option net :=
  match procs s !! j with
  | None => None
  | Some p =>
      match pc p with
      | MPipe => Some (do_pipe j p MFork s)
      | MFork => Some (do_fork j p CClose1 MClose0 s)
      | MClose0 => do_close j (set_n 2 p) (p0 p) MWrite s
      | MWrite =>
          if n_ p <=? 280 then
            match pipe_put (p1 p) (n_ p) p s with
            | WDone k q => Some (got j (set_n (n_ p + 1) p) k q s)
            | WErr => Some (put j (goto WriteError (close_all p)) s)
            | WBlock => None
            end
          else do_close j p (p1 p) MWait s
      | CClose1 => do_close j (set_left (p0 p) p) (p1 p) SRead s
      | SRead =>
          match pipe_get (left_fd p) p s with
          | RVal x q k => Some (got j (goto SPrint (set_prime x p)) k q s)
          | REof => Some (put j (goto SEof p) s)
          | RErr => Some (put j (goto Wild p) s)
          | RBlock => None
          end
      | SEof => do_close j p (left_fd p) Exited s
      | SPrint => Some (Net (<[j := goto SPipe p]> (procs s)) (pipes s) (out s ++ [prime_ p]))
      | SPipe => Some (do_pipe j p SFork s)
      | SFork => Some (do_fork j p KClose1 SClose0 s)
      | KClose1 => do_close j p (p1 p) KCloseL s
      | KCloseL => do_close j (set_left (p0 p) p) (left_fd p) SRead s
      | SClose0 => do_close j p (p0 p) SLoop s
      | SLoop =>
          match pipe_get (left_fd p) p s with
          | RVal x q k => Some (got j (goto (if Z.rem x (prime_ p) =? 0 then SLoop else SWrite) (set_n x p)) k q s)
          | RBlock => None
          | _ => Some (put j (goto SCloseL p) s)
          end
      | SWrite =>
          match pipe_put (p1 p) (n_ p) p s with
          | WDone k q => Some (got j (goto SLoop p) k q s)
          | WErr => Some (put j (goto SLoop p) s)
          | WBlock => None
          end
      | SCloseL => do_close j p (left_fd p) SClose1 s
      | SClose1 => do_close j p (p1 p) SWait s
      | SWait | MWait =>
          if child p then
            match procs s !! S j with Some c => if bool_decide (pc c = Exited) then Some (put j (goto Exited p) s) else None | None => None end
          else Some (put j (goto Exited p) s)
      | Exited | WriteError | Wild => None
      end
  end.

Definition start : net := Net [Proc MPipe 0 0 0 0 0 false ∅] [] [].

Fixpoint run (sched : list nat) (s : net) : option net :=
  match sched with
  | [] => Some s
  | j :: l => match step j s with Some s' => run l s' | None => None end
  end.

(** A scheduler: the youngest process that can go on. *)
Fixpoint pick (k : nat) (s : net) : option (nat * net) :=
  match k with
  | O => None
  | S k' => match step k' s with Some s' => Some (k', s') | None => pick k' s end
  end.
Fixpoint youngest (fuel : nat) (s : net) : net :=
  match fuel with
  | O => s
  | S f => match pick (length (procs s)) s with Some (_, s') => youngest f s' | None => s end
  end.
End Sieve.
