(* ===== verification/PrimesInv.v ===== *)
(** The pipeline of [Primes] computes the primes, however it is scheduled.

    The invariant describes each process by its program counter: its descriptor table and locals, the order in which the
    processes were created, which pipes have ended, and the numbers that are still to come.  What a process will read
    ([tin]) is the queue of its pipe followed by what its parent will still write, so every step leaves the output
    together with the output to come as it was.  A potential that every step lowers bounds the runs. *)
From Stdlib Require Import Znumtheory.
From S2P Require Import Prelude Machine Pipe Primes.
Local Open Scope Z_scope.

(** ** The sieve on lists *)

Definition nd (p x : Z) : Prop := Z.rem x p <> 0.
#[global] Instance nd_dec p x : Decision (nd p x).
Proof. unfold nd. apply _. Defined.

Fixpoint sv_fuel (f : nat) (l : list Z) : list Z :=
  match f, l with
  | S f, p :: l => p :: sv_fuel f (filter (nd p) l)
  | _, _ => []
  end.
Definition sv (l : list Z) : list Z := sv_fuel (length l) l.

Lemma sv_fuel_enough f : forall g l, (length l <= f)%nat -> (length l <= g)%nat -> sv_fuel f l = sv_fuel g l.
Proof.
  induction f as [|f IH]; intros [|g] [|p l] Hf Hg; cbn in *; try done; try lia. f_equal.
  pose proof (length_filter (nd p) l). apply IH; lia.
Qed.
Lemma sv_cons p l : sv (p :: l) = p :: sv (filter (nd p) l).
Proof. unfold sv. cbn [length sv_fuel]. f_equal. pose proof (length_filter (nd p) l). apply sv_fuel_enough; lia. Qed.

(** ** Program counters *)

Definition forked (c : pcs) : bool :=
  match c with MClose0 | MWrite | MWait | SClose0 | SLoop | SWrite | SCloseL | SClose1 | SWait => true | _ => false end.
Definition may_parent (c : pcs) : bool := forked c || bool_decide (c = Exited).
(** The end of the input was seen. *)
Definition seen_eof (c : pcs) : bool := match c with SEof | SCloseL | SClose1 | SWait | Exited => true | _ => false end.
(** The write end is closed. *)
Definition finished (c : pcs) : bool := match c with SWait | MWait | Exited => true | _ => false end.
(** A pipe was made that has no reader yet. *)
Definition piped (c : pcs) : nat := match c with MFork | SFork => 1 | _ => 0 end.
Definition printed (c : pcs) : nat := match c with SPipe | SFork => 1 | _ => 0 end.

(** ** Descriptors *)

Definition lfd (j : nat) : Z := if Nat.even j then 4 else 3.

Definition tab (j : nat) (c : pcs) : gmap Z (nat * fend) :=
  match c with
  | MFork | MClose0 | CClose1 => {[ 3 := (0%nat, Rd); 4 := (0%nat, Wr) ]}
  | MWrite => {[ 4 := (0%nat, Wr) ]}
  | SRead | SPrint | SPipe | SEof => {[ lfd j := (pred j, Rd) ]}
  | SFork | SClose0 => {[ lfd j := (pred j, Rd); lfd (S j) := (j, Rd); 5 := (j, Wr) ]}
  | SLoop | SWrite | SCloseL => {[ lfd j := (pred j, Rd); 5 := (j, Wr) ]}
  | SClose1 => {[ 5 := (j, Wr) ]}
  | KClose1 => {[ lfd (pred j) := (pred (pred j), Rd); lfd j := (pred j, Rd); 5 := (pred j, Wr) ]}
  | KCloseL => {[ lfd (pred j) := (pred (pred j), Rd); lfd j := (pred j, Rd) ]}
  | MPipe | MWait | SWait | Exited | WriteError | Wild => ∅
  end.

Definition locals (j : nat) (p : proc) : Prop :=
  match pc p with
  | MPipe => j = 0%nat
  | MFork => j = 0%nat /\ p0 p = 3 /\ p1 p = 4
  | MClose0 => j = 0%nat /\ p0 p = 3 /\ p1 p = 4 /\ child p = true
  | MWrite => j = 0%nat /\ p1 p = 4 /\ child p = true /\ 2 <= n_ p <= 281
  | MWait => j = 0%nat /\ child p = true
  | CClose1 => j = 1%nat /\ p0 p = 3 /\ p1 p = 4
  | SRead | SEof => (1 <= j)%nat /\ left_fd p = lfd j
  | SPrint | SPipe => (1 <= j)%nat /\ left_fd p = lfd j
  | SFork => (1 <= j)%nat /\ left_fd p = lfd j /\ p0 p = lfd (S j) /\ p1 p = 5
  | SClose0 => (1 <= j)%nat /\ left_fd p = lfd j /\ p0 p = lfd (S j) /\ p1 p = 5 /\ child p = true
  | KClose1 | KCloseL => (2 <= j)%nat /\ left_fd p = lfd (pred j) /\ p0 p = lfd j /\ p1 p = 5
  | SLoop | SWrite | SCloseL => (1 <= j)%nat /\ left_fd p = lfd j /\ p1 p = 5 /\ child p = true
  | SClose1 => (1 <= j)%nat /\ p1 p = 5 /\ child p = true
  | SWait => (1 <= j)%nat /\ child p = true
  | Exited => True
  | WriteError | Wild => False
  end.

Definition local_ok (j : nat) (p : proc) : Prop := fds p = tab j (pc p) /\ locals j p.

(** The pipe a process can write to. *)
Definition wr (j : nat) (c : pcs) : option nat :=
  match c with
  | MFork | MClose0 | MWrite | CClose1 => Some 0%nat
  | SFork | SClose0 | SLoop | SWrite | SCloseL | SClose1 => Some j
  | KClose1 => Some (pred j)
  | _ => None
  end.

Lemma lfd_range j : lfd j = 3 \/ lfd j = 4.
Proof. unfold lfd. destruct (Nat.even j); auto. Qed.
Lemma lfd_S j : lfd (S j) = 7 - lfd j.
Proof. unfold lfd. rewrite Nat.even_succ, <- Nat.negb_even. by destruct (Nat.even j). Qed.
Lemma lfd_pred j : (1 <= j)%nat -> lfd (pred j) = 7 - lfd j.
Proof. destruct j as [|j]; [lia|]. intros _. cbn [pred]. rewrite lfd_S. lia. Qed.

Lemma holds_spec e p : holds e p = true <-> exists fd, fds p !! fd = Some e.
Proof.
  unfold holds. rewrite existsb_exists. split.
  - intros ([fd x] & Hin & He). apply bool_decide_eq_true in He. cbn in He. subst. apply list_elem_of_In, elem_of_map_to_list in Hin. by exists fd.
  - intros (fd & H). exists (fd, e). split; [by apply list_elem_of_In, elem_of_map_to_list|]. by apply bool_decide_eq_true.
Qed.
Lemma is_open_spec e s : is_open e s = true <-> exists j p, procs s !! j = Some p /\ holds e p = true.
Proof.
  unfold is_open. rewrite existsb_exists. split.
  - intros (p & Hin & H). apply list_elem_of_In, list_elem_of_lookup in Hin as [j Hj]. by exists j, p.
  - intros (j & p & Hj & H). exists p. split; [|done]. apply list_elem_of_In, list_elem_of_lookup. by exists j.
Qed.

Lemma wr_spec j p k : local_ok j p -> holds (k, Wr) p = true <-> wr j (pc p) = Some k.
Proof.
  intros [Hf Hl]. rewrite holds_spec, Hf. unfold locals in Hl. pose proof (lfd_range j). pose proof (lfd_S j).
  destruct (pc p) eqn:Ec; cbn [tab wr]; try done; split.
  all: try (intros (fd & Hfd); rewrite ?lookup_insert_Some, ?lookup_singleton_Some in Hfd; by (intuition congruence)).
  all: try (intros [= <-]; exists 4; rewrite ?lookup_insert_ne by done; by rewrite lookup_singleton_eq).
  all: try (intros [= <-]; exists 5; rewrite ?lookup_insert_ne by (rewrite ?lfd_pred by lia; lia); by rewrite lookup_singleton_eq).
  all: try (intros (fd & Hfd); by rewrite lookup_empty in Hfd).
Qed.

(** ** What is still to come *)

Definition dummy : proc := Proc Exited 0 0 0 0 0 false ∅.
Definition pr (s : net) (j : nat) : proc := default dummy (procs s !! j).
Definition qu (s : net) (k : nat) : list Z := default [] (pipes s !! k).
Definition numbers : list Z := seqZ 2 279.

Definition main_out (p : proc) : list Z :=
  match pc p with
  | MPipe | MFork | MClose0 => numbers
  | MWrite => seqZ (n_ p) (281 - n_ p)
  | _ => []
  end.
Definition pend (p : proc) : list Z := match pc p with SWrite => [n_ p] | _ => [] end.
(** What process [j] will write to its pipe when it reads [inp]. *)
Definition outflow (j : nat) (p : proc) (inp : list Z) : list Z :=
  match j with O => main_out p | S _ => pend p ++ filter (nd (prime_ p)) inp end.
(** What process [j] will read. *)
Fixpoint tin (s : net) (j : nat) : list Z :=
  match j with O => [] | S i => qu s i ++ outflow i (pr s i) (tin s i) end.

Lemma tin_S s j : tin s (S j) = qu s j ++ outflow j (pr s j) (tin s j).
Proof. done. Qed.

(** What the last process and its descendants will print. *)
Definition last_rest (p : proc) (inp : list Z) : list Z :=
  match pc p with
  | MPipe | MFork => sv numbers
  | CClose1 | KClose1 | KCloseL | SRead => sv inp
  | SPrint => prime_ p :: sv (filter (nd (prime_ p)) inp)
  | SPipe | SFork => sv (filter (nd (prime_ p)) inp)
  | _ => []
  end.
Definition last (s : net) : nat := pred (length (procs s)).
Definition rest (s : net) : list Z := last_rest (pr s (last s)) (tin s (last s)).

Record inv (s : net) : Prop := {
  iv_n : (1 <= length (procs s))%nat;
  iv_local : forall j p, procs s !! j = Some p -> local_ok j p;
  iv_parent : forall j p, procs s !! j = Some p -> (j < last s)%nat -> may_parent (pc p) = true;
  iv_last : forked (pc (pr s (last s))) = false;
  iv_pipes : length (pipes s) = (last s + piped (pc (pr s (last s))))%nat;
  iv_new : piped (pc (pr s (last s))) = 1%nat -> qu s (last s) = [];
  iv_eof : forall j p, procs s !! S j = Some p -> seen_eof (pc p) = true -> finished (pc (pr s j)) = true /\ qu s j = [];
  iv_data : out s ++ rest s = sv numbers;
  iv_out : length (out s) = (pred (last s) + printed (pc (pr s (last s))))%nat;
}.

Lemma pr_lookup s j p : procs s !! j = Some p -> pr s j = p.
Proof. unfold pr. by intros ->. Qed.
Lemma lookup_pr s j : (j < length (procs s))%nat -> procs s !! j = Some (pr s j).
Proof. intros H. destruct (lookup_lt_is_Some_2 _ _ H) as [p Hp]. unfold pr. by rewrite Hp. Qed.

(** A process that has closed its write end writes nothing more. *)
Lemma finished_flow s : inv s -> forall j, finished (pc (pr s j)) = true -> (j < length (procs s))%nat -> outflow j (pr s j) (tin s j) = [].
Proof.
  intros I. induction j as [|j IH]; intros Hf Hj; cbn [outflow].
  - unfold main_out. revert Hf. by destruct (pc (pr s 0)).
  - destruct (iv_local _ I (S j) _ (lookup_pr s (S j) Hj)) as [_ Hl]. unfold locals in Hl.
    destruct (iv_eof _ I j (pr s (S j))) as [H1 H2]; [by apply lookup_pr|revert Hf Hl; destruct (pc (pr s (S j))); cbn; naive_solver|].
    cbn [tin]. rewrite H2, (IH H1) by lia. unfold pend. revert Hf. by destruct (pc (pr s (S j))).
Qed.

(** *** Changing one process and the pipes next to it *)

Definition same_but (j : nat) (p' : proc) (s s' : net) : Prop :=
  length (procs s') = length (procs s) /\ pr s' j = p' /\
  (forall i, i <> j -> pr s' i = pr s i) /\ (forall k, k <> j -> S k <> j -> qu s' k = qu s k).

Lemma tin_below j p' s s' : same_but j p' s s' -> forall i, (i < j)%nat -> tin s' i = tin s i.
Proof.
  intros (_ & _ & Hp & Hq). induction i as [|i IH]; intros Hi; cbn [tin]; [done|]. rewrite IH, Hp, Hq by lia. done.
Qed.
Lemma tin_above j p' s s' : same_but j p' s s' -> tin s' (S j) = tin s (S j) -> forall i, (j < i)%nat -> tin s' i = tin s i.
Proof.
  intros (_ & _ & Hp & Hq) H. induction i as [|i IH]; intros Hi; [lia|]. destruct (decide (i = j)) as [->|]; [done|]. cbn [tin]. rewrite IH, Hp, Hq by lia. done.
Qed.

Lemma tin_here j p' s s' : same_but j p' s s' -> (forall i, j = S i -> qu s' i = qu s i) -> tin s' j = tin s j.
Proof.
  intros SB Hq. destruct j as [|j]; [done|]. cbn [tin]. rewrite (tin_below _ _ _ _ SB j), Hq by (done || lia). destruct SB as (_ & _ & Hp & _). by rewrite Hp by lia.
Qed.

(** A step of process [j] that makes no process keeps the invariant. *)
Lemma net_step j p p' s s' o : inv s -> procs s !! j = Some p -> same_but j p' s s' -> out s' = out s ++ o ->
  local_ok j p' -> (length (pipes s') + piped (pc p) = length (pipes s) + piped (pc p'))%nat ->
  ((j < last s)%nat -> may_parent (pc p') = true) -> (j = last s -> forked (pc p') = false) ->
  (forall i, j = S i -> seen_eof (pc p') = true -> finished (pc (pr s i)) = true /\ qu s' i = []) ->
  (forall c, procs s !! S j = Some c -> seen_eof (pc c) = true -> finished (pc p') = true /\ qu s' j = []) ->
  (piped (pc p') = 1%nat -> qu s' j = []) ->
  ((j < last s)%nat -> o = [] /\ tin s' (S j) = tin s (S j)) ->
  (j = last s -> (length o + printed (pc p) = printed (pc p'))%nat /\ o ++ last_rest p' (tin s' j) = last_rest p (tin s j)) ->
  inv s'.
Proof.
  intros I Hj SB Ho Hloc Hpi Hpar Hla He1 He2 Hnew Hmid Hend. pose proof SB as (Hn & Hp & Hpo & Hq). pose proof (iv_n _ I) as H1. pose proof (lookup_lt_Some _ _ _ Hj) as Hlt.
  assert (last s' = last s) as El by (unfold last; by rewrite Hn). assert (pr s j = p) as Ep by (by apply pr_lookup). assert (j <= last s)%nat as Hjl by (unfold last; lia).
  assert (forall i q, procs s' !! i = Some q -> i <> j -> procs s !! i = Some q) as Hback.
  { intros i q Hi Hne. pose proof (lookup_lt_Some _ _ _ Hi). rewrite <- (pr_lookup _ _ _ Hi), Hpo by done. apply lookup_pr. lia. }
  assert (forall q, procs s' !! j = Some q -> q = p') as Hthis by (intros q Hi; by rewrite <- (pr_lookup _ _ _ Hi)).
  split.
  - lia.
  - intros i q Hi. destruct (decide (i = j)) as [->|Hne]; [by rewrite (Hthis q Hi)|]. by apply (iv_local _ I), Hback.
  - rewrite El. intros i q Hi Hil. destruct (decide (i = j)) as [->|Hne]; [rewrite (Hthis q Hi); by apply Hpar|]. apply (iv_parent _ I i); [by apply Hback|done].
  - rewrite El. destruct (decide (last s = j)) as [E|Hne]; [rewrite E, Hp; by apply Hla|]. rewrite Hpo by done. apply I.
  - pose proof (iv_pipes _ I) as Hk. rewrite El. destruct (decide (last s = j)) as [E|Hne]; [rewrite E, Ep in Hk; rewrite E, Hp; lia|].
    rewrite Hpo by done. rewrite <- Hk. assert (piped (pc p) = 0 /\ piped (pc p') = 0)%nat as [E1 E2]; [|lia].
    split; [pose proof (iv_parent _ I j p Hj ltac:(lia)) as Hm; by destruct (pc p)|]. pose proof (Hpar ltac:(lia)) as Hm. by destruct (pc p').
  - rewrite El. destruct (decide (last s = j)) as [E|Hne]; [rewrite E, Hp; by apply Hnew|]. rewrite Hpo, Hq by lia. apply (iv_new _ I).
  - intros i q Hi Hs. destruct (decide (S i = j)) as [<-|Hne1].
    + rewrite Hpo by lia. apply He1; [done|]. by rewrite <- (Hthis q Hi).
    + apply Hback in Hi; [|done]. destruct (decide (i = j)) as [->|Hne2]; [rewrite Hp; by apply (He2 q)|]. rewrite Hpo, Hq by lia. by apply (iv_eof _ I i q).
  - unfold rest. rewrite El, Ho, <- app_assoc. rewrite <- (iv_data _ I). f_equal. unfold rest. destruct (decide (j = last s)) as [E|Hne].
    + rewrite <- E, Hp, Ep. by apply Hend.
    + destruct Hmid as [-> Ht]; [lia|]. rewrite Hpo by lia. rewrite (tin_above j p' s s') by (done || lia). done.
  - rewrite El, Ho, length_app, (iv_out _ I). destruct (decide (j = last s)) as [E|Hne].
    + destruct (Hend E) as [Hl _]. rewrite <- E, Hp, Ep. lia.
    + destruct Hmid as [-> _]; [lia|]. rewrite Hpo by lia. cbn. lia.
Qed.

Lemma is_last s j p : inv s -> procs s !! j = Some p -> may_parent (pc p) = false -> j = last s.
Proof.
  intros I Hj Hp. pose proof (lookup_lt_Some _ _ _ Hj). destruct (decide (j = last s)) as [|Hne]; [done|]. pose proof (iv_parent _ I j p Hj ltac:(unfold last in *; lia)). congruence.
Qed.
Lemma is_inner s j p : inv s -> procs s !! j = Some p -> forked (pc p) = true -> (j < last s)%nat.
Proof.
  intros I Hj Hp. pose proof (lookup_lt_Some _ _ _ Hj). destruct (decide (j = last s)) as [E|Hne]; [|unfold last in *; lia].
  pose proof (iv_last _ I) as Hf. rewrite <- E, (pr_lookup _ _ _ Hj) in Hf. congruence.
Qed.

(** There are 59 primes to print, so at most 60 stages and 60 pipes. *)
Lemma sv_count : length (sv numbers) = 59%nat.
Proof. vm_compute. reflexivity. Qed.
Lemma few_procs s : inv s -> (last s + printed (pc (pr s (last s))) <= 60)%nat.
Proof.
  intros I. pose proof (iv_out _ I) as Ho. pose proof (f_equal length (iv_data _ I)) as Hd. rewrite length_app, sv_count in Hd. lia.
Qed.

(** *** System calls in a state of the invariant *)

Lemma wr_owner i c k : wr i c = Some k -> i = k \/ c = CClose1 \/ c = KClose1 \/ (k = 0%nat /\ (c = MFork \/ c = MClose0 \/ c = MWrite)).
Proof. destruct c; cbn; naive_solver. Qed.

(** Process [j] has the only write end of pipe [j] once its child reads. *)
Lemma writer_is s j i p : inv s -> procs s !! i = Some p -> wr i (pc p) = Some j -> pc (pr s (S j)) <> CClose1 -> pc (pr s (S j)) <> KClose1 -> i = j.
Proof.
  intros I Hi Hw H1 H2. destruct (iv_local _ I i p Hi) as [_ Hl]. unfold locals in Hl.
  destruct (decide (i = S j)) as [->|Hne]; [rewrite (pr_lookup _ _ _ Hi) in H1, H2|]; destruct (pc p); cbn in Hw; naive_solver lia.
Qed.

Definition reading (c : pcs) : bool := match c with SRead | SLoop => true | _ => false end.

Lemma pipe_there s j : inv s -> (S j < length (procs s))%nat -> pipes s !! j = Some (qu s j).
Proof.
  intros I Hj. pose proof (iv_pipes _ I) as Hp. destruct (lookup_lt_is_Some_2 (pipes s) j) as [q Hq]; [unfold last in Hp; lia|]. unfold qu. by rewrite Hq.
Qed.

(** The parent of a running process has its write end open or has finished. *)
Lemma parent_cases s j : inv s -> (S j < length (procs s))%nat -> finished (pc (pr s j)) = true \/ wr j (pc (pr s j)) = Some j.
Proof.
  intros I Hj. pose proof (iv_parent _ I j (pr s j) (lookup_pr s j ltac:(lia)) ltac:(unfold last; lia)) as Hp. destruct (iv_local _ I j _ (lookup_pr s j ltac:(lia))) as [_ Hl].
  unfold locals in Hl. unfold may_parent in Hp. destruct (pc (pr s j)); cbn in *; naive_solver.
Qed.

Lemma read_spec s j p : inv s -> procs s !! S j = Some p -> reading (pc p) = true ->
  match pipe_get (left_fd p) p s with
  | RVal x q k => k = j /\ qu s j = x :: q
  | REof => qu s j = [] /\ finished (pc (pr s j)) = true
  | RErr => False
  | RBlock => qu s j = [] /\ wr j (pc (pr s j)) = Some j
  end.
Proof.
  intros I Hj Hr. pose proof (lookup_lt_Some _ _ _ Hj) as Hlt. destruct (iv_local _ I _ _ Hj) as [Hf Hl]. unfold pipe_get.
  assert (fds p !! left_fd p = Some (j, Rd)) as ->.
  { unfold locals in Hl. rewrite Hf. destruct (pc p); try done; cbn [tab pred]; assert (left_fd p = lfd (S j)) as -> by tauto; [by rewrite lookup_singleton_eq|]. by rewrite lookup_insert_eq. }
  rewrite (pipe_there s j I Hlt). destruct (qu s j) as [|x q] eqn:Eq; [|done].
  destruct (is_open (j, Wr) s) eqn:Eo.
  - split; [done|]. apply is_open_spec in Eo as (i & q & Hi & Hh). apply (wr_spec i q j) in Hh; [|by apply (iv_local _ I)].
    assert (i = j) as -> by (apply (writer_is s j i q I Hi Hh); rewrite (pr_lookup _ _ _ Hj); intros E; by rewrite E in Hr). by rewrite (pr_lookup _ _ _ Hi).
  - split; [done|]. destruct (parent_cases s j I Hlt) as [|Hw]; [done|]. exfalso. assert (is_open (j, Wr) s = true) as Ho; [|congruence].
    apply is_open_spec. exists j, (pr s j). split; [apply lookup_pr; lia|]. apply (wr_spec j); [apply (iv_local _ I), lookup_pr; lia|done].
Qed.

Lemma reader_holds j p : local_ok (S j) p -> seen_eof (pc p) = false -> holds (j, Rd) p = true.
Proof.
  intros [Hf Hl] Hs. apply holds_spec. rewrite Hf. unfold locals in Hl. pose proof (lfd_range (S j)) as H1.
  destruct (pc p) eqn:Ec; try done; cbn [tab pred]; try lia.
  all: try (exists (lfd (S j)); rewrite ?lookup_insert_eq, ?lookup_singleton_eq; done).
  - exists 3. destruct Hl as [[= ->] _]. done.
  - exists (lfd (S j)). destruct j as [|j]; [lia|]. cbn [pred]. rewrite lookup_insert_ne by (rewrite (lfd_S (S j)); lia). by rewrite lookup_insert_eq.
  - exists (lfd (S j)). destruct j as [|j]; [lia|]. cbn [pred]. rewrite lookup_insert_ne by (rewrite (lfd_S (S j)); lia). by rewrite lookup_singleton_eq.
Qed.

Lemma write_spec s j p x : inv s -> procs s !! j = Some p -> (j < last s)%nat -> pc p = SWrite \/ pc p = MWrite ->
  pipe_put (p1 p) x p s = if (length (qu s j) <? PIPEINTS)%nat then WDone j (qu s j ++ [x]) else WBlock.
Proof.
  intros I Hj Hlt Hpc. destruct (iv_local _ I _ _ Hj) as [Hf Hl]. unfold pipe_put. unfold locals in Hl.
  assert (fds p !! p1 p = Some (j, Wr)) as ->.
  { pose proof (lfd_range j). rewrite Hf. destruct Hpc as [E|E]; rewrite E in *; cbn [tab]; [destruct Hl as (_ & _ & -> & _); rewrite lookup_insert_ne by lia; by rewrite lookup_singleton_eq|].
    destruct Hl as (-> & -> & _). done. }
  assert (is_open (j, Rd) s = true) as ->.
  { assert (S j < length (procs s))%nat as Hc by (unfold last in Hlt; lia). apply is_open_spec. exists (S j), (pr s (S j)). split; [by apply lookup_pr|].
    apply reader_holds; [apply (iv_local _ I), lookup_pr; lia|]. destruct (seen_eof (pc (pr s (S j)))) eqn:Es; [|done].
    destruct (iv_eof _ I j _ (lookup_pr s (S j) Hc) Es) as [Hfin _]. rewrite (pr_lookup _ _ _ Hj) in Hfin. by destruct Hpc as [E|E]; rewrite E in Hfin. }
  cbn [negb]. rewrite (pipe_there s j I) by (unfold last in Hlt; lia). done.
Qed.

(** *** The steps *)

Lemma same_but_put j p' s : (j < length (procs s))%nat -> same_but j p' s (put j p' s).
Proof.
  intros Hj. split; [apply length_insert|]. split; [unfold pr, put; cbn [procs]; by rewrite list_lookup_insert_eq|].
  split; [|done]. intros i Hi. unfold pr, put. cbn [procs]. by rewrite list_lookup_insert_ne.
Qed.
Lemma same_but_got j p' k q s : (j < length (procs s))%nat -> k = j \/ S k = j -> same_but j p' s (got j p' k q s).
Proof.
  intros Hj Hk. split; [apply length_insert|]. split; [unfold pr, got; cbn [procs]; by rewrite list_lookup_insert_eq|].
  split; intros i Hi; unfold pr, got, qu; cbn [procs pipes]; [by rewrite list_lookup_insert_ne|]. intros Hi'. rewrite list_lookup_insert_ne; [done|]. lia.
Qed.
Lemma qu_got j p' k q s : (k < length (pipes s))%nat -> qu (got j p' k q s) k = q.
Proof. intros Hk. unfold qu, got. cbn [pipes]. by rewrite list_lookup_insert_eq. Qed.
Lemma qu_got_ne j p' k q s i : i <> k -> qu (got j p' k q s) i = qu s i.
Proof. intros Hk. unfold qu, got. cbn [pipes]. by rewrite list_lookup_insert_ne. Qed.

(** A step that changes only the process. *)
Lemma inv_put j p p' s : inv s -> procs s !! j = Some p -> local_ok j p' -> piped (pc p') = piped (pc p) ->
  ((j < last s)%nat -> may_parent (pc p') = true) -> (j = last s -> forked (pc p') = false) ->
  (seen_eof (pc p) = false -> forall i, j = S i -> seen_eof (pc p') = true -> finished (pc (pr s i)) = true /\ qu s i = []) ->
  (finished (pc p) = true -> finished (pc p') = true) ->
  ((j < last s)%nat -> outflow j p' (tin s j) = outflow j p (tin s j)) ->
  (j = last s -> printed (pc p') = printed (pc p) /\ last_rest p' (tin s j) = last_rest p (tin s j)) -> inv (put j p' s).
Proof.
  intros I Hj Hl Hpi Hpar Hla He Hf Hm He2. pose proof (lookup_lt_Some _ _ _ Hj) as Hlt. pose proof (same_but_put j p' s Hlt) as SB.
  pose proof (tin_here j p' s _ SB (fun _ _ => eq_refl)) as Et.
  apply (net_step j p p' s _ [] I Hj SB); try done; [by rewrite app_nil_r|cbn [put pipes]; lia|..].
  - intros i -> Hs. destruct (seen_eof (pc p)) eqn:Es; [by apply (iv_eof _ I i p)|]. by apply He.
  - intros c Hc Hs. destruct (iv_eof _ I j c Hc Hs) as [Hfin Hq]. rewrite (pr_lookup _ _ _ Hj) in Hfin. split; [by apply Hf|done].
  - rewrite Hpi. intros Hp1. change (qu (put j p' s) j) with (qu s j). destruct (decide (j = last s)) as [->|Hne]; [apply (iv_new _ I); by rewrite (pr_lookup _ _ _ Hj)|].
    pose proof (iv_parent _ I j p Hj ltac:(unfold last in *; lia)) as Hm'. by destruct (pc p).
  - intros Hlt'. split; [done|]. cbn [tin]. rewrite Et. destruct SB as (_ & -> & _ & _). change (qu (put j p' s) j) with (qu s j). rewrite (pr_lookup _ _ _ Hj). by rewrite Hm.
  - intros E. destruct (He2 E) as [-> Hr]. rewrite Et. split; [done|]. by rewrite Hr.
Qed.

(** A read takes the first number of the queue. *)
Lemma tin_read j p' x q s : (S j < length (procs s))%nat -> (j < length (pipes s))%nat -> qu s j = x :: q ->
  tin s (S j) = x :: tin (got (S j) p' j q s) (S j).
Proof.
  intros Hj Hk Hq. pose proof (same_but_got (S j) p' j q s Hj ltac:(lia)) as SB. cbn [tin]. rewrite (tin_below _ _ _ _ SB j) by lia. destruct SB as (_ & _ & Hp & _).
  rewrite Hp, qu_got, Hq by lia. done.
Qed.

Lemma inv_read j p p' x q s : inv s -> procs s !! S j = Some p -> qu s j = x :: q -> local_ok (S j) p' ->
  reading (pc p) = true -> piped (pc p') = 0%nat -> printed (pc p') = 0%nat -> seen_eof (pc p') = false ->
  ((S j < last s)%nat -> may_parent (pc p') = true) -> (S j = last s -> forked (pc p') = false) ->
  (forall t, (S j < last s)%nat -> outflow (S j) p' t = outflow (S j) p (x :: t)) ->
  (forall t, S j = last s -> last_rest p' t = last_rest p (x :: t)) -> inv (got (S j) p' j q s).
Proof.
  intros I Hj Hq Hl Hr Hpi Hpr Hse Hpar Hla Hm He. pose proof (lookup_lt_Some _ _ _ Hj) as Hlt. pose proof (lookup_lt_Some _ _ _ (pipe_there s j I Hlt)) as Hk.
  pose proof (same_but_got (S j) p' j q s Hlt ltac:(lia)) as SB. pose proof (tin_read j p' x q s Hlt Hk Hq) as Ht.
  apply (net_step (S j) p p' s _ [] I Hj SB); try done; [by rewrite app_nil_r| |..].
  - cbn [got pipes]. rewrite length_insert. revert Hr. rewrite Hpi. by destruct (pc p).
  - intros i _ Hs. congruence.
  - intros c Hc Hs. destruct (iv_eof _ I (S j) c Hc Hs) as [Hfin _]. rewrite (pr_lookup _ _ _ Hj) in Hfin. by destruct (pc p).
  - intros E. by rewrite Hpi in E.
  - intros Hlt'. split; [done|]. rewrite (tin_S s). rewrite tin_S, qu_got_ne by lia. destruct SB as (_ & -> & _ & _). by rewrite (pr_lookup _ _ _ Hj), Ht, Hm.
  - intros E. rewrite Ht, He by done. split; [|done]. rewrite Hpr. by destruct (pc p).
Qed.

(** A write adds the first of the numbers still to be written. *)
Lemma inv_write j p p' x s : inv s -> procs s !! j = Some p -> (j < last s)%nat -> pc p = SWrite \/ pc p = MWrite -> local_ok j p' ->
  may_parent (pc p') = true -> seen_eof (pc p') = false -> (forall t, outflow j p t = x :: outflow j p' t) -> inv (got j p' j (qu s j ++ [x]) s).
Proof.
  intros I Hj Hlt Hpc Hl Hpar Hse Hm. pose proof (lookup_lt_Some _ _ _ Hj) as Hn. assert (S j < length (procs s))%nat as Hc by (unfold last in Hlt; lia).
  pose proof (lookup_lt_Some _ _ _ (pipe_there s j I Hc)) as Hk. pose proof (same_but_got j p' j (qu s j ++ [x]) s Hn ltac:(lia)) as SB.
  assert (piped (pc p') = 0%nat) as Hpi by (by destruct (pc p')).
  assert (tin (got j p' j (qu s j ++ [x]) s) j = tin s j) as Et by (apply (tin_here j p' s _ SB); intros i ->; apply qu_got_ne; lia).
  apply (net_step j p p' s _ [] I Hj SB); try done; try lia; [by rewrite app_nil_r| |..].
  - cbn [got pipes]. rewrite length_insert, Hpi. by destruct Hpc as [-> | ->].
  - intros c Hc' Hs. destruct (iv_eof _ I j c Hc' Hs) as [Hfin _]. rewrite (pr_lookup _ _ _ Hj) in Hfin. by destruct Hpc as [E|E]; rewrite E in Hfin.
  - intros _. split; [done|]. rewrite !tin_S, qu_got, Et by done. destruct SB as (_ & -> & _ & _). rewrite (pr_lookup _ _ _ Hj), Hm, <- app_assoc. done.
Qed.

(** The table after close(). *)
Ltac tabs := apply map_eq; intros fd; repeat (rewrite lookup_delete || rewrite lookup_insert || rewrite lookup_singleton || rewrite lookup_empty); repeat case_decide; try done; try lia; try congruence.

Section Steps.
Context (maxfile maxproc : nat).

Lemma inv_close s j p s' : inv s -> procs s !! j = Some p ->
  match pc p with MClose0 | CClose1 | SEof | KClose1 | KCloseL | SClose0 | SCloseL | SClose1 => true | _ => false end = true -> step maxfile maxproc j s = Some s' -> inv s'.
Proof.
  intros I Hj Hc Hs. unfold step in Hs. rewrite Hj in Hs. destruct (iv_local _ I _ _ Hj) as [Hf Hl]. pose proof (lookup_lt_Some _ _ _ Hj) as Hlt.
  pose proof (iv_parent _ I j p Hj) as Hpar. assert (j = last s -> forked (pc p) = false) as Hla by (intros E; rewrite <- (pr_lookup _ _ _ Hj), E; apply I).
  unfold locals in Hl. pose proof (lfd_range j) as R. pose proof (lfd_S j) as RS. unfold do_close in Hs.
  destruct (pc p) eqn:Ec; try done; injection Hs as <-; cbn [tab] in Hf; apply (inv_put j p); try done; rewrite ?Ec; cbn; try done.
  all: try (intros _; split; [done|]; unfold last_rest; by rewrite Ec).
  all: try (intros _; destruct Hl as [-> Hl] || destruct j as [|j]; unfold outflow, main_out, pend; cbn [goto close set_n set_left pc n_]; rewrite Ec; done || lia).
  all: split; cbn [goto close set_n set_left fds pc n_ p0 p1 left_fd]; [rewrite Hf|unfold locals; cbn [goto close set_n set_left fds pc n_ p0 p1 left_fd child]; intuition (subst; done || lia)]; cbn [tab].
  all: pose proof (lfd_pred j) as RP; destruct_and? Hl; subst; try change (lfd 1) with 3; tabs.
Qed.

Lemma inv_print s j p : inv s -> procs s !! j = Some p -> pc p = SPrint -> inv (Net (<[j := goto SPipe p]> (procs s)) (pipes s) (out s ++ [prime_ p])).
Proof.
  intros I Hj Hpc. destruct (iv_local _ I _ _ Hj) as [Hf Hl]. pose proof (is_last s j p I Hj ltac:(by rewrite Hpc)) as El. unfold locals in Hl. rewrite Hpc in Hf, Hl.
  apply (net_step j p (goto SPipe p) s _ [prime_ p] I Hj); try done; try (rewrite Hpc; done); try lia.
  - apply (same_but_put j (goto SPipe p) s). by apply lookup_lt_Some in Hj.
  - intros c Hc. apply lookup_lt_Some in Hc. unfold last in El. lia.
  - intros _. split; [by rewrite Hpc|]. rewrite (tin_here j (goto SPipe p) s) by (done || apply (same_but_put j (goto SPipe p) s); by apply lookup_lt_Some in Hj).
    unfold last_rest. cbn [goto pc prime_]. by rewrite Hpc.
Qed.

Lemma files_le s : (files s <= 2 * length (pipes s))%nat.
Proof.
  unfold files. pose proof (length_filter (fun k => is_open (k, Rd) s = true) (seq 0 (length (pipes s)))) as H1.
  pose proof (length_filter (fun k => is_open (k, Wr) s = true) (seq 0 (length (pipes s)))) as H2. rewrite !length_seq in *. lia.
Qed.
Lemma live_le s : (live s <= length (procs s))%nat.
Proof. unfold live. etransitivity; [apply length_filter|]. by rewrite length_seq. Qed.

Lemma lowest_lfd j : (1 <= j)%nat -> lowest {[ lfd j := (pred j, Rd) ]} = lfd (S j) /\ lowest (<[lfd (S j) := (j, Rd)]> {[ lfd j := (pred j, Rd) ]}) = 5.
Proof.
  intros Hj. rewrite lfd_S. destruct (lfd_range j) as [-> | ->]; done.
Qed.

(** A stage that makes its pipe finds at most 59 others. *)
Lemma few_files s j p : inv s -> procs s !! j = Some p -> pc p = MPipe \/ pc p = SPipe -> (files s + 2 <= 120)%nat.
Proof.
  intros I Hj Hpc. pose proof (is_last s j p I Hj ltac:(by destruct Hpc as [-> | ->])) as El. pose proof (iv_pipes _ I) as Hk. pose proof (few_procs s I) as Hn. pose proof (files_le s) as Hfi.
  destruct (iv_local _ I _ _ Hj) as [_ Hl]. unfold locals in Hl. rewrite <- El, (pr_lookup _ _ _ Hj) in Hk, Hn. destruct Hpc as [E|E]; rewrite E in *; cbn in *; lia.
Qed.

(** pipe() makes the queue and the two descriptors. *)
Lemma inv_pipe s j p ok : inv s -> procs s !! j = Some p -> (files s + 2 <=? maxfile)%nat = true -> (pc p = MPipe /\ ok = MFork) \/ (pc p = SPipe /\ ok = SFork) -> inv (do_pipe maxfile j p ok s).
Proof.
  intros I Hj Hmax Hpc. destruct (iv_local _ I _ _ Hj) as [Hf Hl]. pose proof (is_last s j p I Hj ltac:(by destruct Hpc as [[-> _]|[-> _]])) as El.
  pose proof (iv_pipes _ I) as Hk. pose proof (lookup_lt_Some _ _ _ Hj) as Hlt.
  rewrite <- El, (pr_lookup _ _ _ Hj) in Hk. unfold locals in Hl. unfold do_pipe. rewrite Hmax.
  set (p' := goto ok _). set (s' := Net _ _ _). assert (forall k, qu s' k = qu s k) as Hq.
  { intros k. unfold qu, s'. cbn [pipes put]. destruct (decide (k < length (pipes s))%nat); [by rewrite lookup_app_l|]. rewrite (lookup_ge_None_2 (pipes s)) by lia.
    rewrite lookup_app_r by lia. by destruct (k - length (pipes s))%nat. }
  assert (same_but j p' s s') as SB by (destruct (same_but_put j p' s Hlt) as (H1 & H2 & H3 & H4); by split_and!).
  assert (pc p' = ok) as Ep by done. assert (length (pipes s) = j) as Hk' by (destruct Hpc as [[E _]|[E _]]; rewrite E in Hk; cbn in Hk; lia).
  apply (net_step j p p' s s' [] I Hj SB); rewrite ?Ep.
  - by rewrite app_nil_r.
  - unfold p'. rewrite Hk'. destruct Hpc as [[E ->]|[E ->]]; rewrite E in *; split; cbn [goto set_pipe fds pc tab]; rewrite Hf; cbn [tab].
    + rewrite Hl. done.
    + unfold locals. cbn [goto set_pipe pc p0 p1]. rewrite Hl. done.
    + destruct Hl as [Hj1 _]. destruct (lowest_lfd j Hj1) as [-> ->]. pose proof (lfd_range j). pose proof (lfd_S j). tabs.
    + destruct Hl as [Hj1 Hl]. unfold locals. cbn [goto set_pipe pc left_fd p0 p1]. destruct (lowest_lfd j Hj1) as [-> ->]. by rewrite Hl.
  - unfold s'. cbn [pipes put]. rewrite length_app. destruct Hpc as [[-> ->]|[-> ->]]; cbn; lia.
  - lia.
  - intros _. by destruct Hpc as [[_ ->]|[_ ->]].
  - intros i _. by destruct Hpc as [[_ ->]|[_ ->]].
  - intros c Hc. apply lookup_lt_Some in Hc. unfold last in El. lia.
  - intros _. rewrite Hq. unfold qu. by rewrite lookup_ge_None_2 by lia.
  - lia.
  - intros _. rewrite (tin_here j p' s s' SB) by (intros; apply Hq). unfold last_rest. rewrite Ep. destruct Hpc as [[-> ->]|[-> ->]]; done.
Qed.

(** fork() adds the next process, which has its parent's table and reads from the new pipe. *)
Lemma fork_local j p cpc ppc : local_ok j p -> (pc p = MFork /\ cpc = CClose1 /\ ppc = MClose0) \/ (pc p = SFork /\ cpc = KClose1 /\ ppc = SClose0) ->
  local_ok j (goto ppc (set_child true p)) /\ local_ok (S j) (goto cpc (set_child false p)).
Proof.
  intros [Hf Hl] Hpc. unfold locals in Hl. destruct Hpc as [(E & -> & ->)|(E & -> & ->)]; rewrite E in *; split; (split; [by cbn [goto set_child fds pc tab pred]; rewrite Hf|]);
    unfold locals; cbn [goto set_child pc p0 p1 left_fd child pred]; intuition lia.
Qed.

Lemma inv_fork s j p cpc ppc : inv s -> procs s !! j = Some p -> (61 <= maxproc)%nat ->
  (pc p = MFork /\ cpc = CClose1 /\ ppc = MClose0) \/ (pc p = SFork /\ cpc = KClose1 /\ ppc = SClose0) -> inv (do_fork maxproc j p cpc ppc s).
Proof.
  intros I Hj Hmax Hpc. pose proof (iv_local _ I _ _ Hj) as Hlo. pose proof (is_last s j p I Hj ltac:(by destruct Hpc as [(-> & _)|(-> & _)])) as El.
  pose proof (iv_pipes _ I) as Hk. pose proof (few_procs s I) as Hn. pose proof (iv_new _ I) as Hnew. pose proof (live_le s) as Hli. pose proof (lookup_lt_Some _ _ _ Hj) as Hlt.
  pose proof (iv_out _ I) as Ho. pose proof (iv_data _ I) as Hd. unfold rest in Hd. destruct (fork_local j p cpc ppc Hlo Hpc) as [L1 L2].
  rewrite <- El, (pr_lookup _ _ _ Hj) in Hk, Hn, Hnew, Ho, Hd. assert (length (procs s) = S j) as Elen by (unfold last in El; lia). unfold do_fork.
  assert ((live s <? maxproc)%nat = true) as ->.
  { apply Nat.ltb_lt. destruct Hlo as [_ Hl]. unfold locals in Hl. destruct Hpc as [(E & _)|(E & _)]; rewrite E in Hn, Hl; cbn in Hn; lia. }
  set (p' := goto ppc _) in *. set (c := goto cpc _) in *. set (s' := Net _ _ _).
  assert (pc p' = ppc /\ pc c = cpc) as [Ep Ec] by done. assert (last s' = S j) as El' by (unfold last, s'; cbn [procs]; rewrite length_app, length_insert, Elen; cbn; lia).
  assert (pr s' j = p') as Pj by (unfold pr, s'; cbn [procs]; by rewrite lookup_app_l, list_lookup_insert_eq by (rewrite ?length_insert; lia)).
  assert (pr s' (S j) = c) as Pc by (unfold pr, s'; cbn [procs]; rewrite lookup_app_r by (rewrite length_insert; lia); by rewrite length_insert, Elen, Nat.sub_diag).
  assert (forall i, (i < j)%nat -> pr s' i = pr s i) as Po by (intros i Hi; unfold pr, s'; cbn [procs]; by rewrite lookup_app_l, list_lookup_insert_ne by (rewrite ?length_insert; lia)).
  assert (forall i q, procs s' !! i = Some q -> (i < j /\ procs s !! i = Some q)%nat \/ (i = j /\ q = p') \/ (i = S j /\ q = c)) as Hback.
  { intros i q Hi. pose proof (lookup_lt_Some _ _ _ Hi) as Hil. unfold s' in Hil; cbn [procs] in Hil. rewrite length_app, length_insert, Elen in Hil. cbn in Hil.
    rewrite <- (pr_lookup _ _ _ Hi). destruct (decide (i = j)) as [->|]; [by auto|]. destruct (decide (i = S j)) as [->|]; [by auto|]. left. split; [lia|]. rewrite Po by lia. apply lookup_pr. lia. }
  assert (forall i, (i <= j)%nat -> tin s' i = tin s i) as Ht.
  { induction i as [|i IH]; intros Hi; [done|]. rewrite !tin_S, IH, Po by lia. done. }
  split; rewrite ?El', ?Pc, ?Ec.
  - unfold s'. cbn [procs]. rewrite length_app. cbn. lia.
  - intros i q Hi. destruct (Hback i q Hi) as [[_ H]|[[-> ->]|[-> ->]]]; [by apply (iv_local _ I)|done..].
  - intros i q Hi Hlt'. destruct (Hback i q Hi) as [[Hi' H]|[[-> ->]|[-> ->]]]; [apply (iv_parent _ I i q H); lia| |lia]. by destruct Hpc as [(_ & _ & ->)|(_ & _ & ->)].
  - by destruct Hpc as [(_ & -> & _)|(_ & -> & _)].
  - change (pipes s') with (pipes s). rewrite Hk. destruct Hpc as [(-> & -> & _)|(-> & -> & _)]; cbn; lia.
  - by destruct Hpc as [(_ & -> & _)|(_ & -> & _)].
  - intros i q Hi Hs. change (qu s' i) with (qu s i). destruct (Hback _ q Hi) as [[Hi' H]|[[Hi' ->]|[_ ->]]].
    + rewrite Po by lia. by apply (iv_eof _ I i q).
    + rewrite Ep in Hs. by destruct Hpc as [(_ & _ & ->)|(_ & _ & ->)].
    + rewrite Ec in Hs. by destruct Hpc as [(_ & -> & _)|(_ & -> & _)].
  - change (out s') with (out s). rewrite <- Hd. f_equal. unfold rest. rewrite El', Pc, tin_S, Pj, Ht by lia. change (qu s' j) with (qu s j).
    rewrite Hnew by (by destruct Hpc as [(-> & _)|(-> & _)]). cbn [app]. destruct Hlo as [_ Hl]. unfold locals in Hl. unfold last_rest. rewrite Ec.
    destruct Hpc as [(E & -> & Epp)|(E & -> & Epp)]; rewrite E in *; [destruct Hl as [-> _]|destruct j as [|j]; [lia|]]; cbn [outflow]; unfold main_out, pend; rewrite Ep, Epp; done.
  - change (out s') with (out s). rewrite Ho. destruct Hlo as [_ Hl]. unfold locals in Hl. destruct Hpc as [(E & -> & _)|(E & -> & _)]; rewrite E in *; cbn; lia.
Qed.

(** The end of the input. *)
Lemma inv_eof s i p c : inv s -> procs s !! S i = Some p -> qu s i = [] -> finished (pc (pr s i)) = true -> (pc p = SRead /\ c = SEof) \/ (pc p = SLoop /\ c = SCloseL) ->
  inv (put (S i) (goto c p) s).
Proof.
  intros I Hj Hq Hf Hpc. pose proof (lookup_lt_Some _ _ _ Hj) as Hlt. destruct (iv_local _ I _ _ Hj) as [Ht Hl]. unfold locals in Hl.
  assert (tin s (S i) = []) as Et by (rewrite tin_S, Hq, (finished_flow s I i Hf) by lia; done).
  apply (inv_put (S i) p (goto c p) s I Hj); rewrite ?Et; destruct Hpc as [[E ->]|[E ->]]; rewrite E in *; try done; cbn [goto pc].
  - intros Hm. rewrite (is_last s _ p I Hj) in Hm by (by rewrite E). lia.
  - pose proof (is_inner s _ p I Hj ltac:(by rewrite E)). lia.
  - by intros _ k [= <-].
  - by intros _ k [= <-].
  - cbn [outflow]. unfold pend. cbn [goto pc]. by rewrite E.
  - cbn [outflow]. unfold pend. cbn [goto pc]. by rewrite E.
  - intros _. split; [done|]. unfold last_rest. cbn [goto pc]. by rewrite E.
  - pose proof (is_inner s _ p I Hj ltac:(by rewrite E)). lia.
Qed.

Lemma reader_S s j p : inv s -> procs s !! j = Some p -> reading (pc p) = true -> exists i, j = S i.
Proof.
  intros I Hj Hr. destruct (iv_local _ I _ _ Hj) as [_ Hl]. unfold locals in Hl. destruct j as [|i]; [|by exists i]. exfalso. destruct (pc p); try done; lia.
Qed.

Lemma inv_reads s j p s' : inv s -> procs s !! j = Some p -> reading (pc p) = true -> step maxfile maxproc j s = Some s' -> inv s'.
Proof.
  intros I Hj Hr Hs. destruct (reader_S s j p I Hj Hr) as [i ->]. pose proof (read_spec s i p I Hj Hr) as R. destruct (iv_local _ I _ _ Hj) as [Ht Hl]. unfold step in Hs. rewrite Hj in Hs.
  unfold locals in Hl. destruct (pc p) eqn:Ec; try done; destruct (pipe_get _ _ _) as [x q k| | |] eqn:E; try done; injection Hs as <-; destruct R as [R1 R2].
  - subst k. pose proof (is_last s _ p I Hj ltac:(by rewrite Ec)) as El. apply (inv_read i p _ x q s I Hj R2); try done; try (by rewrite Ec); try lia.
    intros t _. unfold last_rest. cbn [goto set_prime pc prime_]. by rewrite Ec, sv_cons.
  - apply inv_eof; auto.
  - subst k. pose proof (is_inner s _ p I Hj ltac:(by rewrite Ec)) as El. apply (inv_read i p _ x q s I Hj R2); try (by rewrite Ec); try lia.
    + split; [|unfold locals]; cbn [goto set_n pc fds]; by destruct (Z.rem x (prime_ p) =? 0).
    + cbn [goto set_n pc]. by destruct (Z.rem x (prime_ p) =? 0).
    + cbn [goto set_n pc]. by destruct (Z.rem x (prime_ p) =? 0).
    + cbn [goto set_n pc]. by destruct (Z.rem x (prime_ p) =? 0).
    + cbn [goto set_n pc]. by destruct (Z.rem x (prime_ p) =? 0).
    + intros t _. cbn [outflow]. unfold pend. rewrite Ec. cbn [goto set_n pc n_ prime_ app]. destruct (Z.rem x (prime_ p) =? 0) eqn:Er.
      * rewrite filter_cons_False; [done|]. unfold nd. lia.
      * rewrite filter_cons_True; [done|]. unfold nd. lia.
  - apply inv_eof; auto.
Qed.

Lemma inv_writes s j p s' : inv s -> procs s !! j = Some p -> pc p = SWrite \/ pc p = MWrite -> step maxfile maxproc j s = Some s' -> inv s'.
Proof.
  intros I Hj Hpc Hs. pose proof (is_inner s j p I Hj ltac:(by destruct Hpc as [-> | ->])) as El. pose proof (fun x => write_spec s j p x I Hj El Hpc) as W.
  destruct (iv_local _ I _ _ Hj) as [Ht Hl]. unfold step in Hs. rewrite Hj in Hs. unfold locals in Hl. destruct Hpc as [E|E]; rewrite E in *.
  - rewrite W in Hs. destruct (_ <? _)%nat; [|done]. injection Hs as <-. apply (inv_write j p _ (n_ p) s I Hj El); auto; [done|].
    intros t. destruct j as [|j]; [lia|]. cbn [outflow]. unfold pend. cbn [goto pc prime_]. by rewrite E.
  - destruct Hl as (-> & Hp & Hch & Hn). destruct (n_ p <=? 280) eqn:En.
    + rewrite W in Hs. destruct (_ <? _)%nat; [|done]. injection Hs as <-. apply (inv_write 0 p _ (n_ p) s I Hj El); auto; try (cbn [set_n pc]; by rewrite E).
      * split; [|unfold locals]; cbn [set_n pc fds p1 child n_]; rewrite E; [done|]. split_and!; lia || done.
      * intros t. cbn [outflow]. unfold main_out. cbn [set_n pc n_]. rewrite E. rewrite seqZ_cons by lia. f_equal. f_equal; lia.
    + injection Hs as <-. apply (inv_put 0 p _ s I Hj); try (rewrite ?E; done); try lia.
      * split; [|done]. cbn [goto close fds pc]. rewrite Ht, Hp. done.
      * intros _. cbn [outflow]. unfold main_out. cbn [goto close pc]. rewrite E. rewrite seqZ_nil by lia. done.
Qed.

Lemma inv_waits s j p : inv s -> procs s !! j = Some p -> pc p = SWait \/ pc p = MWait -> inv (put j (goto Exited p) s).
Proof.
  intros I Hj Hpc. pose proof (is_inner s j p I Hj ltac:(by destruct Hpc as [-> | ->])) as El. destruct (iv_local _ I _ _ Hj) as [Ht Hl]. unfold locals in Hl.
  apply (inv_put j p _ s I Hj); try lia; destruct Hpc as [E|E]; rewrite E in *; try done.
  - intros _ i ->. lia.
  - intros _. destruct j as [|j]; [lia|]. cbn [outflow]. unfold pend. cbn [goto pc]. by rewrite E.
  - intros _. destruct Hl as [-> _]. cbn [outflow]. unfold main_out. cbn [goto pc]. by rewrite E.
Qed.

(** A process uses descriptors that were never set, because its pipe() was refused. *)
Definition wild (s : net) : Prop := exists j p, procs s !! j = Some p /\ pc p = Wild.

Lemma step_others s j s' i p : step maxfile maxproc j s = Some s' -> procs s !! i = Some p -> i <> j -> procs s' !! i = Some p.
Proof.
  intros Hs Hi Hne. assert (forall q, <[j := q]> (procs s) !! i = Some p) as H by (intros q; by rewrite list_lookup_insert_ne).
  unfold step, do_pipe, do_fork, do_close in Hs. repeat case_match; simplify_eq; cbn [procs put got]; try apply H; apply lookup_app_l_Some; apply H.
Qed.
Lemma wild_stays s j s' : wild s -> step maxfile maxproc j s = Some s' -> wild s'.
Proof.
  intros (i & p & Hi & Hp) Hs. exists i, p. split; [|done]. apply (step_others s j s' i p Hs Hi). intros <-. unfold step in Hs. by rewrite Hi, Hp in Hs.
Qed.

(** Every step keeps the invariant, as long as pipe() is not refused. *)
Lemma step_inv s j s' : (61 <= maxproc)%nat -> inv s -> step maxfile maxproc j s = Some s' -> inv s' \/ (wild s' /\ (maxfile < 120)%nat).
Proof.
  intros H2 I Hs. destruct (procs s !! j) as [p|] eqn:Hj; [|unfold step in Hs; by rewrite Hj in Hs]. pose proof Hs as Hs'. unfold step in Hs'. rewrite Hj in Hs'.
  assert (forall ok, pc p = MPipe \/ pc p = SPipe -> (files s + 2 <=? maxfile)%nat = false -> wild (do_pipe maxfile j p ok s) /\ (maxfile < 120)%nat) as Hw.
  { intros ok Hpc Ef. unfold do_pipe. rewrite Ef. split; [|pose proof (few_files s j p I Hj Hpc); lia]. exists j, (goto Wild p). split; [|done]. apply list_lookup_insert_eq. by apply lookup_lt_Some in Hj. }
  destruct (pc p) eqn:Ec; try done;
    try (left; by apply (inv_close s j p s' I Hj); [rewrite Ec|]); try (left; by apply (inv_reads s j p s' I Hj); [rewrite Ec|]);
    try (left; by apply (inv_writes s j p s' I Hj); [rewrite Ec; auto|]); try (left; injection Hs' as <-; apply inv_fork || apply inv_print; by auto).
  all: try (destruct (files s + 2 <=? maxfile)%nat eqn:Ef; injection Hs' as <-; [left; apply inv_pipe; auto|right; apply Hw; auto]).
  all: left; assert (s' = put j (goto Exited p) s) as -> by (repeat case_match; congruence); apply inv_waits; auto.
Qed.
End Steps.
