(* ===== verification/PrimesCorrect.v ===== *)
(** The pipeline of [Primes] ends, unless a pipe() is refused, and has then printed the primes up to 280 in order.

    [potential] bounds the length of every run, [progress] says that only a pipeline whose processes have all exited
    stops, and [sv_primes] that what the sieve leaves are the primes. *)
From Stdlib Require Import Znumtheory Sorted.
From S2P Require Import Prelude Machine Pipe Primes PrimesInv.
Local Open Scope Z_scope.

(** ** The sieve leaves the primes *)

Lemma sorted_filter {P : Z -> Prop} `{!forall x, Decision (P x)} l : StronglySorted Z.lt l -> StronglySorted Z.lt (filter P l).
Proof.
  induction 1 as [|x l Hs IH Hf]; [constructor|]. destruct (decide (P x)); [rewrite (filter_cons_True P x l) by assumption|rewrite (filter_cons_False P x l) by assumption; exact IH].
  constructor; [done|]. rewrite List.Forall_forall in *. intros y Hy. apply Hf. apply list_elem_of_In, list_elem_of_filter in Hy as [_ Hy]. by apply list_elem_of_In.
Qed.

Lemma sorted_seqZ n : forall m, StronglySorted Z.lt (seqZ m (Z.of_nat n)).
Proof.
  induction n as [|n IH]; intros m; [constructor|]. rewrite seqZ_cons by lia. replace (Z.pred (Z.of_nat (S n))) with (Z.of_nat n) by lia. constructor; [apply IH|].
  apply List.Forall_forall. intros x Hx. apply list_elem_of_In, elem_of_seqZ in Hx. lia.
Qed.

(** Every divisor of a number of the list has a divisor in the list. *)
Definition closed (l : list Z) : Prop := forall x d, In x l -> 2 <= d -> (d | x) -> exists e, In e l /\ (e | d).

Lemma in_filter p x l : In x (filter (nd p) l) <-> In x l /\ nd p x.
Proof. rewrite <- !list_elem_of_In, list_elem_of_filter. tauto. Qed.
Lemma nd_spec p x : p <> 0 -> nd p x <-> ~ (p | x).
Proof. intros Hp. unfold nd. rewrite Z.rem_divide by done. done. Qed.

Lemma closed_filter p l : 2 <= p -> closed (p :: l) -> closed (filter (nd p) l).
Proof.
  intros Hp Hc x d Hx Hd Hdx. apply in_filter in Hx as [Hx Hn]. apply nd_spec in Hn; [|lia]. destruct (Hc x d (or_intror Hx) Hd Hdx) as (e & He & Hed).
  exists e. split; [|done]. assert (~ (p | e)) as Hpe by (intros H; apply Hn; by do 2 (eapply Z.divide_trans; [eassumption|])).
  apply in_filter. rewrite nd_spec by lia. split; [|done]. destruct He as [<- | He]; [|done]. by destruct Hpe.
Qed.

Lemma head_prime p l : 2 <= p -> List.Forall (Z.lt p) l -> closed (p :: l) -> prime p.
Proof.
  intros Hp Hf Hc. destruct (prime_dec p) as [|Hn]; [done|]. exfalso. apply not_prime_divide in Hn as (n & Hn & Hd); [|lia].
  destruct (Hc p n ltac:(by left) ltac:(lia) Hd) as (e & [<- | He] & Hen).
  - apply Z.divide_pos_le in Hen; lia.
  - rewrite List.Forall_forall in Hf. apply Hf in He. apply Z.divide_pos_le in Hen; lia.
Qed.

Lemma sv_primes_fuel f : forall l, (length l <= f)%nat -> StronglySorted Z.lt l -> List.Forall (Z.le 2) l -> closed l ->
  StronglySorted Z.lt (sv l) /\ (forall x, In x (sv l) <-> In x l /\ prime x).
Proof.
  induction f as [|f IH]; intros [|p l] Hlen Hs H2 Hc; cbn in Hlen; try lia; try (split; [constructor|cbn; tauto]).
  apply StronglySorted_inv in Hs as [Hs Hf]. apply List.Forall_inv in H2 as Hp. apply List.Forall_inv_tail in H2. rewrite sv_cons.
  destruct (IH (filter (nd p) l)) as [I1 I2].
  - pose proof (length_filter (nd p) l). lia.
  - by apply sorted_filter.
  - rewrite List.Forall_forall in *. intros x Hx. apply in_filter in Hx as [Hx _]. by apply H2.
  - by apply closed_filter.
  - rewrite List.Forall_forall in Hf. pose proof (head_prime p l Hp ltac:(by apply List.Forall_forall) Hc) as Hpp. split.
    + constructor; [done|]. apply List.Forall_forall. intros x Hx. apply I2 in Hx as [Hx _]. apply in_filter in Hx as [Hx _]. by apply Hf.
    + intros x. cbn [In]. rewrite I2, in_filter, nd_spec by lia. split; [intros [<- | ((H & _) & H')]; tauto|]. intros [[<- | Hx] Hx']; [by left|]. right. split; [split; [done|]|done].
      intros Hd. apply prime_div_prime in Hd; [|done..]. specialize (Hf x Hx). lia.
Qed.

Lemma sv_primes : StronglySorted Z.lt (sv numbers) /\ forall x, In x (sv numbers) <-> 2 <= x <= 280 /\ prime x.
Proof.
  assert (forall x, In x numbers <-> 2 <= x <= 280) as Hn by (intros x; unfold numbers; rewrite <- list_elem_of_In, elem_of_seqZ; lia).
  destruct (sv_primes_fuel 279 numbers) as [H1 H2].
  - done.
  - apply (sorted_seqZ 279).
  - apply List.Forall_forall. intros x Hx. apply Hn in Hx. lia.
  - intros x d Hx Hd Hdx. exists d. split; [|apply Z.divide_refl]. apply Hn. apply Hn in Hx. apply Z.divide_pos_le in Hdx; lia.
  - split; [done|]. intros x. by rewrite H2, Hn.
Qed.

(** ** Every run ends *)

Fixpoint total {A} (w : nat -> A -> Z) (i : nat) (l : list A) : Z := match l with [] => 0 | x :: l => w i x + total w (S i) l end.

Lemma total_insert {A} (w : nat -> A -> Z) x y : forall l i j, l !! j = Some x -> total w i (<[j := y]> l) = total w i l + w (i + j)%nat y - w (i + j)%nat x.
Proof.
  induction l as [|z l IH]; intros i [|j] Hj; try done.
  - injection Hj as ->. change (<[0%nat := y]> (x :: l)) with (y :: l). cbn [total]. rewrite Nat.add_0_r. lia.
  - change (<[S j := y]> (z :: l)) with (z :: <[j := y]> l). cbn [total]. rewrite (IH (S i) j Hj). replace (i + S j)%nat with (S i + j)%nat by lia. lia.
Qed.
Lemma total_app {A} (w : nat -> A -> Z) x : forall l i, total w i (l ++ [x]) = total w i l + w (i + length l)%nat x.
Proof.
  induction l as [|z l IH]; intros i; cbn [total app length]; [rewrite Nat.add_0_r; lia|]. rewrite IH. replace (S i + length l)%nat with (i + S (length l))%nat by lia. lia.
Qed.
Lemma total_nonneg {A} (w : nat -> A -> Z) : forall l i, (forall j x, l !! j = Some x -> 0 <= w (i + j)%nat x) -> 0 <= total w i l.
Proof.
  induction l as [|z l IH]; intros i H; cbn [total]; [lia|]. pose proof (H 0%nat z eq_refl) as Hz. rewrite Nat.add_0_r in Hz.
  pose proof (IH (S i)) as Ht. specialize (Ht ltac:(intros j x Hj; specialize (H (S j) x Hj); by replace (S i + j)%nat with (i + S j)%nat by lia)). lia.
Qed.

Definition rank (c : pcs) : Z :=
  match c with
  | SPrint => 12 | SPipe => 11 | SFork => 10 | MPipe => 8 | MFork => 7 | SClose0 => 5
  | SLoop | SWrite | KClose1 => 4 | MClose0 | CClose1 | KCloseL | SCloseL => 3
  | MWrite | SRead | SClose1 => 2 | MWait | SWait | SEof => 1 | Exited | WriteError | Wild => 0
  end.
(** A number weighs less the further it has come. *)
Definition weight (k : nat) : Z := 100 * (62 - Z.of_nat k).
Definition held (j : nat) (p : proc) : Z :=
  match pc p with
  | MPipe | MFork | MClose0 => 279 * (weight 0 + 100)
  | MWrite => (281 - n_ p) * (weight 0 + 100)
  | SWrite => weight j + 50
  | _ => 0
  end.
Definition pw (j : nat) (p : proc) : Z := rank (pc p) + held j p.
Definition qw (k : nat) (q : list Z) : Z := Z.of_nat (length q) * weight k.
Definition potential (s : net) : Z := total pw 0 (procs s) + total qw 0 (pipes s).

Lemma procs_few s j p : inv s -> procs s !! j = Some p -> (j <= 60)%nat.
Proof. intros I Hj. apply lookup_lt_Some in Hj. pose proof (few_procs s I). unfold last in *. lia. Qed.

Lemma potential_nonneg s : inv s -> 0 <= potential s.
Proof.
  intros I. unfold potential. assert (0 <= total pw 0 (procs s)) as H1.
  { apply total_nonneg. intros j p Hj. cbn [Nat.add]. pose proof (procs_few s j p I Hj) as Hk. destruct (iv_local _ I _ _ Hj) as [_ Hl]. unfold locals in Hl. unfold pw, held, weight.
    destruct (pc p); cbn [rank]; lia. }
  assert (0 <= total qw 0 (pipes s)) as H2; [|lia].
  apply total_nonneg. intros k q Hk. apply lookup_lt_Some in Hk. pose proof (iv_pipes _ I) as Hp. pose proof (few_procs s I) as Hn. unfold qw, weight. cbn [Nat.add].
  assert (piped (pc (pr s (last s))) <= 1)%nat by (destruct (pc (pr s (last s))); cbn; lia). nia.
Qed.

Lemma potential_put s j p p' : procs s !! j = Some p -> potential (put j p' s) = potential s + pw j p' - pw j p.
Proof. intros Hj. unfold potential, put. cbn [procs pipes]. rewrite (total_insert pw p p' _ 0 j Hj). cbn [Nat.add]. lia. Qed.
Lemma potential_got s j p p' k q q' : procs s !! j = Some p -> pipes s !! k = Some q ->
  potential (got j p' k q' s) = potential s + pw j p' - pw j p + qw k q' - qw k q.
Proof. intros Hj Hk. unfold potential, got. cbn [procs pipes]. rewrite (total_insert pw p p' _ 0 j Hj), (total_insert qw q q' _ 0 k Hk). cbn [Nat.add]. lia. Qed.

Section Runs.
Context (maxfile maxproc : nat).

Lemma pipe_lowers s j p ok : procs s !! j = Some p -> (pc p = MPipe /\ ok = MFork) \/ (pc p = SPipe /\ ok = SFork) -> potential (do_pipe maxfile j p ok s) < potential s.
Proof.
  intros Hj Hpc. unfold do_pipe. destruct (_ <=? _)%nat.
  - set (p' := goto ok _). assert (potential (Net (procs (put j p' s)) (pipes (put j p' s) ++ [[]]) (out (put j p' s))) = potential (put j p' s)) as ->.
    { unfold potential. cbn [procs pipes put]. rewrite total_app. unfold qw at 2. cbn [length]. lia. }
    rewrite (potential_put s j p p' Hj). unfold pw, held, p'. cbn [goto pc]. destruct Hpc as [[-> ->]|[-> ->]]; cbn [rank]; lia.
  - rewrite (potential_put s j p _ Hj). unfold pw, held. cbn [goto pc]. unfold weight. destruct Hpc as [[-> ->]|[-> ->]]; cbn [rank]; lia.
Qed.
Lemma fork_lowers s j p cpc ppc : procs s !! j = Some p ->
  (pc p = MFork /\ cpc = CClose1 /\ ppc = MClose0) \/ (pc p = SFork /\ cpc = KClose1 /\ ppc = SClose0) -> potential (do_fork maxproc j p cpc ppc s) < potential s.
Proof.
  intros Hj Hpc. unfold do_fork. destruct (_ <? _)%nat.
  - unfold potential. cbn [procs pipes]. rewrite total_app, (total_insert pw p _ _ 0 j Hj). unfold pw at 2 3 4, held. cbn [goto set_child pc].
    destruct Hpc as [(-> & -> & ->)|(-> & -> & ->)]; cbn [rank]; lia.
  - rewrite (potential_put s j p _ Hj). unfold pw, held. cbn [goto pc]. destruct Hpc as [(-> & -> & ->)|(-> & -> & ->)]; cbn [rank]; lia.
Qed.

Lemma read_lowers s j p s' : inv s -> procs s !! j = Some p -> reading (pc p) = true -> step maxfile maxproc j s = Some s' -> potential s' < potential s.
Proof.
  intros I Hj Hr Hs. destruct (reader_S s j p I Hj Hr) as [i ->]. pose proof (read_spec s i p I Hj Hr) as R. pose proof (procs_few s _ p I Hj) as Hk. unfold step in Hs. rewrite Hj in Hs.
  pose proof (pipe_there s i I ltac:(by apply lookup_lt_Some in Hj)) as Hq.
  destruct (pc p) eqn:Ec; try done; destruct (pipe_get _ _ _) as [x q k| | |] eqn:E; try done; injection Hs as <-; destruct R as [R1 R2].
  - subst k. rewrite R2 in Hq. rewrite (potential_got s _ p _ i _ q Hj Hq). unfold pw, held, qw, weight. cbn [goto set_prime pc length]. rewrite Ec. cbn [rank]. lia.
  - rewrite (potential_put s _ p _ Hj). unfold pw, held. cbn [goto pc]. rewrite Ec. cbn [rank]. lia.
  - subst k. rewrite R2 in Hq. rewrite (potential_got s _ p _ i _ q Hj Hq). unfold pw, held, qw, weight. cbn [goto set_n pc length]. rewrite Ec. destruct (_ =? _); cbn [rank]; lia.
  - rewrite (potential_put s _ p _ Hj). unfold pw, held. cbn [goto pc]. rewrite Ec. cbn [rank]. lia.
Qed.

Lemma write_lowers s j p s' : inv s -> procs s !! j = Some p -> pc p = SWrite \/ pc p = MWrite -> step maxfile maxproc j s = Some s' -> potential s' < potential s.
Proof.
  intros I Hj Hpc Hs. pose proof (is_inner s j p I Hj ltac:(by destruct Hpc as [-> | ->])) as El. pose proof (fun x => write_spec s j p x I Hj El Hpc) as W.
  pose proof (pipe_there s j I ltac:(unfold last in El; lia)) as Hq. destruct (iv_local _ I _ _ Hj) as [_ Hl]. unfold step in Hs. rewrite Hj in Hs. unfold locals in Hl. destruct Hpc as [E|E]; rewrite E in *.
  - rewrite W in Hs. destruct (_ <? _)%nat; [|done]. injection Hs as <-. rewrite (potential_got s _ p _ j _ _ Hj Hq). unfold pw, held, qw. cbn [goto pc]. rewrite E, length_app. cbn [rank length]. lia.
  - destruct Hl as (-> & _ & _ & Hn). destruct (n_ p <=? 280) eqn:En.
    + rewrite W in Hs. destruct (_ <? _)%nat; [|done]. injection Hs as <-. rewrite (potential_got s _ p _ 0 _ _ Hj Hq). unfold pw, held, qw, weight. cbn [set_n pc n_]. rewrite E, length_app. cbn [rank length]. lia.
    + injection Hs as <-. rewrite (potential_put s _ p _ Hj). unfold pw, held, weight. cbn [goto close pc]. rewrite E. cbn [rank]. lia.
Qed.

Lemma step_lowers s j s' : inv s -> step maxfile maxproc j s = Some s' -> potential s' < potential s.
Proof.
  intros I Hs. destruct (procs s !! j) as [p|] eqn:Hj; [|unfold step in Hs; by rewrite Hj in Hs]. pose proof Hs as Hs'. unfold step in Hs'. rewrite Hj in Hs'.
  destruct (pc p) eqn:Ec; try done; try (by apply (read_lowers s j p s' I Hj); [rewrite Ec|]); try (by apply (write_lowers s j p s' I Hj); [rewrite Ec; auto|]);
    try (injection Hs' as <-; apply pipe_lowers || apply fork_lowers; by auto).
  all: try (assert (s' = put j (goto Exited p) s) as -> by (repeat case_match; congruence)).
  all: try injection Hs' as <-.
  all: rewrite ?(potential_put s j p _ Hj); try (unfold potential at 1; cbn [procs pipes]; rewrite (total_insert pw p _ _ 0 j Hj); unfold potential).
  all: unfold pw, held, weight; cbn [goto close set_n set_left pc n_ Nat.add]; rewrite ?Ec; cbn [rank]; lia.
Qed.

(** ** A pipeline that has not ended can go on *)

Definition can_step (s : net) : Prop := exists j s', step maxfile maxproc j s = Some s'.

Lemma can s j s' : step maxfile maxproc j s = Some s' -> can_step s.
Proof. intros H. by exists j, s'. Qed.

(** While some process waits for the next number, one of those before it can go on. *)
Lemma feeder_steps s : inv s -> forall j, (S j < length (procs s))%nat -> qu s j = [] -> wr j (pc (pr s j)) = Some j -> can_step s.
Proof.
  intros I. induction j as [j IH] using lt_wf_ind. intros Hlt Hq Hw. pose proof (lookup_pr s j ltac:(lia)) as Hj. set (p := pr s j) in *.
  pose proof (iv_parent _ I j p Hj ltac:(unfold last; lia)) as Hp. assert (j < last s)%nat as Hin by (unfold last; lia).
  assert (step maxfile maxproc j s = step maxfile maxproc j s) as Hs by done. unfold step in Hs at 2. rewrite Hj in Hs.
  destruct (pc p) eqn:Ec; try done; try (by apply can in Hs).
  - rewrite (write_spec s j p _ I Hj Hin), Hq in Hs by auto. change (length (@nil Z) <? PIPEINTS)%nat with true in Hs. destruct (n_ p <=? 280); by apply can in Hs.
  - pose proof (read_spec s) as R. destruct (reader_S s j p I Hj ltac:(by rewrite Ec)) as [i ->]. specialize (R i p I Hj ltac:(by rewrite Ec)).
    destruct (pipe_get _ _ _); try (by apply can in Hs). destruct R as [R1 R2]. apply (IH i); [lia|lia|done..].
  - rewrite (write_spec s j p _ I Hj Hin), Hq in Hs by auto. change (length (@nil Z) <? PIPEINTS)%nat with true in Hs. by apply can in Hs.
Qed.

(** The processes exit from the last to the first. *)
Lemma waiter_steps s : inv s -> forall m, (m <= last s)%nat -> (forall i, (m <= i <= last s)%nat -> pc (pr s i) = Exited) ->
  can_step s \/ forall i, (i <= last s)%nat -> pc (pr s i) = Exited.
Proof.
  intros I. induction m as [|i IH]; intros Hm Hx; [right; intros i Hi; apply Hx; lia|]. pose proof (iv_n _ I) as Hn.
  pose proof (lookup_pr s i ltac:(unfold last in Hm; lia)) as Hi. pose proof (lookup_pr s (S i) ltac:(unfold last in Hm; lia)) as Hc.
  destruct (iv_eof _ I i _ Hc ltac:(rewrite Hx by lia; done)) as [Hf _]. destruct (iv_local _ I _ _ Hi) as [_ Hl]. unfold locals in Hl. destruct (pc (pr s i)) eqn:Ec; try done.
  - left. exists i, (put i (goto Exited (pr s i)) s). unfold step. rewrite Hi, Ec, Hc. destruct Hl as [_ ->]. by rewrite bool_decide_eq_true_2 by (apply Hx; lia).
  - left. exists i, (put i (goto Exited (pr s i)) s). unfold step. rewrite Hi, Ec, Hc. destruct Hl as [_ ->]. by rewrite bool_decide_eq_true_2 by (apply Hx; lia).
  - apply IH; [lia|]. intros k Hk. destruct (decide (k = i)) as [->|]; [done|]. apply Hx. lia.
Qed.

Lemma progress s : inv s -> can_step s \/ forall i, (i <= last s)%nat -> pc (pr s i) = Exited.
Proof.
  intros I. pose proof (iv_n _ I) as Hn. pose proof (lookup_pr s (last s) ltac:(unfold last; lia)) as Hj. pose proof (iv_last _ I) as Hf. set (p := pr s (last s)) in *.
  assert (step maxfile maxproc (last s) s = step maxfile maxproc (last s) s) as Hs by done. unfold step in Hs at 2. rewrite Hj in Hs. destruct (iv_local _ I _ _ Hj) as [_ Hl]. unfold locals in Hl.
  destruct (pc p) eqn:Ec; try done; try (left; by apply can in Hs).
  - left. destruct (reader_S s _ p I Hj ltac:(by rewrite Ec)) as [i Ei]. rewrite Ei in Hj. pose proof (read_spec s i p I Hj ltac:(by rewrite Ec)) as R.
    destruct (pipe_get _ _ _); try (by apply can in Hs). destruct R as [R1 R2]. apply (feeder_steps s I i); [unfold last in Ei; lia|done..].
  - apply (waiter_steps s I (last s)); [done|]. intros i Hi. by replace i with (last s) by lia.
Qed.

Lemma start_inv : inv start.
Proof.
  split; cbn; try done; try lia.
  - intros [|j] p Hj; [|done]. injection Hj as <-. by split.
Qed.

Lemma run_inv sched : (61 <= maxproc)%nat -> forall s s', run maxfile maxproc sched s = Some s' ->
  (wild s -> wild s') /\ (inv s -> (wild s' /\ (maxfile < 120)%nat) \/ (inv s' /\ Z.of_nat (length sched) + potential s' <= potential s)).
Proof.
  intros H2. induction sched as [|j l IH]; intros s s' Hr; cbn [run length] in *; [injection Hr as <-; split; [done|]; intros I; right; split; [done|lia]|].
  destruct (step maxfile maxproc j s) as [t|] eqn:Es; [|done]. destruct (IH t s' Hr) as [IHw IHi]. split; [intros Hw; by apply IHw, (wild_stays maxfile maxproc s j t)|].
  intros I. destruct (step_inv maxfile maxproc s j t H2 I Es) as [It|[Hw Hm]]; [|left; by auto]. pose proof (step_lowers s j t I Es). destruct (IHi It) as [|[I' Hp]]; [by left|]. right. split; [done|lia].
Qed.
End Runs.

(** C8: user/primes.c, however its processes are scheduled.  With room for 61 processes, either a stage has gone on with
    descriptors that were never set, because its pipe() found no room, which takes a table of fewer than 120 open ends;
    or the run is at most 1757708 system calls long, the output so far is a prefix of the primes up to 280 in increasing
    order, and there is no deadlock: when no process can go on, all have exited and the output is the whole list. *)
Theorem primes_correct maxfile maxproc sched s : (61 <= maxproc)%nat -> run maxfile maxproc sched start = Some s ->
  ((maxfile < 120)%nat /\ exists j p, procs s !! j = Some p /\ pc p = Wild) \/
  exists l, StronglySorted Z.lt l /\ (forall x, In x l <-> 2 <= x <= 280 /\ prime x) /\
    Z.of_nat (length sched) <= 1757708 /\ out s `prefix_of` l /\
    ((exists j s', step maxfile maxproc j s = Some s') \/ (Forall (fun p => pc p = Exited) (procs s) /\ out s = l)).
Proof.
  intros H2 Hr. destruct (run_inv maxfile maxproc sched H2 start s Hr) as [_ H]. destruct (H start_inv) as [[Hw Hm]|[I Hp]]; [left; by split|right].
  pose proof (potential_nonneg s I). change (potential start) with 1757708 in Hp. destruct sv_primes as [S1 S2]. exists (sv numbers).
  split_and!; [done|done|lia|rewrite <- (iv_data _ I); by eexists|]. destruct (progress maxfile maxproc s I) as [Hc|Hx]; [by left|right]. split.
  - apply Forall_lookup. intros i p Hi. rewrite <- (pr_lookup _ _ _ Hi). apply Hx. apply lookup_lt_Some in Hi. unfold last. lia.
  - rewrite <- (iv_data _ I). unfold rest, last_rest. rewrite Hx by lia. by rewrite app_nil_r.
Qed.

(** Room for 120 ends: the first prime is printed. *)
Lemma primes_correct_witness : exists s, run 120 61 [0; 0; 0; 1; 0; 0; 1; 1]%nat start = Some s /\ out s = [2] /\
  (((120 < 120)%nat /\ exists j p, procs s !! j = Some p /\ pc p = Wild) \/
  exists l, StronglySorted Z.lt l /\ (forall x, In x l <-> 2 <= x <= 280 /\ prime x) /\
    Z.of_nat (length [0; 0; 0; 1; 0; 0; 1; 1]%nat) <= 1757708 /\ out s `prefix_of` l /\
    ((exists j s', step 120 61 j s = Some s') \/ (Forall (fun p => pc p = Exited) (procs s) /\ out s = l))).
Proof.
  eexists. split; [vm_compute; reflexivity|]. split; [reflexivity|]. apply (primes_correct 120 61); [lia|vm_compute; reflexivity].
Defined.

(** pipe() is not checked: with room for two pipes, the third stage goes on with descriptors that were never set. *)
Example primes_few_files : existsb (fun p => bool_decide (pc p = Wild)) (procs (youngest 4 61 60 start)) = true.
Proof. vm_compute. reflexivity. Qed.
